(* ===== verification/_CoqProject ===== *)
-Q . S2P
Prelude.v
RingBuffer.v
Tcom.v
Framing.v
Scom.v
UdsBase.v
UdsDiag.v
UdsServices.v
UdsServer.v
UdsAccess.v
UdsProps.v
UdsDtc.v
Pm.v
J1939.v
Md5.v
Aes.v
File.v
Clist.v
Dir.v
Rds.v
Cfg.v
CfgProps.v
Cstd.v
Doubles.v
Gps.v
Dbc.v
DbcBits.v
DbcLoad.v
DbcData.v
Can.v
CanBus.v
GbData.v
GbQueue.v
GbSteps.v
Sock.v
GbProt.v
GbRecv.v
GbLink.v
