(* ===== verification/Prelude.v ===== *)
(** * MPU-trunk: verification library of the telematics box application

    The repository is the application of a vehicle's telematics box: one C process
    with a thread per module, between the modem (AT commands), the vehicle buses
    (CAN through a second processor, MCU), the diagnosis tester and the servers of
    the vehicle makers.  This library models the parts that carry the box's own
    logic and proves them correct.

    ** Parts and files

    - [Prelude] (this file): 8, 16 and 32-bit integers, memory blocks with
      checked accesses ([mem_read], [mem_write], [memcpy], [block_at]), the state
      monad [ST] with undefined behaviour as [None], the relation [steps_by] for
      what a computation may change with the hint database [steps], the total
      weakest precondition [wp], list lemmas.
    - [RingBuffer]: src/mid/ringbuffer/ring_buffer.c.
    - [Framing]: src/mid/msg/msg_parse.c, include/msg_parse.h and the receive
      branch of the thread in app/base/scom/scom_main.c.  Frames between the two
      processors: encoder, both decoders.
    - [Scom]: app/base/scom/scom_tl.c.  The transport layer on top: connection,
      messages to handlers, bulk transfer through two ring buffers.
    - [UdsBase], [UdsDiag], [UdsServices], [UdsServer]: app/base/uds.  State,
      timers and responses; fault memory and trouble codes; the handlers of the
      services; the dispatcher, the proxy and the messages of the thread.
      [UdsAccess], [UdsProps] and [UdsDtc] hold their theorems.
    - [Pm]: app/base/pm.  The table of modules that are asked before the box
      sleeps, and the state machine of sleep, power off, restart and update.
    - [J1939]: app/base/uds/J1939/J1939.c.  Vehicle faults from the bus.
    - [Md5]: src/mid/md5/md5.c.  [Aes]: src/mid/aes/aes.c.
    - [File], [Dir], [Rds]: src/mid/file/file.c with src/mid/dev_rw/dev_rw.c,
      src/mid/dir/dir.c and src/mid/rds/rds.c.  The data that must survive a loss
      of power: atomic replacement, copies, and the store with a backup.
    - [Cfg], [CfgProps]: app/base/cfg.  The configuration parameters: one buffer with
      a table of offsets, callbacks, defaults, and the buffer in the data store.
    - [Tcom]: app/base/tcom/tcom_main.c.  The message queues between the threads.
    - [Clist]: src/mid/list/list.c.  Doubly linked lists in one memory of links.
    - [Cstd]: what the modules below use of the C library: doubles, strings, [sscanf].
      [Doubles]: doubles that are integers are exact.
    - [Gps]: app/base/gps.  The receiver of the positioning module: sentences from the
      stream of bytes, decoding, local time, distance.
    - [Dbc]: app/base/can/can_dbc.c.  The database of the signals on the buses: the
      parser of DBC files with the suffixes of the signal names, the decoding of
      the messages, the interface to the other modules.  [DbcBits], [DbcLoad] and
      [DbcData] hold the theorems: bits of a signal, loading, values.
    - [Can], [CanBus]: app/base/can/can_main.c.  The thread of the CAN bus and its
      theorems.
    - [GbData], [GbQueue], [GbSteps]: app/interface/gb32960/gb32960_data.c.  The
      reports of the national standard GB/T 32960: the tables that the signal
      database fills, the encoders, the queues of report packs with the recorder
      of the last thirty seconds, and the histories of the two threads on them.
    - [Sock]: app/base/sock/sock.c.  A client socket with its list of messages
      that the peer has not acknowledged.
    - [GbProt], [GbRecv]: app/interface/gb32960/gb32960_prot.c.  The loop of the
      protocol thread ([GbProt.gb_iteration]): connection, receiver, login, logout
      and reports; and the theorems about the receiver.
    - [GbLink]: the protocol thread, the CAN thread and the connection attempts as
      one transition system.

    A definition has the name of the C function, type or constant it translates.
    A C function with static variables is a computation over a record of these
    variables; [None] is undefined behaviour (an access out of bounds, a null
    pointer, a signed overflow, a loop that never ends); calls into other modules
    that the model does not follow are logged in the record, and what a function
    reads from outside (answers of handlers, clock, results of system calls) comes
    from an environment that the theorems quantify over.

    ** How the parts interact

    [Scom] stores into two rings of [RingBuffer] and sends through [msg_encode] of
    [Framing]; the frames that [Framing] decodes are given to the message handlers
    of [Scom], of which the UDS proxy is one: [UdsServer.uds_main_step] takes what
    that handler posted to the thread, and the responses go out as messages of
    [Scom].  The fault memory of [UdsDiag] and the table of [J1939] are saved
    through [Rds.rds_update_once], which is an event in the models of both; [Cfg] runs
    [Rds.rds_update_once] and [Rds.rds_get] on the files that are a part of its state;
    [Rds] uses [Md5] through [File].  [GbQueue] links its packs with the operations of
    [Clist] and fills them with [GbData.gb_data_save_all]; [GbProt] takes the packs
    from there, sends them through [Sock], and gives [gb_data_ack_pack] as the
    callback that [Sock.sock_sync] calls.  The answers of the modules to the power
    manager are parameters of [Pm].  [Can] runs the database of [Dbc] as a part of its
    state; the callbacks of the other modules are the interface [Dbc.DbcClient] with
    the laws [DbcLoad.DbcClientOk], against which the theorems on the database are
    proved ([GbData.gb_data_parse_surfix] is such a callback, and breaks a law for
    short suffixes); its digest is that of [Md5].

    ** What the theorems show

    - [RingBuffer]: the ring refines a bounded queue for all runs of the 32-bit
      positions; [rb_get] does so only before the positions have advanced.
    - [Framing]: the receive path refines a byte-wise scanner for every way in
      which the stream is cut into reads; encoding and receiving is a round trip;
      after noise the receiver is in step again with the next marker.
    - [Scom]: what a client reads in a bulk transfer is always a prefix of the
      data, and in the end the data; the server answers with exactly the frames
      that exist; the connection state changes only as intended.  Two errors of
      the client are theorems too.
    - [UdsAccess]: every message changes session and security level only by the
      rules of a small access specification, which the bit tables of the
      dispatcher implement; the default session is locked in all runs.
    - [UdsProps]: requests are answered for their own service only; the exchange
      of seed and key unlocks; three wrong keys lock for ever; timers; lengths.
    - [UdsDtc]: the layout of the fault memory, confirmation, reports, clearing.
    - [Pm]: well formed states in all runs; the table of handlers refines a
      specification of the power states; an idle box sleeps.
    - [J1939]: accesses are in bounds exactly up to an announced size of 1029
      bytes; the table of faults refines a finite map with its notifications;
      transfers are a round trip.
    - [Md5]: the digest does not depend on how the message is cut.
    - [Aes]: decryption gives the padded message back; the tables are those of the
      finite field of the standard.
    - [Gps]: the sentences of a stream without zero bytes and overlong lines are decoded
      in order, however it is cut into reads; the local time is eight hours later in the
      calendar until the last eight hours of 2099.
    - [Rds]: a loss of power at any point of an update or of a recovering read,
      with any failing system calls, leaves each type of data with its old or its
      new value, if the master was intact or the rename is not lost.
    - [CfgProps]: the configuration refines a map from numbers to values that tells
      the registered modules of each change; after a loss of power while a value is
      set the next start has the old or the new configuration, under the condition of
      [Rds]; what the start without stored data gives.
    - [Tcom]: in every interleaving of senders, the forwarding thread and receivers a
      module gets the messages sent to it in order, all of them if the pipes accept
      them and the bodies fit into the rings.
    - [Clist]: the operations on the links implement finite sequences, for any
      number of lists in one memory.
    - [DbcBits], [DbcLoad], [DbcData]: a signal has the bits that the database file
      gives it, up to 63; loading is defined for all bytes and leaves a well formed
      database or the old one; the values follow a reference that knows no callbacks,
      and stay within their limits.
    - [CanBus]: the modules get the messages of the bus once, in order, in batches;
      what they hear of activity, silence, sleep and wakeup follows an automaton in
      all runs of the thread up to the load of a signal of 64 bits.
    - [GbData]: any lines of a database leave well formed tables, up to the index
      that is not checked; a report fits into a pack if there are at most 200 fuel cell
      temperatures; the reports of a group carry every cell once; the warning field.
    - [GbSteps]: in every interleaving of the CAN thread and the protocol thread
      in which none clears the queues while the other one works on them, each pack is
      in one place and each step is defined unless all packs are in flight; the code
      does not exclude such a clear, after which a pack is in two lists
      ([GbSteps.gb_queues_collision]); the recorder hands on exactly the last thirty seconds; what was not
      acknowledged is sent again in the old order.
    - [Sock]: sending and acknowledging refine a queue of messages with byte
      positions.
    - [GbRecv]: a stream of packets of 1 to 999 bytes without inner marks is handled
      packet by packet, however it is cut into reads; a wrong announced length overflows the buffer.
    - [GbLink]: with whole rounds of the protocol thread as steps, and without a clear
      of the queues on an open connection or during an error flush, the packs that wait
      for an acknowledgement while online are the callbacks that the socket holds.

    ** Bounds, fuel and assumptions

    Loops over arrays recurse over a count of the rows or bytes that the C loop
    visits, so no fuel can run out.  [UdsServices.tukey_loop] polls a clock and has
    fuel: [UdsProps.tukey_loop_terminates] gives an amount that is enough.  The
    fuel of [J1939.dm_loop] is the length of the data, of which each round uses
    four bytes.  The loops of [GbQueue] that empty a list have the number of packs
    as fuel, and the ring of errors its size; [GbSteps.gb_queues_progress] shows
    that it never runs out.  Doubles are the binary64 numbers of the Standard
    Library; a conversion to an integer out of its range is undefined.  [sscanf]
    is defined for the directives that the code uses.  [Dbc.load_lines] and
    [Dbc.suffix_loop] have the length of what is left as fuel, of which each round
    takes a character; [DbcData.dbc_load_total] shows that it never runs out.  The decoding loops of [Framing] recurse over the number of unread
    bytes, which is enough: the theorems give their results.  [File] assumes what the code relies on: that
    changes reach the disk in the order of the calls ([fsync] precedes each
    rename) and that a rename is atomic; [Rds.small] that no file has 2 GiB.  The
    order in which [fts] lists a directory is a parameter of [Dir]; only its
    documented prefix of the paths is assumed.

    ** Not modelled

    Locks and preemption (each operation is a step of its own; a module's
    operations run in its thread or under its mutex, except for the table of
    [J1939], which has none; [GbSteps] and [Tcom] have the interleavings of their
    threads), log output, the shell commands, the threads' loops around [select].
    Vendored code: HTTP client, compression, MQTT packets, FTP, XML.  Glue without
    logic of its own: process start, drivers, system calls, the scripts of the
    factory test and of the vehicle data service.  The commands of the modem and the
    dialling of the network manager, whose answers come as free text from hardware
    that the repository does not describe, the firmware update, and the protocols of the
    vehicle makers: foton and hozon are copies of the code for GB/T 32960, which is
    modelled, with other fields.  The units bcd, base64 and hash are called by no
    module. *)

From stdpp Require Export base option list list_numbers numbers.
From Stdlib Require Export ZArith Lia.
From Stdlib Require Ascii String.

#[global] Open Scope Z_scope.

(** ** Machine integers *)

(** Conversion of a mathematical integer to an unsigned C type: reduction
    modulo the width. *)
Definition u8 (z : Z) : Z := z mod 2 ^ 8.
Definition u16 (z : Z) : Z := z mod 2 ^ 16.
Definition u32 (z : Z) : Z := z mod 2 ^ 32.
Definition u64 (z : Z) : Z := z mod 2 ^ 64.

(** Conversion to [int] (two's complement, 32 bits). *)
Definition s32 (z : Z) : Z := (z + 2 ^ 31) mod 2 ^ 32 - 2 ^ 31.

Definition is_byte (z : Z) : Prop := 0 <= z < 256.
Definition is_u16 (z : Z) : Prop := 0 <= z < 65536.
Definition is_u32 (z : Z) : Prop := 0 <= z < 2 ^ 32.

(** The bytes of a C string. *)
Definition c_chars (s : String.string) : list Z :=
  map (fun a => Z.of_nat (Ascii.nat_of_ascii a)) (String.list_ascii_of_string s).

(** Length of a list as a [Z]. *)
Definition len {A} (l : list A) : Z := Z.of_nat (length l).
Arguments len {A} l : simpl never.

(** ** Memory blocks

    A C object that is accessed by index is the list of its cells.  An access
    outside the block is undefined behaviour: the result is [None]. *)
Definition mem_get {A} (b : list A) (i : Z) : option A :=
  if 0 <=? i then b !! Z.to_nat i else None.

Definition mem_set {A} (b : list A) (i : Z) (v : A) : option (list A) :=
  if (0 <=? i) && (i <? len b) then Some (<[Z.to_nat i := v]> b) else None.

Definition mem_read {A} (b : list A) (off n : Z) : option (list A) :=
  if (0 <=? off) && (0 <=? n) && (off + n <=? len b)
  then Some (take (Z.to_nat n) (drop (Z.to_nat off) b)) else None.

Definition mem_write {A} (b : list A) (off : Z) (src : list A) : option (list A) :=
  if (0 <=? off) && (off + len src <=? len b)
  then Some (take (Z.to_nat off) b ++ src ++ drop (Z.to_nat (off + len src)) b)
  else None.

(** [memcpy(dst + doff, src + soff, n)]. *)
Definition memcpy {A} (dst : list A) (doff : Z) (src : list A) (soff n : Z)
    : option (list A) :=
  s ← mem_read src soff n; mem_write dst doff s.

(** ** Tactics *)

Create HintDb c_int.
Create HintDb c_mem.
Create Rewrite HintDb len.

(** Case analysis on the boolean tests of the code. *)
Ltac case_bool :=
  match goal with
  | H : context [?a <=? ?b] |- _ => destruct (Z.leb_spec a b)
  | |- context [?a <=? ?b] => destruct (Z.leb_spec a b)
  | H : context [?a <? ?b] |- _ => destruct (Z.ltb_spec a b)
  | |- context [?a <? ?b] => destruct (Z.ltb_spec a b)
  | H : context [?a =? ?b] |- _ => destruct (Z.eqb_spec a b)
  | |- context [?a =? ?b] => destruct (Z.eqb_spec a b)
  end.

(** ** Machine integer lemmas *)

Lemma u8_range z : 0 <= u8 z < 256.
Proof. unfold u8. apply Z.mod_pos_bound. lia. Qed.

Lemma u16_range z : 0 <= u16 z < 65536.
Proof. unfold u16. apply Z.mod_pos_bound. lia. Qed.

Lemma u32_range z : 0 <= u32 z < 2 ^ 32.
Proof. unfold u32. apply Z.mod_pos_bound. lia. Qed.

Lemma u8_small z : is_byte z -> u8 z = z.
Proof. intros. apply Z.mod_small. unfold is_byte in *. lia. Qed.

Lemma u16_small z : is_u16 z -> u16 z = z.
Proof. intros. apply Z.mod_small. unfold is_u16 in *. lia. Qed.

Lemma u32_small z : is_u32 z -> u32 z = z.
Proof. intros. apply Z.mod_small. unfold is_u32 in *. lia. Qed.

Lemma s32_small z : - 2 ^ 31 <= z < 2 ^ 31 -> s32 z = z.
Proof. intros. unfold s32. rewrite Z.mod_small; lia. Qed.

(** [int] variables assigned from an unsigned expression. *)
Lemma s32_u32_small z : - 2 ^ 31 <= z < 2 ^ 31 -> s32 (u32 z) = z.
Proof.
  intros. rewrite <- (s32_small z) at 2 by done. unfold s32, u32.
  by rewrite Zplus_mod_idemp_l.
Qed.

Lemma u32_add_u32_l a b : u32 (u32 a + b) = u32 (a + b).
Proof. apply Zplus_mod_idemp_l. Qed.

Lemma u32_sub_u32_l a b : u32 (u32 a - b) = u32 (a - b).
Proof. apply Zminus_mod_idemp_l. Qed.

Lemma u32_sub_u32_r a b : u32 (a - u32 b) = u32 (a - b).
Proof. apply Zminus_mod_idemp_r. Qed.

(** Reduction to 32 bits is invisible below a power of two that fits. *)
Lemma u32_mod_pow2 z k : 0 <= k <= 32 -> u32 z mod 2 ^ k = z mod 2 ^ k.
Proof.
  intros. unfold u32.
  replace (2 ^ 32) with (2 ^ k * 2 ^ (32 - k)) by (rewrite <- Z.pow_add_r by lia; f_equal; lia).
  rewrite Z.rem_mul_r by (try apply Z.pow_nonzero; lia).
  rewrite Z.mul_comm, Z.mod_add by (apply Z.pow_nonzero; lia).
  apply Z.mod_mod, Z.pow_nonzero; lia.
Qed.

#[export] Hint Resolve u8_range u16_range u32_range : c_int.

(** Fields put side by side. *)
Lemma lor_shiftl_add a b n : 0 <= n -> 0 <= b < 2 ^ n -> Z.lor (Z.shiftl a n) b = a * 2 ^ n + b.
Proof.
  intros Hn Hb. rewrite <- Z.shiftl_mul_pow2, <- Z.add_lor_land by done.
  assert (Z.land (Z.shiftl a n) b = 0) as ->; [| lia].
  apply Z.bits_inj'. intros i Hi. rewrite Z.land_spec, Z.bits_0.
  destruct (decide (i < n)).
  - by rewrite Z.shiftl_spec_low.
  - rewrite <- (Z.mod_small b (2 ^ n)) by done.
    rewrite Z.mod_pow2_bits_high by lia. apply andb_false_r.
Qed.

(** Checking a property of bytes by evaluation. *)
Lemma byte_enum (P : Z -> bool) :
  forallb P (map Z.of_nat (seq 0 256)) = true -> forall z, is_byte z -> P z = true.
Proof.
  rewrite forallb_forall. intros Hf z Hz. unfold is_byte in Hz. apply Hf, in_map_iff.
  exists (Z.to_nat z). rewrite in_seq. lia.
Qed.

(** ** Lists and memory lemmas *)

Lemma len_app {A} (l k : list A) : len (l ++ k) = len l + len k.
Proof. unfold len. rewrite length_app. lia. Qed.

Lemma len_cons {A} (x : A) l : len (x :: l) = 1 + len l.
Proof. unfold len. simpl length. lia. Qed.

Lemma len_nil {A} : len (@nil A) = 0.
Proof. reflexivity. Qed.

Lemma len_nonneg {A} (l : list A) : 0 <= len l.
Proof. unfold len. lia. Qed.

Lemma len_le_0 {A} (l : list A) : len l <= 0 -> l = [].
Proof. destruct l; [done |]. unfold len. simpl length. lia. Qed.

Lemma len_take {A} n (l : list A) : len (take n l) = Z.min (Z.of_nat n) (len l).
Proof. unfold len. rewrite length_take. lia. Qed.

Lemma len_drop {A} n (l : list A) : len (drop n l) = Z.max 0 (len l - Z.of_nat n).
Proof. unfold len. rewrite length_drop. lia. Qed.

Lemma len_insert {A} i (v : A) l : len (<[i := v]> l) = len l.
Proof. unfold len. by rewrite length_insert. Qed.

Lemma take_len_min {A} n (l : list A) : take (Z.to_nat (Z.min (Z.of_nat n) (len l))) l = take n l.
Proof.
  unfold len. destruct (decide (Z.of_nat n <= Z.of_nat (length l))).
  - f_equal. lia.
  - rewrite !take_ge by lia. done.
Qed.

Lemma len_replicate {A} n (x : A) : 0 <= n -> len (replicate (Z.to_nat n) x) = n.
Proof. intros. unfold len. rewrite length_replicate. lia. Qed.

#[export] Hint Rewrite @len_app @len_cons @len_nil @len_take @len_drop @len_insert : len.

Lemma mem_get_lookup {A} (b : list A) i :
  0 <= i -> mem_get b i = b !! Z.to_nat i.
Proof. intros. unfold mem_get. case_bool; [done | lia]. Qed.

Lemma mem_get_Some {A} (b : list A) i x :
  mem_get b i = Some x -> 0 <= i < len b /\ b !! Z.to_nat i = Some x.
Proof.
  unfold mem_get, len. case_bool; [| done]. intros Hx. split; [| done].
  apply lookup_lt_Some in Hx. lia.
Qed.

Lemma mem_get_is_Some {A} (b : list A) i :
  0 <= i < len b -> exists x, mem_get b i = Some x.
Proof.
  intros. rewrite mem_get_lookup by lia. apply lookup_lt_is_Some_2.
  unfold len in *. lia.
Qed.

Lemma mem_set_ok {A} (b : list A) i v :
  0 <= i < len b -> mem_set b i v = Some (<[Z.to_nat i := v]> b).
Proof. intros. unfold mem_set. repeat (case_bool; simpl; try lia). done. Qed.

Lemma mem_read_ok {A} (b : list A) off n :
  0 <= off -> 0 <= n -> off + n <= len b ->
  mem_read b off n = Some (take (Z.to_nat n) (drop (Z.to_nat off) b)).
Proof. intros. unfold mem_read. repeat (case_bool; simpl; try lia). done. Qed.

Lemma mem_write_ok {A} (b : list A) off src :
  0 <= off -> off + len src <= len b ->
  mem_write b off src =
    Some (take (Z.to_nat off) b ++ src ++ drop (Z.to_nat (off + len src)) b).
Proof. intros. unfold mem_write. repeat (case_bool; simpl; try lia). done. Qed.

Lemma mem_write_len {A} (b : list A) off src b' :
  mem_write b off src = Some b' -> len b' = len b.
Proof.
  unfold mem_write. pose proof (len_nonneg src).
  case_bool; [| done]. case_bool; [| done]. simpl. intros [= <-].
  autorewrite with len. lia.
Qed.

Lemma mem_read_len {A} (b : list A) off n s :
  mem_read b off n = Some s -> len s = n.
Proof.
  unfold mem_read. repeat (case_bool; simpl; try done). intros [= <-].
  autorewrite with len. lia.
Qed.

(** What is stored at index [j] after a block write. *)
Lemma mem_write_lookup {A} (b : list A) off src b' (j : nat) :
  mem_write b off src = Some b' ->
  b' !! j = (if (off <=? Z.of_nat j) && (Z.of_nat j <? off + len src)
             then src !! (j - Z.to_nat off)%nat else b !! j).
Proof.
  unfold mem_write, len.
  case_bool; [| done]. case_bool; [| done]. simpl. intros [= <-].
  repeat case_bool; simpl.
  - rewrite lookup_app_r; rewrite length_take; [| lia].
    rewrite lookup_app_l by lia. f_equal. lia.
  - rewrite lookup_app_r; rewrite length_take; [| lia].
    rewrite lookup_app_r by lia. rewrite lookup_drop. f_equal. lia.
  - rewrite lookup_app_l by (rewrite length_take; lia).
    apply lookup_take_lt. lia.
  - lia.
Qed.

(** What a block read returns at index [j]. *)
Lemma mem_read_lookup {A} (b : list A) off n s (j : nat) :
  mem_read b off n = Some s -> Z.of_nat j < n ->
  s !! j = b !! (Z.to_nat off + j)%nat.
Proof.
  unfold mem_read. repeat (case_bool; simpl; try done). intros [= <-] Hj.
  rewrite lookup_take_lt by lia. apply lookup_drop.
Qed.

(** Single cells and concatenations of block writes. *)
Lemma mem_write_ext {A} (b : list A) off src b' b'' :
  mem_write b off src = Some b' -> len b'' = len b ->
  (forall j : nat, b'' !! j = (if (off <=? Z.of_nat j) && (Z.of_nat j <? off + len src)
             then src !! (j - Z.to_nat off)%nat else b !! j)) ->
  b'' = b'.
Proof.
  intros W L H. apply list_eq. intros j. rewrite H. symmetry. by apply mem_write_lookup.
Qed.

Lemma mem_set_write {A} (b : list A) i v : mem_set b i v = mem_write b i [v].
Proof.
  destruct (decide (0 <= i < len b)) as [Hi|Hi].
  - rewrite mem_set_ok by lia. destruct (mem_write b i [v]) as [b'|] eqn:W.
    + f_equal. eapply mem_write_ext; [done | by autorewrite with len |].
      intros j. rewrite list_lookup_insert. change (len [v]) with 1. unfold len in *.
      repeat (case_bool || case_decide); simpl; try lia; try done.
      replace (j - Z.to_nat i)%nat with 0%nat by lia. done.
    + rewrite mem_write_ok in W; [done | lia |]. autorewrite with len. lia.
  - unfold mem_set, mem_write. change (len [v]) with 1.
    repeat (case_bool; simpl; try lia); done.
Qed.

Lemma mem_write_app {A} (b : list A) off s1 s2 b1 b2 :
  mem_write b off s1 = Some b1 -> mem_write b1 (off + len s1) s2 = Some b2 ->
  mem_write b off (s1 ++ s2) = Some b2.
Proof.
  intros W1 W2. pose proof (mem_write_len _ _ _ _ W1). pose proof (mem_write_len _ _ _ _ W2).
  pose proof (len_nonneg s1). pose proof (len_nonneg s2).
  assert (0 <= off /\ off + len s1 + len s2 <= len b) as [Ho Hl].
  { revert W1 W2. unfold mem_write. repeat (case_bool; simpl; try done). lia. }
  destruct (mem_write b off (s1 ++ s2)) as [b3|] eqn:W;
    [| rewrite mem_write_ok in W by (autorewrite with len; lia); done].
  f_equal. symmetry. eapply mem_write_ext; [done | lia |]. intros j.
  rewrite (mem_write_lookup _ _ _ _ j W2), (mem_write_lookup _ _ _ _ j W1), len_app.
  unfold len in *. repeat (case_bool; simpl; try lia); try done.
  - rewrite lookup_app_r by lia. f_equal. lia.
  - rewrite lookup_app_l by lia. done.
Qed.

Lemma mem_write_nil {A} (b : list A) off : 0 <= off <= len b -> mem_write b off [] = Some b.
Proof.
  intros. rewrite mem_write_ok by (autorewrite with len; lia). rewrite len_nil, Z.add_0_r.
  simpl. by rewrite take_drop.
Qed.

Lemma mem_set_len {A} (b : list A) i v b' : mem_set b i v = Some b' -> len b' = len b.
Proof. rewrite mem_set_write. apply mem_write_len. Qed.

(** Reading back what was written. *)
Lemma mem_write_read {A} (b : list A) off src b' :
  mem_write b off src = Some b' -> mem_read b' off (len src) = Some src.
Proof.
  intros W. pose proof (mem_write_len _ _ _ _ W) as L. pose proof (len_nonneg src).
  assert (0 <= off /\ off + len src <= len b) as [Ho Hl].
  { revert W. unfold mem_write. repeat (case_bool; simpl; try done). }
  destruct (mem_read b' off (len src)) as [s|] eqn:R;
    [| rewrite mem_read_ok in R by lia; done].
  f_equal. apply list_eq. intros j. pose proof (mem_read_len _ _ _ _ R).
  destruct (decide (Z.of_nat j < len src)).
  - rewrite (mem_read_lookup _ _ _ _ _ R) by done.
    rewrite (mem_write_lookup _ _ _ _ _ W). repeat (case_bool; simpl; try lia). f_equal. lia.
  - unfold len in *. rewrite !lookup_ge_None_2; [done | lia..].
Qed.

Lemma mem_get_app_r {A} (l k : list A) i :
  0 <= i -> mem_get (l ++ k) (len l + i) = mem_get k i.
Proof.
  intros. unfold mem_get, len. repeat (case_bool; try lia).
  rewrite lookup_app_r by lia. f_equal. lia.
Qed.

(** ** Contents of a block at an offset *)

Definition block_at {A} (b : list A) (off : Z) (l : list A) : Prop :=
  mem_read b off (len l) = Some l.

Lemma block_at_iff {A} (b : list A) off l :
  block_at b off l <->
  0 <= off /\ off + len l <= len b /\
  forall k : nat, Z.of_nat k < len l -> b !! (Z.to_nat off + k)%nat = l !! k.
Proof.
  unfold block_at. pose proof (len_nonneg l). split.
  - intros R. assert (0 <= off /\ off + len l <= len b) as [? ?].
    { revert R. unfold mem_read. repeat (case_bool; simpl; try done). }
    split; [done |]. split; [done |]. intros k Hk. symmetry. by eapply mem_read_lookup.
  - intros (Ho & Hl & Hk). destruct (mem_read b off (len l)) as [s|] eqn:R;
      [| rewrite mem_read_ok in R by lia; done].
    f_equal. apply list_eq. intros j. pose proof (mem_read_len _ _ _ _ R).
    destruct (decide (Z.of_nat j < len l)).
    + rewrite (mem_read_lookup _ _ _ _ _ R) by done. auto.
    + unfold len in *. rewrite !lookup_ge_None_2; [done | lia..].
Qed.

Lemma block_at_app {A} (b : list A) off l k :
  block_at b off (l ++ k) <-> block_at b off l /\ block_at b (off + len l) k.
Proof.
  rewrite !block_at_iff, len_app. pose proof (len_nonneg l). pose proof (len_nonneg k).
  split.
  - intros (Ho & Hl & Hk). split; (split; [lia |]; split; [lia |]); intros i Hi.
    + rewrite Hk by lia. apply lookup_app_l. unfold len in *. lia.
    + replace (Z.to_nat (off + len l) + i)%nat with (Z.to_nat off + (length l + i))%nat
        by (unfold len; lia).
      rewrite Hk by (unfold len in *; lia). rewrite lookup_app_r by lia. f_equal. lia.
  - intros [(Ho & Hl & Hk) (Ho' & Hl' & Hk')]. split; [lia |]. split; [lia |]. intros i Hi.
    destruct (decide (Z.of_nat i < len l)).
    + rewrite Hk by lia. symmetry. apply lookup_app_l. unfold len in *. lia.
    + rewrite lookup_app_r by (unfold len in *; lia).
      rewrite <- Hk' by (unfold len in *; lia). f_equal. unfold len in *. lia.
Qed.

Lemma block_at_single {A} (b : list A) off x : block_at b off [x] <-> mem_get b off = Some x.
Proof.
  rewrite block_at_iff. change (len [x]) with 1. split.
  - intros (Ho & _ & Hk). rewrite mem_get_lookup by done.
    specialize (Hk 0%nat ltac:(lia)). by rewrite Nat.add_0_r in Hk.
  - intros Hg. apply mem_get_Some in Hg as [Hr Hg]. split; [lia |]. split; [lia |].
    intros k Hk. replace k with 0%nat by lia. by rewrite Nat.add_0_r.
Qed.

Lemma block_at_cons {A} (b : list A) off x l :
  block_at b off (x :: l) <-> mem_get b off = Some x /\ block_at b (off + 1) l.
Proof.
  change (x :: l) with ([x] ++ l). rewrite block_at_app, block_at_single. done.
Qed.

Lemma block_at_nil {A} (b : list A) off : block_at b off [] <-> 0 <= off <= len b.
Proof.
  rewrite block_at_iff. change (len (@nil A)) with 0.
  split; [lia |]. intros. split; [lia |]. split; [lia |]. intros. lia.
Qed.

Lemma block_at_take {A} (b : list A) n :
  0 <= n <= len b -> block_at b 0 (take (Z.to_nat n) b).
Proof.
  intros. apply block_at_iff. rewrite len_take. split; [lia |]. split; [lia |].
  intros k Hk. simpl. symmetry. apply lookup_take_lt. lia.
Qed.

Lemma block_at_take_eq {A} (b : list A) l :
  block_at b 0 l -> take (Z.to_nat (len l)) b = l.
Proof.
  unfold block_at, mem_read. change (Z.to_nat 0) with 0%nat. rewrite drop_0.
  destruct (_ && _); [congruence | done].
Qed.

Lemma mem_write_block_at {A} (b : list A) off src b' :
  mem_write b off src = Some b' -> block_at b' off src.
Proof. apply mem_write_read. Qed.

(** Blocks that differ in the cells [lo .. hi-1] only. *)
Definition unchanged {A} (b b' : list A) (lo hi : Z) : Prop :=
  len b' = len b /\
  forall k : nat, Z.of_nat k < lo \/ hi <= Z.of_nat k -> b' !! k = b !! k.

Lemma unchanged_refl {A} (b : list A) lo hi : unchanged b b lo hi.
Proof. done. Qed.

Lemma unchanged_trans {A} (a b c : list A) lo hi lo' hi' lo'' hi'' :
  unchanged a b lo hi -> unchanged b c lo' hi' ->
  lo'' <= lo -> lo'' <= lo' -> hi <= hi'' -> hi' <= hi'' -> unchanged a c lo'' hi''.
Proof.
  intros [L H] [L' H'] ????. split; [lia |]. intros k Hk. rewrite H', H by lia. done.
Qed.

Lemma mem_set_unchanged {A} (b : list A) i v b' :
  mem_set b i v = Some b' -> unchanged b b' i (i + 1).
Proof.
  intros S. split; [by eapply mem_set_len |]. rewrite mem_set_write in S. intros k Hk.
  rewrite (mem_write_lookup _ _ _ _ k S). change (len [v]) with 1.
  repeat (case_bool; simpl; try lia); done.
Qed.

Lemma mem_write_unchanged {A} (b : list A) off src b' :
  mem_write b off src = Some b' -> unchanged b b' off (off + len src).
Proof.
  intros W. split; [by eapply mem_write_len |]. intros k Hk.
  rewrite (mem_write_lookup _ _ _ _ k W). pose proof (len_nonneg src).
  repeat (case_bool; simpl; try lia); done.
Qed.

Lemma block_at_unchanged {A} (b b' : list A) lo hi off l :
  unchanged b b' lo hi -> off + len l <= lo \/ hi <= off ->
  block_at b off l -> block_at b' off l.
Proof.
  intros [L H] Hd. rewrite !block_at_iff. intros (Ho & Hl & Hk).
  split; [done |]. split; [lia |]. intros k Hlt. rewrite H by lia. auto.
Qed.

Lemma mem_get_unchanged {A} (b b' : list A) lo hi i x :
  unchanged b b' lo hi -> i < lo \/ hi <= i -> mem_get b i = Some x -> mem_get b' i = Some x.
Proof.
  rewrite <- !block_at_single. intros. eapply block_at_unchanged; [done | | done].
  change (len [x]) with 1. lia.
Qed.

Lemma mem_set_get {A} (b : list A) i v b' : mem_set b i v = Some b' -> mem_get b' i = Some v.
Proof. rewrite mem_set_write, <- block_at_single. apply mem_write_block_at. Qed.

Lemma mem_set_exists {A} (b : list A) i v :
  0 <= i < len b -> exists b', mem_set b i v = Some b' /\ unchanged b b' i (i + 1) /\
    mem_get b' i = Some v.
Proof.
  intros Hi. destruct (mem_set b i v) as [b'|] eqn:S; [| rewrite mem_set_ok in S by lia; done].
  exists b'. split; [done |]. split; [by eapply mem_set_unchanged | by eapply mem_set_get].
Qed.

(** ** State monad with undefined behaviour

    A function with side effects on a state [S]: [None] is undefined behaviour
    (an access outside a block, a failing [assert]). *)
Definition ST (S A : Type) : Type := S -> option (A * S).

#[export] Instance st_ret {S} : MRet (ST S) := fun A a s => Some (a, s).
#[export] Instance st_bind {S} : MBind (ST S) := fun A B k m s =>
  match m s with Some (a, s') => k a s' | None => None end.

Definition st_get {S} : ST S S := fun s => Some (s, s).
Definition st_gets {S A} (f : S -> A) : ST S A := fun s => Some (f s, s).
Definition st_mod {S} (f : S -> S) : ST S unit := fun s => Some (tt, f s).
Definition st_lift {S A} (o : option A) : ST S A := fun s =>
  match o with Some a => Some (a, s) | None => None end.
Definition st_when {S} (b : bool) (m : ST S unit) : ST S unit :=
  if b then m else mret tt.

(** [for] loops with a known number of iterations. *)
Fixpoint st_for {S} (n : nat) (i : Z) (body : Z -> ST S unit) : ST S unit :=
  match n with
  | O => mret tt
  | Datatypes.S n => body i;; st_for n (i + 1) body
  end.

Arguments st_ret {S} A a s /.
Arguments st_bind {S} A B k m s /.
Arguments st_get {S} s /.
Arguments st_gets {S A} f s /.
Arguments st_mod {S} f s /.
Arguments st_lift {S A} o s /.

Lemma st_bind_run {S A B} (m : ST S A) (k : A -> ST S B) s a s' :
  m s = Some (a, s') -> (m ≫= k) s = k a s'.
Proof. unfold mbind. simpl. by intros ->. Qed.

Lemma st_bind_inv {S A B} (m : ST S A) (k : A -> ST S B) s b s' :
  (m ≫= k) s = Some (b, s') -> exists a s1, m s = Some (a, s1) /\ k a s1 = Some (b, s').
Proof. unfold mbind. simpl. destruct (m s) as [[a s1]|]; [| done]. by exists a, s1. Qed.

(** Symbolic execution of monadic code: rewriting with the database [st]. *)
Create Rewrite HintDb st.

Lemma run_ret {S A B} (a : A) (k : A -> ST S B) s : (mret a ≫= k) s = k a s.
Proof. done. Qed.
Lemma run_get {S B} (k : S -> ST S B) s : (st_get ≫= k) s = k s s.
Proof. done. Qed.
Lemma run_gets {S A B} (f : S -> A) (k : A -> ST S B) s : (st_gets f ≫= k) s = k (f s) s.
Proof. done. Qed.
Lemma run_mod {S B} (f : S -> S) (k : unit -> ST S B) s : (st_mod f ≫= k) s = k tt (f s).
Proof. done. Qed.
Lemma run_lift {S A B} (a : A) (k : A -> ST S B) s : (st_lift (Some a) ≫= k) s = k a s.
Proof. done. Qed.
Lemma run_assoc {S A B C} (m : ST S A) (f : A -> ST S B) (g : B -> ST S C) s :
  ((m ≫= f) ≫= g) s = (m ≫= (fun a => f a ≫= g)) s.
Proof. unfold mbind. simpl. by destruct (m s) as [[? ?]|]. Qed.
Lemma run_bind_tt {S} (m : ST S unit) s : (m ≫= fun _ => mret tt) s = m s.
Proof. unfold mbind, mret. simpl. by destruct (m s) as [[[] ?]|]. Qed.
Lemma run_bind_ret {S A} (m : ST S A) s : (m ≫= mret) s = m s.
Proof. unfold mbind, mret. simpl. by destruct (m s) as [[? ?]|]. Qed.
Lemma run_mret {S A} (a : A) (s : S) : (mret a : ST S A) s = Some (a, s).
Proof. done. Qed.
Lemma run_when_true {S} (m : ST S unit) : st_when true m = m.
Proof. done. Qed.
Lemma run_when_false {S} (m : ST S unit) : st_when false m = mret tt.
Proof. done. Qed.

#[export] Hint Rewrite @run_ret @run_get @run_gets @run_mod @run_lift @run_assoc
  @run_mret @run_when_true @run_when_false : st.

Ltac st_run := repeat (progress (autorewrite with st; cbv beta iota)).

(** Execute a call whose result is known. *)
Ltac st_call E := first [rewrite (st_bind_run _ _ _ _ _ E) | rewrite E]; st_run.

(** Programs all of whose effects are in a preorder [R] on states. *)
Definition steps_by {S A} (R : S -> S -> Prop) (m : ST S A) : Prop :=
  forall s a s', m s = Some (a, s') -> R s s'.

Create HintDb steps.

Section steps.
Context {S : Type} (R : S -> S -> Prop) `{!PreOrder R}.

Lemma steps_bind {A B} (m : ST S A) (k : A -> ST S B) :
  steps_by R m -> (forall a, steps_by R (k a)) -> steps_by R (m ≫= k).
Proof.
  intros Hm Hk s b s'. unfold mbind. simpl. destruct (m s) as [[a s1]|] eqn:E; [| done].
  intros E'. transitivity s1; [by eapply Hm | by eapply Hk].
Qed.

Lemma steps_ret {A} (a : A) : steps_by R (mret a : ST S A).
Proof. by intros s b s' [= _ <-]. Qed.

Lemma steps_get : steps_by R (st_get : ST S S).
Proof. by intros s b s' [= _ <-]. Qed.

Lemma steps_gets {A} (g : S -> A) : steps_by R (st_gets g).
Proof. by intros s b s' [= _ <-]. Qed.

Lemma steps_mod (g : S -> S) : (forall s, R s (g s)) -> steps_by R (st_mod g).
Proof. intros H s b s' [= _ <-]. apply H. Qed.

Lemma steps_lift {A} (o : option A) : steps_by R (st_lift o : ST S A).
Proof. intros s b s'. unfold st_lift. destruct o; [by intros [= _ <-] | done]. Qed.

Lemma steps_when b (m : ST S unit) : (b = true -> steps_by R m) -> steps_by R (st_when b m).
Proof. destruct b; simpl; [auto | intros _; apply steps_ret]. Qed.

(** Reading the state first: the continuation may use what was read. *)
Lemma steps_get_bind {A} (k : S -> ST S A) :
  (forall s, forall a s', k s s = Some (a, s') -> R s s') -> steps_by R (st_get ≫= k).
Proof. intros Hk s a s' E. by apply (Hk s a). Qed.

(** The result of a step satisfies [Q]. *)
Definition spec_by {A} (Q : A -> Prop) (m : ST S A) : Prop :=
  forall s a s', m s = Some (a, s') -> R s s' /\ Q a.

Lemma spec_bind {A B} (P : A -> Prop) (Q : B -> Prop) (m : ST S A) (k : A -> ST S B) :
  spec_by P m -> (forall a, P a -> spec_by Q (k a)) -> spec_by Q (m ≫= k).
Proof.
  intros Hm Hk s b s'. unfold mbind. simpl. destruct (m s) as [[a s1]|] eqn:E; [| done].
  intros E'. destruct (Hm _ _ _ E) as [H1 Ha]. destruct (Hk a Ha _ _ _ E') as [H2 Hb].
  split; [by transitivity s1 | done].
Qed.

Lemma spec_ret {A} (Q : A -> Prop) a : Q a -> spec_by Q (mret a : ST S A).
Proof. by intros HQ s b s' [= <- <-]. Qed.

Lemma spec_steps {A} (m : ST S A) : steps_by R m -> spec_by (fun _ => True) m.
Proof. intros H s a s' E. split; [by eapply H | done]. Qed.

Lemma steps_spec_bind {A B} (P : A -> Prop) (m : ST S A) (k : A -> ST S B) :
  spec_by P m -> (forall a, P a -> steps_by R (k a)) -> steps_by R (m ≫= k).
Proof.
  intros Hm Hk. assert (spec_by (fun _ => True) (m ≫= k)) as Hs.
  { apply (spec_bind P); [done |]. intros. by apply spec_steps, Hk. }
  intros s b s' E. by destruct (Hs _ _ _ E).
Qed.

Lemma steps_lift_bind {A B} (o : option A) (k : A -> ST S B) :
  (forall a, o = Some a -> steps_by R (k a)) -> steps_by R (st_lift o ≫= k).
Proof.
  intros Hk s b s'. unfold mbind. simpl. destruct o; [| done]. by apply Hk.
Qed.

End steps.

(** A smaller relation. *)
Lemma steps_sub {S A} (R R' : S -> S -> Prop) (m : ST S A) :
  (forall s s', R s s' -> R' s s') -> steps_by R m -> steps_by R' m.
Proof. intros H Hm s a s' E. by eapply H, Hm. Qed.

(** Applies one of these lemmas and resolves the instance. *)
Ltac steps_apply l := eapply l; match goal with |- PreOrder _ => apply _ | _ => idtac end.

#[export] Hint Extern 0 (steps_by _ (mret _)) => steps_apply @steps_ret : steps.
#[export] Hint Extern 0 (steps_by _ st_get) => steps_apply @steps_get : steps.
#[export] Hint Extern 0 (steps_by _ (st_gets _)) => steps_apply @steps_gets : steps.
#[export] Hint Extern 0 (steps_by _ (st_lift _)) => steps_apply @steps_lift : steps.

(** Follows the structure of a program, splitting on its branches. *)
Ltac steps_step :=
  first
    [ solve [eauto 3 with steps]
    | lazymatch goal with
      | |- steps_by _ (mbind _ _) => steps_apply @steps_bind; [| intros ?]
      | |- steps_by _ (st_when _ _) => steps_apply @steps_when; intros ?
      | |- steps_by _ (match _ with _ => _ end) => case_match
      end ].

Ltac steps_tac := repeat steps_step.

(** Programs that leave an observation of the state alone. *)
Definition same {S X} (f : S -> X) (s s' : S) : Prop := f s' = f s.

#[export] Instance same_preorder {S X} (f : S -> X) : PreOrder (same f).
Proof. split; [done | intros x y z H1 H2; unfold same in *; congruence]. Qed.

Abbreviation keeps f m := (steps_by (same f) m).

#[export] Hint Extern 2 (steps_by (same _) (st_mod _)) => (steps_apply @steps_mod; intros; reflexivity) : steps.

Lemma st_for_inv {S} (P : Z -> S -> Prop) body n : forall i s,
  P i s ->
  (forall j s, i <= j < i + Z.of_nat n -> P j s -> exists s', body j s = Some (tt, s') /\ P (j + 1) s') ->
  exists s', st_for n i body s = Some (tt, s') /\ P (i + Z.of_nat n) s'.
Proof.
  induction n as [|n IH]; intros i s HP Hb.
  - exists s. rewrite Z.add_0_r. done.
  - destruct (Hb i s) as (s1 & E & H1); [lia | done |].
    cbn [st_for]. rewrite (st_bind_run _ _ _ _ _ E).
    destruct (IH (i + 1) s1 H1) as (s2 & E2 & H2); [intros; apply Hb; [lia | done] |].
    exists s2. split; [done |]. by replace (i + Z.of_nat (Datatypes.S n)) with (i + 1 + Z.of_nat n) by lia.
Qed.

(** *** Weakest preconditions: the computation is defined and ends in [Q]. *)
Definition wp {S A} (m : ST S A) (Q : A -> S -> Prop) (s : S) : Prop :=
  match m s with Some (a, s') => Q a s' | None => False end.

Section wp.
Context {S : Type}.

Lemma wp_ret {A} (a : A) (Q : A -> S -> Prop) s : Q a s -> wp (mret a) Q s.
Proof. done. Qed.

Lemma wp_bind {A B} (m : ST S A) (k : A -> ST S B) Q s : wp m (fun a => wp (k a) Q) s -> wp (m ≫= k) Q s.
Proof. unfold wp, mbind. simpl. by destruct (m s) as [[a s']|]. Qed.

Lemma wp_mono {A} (m : ST S A) (P Q : A -> S -> Prop) s : wp m P s -> (forall a s', P a s' -> Q a s') -> wp m Q s.
Proof. unfold wp. destruct (m s) as [[a s']|]; auto. Qed.

Lemma wp_get {B} (k : S -> ST S B) Q s : wp (k s) Q s -> wp (st_get ≫= k) Q s.
Proof. done. Qed.

Lemma wp_gets {A B} (f : S -> A) (k : A -> ST S B) Q s : wp (k (f s)) Q s -> wp (st_gets f ≫= k) Q s.
Proof. done. Qed.

Lemma wp_mod {B} (f : S -> S) (k : unit -> ST S B) Q s : wp (k tt) Q (f s) -> wp (st_mod f ≫= k) Q s.
Proof. done. Qed.

Lemma wp_lift {A B} (o : option A) a (k : A -> ST S B) Q s : o = Some a -> wp (k a) Q s -> wp (st_lift o ≫= k) Q s.
Proof. by intros ->. Qed.

Lemma wp_elim {A} (m : ST S A) Q s : wp m Q s -> exists a s', m s = Some (a, s') /\ Q a s'.
Proof. unfold wp. destruct (m s) as [[a s']|]; [| done]. intros. by exists a, s'. Qed.

(** A computation that is followed by others. *)
Lemma wp_seq {A B} (m : ST S A) (k : A -> ST S B) P Q s :
  wp m P s -> (forall a s', P a s' -> wp (k a) Q s') -> wp (m ≫= k) Q s.
Proof. intros. apply wp_bind. by eapply wp_mono. Qed.

End wp.

(** Little-endian 16-bit fields of the messages. *)
Definition le16 (z : Z) : list Z := [u8 z; u8 (Z.shiftr z 8)].
Definition get_le16 (b : list Z) (off : Z) : option Z :=
  lo ← mem_get b off; hi ← mem_get b (off + 1); Some (lo + 256 * hi).

Lemma get_le16_le16 pre z post :
  is_u16 z -> get_le16 (pre ++ le16 z ++ post) (len pre) = Some z.
Proof.
  intros Hz. unfold get_le16. rewrite <- (Z.add_0_r (len pre)) at 1.
  rewrite !mem_get_app_r by lia. unfold le16. cbn.
  unfold u8. rewrite Z.shiftr_div_pow2 by lia. unfold is_u16 in Hz.
  change (2 ^ 8) with 256.
  rewrite (Z.mod_small (z / 256)) by (split; [apply Z.div_pos; lia | apply Z.div_lt_upper_bound; lia]).
  change (Z.to_nat 0) with 0%nat. change (Z.to_nat 1) with 1%nat.
  cbn [lookup list_lookup mbind option_bind]. f_equal.
  pose proof (Z.div_mod z 256 ltac:(lia)). lia.
Qed.

(** ** Lists of related elements *)

Lemma Forall2_impl_in {A B} (P Q : A -> B -> Prop) l k :
  Forall2 P l k -> (forall x y, In x l -> In y k -> P x y -> Q x y) -> Forall2 Q l k.
Proof.
  induction 1 as [|x y l k Hxy Hlk IH]; intros H; constructor.
  - apply H; [by left | by left | done].
  - apply IH. intros a b Ha Hb. apply H; by right.
Qed.
