(* ===== verification/RingBuffer.v ===== *)
(** * Ring buffer (src/mid/ringbuffer/ring_buffer.c)

    A byte FIFO on a caller supplied block of [2^k] bytes with free running
    32-bit positions [in] and [out].  The operations follow the C code with its
    32-bit wrap-around and its two-part [memcpy]; an access outside a block is
    [None].  [contents] is the abstract queue and the theorems show that the
    operations implement a bounded queue. *)

From S2P Require Import Prelude.

(** ** Definitions *)

(** [is_power_of_2] of ring_buffer.h. *)
Definition is_power_of_2 (x : Z) : bool :=
  negb (x =? 0) && (Z.land x (u32 (x - 1)) =? 0).

Record ring_buffer := {
  rb_buffer : list Z;
  rb_size : Z;
  rb_ipos : Z;
  rb_opos : Z
}.

Definition rb_init (ring_buf : ring_buffer) (buffer : list Z) (size : Z)
    : Z * ring_buffer :=
  if negb (is_power_of_2 size) then (-1, ring_buf)
  else (0, {| rb_buffer := buffer; rb_size := size; rb_ipos := 0; rb_opos := 0 |}).

Definition rb_used_len (rb : ring_buffer) : Z := u32 (rb_ipos rb - rb_opos rb).

Definition rb_unused_len (rb : ring_buffer) : Z :=
  u32 (rb_size rb - rb_ipos rb + rb_opos rb).

Definition rb_empty (rb : ring_buffer) : bool := rb_ipos rb =? rb_opos rb.

(** [x & (size - 1)]. *)
Definition rb_mask (rb : ring_buffer) (x : Z) : Z := Z.land x (u32 (rb_size rb - 1)).

(** The two [memcpy] of [rb_out] and [rb_get]: [size] bytes of the ring from
    position [pos] into [dst]. *)
Definition rb_copy_out (rb : ring_buffer) (dst : list Z) (pos size : Z)
    : option (list Z) :=
  let l := Z.min size (u32 (rb_size rb - rb_mask rb pos)) in
  dst1 ← memcpy dst 0 (rb_buffer rb) (rb_mask rb pos) l;
  memcpy dst1 l (rb_buffer rb) 0 (u32 (size - l)).

(** Returns the value of the call, the ring and the destination block. *)
Definition rb_out (ring_buf : option ring_buffer) (buffer : option (list Z)) (size : Z)
    : option (Z * option ring_buffer * option (list Z)) :=
  match ring_buf, buffer with
  | Some rb, Some dst =>
      let n := Z.min size (rb_used_len rb) in
      dst' ← rb_copy_out rb dst (rb_opos rb) n;
      let out' := u32 (rb_opos rb + n) in
      let rb' := if rb_ipos rb =? out'
                 then {| rb with rb_ipos := 0; rb_opos := 0 |}
                 else {| rb with rb_opos := out' |} in
      Some (s32 n, Some rb', Some dst')
  | _, _ => Some (-1, ring_buf, buffer)
  end.

Definition rb_get (ring_buf : option ring_buffer) (buffer : option (list Z))
    (offset size : Z) : option (Z * option (list Z)) :=
  match ring_buf, buffer with
  | Some rb, Some dst =>
      let out := Z.land (u32 (rb_opos rb + offset)) (u32 (rb_size rb - 1)) in
      let n := Z.min size (u32 (rb_ipos rb - out)) in
      dst' ← rb_copy_out rb dst out n;
      Some (s32 n, Some dst')
  | _, _ => Some (-1, buffer)
  end.

Definition rb_in (ring_buf : option ring_buffer) (buffer : option (list Z)) (size : Z)
    : option (Z * option ring_buffer) :=
  match ring_buf, buffer with
  | Some rb, Some src =>
      let n := Z.min size (rb_unused_len rb) in
      let l := Z.min n (u32 (rb_size rb - rb_mask rb (rb_ipos rb))) in
      b1 ← memcpy (rb_buffer rb) (rb_mask rb (rb_ipos rb)) src 0 l;
      b2 ← memcpy b1 0 src l (u32 (n - l));
      Some (s32 n, Some {| rb with rb_buffer := b2; rb_ipos := u32 (rb_ipos rb + n) |})
  | _, _ => Some (-1, ring_buf)
  end.

(** [assert(ring_buf)] fails on a null pointer. *)
Definition rb_clean (ring_buf : option ring_buffer) : option ring_buffer :=
  rb ← ring_buf;
  b ← mem_write (rb_buffer rb) 0 (replicate (Z.to_nat (rb_size rb)) 0);
  Some {| rb with rb_buffer := b; rb_ipos := 0; rb_opos := 0 |}.

(** ** Specification *)

(** The cell that holds the [j]-th byte counted from ring position [pos]. *)
Definition rb_cell (rb : ring_buffer) (pos j : Z) : Z := (pos + j) mod rb_size rb.

(** The bytes in the queue, oldest first. *)
Definition contents (rb : ring_buffer) : list Z :=
  (fun j => default 0 (mem_get (rb_buffer rb) (rb_cell rb (rb_opos rb) j)))
    <$> seqZ 0 (rb_used_len rb).

Record rb_wf (rb : ring_buffer) : Prop := {
  wf_pow : exists k, 0 <= k <= 31 /\ rb_size rb = 2 ^ k;
  wf_len : len (rb_buffer rb) = rb_size rb;
  wf_ipos : is_u32 (rb_ipos rb);
  wf_opos : is_u32 (rb_opos rb);
  wf_used : rb_used_len rb <= rb_size rb
}.

(** ** Lemmas *)

Lemma is_power_of_2_spec x :
  is_u32 x -> is_power_of_2 x = true <-> exists k, 0 <= k <= 31 /\ x = 2 ^ k.
Proof.
  unfold is_u32. intros Hx. unfold is_power_of_2.
  rewrite andb_true_iff, negb_true_iff, Z.eqb_neq, Z.eqb_eq. split.
  - intros [Hnz Hland].
    assert (u32 (x - 1) = x - 1) as Hu by (apply u32_small; unfold is_u32; lia).
    rewrite Hu in Hland.
    pose proof (Z.log2_spec x ltac:(lia)) as Hlog.
    pose proof (Z.log2_nonneg x) as Hk.
    assert (Z.log2 x < 32) by (apply Z.log2_lt_pow2; lia).
    exists (Z.log2 x). split; [lia |].
    destruct (decide (x = 2 ^ Z.log2 x)) as [|Hne]; [done | exfalso].
    assert (Z.testbit (Z.land x (x - 1)) (Z.log2 x) = true) as Hb.
    { rewrite Z.land_spec, Z.bit_log2 by lia.
      assert (Z.log2 (x - 1) = Z.log2 x) as <-.
      { apply Z.log2_unique; lia. }
      rewrite Z.bit_log2; [done |].
      assert (1 <= 2 ^ Z.log2 x) by (apply Z.pow_le_mono_r with (b := 0); lia). lia. }
    rewrite Hland, Z.bits_0 in Hb. done.
  - intros (k & Hk & ->).
    assert (0 < 2 ^ k) by (apply Z.pow_pos_nonneg; lia). split; [lia |].
    rewrite u32_small by (unfold is_u32; lia).
    replace (2 ^ k - 1) with (Z.ones k) by (rewrite Z.ones_equiv; lia).
    rewrite Z.land_ones by lia. apply Z.mod_same. lia.
Qed.

Section wf.
Context (rb : ring_buffer) (Hwf : rb_wf rb).

Lemma size_bounds : 1 <= rb_size rb <= 2 ^ 31.
Proof.
  destruct (wf_pow rb Hwf) as (k & Hk & ->). split.
  - apply Z.pow_le_mono_r with (b := 0); lia.
  - apply Z.pow_le_mono_r; lia.
Qed.

Lemma mask_mod x : rb_mask rb x = x mod rb_size rb.
Proof.
  unfold rb_mask. pose proof size_bounds. rewrite u32_small by (unfold is_u32; lia).
  destruct (wf_pow rb Hwf) as (k & Hk & ->).
  replace (2 ^ k - 1) with (Z.ones k) by (rewrite Z.ones_equiv; lia).
  apply Z.land_ones. lia.
Qed.

Lemma u32_mod_size x : u32 x mod rb_size rb = x mod rb_size rb.
Proof. destruct (wf_pow rb Hwf) as (k & Hk & ->). apply u32_mod_pow2. lia. Qed.

Lemma mod_size_bounds x : 0 <= x mod rb_size rb < rb_size rb.
Proof. apply Z.mod_pos_bound. pose proof size_bounds. lia. Qed.

Lemma used_nonneg : 0 <= rb_used_len rb.
Proof. apply u32_range. Qed.

Lemma unused_used : rb_unused_len rb = rb_size rb - rb_used_len rb.
Proof.
  unfold rb_unused_len. pose proof size_bounds. pose proof (wf_used rb Hwf).
  pose proof used_nonneg.
  rewrite <- (u32_small (rb_size rb - rb_used_len rb)) by (unfold is_u32; lia).
  unfold rb_used_len. rewrite u32_sub_u32_r. f_equal. lia.
Qed.

(** Position arithmetic of the ring, in a form [lia] can use. *)
Lemma cell_split pos j :
  0 <= j <= rb_size rb ->
  rb_cell rb pos j =
    (let o := pos mod rb_size rb in
     if o + j <? rb_size rb then o + j else o + j - rb_size rb).
Proof.
  intros Hj. unfold rb_cell. pose proof (mod_size_bounds pos). pose proof size_bounds.
  rewrite <- Zplus_mod_idemp_l. simpl. case_bool.
  - apply Z.mod_small. lia.
  - replace (pos mod rb_size rb + j)
      with (pos mod rb_size rb + j - rb_size rb + 1 * rb_size rb) at 1 by lia.
    rewrite Z.mod_add by lia. apply Z.mod_small. lia.
Qed.

Lemma cell_shift pos j i : rb_cell rb (pos + j) i = rb_cell rb pos (j + i).
Proof. unfold rb_cell. f_equal. lia. Qed.

Lemma cell_period pos j : rb_cell rb pos (j + rb_size rb) = rb_cell rb pos j.
Proof.
  unfold rb_cell. pose proof size_bounds.
  replace (pos + (j + rb_size rb)) with (pos + j + 1 * rb_size rb) by lia.
  apply Z.mod_add. lia.
Qed.

Lemma cell_bounds pos j : 0 <= rb_cell rb pos j < rb_size rb.
Proof. apply mod_size_bounds. Qed.

Lemma ipos_cell j : rb_cell rb (rb_ipos rb) j = rb_cell rb (rb_opos rb) (rb_used_len rb + j).
Proof.
  unfold rb_cell. rewrite <- (Zplus_mod_idemp_l (rb_ipos rb)).
  replace (rb_opos rb + (rb_used_len rb + j)) with (rb_used_len rb + (rb_opos rb + j)) by lia.
  rewrite <- (Zplus_mod_idemp_l (rb_used_len rb)). unfold rb_used_len.
  rewrite u32_mod_size, !Zplus_mod_idemp_l. f_equal. lia.
Qed.

Lemma contents_length : len (contents rb) = rb_used_len rb.
Proof.
  unfold contents, len. rewrite length_fmap, length_seqZ. pose proof used_nonneg. lia.
Qed.

Lemma contents_lookup (j : nat) :
  Z.of_nat j < rb_used_len rb ->
  contents rb !! j = rb_buffer rb !! Z.to_nat (rb_cell rb (rb_opos rb) (Z.of_nat j)).
Proof.
  intros Hj. unfold contents. rewrite list_lookup_fmap, lookup_seqZ_lt by lia. simpl.
  pose proof (cell_bounds (rb_opos rb) (Z.of_nat j)).
  destruct (mem_get_is_Some (rb_buffer rb) (rb_cell rb (rb_opos rb) (Z.of_nat j)))
    as [x Hx]; [rewrite (wf_len rb Hwf); lia |].
  rewrite Z.add_0_l, Hx. simpl. symmetry. by apply mem_get_Some.
Qed.

(** The two-part copy out of the ring returns the cells from [pos] on. *)
Lemma copy_out_spec dst pos n :
  0 <= n <= rb_size rb -> n <= len dst ->
  exists dst', rb_copy_out rb dst pos n = Some dst' /\
    len dst' = len dst /\
    (forall j : nat, Z.of_nat j < n ->
       dst' !! j = rb_buffer rb !! Z.to_nat (rb_cell rb pos (Z.of_nat j))) /\
    (forall j : nat, n <= Z.of_nat j -> dst' !! j = dst !! j).
Proof.
  intros Hn Hd. unfold rb_copy_out, memcpy.
  pose proof (mod_size_bounds pos) as Ho. pose proof size_bounds as Hs.
  pose proof (wf_len rb Hwf) as Hl. rewrite mask_mod.
  set (o := pos mod rb_size rb) in *.
  assert (u32 (rb_size rb - o) = rb_size rb - o) as -> by (apply u32_small; unfold is_u32; lia).
  set (l := Z.min n (rb_size rb - o)).
  assert (u32 (n - l) = n - l) as -> by (apply u32_small; unfold is_u32; lia).
  destruct (mem_read (rb_buffer rb) o l) as [s1|] eqn:E1;
    [| rewrite mem_read_ok in E1 by lia; done].
  pose proof (mem_read_len _ _ _ _ E1) as L1. simpl.
  destruct (mem_write dst 0 s1) as [d1|] eqn:W1;
    [| rewrite mem_write_ok in W1 by lia; done].
  pose proof (mem_write_len _ _ _ _ W1) as LW1. simpl.
  destruct (mem_read (rb_buffer rb) 0 (n - l)) as [s2|] eqn:E2;
    [| rewrite mem_read_ok in E2 by lia; done].
  pose proof (mem_read_len _ _ _ _ E2) as L2. simpl.
  destruct (mem_write d1 l s2) as [d2|] eqn:W2;
    [| rewrite mem_write_ok in W2 by lia; done].
  pose proof (mem_write_len _ _ _ _ W2) as LW2.
  exists d2. split; [done |]. split; [lia |]. split; intros j Hj.
  - rewrite (mem_write_lookup _ _ _ _ j W2), (mem_write_lookup _ _ _ _ j W1).
    rewrite cell_split by lia. fold o. simpl. repeat case_bool; simpl; try lia.
    + rewrite (mem_read_lookup _ _ _ _ _ E2) by lia. f_equal. lia.
    + rewrite (mem_read_lookup _ _ _ _ _ E1) by lia. f_equal. lia.
  - rewrite (mem_write_lookup _ _ _ _ j W2), (mem_write_lookup _ _ _ _ j W1).
    repeat case_bool; simpl; try lia; done.
Qed.

End wf.

(** A prefix of the destination block is determined by its cells. *)
Lemma take_eq_lookup {A} (l : list A) (k : list A) n :
  n <= len l -> len k = n ->
  (forall j : nat, Z.of_nat j < n -> l !! j = k !! j) -> take (Z.to_nat n) l = k.
Proof.
  intros Hl Hk H. apply list_eq. intros j. unfold len in *.
  destruct (decide (Z.of_nat j < n)).
  - rewrite lookup_take_lt by lia. auto.
  - rewrite lookup_take_ge by lia. symmetry. apply lookup_ge_None_2. lia.
Qed.

(** The two-part copy into the ring stores [src] from position [pos] on. *)
Lemma copy_in_spec rb src pos n :
  rb_wf rb -> 0 <= n <= rb_size rb -> n <= len src ->
  exists b1 b2,
    memcpy (rb_buffer rb) (rb_mask rb pos) src 0
      (Z.min n (u32 (rb_size rb - rb_mask rb pos))) = Some b1 /\
    memcpy b1 0 src (Z.min n (u32 (rb_size rb - rb_mask rb pos)))
      (u32 (n - Z.min n (u32 (rb_size rb - rb_mask rb pos)))) = Some b2 /\
    len b2 = rb_size rb /\
    forall j, 0 <= j < rb_size rb ->
      b2 !! Z.to_nat (rb_cell rb pos j) =
        (if j <? n then src !! Z.to_nat j
         else rb_buffer rb !! Z.to_nat (rb_cell rb pos j)).
Proof.
  intros Hwf Hn Hd. unfold memcpy.
  pose proof (mod_size_bounds rb Hwf pos) as Ho. pose proof (size_bounds rb Hwf) as Hs.
  pose proof (wf_len rb Hwf) as Hl. rewrite mask_mod by done.
  set (o := pos mod rb_size rb) in *.
  assert (u32 (rb_size rb - o) = rb_size rb - o) as -> by (apply u32_small; unfold is_u32; lia).
  set (l := Z.min n (rb_size rb - o)).
  assert (u32 (n - l) = n - l) as -> by (apply u32_small; unfold is_u32; lia).
  destruct (mem_read src 0 l) as [s1|] eqn:E1;
    [| rewrite mem_read_ok in E1 by lia; done].
  pose proof (mem_read_len _ _ _ _ E1) as L1. simpl.
  destruct (mem_write (rb_buffer rb) o s1) as [d1|] eqn:W1;
    [| rewrite mem_write_ok in W1 by lia; done].
  pose proof (mem_write_len _ _ _ _ W1) as LW1. simpl.
  destruct (mem_read src l (n - l)) as [s2|] eqn:E2;
    [| rewrite mem_read_ok in E2 by lia; done].
  pose proof (mem_read_len _ _ _ _ E2) as L2. simpl.
  destruct (mem_write d1 0 s2) as [d2|] eqn:W2;
    [| rewrite mem_write_ok in W2 by lia; done].
  pose proof (mem_write_len _ _ _ _ W2) as LW2.
  exists d1, d2. split; [done |]. split; [done |]. split; [lia |]. intros j Hj.
  rewrite (mem_write_lookup _ _ _ _ _ W2), (mem_write_lookup _ _ _ _ _ W1).
  rewrite cell_split by (done || lia). fold o. cbv zeta.
  case_bool; repeat (case_bool; simpl; try lia); try done.
  - rewrite (mem_read_lookup _ _ _ _ _ E1) by lia. f_equal. lia.
  - rewrite (mem_read_lookup _ _ _ _ _ E2) by lia. f_equal. lia.
Qed.

(** After [n] bytes went in at the write position. *)
Lemma contents_push rb b2 n :
  rb_wf rb -> 0 <= n <= rb_size rb - rb_used_len rb -> len b2 = rb_size rb ->
  let rb' := {| rb with rb_buffer := b2; rb_ipos := u32 (rb_ipos rb + n) |} in
  rb_wf rb' /\ rb_used_len rb' = rb_used_len rb + n.
Proof.
  intros Hwf Hn Hb rb'. pose proof (size_bounds rb Hwf).
  pose proof (used_nonneg rb).
  assert (rb_used_len rb' = rb_used_len rb + n) as Hu.
  { unfold rb', rb_used_len at 1. simpl. rewrite u32_sub_u32_l.
    rewrite <- (u32_small (rb_used_len rb + n)) by (unfold is_u32; lia).
    unfold rb_used_len. rewrite u32_add_u32_l. f_equal. lia. }
  split; [| done]. destruct Hwf. split; simpl; try done.
  - unfold is_u32. apply u32_range.
  - rewrite Hu. lia.
Qed.

Lemma rb_in_contents rb b2 src n :
  rb_wf rb -> 0 <= n <= rb_size rb - rb_used_len rb -> n <= len src ->
  len b2 = rb_size rb ->
  (forall j, 0 <= j < rb_size rb ->
     b2 !! Z.to_nat (rb_cell rb (rb_ipos rb) j) =
       (if j <? n then src !! Z.to_nat j
        else rb_buffer rb !! Z.to_nat (rb_cell rb (rb_ipos rb) j))) ->
  contents {| rb with rb_buffer := b2; rb_ipos := u32 (rb_ipos rb + n) |} =
    contents rb ++ take (Z.to_nat n) src.
Proof.
  intros Hwf Hn Hs Hb Hcell.
  destruct (contents_push rb b2 n Hwf Hn Hb) as [Hwf' Hu].
  set (rb' := {| rb with rb_buffer := b2; rb_ipos := u32 (rb_ipos rb + n) |}) in *.
  pose proof (used_nonneg rb) as Hnn. pose proof (wf_used rb Hwf) as Hle.
  pose proof (contents_length rb) as L. pose proof (contents_length rb') as L'.
  apply list_eq. intros j. destruct (decide (Z.of_nat j < rb_used_len rb + n)) as [Hj|Hj].
  - rewrite contents_lookup by (done || lia).
    change (rb_cell rb' (rb_opos rb') (Z.of_nat j))
      with (rb_cell rb (rb_opos rb) (Z.of_nat j)).
    destruct (decide (Z.of_nat j < rb_used_len rb)) as [Hj'|Hj'].
    + rewrite lookup_app_l by (unfold len in *; lia).
      rewrite contents_lookup by (done || lia).
      rewrite <- (cell_period rb Hwf).
      replace (Z.of_nat j + rb_size rb)
        with (rb_used_len rb + (Z.of_nat j + rb_size rb - rb_used_len rb)) by lia.
      rewrite <- (ipos_cell rb Hwf). simpl.
      rewrite Hcell by lia. case_bool; [lia | done].
    + replace (Z.of_nat j) with (rb_used_len rb + (Z.of_nat j - rb_used_len rb)) by lia.
      rewrite <- (ipos_cell rb Hwf). simpl. rewrite Hcell by lia. case_bool; [| lia].
      rewrite lookup_app_r by (unfold len in *; lia).
      rewrite lookup_take_lt by (unfold len in *; lia). f_equal. unfold len in *. lia.
  - rewrite !lookup_ge_None_2; [done | | unfold len in *; lia].
    rewrite length_app, length_take. unfold len in *. lia.
Qed.

(** The number of bytes an insertion of [n] bytes accepts. *)
Definition accepted (rb : ring_buffer) (n : Z) : Z := Z.min n (rb_size rb - rb_used_len rb).

Lemma rb_in_step rb src n :
  rb_wf rb -> 0 <= n <= len src ->
  exists rb',
    rb_in (Some rb) (Some src) n = Some (s32 (accepted rb n), Some rb') /\
    rb_wf rb' /\ rb_size rb' = rb_size rb /\
    contents rb' = contents rb ++ take (Z.to_nat (accepted rb n)) src.
Proof.
  intros Hwf Hn. unfold rb_in, accepted. rewrite unused_used by done.
  pose proof (wf_used rb Hwf). pose proof (used_nonneg rb).
  set (m := Z.min n (rb_size rb - rb_used_len rb)).
  destruct (copy_in_spec rb src (rb_ipos rb) m Hwf) as (b1 & b2 & E1 & E2 & L & Hc); [lia..|].
  cbv zeta. rewrite E1. cbn [mbind option_bind]. rewrite E2. cbn [mbind option_bind].
  destruct (contents_push rb b2 m) as [Hwf' _]; [done | lia | done |].
  eexists. split; [reflexivity |]. split; [done |]. split; [done |].
  apply rb_in_contents; auto; lia.
Qed.

(** After [n] bytes were consumed: either the positions restart at 0 or the
    read position moves. *)
Definition rb_advance (rb : ring_buffer) (n : Z) : ring_buffer :=
  if rb_ipos rb =? u32 (rb_opos rb + n)
  then {| rb with rb_ipos := 0; rb_opos := 0 |}
  else {| rb with rb_opos := u32 (rb_opos rb + n) |}.

Lemma rb_advance_spec rb n :
  rb_wf rb -> 0 <= n <= rb_used_len rb ->
  rb_wf (rb_advance rb n) /\ rb_size (rb_advance rb n) = rb_size rb /\
  contents (rb_advance rb n) = drop (Z.to_nat n) (contents rb).
Proof.
  intros Hwf Hn. pose proof (size_bounds rb Hwf). pose proof (wf_used rb Hwf).
  pose proof (used_nonneg rb) as Hu0. pose proof (contents_length rb) as L.
  assert (u32 (rb_ipos rb - u32 (rb_opos rb + n)) = rb_used_len rb - n) as Hu.
  { rewrite <- (u32_small (rb_used_len rb - n)) by (unfold is_u32; lia).
    unfold rb_used_len. rewrite u32_sub_u32_l, u32_sub_u32_r. f_equal. lia. }
  pose proof Hwf as [Hp Hl Hi Ho Hle]. unfold rb_advance.
  destruct (Z.eqb_spec (rb_ipos rb) (u32 (rb_opos rb + n))) as [E|E].
  - rewrite E, Z.sub_diag in Hu. change (u32 0) with 0 in Hu.
    split; [split; simpl; try done; try (unfold is_u32; lia); change (0 <= rb_size rb); lia |].
    split; [done |]. rewrite drop_ge by (unfold len in *; lia). done.
  - set (rb' := {| rb with rb_opos := u32 (rb_opos rb + n) |}).
    assert (rb_used_len rb' = rb_used_len rb - n) as Hu' by exact Hu.
    assert (rb_wf rb') as Hwf'.
    { split; simpl; try done; [apply u32_range | rewrite Hu'; lia]. }
    split; [done |]. split; [done |]. pose proof (contents_length rb') as L'.
    apply list_eq. intros j. rewrite lookup_drop.
    destruct (decide (Z.of_nat j < rb_used_len rb - n)).
    + rewrite !contents_lookup by (done || lia). simpl. f_equal. f_equal.
      unfold rb_cell. simpl. rewrite <- Zplus_mod_idemp_l, (u32_mod_size rb Hwf), Zplus_mod_idemp_l.
      f_equal. lia.
    + rewrite !lookup_ge_None_2; [done | unfold len in *; lia ..].
Qed.

Lemma rb_out_step rb dst n :
  rb_wf rb -> 0 <= n <= len dst ->
  let m := Z.min n (rb_used_len rb) in
  exists rb' dst',
    rb_out (Some rb) (Some dst) n = Some (s32 m, Some rb', Some dst') /\
    rb_wf rb' /\ rb_size rb' = rb_size rb /\ len dst' = len dst /\
    take (Z.to_nat m) dst' = take (Z.to_nat m) (contents rb) /\
    contents rb' = drop (Z.to_nat m) (contents rb).
Proof.
  intros Hwf Hn m. pose proof (wf_used rb Hwf). pose proof (used_nonneg rb).
  pose proof (contents_length rb) as L.
  destruct (copy_out_spec rb Hwf dst (rb_opos rb) m) as (dst' & E & Ld & Hc & _); [lia..|].
  destruct (rb_advance_spec rb m Hwf) as (Hwf' & Hs & Hco); [lia |].
  exists (rb_advance rb m), dst'. split.
  - unfold rb_out. cbv zeta. fold m. rewrite E. reflexivity.
  - repeat (split; [done |]). split; [| done].
    apply take_eq_lookup; [lia | rewrite len_take; lia |].
    intros j Hj. rewrite Hc by done. rewrite lookup_take_lt by lia.
    symmetry. apply contents_lookup; [done | lia].
Qed.

(** [rb_get] is a faithful peek as long as the addressed byte has not wrapped. *)
Lemma rb_get_step rb dst offset n :
  rb_wf rb -> 0 <= n <= len dst -> 0 <= offset <= rb_used_len rb ->
  rb_opos rb + offset < rb_size rb ->
  let m := Z.min n (rb_used_len rb - offset) in
  exists dst',
    rb_get (Some rb) (Some dst) offset n = Some (s32 m, Some dst') /\
    len dst' = len dst /\
    take (Z.to_nat m) dst' = take (Z.to_nat m) (drop (Z.to_nat offset) (contents rb)).
Proof.
  intros Hwf Hn Ho Hb m. pose proof (wf_used rb Hwf). pose proof (size_bounds rb Hwf).
  pose proof (wf_opos rb Hwf) as [Ho0 _]. pose proof (contents_length rb) as L.
  unfold rb_get. cbv zeta.
  assert (Z.land (u32 (rb_opos rb + offset)) (u32 (rb_size rb - 1)) = rb_opos rb + offset) as ->.
  { change (rb_mask rb (u32 (rb_opos rb + offset)) = rb_opos rb + offset).
    rewrite mask_mod, u32_mod_size by done. apply Z.mod_small. lia. }
  assert (u32 (rb_ipos rb - (rb_opos rb + offset)) = rb_used_len rb - offset) as ->.
  { rewrite <- (u32_small (rb_used_len rb - offset)) by (unfold is_u32; lia).
    unfold rb_used_len. rewrite u32_sub_u32_l. f_equal. lia. }
  fold m.
  destruct (copy_out_spec rb Hwf dst (rb_opos rb + offset) m) as (dst' & E & Ld & Hc & _); [lia..|].
  exists dst'. rewrite E. split; [done |]. split; [done |].
  apply take_eq_lookup; [lia | autorewrite with len; lia |].
  intros j Hj. rewrite Hc by done. rewrite lookup_take_lt, lookup_drop by lia.
  rewrite contents_lookup by (done || lia). f_equal. f_equal.
  rewrite cell_shift. f_equal. lia.
Qed.

Lemma rb_init_step rb0 b z k :
  0 <= k <= 31 -> z = 2 ^ k -> len b = z ->
  exists rb, rb_init rb0 b z = (0, rb) /\ rb_wf rb /\ contents rb = [] /\ rb_size rb = z.
Proof.
  intros Hk Hz Hl. unfold rb_init.
  assert (0 < z) by (rewrite Hz; apply Z.pow_pos_nonneg; lia).
  assert (z < 2 ^ 32) by (rewrite Hz; apply Z.pow_lt_mono_r; lia).
  assert (is_power_of_2 z = true) as ->.
  { apply is_power_of_2_spec; [unfold is_u32; lia | eauto]. }
  eexists. split; [reflexivity |]. split; [| done].
  split; cbn; try done; [eauto | change (rb_used_len _) with 0; lia].
Qed.

Lemma rb_clean_step rb :
  rb_wf rb ->
  exists rb', rb_clean (Some rb) = Some rb' /\ rb_wf rb' /\
    rb_size rb' = rb_size rb /\ rb_ipos rb' = 0 /\ rb_opos rb' = 0 /\ contents rb' = [].
Proof.
  intros Hwf. pose proof (size_bounds rb Hwf) as Hs. pose proof (wf_len rb Hwf) as Hl.
  unfold rb_clean. cbn [mbind option_bind].
  assert (len (replicate (Z.to_nat (rb_size rb)) 0) = rb_size rb) as Hr
    by (unfold len; rewrite length_replicate; lia).
  destruct (mem_write (rb_buffer rb) 0 (replicate (Z.to_nat (rb_size rb)) 0)) as [b|] eqn:W;
    [| rewrite mem_write_ok in W by lia; done].
  eexists. split; [reflexivity |]. split; [| done].
  pose proof (mem_write_len _ _ _ _ W). destruct Hwf.
  split; simpl; try done; [lia | unfold is_u32; lia.. | change (0 <= rb_size rb); lia].
Qed.

(** ** Refinement of a bounded queue *)

(** The calls a client makes on an initialised ring. *)
Inductive rb_op :=
  | OpIn (src : list Z)
  | OpOut (n : Z)
  | OpClean.

(** What the client observes: the return value and the bytes read. *)
Definition rb_obs : Type := Z * list Z.

Definition rb_step (rb : ring_buffer) (op : rb_op) : option (rb_obs * ring_buffer) :=
  match op with
  | OpIn src =>
      '(r, orb) ← rb_in (Some rb) (Some src) (len src);
      rb' ← orb; Some ((r, []), rb')
  | OpOut n =>
      '(r, orb, odst) ← rb_out (Some rb) (Some (replicate (Z.to_nat n) 0)) n;
      rb' ← orb; dst ← odst; Some ((r, take (Z.to_nat r) dst), rb')
  | OpClean => rb' ← rb_clean (Some rb); Some ((0, []), rb')
  end.

(** The abstract queue of capacity [cap]. *)
Definition queue_step (cap : Z) (q : list Z) (op : rb_op) : rb_obs * list Z :=
  match op with
  | OpIn src =>
      let k := Z.min (len src) (cap - len q) in
      ((k, []), q ++ take (Z.to_nat k) src)
  | OpOut n =>
      let k := Z.min n (len q) in
      ((k, take (Z.to_nat k) q), drop (Z.to_nat k) q)
  | OpClean => ((0, []), [])
  end.

Fixpoint rb_run (rb : ring_buffer) (ops : list rb_op) : option (list rb_obs) :=
  match ops with
  | [] => Some []
  | op :: ops => '(o, rb') ← rb_step rb op; os ← rb_run rb' ops; Some (o :: os)
  end.

Fixpoint queue_run (cap : Z) (q : list Z) (ops : list rb_op) : list rb_obs :=
  match ops with
  | [] => []
  | op :: ops => let '(o, q') := queue_step cap q op in o :: queue_run cap q' ops
  end.

Definition op_ok (op : rb_op) : Prop :=
  match op with OpOut n => 0 <= n | _ => True end.

(** One call is simulated by one step of the queue. *)
Lemma rb_step_sim rb op :
  rb_wf rb -> rb_size rb < 2 ^ 31 -> op_ok op ->
  exists o rb', rb_step rb op = Some (o, rb') /\ rb_wf rb' /\ rb_size rb' = rb_size rb /\
    queue_step (rb_size rb) (contents rb) op = (o, contents rb').
Proof.
  intros Hwf Hs Hop. pose proof (contents_length rb) as L.
  pose proof (wf_used rb Hwf). pose proof (used_nonneg rb).
  destruct op as [src | n |]; unfold rb_step, queue_step, op_ok in *.
  - pose proof (len_nonneg src).
    destruct (rb_in_step rb src (len src) Hwf) as (rb' & E & Hwf' & Hsz & Hc); [lia |].
    rewrite E. simpl. eexists _, rb'. rewrite Hc, L. unfold accepted.
    rewrite s32_small by lia. done.
  - assert (len (replicate (Z.to_nat n) 0) = n) as Hr by (unfold len; rewrite length_replicate; lia).
    destruct (rb_out_step rb (replicate (Z.to_nat n) 0) n Hwf)
      as (rb' & dst & E & Hwf' & Hsz & _ & Ht & Hc); [lia |].
    rewrite E. simpl. eexists _, rb'. rewrite s32_small by lia.
    rewrite L, Hc, Ht. done.
  - destruct (rb_clean_step rb Hwf) as (rb' & E & Hwf' & Hsz & _ & _ & Hc).
    rewrite E. simpl. eexists _, rb'. rewrite Hc. done.
Qed.

(** ** Properties *)

(** C5: Refinement.  From any well-formed ring, whatever the values of the free
    running 32-bit positions, every sequence of [rb_in], [rb_out] and [rb_clean]
    calls is defined (no access outside a block) and returns exactly the values
    and bytes that a bounded queue of the same capacity returns. *)
Theorem rb_refines_queue rb ops :
  rb_wf rb -> rb_size rb < 2 ^ 31 -> Forall op_ok ops ->
  rb_run rb ops = Some (queue_run (rb_size rb) (contents rb) ops).
Proof.
  intros Hwf Hs Hops. revert rb Hwf Hs.
  induction Hops as [|op ops Hop _ IH]; intros rb Hwf Hs; [done |].
  destruct (rb_step_sim rb op Hwf Hs Hop) as (o & rb' & E & Hwf' & Hsz & Hq).
  simpl. rewrite E, Hq. simpl. rewrite IH by (done || lia). rewrite Hsz. done.
Qed.

(** A ring whose positions are about to wrap around 2^32. *)
Definition demo_ring : ring_buffer :=
  {| rb_buffer := [10; 11; 12; 13; 14; 15; 16; 17]; rb_size := 8;
     rb_ipos := 1; rb_opos := 4294967294 |}.

Lemma demo_ring_wf : rb_wf demo_ring.
Proof.
  split; simpl; try done; [exists 3; lia | unfold is_u32; simpl; lia ..].
Qed.

Lemma rb_refines_queue_witness :
  rb_run demo_ring [OpIn [1; 2; 3; 4; 5; 6; 7]; OpOut 4; OpIn [9]; OpOut 100] =
    Some [(5, []); (4, [16; 17; 10; 1]); (1, []); (5, [2; 3; 4; 5; 9])].
Proof.
  rewrite rb_refines_queue.
  - vm_compute. reflexivity.
  - apply demo_ring_wf.
  - simpl. lia.
  - repeat constructor; simpl; lia.
Defined.

(** [rb_in] appends the longest prefix of the data that fits and reports its
    length; no byte already queued is lost, and the ring stays well formed. *)
Theorem rb_in_appends rb src n :
  rb_wf rb -> 0 <= n <= len src ->
  exists rb',
    rb_in (Some rb) (Some src) n = Some (s32 (accepted rb n), Some rb') /\
    rb_wf rb' /\ rb_size rb' = rb_size rb /\
    contents rb' = contents rb ++ take (Z.to_nat (accepted rb n)) src.
Proof. apply rb_in_step. Qed.

Lemma rb_in_appends_witness :
  exists rb',
    rb_in (Some demo_ring) (Some [1; 2; 3; 4; 5; 6; 7]) 7 = Some (s32 5, Some rb') /\
    rb_wf rb' /\ rb_size rb' = 8 /\ contents rb' = [16; 17; 10] ++ [1; 2; 3; 4; 5].
Proof.
  apply (rb_in_appends demo_ring [1; 2; 3; 4; 5; 6; 7] 7 demo_ring_wf).
  unfold len; simpl; lia.
Defined.

(** [rb_get] peeks: while the addressed byte lies before the physical end of
    the buffer ([out + offset < size]) it returns the queued bytes from [offset]
    on and leaves the ring alone.  This is the condition under which the data
    server of scom_tl.c uses it. *)
Theorem rb_get_peeks rb dst offset n :
  rb_wf rb -> 0 <= n <= len dst -> 0 <= offset <= rb_used_len rb ->
  rb_opos rb + offset < rb_size rb ->
  let m := Z.min n (rb_used_len rb - offset) in
  exists dst',
    rb_get (Some rb) (Some dst) offset n = Some (s32 m, Some dst') /\
    len dst' = len dst /\
    take (Z.to_nat m) dst' = take (Z.to_nat m) (drop (Z.to_nat offset) (contents rb)).
Proof. apply rb_get_step. Qed.

(** A freshly filled ring, as the data server has it. *)
Definition demo_flat : ring_buffer :=
  {| rb_buffer := [10; 11; 12; 13; 14; 15; 16; 17]; rb_size := 8;
     rb_ipos := 7; rb_opos := 0 |}.

Lemma rb_get_peeks_witness :
  exists dst',
    rb_get (Some demo_flat) (Some [0; 0; 0; 0]) 5 4 = Some (s32 2, Some dst') /\
    len dst' = 4 /\ take 2 dst' = [15; 16].
Proof.
  apply (rb_get_peeks demo_flat [0; 0; 0; 0] 5 4).
  - split; simpl; try done; [exists 3; lia | unfold is_u32; simpl; lia ..].
  - unfold len; simpl; lia.
  - unfold rb_used_len; simpl. vm_compute. split; discriminate.
  - simpl; lia.
Defined.

(** Without that condition [rb_get] does not peek: once the read position has
    advanced, the masked position is compared with the unmasked [in] and the call
    returns bytes that are not in the queue. *)
Theorem rb_get_wrong_after_wrap :
  rb_wf demo_ring /\ rb_used_len demo_ring = 3 /\
  rb_get (Some demo_ring) (Some [0; 0; 0; 0]) 0 4 = Some (4, Some [16; 17; 10; 11]) /\
  contents demo_ring = [16; 17; 10].
Proof. split; [apply demo_ring_wf |]. by vm_compute. Qed.
