(* ===== verification/Tcom.v ===== *)
(** * Message queues between the threads (src/app/base/tcom/tcom_main.c)

    Every module has a pipe for the headers of its messages and a ring of bytes for
    their bodies.  A message goes to the queue of the thread communication module,
    whose thread hands it on to the queue of its receiver.

    A pipe is the list of the headers in it: a write of a header is atomic, and fails
    when the pipe has no room ([accept] is false).  A read from an empty pipe never
    returns, with the mutex of the queue locked: [None].  The theorems: the ring is a
    bounded queue of bytes, the module delivers the messages in order. *)

From S2P Require Import Prelude.

(** ** Definitions *)

Definition TCOM_QUEUE_BUF_SIZE : Z := 100 * 1024.
Definition TCOM_MAX_MSG_LEN : Z := 2 * 1024.

Definition MAIN_MID_MASK : Z := 0x3f00.
Definition CPUID_MASK : Z := 0xc000.
Definition CPUID_MAIN_MID_MASK : Z := 0xff00.
Definition MPU_MID_TIMER : Z := 0x0100.
Definition MPU_MID_TCOM : Z := 0x0700.
Definition MPU_MAX_MID : Z := 0x1400.
Definition MPU_APP_MID_COUNT : Z := Z.shiftr (MPU_MAX_MID - MPU_MID_TIMER) 8 + 1.
Definition MID_TO_INDEX (mid : Z) : Z := Z.shiftr (Z.land mid MAIN_MID_MASK) 8 - 1.

(** The enumeration begins with [(MPU_MID_TCOM << 16) & 0x01]. *)
Definition TCOM_INVALID_PARAMETER : Z := Z.land (Z.shiftl MPU_MID_TCOM 16) 1.
Definition TCOM_QUEUE_OVERFLOW : Z := TCOM_INVALID_PARAMETER + 1.
Definition TCOM_QUEUE_UNDERFLOW : Z := TCOM_INVALID_PARAMETER + 2.
Definition TCOM_RECV_MSG_FAILED : Z := TCOM_INVALID_PARAMETER + 3.
(** The error of [dev_write]. *)
Definition DEV_RW_READ_FAILED : Z := Z.lor (Z.shiftl 0x3f04 16) 1 + 1.

Record TCOM_MSG_HEADER := { sender : Z; receiver : Z; msgid : Z; msglen : Z }.

(** [TCOM_QUEUE] with its pipe. *)
Record TCOM_QUEUE := { head : Z; tail : Z; buf : list Z; pipe : list TCOM_MSG_HEADER }.

Record TCOM := { tcom_queue : list TCOM_QUEUE; tcom_msgbuf : list Z }.

Definition tcom_push_data (q : TCOM_QUEUE) (data : list Z) (datalen : Z) : option TCOM_QUEUE :=
  if head q <=? tail q then
    if datalen <=? TCOM_QUEUE_BUF_SIZE - tail q then
      b ← memcpy (buf q) (tail q) data 0 datalen; Some {| q with buf := b |}
    else
      let part1_size := TCOM_QUEUE_BUF_SIZE - tail q in
      b ← memcpy (buf q) (tail q) data 0 part1_size;
      let part2_size := datalen - part1_size in
      b ← memcpy b 0 data part1_size part2_size;
      Some {| q with buf := b |}
  else b ← memcpy (buf q) (tail q) data 0 datalen; Some {| q with buf := b |}.

(** The destination. *)
Definition tcom_pull_data (q : TCOM_QUEUE) (data : list Z) (datalen : Z) : option (list Z) :=
  if tail q <=? head q then
    if datalen <=? TCOM_QUEUE_BUF_SIZE - head q then memcpy data 0 (buf q) (head q) datalen
    else
      let part1_size := TCOM_QUEUE_BUF_SIZE - head q in
      d ← memcpy data 0 (buf q) (head q) part1_size;
      let part2_size := datalen - part1_size in
      memcpy d part1_size (buf q) 0 part2_size
  else memcpy data 0 (buf q) (head q) datalen.

Definition tcom_enqueue_msg (q : TCOM_QUEUE) (msghdr : TCOM_MSG_HEADER) (msgbody : list Z) : option (Z * TCOM_QUEUE) :=
  if msglen msghdr =? 0 then Some (0, q)
  else
    let idle_size := Z.rem (head q - tail q + TCOM_QUEUE_BUF_SIZE - 1) TCOM_QUEUE_BUF_SIZE in
    if u32 idle_size <? msglen msghdr then Some (TCOM_QUEUE_OVERFLOW, q)
    else
      q ← tcom_push_data q msgbody (msglen msghdr);
      Some (0, {| q with tail := u32 (tail q + msglen msghdr) mod TCOM_QUEUE_BUF_SIZE |}).

Definition tcom_dequeue_msg (q : TCOM_QUEUE) (msghdr : TCOM_MSG_HEADER) (msgbody : list Z)
    : option (Z * TCOM_QUEUE * list Z) :=
  if msglen msghdr =? 0 then Some (0, q, msgbody)
  else
    let used_size := Z.rem (tail q - head q + TCOM_QUEUE_BUF_SIZE) TCOM_QUEUE_BUF_SIZE in
    if u32 used_size <? msglen msghdr then Some (TCOM_QUEUE_UNDERFLOW, q, msgbody)
    else
      d ← tcom_pull_data q msgbody (msglen msghdr);
      Some (0, {| q with head := u32 (head q + msglen msghdr) mod TCOM_QUEUE_BUF_SIZE |}, d).

Definition tcom_init_queue (q : TCOM_QUEUE) : TCOM_QUEUE := {| q with head := 0; tail := 0 |}.

(** The queue after [dev_write] of the header, or the tail rolled back. *)
Definition write_header (accept : bool) (q : TCOM_QUEUE) (msghdr : TCOM_MSG_HEADER) : Z * TCOM_QUEUE :=
  if accept then (0, {| q with pipe := pipe q ++ [msghdr] |})
  else
    (DEV_RW_READ_FAILED,
     if 0 <? msglen msghdr
     then {| q with tail := u32 (tail q - msglen msghdr + TCOM_QUEUE_BUF_SIZE) mod TCOM_QUEUE_BUF_SIZE |} else q).

(** [queue_forward] is [tcom_forward] on the queue of the receiver. *)
Definition queue_forward (accept : bool) (q : TCOM_QUEUE) (msghdr : TCOM_MSG_HEADER) (msgbody : list Z)
    : option (Z * TCOM_QUEUE) :=
  '(ret, q) ← (if negb (msglen msghdr =? 0) then tcom_enqueue_msg q msghdr msgbody else Some (0, q));
  if negb (ret =? 0) then Some (-1, q) else Some (write_header accept q msghdr).

Definition tcom_forward (accept : bool) (msghdr : TCOM_MSG_HEADER) (rcv : Z) (msgbody : list Z) : ST TCOM Z :=
  let index := MID_TO_INDEX rcv in
  s ← st_get;
  q ← st_lift (mem_get (tcom_queue s) index);
  '(ret, q) ← st_lift (queue_forward accept q msghdr msgbody);
  l ← st_lift (mem_set (tcom_queue s) index q);
  st_mod (fun s => {| s with tcom_queue := l |});;
  mret ret.

(** [queue_recv] is [tcom_recv_msg] on the queue: the result, the header, the body. *)
Definition queue_recv (q : TCOM_QUEUE) (msgbody : option (list Z))
    : option (Z * TCOM_MSG_HEADER * option (list Z) * TCOM_QUEUE) :=
  match pipe q with
  | [] => None
  | hdr :: rest =>
      let q := {| q with pipe := rest |} in
      if msglen hdr =? 0 then Some (0, hdr, msgbody, q)
      else
        match msgbody with
        | None => Some (TCOM_INVALID_PARAMETER, hdr, None, q)
        | Some body =>
            '(ret, q, body) ← tcom_dequeue_msg q hdr body;
            Some (ret, hdr, Some body, if negb (ret =? 0) then tcom_init_queue q else q)
        end
  end.

Definition tcom_recv_msg (main_mid : Z) (msgbody : option (list Z)) : ST TCOM (Z * TCOM_MSG_HEADER * option (list Z)) :=
  let index := MID_TO_INDEX main_mid in
  s ← st_get;
  q ← st_lift (mem_get (tcom_queue s) index);
  '(ret, hdr, body, q) ← st_lift (queue_recv q msgbody);
  l ← st_lift (mem_set (tcom_queue s) index q);
  st_mod (fun s => {| s with tcom_queue := l |});;
  mret (ret, hdr, body).

Definition tcom_proc_msg (accept : bool) : ST TCOM Z :=
  s ← st_get;
  '(ret, msghdr, body) ← tcom_recv_msg MPU_MID_TCOM (Some (tcom_msgbuf s));
  let body := default [] body in
  st_mod (fun s => {| s with tcom_msgbuf := body |});;
  if negb (ret =? 0) then mret TCOM_RECV_MSG_FAILED
  else if negb (MPU_MID_TCOM =? Z.land (receiver msghdr) CPUID_MAIN_MID_MASK)
  then tcom_forward accept msghdr (receiver msghdr) body
  else mret 0.

(** One wakeup of [tcom_main]: [select] waits for the pipe.  The result is that of
    [tcom_proc_msg], with the header that it took. *)
Definition tcom_main_step (accept : bool) : ST TCOM (option (TCOM_MSG_HEADER * Z)) :=
  s ← st_get;
  q ← st_lift (mem_get (tcom_queue s) (MID_TO_INDEX MPU_MID_TCOM));
  match pipe q with [] => mret None | hdr :: _ => ret ← tcom_proc_msg accept; mret (Some (hdr, ret)) end.

(** The phase [INIT_PHASE_INSIDE]. *)
Definition tcom_init : TCOM := {|
  tcom_queue := replicate (Z.to_nat MPU_APP_MID_COUNT)
    {| head := 0; tail := 0; buf := replicate (Z.to_nat TCOM_QUEUE_BUF_SIZE) 0; pipe := [] |};
  tcom_msgbuf := replicate (Z.to_nat TCOM_MAX_MSG_LEN) 0 |}.

Definition tcom_send_msg (accept : bool) (msghdr : option TCOM_MSG_HEADER) (msgbody : option (list Z)) : ST TCOM Z :=
  match msghdr with
  | None => mret TCOM_INVALID_PARAMETER
  | Some msghdr =>
      if negb (Z.land (sender msghdr) CPUID_MASK =? 0) || negb (Z.land (receiver msghdr) CPUID_MASK =? 0)
      then mret TCOM_INVALID_PARAMETER
      else if (MPU_MAX_MID <? Z.land (sender msghdr) CPUID_MAIN_MID_MASK) ||
              (MPU_MAX_MID <? Z.land (receiver msghdr) CPUID_MAIN_MID_MASK)
      then mret TCOM_INVALID_PARAMETER
      else if (Z.land (sender msghdr) CPUID_MAIN_MID_MASK =? 0) || (Z.land (receiver msghdr) CPUID_MAIN_MID_MASK =? 0)
      then mret TCOM_INVALID_PARAMETER
      else if negb (msglen msghdr =? 0) && bool_decide (msgbody = None) then mret TCOM_INVALID_PARAMETER
      else if TCOM_MAX_MSG_LEN <? msglen msghdr then mret TCOM_INVALID_PARAMETER
      else tcom_forward accept msghdr MPU_MID_TCOM (default [] msgbody)
  end.

(** The error, or the descriptor of the pipe of the queue with an index. *)
Definition tcom_get_read_fd (main_mid : Z) : Z + Z :=
  if (Z.shiftr main_mid 8 =? 0) || (MPU_MAX_MID <? Z.land main_mid CPUID_MAIN_MID_MASK) then inl TCOM_INVALID_PARAMETER
  else if MPU_MID_TCOM =? Z.land main_mid CPUID_MAIN_MID_MASK then inl TCOM_INVALID_PARAMETER
  else inr (MID_TO_INDEX main_mid).

(** ** The ring *)

(** The cell of the [j]-th byte from [pos] on. *)
Definition tcom_cell (pos j : Z) : Z :=
  if pos + j <? TCOM_QUEUE_BUF_SIZE then pos + j else pos + j - TCOM_QUEUE_BUF_SIZE.

Lemma size_val : TCOM_QUEUE_BUF_SIZE = 102400.
Proof. reflexivity. Qed.

(** The bytes [d] are in the ring. *)
Record ring_holds (q : TCOM_QUEUE) (d : list Z) : Prop := {
  rh_buf : len (buf q) = TCOM_QUEUE_BUF_SIZE;
  rh_head : 0 <= head q < TCOM_QUEUE_BUF_SIZE;
  rh_tail : tail q = tcom_cell (head q) (len d);
  rh_len : len d < TCOM_QUEUE_BUF_SIZE;
  rh_cells : forall j : nat, Z.of_nat j < len d -> (buf q !! Z.to_nat (tcom_cell (head q) (Z.of_nat j)) : option Z) = d !! j
}.

Ltac cells := unfold tcom_cell in *; rewrite ?size_val in *; repeat case_bool; simpl; try lia.

(** The bytes of [data] are written from [pos] on, around the end of the block. *)
Lemma push_part (b data : list Z) pos n : len b = TCOM_QUEUE_BUF_SIZE -> 0 <= pos -> pos + n <= TCOM_QUEUE_BUF_SIZE -> 0 <= n <= len data ->
  exists b' : list Z, memcpy b pos data 0 n = Some b' /\ len b' = TCOM_QUEUE_BUF_SIZE /\
    forall j : nat, Z.of_nat j < TCOM_QUEUE_BUF_SIZE -> b' !! Z.to_nat (tcom_cell pos (Z.of_nat j)) =
      if Z.of_nat j <? n then data !! j else b !! Z.to_nat (tcom_cell pos (Z.of_nat j)).
Proof.
  intros Hb Hp Hn Hd. unfold memcpy. destruct (mem_read data 0 n) as [s|] eqn:R; [| rewrite mem_read_ok in R by lia; done].
  cbn [mbind option_bind]. pose proof (mem_read_len _ _ _ _ R) as Ls.
  destruct (mem_write b pos s) as [b'|] eqn:W; [| rewrite mem_write_ok in W by lia; done].
  exists b'. split; [done |]. pose proof (mem_write_len _ _ _ _ W). split; [lia |]. intros j Hj.
  rewrite (mem_write_lookup _ _ _ _ _ W). cells; try done.
  rewrite (mem_read_lookup _ _ _ _ _ R) by lia. f_equal. lia.
Qed.

Lemma push_wrap (b data : list Z) pos n : len b = TCOM_QUEUE_BUF_SIZE -> 0 <= pos < TCOM_QUEUE_BUF_SIZE -> TCOM_QUEUE_BUF_SIZE < pos + n ->
  0 <= n <= len data -> n < TCOM_QUEUE_BUF_SIZE ->
  exists b1 b2 : list Z, memcpy b pos data 0 (TCOM_QUEUE_BUF_SIZE - pos) = Some b1 /\
    memcpy b1 0 data (TCOM_QUEUE_BUF_SIZE - pos) (n - (TCOM_QUEUE_BUF_SIZE - pos)) = Some b2 /\ len b2 = TCOM_QUEUE_BUF_SIZE /\
    forall j : nat, Z.of_nat j < TCOM_QUEUE_BUF_SIZE -> b2 !! Z.to_nat (tcom_cell pos (Z.of_nat j)) =
      if Z.of_nat j <? n then data !! j else b !! Z.to_nat (tcom_cell pos (Z.of_nat j)).
Proof.
  intros Hb Hp Hw Hd Hn. unfold memcpy. set (p1 := TCOM_QUEUE_BUF_SIZE - pos).
  destruct (mem_read data 0 p1) as [s1|] eqn:R1; [| rewrite mem_read_ok in R1 by lia; done].
  destruct (mem_read data p1 (n - p1)) as [s2|] eqn:R2; [| rewrite mem_read_ok in R2 by lia; done].
  pose proof (mem_read_len _ _ _ _ R1) as L1. pose proof (mem_read_len _ _ _ _ R2) as L2. cbn [mbind option_bind].
  destruct (mem_write b pos s1) as [b1|] eqn:W1; [| rewrite mem_write_ok in W1 by lia; done].
  pose proof (mem_write_len _ _ _ _ W1).
  destruct (mem_write b1 0 s2) as [b2|] eqn:W2; [| rewrite mem_write_ok in W2 by lia; done].
  pose proof (mem_write_len _ _ _ _ W2). exists b1, b2. split; [done |]. split; [done |]. split; [lia |]. intros j Hj.
  rewrite (mem_write_lookup _ _ _ _ _ W2), (mem_write_lookup _ _ _ _ _ W1). subst p1. cells; try done.
  - rewrite (mem_read_lookup _ _ _ _ _ R1) by lia. f_equal. lia.
  - rewrite (mem_read_lookup _ _ _ _ _ R2) by lia. f_equal. lia.
Qed.

Lemma push_ok q d data n : ring_holds q d -> 0 < n <= len data -> len d + n < TCOM_QUEUE_BUF_SIZE ->
  exists b, tcom_push_data q data n = Some {| q with buf := b |} /\
    ring_holds {| q with buf := b; tail := tcom_cell (head q) (len d + n) |} (d ++ take (Z.to_nat n) data).
Proof.
  intros [Hb Hh Ht Hl Hc] Hn Hr. pose proof (len_nonneg d) as Hd.
  assert (0 <= tail q < TCOM_QUEUE_BUF_SIZE) as Htr by (rewrite ?Ht; cells).
  assert (exists b : list Z, tcom_push_data q data n = Some {| q with buf := b |} /\ len b = TCOM_QUEUE_BUF_SIZE /\
    forall j : nat, Z.of_nat j < TCOM_QUEUE_BUF_SIZE -> b !! Z.to_nat (tcom_cell (tail q) (Z.of_nat j)) =
      if Z.of_nat j <? n then data !! j else buf q !! Z.to_nat (tcom_cell (tail q) (Z.of_nat j))) as (b & E & Lb & H).
  { unfold tcom_push_data. destruct (Z.leb_spec (head q) (tail q)) as [Hht | Hht].
    - destruct (Z.leb_spec n (TCOM_QUEUE_BUF_SIZE - tail q)) as [Hfit | Hfit].
      + destruct (push_part (buf q) data (tail q) n) as (b & E & Hw); [done | lia | lia | lia |]. rewrite E. by exists b.
      + destruct (push_wrap (buf q) data (tail q) n) as (b1 & b2 & E1 & E2 & H); [done | lia | lia | lia | lia |].
        rewrite E1. cbn [mbind option_bind]. rewrite E2. by exists b2.
    - destruct (push_part (buf q) data (tail q) n) as (b & E & Hw); [done | lia | | lia |]; [rewrite Ht in *; cells |].
      rewrite E. by exists b. }
  exists b. split; [done |]. assert (len (take (Z.to_nat n) data) = n) as Lt by (rewrite len_take; lia).
  split; cbn [buf head tail]; rewrite ?len_app, ?Lt; try done. intros j Hj.
  destruct (Z.ltb_spec (Z.of_nat j) (len d)).
  - rewrite lookup_app_l by (unfold len in *; lia). rewrite <- Hc by done.
    assert (tcom_cell (head q) (Z.of_nat j) = tcom_cell (tail q) (Z.of_nat (j + Z.to_nat (TCOM_QUEUE_BUF_SIZE - len d)))) as ->
      by (rewrite ?Ht; cells).
    rewrite H by (rewrite size_val in *; lia). case_bool; [| done]. rewrite size_val in *; lia.
  - rewrite lookup_app_r by (unfold len in *; lia). rewrite lookup_take_lt by (unfold len in *; lia).
    assert (tcom_cell (head q) (Z.of_nat j) = tcom_cell (tail q) (Z.of_nat (j - length d))) as ->
      by (rewrite Ht; unfold len in *; cells).
    rewrite H by (unfold len in *; lia). case_bool; [done |]. unfold len in *; lia.
Qed.

(** The bytes of the ring from [pos] on are copied. *)
Lemma pull_part (b data : list Z) pos n : len b = TCOM_QUEUE_BUF_SIZE -> 0 <= pos -> pos + n <= TCOM_QUEUE_BUF_SIZE -> 0 <= n <= len data ->
  exists d : list Z, memcpy data 0 b pos n = Some d /\ len d = len data /\
    forall j : nat, d !! j = if Z.of_nat j <? n then b !! Z.to_nat (tcom_cell pos (Z.of_nat j)) else data !! j.
Proof.
  intros Hb Hp Hn Hd. unfold memcpy. destruct (mem_read b pos n) as [s|] eqn:R; [| rewrite mem_read_ok in R by lia; done].
  cbn [mbind option_bind]. pose proof (mem_read_len _ _ _ _ R) as Ls.
  destruct (mem_write data 0 s) as [d|] eqn:W; [| rewrite mem_write_ok in W by lia; done].
  exists d. split; [done |]. pose proof (mem_write_len _ _ _ _ W). split; [lia |]. intros j.
  rewrite (mem_write_lookup _ _ _ _ _ W). cells; try done.
  rewrite (mem_read_lookup _ _ _ _ _ R) by lia. f_equal. lia.
Qed.

Lemma pull_wrap (b data : list Z) pos n : len b = TCOM_QUEUE_BUF_SIZE -> 0 <= pos < TCOM_QUEUE_BUF_SIZE -> TCOM_QUEUE_BUF_SIZE < pos + n ->
  0 <= n <= len data -> n < TCOM_QUEUE_BUF_SIZE ->
  exists d1 d2 : list Z, memcpy data 0 b pos (TCOM_QUEUE_BUF_SIZE - pos) = Some d1 /\
    memcpy d1 (TCOM_QUEUE_BUF_SIZE - pos) b 0 (n - (TCOM_QUEUE_BUF_SIZE - pos)) = Some d2 /\ len d2 = len data /\
    forall j : nat, d2 !! j = if Z.of_nat j <? n then b !! Z.to_nat (tcom_cell pos (Z.of_nat j)) else data !! j.
Proof.
  intros Hb Hp Hw Hd Hn. unfold memcpy. set (p1 := TCOM_QUEUE_BUF_SIZE - pos).
  destruct (mem_read b pos p1) as [s1|] eqn:R1; [| rewrite mem_read_ok in R1 by lia; done].
  destruct (mem_read b 0 (n - p1)) as [s2|] eqn:R2; [| rewrite mem_read_ok in R2 by lia; done].
  pose proof (mem_read_len _ _ _ _ R1) as L1. pose proof (mem_read_len _ _ _ _ R2) as L2. cbn [mbind option_bind].
  destruct (mem_write data 0 s1) as [d1|] eqn:W1; [| rewrite mem_write_ok in W1 by lia; done].
  pose proof (mem_write_len _ _ _ _ W1).
  destruct (mem_write d1 p1 s2) as [d2|] eqn:W2; [| rewrite mem_write_ok in W2 by lia; done].
  pose proof (mem_write_len _ _ _ _ W2). exists d1, d2. split; [done |]. split; [done |]. split; [lia |]. intros j.
  rewrite (mem_write_lookup _ _ _ _ _ W2), (mem_write_lookup _ _ _ _ _ W1). subst p1. cells; try done.
  - rewrite (mem_read_lookup _ _ _ _ _ R2) by lia. f_equal. lia.
  - rewrite (mem_read_lookup _ _ _ _ _ R1) by lia. f_equal. lia.
Qed.

Lemma pull_ok q d1 d2 dst : ring_holds q (d1 ++ d2) -> 0 < len d1 <= len dst ->
  exists d : list Z, tcom_pull_data q dst (len d1) = Some d /\ len d = len dst /\ take (length d1) d = d1 /\
    ring_holds {| q with head := tcom_cell (head q) (len d1) |} d2.
Proof.
  intros [Hb Hh Ht Hl Hc] Hn. rewrite len_app in *. pose proof (len_nonneg d2) as Hd.
  assert (exists d : list Z, tcom_pull_data q dst (len d1) = Some d /\ len d = len dst /\
    forall j : nat, d !! j = if Z.of_nat j <? len d1 then buf q !! Z.to_nat (tcom_cell (head q) (Z.of_nat j)) else dst !! j)
    as (d & E & Ld & H).
  { unfold tcom_pull_data. destruct (Z.leb_spec (tail q) (head q)) as [Hth | Hth].
    - destruct (Z.leb_spec (len d1) (TCOM_QUEUE_BUF_SIZE - head q)) as [Hfit | Hfit].
      + apply pull_part; [done | lia | lia | lia].
      + destruct (pull_wrap (buf q) dst (head q) (len d1)) as (e1 & e2 & E1 & E2 & He); [done | lia | lia | lia | lia |].
        rewrite E1. cbn [mbind option_bind]. rewrite E2. by exists e2.
    - apply pull_part; [done | lia | | lia]. rewrite Ht in Hth. cells. }
  exists d. split; [done |]. split; [done |]. split.
  - apply list_eq. intros j. destruct (decide (j < length d1)%nat).
    + rewrite lookup_take_lt by lia. rewrite H. case_bool; [| unfold len in *; lia].
      rewrite Hc by lia. by apply lookup_app_l.
    + rewrite lookup_take_ge by lia. symmetry. apply lookup_ge_None_2. lia.
  - split; cbn [buf head tail]; try done; [cells | rewrite Ht; cells | lia |]. intros j Hj.
    assert (tcom_cell (tcom_cell (head q) (len d1)) (Z.of_nat j) = tcom_cell (head q) (Z.of_nat (length d1 + j))) as ->
      by (unfold len in *; cells).
    rewrite Hc by (unfold len in *; lia). rewrite lookup_app_r by lia. f_equal. lia.
Qed.

(** ** Queues of messages *)

Definition MSG : Type := TCOM_MSG_HEADER * list Z.

Definition bodies (l : list MSG) : list Z := concat (map snd l).

(** The messages of a queue: the headers in the pipe, the bodies in the ring. *)
Record queue_rep (q : TCOM_QUEUE) (l : list MSG) : Prop := {
  qr_pipe : pipe q = map fst l;
  qr_ring : ring_holds q (bodies l);
  qr_lens : Forall (fun m => len m.2 = msglen m.1 /\ msglen m.1 <= TCOM_MAX_MSG_LEN) l
}.

Lemma bodies_app l k : bodies (l ++ k) = bodies l ++ bodies k.
Proof. unfold bodies. by rewrite map_app, concat_app. Qed.

Lemma bodies_single m : bodies [m] = m.2.
Proof. unfold bodies. cbn. apply app_nil_r. Qed.

(** A message can be queued. *)
Definition fits (l : list MSG) (hdr : TCOM_MSG_HEADER) : bool :=
  (msglen hdr =? 0) || (msglen hdr <? TCOM_QUEUE_BUF_SIZE - len (bodies l)).

Lemma idle_size_ok q l : queue_rep q l ->
  u32 (Z.rem (head q - tail q + TCOM_QUEUE_BUF_SIZE - 1) TCOM_QUEUE_BUF_SIZE) = TCOM_QUEUE_BUF_SIZE - 1 - len (bodies l).
Proof.
  intros [_ [_ Hh Ht Hl _] _]. pose proof (len_nonneg (bodies l)).
  rewrite Z.rem_mod_nonneg by (rewrite ?Ht; cells). rewrite u32_small.
  - assert (head q - tail q + TCOM_QUEUE_BUF_SIZE - 1 = TCOM_QUEUE_BUF_SIZE - 1 - len (bodies l) \/
            head q - tail q + TCOM_QUEUE_BUF_SIZE - 1 = TCOM_QUEUE_BUF_SIZE - 1 - len (bodies l) + 1 * TCOM_QUEUE_BUF_SIZE) as [-> | ->]
      by (rewrite ?Ht; cells).
    + apply Z.mod_small. lia.
    + rewrite Z.mod_add by (rewrite size_val; lia). apply Z.mod_small. lia.
  - pose proof (Z.mod_pos_bound (head q - tail q + TCOM_QUEUE_BUF_SIZE - 1) TCOM_QUEUE_BUF_SIZE). unfold is_u32. rewrite size_val in *. lia.
Qed.

Lemma used_size_ok q l : queue_rep q l ->
  u32 (Z.rem (tail q - head q + TCOM_QUEUE_BUF_SIZE) TCOM_QUEUE_BUF_SIZE) = len (bodies l).
Proof.
  intros [_ [_ Hh Ht Hl _] _]. pose proof (len_nonneg (bodies l)).
  rewrite Z.rem_mod_nonneg by (rewrite ?Ht; cells). rewrite u32_small.
  - assert (tail q - head q + TCOM_QUEUE_BUF_SIZE = len (bodies l) \/
            tail q - head q + TCOM_QUEUE_BUF_SIZE = len (bodies l) + 1 * TCOM_QUEUE_BUF_SIZE) as [-> | ->] by (rewrite ?Ht; cells).
    + apply Z.mod_small. lia.
    + rewrite Z.mod_add by (rewrite size_val; lia). apply Z.mod_small. lia.
  - pose proof (Z.mod_pos_bound (tail q - head q + TCOM_QUEUE_BUF_SIZE) TCOM_QUEUE_BUF_SIZE). unfold is_u32. rewrite size_val in *. lia.
Qed.

(** Positions advance by [(pos + n) % TCOM_QUEUE_BUF_SIZE]. *)
Lemma advance_cell pos n : 0 <= pos < TCOM_QUEUE_BUF_SIZE -> 0 <= n < TCOM_QUEUE_BUF_SIZE ->
  u32 (pos + n) mod TCOM_QUEUE_BUF_SIZE = tcom_cell pos n.
Proof.
  intros Hp Hn. rewrite u32_small by (unfold is_u32; rewrite size_val in *; lia). unfold tcom_cell. case_bool.
  - apply Z.mod_small. lia.
  - replace (pos + n) with (pos + n - TCOM_QUEUE_BUF_SIZE + 1 * TCOM_QUEUE_BUF_SIZE) by lia.
    rewrite Z.mod_add by (rewrite size_val; lia). rewrite Z.mod_small by lia. lia.
Qed.

(** Positions go back by [(pos - n + TCOM_QUEUE_BUF_SIZE) % TCOM_QUEUE_BUF_SIZE]. *)
Lemma retreat_cell pos m n : 0 <= pos < TCOM_QUEUE_BUF_SIZE -> 0 <= m -> 0 <= n -> m + n < TCOM_QUEUE_BUF_SIZE ->
  u32 (tcom_cell pos (m + n) - n + TCOM_QUEUE_BUF_SIZE) mod TCOM_QUEUE_BUF_SIZE = tcom_cell pos m.
Proof.
  intros Hp Hm Hn Hs. rewrite u32_small by (unfold is_u32; cells).
  assert (tcom_cell pos (m + n) - n + TCOM_QUEUE_BUF_SIZE = tcom_cell pos m \/
          tcom_cell pos (m + n) - n + TCOM_QUEUE_BUF_SIZE = tcom_cell pos m + 1 * TCOM_QUEUE_BUF_SIZE) as [-> | ->] by cells.
  - apply Z.mod_small. cells.
  - rewrite Z.mod_add by (rewrite size_val; lia). apply Z.mod_small. cells.
Qed.

Definition queued (hdr : TCOM_MSG_HEADER) (body : list Z) : MSG := (hdr, take (Z.to_nat (msglen hdr)) body).

Lemma forward_ok accept q l hdr body : queue_rep q l -> 0 <= msglen hdr <= TCOM_MAX_MSG_LEN -> msglen hdr <= len body ->
  exists ret q', queue_forward accept q hdr body = Some (ret, q') /\ (ret =? 0) = accept && fits l hdr /\
    queue_rep q' (if accept && fits l hdr then l ++ [queued hdr body] else l).
Proof.
  intros Q Hm Hb. pose proof Q as [Hp R Hl]. unfold queue_forward, fits, queued.
  assert (len (take (Z.to_nat (msglen hdr)) body) = msglen hdr) as Lt by (rewrite len_take; lia).
  destruct (Z.eqb_spec (msglen hdr) 0) as [E0 | E0]; cbn [negb orb].
  - cbn [mbind option_bind]. change (0 =? 0) with true. cbn [negb]. unfold write_header. destruct accept; cbn [andb].
    + do 2 eexists. split; [reflexivity |]. split; [done |]. split; cbn [pipe].
      * by rewrite map_app, Hp.
      * rewrite bodies_app, bodies_single, E0. change (Z.to_nat 0) with 0%nat. cbn [snd take]. rewrite app_nil_r. by destruct R; split.
      * apply Forall_app_2; [done |]. apply Forall_singleton. cbn. rewrite Lt. lia.
    + rewrite E0. change (0 <? 0) with false. do 2 eexists. split; [reflexivity |]. done.
  - unfold tcom_enqueue_msg. destruct (Z.eqb_spec (msglen hdr) 0) as [|_]; [lia |]. cbv zeta. rewrite (idle_size_ok q l Q).
    destruct (Z.ltb_spec (TCOM_QUEUE_BUF_SIZE - 1 - len (bodies l)) (msglen hdr)) as [Hfull | Hroom].
    { cbn [mbind option_bind]. destruct (Z.ltb_spec (msglen hdr) (TCOM_QUEUE_BUF_SIZE - len (bodies l))) as [|_]; [lia |].
      rewrite andb_false_r. do 2 eexists. split; [reflexivity |]. done. }
    destruct (Z.ltb_spec (msglen hdr) (TCOM_QUEUE_BUF_SIZE - len (bodies l))) as [_|]; [| lia]. rewrite andb_true_r.
    destruct (push_ok q (bodies l) body (msglen hdr) R) as (b & E & R'); [lia | lia |]. rewrite E. cbn [mbind option_bind tail head buf pipe].
    pose proof (len_nonneg (bodies l)). pose proof (rh_head _ _ R) as Hh.
    assert (0 <= tail q < TCOM_QUEUE_BUF_SIZE) as Htr by (rewrite (rh_tail _ _ R); cells).
    assert (u32 (tail q + msglen hdr) mod TCOM_QUEUE_BUF_SIZE = tcom_cell (head q) (len (bodies l) + msglen hdr)) as ->.
    { rewrite advance_cell by (rewrite ?size_val in *; lia). rewrite (rh_tail _ _ R). cells. }
    change (0 =? 0) with true. cbn [negb]. unfold write_header. destruct accept.
    + do 2 eexists. split; [reflexivity |]. split; [done |]. split; cbn [pipe].
      * by rewrite map_app, Hp.
      * rewrite bodies_app, bodies_single. by destruct R'; split.
      * apply Forall_app_2; [done |]. apply Forall_singleton. cbn. rewrite Lt. lia.
    + destruct (Z.ltb_spec 0 (msglen hdr)) as [_|]; [| lia]. do 2 eexists. split; [reflexivity |]. split; [done |]. split; cbn [pipe]; [done | | done].
      cbn [head tail buf]. rewrite retreat_cell by lia. destruct R as [Rb Rh Rt Rl Rc], R' as [Rb' _ _ _ Rc']. split; cbn [buf head tail] in *; try done.
      intros j Hj. rewrite Rc' by (rewrite len_app, Lt; lia). apply lookup_app_l. unfold len in *; lia.
Qed.

Lemma recv_ok q hdr b l dst : queue_rep q ((hdr, b) :: l) -> TCOM_MAX_MSG_LEN <= len dst ->
  exists d q', queue_recv q (Some dst) = Some (0, hdr, Some d, q') /\ len d = len dst /\ take (length b) d = b /\ queue_rep q' l.
Proof.
  intros Q Hd. pose proof Q as [Hp R Hl]. apply Forall_cons_1 in Hl as [[Hlen Hmax] Hl]. cbn [fst snd] in *.
  unfold queue_recv. rewrite Hp. cbn [map fst].
  destruct (Z.eqb_spec (msglen hdr) 0) as [E0 | E0].
  - exists dst, {| q with pipe := map fst l |}. split; [done |]. split; [done |].
    assert (b = []) as -> by (destruct b; [done | unfold len in *; cbn in *; lia]). split; [done |].
    split; [done | | done]. unfold bodies in *. cbn [map concat snd app] in R. by destruct R; split.
  - unfold tcom_dequeue_msg. destruct (Z.eqb_spec (msglen hdr) 0) as [|_]; [lia |]. cbv zeta. cbn [tail head].
    rewrite (used_size_ok q _ Q). change (bodies ((hdr, b) :: l)) with (b ++ bodies l) in *. rewrite len_app.
    pose proof (len_nonneg (bodies l)). pose proof (len_nonneg b). destruct (Z.ltb_spec (len b + len (bodies l)) (msglen hdr)) as [|_]; [lia |].
    assert (ring_holds {| q with pipe := map fst l |} (b ++ bodies l)) as R1 by (by destruct R; split).
    destruct (pull_ok _ b (bodies l) dst R1) as (d & E & Ld & Et & R2); [lia |]. rewrite <- Hlen, E. cbn [mbind option_bind].
    change (0 =? 0) with true. cbn [negb]. eexists d, _. split; [reflexivity |]. split; [done |]. split; [done |].
    pose proof (rh_head _ _ R) as Hh. pose proof (rh_len _ _ R) as Hsz. rewrite len_app in Hsz.
    split; cbn [pipe]; [done | | done]. cbn [head]. rewrite advance_cell by lia. by destruct R2; split.
Qed.

(** ** The module *)

(** The messages of the queues, by index. *)
Definition QUEUES : Type := Z -> list MSG.
Definition upd (qs : QUEUES) (i : Z) (l : list MSG) : QUEUES := fun j => if j =? i then l else qs j.

Lemma upd_same qs i l : upd qs i l i = l.
Proof. unfold upd. by rewrite Z.eqb_refl. Qed.

Definition dest (m : MSG) : Z := MID_TO_INDEX (receiver m.1).
Definition TCOM_INDEX : Z := 6.

Lemma count_val : MPU_APP_MID_COUNT = 20.
Proof. reflexivity. Qed.
Lemma tcom_index_range : 0 <= MID_TO_INDEX MPU_MID_TCOM < MPU_APP_MID_COUNT.
Proof. split; vm_compute; [discriminate | reflexivity]. Qed.

(** The tests of [tcom_send_msg]. *)
Definition valid_mid (mid : Z) : bool :=
  (Z.land mid CPUID_MASK =? 0) && (Z.land mid CPUID_MAIN_MID_MASK <=? MPU_MAX_MID) && negb (Z.land mid CPUID_MAIN_MID_MASK =? 0).
Definition valid_msg (hdr : TCOM_MSG_HEADER) (body : option (list Z)) : bool :=
  valid_mid (sender hdr) && valid_mid (receiver hdr) && ((msglen hdr =? 0) || negb (bool_decide (body = None))) &&
  (msglen hdr <=? TCOM_MAX_MSG_LEN).

Record tcom_rep (s : TCOM) (qs : QUEUES) : Prop := {
  tr_len : len (tcom_queue s) = MPU_APP_MID_COUNT;
  tr_buf : len (tcom_msgbuf s) = TCOM_MAX_MSG_LEN;
  tr_queue i : 0 <= i < MPU_APP_MID_COUNT -> exists q, mem_get (tcom_queue s) i = Some q /\ queue_rep q (qs i);
  tr_dest : Forall (fun m => valid_mid (receiver m.1) = true) (qs TCOM_INDEX)
}.

(** A queue is replaced. *)
Lemma queue_set s qs i q l : tcom_rep s qs -> 0 <= i < MPU_APP_MID_COUNT -> queue_rep q l ->
  (i = TCOM_INDEX -> Forall (fun m => valid_mid (receiver m.1) = true) l) ->
  exists k, mem_set (tcom_queue s) i q = Some k /\ tcom_rep {| s with tcom_queue := k |} (upd qs i l).
Proof.
  intros [Hl Hb Hq Hd] Hi Q Hdest. rewrite mem_set_ok by lia. eexists. split; [reflexivity |].
  split; cbn [tcom_queue tcom_msgbuf]; [by rewrite len_insert | done | |].
  - intros j Hj. unfold upd. destruct (Z.eqb_spec j i) as [-> | Hn].
    + exists q. split; [| done]. rewrite mem_get_lookup by lia. apply list_lookup_insert_eq. unfold len in Hl. lia.
    + destruct (Hq j Hj) as (q' & E & Q'). exists q'. split; [| done]. rewrite mem_get_lookup in * by lia.
      rewrite list_lookup_insert_ne by lia. done.
  - unfold upd. destruct (Z.eqb_spec TCOM_INDEX i) as [E | _]; [by apply Hdest | done].
Qed.

Lemma module_forward_ok accept hdr rcv body s qs : tcom_rep s qs -> 0 <= MID_TO_INDEX rcv < MPU_APP_MID_COUNT ->
  0 <= msglen hdr <= TCOM_MAX_MSG_LEN -> msglen hdr <= len body ->
  (MID_TO_INDEX rcv = TCOM_INDEX -> valid_mid (receiver hdr) = true) ->
  let i := MID_TO_INDEX rcv in
  exists ret s', tcom_forward accept hdr rcv body s = Some (ret, s') /\ (ret =? 0) = accept && fits (qs i) hdr /\
    tcom_rep s' (upd qs i (if accept && fits (qs i) hdr then qs i ++ [queued hdr body] else qs i)).
Proof.
  intros T Hi Hm Hb Hd i. destruct (tr_queue _ _ T i Hi) as (q & Eq & Q).
  destruct (forward_ok accept q (qs i) hdr body Q Hm Hb) as (ret & q' & E & Er & Q').
  edestruct (queue_set s qs i q') as (k & Ek & T'); [exact T | exact Hi | exact Q' | |].
  - intros Ei. pose proof (tr_dest _ _ T) as H. rewrite <- Ei in H. destruct (accept && fits (qs i) hdr); [| exact H].
    apply Forall_app_2; [exact H |]. apply Forall_singleton. by apply Hd.
  - exists ret, {| s with tcom_queue := k |}. split; [| done]. unfold tcom_forward. fold i. st_run. rewrite Eq. st_run.
    rewrite E. st_run. rewrite Ek. by st_run.
Qed.

Lemma module_recv_ok mid hdr b l dst s qs : tcom_rep s qs -> 0 <= MID_TO_INDEX mid < MPU_APP_MID_COUNT ->
  TCOM_MAX_MSG_LEN <= len dst -> qs (MID_TO_INDEX mid) = (hdr, b) :: l ->
  exists d s', tcom_recv_msg mid (Some dst) s = Some ((0, hdr, Some d), s') /\ len d = len dst /\ take (length b) d = b /\
    tcom_msgbuf s' = tcom_msgbuf s /\ tcom_rep s' (upd qs (MID_TO_INDEX mid) l).
Proof.
  intros T Hi Hd El. set (i := MID_TO_INDEX mid) in *. destruct (tr_queue _ _ T i Hi) as (q & Eq & Q). rewrite El in Q.
  destruct (recv_ok q hdr b l dst Q Hd) as (d & q' & E & Ld & Et & Q').
  edestruct (queue_set s qs i q' l) as (k & Ek & T'); [exact T | exact Hi | exact Q' | |].
  - intros Ei. pose proof (tr_dest _ _ T) as H. rewrite <- Ei, El in H. by apply Forall_cons_1 in H as [_ H].
  - exists d, {| s with tcom_queue := k |}. split; [| done]. unfold tcom_recv_msg. fold i. st_run. rewrite Eq. st_run.
    rewrite E. st_run. rewrite Ek. by st_run.
Qed.

Lemma send_checks accept hdr body : tcom_send_msg accept (Some hdr) body =
  if valid_msg hdr body then tcom_forward accept hdr MPU_MID_TCOM (default [] body) else mret TCOM_INVALID_PARAMETER.
Proof.
  unfold tcom_send_msg, valid_msg, valid_mid. rewrite !Z.leb_antisym.
  destruct (Z.land (sender hdr) CPUID_MASK =? 0), (Z.land (receiver hdr) CPUID_MASK =? 0),
    (MPU_MAX_MID <? Z.land (sender hdr) CPUID_MAIN_MID_MASK), (MPU_MAX_MID <? Z.land (receiver hdr) CPUID_MAIN_MID_MASK),
    (Z.land (sender hdr) CPUID_MAIN_MID_MASK =? 0), (Z.land (receiver hdr) CPUID_MAIN_MID_MASK =? 0),
    (msglen hdr =? 0), (bool_decide (body = None)), (TCOM_MAX_MSG_LEN <? msglen hdr); reflexivity.
Qed.

Lemma main_mid mid : valid_mid mid = true -> exists w, Z.land mid CPUID_MAIN_MID_MASK = 256 * w /\
  MID_TO_INDEX mid = w - 1 /\ 1 <= w <= 20.
Proof.
  unfold valid_mid. rewrite !andb_true_iff, negb_true_iff, Z.eqb_eq, Z.leb_le, Z.eqb_neq. intros [[Hc Hm] Hn].
  set (w := Z.land (Z.shiftr mid 8) 0xff).
  assert (Z.land mid CPUID_MAIN_MID_MASK = 256 * w) as Ew.
  { subst w. change 256 with (2 ^ 8). rewrite Z.mul_comm, <- Z.shiftl_mul_pow2 by lia. apply Z.bits_inj'. intros k Hk.
    rewrite Z.shiftl_spec by lia. rewrite !Z.land_spec. destruct (Z.ltb_spec k 8).
    - rewrite (Z.testbit_neg_r _ (k - 8)) by lia. cbn [andb].
      assert (Z.testbit CPUID_MAIN_MID_MASK k = false) as ->; [| apply andb_false_r].
      change CPUID_MAIN_MID_MASK with (Z.shiftl 0xff 8). rewrite Z.shiftl_spec by lia. apply Z.testbit_neg_r. lia.
    - rewrite Z.shiftr_spec by lia. f_equal; [f_equal; lia |].
      change CPUID_MAIN_MID_MASK with (Z.shiftl 0xff 8). by rewrite Z.shiftl_spec by lia. }
  assert (0 <= w) by (apply Z.land_nonneg; right; lia).
  exists w. split; [done |]. unfold MPU_MAX_MID in Hm. split; [| lia].
  unfold MID_TO_INDEX. f_equal. assert (Z.land mid MAIN_MID_MASK = Z.land mid CPUID_MAIN_MID_MASK) as ->.
  { change CPUID_MAIN_MID_MASK with (Z.lor CPUID_MASK MAIN_MID_MASK). by rewrite Z.land_lor_distr_r, Hc, Z.lor_0_l. }
  rewrite Ew, Z.shiftr_div_pow2 by lia. change (2 ^ 8) with 256. rewrite Z.mul_comm. by rewrite Z.div_mul.
Qed.

(** ** Runs *)

(** What threads do: send, the thread of the module wakes up, a module takes a message. *)
Inductive TCOM_OP :=
  | OpSend (accept : bool) (hdr : TCOM_MSG_HEADER) (body : option (list Z)) | OpThread (accept : bool)
  | OpRecv (mid : Z) (dst : list Z).

(** What they see of it. *)
Inductive TCOM_LOG := LogSent (m : MSG) | LogLost (hdr : TCOM_MSG_HEADER) | LogGot (i : Z) (m : MSG).

Definition run_op (op : TCOM_OP) : ST TCOM (list TCOM_LOG) :=
  match op with
  | OpSend accept hdr body =>
      ret ← tcom_send_msg accept (Some hdr) body;
      mret (if valid_msg hdr body && (ret =? 0) then [LogSent (queued hdr (default [] body))] else [])
  | OpThread accept =>
      r ← tcom_main_step accept;
      mret (match r with Some (hdr, ret) => if ret =? 0 then [] else [LogLost hdr] | None => [] end)
  | OpRecv mid dst =>
      s ← st_get;
      q ← st_lift (mem_get (tcom_queue s) (MID_TO_INDEX mid));
      match pipe q with
      | [] => mret []
      | _ =>
          '(ret, hdr, body) ← tcom_recv_msg mid (Some dst);
          mret (if ret =? 0 then [LogGot (MID_TO_INDEX mid) (queued hdr (default [] body))] else [])
      end
  end.

Fixpoint run_ops (l : list TCOM_OP) : ST TCOM (list TCOM_LOG) :=
  match l with [] => mret [] | op :: l => a ← run_op op; b ← run_ops l; mret (a ++ b) end.

(** The body of a message has the announced length; a module has room for a message. *)
Definition op_ok (op : TCOM_OP) : Prop :=
  match op with
  | OpSend _ hdr body => 0 <= msglen hdr /\ (valid_msg hdr body = true -> msglen hdr <= len (default [] body))
  | OpThread _ => True
  | OpRecv mid dst => valid_mid mid = true /\ MID_TO_INDEX mid <> TCOM_INDEX /\ TCOM_MAX_MSG_LEN <= len dst
  end.

Definition sent (i : Z) (log : list TCOM_LOG) : list MSG :=
  concat (map (fun e => match e with LogSent m => if dest m =? i then [m] else [] | _ => [] end) log).
Definition got (i : Z) (log : list TCOM_LOG) : list MSG :=
  concat (map (fun e => match e with LogGot j m => if j =? i then [m] else [] | _ => [] end) log).
Definition lost (i : Z) (log : list TCOM_LOG) : list TCOM_MSG_HEADER :=
  concat (map (fun e => match e with LogLost h => if MID_TO_INDEX (receiver h) =? i then [h] else [] | _ => [] end) log).

(** The messages on their way to a module. *)
Definition pending (qs : QUEUES) (i : Z) : list MSG := qs i ++ List.filter (fun m => dest m =? i) (qs TCOM_INDEX).

Record delivered (log : list TCOM_LOG) (qs : QUEUES) : Prop := {
  de_sub i : i <> TCOM_INDEX -> sublist (got i log ++ pending qs i) (sent i log);
  de_all i : i <> TCOM_INDEX -> lost i log = [] -> got i log ++ pending qs i = sent i log
}.

Lemma sent_app i l k : sent i (l ++ k) = sent i l ++ sent i k.
Proof. unfold sent. by rewrite map_app, concat_app. Qed.
Lemma got_app i l k : got i (l ++ k) = got i l ++ got i k.
Proof. unfold got. by rewrite map_app, concat_app. Qed.
Lemma lost_app i l k : lost i (l ++ k) = lost i l ++ lost i k.
Proof. unfold lost. by rewrite map_app, concat_app. Qed.

(** The messages of the log and of the queues change alike. *)
Lemma delivered_step log qs ev qs' :
  delivered log qs ->
  (forall i, i <> TCOM_INDEX -> sublist (got i ev ++ pending qs' i) (pending qs i ++ sent i ev) /\
     (lost i ev = [] -> got i ev ++ pending qs' i = pending qs i ++ sent i ev)) ->
  delivered (log ++ ev) qs'.
Proof.
  intros [S A] H. split; intros i Hi; destruct (H i Hi) as [H1 H2]; rewrite got_app, sent_app, <- app_assoc.
  - transitivity (got i log ++ pending qs i ++ sent i ev); [by apply sublist_app |].
    rewrite app_assoc. by apply sublist_app; [apply S |].
  - rewrite lost_app. intros [L1 L2]%app_eq_nil. rewrite (H2 L2), app_assoc. by rewrite A.
Qed.

Lemma pending_other qs i j l : j <> TCOM_INDEX -> i <> j -> pending (upd qs j l) i = pending qs i.
Proof.
  intros Hj Hi. unfold pending, upd. destruct (Z.eqb_spec i j) as [|_]; [done |].
  by destruct (Z.eqb_spec TCOM_INDEX j) as [E|_]; [done |].
Qed.

Lemma tcom_dest m : MPU_MID_TCOM = Z.land (receiver m.1) CPUID_MAIN_MID_MASK -> dest m = TCOM_INDEX.
Proof.
  intros E. unfold dest, MID_TO_INDEX. change MAIN_MID_MASK with (Z.land CPUID_MAIN_MID_MASK MAIN_MID_MASK).
  by rewrite Z.land_assoc, <- E.
Qed.

(** The thread moves the first message to the queue of its receiver, or loses it. *)
Lemma pending_moved qs hdr b l j (ok : bool) i : let m := (hdr, b) in
  qs TCOM_INDEX = m :: l -> j = dest m -> j <> TCOM_INDEX -> i <> TCOM_INDEX ->
  let qs' := upd (upd qs TCOM_INDEX l) j (if ok then qs j ++ [m] else qs j) in
  let ev := if ok then [] else [LogLost hdr] in
  sublist (got i ev ++ pending qs' i) (pending qs i ++ sent i ev) /\
  (lost i ev = [] -> got i ev ++ pending qs' i = pending qs i ++ sent i ev).
Proof.
  intros m El Ej Hj Hi qs' ev.
  assert (got i ev = [] /\ sent i ev = []) as [-> ->] by (subst ev; by destruct ok). rewrite app_nil_l, app_nil_r.
  assert (qs' TCOM_INDEX = l) as E6.
  { subst qs'. unfold upd. destruct (Z.eqb_spec TCOM_INDEX j) as [E|_]; [by rewrite E in Hj |]. done. }
  unfold pending. rewrite E6, El. cbn [List.filter]. rewrite <- Ej. destruct (Z.eqb_spec j i) as [<- | Hn].
  - subst qs'. rewrite upd_same. subst ev. destruct ok.
    + rewrite <- app_assoc. by split.
    + split; [by apply sublist_app; [| apply sublist_cons] |]. unfold lost. cbn. rewrite app_nil_r.
      change (MID_TO_INDEX (receiver hdr)) with (dest m). by rewrite <- Ej, Z.eqb_refl.
  - assert (qs' i = qs i) as ->; [| by split]. subst qs'. unfold upd. destruct (Z.eqb_spec i j) as [|_]; [by subst |].
    by destruct (Z.eqb_spec i TCOM_INDEX).
Qed.

Lemma bodies_sublist l k : sublist l k -> len (bodies l) <= len (bodies k).
Proof.
  induction 1 as [|m l k _ IH|m l k _ IH]; [done | |]; change (bodies (m :: k)) with (m.2 ++ bodies k); [change (bodies (m :: l)) with (m.2 ++ bodies l) |];
    rewrite !len_app; pose proof (len_nonneg m.2); lia.
Qed.

(** The queue of a module is not longer than what was sent to it. *)
Lemma pending_fits log qs hdr b l : delivered log qs -> qs TCOM_INDEX = (hdr, b) :: l -> len b = msglen hdr ->
  let j := dest (hdr, b) in j <> TCOM_INDEX -> len (bodies (sent j log)) < TCOM_QUEUE_BUF_SIZE -> fits (qs j) hdr = true.
Proof.
  intros [S _] El Hlen j Hj Hs. pose proof (bodies_sublist _ _ (S j Hj)) as Hb. unfold pending in Hb. rewrite El in Hb.
  cbn [List.filter] in Hb. fold j in Hb. rewrite Z.eqb_refl, !bodies_app in Hb.
  lazymatch type of Hb with context [bodies (?m :: ?k)] => change (bodies (m :: k)) with (b ++ bodies k) in Hb end.
  rewrite !len_app in Hb. unfold fits. apply orb_true_intro. right. apply Z.ltb_lt.
  pose proof (len_nonneg (bodies (got j log))). lazymatch type of Hb with context [len (bodies (List.filter ?f ?x))] => pose proof (len_nonneg (bodies (List.filter f x))) end. lia.
Qed.

Lemma op_delivers op log s qs : op_ok op -> tcom_rep s qs -> delivered log qs ->
  exists ev s' qs', run_op op s = Some (ev, s') /\ tcom_rep s' qs' /\ delivered (log ++ ev) qs' /\
    (op <> OpThread false -> forall i, i <> TCOM_INDEX -> len (bodies (sent i log)) < TCOM_QUEUE_BUF_SIZE -> lost i ev = []).
Proof.
  intros Hop T D.
  assert (delivered (log ++ []) qs) as Stay by (by rewrite app_nil_r).
  destruct op as [accept hdr body | accept | mid dst]; cbn [run_op op_ok] in *.
  - destruct Hop as [Hl Hb]. rewrite send_checks. destruct (valid_msg hdr body) eqn:V; [| by exists [], s, qs].
    specialize (Hb eq_refl). assert (valid_mid (receiver hdr) = true /\ msglen hdr <= TCOM_MAX_MSG_LEN) as [Hd Hm].
    { unfold valid_msg in V. rewrite !andb_true_iff, Z.leb_le in V. by destruct V as [[[_ V] _] ?]. }
    destruct (module_forward_ok accept hdr MPU_MID_TCOM (default [] body) s qs T) as (ret & s' & E & Er & T');
      [exact tcom_index_range | lia | done | done |].
    exists (if ret =? 0 then [LogSent (queued hdr (default [] body))] else []), s'. change (MID_TO_INDEX MPU_MID_TCOM) with TCOM_INDEX in *.
    eexists. split; [by rewrite (st_bind_run _ _ _ _ _ E) |]. split; [exact T' |]. rewrite Er.
    split; [| by destruct (_ && _)]. destruct (accept && fits (qs TCOM_INDEX) hdr).
    + apply (delivered_step _ _ _ _ D). intros i Hi.
      assert (pending (upd qs TCOM_INDEX (qs TCOM_INDEX ++ [queued hdr (default [] body)])) i =
        pending qs i ++ sent i [LogSent (queued hdr (default [] body))]) as ->.
      { unfold pending. rewrite upd_same. unfold upd. destruct (Z.eqb_spec i TCOM_INDEX) as [|_]; [done |].
        rewrite List.filter_app, <- app_assoc. cbn. rewrite app_nil_r. by destruct (_ =? i). }
      by split.
    + apply (delivered_step _ _ _ _ D). intros i Hi. unfold pending. rewrite upd_same. unfold upd.
      destruct (Z.eqb_spec i TCOM_INDEX) as [|_]; [done |]. cbn. by rewrite app_nil_r.
  - unfold tcom_main_step. change (MID_TO_INDEX MPU_MID_TCOM) with TCOM_INDEX. st_run.
    destruct (tr_queue _ _ T TCOM_INDEX) as (q & Eq & Q); [by rewrite count_val |]. rewrite Eq. st_run.
    pose proof (qr_pipe _ _ Q) as Hp. destruct (qs TCOM_INDEX) as [|[hdr b] l] eqn:El; rewrite Hp; cbn [map fst].
    { st_run. by exists [], s, qs. }
    pose proof (qr_lens _ _ Q) as Hl. apply Forall_cons_1 in Hl as [[Hlen Hmax] _]. cbn [fst snd] in Hlen, Hmax.
    pose proof (tr_dest _ _ T) as Hd. rewrite El in Hd. apply Forall_cons_1 in Hd as [Hd _].
    destruct (module_recv_ok MPU_MID_TCOM hdr b l (tcom_msgbuf s) s qs T tcom_index_range) as (d & s1 & E1 & Ld & Et & Eb & T1);
      [rewrite (tr_buf _ _ T); done | exact El |]. change (MID_TO_INDEX MPU_MID_TCOM) with TCOM_INDEX in T1.
    set (s2 := {| s1 with tcom_msgbuf := d |}).
    assert (tcom_rep s2 (upd qs TCOM_INDEX l)) as T2 
      by (split; [apply T1 | cbn; by rewrite Ld, (tr_buf _ _ T) | apply T1 | apply T1]).
    assert (queued hdr d = (hdr, b)) as Eqd.
    { unfold queued. f_equal. rewrite <- Hlen. replace (Z.to_nat (len b)) with (length b) by (unfold len; lia). done. }
    destruct (Z.eqb_spec MPU_MID_TCOM (Z.land (receiver hdr) CPUID_MAIN_MID_MASK)) as [Ercv | Ercv].
    + exists [], s2, (upd qs TCOM_INDEX l). split; [| split; [exact T2 | split; [| done]]].
      * unfold tcom_proc_msg. st_run. rewrite (st_bind_run _ _ _ _ _ E1). st_run. change (0 =? 0) with true. cbn [negb default].
        assert ((MPU_MID_TCOM =? Z.land (receiver hdr) CPUID_MAIN_MID_MASK) = true) as -> by (by apply Z.eqb_eq). by st_run.
      * apply (delivered_step _ _ _ _ D). intros i Hi. cbn. rewrite app_nil_r. unfold pending. rewrite upd_same, El. unfold upd.
        destruct (Z.eqb_spec i TCOM_INDEX) as [|_]; [done |]. cbn [List.filter]. rewrite (tcom_dest (hdr, b) Ercv).
        by destruct (Z.eqb_spec TCOM_INDEX i); [by subst i |].
    + destruct (main_mid _ Hd) as (w & Ew & Ei & Hw). cbn [fst] in Ew, Ei.
      destruct (module_forward_ok accept hdr (receiver hdr) d s2 (upd qs TCOM_INDEX l) T2) as (ret & s3 & E3 & Er & T3);
        [rewrite Ei, count_val; lia | pose proof (len_nonneg b); lia | rewrite Ld, (tr_buf _ _ T); lia | done |].
      set (j := MID_TO_INDEX (receiver hdr)) in *. cbv zeta in Er, T3.
      assert (j <> TCOM_INDEX) as Hj by (rewrite Ei; unfold TCOM_INDEX; intros Hx; apply Ercv; rewrite Ew; unfold MPU_MID_TCOM; lia).
      assert (upd qs TCOM_INDEX l j = qs j) as Eu by (unfold upd; by destruct (Z.eqb_spec j TCOM_INDEX)).
      rewrite Eu, Eqd in *. exists (if ret =? 0 then [] else [LogLost hdr]), s3. eexists. split; [| split; [exact T3 | split]].
      * unfold tcom_proc_msg. st_run. rewrite (st_bind_run _ _ _ _ _ E1). st_run.
        destruct (Z.eqb_spec MPU_MID_TCOM (Z.land (receiver hdr) CPUID_MAIN_MID_MASK)) as [|_]; [done |]. cbn [negb].
        by rewrite (st_bind_run _ _ _ _ _ E3).
      * apply (delivered_step _ _ _ _ D). intros i Hi. rewrite Er. by apply pending_moved.
      * intros Ha i Hi Hs. destruct accept; [| done]. rewrite Er. destruct (Z.eqb_spec j i) as [<- | Hn].
        -- by assert (fits (qs j) hdr = true) as -> by exact (pending_fits log qs hdr b l D El Hlen Hj Hs).
        -- destruct (true && fits (qs j) hdr); [done |]. unfold lost. cbn. fold j. by destruct (Z.eqb_spec j i).
  - destruct Hop as (Hv & Hi & Hdst). destruct (main_mid _ Hv) as (w & _ & Ei & Hw). set (i := MID_TO_INDEX mid) in *.
    assert (0 <= i < MPU_APP_MID_COUNT) as Hr by (rewrite Ei, count_val; lia).
    destruct (tr_queue _ _ T i Hr) as (q & Eq & Q). st_run. rewrite Eq. st_run.
    pose proof (qr_pipe _ _ Q) as Hp. destruct (qs i) as [|[hdr b] l] eqn:El; rewrite Hp; cbn [map fst]; [by exists [], s, qs |].
    pose proof (qr_lens _ _ Q) as Hl. apply Forall_cons_1 in Hl as [[Hlen Hmax] _]. cbn [fst snd] in Hlen, Hmax.
    destruct (module_recv_ok mid hdr b l dst s qs T Hr Hdst El) as (d & s1 & E1 & Ld & Et & _ & T1). fold i in T1.
    exists [LogGot i (hdr, b)], s1, (upd qs i l). split; [| split; [exact T1 | split; [| done]]].
    + rewrite (st_bind_run _ _ _ _ _ E1). st_run. change (0 =? 0) with true. cbn [default]. do 4 f_equal. unfold queued. f_equal.
      rewrite <- Hlen. by replace (Z.to_nat (len b)) with (length b) by (unfold len; lia).
    + apply (delivered_step _ _ _ _ D). intros k Hk. cbn. rewrite !app_nil_r. destruct (Z.eqb_spec i k) as [<- | Hn].
      * unfold pending. rewrite upd_same, El. unfold upd. by destruct (Z.eqb_spec TCOM_INDEX i).
      * by rewrite pending_other.
Qed.

Lemma runs_deliver ops : forall log s qs, Forall op_ok ops -> tcom_rep s qs -> delivered log qs ->
  exists log' s' qs', run_ops ops s = Some (log', s') /\ tcom_rep s' qs' /\ delivered (log ++ log') qs' /\
    (~ In (OpThread false) ops -> forall i, i <> TCOM_INDEX -> len (bodies (sent i (log ++ log'))) < TCOM_QUEUE_BUF_SIZE ->
       lost i log' = []).
Proof.
  induction ops as [|op ops IH]; intros log s qs Ho T D; cbn [run_ops].
  - exists [], s, qs. rewrite app_nil_r. by split.
  - apply Forall_cons_1 in Ho as [Hop Ho].
    destruct (op_delivers op log s qs Hop T D) as (ev & s1 & qs1 & E1 & T1 & D1 & L1).
    destruct (IH (log ++ ev) s1 qs1 Ho T1 D1) as (log' & s' & qs' & E' & T' & D' & L').
    exists (ev ++ log'), s', qs'. rewrite app_assoc. split; [| split; [done | split; [done |]]].
    + rewrite (st_bind_run _ _ _ _ _ E1), (st_bind_run _ _ _ _ _ E'). done.
    + intros Hn i Hi Hs. rewrite lost_app, L'; [| by intros Hx; apply Hn; right | done | done].
      rewrite app_nil_r. apply L1; [intros ->; apply Hn; by left | done |].
      rewrite <- app_assoc, sent_app, bodies_app, len_app in Hs. pose proof (len_nonneg (bodies (sent i (ev ++ log')))). lia.
Qed.

Lemma tcom_init_rep : tcom_rep tcom_init (fun _ => []).
Proof.
  split; cbn [tcom_init tcom_queue tcom_msgbuf].
  - rewrite len_replicate; [done | by rewrite count_val].
  - by rewrite len_replicate.
  - intros i Hi. exists {| head := 0; tail := 0; buf := replicate (Z.to_nat TCOM_QUEUE_BUF_SIZE) 0; pipe := [] |}. split.
    + rewrite mem_get_lookup by lia. apply lookup_replicate_2. lia.
    + split; [done | | constructor]. split; cbn [buf head tail]; [by rewrite len_replicate | by rewrite size_val | done | by rewrite size_val |].
      intros j Hj. unfold bodies, len in Hj. cbn in Hj. lia.
  - constructor.
Qed.

(** ** Theorems *)

(** C12: Whatever the threads send and take, in any order, and whatever the pipes
    accept, each module takes messages in the order in which they were sent to it,
    with the bodies that were sent; what it has not taken yet is in the queues; none is
    missing if the thread of the module had room for all, which is so while the pipes
    accept and less than the size of the ring was sent to the module. *)
Theorem tcom_delivers ops : Forall op_ok ops -> exists log s' qs,
  run_ops ops tcom_init = Some (log, s') /\
  (forall i, 0 <= i < MPU_APP_MID_COUNT -> exists q, mem_get (tcom_queue s') i = Some q /\ queue_rep q (qs i)) /\
  forall i, i <> TCOM_INDEX ->
    sublist (got i log ++ pending qs i) (sent i log) /\
    (lost i log = [] -> got i log ++ pending qs i = sent i log) /\
    (~ In (OpThread false) ops -> len (bodies (sent i log)) < TCOM_QUEUE_BUF_SIZE -> lost i log = []).
Proof.
  intros Ho. destruct (runs_deliver ops [] tcom_init (fun _ => []) Ho tcom_init_rep) as (log & s' & qs & E & T & [S A] & L).
  { by split. }
  exists log, s', qs. split; [exact E |]. split; [exact (tr_queue _ _ T) |]. intros i Hi.
  split; [by apply S |]. split; [by apply A |]. intros Hn Hs. by apply L.
Qed.

(** A rejected message is reported as sent: [TCOM_INVALID_PARAMETER] is [0]. *)
Lemma tcom_invalid_is_success accept hdr body s :
  valid_msg hdr body = false -> tcom_send_msg accept (Some hdr) body s = Some (0, s).
Proof. intros V. by rewrite send_checks, V. Qed.

(** Two messages for the configuration and one for the CAN module; the thread hands on
    two of them. *)
Definition demo_msg (rcv id : Z) (body : list Z) : TCOM_OP :=
  OpSend true {| sender := 0x0800; receiver := rcv; msgid := id; msglen := len body |} (Some body).
Definition demo_room : list Z := replicate (Z.to_nat TCOM_MAX_MSG_LEN) 0.

Lemma tcom_delivers_witness : exists log s',
  run_ops [demo_msg 0x0200 1 [1; 2; 3]; demo_msg 0x0a00 2 [4]; OpThread true; demo_msg 0x0200 3 []; OpThread true;
           OpRecv 0x0200 demo_room; OpRecv 0x0200 demo_room] tcom_init = Some (log, s') /\
  got 1 log = [({| sender := 0x0800; receiver := 0x0200; msgid := 1; msglen := 3 |}, [1; 2; 3])] /\
  sublist (got 1 log) (sent 1 log).
Proof.
  set (ops := [demo_msg 0x0200 1 [1; 2; 3]; demo_msg 0x0a00 2 [4]; OpThread true; demo_msg 0x0200 3 []; OpThread true;
           OpRecv 0x0200 demo_room; OpRecv 0x0200 demo_room]).
  assert (Forall op_ok ops) as Ho.
  { repeat apply List.Forall_cons; try apply List.Forall_nil; try exact Logic.I;
      (split; [vm_compute; (discriminate || reflexivity) | try (split; vm_compute; discriminate); intros _; vm_compute; discriminate]). }
  destruct (tcom_delivers ops Ho) as (log & s' & qs & E & _ & H). exists log, s'. split; [exact E |].
  assert ((fun r => got 1 r.1) <$> run_ops ops tcom_init =
    Some [({| sender := 0x0800; receiver := 0x0200; msgid := 1; msglen := 3 |}, [1; 2; 3])]) as E0 by (vm_compute; reflexivity).
  rewrite E in E0. apply (inj Some) in E0. split; [exact E0 |].
  destruct (H 1 ltac:(discriminate)) as [S _]. transitivity (got 1 log ++ pending qs 1); [| exact S].
  by apply sublist_inserts_r.
Defined.
