(* ===== verification/Framing.v ===== *)
(** * Serial framing (src/mid/msg/msg_parse.c, src/include/msg_parse.h)

    Messages between the two processors travel as
    [0x7E, escape (payload ++ [checksum]), 0x7E].  The encoder writes into a
    caller supplied block, segment by segment; the decoder unescapes in place in
    the receive block and hands each payload to a callback.  Both are translated
    on memory blocks (an access outside a block is [None]); the specification is
    a pure escape function and a byte-wise scanner. *)

From S2P Require Import Prelude.

Definition DCCP_PKG_MARKER : Z := 0x7E.
Definition DCCP_PKG_ESC : Z := 0x7D.
Definition DCCP_PKG_MARKER_SIZE : Z := 1.
Definition DCCP_PKG_CS_SIZE : Z := 1.

Inductive MSG_SEG := FIRST_SEG | MIDDLE_SEG | LAST_SEG.

#[export] Instance MSG_SEG_eq_dec : EqDecision MSG_SEG.
Proof. solve_decision. Defined.

(** ** Encoder *)

Definition xor_bytes (cs : Z) (l : list Z) : Z := fold_left Z.lxor l cs.

(** [buf] is the block from the given pointer on; a null pointer is [None]. *)
Definition msg_checksum (buf : option (list Z)) (n cs : Z) : option Z :=
  match buf with
  | None => Some 0
  | Some b => if n <=? 0 then Some 0 else l ← mem_read b 0 n; Some (xor_bytes cs l)
  end.

(** The loop of [msg_convert]: [dst] is the block, [base] the offset of the
    [dst] pointer in it.  Returns [i], [j], [ret] and the block. *)
Fixpoint msg_convert_loop (n : nat) (src dst : list Z)
    (base i j src_len dst_len marker esc : Z) : option (Z * Z * Z * list Z) :=
  match n with
  | O => Some (i, j, 0, dst)
  | S n =>
      if (i <? src_len) && (j <? dst_len) then
        b ← mem_get src i;
        if b =? marker then
          if j + 1 <? dst_len then
            d1 ← mem_set dst (base + j) esc;
            d2 ← mem_set d1 (base + j + 1) 0x02;
            msg_convert_loop n src d2 base (i + 1) (j + 2) src_len dst_len marker esc
          else Some (i, j, -1, dst)
        else if b =? esc then
          if j + 1 <? dst_len then
            d1 ← mem_set dst (base + j) esc;
            d2 ← mem_set d1 (base + j + 1) 0x01;
            msg_convert_loop n src d2 base (i + 1) (j + 2) src_len dst_len marker esc
          else Some (i, j, -1, dst)
        else
          d1 ← mem_set dst (base + j) b;
          msg_convert_loop n src d1 base (i + 1) (j + 1) src_len dst_len marker esc
      else Some (i, j, 0, dst)
  end.

Definition msg_convert (src : option (list Z)) (dst : list Z)
    (base src_len dst_len marker esc : Z) : option (Z * list Z) :=
  match src with
  | None => Some (-1, dst)
  | Some s =>
      '(i, j, ret, d) ← msg_convert_loop (Z.to_nat src_len) s dst base 0 0 src_len dst_len marker esc;
      let ret := if 0 <=? ret then j else ret in
      let ret := if negb (i =? src_len) then -1 else ret in
      Some (ret, d)
  end.

(** [if (ilen > 0 && NULL != imsg) { ... }] of [msg_encode]: returns [data_len]
    (-1 on failure), the output block and [*base_cs]. *)
Definition msg_encode_body (imsg : option (list Z)) (ilen : Z) (omsg : list Z)
    (obase offset olen base_cs : Z) : option (Z * list Z * Z) :=
  match imsg with
  | Some m =>
      if 0 <? ilen then
        '(r, o) ← msg_convert imsg omsg (obase + offset) (s32 ilen)
                    (s32 (olen - offset)) DCCP_PKG_MARKER DCCP_PKG_ESC;
        if r =? -1 then Some (-1, o, base_cs)
        else cs ← msg_checksum imsg (s32 ilen) base_cs; Some (r, o, cs)
      else Some (0, omsg, base_cs)
  | None => Some (0, omsg, base_cs)
  end.

(** [if (LAST_SEG == flag) { ... }] of [msg_encode]: checksum and end marker. *)
Definition msg_encode_trailer (omsg : list Z) (obase olen data_len base_cs : Z)
    : option (Z * list Z) :=
  '(ret, omsg) ← msg_convert (Some [base_cs]) omsg (obase + data_len) DCCP_PKG_CS_SIZE
                   (s32 (u32 (olen - data_len - DCCP_PKG_MARKER_SIZE)))
                   DCCP_PKG_MARKER DCCP_PKG_ESC;
  if ret =? -1 then Some (-1, omsg) else
  let data_len := data_len + ret in
  o ← mem_set omsg (obase + data_len) DCCP_PKG_MARKER;
  Some (data_len + 1, o).

(** Returns the value of the call, the output block and [*base_cs]; [obase] is
    the offset of the [omsg] pointer in the block. *)
Definition msg_encode (imsg : option (list Z)) (ilen : Z) (omsg : list Z)
    (obase olen : Z) (flag : MSG_SEG) (base_cs : Z) : option (Z * list Z * Z) :=
  '(base_cs, offset, omsg) ←
    (if decide (flag = FIRST_SEG)
     then o ← mem_set omsg obase DCCP_PKG_MARKER; Some (0, DCCP_PKG_MARKER_SIZE, o)
     else Some (base_cs, 0, omsg));
  '(data_len, omsg, base_cs) ← msg_encode_body imsg ilen omsg obase offset olen base_cs;
  if data_len =? -1 then Some (-1, omsg, base_cs) else
  let data_len := data_len + offset in
  if decide (flag = LAST_SEG) then
    '(r, omsg) ← msg_encode_trailer omsg obase olen data_len base_cs;
    Some (r, omsg, base_cs)
  else Some (data_len, omsg, base_cs).

(** ** Decoder *)

(** [buf] is [data + base]; [i] and [j] are the loop variables. *)
Fixpoint msg_reverse_loop (n : nat) (data : list Z) (base i j len marker esc : Z)
    : option (list Z * Z) :=
  match n with
  | O => Some (data, j)
  | S n =>
      if i <? len then
        b ← mem_get data (base + i);
        if negb (b =? esc) then
          d ← mem_set data (base + j) b;
          msg_reverse_loop n d base (i + 1) (j + 1) len marker esc
        else
          c ← mem_get data (base + (i + 1));
          if c =? 0x01 then
            d ← mem_set data (base + j) esc;
            msg_reverse_loop n d base (i + 2) (j + 1) len marker esc
          else if c =? 0x02 then
            d ← mem_set data (base + j) marker;
            msg_reverse_loop n d base (i + 2) (j + 1) len marker esc
          else Some (data, -1)
      else Some (data, j)
  end.

Definition msg_reverse (data : list Z) (base len marker esc : Z) : option (list Z * Z) :=
  if len <=? 0 then Some (data, -1)
  else msg_reverse_loop (Z.to_nat len) data base 0 0 len marker esc.

(** Returns the value of the call, the block and [*len]. *)
Definition msg_check (data : list Z) (base len : Z) : option (Z * list Z * Z) :=
  '(data, ilen) ← msg_reverse data base len DCCP_PKG_MARKER DCCP_PKG_ESC;
  if ilen <? DCCP_PKG_CS_SIZE then Some (-1, data, ilen)
  else
    cs ← msg_checksum (Some (drop (Z.to_nat base) data)) (ilen - DCCP_PKG_CS_SIZE) 0;
    b ← mem_get data (base + (ilen - DCCP_PKG_CS_SIZE));
    if negb (cs =? b) then Some (-1, data, ilen) else Some (0, data, ilen).

Fixpoint msg_find_dccp_loop (n : nat) (buf : list Z) (off i : Z) : option Z :=
  match n with
  | O => Some (-1)
  | S n =>
      b ← mem_get buf (off + i);
      if b =? DCCP_PKG_MARKER then Some i else msg_find_dccp_loop n buf off (i + 1)
  end.

(** [msg_find_dccp(buf + off, len)]. *)
Definition msg_find_dccp (buf : list Z) (off len : Z) : option Z :=
  msg_find_dccp_loop (Z.to_nat len) buf off 0.

Record MSG_RX := { rx_used : Z; rx_size : Z; rx_data : list Z }.

Definition msg_init_rx (buf : list Z) (size : Z) : option MSG_RX :=
  b ← mem_write buf 0 (replicate (Z.to_nat size) 0);
  Some {| rx_used := 0; rx_size := size; rx_data := b |}.

(** The [while] loop of [msg_decodex]; [out] collects the payloads passed to
    [msg_proc], oldest first. *)
Fixpoint msg_decodex_loop (n : nat) (used r_pos start_pos : Z) (data : list Z)
    (out : list (list Z)) : option (Z * Z * list Z * list (list Z)) :=
  match n with
  | O => Some (r_pos, start_pos, data, out)
  | S n =>
      if r_pos <? used then
        ret ← msg_find_dccp data r_pos (used - r_pos);
        if ret <? 0 then msg_decodex_loop n used used start_pos data out
        else if start_pos =? -1 then
          msg_decodex_loop n used (r_pos + ret + 1) (r_pos + ret) data out
        else
          let end_pos := r_pos + ret in
          let r_pos := end_pos + 1 in
          let len := end_pos - start_pos - DCCP_PKG_CS_SIZE in
          if len <=? 0 then msg_decodex_loop n used r_pos end_pos data out
          else
            '(chk, data, len) ← msg_check data (start_pos + DCCP_PKG_MARKER_SIZE) len;
            if negb (chk =? 0) then msg_decodex_loop n used r_pos end_pos data out
            else
              p ← mem_read data (start_pos + DCCP_PKG_MARKER_SIZE) (len - DCCP_PKG_CS_SIZE);
              msg_decodex_loop n used r_pos (-1) data (out ++ [p])
      else Some (r_pos, start_pos, data, out)
  end.

(** [for (i = 0; i < len; i++) data[i] = data[i + start_pos]]. *)
Fixpoint shift_loop (n : nat) (data : list Z) (i start_pos : Z) : option (list Z) :=
  match n with
  | O => Some data
  | S n => b ← mem_get data (i + start_pos); d ← mem_set data i b; shift_loop n d (i + 1) start_pos
  end.

Definition msg_decodex (rx : MSG_RX) : option (MSG_RX * list (list Z)) :=
  '(r_pos, start_pos, data, out) ←
    msg_decodex_loop (Z.to_nat (rx_used rx)) (rx_used rx) 0 (-1) (rx_data rx) [];
  let rx := {| rx with rx_data := data |} in
  if start_pos =? -1 then Some ({| rx with rx_used := 0 |}, out)
  else if rx_size rx - 16 <=? r_pos - start_pos then Some ({| rx with rx_used := 0 |}, out)
  else
    let len := rx_used rx - start_pos in
    d ← (if negb (start_pos =? 0) then shift_loop (Z.to_nat len) data 0 start_pos
         else Some data);
    Some ({| rx with rx_used := len; rx_data := d |}, out).

(** The [while] loop of [msg_decode]; the function keeps [start_pos] in a static
    variable. *)
Fixpoint msg_decode_loop (n : nat) (r_pos w_pos start_pos : Z) (msg : list Z)
    (out : list (list Z)) : option (Z * Z * list Z * list (list Z)) :=
  match n with
  | O => Some (r_pos, start_pos, msg, out)
  | S n =>
      if r_pos <? w_pos then
        ret ← msg_find_dccp msg r_pos (w_pos - r_pos);
        if ret <? 0 then msg_decode_loop n w_pos w_pos start_pos msg out
        else if start_pos =? -1 then
          msg_decode_loop n (r_pos + ret + 1) w_pos (r_pos + ret) msg out
        else
          let end_pos := r_pos + ret in
          let len := end_pos - start_pos - 1 in
          '(chk, msg, len) ← msg_check msg (start_pos + 1) len;
          if chk =? 0 then
            p ← mem_read msg (start_pos + 1) (len - 1);
            msg_decode_loop n (end_pos + 1) w_pos (-1) msg (out ++ [p])
          else msg_decode_loop n (end_pos + 1) w_pos end_pos msg out
      else Some (r_pos, start_pos, msg, out)
  end.

(** [sizeof(msg)] is the size of a pointer, on the 32-bit target. *)
Definition sizeof_ptr : Z := 4.

(** The receiver of the scom thread: [r_pos] and [w_pos] of [scom_main], the
    static [start_pos] of [msg_decode], and [scom_msgbuf]. *)
Record SCOM_RX := { sr_r : Z; sr_w : Z; sr_start : Z; sr_buf : list Z }.

Definition msg_decode (s : SCOM_RX) : option (SCOM_RX * list (list Z)) :=
  '(r_pos, start_pos, msg, out) ←
    msg_decode_loop (Z.to_nat (sr_w s - sr_r s)) (sr_r s) (sr_w s) (sr_start s) (sr_buf s) [];
  if start_pos =? -1 then
    Some ({| sr_r := 0; sr_w := 0; sr_start := -1; sr_buf := msg |}, out)
  else if (u32 (sizeof_ptr - 16) <=? u32 (r_pos - start_pos)) || (r_pos <=? start_pos) then
    Some ({| sr_r := 0; sr_w := 0; sr_start := -1; sr_buf := msg |}, out)
  else
    let len := sr_w s - start_pos in
    msg ← memcpy msg 0 msg start_pos len;
    Some ({| sr_r := len; sr_w := len; sr_start := 0; sr_buf := msg |}, out).

Definition SCOM_MSGBUF : Z := 2 * (2 * 1024).

Definition scom_rx_init : SCOM_RX :=
  {| sr_r := 0; sr_w := 0; sr_start := -1; sr_buf := replicate (Z.to_nat SCOM_MSGBUF) 0 |}.

(** The branch of [scom_main] for a readable device.  [chunk] are the bytes the
    device holds: [scom_dev_recv] takes at most [len] of them, the rest stays in
    the device and is returned. *)
Definition scom_main_recv (s : SCOM_RX) (chunk : list Z)
    : option (SCOM_RX * list (list Z) * list Z) :=
  let s := if SCOM_MSGBUF <=? sr_w s then {| s with sr_r := 0; sr_w := 0 |} else s in
  let room := Z.to_nat (SCOM_MSGBUF - sr_w s) in
  let got := take room chunk in
  buf ← mem_write (sr_buf s) (sr_w s) got;
  if 0 <? len got then
    '(s', out) ← msg_decode {| s with sr_w := sr_w s + len got; sr_buf := buf |};
    Some (s', out, drop room chunk)
  else Some ({| s with sr_buf := buf |}, [], drop room chunk).

(** The device is read until it is empty, [n] reads at most. *)
Fixpoint scom_main_drain (n : nat) (s : SCOM_RX) (chunk : list Z)
    : option (SCOM_RX * list (list Z) * list Z) :=
  match n, chunk with
  | O, _ | _, [] => Some (s, [], chunk)
  | S n, _ =>
      '(s, o, rest) ← scom_main_recv s chunk;
      '(s, o', rest) ← scom_main_drain n s rest;
      Some (s, o ++ o', rest)
  end.

(** ** Specification *)

Definition esc_byte (b : Z) : list Z :=
  if b =? DCCP_PKG_MARKER then [DCCP_PKG_ESC; 0x02]
  else if b =? DCCP_PKG_ESC then [DCCP_PKG_ESC; 0x01]
  else [b].

Definition escape (l : list Z) : list Z := flat_map esc_byte l.

Fixpoint unescape (l : list Z) : option (list Z) :=
  match l with
  | [] => Some []
  | b :: t =>
      if negb (b =? DCCP_PKG_ESC) then u ← unescape t; Some (b :: u)
      else match t with
           | [] => None
           | c :: t' =>
               if c =? 0x01 then u ← unescape t'; Some (DCCP_PKG_ESC :: u)
               else if c =? 0x02 then u ← unescape t'; Some (DCCP_PKG_MARKER :: u)
               else None
           end
  end.

(** A whole frame on the wire. *)
Definition frame (payload : list Z) : list Z :=
  [DCCP_PKG_MARKER] ++ escape (payload ++ [xor_bytes 0 payload]) ++ [DCCP_PKG_MARKER].

(** The payload carried by the bytes between two markers, if they are valid. *)
Definition frame_payload (body : list Z) : option (list Z) :=
  u ← unescape body;
  match u with
  | [] => None
  | _ => if xor_bytes 0 (removelast u) =? List.last u 0 then Some (removelast u) else None
  end.

(** The byte-wise receiver.  Its state is [None] outside of a frame and
    [Some acc] after a start marker followed by [acc]. *)
Definition scan_byte (st : option (list Z)) (b : Z) : option (list Z) * list (list Z) :=
  if b =? DCCP_PKG_MARKER then
    match st with
    | None => (Some [], [])
    | Some acc =>
        match frame_payload acc with
        | Some p => (None, [p])
        | None => (Some [], [])
        end
    end
  else ((fun acc => acc ++ [b]) <$> st, []).

Fixpoint scan (st : option (list Z)) (d : list Z) : option (list Z) * list (list Z) :=
  match d with
  | [] => (st, [])
  | b :: t =>
      let '(st1, p1) := scan_byte st b in
      let '(st2, p2) := scan st1 t in
      (st2, p1 ++ p2)
  end.

(** The receiver with its buffer limit: when an open frame has filled the
    buffer, its bytes are dropped and one further byte is swallowed. *)
Definition rx_byte (st : option (list Z)) (b : Z) : option (list Z) * list (list Z) :=
  match st with
  | Some acc => if SCOM_MSGBUF <=? 1 + len acc then (Some [], []) else scan_byte st b
  | None => scan_byte st b
  end.

Fixpoint rx_scan (st : option (list Z)) (d : list Z) : option (list Z) * list (list Z) :=
  match d with
  | [] => (st, [])
  | b :: t =>
      let '(st1, p1) := rx_byte st b in
      let '(st2, p2) := rx_scan st1 t in
      (st2, p1 ++ p2)
  end.

(** A sequence of chunks arriving at the device. *)
Fixpoint scom_rx_run (s : SCOM_RX) (chunks : list (list Z))
    : option (SCOM_RX * list (list Z)) :=
  match chunks with
  | [] => Some (s, [])
  | c :: t =>
      '(s, o, _) ← scom_main_drain (length c) s c;
      '(s, o') ← scom_rx_run s t;
      Some (s, o ++ o')
  end.

(** ** Lemmas: escaping *)

Lemma escape_app l k : escape (l ++ k) = escape l ++ escape k.
Proof. unfold escape. by rewrite flat_map_app. Qed.

Lemma escape_cons b l : escape (b :: l) = esc_byte b ++ escape l.
Proof. done. Qed.

Lemma esc_byte_len b : 1 <= len (esc_byte b) <= 2.
Proof. unfold esc_byte. unfold len; repeat case_bool; simpl; lia. Qed.

Lemma escape_len l : len l <= len (escape l) <= 2 * len l.
Proof.
  induction l as [|b l IH]; [done |].
  rewrite escape_cons. pose proof (esc_byte_len b). autorewrite with len. lia.
Qed.

Lemma unescape_escape_app l k :
  unescape (escape l ++ k) = (fun u => l ++ u) <$> unescape k.
Proof.
  induction l as [|b l IH]; [simpl; by destruct (unescape k) |].
  rewrite escape_cons, <- app_assoc. unfold esc_byte, DCCP_PKG_MARKER, DCCP_PKG_ESC.
  destruct (Z.eqb_spec b 0x7E) as [->|]; [| destruct (Z.eqb_spec b 0x7D) as [->|]];
    cbn [app unescape]; unfold DCCP_PKG_ESC; repeat (case_bool; try lia); cbn [negb];
    rewrite IH; by destruct (unescape k).
Qed.

Lemma unescape_escape l : unescape (escape l) = Some l.
Proof.
  rewrite <- (app_nil_r (escape l)), unescape_escape_app. simpl. by rewrite app_nil_r.
Qed.

(** No start or end marker inside of a list of bytes. *)
Definition unmarked (l : list Z) : Prop := Forall (fun b => b <> DCCP_PKG_MARKER) l.

Lemma escape_unmarked l : unmarked (escape l).
Proof.
  unfold unmarked. induction l as [|b l IH]; [constructor |].
  rewrite escape_cons, Forall_app. split; [| done].
  unfold esc_byte, DCCP_PKG_MARKER, DCCP_PKG_ESC.
  repeat case_bool; repeat constructor; lia.
Qed.

Lemma frame_payload_escape p :
  frame_payload (escape (p ++ [xor_bytes 0 p])) = Some p.
Proof.
  unfold frame_payload. rewrite unescape_escape. simpl.
  destruct (p ++ [xor_bytes 0 p]) eqn:E; [by destruct p |].
  rewrite <- E, removelast_last, last_last, Z.eqb_refl. done.
Qed.

(** ** Lemmas: the encoder *)

Lemma mem_write_two (dst : list Z) p a b :
  0 <= p -> p + 1 < len dst ->
  (d ← mem_set dst p a; mem_set d (p + 1) b) = mem_write dst p [a; b].
Proof.
  intros Hp Hl. destruct (mem_set dst p a) as [d|] eqn:S1;
    [| rewrite mem_set_ok in S1 by lia; done].
  pose proof (mem_set_len _ _ _ _ S1). cbn [mbind option_bind].
  destruct (mem_set d (p + 1) b) as [d'|] eqn:S2;
    [| rewrite mem_set_ok in S2 by lia; done].
  rewrite mem_set_write in S1, S2. symmetry. by apply (mem_write_app dst p [a] [b] d).
Qed.

(** One iteration of the loop of [msg_convert] emits the escape of one byte. *)
Lemma convert_loop_step n src dst base i j src_len dst_len b :
  mem_get src i = Some b -> i < src_len -> 0 <= base + j -> j < dst_len ->
  base + dst_len <= len dst ->
  msg_convert_loop (S n) src dst base i j src_len dst_len DCCP_PKG_MARKER DCCP_PKG_ESC =
    if j + len (esc_byte b) <=? dst_len
    then d ← mem_write dst (base + j) (esc_byte b);
         msg_convert_loop n src d base (i + 1) (j + len (esc_byte b)) src_len dst_len
           DCCP_PKG_MARKER DCCP_PKG_ESC
    else Some (i, j, -1, dst).
Proof.
  intros Hg Hi Hb Hj Hd. cbn [msg_convert_loop].
  rewrite (proj2 (Z.ltb_lt _ _) Hi), (proj2 (Z.ltb_lt _ _) Hj), Hg. cbn [andb mbind option_bind].
  unfold esc_byte. destruct (b =? DCCP_PKG_MARKER); [| destruct (b =? DCCP_PKG_ESC)];
    unfold len; cbn [length Z.of_nat Pos.of_succ_nat Pos.succ];
    [| | rewrite mem_set_write; case_bool; [done | lia]];
    (case_bool; case_bool; try lia; [| done]; rewrite <- mem_write_two by lia;
     by destruct (mem_set dst (base + j) DCCP_PKG_ESC)).
Qed.

(** The loop writes the escape of the remaining bytes, or stops early. *)
Lemma convert_loop_spec rem : forall src pre post dst base j src_len dst_len,
  src = pre ++ rem ++ post -> src_len = len pre + len rem ->
  0 <= base -> 0 <= j <= dst_len -> base + dst_len <= len dst ->
  exists i' j' ret dst',
    msg_convert_loop (length rem) src dst base (len pre) j src_len dst_len
      DCCP_PKG_MARKER DCCP_PKG_ESC = Some (i', j', ret, dst') /\ len dst' = len dst /\
    if j + len (escape rem) <=? dst_len
    then i' = src_len /\ j' = j + len (escape rem) /\ ret = 0 /\
         mem_write dst (base + j) (escape rem) = Some dst'
    else ret = -1 \/ i' <> src_len.
Proof.
  induction rem as [|b rem IH]; intros src pre post dst base j src_len dst_len Hs Hsl Hb Hj Hd.
  - autorewrite with len in *. eexists _, _, _, _. split; [done |]. split; [done |].
    change (len (escape [])) with 0. case_bool; [| lia]. repeat split; try lia.
    apply mem_write_nil. lia.
  - autorewrite with len in Hsl. pose proof (len_nonneg rem). pose proof (escape_len rem).
    pose proof (esc_byte_len b). rewrite escape_cons, len_app. cbn [length].
    destruct (decide (j < dst_len)) as [Hjd|Hjd].
    2:{ cbn [msg_convert_loop]. rewrite (proj2 (Z.ltb_ge j dst_len)), andb_false_r by lia.
        eexists _, _, _, _. split; [done |]. split; [done |]. case_bool; lia. }
    rewrite convert_loop_step with (b := b); try lia.
    2:{ rewrite Hs. replace (len pre) with (len pre + 0) by lia. by rewrite mem_get_app_r. }
    destruct (Z.leb_spec (j + len (esc_byte b)) dst_len) as [Hf|Hf].
    2:{ eexists _, _, _, _. split; [done |]. split; [done |]. case_bool; [lia | by left]. }
    destruct (mem_write dst (base + j) (esc_byte b)) as [d1|] eqn:W1;
      [| rewrite mem_write_ok in W1 by lia; done].
    pose proof (mem_write_len _ _ _ _ W1). cbn [mbind option_bind].
    destruct (IH src (pre ++ [b]) post d1 base (j + len (esc_byte b)) src_len dst_len)
      as (i' & j' & ret & dst' & E & L' & P); try lia.
    { by rewrite Hs, <- app_assoc. }
    { autorewrite with len. lia. }
    exists i', j', ret, dst'. rewrite len_app in E. change (len [b]) with 1 in E.
    rewrite E, Z.add_assoc. split; [done |]. split; [lia |].
    case_bool; [| done]. destruct P as (-> & -> & -> & W').
    repeat (split; [done |]). eapply mem_write_app; [done |]. rewrite <- W'. f_equal. lia.
Qed.

(** [msg_convert] writes the escape of its input if it fits, and fails otherwise. *)
Lemma msg_convert_spec src n dst base dst_len :
  0 <= n <= len src -> 0 <= base -> 0 <= dst_len -> base + dst_len <= len dst ->
  let e := escape (take (Z.to_nat n) src) in
  exists dst',
    msg_convert (Some src) dst base n dst_len DCCP_PKG_MARKER DCCP_PKG_ESC =
      Some (if len e <=? dst_len then len e else -1, dst') /\ len dst' = len dst /\
    (len e <= dst_len -> mem_write dst base e = Some dst').
Proof.
  intros Hn Hb Hd0 Hd e. unfold msg_convert.
  destruct (convert_loop_spec (take (Z.to_nat n) src) src [] (drop (Z.to_nat n) src)
              dst base 0 n dst_len) as (i & j & ret & dst' & E & L & P); try lia.
  { simpl. by rewrite take_drop. }
  { autorewrite with len. lia. }
  rewrite length_take, Nat.min_l in E by (unfold len in *; lia).
  change (len []) with 0 in E. rewrite E. cbn [mbind option_bind]. fold e in P |- *.
  exists dst'. rewrite Z.add_0_l in P. split; [| split; [done |]].
  - f_equal. f_equal. case_bool.
    + destruct P as (-> & -> & -> & _). rewrite Z.eqb_refl. done.
    + destruct P as [-> | Hne]; [by destruct (i =? n) |].
      by rewrite (proj2 (Z.eqb_neq _ _) Hne).
  - intros Hf. case_bool; [| lia]. rewrite Z.add_0_r in P. tauto.
Qed.

(** Without room nothing is written. *)
Lemma msg_convert_no_room b dst base dst_len :
  dst_len <= 0 ->
  msg_convert (Some [b]) dst base 1 dst_len DCCP_PKG_MARKER DCCP_PKG_ESC = Some (-1, dst).
Proof.
  intros. unfold msg_convert. change (Z.to_nat 1) with 1%nat. cbn [msg_convert_loop].
  change (0 <? 1) with true. rewrite (proj2 (Z.ltb_ge 0 dst_len)) by lia. done.
Qed.

Lemma xor_bytes_app cs l k : xor_bytes cs (l ++ k) = xor_bytes (xor_bytes cs l) k.
Proof. apply fold_left_app. Qed.

(** The bytes of a segment: [imsg] may be null. *)
Definition segment (imsg : option (list Z)) (ilen : Z) : list Z :=
  match imsg with Some m => take (Z.to_nat ilen) m | None => [] end.

Definition segment_ok (imsg : option (list Z)) (ilen : Z) : Prop :=
  0 <= ilen < 2 ^ 31 /\ match imsg with Some m => ilen <= len m | None => True end.

Lemma msg_checksum_spec m n cs :
  0 < n <= len m -> msg_checksum (Some m) n cs = Some (xor_bytes cs (take (Z.to_nat n) m)).
Proof.
  intros Hn. unfold msg_checksum. case_bool; [lia |].
  rewrite mem_read_ok by lia. simpl. done.
Qed.

Lemma msg_encode_body_spec imsg ilen o obase offset olen cs :
  segment_ok imsg ilen -> 0 <= obase -> 0 <= offset <= olen -> olen < 2 ^ 31 ->
  obase + olen <= len o ->
  let d := segment imsg ilen in
  exists o' cs',
    msg_encode_body imsg ilen o obase offset olen cs =
      Some (if len (escape d) <=? olen - offset then len (escape d) else -1, o', cs') /\
    len o' = len o /\
    (len (escape d) <= olen - offset ->
       mem_write o (obase + offset) (escape d) = Some o' /\ cs' = xor_bytes cs d).
Proof.
  intros [Hi Hm] Hb Hof Hol Hl d.
  assert (d = [] -> exists o' cs', Some (0, o, cs) =
    Some (if len (escape d) <=? olen - offset then len (escape d) else -1, o', cs') /\
    len o' = len o /\ (len (escape d) <= olen - offset ->
       mem_write o (obase + offset) (escape d) = Some o' /\ cs' = xor_bytes cs d)) as Hnil.
  { intros ->. exists o, cs. change (len (escape [])) with 0.
    rewrite (proj2 (Z.leb_le _ _)) by lia. split; [done |]. split; [done |].
    intros _. split; [apply mem_write_nil; lia | done]. }
  unfold msg_encode_body. destruct imsg as [m|]; [| by apply Hnil].
  destruct (Z.ltb_spec 0 ilen) as [Hpos|Hz].
  2:{ apply Hnil. unfold d, segment. by replace ilen with 0 by lia. }
  rewrite !s32_small by lia.
  destruct (msg_convert_spec m ilen o (obase + offset) (olen - offset))
    as (o' & E & L & W); try lia.
  change (escape (take (Z.to_nat ilen) m)) with (escape d) in *.
  rewrite E. cbn [mbind option_bind]. pose proof (len_nonneg (escape d)).
  destruct (Z.leb_spec (len (escape d)) (olen - offset)) as [Hf|Hf].
  - rewrite (proj2 (Z.eqb_neq _ _)) by lia. rewrite msg_checksum_spec by lia.
    cbn [mbind option_bind]. eexists _, _. split; [done |]. split; [done |]. auto.
  - eexists _, _. split; [done |]. split; [done |]. lia.
Qed.

(** The first segment: start marker and escaped bytes. *)
Lemma msg_encode_first_spec imsg ilen o obase olen cs :
  segment_ok imsg ilen -> 0 <= obase -> 1 <= olen < 2 ^ 31 -> obase + olen <= len o ->
  let e := [DCCP_PKG_MARKER] ++ escape (segment imsg ilen) in
  exists o' cs',
    msg_encode imsg ilen o obase olen FIRST_SEG cs =
      Some (if len e <=? olen then len e else -1, o', cs') /\ len o' = len o /\
    (len e <= olen -> mem_write o obase e = Some o' /\ cs' = xor_bytes 0 (segment imsg ilen)).
Proof.
  intros Hs Hb Hol Hl e. unfold msg_encode. cbn [decide_rel decide].
  destruct (decide (FIRST_SEG = FIRST_SEG)); [| done].
  destruct (mem_set o obase DCCP_PKG_MARKER) as [o1|] eqn:S;
    [| rewrite mem_set_ok in S by lia; done].
  pose proof (mem_set_len _ _ _ _ S) as L1. cbn [mbind option_bind].
  destruct (msg_encode_body_spec imsg ilen o1 obase DCCP_PKG_MARKER_SIZE olen 0)
    as (o2 & cs2 & E & L2 & W); try (unfold DCCP_PKG_MARKER_SIZE; lia); [done |].
  rewrite E. cbn [mbind option_bind]. unfold DCCP_PKG_MARKER_SIZE in *.
  assert (len e = len (escape (segment imsg ilen)) + 1) as He.
  { unfold e. rewrite len_app. change (len [DCCP_PKG_MARKER]) with 1. lia. }
  pose proof (len_nonneg (escape (segment imsg ilen))).
  exists o2, cs2. rewrite He. split; [| split; [lia |]].
  - repeat case_bool; try lia; try done.
  - intros Hf. destruct W as [W ->]; [lia |]. split; [| done].
    rewrite mem_set_write in S. unfold e. by eapply mem_write_app.
Qed.

(** Checksum and end marker after [p] bytes. *)
Lemma msg_encode_trailer_spec o obase olen p cs :
  0 <= obase -> 0 <= p <= olen -> olen < 2 ^ 31 -> obase + olen <= len o ->
  let n := p + len (esc_byte cs) + 1 in
  exists o',
    msg_encode_trailer o obase olen p cs = Some (if n <=? olen then n else -1, o') /\
    len o' = len o /\
    (n <= olen -> mem_write o (obase + p) (esc_byte cs ++ [DCCP_PKG_MARKER]) = Some o').
Proof.
  intros Hb Hp Hol Hl n. unfold msg_encode_trailer, DCCP_PKG_CS_SIZE, DCCP_PKG_MARKER_SIZE.
  pose proof (esc_byte_len cs).
  rewrite (s32_u32_small (olen - p - 1)) by lia.
  destruct (decide (olen - p - 1 <= 0)) as [Hn|Hn].
  { rewrite msg_convert_no_room by lia. cbn [mbind option_bind].
    exists o. rewrite (proj2 (Z.leb_gt n olen)) by lia. split; [done |]. split; [done | lia]. }
  destruct (msg_convert_spec [cs] 1 o (obase + p) (olen - p - 1)) as (o2 & E2 & L2 & W2);
    try (unfold len; simpl; lia); try lia.
  assert (escape (take (Z.to_nat 1) [cs]) = esc_byte cs) as Ecs by (simpl; by rewrite app_nil_r).
  rewrite Ecs in E2, W2. rewrite E2. cbn [mbind option_bind]. clear E2.
  destruct (Z.leb_spec (len (esc_byte cs)) (olen - p - 1)) as [Hf|Hf].
  2:{ exists o2. rewrite (proj2 (Z.leb_gt n olen)) by lia.
      split; [done |]. split; [done | lia]. }
  rewrite (proj2 (Z.eqb_neq _ _)) by lia.
  destruct (mem_set o2 (obase + (p + len (esc_byte cs))) DCCP_PKG_MARKER) as [o3|] eqn:S3;
    [| rewrite mem_set_ok in S3 by lia; done].
  pose proof (mem_set_len _ _ _ _ S3). cbn [mbind option_bind].
  exists o3. rewrite (proj2 (Z.leb_le n olen)) by lia.
  split; [done |]. split; [lia |]. intros _.
  eapply mem_write_app; [apply W2; lia |].
  rewrite mem_set_write in S3. rewrite <- S3. f_equal. lia.
Qed.

(** The last segment: escaped bytes, escaped checksum, end marker. *)
Lemma msg_encode_last_spec imsg ilen o obase olen cs :
  segment_ok imsg ilen -> 0 <= obase -> 0 <= olen < 2 ^ 31 -> obase + olen <= len o ->
  let d := segment imsg ilen in
  let e := escape (d ++ [xor_bytes cs d]) ++ [DCCP_PKG_MARKER] in
  exists o' cs',
    msg_encode imsg ilen o obase olen LAST_SEG cs =
      Some (if len e <=? olen then len e else -1, o', cs') /\ len o' = len o /\
    (len e <= olen -> mem_write o obase e = Some o').
Proof.
  intros Hs Hb Hol Hl d e. unfold msg_encode.
  destruct (decide (LAST_SEG = FIRST_SEG)); [done |].
  destruct (decide (LAST_SEG = LAST_SEG)); [| done]. cbn [mbind option_bind].
  destruct (msg_encode_body_spec imsg ilen o obase 0 olen cs)
    as (o1 & cs1 & E & L1 & W); try lia; [done |]. fold d in E, W.
  rewrite E. cbn [mbind option_bind]. clear E.
  pose proof (len_nonneg (escape d)). pose proof (esc_byte_len (xor_bytes cs d)).
  assert (len e = len (escape d) + len (esc_byte (xor_bytes cs d)) + 1) as He.
  { unfold e. rewrite escape_app, !len_app. simpl. rewrite app_nil_r.
    change (len [DCCP_PKG_MARKER]) with 1. lia. }
  rewrite Z.sub_0_r in *. destruct (Z.leb_spec (len (escape d)) olen) as [Hf|Hf].
  2:{ exists o1, cs1. rewrite (proj2 (Z.leb_gt (len e) olen)) by lia.
      split; [done |]. split; [done | lia]. }
  destruct W as [W ->]; [lia |]. rewrite Z.add_0_r in *.
  rewrite (proj2 (Z.eqb_neq _ _)) by lia.
  destruct (msg_encode_trailer_spec o1 obase olen (len (escape d)) (xor_bytes cs d))
    as (o2 & E2 & L2 & W2); try lia.
  rewrite E2. cbn [mbind option_bind]. exists o2, (xor_bytes cs d). rewrite He.
  split; [done |]. split; [lia |]. intros Hfit.
  unfold e. rewrite escape_app, <- app_assoc.
  eapply mem_write_app; [exact W |]. simpl. rewrite app_nil_r. apply W2. lia.
Qed.

(** ** Lemmas: the in-place decoder *)

(** The result of unescaping in place: the cells [base + j .. base + L - 1] hold
    [ou] and the other cells are untouched. *)
Definition reversed (data : list Z) (base j L : Z) (ou : option (list Z))
    (res : option (list Z * Z)) : Prop :=
  exists data' r, res = Some (data', r) /\ unchanged data data' (base + j) (base + L) /\
    match ou with
    | Some u => r = j + len u /\ block_at data' (base + j) u
    | None => r = -1
    end.

Lemma reversed_nil data base j L :
  0 <= base + j <= len data -> reversed data base j L (Some []) (Some (data, j)).
Proof.
  intros. exists data, j. split; [done |]. split; [apply unchanged_refl |].
  rewrite block_at_nil, len_nil. lia.
Qed.

(** Emitting one byte and going on. *)
Lemma reversed_emit data d base j L v ou res :
  mem_set data (base + j) v = Some d -> j + 1 <= L ->
  reversed d base (j + 1) L ou res ->
  reversed data base j L ((fun u => v :: u) <$> ou) res.
Proof.
  intros S HL (data' & r & -> & U & P). pose proof (mem_set_unchanged _ _ _ _ S) as U0.
  exists data', r. split; [done |]. split; [eapply unchanged_trans; try done; lia |].
  destruct ou as [u|]; [| done]. destruct P as [-> B]. simpl. rewrite len_cons, block_at_cons.
  split; [lia |]. split; [| by rewrite <- Z.add_assoc].
  eapply mem_get_unchanged; [done | lia | by eapply mem_set_get].
Qed.

Lemma unescape_plain b t :
  b <> DCCP_PKG_ESC -> unescape (b :: t) = (fun u => b :: u) <$> unescape t.
Proof.
  intros. cbn [unescape]. case_bool; [done |]. by destruct (unescape t).
Qed.

Lemma unescape_esc c t :
  unescape (DCCP_PKG_ESC :: c :: t) =
    if c =? 1 then (fun u => DCCP_PKG_ESC :: u) <$> unescape t
    else if c =? 2 then (fun u => DCCP_PKG_MARKER :: u) <$> unescape t else None.
Proof.
  cbn [unescape]. rewrite Z.eqb_refl. cbn [negb].
  destruct (c =? 1); [| destruct (c =? 2)]; by destruct (unescape t).
Qed.

(** [msg_reverse] writes the unescaped bytes over the escaped ones. *)
Lemma reverse_loop_spec n : forall data base i j rem,
  block_at data (base + i) (rem ++ [DCCP_PKG_MARKER]) ->
  0 <= base -> 0 <= j <= i -> len rem <= Z.of_nat n ->
  reversed data base j (i + len rem) (unescape rem)
    (msg_reverse_loop n data base i j (i + len rem) DCCP_PKG_MARKER DCCP_PKG_ESC).
Proof.
  induction n as [|n IH]; intros data base i j rem Hat Hb Hj Hn.
  all: pose proof (proj1 (block_at_iff _ _ _) Hat) as (_ & Hlen & _).
  all: rewrite len_app in Hlen; change (len [DCCP_PKG_MARKER]) with 1 in Hlen.
  all: pose proof (len_nonneg rem).
  { rewrite (len_le_0 rem) in * by lia. apply reversed_nil. lia. }
  cbn [msg_reverse_loop]. destruct rem as [|b t].
  { rewrite len_nil, (proj2 (Z.ltb_ge _ _)) by lia. apply reversed_nil. lia. }
  rewrite len_cons in *. pose proof (len_nonneg t). rewrite (proj2 (Z.ltb_lt _ _)) by lia.
  cbn [app] in Hat. apply block_at_cons in Hat as [Hg Hat]. rewrite Hg. cbn [mbind option_bind].
  assert (forall v i' rem', i + 1 <= i' -> block_at data (base + i') (rem' ++ [DCCP_PKG_MARKER]) ->
    i + (1 + len t) = i' + len rem' ->
    reversed data base j (i + (1 + len t)) ((fun u => v :: u) <$> unescape rem')
      (d ← mem_set data (base + j) v;
       msg_reverse_loop n d base i' (j + 1) (i + (1 + len t)) DCCP_PKG_MARKER DCCP_PKG_ESC))
    as Hemit.
  { intros v i' rem' Hi' Hat' HL. pose proof (len_nonneg rem').
    destruct (mem_set_exists data (base + j) v) as (d & S & U & _); [lia |].
    rewrite S. cbn [mbind option_bind]. eapply reversed_emit; [done | lia |].
    rewrite HL. apply IH; try lia. eapply block_at_unchanged; [done | lia | done]. }
  destruct (Z.eqb_spec b DCCP_PKG_ESC) as [->|Hne]; cbn [negb].
  2:{ rewrite unescape_plain by done. apply Hemit; [lia | by rewrite (Z.add_assoc base i 1) | lia]. }
  rewrite (Z.add_assoc base i 1). destruct t as [|c t]; cbn [app] in Hat; apply block_at_cons in Hat as [Hc Hat];
    rewrite Hc; cbn [mbind option_bind].
  { exists data, (-1). split; [done |]. split; [apply unchanged_refl | done]. }
  rewrite unescape_esc. replace (base + i + 1 + 1) with (base + (i + 2)) in Hat by lia.
  rewrite len_cons in *. destruct (c =? 1); [| destruct (c =? 2)].
  1, 2: apply Hemit; [lia | done | lia].
  exists data, (-1). split; [done |]. split; [apply unchanged_refl | done].
Qed.

(** [msg_check] accepts exactly the bodies that carry a payload, and leaves the
    payload at the start of the body. *)
Lemma msg_check_spec data base body :
  block_at data base (body ++ [DCCP_PKG_MARKER]) -> 0 < len body ->
  exists chk data' l,
    msg_check data base (len body) = Some (chk, data', l) /\
    unchanged data data' base (base + len body) /\
    match frame_payload body with
    | Some p => chk = 0 /\ l = len p + 1 /\ block_at data' base p
    | None => chk = -1
    end.
Proof.
  intros Hat Hl. pose proof (proj1 (block_at_iff _ _ _) Hat) as (Hb & _ & _).
  unfold msg_check, msg_reverse. rewrite (proj2 (Z.leb_gt _ _)) by lia.
  destruct (reverse_loop_spec (Z.to_nat (len body)) data base 0 0 body)
    as (data' & r & E & U & P); try lia; [by rewrite Z.add_0_r |].
  rewrite !Z.add_0_l, !Z.add_0_r in *. rewrite E. cbn [mbind option_bind].
  unfold frame_payload, DCCP_PKG_CS_SIZE.
  destruct (unescape body) as [u|]; cbn [mbind option_bind].
  2:{ subst r. exists (-1), data', (-1). done. }
  destruct P as [-> B]. rewrite !Z.add_0_l in *. destruct u as [|x u'] using rev_ind.
  { eexists _, _, _. split; [reflexivity | done]. }
  clear IHu'. rewrite len_app in *. change (len [x]) with 1. pose proof (len_nonneg u').
  rewrite (proj2 (Z.ltb_ge _ _)) by lia. apply block_at_app in B as [B1 B2].
  apply block_at_single in B2. rewrite Z.add_simpl_r.
  replace (match u' ++ [x] with [] => None | _ :: _ =>
             if xor_bytes 0 (removelast (u' ++ [x])) =? List.last (u' ++ [x]) 0
             then Some (removelast (u' ++ [x])) else None end)
    with (if xor_bytes 0 u' =? x then Some u' else None)
    by (rewrite removelast_last, last_last; by destruct u').
  assert (msg_checksum (Some (drop (Z.to_nat base) data')) (len u') 0 = Some (xor_bytes 0 u')) as ->.
  { unfold msg_checksum. destruct (Z.leb_spec (len u') 0).
    { by rewrite (len_le_0 u') by lia. }
    apply block_at_iff in B1 as (_ & HL & Hk).
    assert (block_at (drop (Z.to_nat base) data') 0 u') as Hd.
    { apply block_at_iff. rewrite len_drop. split; [lia |]. split; [lia |].
      intros k Hkl. rewrite lookup_drop. auto. }
    unfold block_at in Hd. by rewrite Hd. }
  cbn [mbind option_bind]. rewrite B2. cbn [mbind option_bind].
  destruct (xor_bytes 0 u' =? x); eexists _, _, _; (split; [done |]); split; try done.
Qed.

Lemma msg_check_total data base body :
  block_at data base (body ++ [DCCP_PKG_MARKER]) ->
  exists chk data' l,
    msg_check data base (len body) = Some (chk, data', l) /\
    unchanged data data' base (base + len body) /\
    match frame_payload body with
    | Some p => chk = 0 /\ l = len p + 1 /\ block_at data' base p
    | None => chk = -1
    end.
Proof.
  intros Hat. destruct body as [|b body].
  - exists (-1), data, (-1). split; [done |]. split; [apply unchanged_refl | done].
  - apply msg_check_spec; [done |]. rewrite len_cons. pose proof (len_nonneg body). lia.
Qed.

(** ** Lemmas: scanning *)

Lemma scan_app a : forall st b,
  scan st (a ++ b) =
    (fst (scan (fst (scan st a)) b), snd (scan st a) ++ snd (scan (fst (scan st a)) b)).
Proof.
  induction a as [|x a IH]; intros st b; cbn [app scan fst snd]; [by destruct (scan st b) |].
  destruct (scan_byte st x) as [st1 p1]. rewrite IH.
  destruct (scan st1 a) as [st2 p2]. simpl. by rewrite app_assoc.
Qed.

Lemma scan_unmarked l : forall st, unmarked l -> scan st l = ((fun acc => acc ++ l) <$> st, []).
Proof.
  induction l as [|b l IH]; intros st Hu; cbn [scan].
  - destruct st; simpl; [by rewrite app_nil_r | done].
  - inversion_clear Hu. unfold scan_byte. rewrite (proj2 (Z.eqb_neq _ _)) by done.
    rewrite IH by done. destruct st; simpl; [by rewrite <- app_assoc | done].
Qed.

(** Scanning up to the next marker. *)
Lemma scan_marker st pre post :
  unmarked pre ->
  scan st (pre ++ DCCP_PKG_MARKER :: post) =
    match st with
    | None => scan (Some []) post
    | Some acc =>
        match frame_payload (acc ++ pre) with
        | Some p => (fst (scan None post), p :: snd (scan None post))
        | None => scan (Some []) post
        end
    end.
Proof.
  intros Hu. rewrite scan_app, (scan_unmarked pre st Hu). cbn [fst snd app scan].
  unfold scan_byte. rewrite Z.eqb_refl. destruct st as [acc|]; simpl.
  - destruct (frame_payload (acc ++ pre)); by destruct (scan _ post).
  - by destruct (scan _ post).
Qed.

Lemma find_dccp_loop_spec l : forall buf off i,
  0 <= i -> block_at buf (off + i) l ->
  (unmarked l /\ msg_find_dccp_loop (length l) buf off i = Some (-1)) \/
  exists pre post, l = pre ++ DCCP_PKG_MARKER :: post /\ unmarked pre /\
    msg_find_dccp_loop (length l) buf off i = Some (i + len pre).
Proof.
  induction l as [|b l IH]; intros buf off i Hi Hat; cbn [length msg_find_dccp_loop].
  - left. split; [constructor | done].
  - apply block_at_cons in Hat as [Hg Hat]. rewrite Hg. cbn [mbind option_bind].
    destruct (Z.eqb_spec b DCCP_PKG_MARKER) as [->|Hne].
    + right. exists [], l. change (len []) with 0. rewrite Z.add_0_r. repeat split. constructor.
    + destruct (IH buf off (i + 1)) as [[Hu E] | (pre & post & -> & Hu & E)]; try lia.
      { by rewrite Z.add_assoc. }
      * left. split; [by constructor | done].
      * right. exists (b :: pre), post. rewrite E, len_cons. split; [done |].
        split; [by constructor |]. f_equal. lia.
Qed.

Lemma find_dccp_spec buf off l :
  block_at buf off l ->
  (unmarked l /\ msg_find_dccp buf off (len l) = Some (-1)) \/
  exists pre post, l = pre ++ DCCP_PKG_MARKER :: post /\ unmarked pre /\
    msg_find_dccp buf off (len l) = Some (len pre).
Proof.
  intros Hat. unfold msg_find_dccp. replace (Z.to_nat (len l)) with (length l) by (unfold len; lia).
  destruct (find_dccp_loop_spec l buf off 0) as [?|(pre & post & ? & ? & E)];
    [done | by rewrite Z.add_0_r | by left | right].
  rewrite Z.add_0_l in E. eauto.
Qed.

(** ** Lemmas: the decoding loops *)

(** The loop variables represent the state of the scanner: an open frame holds
    the bytes between [start_pos + 1] and [r_pos], after a byte allowed by [P]
    (the marker, unless the buffer has overflowed). *)
Definition dec_rel (P : Z -> Prop) (st : option (list Z)) (start r : Z) (data : list Z) : Prop :=
  match st with
  | None => start = -1
  | Some acc => 0 <= start /\ start + 1 + len acc = r /\
      (exists x, P x /\ mem_get data start = Some x) /\ block_at data (start + 1) acc /\ unmarked acc
  end.

Lemma dec_rel_open (P : Z -> Prop) data start :
  P DCCP_PKG_MARKER -> mem_get data start = Some DCCP_PKG_MARKER ->
  dec_rel P (Some []) start (start + 1) data.
Proof.
  intros HP Hg. pose proof (mem_get_Some _ _ _ Hg) as [Hr _].
  split; [lia |]. change (len []) with 0. split; [lia |]. split; [eauto |].
  split; [rewrite block_at_nil; lia | constructor].
Qed.

Lemma dec_rel_extend P st start r data l :
  dec_rel P st start r data -> block_at data r l -> unmarked l ->
  dec_rel P ((fun acc => acc ++ l) <$> st) start (r + len l) data.
Proof.
  destruct st as [acc|]; simpl; [| done]. intros (Hs & Hr & Hx & Hat & Hu) Hl Hul.
  split; [done |]. rewrite len_app. split; [lia |]. split; [done |].
  split; [apply block_at_app; split; [done |]; by rewrite Hr | by apply Forall_app].
Qed.

Lemma unmarked_app l k : unmarked (l ++ k) <-> unmarked l /\ unmarked k.
Proof. apply Forall_app. Qed.

(** The end of a frame: the bytes since the start marker are checked. *)
Lemma check_open P data start r pre post acc :
  dec_rel P (Some acc) start r data -> block_at data r (pre ++ DCCP_PKG_MARKER :: post) ->
  exists chk data' l,
    msg_check data (start + 1) (r + len pre - start - 1) = Some (chk, data', l) /\
    len data' = len data /\ mem_get data' (r + len pre) = Some DCCP_PKG_MARKER /\
    block_at data' (r + len pre + 1) post /\
    match frame_payload (acc ++ pre) with
    | Some p => chk = 0 /\ mem_read data' (start + 1) (l - 1) = Some p
    | None => chk = -1
    end.
Proof.
  intros (Hs & Hr & _ & Hat & Hu) Hrem. apply block_at_app in Hrem as [Hpre Hpost].
  apply block_at_cons in Hpost as [Hm Hpost].
  replace (r + len pre - start - 1) with (len (acc ++ pre)) by (rewrite len_app; lia).
  assert (start + 1 + len (acc ++ pre) = r + len pre) as He by (rewrite len_app; lia).
  destruct (msg_check_total data (start + 1) (acc ++ pre)) as (chk & data' & l & E & U & Pl).
  { apply block_at_app. rewrite He. split; [| by apply block_at_single].
    apply block_at_app. by rewrite Hr. }
  exists chk, data', l. split; [done |]. split; [by destruct U |].
  split; [eapply mem_get_unchanged; [done | lia | done] |].
  split; [eapply block_at_unchanged; [done | lia | done] |].
  destruct (frame_payload (acc ++ pre)); [| done]. destruct Pl as (-> & -> & B).
  split; [done |]. by rewrite Z.add_simpl_r.
Qed.

(** Running the decoding loop of [msg_decode] is scanning the unread bytes. *)
Definition decodes (P : Z -> Prop) (st : option (list Z)) (rem : list Z) (w : Z) (msg : list Z)
    (out : list (list Z)) (res : option (Z * Z * list Z * list (list Z))) : Prop :=
  exists start' msg',
    res = Some (w, start', msg', out ++ snd (scan st rem)) /\
    dec_rel P (fst (scan st rem)) start' w msg' /\ len msg' = len msg.

Lemma decodes_len P st rem w msg msg' out res :
  len msg' = len msg -> decodes P st rem w msg' out res -> decodes P st rem w msg out res.
Proof. intros L (start' & m & ? & ? & ?). exists start', m. repeat split; [done.. | lia]. Qed.

Lemma decodes_scan_eq P st st' rem rem' ps w msg out res :
  scan st rem = (fst (scan st' rem'), ps ++ snd (scan st' rem')) ->
  decodes P st' rem' w msg (out ++ ps) res -> decodes P st rem w msg out res.
Proof.
  intros E (start' & m & H & ? & ?). exists start', m. rewrite E. cbn [fst snd].
  by rewrite app_assoc.
Qed.

Lemma block_at_split data r pre post :
  block_at data r (pre ++ DCCP_PKG_MARKER :: post) ->
  block_at data r pre /\ mem_get data (r + len pre) = Some DCCP_PKG_MARKER /\
  block_at data (r + len pre + 1) post.
Proof.
  rewrite block_at_app, block_at_cons. intros (H1 & H2 & H3).
  done.
Qed.

Lemma decodes_nil P n r w start msg out st :
  dec_rel P st start r msg -> r + len (@nil Z) = w ->
  decodes P st [] w msg out (msg_decode_loop n r w start msg out).
Proof.
  change (len (@nil Z)) with 0. intros Hst Hw. replace w with r by lia.
  exists start, msg. cbn [scan fst snd]. rewrite app_nil_r.
  destruct n; cbn [msg_decode_loop]; [done |]. by rewrite Z.ltb_irrefl.
Qed.

Lemma decode_loop_spec (P : Z -> Prop) (HP : P DCCP_PKG_MARKER) n : forall r w start msg out st rem,
  dec_rel P st start r msg -> block_at msg r rem -> r + len rem = w -> len rem <= Z.of_nat n ->
  decodes P st rem w msg out (msg_decode_loop n r w start msg out).
Proof.
  induction n as [|n IH]; intros r w start msg out st rem Hst Hat Hw Hn.
  { assert (rem = []) as -> by (apply len_le_0; lia). by apply decodes_nil. }
  destruct (decide (rem = [])) as [->|Hne]; [by apply decodes_nil |].
  assert (0 < len rem) as Hz.
  { destruct rem as [|b t]; [done |]. rewrite len_cons. pose proof (len_nonneg t). lia. }
  cbn [msg_decode_loop]. rewrite (proj2 (Z.ltb_lt r w)) by lia.
  replace (w - r) with (len rem) by lia.
  destruct (find_dccp_spec msg r rem Hat) as [[Hu E] | (pre & post & -> & Hu & E)];
    rewrite E; cbn [mbind option_bind].
  { change (-1 <? 0) with true. cbv iota.
    eapply (decodes_scan_eq _ _ ((fun acc => acc ++ rem) <$> st) _ [] []);
      [by rewrite scan_unmarked |]. rewrite app_nil_r.
    apply IH; [rewrite <- Hw; by apply dec_rel_extend | | change (len []) with 0; lia..].
    apply block_at_nil. apply block_at_iff in Hat. lia. }
  pose proof (len_nonneg pre). rewrite (proj2 (Z.ltb_ge _ _)) by lia.
  rewrite len_app, len_cons in Hw, Hn, Hz. pose proof (len_nonneg post).
  destruct (block_at_split _ _ _ _ Hat) as (Hpre & Hm & Hpost).
  pose proof (scan_marker st pre post Hu) as Hsc.
  destruct st as [acc|].
  2:{ cbn [dec_rel] in Hst. subst start. change (-1 =? -1) with true. cbv iota.
      eapply (decodes_scan_eq _ _ (Some []) _ post []); [rewrite Hsc; apply surjective_pairing |].
      rewrite app_nil_r. apply IH; [by apply dec_rel_open | done | lia | lia]. }
  destruct (check_open _ _ _ _ _ _ _ Hst Hat) as (chk & data' & l & Ec & L & Hm' & Hpost' & Pl).
  destruct Hst as (Hs & _). rewrite (proj2 (Z.eqb_neq start (-1))) by lia.
  rewrite Ec. cbn [mbind option_bind].
  apply (decodes_len _ _ _ _ _ data'); [done |].
  destruct (frame_payload (acc ++ pre)) as [p|].
  - destruct Pl as [-> Ep]. rewrite Ep. cbn [mbind option_bind Z.eqb].
    eapply (decodes_scan_eq _ _ None _ post [p]); [by rewrite Hsc |].
    apply IH; [done | done | lia | lia].
  - subst chk. cbn [Z.eqb].
    eapply (decodes_scan_eq _ _ (Some []) _ post []); [rewrite Hsc; apply surjective_pairing |].
    rewrite app_nil_r. apply IH; [by apply dec_rel_open | done | lia | lia].
Qed.

(** The two decoders run the same loop. *)
Lemma decodex_loop_decode n : forall w r start msg out,
  msg_decodex_loop n w r start msg out = msg_decode_loop n r w start msg out.
Proof.
  induction n as [|n IH]; intros w r start msg out; cbn [msg_decodex_loop msg_decode_loop]; [done |].
  destruct (r <? w); [| done]. destruct (msg_find_dccp msg r (w - r)) as [ret|]; [| done].
  cbn [mbind option_bind]. destruct (ret <? 0); [apply IH |].
  destruct (start =? -1); [apply IH |].
  unfold DCCP_PKG_CS_SIZE, DCCP_PKG_MARKER_SIZE.
  destruct (Z.leb_spec (r + ret - start - 1) 0) as [Hl|Hl].
  - unfold msg_check, msg_reverse. rewrite (proj2 (Z.leb_le _ _) Hl). cbn [mbind option_bind].
    change (-1 <? DCCP_PKG_CS_SIZE) with true. cbv iota. cbn [mbind option_bind]. apply IH.
  - destruct (msg_check msg (start + 1) (r + ret - start - 1)) as [[[chk d] l]|]; [| done].
    cbn [mbind option_bind]. destruct (chk =? 0); cbn [negb]; [| apply IH].
    destruct (mem_read d (start + 1) (l - 1)); [apply IH | done].
Qed.

(** [shift_loop] copies a block to the front, one cell at a time. *)
Lemma shift_loop_spec l : forall data i start,
  0 <= i -> 0 < start -> block_at data (i + start) l ->
  exists data', shift_loop (length l) data i start = Some data' /\
    unchanged data data' i (i + len l) /\ block_at data' i l.
Proof.
  induction l as [|b l IH]; intros data i start Hi Hs Hat; cbn [length shift_loop].
  - exists data. split; [done |]. split; [apply unchanged_refl |].
    apply block_at_iff in Hat. apply block_at_nil. change (len []) with 0 in *. lia.
  - apply block_at_cons in Hat as [Hg Hat]. rewrite Hg. cbn [mbind option_bind].
    apply mem_get_Some in Hg as [Hr _].
    destruct (mem_set_exists data i b) as (d & S & U & G); [lia |].
    rewrite S. cbn [mbind option_bind].
    destruct (IH d (i + 1) start) as (d' & E & U' & B); try lia.
    { eapply block_at_unchanged; [done | lia |]. by replace (i + 1 + start) with (i + start + 1) by lia. }
    exists d'. rewrite len_cons. pose proof (len_nonneg l). split; [done |].
    split; [eapply unchanged_trans; try done; lia |].
    apply block_at_cons. split; [| done]. eapply mem_get_unchanged; [done | lia | done].
Qed.

(** ** The receive functions *)

(** A receive buffer holds the open frame of the scanner at its start. *)
Definition msg_rx_holds (rx : MSG_RX) (kept : list Z) : Prop :=
  rx_size rx = len (rx_data rx) /\ rx_used rx = len kept /\ block_at (rx_data rx) 0 kept.

(** The open frame [msg_decodex] keeps for the next call, with its marker. *)
Definition decodex_keeps (size : Z) (st : option (list Z)) : list Z :=
  match st with
  | Some acc => if size - 16 <=? 1 + len acc then [] else DCCP_PKG_MARKER :: acc
  | None => []
  end.

Lemma msg_decodex_loop_scan rx d :
  msg_rx_holds rx d ->
  decodes (eq DCCP_PKG_MARKER) None d (rx_used rx) (rx_data rx) []
    (msg_decodex_loop (Z.to_nat (rx_used rx)) (rx_used rx) 0 (-1) (rx_data rx) []).
Proof.
  intros (_ & Hu & Hat). rewrite decodex_loop_decode. pose proof (len_nonneg d).
  apply decode_loop_spec; [done | done | done | lia | lia].
Qed.

(** [msg_decodex] refines the byte-wise scanner: from a buffer that holds
    any bytes [d] it never accesses memory outside the buffer, calls the handler
    with exactly the payloads the scanner finds in [d], in order, and leaves in
    the buffer the open frame with its marker (or nothing, when the frame has
    grown beyond the size minus 16). *)
Theorem msg_decodex_refines_scan rx d :
  msg_rx_holds rx d ->
  exists rx', msg_decodex rx = Some (rx', snd (scan None d)) /\
    rx_size rx' = rx_size rx /\
    msg_rx_holds rx' (decodex_keeps (rx_size rx) (fst (scan None d))).
Proof.
  intros Hh. destruct (msg_decodex_loop_scan rx d Hh) as (start & msg & E & Hrel & L).
  destruct Hh as (Hsz & Hu & Hat). unfold msg_decodex. rewrite E. cbn [mbind option_bind].
  assert (msg_rx_holds {| rx_used := 0; rx_size := rx_size rx; rx_data := msg |} []) as Hnil.
  { unfold msg_rx_holds. cbn. split; [lia |]. split; [done |].
    apply block_at_nil. pose proof (len_nonneg msg). lia. }
  destruct (fst (scan None d)) as [acc|]; cbn [dec_rel decodex_keeps] in *.
  2:{ subst start. eexists. split; [reflexivity |]. split; [done |]. exact Hnil. }
  destruct Hrel as (Hs & Hr & (x & <- & Hx) & Ha & _).
  rewrite (proj2 (Z.eqb_neq start (-1))) by lia.
  cbn [rx_size rx_used rx_data]. replace (rx_used rx - start) with (1 + len acc) by lia.
  destruct (rx_size rx - 16 <=? 1 + len acc).
  { eexists. split; [reflexivity |]. split; [done |]. exact Hnil. }
  assert (block_at msg start (DCCP_PKG_MARKER :: acc)) as Hk by (by apply block_at_cons).
  destruct (Z.eqb_spec start 0) as [->|Hne]; cbn [negb mbind option_bind].
  { eexists. split; [reflexivity |]. split; [done |]. unfold msg_rx_holds. cbn.
    rewrite len_cons. split; [lia |]. split; [lia | done]. }
  replace (Z.to_nat (1 + len acc)) with (length (DCCP_PKG_MARKER :: acc)) by (simpl; unfold len; lia).
  destruct (shift_loop_spec (DCCP_PKG_MARKER :: acc) msg 0 start) as (d' & Es & [L' _] & B);
    [lia | lia | done |].
  rewrite Es. cbn [mbind option_bind]. eexists. split; [reflexivity |]. split; [done |].
  unfold msg_rx_holds. cbn. rewrite len_cons. split; [lia |]. split; [lia | done].
Qed.

(** ** The receiver of the scom thread *)

Definition scom_rx_rel (st : option (list Z)) (s : SCOM_RX) : Prop :=
  len (sr_buf s) = SCOM_MSGBUF /\
  match st with
  | None => sr_r s = 0 /\ sr_w s = 0 /\ sr_start s = -1
  | Some acc => sr_r s = 1 + len acc /\ sr_w s = 1 + len acc /\ sr_start s = 0 /\
      dec_rel (fun _ => True) (Some acc) 0 (1 + len acc) (sr_buf s)
  end.

Lemma scom_rx_init_rel : scom_rx_rel None scom_rx_init.
Proof. done. Qed.

(** After the loop: the open frame is moved to the front; it is never dropped,
    because the size test compares with the size of a pointer. *)
Lemma msg_decode_finish s st rem :
  decodes (fun _ => True) st rem (sr_w s) (sr_buf s) []
    (msg_decode_loop (Z.to_nat (sr_w s - sr_r s)) (sr_r s) (sr_w s) (sr_start s) (sr_buf s) []) ->
  0 <= sr_w s <= SCOM_MSGBUF -> len (sr_buf s) = SCOM_MSGBUF ->
  exists s', msg_decode s = Some (s', snd (scan st rem)) /\ scom_rx_rel (fst (scan st rem)) s'.
Proof.
  intros (start & msg & E & Hrel & L) Hwb Hb. unfold msg_decode.
  rewrite E. cbn [mbind option_bind app].
  destruct (fst (scan st rem)) as [acc|]; cbn [dec_rel] in Hrel.
  2:{ subst start. eexists. split; [reflexivity |]. split; [by cbn; lia | done]. }
  destruct Hrel as (Hs & Hr & (x & _ & Hx) & Ha & Hu). pose proof (len_nonneg acc).
  rewrite (proj2 (Z.eqb_neq start (-1))) by lia.
  unfold SCOM_MSGBUF in *.
  rewrite (u32_small (sr_w s - start)) by (unfold is_u32; lia).
  rewrite (proj2 (Z.leb_gt (u32 (sizeof_ptr - 16)) _)) by (change (u32 (sizeof_ptr - 16)) with (2 ^ 32 - 12); lia).
  rewrite (proj2 (Z.leb_gt (sr_w s) start)) by lia. cbn [orb].
  assert (block_at msg start (x :: acc)) as Hk by (by apply block_at_cons).
  replace (sr_w s - start) with (len (x :: acc)) by (rewrite len_cons; lia).
  unfold memcpy. rewrite Hk. cbn [mbind option_bind].
  destruct (mem_write msg 0 (x :: acc)) as [m|] eqn:W;
    [| rewrite mem_write_ok in W by (rewrite ?len_cons; lia); done].
  cbn [mbind option_bind]. eexists. split; [reflexivity |].
  pose proof (mem_write_len _ _ _ _ W). apply mem_write_block_at, block_at_cons in W as [W1 W2].
  rewrite len_cons. split; [cbn; unfold SCOM_MSGBUF; lia |]. cbn.
  repeat (split; [lia |]). by eauto 10.
Qed.

(** ** Lemmas: scanning with the buffer limit *)

Lemma rx_scan_app a : forall st b,
  rx_scan st (a ++ b) =
    (fst (rx_scan (fst (rx_scan st a)) b),
     snd (rx_scan st a) ++ snd (rx_scan (fst (rx_scan st a)) b)).
Proof.
  induction a as [|x a IH]; intros st b; cbn [app rx_scan fst snd]; [by destruct (rx_scan st b) |].
  destruct (rx_byte st x) as [st1 p1]. rewrite IH.
  destruct (rx_scan st1 a) as [st2 p2]. simpl. by rewrite app_assoc.
Qed.

(** The bytes the open frame takes in the buffer. *)
Definition kept_len (st : option (list Z)) : Z :=
  match st with Some acc => 1 + len acc | None => 0 end.

Lemma scan_byte_kept st b : kept_len (fst (scan_byte st b)) <= kept_len st + 1.
Proof.
  unfold scan_byte. destruct (b =? DCCP_PKG_MARKER); destruct st as [acc|];
    try destruct (frame_payload acc); simpl; rewrite ?len_app;
    change (len (@nil Z)) with 0; change (len [b]) with 1; try pose proof (len_nonneg acc); lia.
Qed.

Lemma scan_kept d : forall st, kept_len (fst (scan st d)) <= kept_len st + len d.
Proof.
  induction d as [|b d IH]; intros st; cbn [scan].
  - change (len []) with 0. simpl. lia.
  - rewrite len_cons. pose proof (scan_byte_kept st b). destruct (scan_byte st b) as [st1 p1].
    specialize (IH st1). destruct (scan st1 d). simpl in *. lia.
Qed.

(** Below the limit the two scanners agree. *)
Lemma rx_byte_scan st b : kept_len st < SCOM_MSGBUF -> rx_byte st b = scan_byte st b.
Proof.
  destruct st as [acc|]; [| done]. simpl. intros. unfold rx_byte.
  by rewrite (proj2 (Z.leb_gt _ _)) by lia.
Qed.

Lemma rx_scan_scan d : forall st,
  kept_len st + len d <= SCOM_MSGBUF -> rx_scan st d = scan st d.
Proof.
  induction d as [|b d IH]; intros st; cbn [scan rx_scan]; [done |].
  rewrite len_cons. intros Hl. pose proof (len_nonneg d). pose proof (scan_byte_kept st b).
  rewrite rx_byte_scan by lia. destruct (scan_byte st b) as [st1 p1]. simpl in *.
  rewrite IH by lia. done.
Qed.

(** ** Lemmas: reading from the device *)

Lemma find_dccp_loop_shift n : forall buf off i,
  0 <= i ->
  msg_find_dccp_loop n buf off (i + 1) =
    (fun r => if r <? 0 then r else r + 1) <$> msg_find_dccp_loop n buf (off + 1) i.
Proof.
  induction n as [|n IH]; intros buf off i Hi; cbn [msg_find_dccp_loop]; [done |].
  replace (off + (i + 1)) with (off + 1 + i) by lia.
  destruct (mem_get buf (off + 1 + i)) as [b|]; [| done]. cbn [mbind option_bind].
  destruct (b =? DCCP_PKG_MARKER).
  - cbn. by rewrite (proj2 (Z.ltb_ge i 0)) by lia.
  - apply IH. lia.
Qed.

(** The first byte after an overflow only restarts the frame. *)
Lemma decode_loop_overflow n w msg out b :
  mem_get msg 0 = Some b -> 0 < w ->
  msg_decode_loop (S n) 0 w 0 msg out = msg_decode_loop (S n) 1 w 0 msg out \/
  msg_decode_loop (S n) 0 w 0 msg out = msg_decode_loop n 1 w 0 msg out.
Proof.
  intros Hg Hw. cbn [msg_decode_loop]. rewrite (proj2 (Z.ltb_lt 0 w)) by lia.
  unfold msg_find_dccp. replace (Z.to_nat (w - 0)) with (S (Z.to_nat (w - 1))) by lia.
  cbn [msg_find_dccp_loop]. change (0 + 0) with 0. rewrite Hg. cbn [mbind option_bind].
  destruct (Z.eqb_spec b DCCP_PKG_MARKER) as [->|Hne].
  - right. reflexivity.
  - left. rewrite find_dccp_loop_shift by lia. change (0 + 1) with 1.
    destruct (Z.ltb_spec 1 w) as [H1|H1].
    + destruct (msg_find_dccp_loop (Z.to_nat (w - 1)) msg 1 0) as [ret|]; [| done].
      cbn [fmap option_fmap option_map mbind option_bind].
      destruct (Z.ltb_spec ret 0) as [Hr|Hr]; [by rewrite (proj2 (Z.ltb_lt ret 0)) by lia |].
      rewrite (proj2 (Z.ltb_ge (ret + 1) 0)) by lia. change (0 =? -1) with false. cbv iota.
      by replace (0 + (ret + 1)) with (1 + ret) by lia.
    + replace w with 1 by lia. cbn. by destruct n.
Qed.

(** The decoder on a chunk stored behind the open frame. *)
Lemma msg_decode_append st s w got :
  scom_rx_rel st s -> sr_w s < SCOM_MSGBUF ->
  forall buf, mem_write (sr_buf s) (sr_w s) got = Some buf -> w = sr_w s + len got ->
  w <= SCOM_MSGBUF ->
  exists s', msg_decode {| s with sr_w := w; sr_buf := buf |} = Some (s', snd (rx_scan st got)) /\
    scom_rx_rel (fst (rx_scan st got)) s'.
Proof.
  intros [Hb Hst] Hlt buf W -> Hle. pose proof (mem_write_len _ _ _ _ W) as L.
  pose proof (mem_write_unchanged _ _ _ _ W) as U. apply mem_write_block_at in W.
  pose proof (len_nonneg got). set (s1 := {| s with sr_w := _; sr_buf := buf |}).
  assert (kept_len st = sr_w s /\ sr_r s = sr_w s) as [Hk Hr].
  { destruct st as [acc|]; simpl; lia. }
  assert (0 <= sr_w s) by (destruct st as [acc|]; simpl in Hk; [pose proof (len_nonneg acc) |]; lia).
  rewrite rx_scan_scan by lia. apply msg_decode_finish; [| cbn; lia | cbn; lia].
  apply decode_loop_spec; cbn; [done | | by rewrite Hr | lia | lia].
  destruct st as [acc|]; cbn [dec_rel]; [| by destruct Hst as (_ & _ & ->)].
  destruct Hst as (Hr' & Hw' & -> & _ & _ & (x & Hx & Hg) & Ha & Hu). pose proof (len_nonneg acc).
  split; [done |]. split; [lia |]. split.
  - exists x. split; [done |]. eapply mem_get_unchanged; [done | lia | done].
  - split; [| done]. eapply block_at_unchanged; [done | lia | done].
Qed.

(** The decoder on a chunk stored at the start after an overflow. *)
Lemma msg_decode_overflow acc s got buf :
  SCOM_MSGBUF <= 1 + len acc -> sr_start s = 0 -> len (sr_buf s) = SCOM_MSGBUF ->
  got <> [] -> len got <= SCOM_MSGBUF ->
  mem_write (sr_buf s) 0 got = Some buf ->
  exists s', msg_decode {| sr_r := 0; sr_w := len got; sr_start := sr_start s; sr_buf := buf |} =
      Some (s', snd (rx_scan (Some acc) got)) /\
    scom_rx_rel (fst (rx_scan (Some acc) got)) s'.
Proof.
  intros Hacc Hs Hb Hne Hle W. pose proof (mem_write_len _ _ _ _ W) as L.
  apply mem_write_block_at in W. destruct got as [|b t]; [done |].
  apply block_at_cons in W as [Hg Ht]. rewrite len_cons in Hle |- *. pose proof (len_nonneg t).
  cbn [rx_scan rx_byte]. rewrite (proj2 (Z.leb_le _ _)) by lia. cbv iota.
  rewrite (rx_scan_scan t (Some [])) by (simpl; change (len (@nil Z)) with 0; lia).
  rewrite Hs. destruct (scan (Some []) t) as [st2 p2] eqn:Es. cbn [fst snd app].
  replace st2 with (fst (scan (Some []) t)) by (by rewrite Es).
  replace p2 with (snd (scan (Some []) t)) by (by rewrite Es).
  apply msg_decode_finish; cbn; [| lia | lia].
  rewrite Z.sub_0_r. replace (Z.to_nat (1 + len t)) with (S (Z.to_nat (len t))) by lia.
  assert (forall m, len t <= Z.of_nat m ->
    decodes (fun _ => True) (Some []) t (1 + len t) buf [] (msg_decode_loop m 1 (1 + len t) 0 buf []))
    as Hd.
  { intros m Hm. apply decode_loop_spec; [done | | done | lia | done].
    split; [done |]. change (len (@nil Z)) with 0. split; [lia |]. split; [by exists b |].
    split; [apply block_at_nil; lia | constructor]. }
  destruct (decode_loop_overflow (Z.to_nat (len t)) (1 + len t) buf [] b Hg) as [-> | ->];
    [lia | apply Hd; lia | apply Hd; lia].
Qed.

(** One read from the device. *)
Lemma scom_main_recv_spec s st chunk :
  scom_rx_rel st s -> chunk <> [] ->
  exists got rest s', chunk = got ++ rest /\ got <> [] /\
    scom_main_recv s chunk = Some (s', snd (rx_scan st got), rest) /\
    scom_rx_rel (fst (rx_scan st got)) s'.
Proof.
  intros Hrel Hne. unfold scom_main_recv. pose proof Hrel as [Hb Hst].
  set (s0 := if SCOM_MSGBUF <=? sr_w s then _ else s).
  set (got := take (Z.to_nat (SCOM_MSGBUF - sr_w s0)) chunk).
  assert (0 <= sr_w s0 < SCOM_MSGBUF /\ sr_buf s0 = sr_buf s) as [Hw0 Hb0].
  { subst s0. assert (0 <= sr_w s) by (destruct st as [acc|]; [pose proof (len_nonneg acc) |]; lia).
    destruct (Z.leb_spec SCOM_MSGBUF (sr_w s)); cbn; (split; [unfold SCOM_MSGBUF in *; lia | done]). }
  assert (0 < len got <= SCOM_MSGBUF - sr_w s0) as Hgot.
  { subst got. rewrite len_take. destruct chunk; [done |]. rewrite len_cons.
    pose proof (len_nonneg chunk). lia. }
  destruct (mem_write (sr_buf s0) (sr_w s0) got) as [buf|] eqn:W;
    [| rewrite mem_write_ok in W by (rewrite ?Hb0; lia); done].
  cbn [mbind option_bind]. rewrite (proj2 (Z.ltb_lt 0 _)) by lia.
  assert (got <> []) as Hgn.
  { intros Hg. rewrite Hg in Hgot. change (len (@nil Z)) with 0 in Hgot. lia. }
  assert (exists s', msg_decode {| s0 with sr_w := sr_w s0 + len got; sr_buf := buf |} =
            Some (s', snd (rx_scan st got)) /\
            scom_rx_rel (fst (rx_scan st got)) s') as (s' & E & R).
  2:{ exists got, (drop (Z.to_nat (SCOM_MSGBUF - sr_w s0)) chunk), s'.
      rewrite E. cbn [mbind option_bind]. split; [symmetry; apply take_drop | done]. }
  revert Hgot Hgn Hw0 Hb0 W. generalize got. subst s0. clear got.
  destruct (Z.leb_spec SCOM_MSGBUF (sr_w s)) as [Hf|Hf]; cbn [sr_w sr_r sr_buf sr_start];
    intros got Hgot Hgn Hw0 Hb0 W.
  - destruct st as [acc|]; [| unfold SCOM_MSGBUF in *; lia].
    apply msg_decode_overflow; try done; lia.
  - eapply msg_decode_append; [done | lia | done | done | lia].
Qed.

Lemma scom_main_drain_spec n : forall s st chunk,
  scom_rx_rel st s -> (length chunk <= n)%nat ->
  exists s', scom_main_drain n s chunk = Some (s', snd (rx_scan st chunk), []) /\
    scom_rx_rel (fst (rx_scan st chunk)) s'.
Proof.
  induction n as [|n IH]; intros s st chunk Hrel Hn.
  { destruct chunk; [by exists s | simpl in Hn; lia]. }
  destruct (decide (chunk = [])) as [->|Hne]; [by exists s |].
  destruct (scom_main_recv_spec s st chunk Hrel Hne) as (got & rest & s1 & -> & Hg & E & R1).
  rewrite length_app in Hn. assert (0 < length got)%nat by (destruct got; [done | simpl; lia]).
  destruct (IH s1 _ rest R1) as (s2 & E2 & R2); [lia |]. exists s2.
  rewrite rx_scan_app. cbn [fst snd].
  destruct (got ++ rest) as [|c l] eqn:Egr; [by destruct got |].
  cbn [scom_main_drain]. rewrite E. cbn [mbind option_bind]. by rewrite E2.
Qed.

Lemma scom_rx_run_scan chunks : forall s st,
  scom_rx_rel st s ->
  exists s', scom_rx_run s chunks = Some (s', snd (rx_scan st (concat chunks))) /\
    scom_rx_rel (fst (rx_scan st (concat chunks))) s'.
Proof.
  induction chunks as [|c chunks IH]; intros s st Hrel; cbn [scom_rx_run concat]; [by exists s |].
  destruct (scom_main_drain_spec (length c) s st c Hrel) as (s1 & E & R1); [lia |].
  rewrite E. cbn [mbind option_bind]. destruct (IH s1 _ R1) as (s2 & E2 & R2).
  rewrite E2. exists s2. by rewrite rx_scan_app.
Qed.

(** C2: the receive path of the scom thread ([scom_dev_recv], [msg_decode] and
    the buffer handling of [scom_main]) refines a byte-wise scanner: however the
    bytes of the link are cut into chunks and reads, no access leaves the
    buffer, every byte is consumed, and the messages passed to the transport
    layer are those the scanner finds in the concatenated byte stream.  The
    scanner's only limit is the buffer size: an open frame that fills it is
    dropped together with the next byte. *)
Theorem scom_rx_refines_scan chunks :
  exists s', scom_rx_run scom_rx_init chunks = Some (s', snd (rx_scan None (concat chunks))) /\
    scom_rx_rel (fst (rx_scan None (concat chunks))) s'.
Proof. apply scom_rx_run_scan, scom_rx_init_rel. Qed.

(** ** Frames through the receiver *)

Lemma frame_len p : len (frame p) = len (escape (p ++ [xor_bytes 0 p])) + 2.
Proof. unfold frame. rewrite !len_app. change (len [DCCP_PKG_MARKER]) with 1. lia. Qed.

(** A frame after a marker or outside of a frame is delivered. *)
Lemma scan_frame st p :
  st = None \/ st = Some [] -> scan st (frame p) = (None, [p]).
Proof.
  intros Hst. unfold frame.
  transitivity (scan (Some []) (escape (p ++ [xor_bytes 0 p]) ++ [DCCP_PKG_MARKER])).
  - destruct Hst as [-> | ->]; exact (scan_marker _ [] _ (Forall_nil_2 _)).
  - rewrite scan_marker by apply escape_unmarked. cbn [app]. by rewrite frame_payload_escape.
Qed.

Lemma rx_scan_frame st p :
  st = None \/ st = Some [] -> len (frame p) < SCOM_MSGBUF -> rx_scan st (frame p) = (None, [p]).
Proof.
  intros Hst Hl. rewrite rx_scan_scan; [by apply scan_frame |].
  destruct Hst as [-> | ->]; simpl; change (len (@nil Z)) with 0; lia.
Qed.

(** C9: round trip of the link: the frames of any messages (each below the
    buffer size when escaped), cut into chunks in any way, are received as
    exactly these messages in order, and the receiver is empty again. *)
Theorem scom_rx_roundtrip ps chunks :
  Forall (fun p => len (frame p) < SCOM_MSGBUF) ps ->
  concat chunks = concat (map frame ps) ->
  exists s', scom_rx_run scom_rx_init chunks = Some (s', ps) /\ scom_rx_rel None s'.
Proof.
  intros Hps Hc. destruct (scom_rx_run_scan chunks _ _ scom_rx_init_rel) as (s' & E & R). exists s'.
  assert (rx_scan None (concat chunks) = (None, ps)) as Es; [| by rewrite E, Es in *].
  rewrite Hc. clear -Hps. induction Hps as [|p ps Hp Hps IH]; [done |].
  cbn [map concat]. rewrite rx_scan_app, rx_scan_frame by auto. cbn [fst snd]. by rewrite IH.
Qed.

Lemma rx_marker_state st :
  fst (rx_byte st DCCP_PKG_MARKER) = None \/ fst (rx_byte st DCCP_PKG_MARKER) = Some [].
Proof.
  assert (fst (scan_byte st DCCP_PKG_MARKER) = None \/ fst (scan_byte st DCCP_PKG_MARKER) = Some []).
  { unfold scan_byte. rewrite Z.eqb_refl. destruct st as [acc|]; [| by right].
    destruct (frame_payload acc); [by left | by right]. }
  destruct st as [acc|]; [| done]. unfold rx_byte. destruct (_ <=? _); [by right | done].
Qed.

(** The link resynchronises: whatever bytes were received before, after any
    marker the next complete frame is delivered (as the last message) and the
    receiver is empty. *)
Theorem scom_rx_resync noise p chunks :
  len (frame p) < SCOM_MSGBUF ->
  concat chunks = noise ++ [DCCP_PKG_MARKER] ++ frame p ->
  exists s' before, scom_rx_run scom_rx_init chunks = Some (s', before ++ [p]) /\
    scom_rx_rel None s'.
Proof.
  intros Hl Hc. destruct (scom_rx_run_scan chunks _ _ scom_rx_init_rel) as (s' & E & R).
  rewrite Hc, rx_scan_app, (rx_scan_app [_]) in *. cbn [fst snd] in *.
  set (st := fst (rx_scan None noise)) in *.
  assert (fst (rx_scan st [DCCP_PKG_MARKER]) = fst (rx_byte st DCCP_PKG_MARKER)) as E1.
  { cbn [rx_scan]. by destruct (rx_byte st DCCP_PKG_MARKER). }
  pose proof (rx_marker_state st) as Hst. rewrite <- E1 in Hst.
  rewrite rx_scan_frame in E, R by done. exists s'. eexists.
  rewrite E, app_assoc. done.
Qed.

Lemma msg_encode_two_segments_lemma hdr body blen o olen cs :
  segment_ok (Some hdr) (len hdr) -> segment_ok body blen ->
  1 <= olen < 2 ^ 31 -> olen <= len o ->
  let f := frame (hdr ++ segment body blen) in
  let n1 := len (escape hdr) + 1 in
  exists o1 cs1,
    msg_encode (Some hdr) (len hdr) o 0 olen FIRST_SEG cs =
      Some (if n1 <=? olen then n1 else -1, o1, cs1) /\ len o1 = len o /\
    (n1 <= olen ->
     exists o2 cs2,
       msg_encode body blen o1 n1 (olen - n1) LAST_SEG cs1 =
         Some (if len f <=? olen then len f - n1 else -1, o2, cs2) /\ len o2 = len o /\
       (len f <= olen -> mem_write o 0 f = Some o2)).
Proof.
  intros Hh Hb Hol Hl f n1.
  destruct (msg_encode_first_spec (Some hdr) (len hdr) o 0 olen cs) as (o1 & cs1 & E1 & L1 & W1);
    [done | lia | lia | lia |].
  assert (segment (Some hdr) (len hdr) = hdr) as Es.
  { unfold segment, len. rewrite Nat2Z.id. apply take_ge. lia. }
  rewrite Es, len_app in *. change (len [DCCP_PKG_MARKER]) with 1 in *.
  replace (1 + len (escape hdr)) with n1 in * by lia.
  exists o1, cs1. split; [done |]. split; [done |]. intros Hn1. destruct W1 as [W1 ->]; [done |].
  pose proof (len_nonneg (escape hdr)).
  destruct (msg_encode_last_spec body blen o1 n1 (olen - n1) (xor_bytes 0 hdr))
    as (o2 & cs2 & E2 & L2 & W2); [done | lia | lia | lia |].
  set (e := escape (segment body blen ++ [xor_bytes (xor_bytes 0 hdr) (segment body blen)]) ++ _) in *.
  assert (f = ([DCCP_PKG_MARKER] ++ escape hdr) ++ e) as Hf.
  { unfold f, frame, e. by rewrite xor_bytes_app, <- (app_assoc hdr), (escape_app hdr), <- !app_assoc. }
  assert (len f = n1 + len e) as Hlf.
  { rewrite Hf, !len_app. change (len [DCCP_PKG_MARKER]) with 1. unfold n1. lia. }
  exists o2, cs2. rewrite E2. split; [| split; [lia |]].
  - do 3 f_equal. repeat case_bool; lia.
  - intros Hfit. rewrite Hf. eapply mem_write_app; [exact W1 |].
    rewrite len_app. change (len [DCCP_PKG_MARKER]) with 1. replace (0 + (1 + len (escape hdr))) with n1 by lia.
    apply W2. lia.
Qed.

(** The encoder: a header and a body encoded as first and last segment
    produce the frame of their concatenation at the given offset if it fits
    into [olen] bytes; otherwise the second or the first call returns -1.  No
    access leaves the block, and the checksum carried over between the calls is
    that of the header. *)
Theorem msg_encode_two_segments hdr body blen o olen cs :
  segment_ok (Some hdr) (len hdr) -> segment_ok body blen ->
  1 <= olen < 2 ^ 31 -> olen <= len o ->
  let f := frame (hdr ++ segment body blen) in
  let n1 := len (escape hdr) + 1 in
  exists o1 cs1,
    msg_encode (Some hdr) (len hdr) o 0 olen FIRST_SEG cs =
      Some (if n1 <=? olen then n1 else -1, o1, cs1) /\ len o1 = len o /\
    (n1 <= olen ->
     exists o2 cs2,
       msg_encode body blen o1 n1 (olen - n1) LAST_SEG cs1 =
         Some (if len f <=? olen then len f - n1 else -1, o2, cs2) /\ len o2 = len o /\
       (len f <= olen -> mem_write o 0 f = Some o2)).
Proof. apply msg_encode_two_segments_lemma. Qed.

(** ** Witnesses *)

Lemma msg_decodex_refines_scan_witness :
  let d := frame [1; 0x7E; 3] ++ [0x7E; 9] in
  let rx := {| rx_used := len d; rx_size := 64; rx_data := d ++ replicate (64 - length d) 0 |} in
  msg_rx_holds rx d /\
  exists rx', msg_decodex rx = Some (rx', snd (scan None d)) /\ rx_size rx' = rx_size rx /\
    msg_rx_holds rx' (decodex_keeps (rx_size rx) (fst (scan None d))).
Proof.
  cbv zeta. split; [split; [reflexivity | split; reflexivity] |].
  apply msg_decodex_refines_scan. split; [reflexivity | split; reflexivity].
Defined.

Lemma scom_rx_roundtrip_witness :
  exists s', scom_rx_run scom_rx_init [[0x7E; 5; 0x7D]; [2; 0x7B; 0x7E]] = Some (s', [[5; 0x7E]]) /\
    scom_rx_rel None s'.
Proof.
  apply scom_rx_roundtrip; [| reflexivity]. constructor; [| constructor]. reflexivity.
Defined.

Lemma scom_rx_resync_witness :
  exists s' before,
    scom_rx_run scom_rx_init [[1; 0x7E; 7]; [0x7E]; frame [4; 4]] = Some (s', before ++ [[4; 4]]) /\
    scom_rx_rel None s'.
Proof. apply (scom_rx_resync [1; 0x7E; 7]); reflexivity. Defined.

Lemma msg_encode_two_segments_witness :
  let f := frame ([1; 2] ++ segment (Some [0x7E]) 1) in
  let n1 := len (escape [1; 2]) + 1 in
  exists o1 cs1,
    msg_encode (Some [1; 2]) (len [1; 2]) (replicate 16 0) 0 16 FIRST_SEG 0 =
      Some (if n1 <=? 16 then n1 else -1, o1, cs1) /\ len o1 = len (replicate 16 0) /\
    (n1 <= 16 ->
     exists o2 cs2,
       msg_encode (Some [0x7E]) 1 o1 n1 (16 - n1) LAST_SEG cs1 =
         Some (if len f <=? 16 then len f - n1 else -1, o2, cs2) /\ len o2 = len (replicate 16 0) /\
       (len f <= 16 -> mem_write (replicate 16 0) 0 f = Some o2)).
Proof.
  apply (msg_encode_two_segments [1; 2] (Some [0x7E]) 1 (replicate 16 0) 16 0);
    repeat split; vm_compute; congruence.
Defined.
