(* ===== verification/Scom.v ===== *)
(** * Transport layer between the two processors (src/app/base/scom/scom_tl.c)

    The state machine of the serial transport: connection set-up, single
    messages, and the bulk transfer, in which a server answers data requests with
    frames of [SCOM_TL_FRAME_LEN] bytes cut from its ring buffer and a client
    collects them in order.  The state is the set of static variables of
    scom_tl.c, with a log of the bytes given to the device and of the messages
    given to the registered handlers. *)

From S2P Require Import Prelude RingBuffer Framing.

Definition SCOM_TL_FRAME_LEN : Z := 242.
Definition SCOM_TL_CHN_NUM : Z := 10.

Inductive SCOM_TL_STATE :=
| SCOM_TL_STATE_DISCONNECTED
| SCOM_TL_STATE_CONNECTING
| SCOM_TL_STATE_IDLE
| SCOM_TL_STATE_SERVER_STARTED
| SCOM_TL_STATE_CLIENT_STARTED.

#[export] Instance SCOM_TL_STATE_eq_dec : EqDecision SCOM_TL_STATE.
Proof. solve_decision. Defined.

(** The value of the enumerator. *)
Definition state_num (s : SCOM_TL_STATE) : Z :=
  match s with
  | SCOM_TL_STATE_DISCONNECTED => 0
  | SCOM_TL_STATE_CONNECTING => 1
  | SCOM_TL_STATE_IDLE => 2
  | SCOM_TL_STATE_SERVER_STARTED => 3
  | SCOM_TL_STATE_CLIENT_STARTED => 4
  end.

Definition SCOM_TL_SINGLE_FRAME : Z := 0.
Definition SCOM_TL_START_FRAME : Z := 1.
Definition SCOM_TL_MIDDLE_FRAME : Z := 2.
Definition SCOM_TL_LAST_FRAME : Z := 3.

Definition SCOM_TL_RET_SERVER_NOT_START : Z := 3.
Definition SCOM_TL_RET_DATA_UNAVAILABLE : Z := 4.
Definition SCOM_TL_RET_INVALID_FNO : Z := 5.

(** Message types (scom_msg_def.h). *)
Definition SCOM_TL_CMD_CON_REQ : Z := 0.
Definition SCOM_TL_CMD_CON_RES : Z := 1.
Definition SCOM_TL_DATA_REQ : Z := 2.
Definition SCOM_TL_DATA_OK_RES : Z := 3.
Definition SCOM_TL_DATA_NG_RES : Z := 4.
Definition SCOM_TL_CMD_HEARTBEAT : Z := 14.
Definition SCOM_TL_CHN_DEV : Z := 3.
Definition SCOM_TL_CMD_GET_TIME : Z := Z.shiftl SCOM_TL_CHN_DEV 4 + 4.

Record SCOM_TL_RX_CTL := {
  ctl_used : Z; ctl_rx_len : Z; ctl_rx_ftype : Z; ctl_rx_flen : Z;
  ctl_rx_fno : Z; ctl_req_fno : Z; ctl_req_fcnt : Z
}.

(** [memset] to zero and [rx_fno = -1]. *)
Definition rx_ctl_init : SCOM_TL_RX_CTL :=
  {| ctl_used := 0; ctl_rx_len := 0; ctl_rx_ftype := 0; ctl_rx_flen := 0;
     ctl_rx_fno := -1; ctl_req_fno := 0; ctl_req_fcnt := 0 |}.

(** The static variables, and what the calls out of the module did. *)
Record SCOM := {
  tl_status : SCOM_TL_STATE;
  tl_tx_rb : ring_buffer;
  tl_rx_rb : ring_buffer;
  tl_rx_ctl : SCOM_TL_RX_CTL;
  tl_tx_fun : bool;               (* scom_tl_tx_fun is registered *)
  tl_proc_fun : list bool;        (* scom_tl_proc_fun[chn] is registered *)
  tl_get_time : Z;                (* static get_time of scom_tl_proc_con_req *)
  tl_frame : list Z;              (* static frame of scom_tl_proc_data_req *)
  tl_timer : option Z;            (* the armed scom_tl_resend_timer *)
  tl_sent : list (list Z);        (* blocks given to scom_tl_tx_fun, oldest first *)
  tl_calls : list (Z * list Z)    (* handler calls: channel, message *)
}.

Abbreviation SM := (ST SCOM).

Definition set_status (x : SCOM_TL_STATE) : SM unit := st_mod (fun s => {| s with tl_status := x |}).
Definition set_ctl (x : SCOM_TL_RX_CTL) : SM unit := st_mod (fun s => {| s with tl_rx_ctl := x |}).
Definition set_tx_rb (x : ring_buffer) : SM unit := st_mod (fun s => {| s with tl_tx_rb := x |}).
Definition set_rx_rb (x : ring_buffer) : SM unit := st_mod (fun s => {| s with tl_rx_rb := x |}).
Definition tm_start_resend (ms : Z) : SM unit := st_mod (fun s => {| s with tl_timer := Some ms |}).
Definition tm_stop_resend : SM unit := st_mod (fun s => {| s with tl_timer := None |}).

Definition scom_tl_reg_tx_fun : SM unit := st_mod (fun s => {| s with tl_tx_fun := true |}).

Definition scom_tl_reg_proc_fun (chn : Z) (f : bool) : SM Z :=
  if SCOM_TL_CHN_NUM <=? chn then mret (-1)
  else
    s ← st_get;
    l ← st_lift (mem_set (tl_proc_fun s) chn f);
    st_mod (fun s => {| s with tl_proc_fun := l |});; mret 0.

Definition scom_tl_get_state : SM Z := st_gets (fun s => state_num (tl_status s)).

(** [SCOM_TL_MSG_HDR] in memory (little endian, no padding). *)
Definition SCOM_TL_MSG_HDR (msg_type frame_type frame_no len : Z) : list Z :=
  [u8 msg_type; u8 frame_type] ++ le16 (u16 frame_no) ++ le16 (u16 len).

Definition SIZEOF_HDR : Z := 6.

(** [omsg], 512 bytes of uninitialised stack; its initial contents do not
    matter. *)
Definition omsg0 : list Z := replicate 512 0.

Definition scom_tl_send_frame (msg_type frame_type frame_no : Z)
    (data : option (list Z)) (n : Z) : SM Z :=
  let msg_hdr := SCOM_TL_MSG_HDR msg_type frame_type frame_no n in
  '(ret, omsg, cs) ← st_lift (msg_encode (Some msg_hdr) SIZEOF_HDR omsg0 0 512 FIRST_SEG 0);
  if ret <=? 0 then mret (-1) else
  let msg_len := ret in
  '(ret, omsg, cs) ← st_lift (msg_encode data n omsg msg_len (512 - msg_len) LAST_SEG cs);
  if ret <=? 0 then mret (-1) else
  let msg_len := msg_len + ret in
  s ← st_get;
  (if tl_tx_fun s then
     buf ← st_lift (mem_read omsg 0 msg_len);
     st_mod (fun s => {| s with tl_sent := tl_sent s ++ [buf] |})
   else mret tt);;
  mret 0.

Definition scom_tl_send_con_req : SM unit :=
  _ ← scom_tl_send_frame SCOM_TL_CMD_CON_REQ SCOM_TL_SINGLE_FRAME 0 None 0;
  tm_start_resend 1000;;
  set_status SCOM_TL_STATE_CONNECTING.

Definition scom_tl_send_con_res : SM unit :=
  _ ← scom_tl_send_frame SCOM_TL_CMD_CON_RES SCOM_TL_SINGLE_FRAME 0 None 0; mret tt.

Definition scom_tl_proc_con_req : SM unit :=
  scom_tl_send_con_res;;
  s ← st_get;
  st_when (state_num (tl_status s) <? state_num SCOM_TL_STATE_IDLE)
    (set_status SCOM_TL_STATE_IDLE);;
  s ← st_get;
  st_when (negb (tl_get_time s =? 0))
    (_ ← scom_tl_send_frame SCOM_TL_CMD_GET_TIME SCOM_TL_SINGLE_FRAME 0 None 0;
     st_mod (fun s => {| s with tl_get_time := u8 (tl_get_time s - 1) |})).

Definition scom_tl_proc_con_res : SM unit :=
  s ← st_get;
  st_when (state_num (tl_status s) <=? state_num SCOM_TL_STATE_IDLE)
    (tm_stop_resend;;
     set_status SCOM_TL_STATE_IDLE;;
     _ ← scom_tl_send_frame SCOM_TL_CMD_GET_TIME SCOM_TL_SINGLE_FRAME 0 None 0; mret tt).

Definition scom_tl_send_msg (msg_type : Z) (data : option (list Z)) (n : Z) : SM Z :=
  if SCOM_TL_FRAME_LEN <? n then mret (-1)
  else scom_tl_send_frame msg_type SCOM_TL_SINGLE_FRAME 0 data n.

(** [SCOM_TL_DATA_REQ_MSG] and [SCOM_TL_NG_RES_MSG]: two 16-bit fields. *)
Definition two_u16 (a b : Z) : list Z := le16 (u16 a) ++ le16 (u16 b).

Definition scom_tl_send_data_req : SM unit :=
  s ← st_get;
  let ctl := tl_rx_ctl s in
  if SCOM_TL_LAST_FRAME =? ctl_rx_ftype ctl then mret tt
  else
    let unused := rb_unused_len (tl_rx_rb s) in
    st_when (SCOM_TL_FRAME_LEN <=? unused)
      (let fno := u16 (ctl_rx_fno ctl + 1) in
       let fcnt := u16 (unused / SCOM_TL_FRAME_LEN) in
       let fcnt := if 5 <? fcnt then 5 else fcnt in
       set_ctl {| ctl with ctl_req_fcnt := fcnt; ctl_req_fno := fno |};;
       _ ← scom_tl_send_frame SCOM_TL_DATA_REQ SCOM_TL_SINGLE_FRAME 0 (Some (two_u16 fno fcnt)) 4;
       tm_start_resend 1000).

Definition scom_tl_start_server (data : option (list Z)) (n : Z) : SM Z :=
  s ← st_get;
  if decide (tl_status s = SCOM_TL_STATE_SERVER_STARTED) then mret (-1)
  else
    rb ← st_lift (rb_clean (Some (tl_tx_rb s)));
    set_tx_rb rb;;
    if rb_unused_len rb <? n then mret (-1)
    else
      '(_, orb) ← st_lift (rb_in (Some rb) data n);
      set_tx_rb (default rb orb);;
      set_status SCOM_TL_STATE_SERVER_STARTED;;
      mret 0.

Definition scom_tl_stop_server : SM unit :=
  s ← st_get;
  rb ← st_lift (rb_clean (Some (tl_tx_rb s)));
  set_tx_rb rb;;
  set_status SCOM_TL_STATE_IDLE.

Definition scom_tl_start_client : SM Z :=
  s ← st_get;
  if decide (tl_status s = SCOM_TL_STATE_CLIENT_STARTED) then mret (-1)
  else
    rb ← st_lift (rb_clean (Some (tl_rx_rb s)));
    set_rx_rb rb;;
    set_ctl rx_ctl_init;;
    scom_tl_send_data_req;;
    set_status SCOM_TL_STATE_CLIENT_STARTED;;
    mret 0.

Definition scom_tl_stop_client : SM unit :=
  s ← st_get;
  rb ← st_lift (rb_clean (Some (tl_rx_rb s)));
  set_rx_rb rb;;
  set_ctl rx_ctl_init;;
  set_status SCOM_TL_STATE_IDLE.

(** The loop of [scom_tl_proc_data_req] from [i] on; [n] bounds the iterations
    left.  The branch [fno + i > max_fno] of the code is excluded by the loop
    condition. *)
Fixpoint data_req_loop (n : nat) (i fno fcnt max_fno : Z) : SM Z :=
  match n with
  | O => mret 0
  | S n =>
      if (i <? fcnt) && (fno + i <=? max_fno) then
        let ftype :=
          if 0 =? fno + i then
            if 0 =? max_fno then SCOM_TL_SINGLE_FRAME else SCOM_TL_START_FRAME
          else if max_fno =? fno + i then SCOM_TL_LAST_FRAME
          else SCOM_TL_MIDDLE_FRAME in
        s ← st_get;
        '(ret, fr) ← st_lift (rb_get (Some (tl_tx_rb s)) (Some (tl_frame s))
                        (u32 ((fno + i) * SCOM_TL_FRAME_LEN)) SCOM_TL_FRAME_LEN);
        let fr := default (tl_frame s) fr in
        st_mod (fun s => {| s with tl_frame := fr |});;
        if ret <=? 0 then mret (-1)
        else
          _ ← scom_tl_send_frame SCOM_TL_DATA_OK_RES ftype (fno + i) (Some fr) ret;
          data_req_loop n (i + 1) fno fcnt max_fno
      else mret 0
  end.

(** [msg] is the block from the message on, with the header. *)
Definition scom_tl_proc_data_req (msg : list Z) (n : Z) : SM Z :=
  s ← st_get;
  if decide (tl_status s <> SCOM_TL_STATE_SERVER_STARTED) then
    _ ← scom_tl_send_msg SCOM_TL_DATA_NG_RES (Some (two_u16 SCOM_TL_RET_SERVER_NOT_START 0)) 4;
    mret (-1)
  else if rb_empty (tl_tx_rb s) then
    _ ← scom_tl_send_msg SCOM_TL_DATA_NG_RES (Some (two_u16 SCOM_TL_RET_DATA_UNAVAILABLE 0)) 4;
    mret (-1)
  else
    let used := rb_used_len (tl_tx_rb s) in
    let max_fno := u16 (if negb (used mod SCOM_TL_FRAME_LEN =? 0) then used / SCOM_TL_FRAME_LEN
                        else used / SCOM_TL_FRAME_LEN - 1) in
    fno ← st_lift (get_le16 msg SIZEOF_HDR);
    if max_fno <? fno then
      _ ← scom_tl_send_msg SCOM_TL_DATA_NG_RES (Some (two_u16 SCOM_TL_RET_INVALID_FNO max_fno)) 4;
      mret (-1)
    else
      fcnt ← st_lift (get_le16 msg (SIZEOF_HDR + 2));
      data_req_loop (Z.to_nat fcnt) 0 fno fcnt max_fno.

Definition scom_tl_proc_data_ok_res (msg : list Z) (n : Z) : SM unit :=
  fno ← st_lift (get_le16 msg 2);
  s ← st_get;
  let ctl := tl_rx_ctl s in
  if negb (fno =? ctl_rx_fno ctl + 1) then mret tt
  else
    flen ← st_lift (get_le16 msg 4);
    ftype ← st_lift (mem_get msg 1);
    set_ctl {| ctl with ctl_used := 1; ctl_rx_fno := fno; ctl_rx_flen := flen;
                        ctl_rx_ftype := ftype; ctl_rx_len := u32 (ctl_rx_len ctl + flen) |};;
    '(_, orb) ← st_lift (rb_in (Some (tl_rx_rb s)) (Some (drop (Z.to_nat SIZEOF_HDR) msg)) flen);
    set_rx_rb (default (tl_rx_rb s) orb);;
    if SCOM_TL_LAST_FRAME =? ftype then tm_stop_resend
    else st_when (fno =? u32 (ctl_req_fno ctl + ctl_req_fcnt ctl))
           (tm_stop_resend;; scom_tl_send_data_req).

Definition scom_tl_proc_data_ng_res : SM unit := tm_stop_resend.

Definition scom_tl_msg_proc (msg : list Z) (n : Z) : SM unit :=
  msg_type ← st_lift (mem_get msg 0);
  if msg_type =? SCOM_TL_DATA_REQ then _ ← scom_tl_proc_data_req msg n; mret tt
  else if msg_type =? SCOM_TL_DATA_OK_RES then scom_tl_proc_data_ok_res msg n
  else if msg_type =? SCOM_TL_DATA_NG_RES then scom_tl_proc_data_ng_res
  else if msg_type =? SCOM_TL_CMD_CON_REQ then scom_tl_proc_con_req
  else if msg_type =? SCOM_TL_CMD_CON_RES then scom_tl_proc_con_res
  else
    let chn := Z.shiftr (Z.land msg_type 0xf0) 4 in
    if SCOM_TL_CHN_NUM <=? chn then mret tt
    else
      s ← st_get;
      f ← st_lift (mem_get (tl_proc_fun s) chn);
      st_when f (p ← st_lift (mem_read msg 0 n);
                 st_mod (fun s => {| s with tl_calls := tl_calls s ++ [(chn, p)] |})).

Definition scom_tl_timeout_proc : SM unit :=
  s ← st_get;
  st_when (bool_decide (tl_status s = SCOM_TL_STATE_DISCONNECTED)
           || bool_decide (tl_status s = SCOM_TL_STATE_CONNECTING))
    scom_tl_send_con_req.

(** Returns the value of the call, [*fin] and the caller's block. *)
Definition scom_tl_get_data (buffer : list Z) (n : Z) : SM (Z * Z * list Z) :=
  s ← st_get;
  if decide (tl_status s <> SCOM_TL_STATE_CLIENT_STARTED) then mret (-1, 1, buffer)
  else if rb_empty (tl_rx_rb s) then
    mret (0, if SCOM_TL_LAST_FRAME =? ctl_rx_ftype (tl_rx_ctl s) then 1 else 0, buffer)
  else
    '(ret, orb, ob) ← st_lift (rb_out (Some (tl_rx_rb s)) (Some buffer) n);
    set_rx_rb (default (tl_rx_rb s) orb);;
    let buffer := default buffer ob in
    if ret <=? 0 then mret (0, 0, buffer)
    else
      st_when (negb (SCOM_TL_LAST_FRAME =? ctl_rx_ftype (tl_rx_ctl s))) scom_tl_send_data_req;;
      s ← st_get;
      if (SCOM_TL_LAST_FRAME =? ctl_rx_ftype (tl_rx_ctl s)) && rb_empty (tl_rx_rb s)
      then scom_tl_stop_client;; mret (ret, 1, buffer)
      else mret (ret, 0, buffer).

Inductive INIT_PHASE := INIT_PHASE_INSIDE | INIT_PHASE_RESTORE | INIT_PHASE_OUTSIDE.

(** [tm_ret] is what [tm_create] returns. *)
Definition scom_tl_init (tm_ret : Z) (phase : INIT_PHASE) : SM Z :=
  match phase with
  | INIT_PHASE_INSIDE =>
      s ← st_get;
      let tx := replicate (Z.to_nat (512 * 1024)) 0 in
      let rx := replicate (Z.to_nat (2 * 1024)) 0 in
      set_tx_rb (snd (rb_init (tl_tx_rb s) tx (512 * 1024)));;
      set_ctl rx_ctl_init;;
      set_rx_rb (snd (rb_init (tl_rx_rb s) rx (2 * 1024)));;
      st_mod (fun s => {| s with tl_tx_fun := false;
                                 tl_proc_fun := replicate (Z.to_nat SCOM_TL_CHN_NUM) false |});;
      mret 0
  | INIT_PHASE_RESTORE => mret 0
  | INIT_PHASE_OUTSIDE =>
      if negb (tm_ret =? 0) then mret tm_ret
      else scom_tl_send_con_req;; mret 0
  end.

(** ** Specification *)

(** The bytes of a transport message on the wire. *)
Definition tl_frame_bytes (msg_type ftype fno : Z) (data : list Z) : list Z :=
  frame (SCOM_TL_MSG_HDR msg_type ftype fno (len data) ++ data).

(** The state after a block was given to the device. *)
Definition tl_log (f : list Z) (s : SCOM) : SCOM :=
  if tl_tx_fun s then {| s with tl_sent := tl_sent s ++ [f] |} else s.

(** The frames of the server: frame [i] of [data] and its type. *)
Definition data_slice (data : list Z) (i : Z) : list Z :=
  take (Z.to_nat SCOM_TL_FRAME_LEN) (drop (Z.to_nat (i * SCOM_TL_FRAME_LEN)) data).

Definition last_fno (data : list Z) : Z := (len data - 1) / SCOM_TL_FRAME_LEN.

Definition slice_type (data : list Z) (i : Z) : Z :=
  if i =? 0 then if last_fno data =? 0 then SCOM_TL_SINGLE_FRAME else SCOM_TL_START_FRAME
  else if i =? last_fno data then SCOM_TL_LAST_FRAME else SCOM_TL_MIDDLE_FRAME.

Definition server_frame (data : list Z) (i : Z) : list Z :=
  tl_frame_bytes SCOM_TL_DATA_OK_RES (slice_type data i) i (data_slice data i).

(** A server that offers [data]. *)
Definition serving (s : SCOM) (data : list Z) : Prop :=
  tl_status s = SCOM_TL_STATE_SERVER_STARTED /\ rb_wf (tl_tx_rb s) /\
  rb_opos (tl_tx_rb s) = 0 /\ contents (tl_tx_rb s) = data /\
  rb_size (tl_tx_rb s) = 512 * 1024 /\ len (tl_frame s) = SCOM_TL_FRAME_LEN.

(** Execution with the record updates reduced. *)
Ltac tl_run :=
  unfold set_status, set_ctl, set_tx_rb, set_rx_rb, tm_start_resend, tm_stop_resend; st_run;
  cbn [tl_status tl_tx_rb tl_rx_rb tl_rx_ctl tl_tx_fun tl_proc_fun tl_get_time tl_frame tl_timer
       tl_sent tl_calls ctl_used ctl_rx_len ctl_rx_ftype ctl_rx_flen ctl_rx_fno ctl_req_fno ctl_req_fcnt].

(** ** Lemmas: sending *)

Lemma hdr_len t ft no n : len (SCOM_TL_MSG_HDR t ft no n) = SIZEOF_HDR.
Proof. done. Qed.

Lemma segment_all (d : list Z) : segment (Some d) (len d) = d.
Proof. unfold segment, len. rewrite Nat2Z.id. apply take_ge. lia. Qed.

Lemma frame_len_bound p : len p + 3 <= len (frame p) <= 2 * len p + 4.
Proof.
  rewrite frame_len. pose proof (escape_len (p ++ [xor_bytes 0 p])) as H.
  rewrite len_app in H. change (len [xor_bytes 0 p]) with 1 in H. lia.
Qed.

(** [scom_tl_send_frame] puts one frame on the wire, or fails if the escaped
    message does not fit into 512 bytes. *)
Lemma send_frame_run t ft no data n s :
  segment_ok data n ->
  let f := frame (SCOM_TL_MSG_HDR t ft no n ++ segment data n) in
  scom_tl_send_frame t ft no data n s =
    if len f <=? 512 then Some (0, tl_log f s) else Some (-1, s).
Proof.
  intros Hd f. unfold scom_tl_send_frame. set (hdr := SCOM_TL_MSG_HDR t ft no n) in *.
  destruct (msg_encode_two_segments_lemma hdr data n omsg0 512 0) as (o1 & cs1 & E1 & L1 & H2);
    [by split | done | lia | done |].
  change (len hdr) with SIZEOF_HDR in E1.
  pose proof (escape_len hdr) as He. change (len hdr) with 6 in He.
  rewrite (proj2 (Z.leb_le _ 512)) in E1 by lia.
  rewrite E1. st_run. rewrite (proj2 (Z.leb_gt _ 0)) by lia.
  destruct H2 as (o2 & cs2 & E2 & L2 & W); [lia |].
  fold f in E2, W. st_run. rewrite E2. st_run. destruct (Z.leb_spec (len f) 512) as [Hf|Hf].
  2:{ done. }
  specialize (W Hf).
  assert (0 < len f - (len (escape hdr) + 1)) as Hpos.
  { unfold f. rewrite frame_len, <- app_assoc, escape_app, len_app.
    pose proof (len_nonneg (escape (segment data n ++ [xor_bytes 0 (hdr ++ segment data n)]))). lia. }
  rewrite (proj2 (Z.leb_gt _ 0)) by lia. st_run.
  apply mem_write_block_at in W. unfold block_at in W.
  replace (len (escape hdr) + 1 + (len f - (len (escape hdr) + 1))) with (len f) by lia.
  rewrite W. destruct (tl_tx_fun s) eqn:Et; st_run; unfold tl_log; by rewrite Et.
Qed.

Lemma tl_log_tx f s : tl_tx_fun s = true -> tl_log f s = {| s with tl_sent := tl_sent s ++ [f] |}.
Proof. intros H. unfold tl_log. by rewrite H. Qed.

(** A message of at most 248 bytes always fits. *)
Lemma send_frame_ok t ft no data n s :
  segment_ok data n -> n = len (segment data n) -> n <= 248 ->
  scom_tl_send_frame t ft no data n s =
    Some (0, tl_log (tl_frame_bytes t ft no (segment data n)) s).
Proof.
  intros Hd Hn Hl. rewrite send_frame_run by done. unfold tl_frame_bytes. rewrite <- Hn.
  pose proof (frame_len_bound (SCOM_TL_MSG_HDR t ft no n ++ segment data n)) as H.
  rewrite len_app, hdr_len in H. unfold SIZEOF_HDR in H.
  by rewrite (proj2 (Z.leb_le _ 512)) by lia.
Qed.

Lemma send_frame_data t ft no data s :
  len data <= 248 ->
  scom_tl_send_frame t ft no (Some data) (len data) s =
    Some (0, tl_log (tl_frame_bytes t ft no data) s).
Proof.
  intros Hl. pose proof (len_nonneg data). rewrite send_frame_ok; rewrite ?segment_all; try done.
  split; [lia | done].
Qed.

Lemma send_frame_empty t ft no s :
  scom_tl_send_frame t ft no None 0 s = Some (0, tl_log (tl_frame_bytes t ft no []) s).
Proof. rewrite send_frame_ok; [done | split; [lia | done] | done | done]. Qed.

(** ** Lemmas: the server *)

Lemma last_fno_code used :
  0 < used <= 512 * 1024 ->
  u16 (if negb (used mod SCOM_TL_FRAME_LEN =? 0) then used / SCOM_TL_FRAME_LEN
       else used / SCOM_TL_FRAME_LEN - 1) = (used - 1) / SCOM_TL_FRAME_LEN.
Proof.
  unfold SCOM_TL_FRAME_LEN. intros Hu.
  pose proof (Z.div_mod used 242 ltac:(lia)). pose proof (Z.mod_pos_bound used 242 ltac:(lia)).
  assert ((used - 1) / 242 < 2167) by (apply Z.div_lt_upper_bound; lia).
  assert (0 <= (used - 1) / 242) by (apply Z.div_pos; lia).
  destruct (Z.eqb_spec (used mod 242) 0) as [Hz|Hz]; cbn [negb].
  - assert ((used - 1) / 242 = used / 242 - 1) as <-; [| apply u16_small; unfold is_u16; lia].
    symmetry. apply Z.div_unique with 241; lia.
  - assert ((used - 1) / 242 = used / 242) as <-; [| apply u16_small; unfold is_u16; lia].
    symmetry. apply Z.div_unique with (used mod 242 - 1); lia.
Qed.

Lemma last_fno_bounds data :
  0 < len data -> 0 <= last_fno data /\ last_fno data * SCOM_TL_FRAME_LEN < len data /\
    len data <= (last_fno data + 1) * SCOM_TL_FRAME_LEN.
Proof.
  intros. unfold last_fno, SCOM_TL_FRAME_LEN.
  pose proof (Z.div_mod (len data - 1) 242 ltac:(lia)).
  pose proof (Z.mod_pos_bound (len data - 1) 242 ltac:(lia)).
  split; [apply Z.div_pos |]; lia.
Qed.

Lemma data_slice_len data i :
  0 <= i -> i * SCOM_TL_FRAME_LEN <= len data ->
  len (data_slice data i) = Z.min SCOM_TL_FRAME_LEN (len data - i * SCOM_TL_FRAME_LEN).
Proof.
  intros. unfold data_slice. autorewrite with len. unfold SCOM_TL_FRAME_LEN in *. lia.
Qed.

Lemma serving_len s data : serving s data -> rb_used_len (tl_tx_rb s) = len data /\ len data <= 512 * 1024.
Proof.
  intros (_ & Hwf & _ & <- & Hs & _). rewrite contents_length.
  pose proof (wf_used _ Hwf). lia.
Qed.

(** [rb_get] at the offset of frame [i] returns frame [i]. *)
Lemma serving_get s data i :
  serving s data -> 0 <= i <= last_fno data -> 0 < len data ->
  exists fr, rb_get (Some (tl_tx_rb s)) (Some (tl_frame s)) (u32 (i * SCOM_TL_FRAME_LEN)) SCOM_TL_FRAME_LEN =
      Some (len (data_slice data i), Some fr) /\
    len fr = SCOM_TL_FRAME_LEN /\ 0 < len (data_slice data i) <= SCOM_TL_FRAME_LEN /\
    segment (Some fr) (len (data_slice data i)) = data_slice data i.
Proof.
  intros Hs Hi Hd. destruct (serving_len s data Hs) as [Hu Hl].
  destruct (last_fno_bounds data Hd) as (H0 & H1 & H2).
  pose proof Hs as (_ & Hwf & Ho & Hc & Hsz & Hf).
  assert (i * SCOM_TL_FRAME_LEN < len data) as Hlt by (unfold SCOM_TL_FRAME_LEN in *; nia).
  assert (0 <= i * SCOM_TL_FRAME_LEN) by (unfold SCOM_TL_FRAME_LEN; lia).
  rewrite u32_small by (unfold is_u32; lia).
  destruct (rb_get_step (tl_tx_rb s) (tl_frame s) (i * SCOM_TL_FRAME_LEN) SCOM_TL_FRAME_LEN)
    as (fr & E & L & T); [done | rewrite Hf; unfold SCOM_TL_FRAME_LEN; lia | lia | lia |].
  pose proof (data_slice_len data i ltac:(lia) ltac:(lia)) as Hsl. rewrite Hu, <- Hsl in E, T. rewrite Hc in T.
  exists fr. rewrite E, s32_small by (unfold SCOM_TL_FRAME_LEN in *; lia).
  split; [done |]. split; [lia |]. split; [unfold SCOM_TL_FRAME_LEN in *; lia |].
  unfold segment. rewrite T, Hsl. unfold data_slice.
  rewrite <- (take_len_min (Z.to_nat SCOM_TL_FRAME_LEN)), len_drop. f_equal.
  unfold SCOM_TL_FRAME_LEN in *. lia.
Qed.

Lemma seqZ_none m n : n <= 0 -> seqZ m n = [].
Proof. intros. apply seqZ_nil. lia. Qed.

(** One iteration sends one frame. *)
Lemma data_req_step data fno fcnt n i s :
  serving s data -> 0 < len data -> tl_tx_fun s = true -> 0 <= fno + i ->
  i < fcnt -> fno + i <= last_fno data ->
  exists fr, len fr = SCOM_TL_FRAME_LEN /\
    data_req_loop (S n) i fno fcnt (last_fno data) s =
      data_req_loop n (i + 1) fno fcnt (last_fno data)
        {| s with tl_frame := fr; tl_sent := tl_sent s ++ [server_frame data (fno + i)] |}.
Proof.
  intros Hs Hd Ht Hi Hlt Hle.
  destruct (serving_get s data (fno + i) Hs) as (fr & E & L & Hpos & Hseg); [lia | done |].
  exists fr. split; [done |]. cbn [data_req_loop].
  rewrite (proj2 (Z.ltb_lt i fcnt)), (proj2 (Z.leb_le (fno + i) _)) by lia. cbn [andb]. st_run.
  rewrite E. st_run. rewrite (proj2 (Z.leb_gt _ 0)) by lia. cbn [default]. st_run.
  set (s1 := {| s with tl_frame := fr |}).
  assert (forall t ft no, scom_tl_send_frame t ft no (Some fr) (len (data_slice data (fno + i))) s1 =
    Some (0, tl_log (tl_frame_bytes t ft no (data_slice data (fno + i))) s1)) as Hsend.
  { intros t ft no. rewrite <- Hseg at 2. unfold SCOM_TL_FRAME_LEN in *.
    apply send_frame_ok; [split; [lia | rewrite L; lia] | by rewrite Hseg | lia]. }
  rewrite (st_bind_run _ _ _ _ _ (Hsend _ _ _)).
  rewrite tl_log_tx by done. unfold server_frame, slice_type.
  rewrite (Z.eqb_sym (fno + i) 0), (Z.eqb_sym (fno + i) (last_fno data)),
    (Z.eqb_sym (last_fno data) 0). done.
Qed.

(** The loop of the server sends the requested frames that exist. *)
Lemma data_req_loop_spec data fno fcnt n : forall i s,
  serving s data -> 0 < len data -> tl_tx_fun s = true -> 0 <= fno -> 0 <= i -> fcnt - i <= Z.of_nat n ->
  exists fr,
    data_req_loop n i fno fcnt (last_fno data) s =
      Some (0, {| s with tl_frame := fr;
        tl_sent := tl_sent s ++ map (server_frame data)
                     (seqZ (fno + i) (Z.min (fcnt - i) (last_fno data + 1 - fno - i))) |}) /\
    len fr = SCOM_TL_FRAME_LEN.
Proof.
  induction n as [|n IH]; intros i s Hs Hd Ht Hf0 Hi Hn.
  all: destruct (decide (i < fcnt /\ fno + i <= last_fno data)) as [[Hlt Hle]|Hend]; try lia.
  2:{ destruct (data_req_step data fno fcnt n i s) as (fr & L & ->); try done; [lia |].
      match goal with |- context [data_req_loop n (i + 1) _ _ _ ?s1] => set (s2 := s1) end.
      destruct (IH (i + 1) s2) as (fr' & E' & L'); try done; try lia.
      { destruct Hs as (? & ? & ? & ? & ? & ?). done. }
      exists fr'. rewrite E'. split; [| done]. do 2 f_equal. subst s2. cbn. f_equal.
      rewrite <- app_assoc. f_equal. rewrite (seqZ_cons (fno + i)) by lia. cbn [map app].
      do 3 f_equal; lia. }
  all: exists (tl_frame s); rewrite seqZ_none, app_nil_r by lia;
    (split; [| by destruct Hs as (_ & _ & _ & _ & _ & ?)]); destruct s; cbn [data_req_loop]; try done.
  replace ((i <? fcnt) && (fno + i <=? last_fno data)) with false; [done |].
  symmetry. apply andb_false_iff. rewrite Z.ltb_ge, Z.leb_gt. lia.
Qed.

(** ** Messages of the bulk transfer *)

(** A data request as received, in a buffer with other bytes behind it. *)
Definition data_req_msg (no fno fcnt : Z) (rest : list Z) : list Z :=
  SCOM_TL_MSG_HDR SCOM_TL_DATA_REQ SCOM_TL_SINGLE_FRAME no 4 ++ two_u16 fno fcnt ++ rest.

(** The data frame [i] as received. *)
Definition data_ok_msg (data : list Z) (i : Z) (rest : list Z) : list Z :=
  SCOM_TL_MSG_HDR SCOM_TL_DATA_OK_RES (slice_type data i) i (len (data_slice data i)) ++
  data_slice data i ++ rest.

Lemma get_le16_at l off z :
  is_u16 z -> (exists pre post, l = pre ++ le16 z ++ post /\ len pre = off) -> get_le16 l off = Some z.
Proof. intros Hz (pre & post & -> & <-). by apply get_le16_le16. Qed.

Lemma data_req_fields no fno fcnt rest :
  is_u16 fno -> is_u16 fcnt ->
  get_le16 (data_req_msg no fno fcnt rest) SIZEOF_HDR = Some fno /\
  get_le16 (data_req_msg no fno fcnt rest) (SIZEOF_HDR + 2) = Some fcnt.
Proof.
  intros Hf Hc. unfold data_req_msg, two_u16. rewrite !u16_small by done.
  split; apply get_le16_at; try done.
  - eexists _, _. split; [by rewrite <- app_assoc | done].
  - exists (SCOM_TL_MSG_HDR SCOM_TL_DATA_REQ SCOM_TL_SINGLE_FRAME no 4 ++ le16 fno), rest.
    split; [by rewrite <- !app_assoc | done].
Qed.

Lemma data_ok_fields data i rest :
  is_u16 i ->
  get_le16 (data_ok_msg data i rest) 2 = Some i /\
  get_le16 (data_ok_msg data i rest) 4 = Some (len (data_slice data i)) /\
  mem_get (data_ok_msg data i rest) 1 = Some (slice_type data i) /\
  drop (Z.to_nat SIZEOF_HDR) (data_ok_msg data i rest) = data_slice data i ++ rest.
Proof.
  intros Hi. unfold data_ok_msg, SCOM_TL_MSG_HDR.
  assert (is_u16 (len (data_slice data i))) as Hl.
  { unfold data_slice. unfold is_u16. rewrite len_take. pose proof (len_nonneg (drop (Z.to_nat (i * SCOM_TL_FRAME_LEN)) data)).
    unfold SCOM_TL_FRAME_LEN in *. lia. }
  rewrite !u16_small by done. split; [| split; [| split]].
  - apply get_le16_at; [done |]. eexists [_; _], _. split; [by rewrite <- !app_assoc | done].
  - apply get_le16_at; [done |]. exists ([u8 SCOM_TL_DATA_OK_RES; u8 (slice_type data i)] ++ le16 i), (data_slice data i ++ rest).
    split; [by rewrite <- !app_assoc | done].
  - cbn. unfold slice_type. by repeat case_bool.
  - done.
Qed.

(** The server answers a data request with exactly the requested frames
    that exist: frame [i] carries bytes [242 i ..] of the offered data with its
    number and position type; a request beyond the last frame is refused with the
    last frame number.  No access leaves a buffer. *)
Theorem server_answers_request s data no fno fcnt rest n :
  serving s data -> 0 < len data -> tl_tx_fun s = true -> is_u16 fno -> is_u16 fcnt ->
  exists fr, len fr = SCOM_TL_FRAME_LEN /\
    scom_tl_proc_data_req (data_req_msg no fno fcnt rest) n s =
      if last_fno data <? fno then
        Some (-1, {| s with tl_sent := tl_sent s ++
          [tl_frame_bytes SCOM_TL_DATA_NG_RES SCOM_TL_SINGLE_FRAME 0
             (two_u16 SCOM_TL_RET_INVALID_FNO (last_fno data))] |})
      else
        Some (0, {| s with tl_frame := fr;
          tl_sent := tl_sent s ++ map (server_frame data)
                       (seqZ fno (Z.min fcnt (last_fno data + 1 - fno))) |}).
Proof.
  intros Hs Hd Ht Hf Hc. destruct (data_req_fields no fno fcnt rest Hf Hc) as [E1 E2].
  destruct (serving_len s data Hs) as [Hu Hl]. pose proof Hs as (Hst & Hwf & Ho & _ & _ & Hfr).
  destruct (data_req_loop_spec data fno fcnt (Z.to_nat fcnt) 0 s) as (fr & E & L); try done;
    [unfold is_u16 in *; lia | unfold is_u16 in *; lia |].
  exists fr. split; [done |]. unfold scom_tl_proc_data_req. st_run.
  destruct (decide (tl_status s <> SCOM_TL_STATE_SERVER_STARTED)); [done |].
  assert (rb_empty (tl_tx_rb s) = false) as ->.
  { unfold rb_empty. apply Z.eqb_neq. intros Heq. unfold rb_used_len in Hu.
    rewrite Heq, Z.sub_diag in Hu. change (u32 0) with 0 in Hu. lia. }
  rewrite Hu, last_fno_code, E1 by lia. fold (last_fno data). st_run.
  destruct (last_fno data <? fno).
  - unfold scom_tl_send_msg. cbn [Z.ltb Z.compare SCOM_TL_FRAME_LEN Pos.compare Pos.compare_cont].
    rewrite (st_bind_run _ _ _ _ _ (send_frame_data _ _ _ (two_u16 _ _) s ltac:(done))).
    by rewrite tl_log_tx.
  - rewrite E2. st_run. rewrite E, Z.add_0_r, !Z.sub_0_r. done.
Qed.

(** The slices are a partition of the data. *)
Lemma slice_next data i :
  0 <= i ->
  take (Z.to_nat (i * SCOM_TL_FRAME_LEN)) data ++ data_slice data i =
    take (Z.to_nat ((i + 1) * SCOM_TL_FRAME_LEN)) data.
Proof.
  intros. unfold data_slice. rewrite take_take_drop. f_equal. unfold SCOM_TL_FRAME_LEN. lia.
Qed.

Lemma slices_all data :
  0 < len data ->
  take (Z.to_nat ((last_fno data + 1) * SCOM_TL_FRAME_LEN)) data = data.
Proof. intros Hd. pose proof (last_fno_bounds data Hd). apply take_ge. unfold len in *. lia. Qed.

Lemma rb_in_opos rb src n v rb' :
  rb_in (Some rb) src n = Some (v, Some rb') -> rb_opos rb' = rb_opos rb.
Proof.
  unfold rb_in. destruct src; [| by intros [= _ <-]].
  repeat (destruct (memcpy _ _ _ _ _); cbn [mbind option_bind]; [| done]). by intros [= _ <-].
Qed.

(** [scom_tl_start_server] offers its data. *)
Lemma start_server_serves s data :
  rb_wf (tl_tx_rb s) -> rb_size (tl_tx_rb s) = 512 * 1024 -> len (tl_frame s) = SCOM_TL_FRAME_LEN ->
  tl_status s <> SCOM_TL_STATE_SERVER_STARTED -> len data <= 512 * 1024 ->
  exists s', scom_tl_start_server (Some data) (len data) s = Some (0, s') /\ serving s' data /\
    tl_tx_fun s' = tl_tx_fun s /\ tl_sent s' = tl_sent s.
Proof.
  intros Hwf Hsz Hf Hst Hl. pose proof (len_nonneg data). unfold scom_tl_start_server. st_run.
  destruct (decide (tl_status s = SCOM_TL_STATE_SERVER_STARTED)); [done |].
  destruct (rb_clean_step _ Hwf) as (rb & E & Hwf' & Hsz' & Hi & Ho & Hc). rewrite E.
  unfold set_tx_rb, set_status. st_run.
  assert (rb_used_len rb = 0) as Hu by (unfold rb_used_len; by rewrite Hi, Ho).
  rewrite unused_used, Hu, Hsz', Hsz by done. rewrite (proj2 (Z.ltb_ge _ _)) by lia.
  destruct (rb_in_step rb data (len data) Hwf') as (rb' & E' & Hwf'' & Hsz'' & Hc'); [lia |].
  pose proof (rb_in_opos _ _ _ _ _ E') as Ho'. rewrite E'. tl_run. eexists.
  split; [reflexivity |]. split; [| done]. split; [done |]. cbn [tl_tx_rb tl_frame default from_option id].
  split; [done |]. split; [by rewrite Ho' |]. split; [| split; [by rewrite Hsz'', Hsz', Hsz | done]].
  rewrite Hc', Hc. unfold accepted. rewrite Hu, Hsz', Hsz, Z.sub_0_r, Z.min_l by lia.
  apply take_ge. unfold len. lia.
Qed.

(** ** The client *)

Definition next_fno (s : SCOM) : Z := ctl_rx_fno (tl_rx_ctl s) + 1.
Definition req_end (s : SCOM) : Z := ctl_req_fno (tl_rx_ctl s) + ctl_req_fcnt (tl_rx_ctl s).

(** The runs of a client that downloads [data]: it is started, it receives data
    frames below the end of the latest request in any order and multiplicity, and
    the application reads.  [c] is what the application has read, [fin] the flag
    of the last read. *)
Inductive client_run (data : list Z) : SCOM -> list Z -> Z -> Prop :=
| client_run_start s0 s :
    rb_wf (tl_rx_rb s0) -> rb_size (tl_rx_rb s0) = 2 * 1024 ->
    scom_tl_start_client s0 = Some (0, s) -> client_run data s [] 0
| client_run_frame s c fin i rest s' :
    client_run data s c fin -> 0 <= i < req_end s -> i <= last_fno data ->
    scom_tl_msg_proc (data_ok_msg data i rest) (len (data_ok_msg data i rest)) s = Some (tt, s') ->
    client_run data s' c fin
| client_run_read s c fin buf n ret fin' buf' s' :
    client_run data s c fin -> 0 <= n <= len buf ->
    scom_tl_get_data buf n s = Some (ret, fin', buf', s') ->
    client_run data s' (c ++ take (Z.to_nat ret) buf') fin'.

(** The invariant while the client is active. *)
Record client_active (data : list Z) (s : SCOM) (c : list Z) : Prop := {
  ca_status : tl_status s = SCOM_TL_STATE_CLIENT_STARTED;
  ca_wf : rb_wf (tl_rx_rb s);
  ca_size : rb_size (tl_rx_rb s) = 2 * 1024;
  ca_next : 0 <= next_fno s <= last_fno data + 1;
  ca_bytes : c ++ contents (tl_rx_rb s) = take (Z.to_nat (next_fno s * SCOM_TL_FRAME_LEN)) data;
  ca_req : next_fno s <= req_end s <= next_fno s + 5;
  ca_room : (req_end s - next_fno s) * SCOM_TL_FRAME_LEN <= rb_unused_len (tl_rx_rb s);
  ca_type : ctl_rx_ftype (tl_rx_ctl s) = if next_fno s =? 0 then 0 else slice_type data (next_fno s - 1)
}.

(** After the download the client is stopped. *)
Record client_stopped (data : list Z) (s : SCOM) (c : list Z) : Prop := {
  cs_status : tl_status s = SCOM_TL_STATE_IDLE;
  cs_wf : rb_wf (tl_rx_rb s);
  cs_ctl : tl_rx_ctl s = rx_ctl_init;
  cs_bytes : c = data
}.

Definition client_ok (data : list Z) (s : SCOM) (c : list Z) (fin : Z) : Prop :=
  (client_active data s c \/ client_stopped data s c) /\ (fin = 1 -> c = data).

(** What a data request changes. *)
Definition requested (s s' : SCOM) : Prop :=
  tl_status s' = tl_status s /\ tl_rx_rb s' = tl_rx_rb s /\ tl_tx_rb s' = tl_tx_rb s /\
  ctl_rx_fno (tl_rx_ctl s') = ctl_rx_fno (tl_rx_ctl s) /\
  ctl_rx_ftype (tl_rx_ctl s') = ctl_rx_ftype (tl_rx_ctl s).

Lemma send_data_req_run s :
  ctl_rx_ftype (tl_rx_ctl s) <> SCOM_TL_LAST_FRAME -> is_u16 (next_fno s) ->
  rb_unused_len (tl_rx_rb s) <= 2048 -> 
  exists s', scom_tl_send_data_req s = Some (tt, s') /\ requested s s' /\
    req_end s' = if SCOM_TL_FRAME_LEN <=? rb_unused_len (tl_rx_rb s)
                 then next_fno s + Z.min 5 (rb_unused_len (tl_rx_rb s) / SCOM_TL_FRAME_LEN)
                 else req_end s.
Proof.
  intros Ht Hn Hu. unfold scom_tl_send_data_req. st_run.
  rewrite (proj2 (Z.eqb_neq _ _)) by done. destruct (Z.leb_spec SCOM_TL_FRAME_LEN (rb_unused_len (tl_rx_rb s))).
  2:{ by exists s. }
  tl_run. fold (next_fno s). rewrite (u16_small (next_fno s)) by done.
  unfold SCOM_TL_FRAME_LEN in *. set (u := rb_unused_len (tl_rx_rb s)) in *.
  assert (0 <= u / 242) by (apply Z.div_pos; lia).
  assert (u / 242 < 9) by (apply Z.div_lt_upper_bound; lia).
  rewrite (u16_small (u / 242)) by (unfold is_u16; lia).
  rewrite (st_bind_run _ _ _ _ _ (send_frame_data _ _ _ (two_u16 _ _) _ ltac:(done))). tl_run.
  eexists. split; [reflexivity |]. unfold requested, req_end, tl_log.
  destruct (tl_tx_fun _); cbn; (split; [done |]); case_bool; lia.
Qed.

Lemma unused_bounds rb : rb_wf rb -> 0 <= rb_unused_len rb <= rb_size rb.
Proof.
  intros Hwf. rewrite unused_used by done. pose proof (wf_used rb Hwf).
  pose proof (used_nonneg rb). lia.
Qed.

(** Accepting the next frame. *)
Lemma client_accept data s c i rest rb :
  client_active data s c -> 0 < len data -> i = next_fno s -> i < req_end s -> i <= last_fno data ->
  (exists v, rb_in (Some (tl_rx_rb s)) (Some (data_slice data i ++ rest)) (len (data_slice data i)) =
    Some (v, Some rb)) ->
  rb_wf rb /\ rb_size rb = 2 * 1024 /\
  c ++ contents rb = take (Z.to_nat ((i + 1) * SCOM_TL_FRAME_LEN)) data /\
  (req_end s - (i + 1)) * SCOM_TL_FRAME_LEN <= rb_unused_len rb.
Proof.
  intros [Hst Hwf Hsz Hn Hb Hr Hroom Ht] Hd Hi Hlt Hle (v & E).
  pose proof (last_fno_bounds data Hd).
  assert (i * SCOM_TL_FRAME_LEN <= len data) as Hil by (unfold SCOM_TL_FRAME_LEN in *; nia).
  pose proof (data_slice_len data i ltac:(lia) Hil) as Hsl.
  pose proof (unused_used _ Hwf) as Hun. pose proof (len_nonneg rest).
  destruct (rb_in_step (tl_rx_rb s) (data_slice data i ++ rest) (len (data_slice data i)) Hwf)
    as (rb' & E' & Hwf' & Hsz' & Hc'); [rewrite len_app; unfold SCOM_TL_FRAME_LEN in *; lia |].
  rewrite E in E'. injection E' as -> ->. split; [done |]. split; [lia |].
  assert (accepted (tl_rx_rb s) (len (data_slice data i)) = len (data_slice data i)) as Ha.
  { unfold accepted. unfold SCOM_TL_FRAME_LEN in *. nia. }
  rewrite Ha in Hc'.
  assert (take (Z.to_nat (len (data_slice data i))) (data_slice data i ++ rest) = data_slice data i) as Htk.
  { apply take_app_length'. unfold len. lia. }
  rewrite Htk in Hc'. split.
  - rewrite Hc', app_assoc, Hb, <- Hi. apply slice_next. lia.
  - rewrite unused_used by done. rewrite <- contents_length, Hc', len_app, contents_length, Hsz'.
    unfold SCOM_TL_FRAME_LEN in *. nia.
Qed.

(** A data frame below the end of the request keeps the invariant; it is
    accepted exactly if it is the next one. *)
Lemma client_frame_step data s c i rest :
  client_active data s c -> 0 < len data -> last_fno data < 65535 ->
  0 <= i < req_end s -> i <= last_fno data ->
  exists s', scom_tl_msg_proc (data_ok_msg data i rest) (len (data_ok_msg data i rest)) s = Some (tt, s') /\
    client_active data s' c /\ tl_sent s' = tl_sent s /\ req_end s' = req_end s /\
    next_fno s' = if i =? next_fno s then i + 1 else next_fno s.
Proof.
  intros Hca Hd Hl Hi Hle. pose proof (last_fno_bounds data Hd) as (H0 & H1 & H2).
  destruct (data_ok_fields data i rest) as (E1 & E2 & E3 & E4); [unfold is_u16; lia |].
  assert (mem_get (data_ok_msg data i rest) 0 = Some SCOM_TL_DATA_OK_RES) as E0 by done.
  unfold scom_tl_msg_proc. rewrite E0. st_run.
  change (SCOM_TL_DATA_OK_RES =? SCOM_TL_DATA_REQ) with false.
  rewrite Z.eqb_refl. cbv iota. unfold scom_tl_proc_data_ok_res. rewrite E1. st_run.
  fold (next_fno s). destruct (Z.eqb_spec i (next_fno s)) as [Hin|Hne]; cbn [negb].
  2:{ exists s. done. }
  rewrite E2, E3, E4. tl_run.
  assert (0 <= i * SCOM_TL_FRAME_LEN <= len data) as Hil by (unfold SCOM_TL_FRAME_LEN in *; nia).
  pose proof (data_slice_len data i ltac:(lia) ltac:(lia)) as Hsl. pose proof (len_nonneg rest).
  destruct (rb_in_step (tl_rx_rb s) (data_slice data i ++ rest) (len (data_slice data i)))
    as (rb & E & _); [apply Hca | rewrite len_app; unfold SCOM_TL_FRAME_LEN in *; lia |].
  destruct (client_accept data s c i rest rb Hca Hd Hin) as (Hwf & Hsz & Hb & Hroom); [lia | lia | eauto |].
  rewrite E. tl_run. cbn [default from_option id].
  set (s2 := {| tl_status := tl_status s; tl_rx_rb := rb |}).
  assert (client_active data s2 c /\ next_fno s2 = i + 1) as [Hca2 Hn2].
  { destruct Hca as [Hst ? ? ? ? ? ? ?]. subst s2. unfold req_end, next_fno in *. cbn in *.
    split; [| done].
    constructor; unfold next_fno, req_end; cbn; try done; try lia.
    rewrite (proj2 (Z.eqb_neq (i + 1) 0)) by lia. by rewrite Z.add_simpl_r. }
  assert (u32 (ctl_req_fno (tl_rx_ctl s) + ctl_req_fcnt (tl_rx_ctl s)) = req_end s) as ->.
  { apply u32_small. unfold is_u32. destruct Hca. unfold req_end in *. lia. }
  destruct (SCOM_TL_LAST_FRAME =? slice_type data i).
  - eexists. split; [reflexivity |]. tl_run. split; [| done].
    destruct Hca2. constructor; done.
  - rewrite (proj2 (Z.eqb_neq i (req_end s))) by lia. st_run. exists s2. done.
Qed.

(** Taking [m] bytes out of the queue. *)
Lemma client_consume data s c rb d m :
  client_active data s c -> rb_wf rb -> rb_size rb = rb_size (tl_rx_rb s) ->
  0 <= m <= rb_used_len (tl_rx_rb s) ->
  take (Z.to_nat m) d = take (Z.to_nat m) (contents (tl_rx_rb s)) ->
  contents rb = drop (Z.to_nat m) (contents (tl_rx_rb s)) ->
  client_active data {| s with tl_rx_rb := rb |} (c ++ take (Z.to_nat m) d).
Proof.
  intros [Hst Hwf Hsz Hn Hb Hr Hroom Ht] Hwf' Hsz' Hm Htk Hc.
  constructor; unfold next_fno, req_end in *; cbn; try done; try lia.
  - by rewrite Htk, Hc, <- app_assoc, take_drop.
  - rewrite unused_used in * by done. rewrite <- contents_length, Hc, len_drop, contents_length. lia.
Qed.

(** A request keeps the invariant. *)
Lemma client_request data s c :
  client_active data s c -> last_fno data < 65535 -> ctl_rx_ftype (tl_rx_ctl s) <> SCOM_TL_LAST_FRAME ->
  exists s', scom_tl_send_data_req s = Some (tt, s') /\ requested s s' /\ client_active data s' c.
Proof.
  intros Hca Hl Ht. pose proof Hca as [Hst Hwf Hsz Hn Hb Hr Hroom Hty].
  pose proof (unused_bounds _ Hwf) as Hu. rewrite Hsz in Hu.
  destruct (send_data_req_run s Ht) as (s' & E & Hq & He); [unfold is_u16; lia | lia |].
  exists s'. split; [done |]. split; [done |]. destruct Hq as (Q1 & Q2 & Q3 & Q4 & Q5).
  assert (next_fno s' = next_fno s) as Hnn by (unfold next_fno; by rewrite Q4).
  constructor; rewrite ?Q1, ?Q2, ?Q5, ?Hnn; try done.
  - rewrite He. unfold SCOM_TL_FRAME_LEN in *. case_bool; [| lia].
    pose proof (Z.div_pos (rb_unused_len (tl_rx_rb s)) 242). lia.
  - rewrite He. unfold SCOM_TL_FRAME_LEN in *. case_bool; [| lia].
    pose proof (Z.mul_div_le (rb_unused_len (tl_rx_rb s)) 242). lia.
Qed.

Lemma last_type data s c :
  client_active data s c -> 0 < len data -> ctl_rx_ftype (tl_rx_ctl s) = SCOM_TL_LAST_FRAME ->
  c ++ contents (tl_rx_rb s) = data.
Proof.
  intros [Hst Hwf Hsz Hn Hb Hr Hroom Hty] Hd Ht. rewrite Hb.
  assert (next_fno s = last_fno data + 1) as ->; [| by apply slices_all].
  rewrite Hty in Ht. unfold slice_type in Ht.
  repeat (case_bool; try done); lia.
Qed.

Lemma empty_contents rb : rb_wf rb -> rb_empty rb = true -> contents rb = [].
Proof.
  intros Hwf He. apply len_le_0. rewrite contents_length. unfold rb_used_len.
  apply Z.eqb_eq in He. rewrite He, Z.sub_diag. done.
Qed.

Lemma client_stop data s c :
  client_active data s c -> c = data ->
  exists s', scom_tl_stop_client s = Some (tt, s') /\ client_stopped data s' c.
Proof.
  intros Hca Hc. unfold scom_tl_stop_client. st_run.
  destruct (rb_clean_step _ (ca_wf _ _ _ Hca)) as (rb & E & Hwf & _). rewrite E. tl_run.
  eexists. split; [reflexivity |]. by constructor.
Qed.

(** Reading keeps the invariant. *)
Lemma client_read_step data s c buf n :
  client_active data s c -> 0 < len data -> last_fno data < 65535 -> 0 <= n <= len buf ->
  exists ret fin buf' s', scom_tl_get_data buf n s = Some (ret, fin, buf', s') /\
    client_ok data s' (c ++ take (Z.to_nat ret) buf') fin /\
    (ctl_rx_ftype (tl_rx_ctl s) <> SCOM_TL_LAST_FRAME ->
     fin = 0 /\ client_active data s' (c ++ take (Z.to_nat ret) buf')).
Proof.
  intros Hca Hd Hl Hn. pose proof Hca as [Hst Hwf Hsz _ _ _ _ _]. unfold scom_tl_get_data. st_run.
  destruct (decide (tl_status s <> SCOM_TL_STATE_CLIENT_STARTED)) as [?|_]; [done |].
  destruct (rb_empty (tl_rx_rb s)) eqn:He.
  { st_run. eexists _, _, _, s. split; [reflexivity |]. cbn [Z.to_nat take]. rewrite app_nil_r.
    split; [| by case_bool]. split; [by left |]. case_bool; [| done]. intros _.
    rewrite <- (last_type data s c Hca Hd), empty_contents, app_nil_r by done. done. }
  destruct (rb_out_step (tl_rx_rb s) buf n Hwf Hn) as (rb & d & E & Hwf' & Hsz' & Ld & Htk & Hc).
  pose proof (wf_used _ Hwf). pose proof (used_nonneg (tl_rx_rb s)).
  rewrite s32_small in E by lia. rewrite E. tl_run. cbn [default from_option id].
  set (m := Z.min n (rb_used_len (tl_rx_rb s))) in *.
  assert (client_active data {| s with tl_rx_rb := rb |} (c ++ take (Z.to_nat m) d)) as Hca'.
  { eapply client_consume; try done; lia. }
  destruct (Z.leb_spec m 0) as [Hm|Hm].
  { st_run. eexists _, _, _, _. split; [reflexivity |].
    replace m with 0 in Hca' by lia. cbn [Z.to_nat take] in *.
    split; [| done]. split; [by left | done]. }
  destruct (Z.eqb_spec SCOM_TL_LAST_FRAME (ctl_rx_ftype (tl_rx_ctl s))) as [Ht|Ht]; cbn [negb].
  - tl_run. rewrite <- Ht, Z.eqb_refl. cbn [andb]. destruct (rb_empty rb) eqn:He'.
    + destruct (client_stop data _ _ Hca') as (s' & Es & Hs).
      { rewrite <- (last_type data _ _ Hca' Hd) by done. cbn [tl_rx_rb].
        by rewrite empty_contents, app_nil_r. }
      rewrite (st_bind_run _ _ _ _ _ Es). st_run. eexists _, _, _, _. split; [reflexivity |].
      split; [| done]. split; [by right |]. intros _. apply Hs.
    + st_run. eexists _, _, _, _. split; [reflexivity |]. split; [| done]. split; [by left | done].
  - destruct (client_request data _ _ Hca' Hl) as (s' & Es & Hq & Hca2); [cbn; congruence |].
    st_run. rewrite (st_bind_run _ _ _ _ _ Es). st_run.
    destruct Hq as (_ & _ & _ & _ & Q5). cbn in Q5. rewrite Q5, (proj2 (Z.eqb_neq _ _)) by done.
    cbn [andb]. eexists _, _, _, _. split; [reflexivity |]. split; [| done]. split; [by left | done].
Qed.

Lemma client_start_run data s0 :
  rb_wf (tl_rx_rb s0) -> rb_size (tl_rx_rb s0) = 2 * 1024 -> 0 < len data ->
  tl_status s0 <> SCOM_TL_STATE_CLIENT_STARTED ->
  exists s, scom_tl_start_client s0 = Some (0, s) /\ client_active data s [] /\ req_end s = 5.
Proof.
  intros Hwf Hsz Hd Hst. unfold scom_tl_start_client. st_run.
  destruct (decide (tl_status s0 = SCOM_TL_STATE_CLIENT_STARTED)); [done |].
  destruct (rb_clean_step _ Hwf) as (rb & E & Hwf' & Hsz' & Hi & Ho & Hc). rewrite E. tl_run.
  assert (rb_unused_len rb = 2048) as Hu.
  { rewrite unused_used by done. unfold rb_used_len. rewrite Hi, Ho, Hsz', Hsz. done. }
  set (s1 := {| s0 with tl_rx_rb := rb; tl_rx_ctl := rx_ctl_init |}).
  destruct (send_data_req_run s1) as (s' & Es & (Q1 & Q2 & Q3 & Q4 & Q5) & He); [done | done | cbn; lia |].
  cbn [tl_rx_rb s1] in He. rewrite Hu in He. change (next_fno s1) with 0 in He.
  rewrite (st_bind_run _ _ _ _ _ Es). tl_run. eexists. split; [reflexivity |].
  assert (next_fno {| s' with tl_status := SCOM_TL_STATE_CLIENT_STARTED |} = 0) as Hn.
  { unfold next_fno. cbn. by rewrite Q4. }
  assert (req_end {| s' with tl_status := SCOM_TL_STATE_CLIENT_STARTED |} = 5) as Hr by exact He.
  split; [| done]. pose proof (last_fno_bounds data Hd).
  constructor; rewrite ?Hn, ?Hr; cbn [tl_status tl_rx_rb tl_rx_ctl]; rewrite ?Q2, ?Q5; cbn; try done; try lia.
  rewrite Hu. unfold SCOM_TL_FRAME_LEN. lia.
Qed.

Lemma client_start_step data s0 s :
  rb_wf (tl_rx_rb s0) -> rb_size (tl_rx_rb s0) = 2 * 1024 -> 0 < len data ->
  scom_tl_start_client s0 = Some (0, s) -> client_active data s [] /\ req_end s = 5.
Proof.
  intros Hwf Hsz Hd E. destruct (decide (tl_status s0 = SCOM_TL_STATE_CLIENT_STARTED)) as [Hc|Hc].
  - revert E. unfold scom_tl_start_client. st_run. by destruct (decide _).
  - destruct (client_start_run data s0 Hwf Hsz Hd Hc) as (s1 & E1 & H). rewrite E in E1. by injection E1 as ->.
Qed.

Lemma stopped_read data s c buf n :
  client_stopped data s c ->
  scom_tl_get_data buf n s = Some (-1, 1, buf, s).
Proof.
  intros [Hst _ _ _]. unfold scom_tl_get_data. st_run.
  destruct (decide (tl_status s <> SCOM_TL_STATE_CLIENT_STARTED)) as [_|Hn]; [done |].
  exfalso. apply Hn. by rewrite Hst.
Qed.

Lemma client_run_ok data s c fin :
  client_run data s c fin -> 0 < len data -> last_fno data < 65535 -> client_ok data s c fin.
Proof.
  induction 1 as [s0 s Hwf Hsz E | s c fin i rest s' Hrun IH Hi Hle E | s c fin buf n ret fin' buf' s' Hrun IH Hn E];
    intros Hd Hl.
  - split; [| done]. left. by eapply client_start_step.
  - destruct (IH Hd Hl) as [[Hca | Hcs] Hf]; (split; [| done]).
    + destruct (client_frame_step data s c i rest Hca Hd Hl Hi Hle) as (s1 & E1 & H1 & _).
      rewrite E in E1. injection E1 as <-. by left.
    + destruct Hcs as [_ _ Hctl _]. unfold req_end in Hi. rewrite Hctl in Hi. cbn in Hi. lia.
  - destruct (IH Hd Hl) as [[Hca | Hcs] Hf].
    + destruct (client_read_step data s c buf n Hca Hd Hl Hn) as (r1 & f1 & b1 & s1 & E1 & H1 & _).
      rewrite E in E1. by injection E1 as -> -> -> ->.
    + rewrite (stopped_read _ _ _ _ _ Hcs) in E. injection E as <- <- <- <-.
      cbn [Z.to_nat take]. rewrite app_nil_r. destruct Hcs. split; [by right | done].
Qed.

(** C31: The client delivers the server's data, for data of 1 byte up to 65535 frames:
    in every run of a client (frames of the requested range in any order, duplicates
    included, interleaved with reads of any size) the bytes the application has read are
    a prefix of the data, they are the whole data when a read reports the end, no step
    accesses memory outside the buffers, and no accepted byte is dropped. *)
Theorem client_download_in_order data s c fin :
  client_run data s c fin -> 0 < len data -> last_fno data < 65535 ->
  c `prefix_of` data /\ (fin = 1 -> c = data) /\
  (forall i rest, 0 <= i < req_end s -> i <= last_fno data ->
     exists s', scom_tl_msg_proc (data_ok_msg data i rest) (len (data_ok_msg data i rest)) s = Some (tt, s')) /\
  (forall buf n, 0 <= n <= len buf -> exists r, scom_tl_get_data buf n s = Some r).
Proof.
  intros Hrun Hd Hl. destruct (client_run_ok data s c fin Hrun Hd Hl) as [Hok Hf].
  split; [| split; [done | split]].
  - destruct Hok as [Hca | Hcs]; [| by destruct Hcs as [_ _ _ ->]].
    exists (contents (tl_rx_rb s) ++ drop (Z.to_nat (next_fno s * SCOM_TL_FRAME_LEN)) data).
    rewrite app_assoc, (ca_bytes _ _ _ Hca). by rewrite take_drop.
  - intros i rest Hi Hle. destruct Hok as [Hca | [_ _ Hctl _]].
    + destruct (client_frame_step data s c i rest Hca Hd Hl Hi Hle) as (s' & E & _). eauto.
    + unfold req_end in Hi. rewrite Hctl in Hi. cbn in Hi. lia.
  - intros buf n Hn. destruct Hok as [Hca | Hcs].
    + destruct (client_read_step data s c buf n Hca Hd Hl Hn) as (r1 & f1 & b1 & s1 & E1 & _). eauto.
    + rewrite (stopped_read _ _ _ _ _ Hcs). eauto.
Qed.

(** In a client run the test "the last requested frame is received" never
    succeeds: a data frame of the requested range never makes the client send
    the next request (the compared number is one past the last requested
    frame), so only reads continue the transfer. *)
Theorem client_never_requests_on_frame data s c fin i rest s' :
  client_run data s c fin -> 0 < len data -> last_fno data < 65535 ->
  0 <= i < req_end s -> i <= last_fno data ->
  scom_tl_msg_proc (data_ok_msg data i rest) (len (data_ok_msg data i rest)) s = Some (tt, s') ->
  tl_sent s' = tl_sent s /\ req_end s' = req_end s.
Proof.
  intros Hrun Hd Hl Hi Hle E. destruct (client_run_ok data s c fin Hrun Hd Hl) as [[Hca | Hcs] _].
  - destruct (client_frame_step data s c i rest Hca Hd Hl Hi Hle) as (s1 & E1 & _ & Hs & Hr & _).
    rewrite E in E1. by injection E1 as <-.
  - destruct Hcs as [_ _ Hctl _]. unfold req_end in Hi. rewrite Hctl in Hi. cbn in Hi. lia.
Qed.

Lemma single_run data s c fin :
  client_run data s c fin -> 0 < len data -> last_fno data = 0 -> client_active data s c /\ fin = 0.
Proof.
  induction 1 as [s0 s Hwf Hsz E | s c fin i rest s' Hrun IH Hi Hle E | s c fin buf n ret fin' buf' s' Hrun IH Hn E];
    intros Hd Hl.
  - split; [| done]. by eapply client_start_step.
  - destruct (IH Hd Hl) as [Hca Hf]. split; [| done].
    destruct (client_frame_step data s c i rest Hca Hd ltac:(lia) Hi Hle) as (s1 & E1 & H1 & _).
    rewrite E in E1. by injection E1 as <-.
  - destruct (IH Hd Hl) as [Hca Hf].
    destruct (client_read_step data s c buf n Hca Hd ltac:(lia) Hn) as (r1 & f1 & b1 & s1 & E1 & _ & H1).
    rewrite E in E1. injection E1 as -> -> -> ->. destruct H1 as [-> H1]; [| done].
    rewrite (ca_type _ _ _ Hca). pose proof (ca_next _ _ _ Hca). unfold slice_type. rewrite Hl.
    case_bool; [done |]. by rewrite (proj2 (Z.eqb_eq (next_fno s - 1) 0)) by lia.
Qed.

(** A download of at most one frame never ends: its only frame has the type
    of a single frame, and neither a read nor a further frame ever reports the
    end; the client stays started. *)
Theorem client_single_frame_never_finishes data s c fin :
  client_run data s c fin -> 0 < len data -> last_fno data = 0 ->
  fin = 0 /\ tl_status s = SCOM_TL_STATE_CLIENT_STARTED.
Proof. intros Hrun Hd Hl. destruct (single_run _ _ _ _ Hrun Hd Hl) as [Hca ->]. by destruct Hca. Qed.

(** ** The connection *)

(** [steps_tac] on the programs of this file. *)
Ltac tl_keeps :=
  unfold set_status, set_ctl, set_tx_rb, set_rx_rb, tm_start_resend, tm_stop_resend; steps_tac.

Lemma keeps_send_frame {X} (f : SCOM -> X) t ft no d n :
  (forall s l, f {| s with tl_sent := l |} = f s) -> keeps f (scom_tl_send_frame t ft no d n).
Proof. intros Hf. unfold scom_tl_send_frame. steps_tac. apply (steps_mod _). intros s. apply Hf. Qed.

Lemma keeps_send_msg {X} (f : SCOM -> X) t d n :
  (forall s l, f {| s with tl_sent := l |} = f s) -> keeps f (scom_tl_send_msg t d n).
Proof. intros Hf. unfold scom_tl_send_msg. steps_tac. by apply keeps_send_frame. Qed.

#[export] Hint Resolve keeps_send_frame keeps_send_msg : steps.

Lemma keeps_status_data_req_loop n : forall i fno fcnt max, keeps tl_status (data_req_loop n i fno fcnt max).
Proof. induction n; intros; cbn [data_req_loop]; tl_keeps. Qed.

#[export] Hint Resolve keeps_status_data_req_loop : steps.

Lemma keeps_status_send_data_req : keeps tl_status scom_tl_send_data_req.
Proof. unfold scom_tl_send_data_req. tl_keeps. Qed.

#[export] Hint Resolve keeps_status_send_data_req : steps.

Lemma keeps_status_proc_data_req msg n : keeps tl_status (scom_tl_proc_data_req msg n).
Proof. unfold scom_tl_proc_data_req. tl_keeps. Qed.

Lemma keeps_status_proc_data_ok_res msg n : keeps tl_status (scom_tl_proc_data_ok_res msg n).
Proof. unfold scom_tl_proc_data_ok_res. tl_keeps. Qed.

#[export] Hint Resolve keeps_status_proc_data_req keeps_status_proc_data_ok_res : steps.

(** The state after a message of type [t]: only the connection messages change
    it, and only up to the idle state. *)
Definition connects (t : Z) (st : SCOM_TL_STATE) : SCOM_TL_STATE :=
  if ((t =? SCOM_TL_CMD_CON_REQ) || (t =? SCOM_TL_CMD_CON_RES)) &&
     (state_num st <? state_num SCOM_TL_STATE_IDLE)
  then SCOM_TL_STATE_IDLE else st.

Lemma tl_log_status f s : tl_status (tl_log f s) = tl_status s.
Proof. unfold tl_log. by destruct (tl_tx_fun s). Qed.

(** What the connection handlers send. *)
Definition con_frame (t : Z) : list Z := tl_frame_bytes t SCOM_TL_SINGLE_FRAME 0 [].

Lemma proc_con_req_run s :
  scom_tl_proc_con_req s =
    (let s1 := tl_log (con_frame SCOM_TL_CMD_CON_RES) s in
     let s2 := if state_num (tl_status s) <? state_num SCOM_TL_STATE_IDLE
               then {| s1 with tl_status := SCOM_TL_STATE_IDLE |} else s1 in
     Some (tt, if tl_get_time s2 =? 0 then s2
               else let s3 := tl_log (con_frame SCOM_TL_CMD_GET_TIME) s2 in
                    {| s3 with tl_get_time := u8 (tl_get_time s3 - 1) |})).
Proof.
  unfold scom_tl_proc_con_req, scom_tl_send_con_res.
  rewrite run_assoc, (st_bind_run _ _ _ _ _ (send_frame_empty _ _ _ s)). tl_run.
  rewrite tl_log_status. fold (con_frame SCOM_TL_CMD_CON_RES).
  set (s1 := tl_log _ s). cbv zeta.
  destruct (state_num (tl_status s) <? state_num SCOM_TL_STATE_IDLE); tl_run.
  - set (s2 := {| s1 with tl_status := _ |}). change (tl_get_time s1) with (tl_get_time s2).
    destruct (tl_get_time s2 =? 0); cbn [negb]; [done |]. rewrite run_when_true.
    by rewrite (st_bind_run _ _ _ _ _ (send_frame_empty _ _ _ s2)).
  - destruct (tl_get_time s1 =? 0); cbn [negb]; [done |]. rewrite run_when_true.
    by rewrite (st_bind_run _ _ _ _ _ (send_frame_empty _ _ _ s1)).
Qed.

Lemma proc_con_res_run s :
  scom_tl_proc_con_res s =
    Some (tt, if state_num (tl_status s) <=? state_num SCOM_TL_STATE_IDLE
              then tl_log (con_frame SCOM_TL_CMD_GET_TIME)
                     {| s with tl_timer := None; tl_status := SCOM_TL_STATE_IDLE |}
              else s).
Proof.
  unfold scom_tl_proc_con_res. tl_run.
  destruct (state_num (tl_status s) <=? state_num SCOM_TL_STATE_IDLE); tl_run; [| done].
  by rewrite (st_bind_run _ _ _ _ _ (send_frame_empty _ _ _ _)).
Qed.

(** The connection state machine: whatever message arrives, the state after
    it is the old one, except that a connection request or response lifts a
    disconnected or connecting transport to idle; a running server or client is
    never stopped by a message. *)
Theorem scom_msg_proc_status msg n s s' t :
  mem_get msg 0 = Some t -> scom_tl_msg_proc msg n s = Some (tt, s') ->
  tl_status s' = connects t (tl_status s).
Proof.
  intros Ht. unfold scom_tl_msg_proc. rewrite Ht. st_run. unfold connects.
  destruct (Z.eqb_spec t SCOM_TL_DATA_REQ) as [->|_].
  { intros E. assert (keeps tl_status (scom_tl_proc_data_req msg n;; mret tt)) as K by tl_keeps.
    exact (K _ _ _ E). }
  destruct (Z.eqb_spec t SCOM_TL_DATA_OK_RES) as [->|_].
  { intros E. exact (keeps_status_proc_data_ok_res _ _ _ _ _ E). }
  destruct (Z.eqb_spec t SCOM_TL_DATA_NG_RES) as [->|_]; [by intros [= <-] |].
  destruct (t =? SCOM_TL_CMD_CON_REQ); cbn [orb andb].
  { rewrite proc_con_req_run. cbv zeta. intros [= <-].
    change (state_num SCOM_TL_STATE_IDLE) with 2. destruct (state_num (tl_status s) <? 2);
      destruct (_ =? 0); repeat (rewrite tl_log_status || cbn [tl_status]); done. }
  destruct (t =? SCOM_TL_CMD_CON_RES); cbn [orb andb].
  { rewrite proc_con_res_run. intros [= <-].
    change (state_num SCOM_TL_STATE_IDLE) with 2.
    destruct (tl_status s) eqn:Est; cbn [state_num Z.leb Z.ltb Z.compare Pos.compare Pos.compare_cont];
      repeat (rewrite tl_log_status || cbn [tl_status]); done. }
  intros E. match type of E with ?m s = _ => assert (keeps tl_status m) as K by tl_keeps end.
  exact (K _ _ _ E).
Qed.

(** A message of another channel is passed unchanged to the handler
    registered for its channel, once, and nothing else happens; an unregistered or
    invalid channel ignores it. *)
Theorem scom_msg_proc_dispatch t rest n s :
  5 <= t < 256 -> is_byte t -> length (tl_proc_fun s) = 10%nat -> 0 < n <= len (t :: rest) ->
  let chn := Z.shiftr (Z.land t 0xf0) 4 in
  scom_tl_msg_proc (t :: rest) n s =
    Some (tt, if default false (tl_proc_fun s !! Z.to_nat chn)
              then {| s with tl_calls := tl_calls s ++ [(chn, take (Z.to_nat n) (t :: rest))] |}
              else s).
Proof.
  intros Ht _ Hl Hn chn. unfold scom_tl_msg_proc.
  change (mem_get (t :: rest) 0) with (Some t). st_run.
  unfold SCOM_TL_DATA_REQ, SCOM_TL_DATA_OK_RES, SCOM_TL_DATA_NG_RES, SCOM_TL_CMD_CON_REQ, SCOM_TL_CMD_CON_RES.
  repeat (rewrite (proj2 (Z.eqb_neq t _)) by lia). fold chn.
  assert (0 <= chn) as Hc by (apply Z.shiftr_nonneg, Z.land_nonneg; lia).
  unfold SCOM_TL_CHN_NUM. destruct (Z.leb_spec 10 chn) as [Hi|Hi].
  { by rewrite (lookup_ge_None_2 (tl_proc_fun s)) by lia. }
  destruct (mem_get_is_Some (tl_proc_fun s) chn) as [b Hb]; [unfold len; lia |].
  st_run. rewrite Hb. pose proof (mem_get_Some _ _ _ Hb) as [_ ->]. st_run. cbn [default from_option id].
  destruct b; [| done]. rewrite run_when_true, mem_read_ok by lia.
  change (Z.to_nat 0) with 0%nat. rewrite drop_0. done.
Qed.

(** ** Initialisation *)

(** Initialisation: the inner phase creates two empty rings of 512 and 2
    KByte and no handlers; the outer phase starts connecting and arms the resend
    timer, but as no device function is registered yet nothing is sent. *)
Theorem scom_tl_init_state s tm_ret :
  exists s1, scom_tl_init tm_ret INIT_PHASE_INSIDE s = Some (0, s1) /\
    rb_wf (tl_tx_rb s1) /\ rb_wf (tl_rx_rb s1) /\ contents (tl_tx_rb s1) = [] /\
    contents (tl_rx_rb s1) = [] /\ tl_rx_ctl s1 = rx_ctl_init /\
    rb_size (tl_tx_rb s1) = 512 * 1024 /\ rb_size (tl_rx_rb s1) = 2 * 1024 /\
    tl_proc_fun s1 = replicate 10 false /\
    scom_tl_init 0 INIT_PHASE_OUTSIDE s1 =
      Some (0, {| s1 with tl_status := SCOM_TL_STATE_CONNECTING; tl_timer := Some 1000 |}) /\
    (tm_ret <> 0 -> scom_tl_init tm_ret INIT_PHASE_OUTSIDE s1 = Some (tm_ret, s1)).
Proof.
  unfold scom_tl_init, set_tx_rb, set_rx_rb, set_ctl. st_run.
  destruct (rb_init_step (tl_tx_rb s) (replicate (Z.to_nat (512 * 1024)) 0) (512 * 1024) 19)
    as (tx & Etx & Hwt & Hct & Hst); [lia | done | by rewrite len_replicate |].
  destruct (rb_init_step (tl_rx_rb s) (replicate (Z.to_nat (2 * 1024)) 0) (2 * 1024) 11)
    as (rx & Erx & Hwr & Hcr & Hsr); [lia | done | by rewrite len_replicate |].
  rewrite Etx, Erx. cbn [snd]. eexists. split; [reflexivity |].
  cbn [tl_tx_rb tl_rx_rb tl_rx_ctl tl_proc_fun].
  do 8 (split; [done |]). split; [| intros Hr; by rewrite (proj2 (Z.eqb_neq _ _) Hr)].
  change (negb (0 =? 0)) with false. cbv iota. unfold scom_tl_send_con_req.
  by rewrite run_assoc, (st_bind_run _ _ _ _ _ (send_frame_empty _ _ _ _)).
Qed.

(** ** Witnesses *)

(** An idle transport with the given rings and a registered device function. *)
Definition demo_scom (tx rx : ring_buffer) : SCOM :=
  {| tl_status := SCOM_TL_STATE_IDLE; tl_tx_rb := tx; tl_rx_rb := rx; tl_rx_ctl := rx_ctl_init;
     tl_tx_fun := true; tl_proc_fun := replicate 9 false ++ [true]; tl_get_time := 50;
     tl_frame := replicate 242 0; tl_timer := None; tl_sent := []; tl_calls := [] |}.

Lemma demo_rings :
  exists tx rx, rb_wf tx /\ rb_size tx = 512 * 1024 /\ rb_wf rx /\ rb_size rx = 2 * 1024.
Proof.
  set (rb0 := {| rb_buffer := []; rb_size := 0; rb_ipos := 0; rb_opos := 0 |}).
  destruct (rb_init_step rb0 (replicate (Z.to_nat (512 * 1024)) 0) (512 * 1024) 19)
    as (tx & _ & Hwt & _ & Hst); [lia | done | by rewrite len_replicate |].
  destruct (rb_init_step rb0 (replicate (Z.to_nat (2 * 1024)) 0) (2 * 1024) 11)
    as (rx & _ & Hwr & _ & Hsr); [lia | done | by rewrite len_replicate |].
  by exists tx, rx.
Qed.

Lemma server_answers_request_witness :
  exists s fr, serving s (replicate 300 7) /\
    scom_tl_proc_data_req (data_req_msg 0 1 5 []) 10 s =
      Some (0, {| s with tl_frame := fr;
        tl_sent := tl_sent s ++ map (server_frame (replicate 300 7)) [1] |}).
Proof.
  destruct demo_rings as (tx & rx & Htx & Hst & Hrx & Hsr).
  destruct (start_server_serves (demo_scom tx rx) (replicate 300 7))
    as (s & _ & Hs & Ht & _); try done.
  destruct (server_answers_request s (replicate 300 7) 0 1 5 [] 10 Hs) as (fr & _ & E); try done.
  exists s, fr. split; [done |]. exact E.
Defined.

(** *** A download *)

Inductive CLIENT_EV := EvFrame (i : Z) | EvRead (n : Z).

(** The runs of a client on given events; [None] if one is not possible. *)
Fixpoint client_drive (data : list Z) (evs : list CLIENT_EV) (s : SCOM) (c : list Z) (fin : Z) : option (SCOM * list Z * Z) :=
  match evs with
  | [] => Some (s, c, fin)
  | EvFrame i :: evs =>
      if (0 <=? i) && (i <? req_end s) && (i <=? last_fno data) then
        '(_, s) ← scom_tl_msg_proc (data_ok_msg data i []) (len (data_ok_msg data i [])) s; client_drive data evs s c fin
      else None
  | EvRead n :: evs =>
      if (0 <=? n) && (n <=? 512) then
        '(ret, fin, buf, s) ← scom_tl_get_data (replicate 512 0) n s; client_drive data evs s (c ++ take (Z.to_nat ret) buf) fin
      else None
  end.

Lemma client_drive_run data evs : forall s c fin s' c' fin',
  client_run data s c fin -> client_drive data evs s c fin = Some (s', c', fin') -> client_run data s' c' fin'.
Proof.
  induction evs as [|[i | n] evs IH]; intros s c fin s' c' fin' Hr; cbn [client_drive]; [by intros [= <- <- <-] | |].
  - destruct (_ && _) eqn:Hc; [| done]. apply andb_true_iff in Hc as [Hc H3]. apply andb_true_iff in Hc as [H1 H2].
    destruct (scom_tl_msg_proc _ _ s) as [[[] s1]|] eqn:E; [| done]. cbn [mbind option_bind]. apply IH.
    apply (client_run_frame data s c fin i [] s1); [done | lia | lia | done].
  - destruct (_ && _) eqn:Hc; [| done]. apply andb_true_iff in Hc as [H1 H2].
    destruct (scom_tl_get_data _ n s) as [[[[ret f] buf] s1]|] eqn:E; [| done]. cbn [mbind option_bind]. apply IH.
    apply (client_run_read data s c fin (replicate 512 0) n ret f buf s1); [done | | done].
    change (len (replicate 512 0)) with 512. lia.
Qed.

(** Three frames, the second one first and the first one twice, and four reads. *)
Definition demo_data : list Z := map Z.of_nat (seq 0 250) ++ map Z.of_nat (seq 5 250).
Definition demo_evs : list CLIENT_EV :=
  [EvFrame 1; EvFrame 0; EvRead 100; EvFrame 0; EvFrame 1; EvRead 300; EvFrame 2; EvRead 50; EvRead 200].
Definition demo_client_ring : ring_buffer := {| rb_buffer := replicate 2048 0; rb_size := 2048; rb_ipos := 0; rb_opos := 0 |}.

Lemma demo_client_ring_wf : rb_wf demo_client_ring.
Proof. split; [exists 11; split; [lia | done] | done | | | done]; unfold is_u32; cbn; lia. Qed.

Definition demo_download : option (SCOM * list Z * Z) :=
  '(_, s) ← scom_tl_start_client (demo_scom demo_client_ring demo_client_ring); client_drive demo_data demo_evs s [] 0.

(** Half of it is a prefix, and all of it arrives. *)
Lemma client_download_in_order_witness :
  exists s c, client_run demo_data s c 1 /\ len c = 500 /\ c = demo_data.
Proof.
  assert (exists s c, demo_download = Some (s, c, 1) /\ len c = 500) as (s & c & E & Hc).
  { do 2 eexists. split; vm_compute; reflexivity. }
  assert (client_run demo_data s c 1) as Hrun.
  { destruct (client_start_run demo_data (demo_scom demo_client_ring demo_client_ring) demo_client_ring_wf) as (s1 & E1 & _); [reflexivity.. | discriminate |].
    revert E. unfold demo_download. rewrite E1. cbn [mbind option_bind]. apply client_drive_run.
    apply (client_run_start _ (demo_scom demo_client_ring demo_client_ring)); [exact demo_client_ring_wf | reflexivity | exact E1]. }
  exists s, c. split; [exact Hrun |]. split; [exact Hc |].
  destruct (client_download_in_order demo_data s c 1 Hrun) as (_ & H & _); [reflexivity | reflexivity |]. exact (H eq_refl).
Defined.

Lemma client_never_requests_on_frame_witness :
  exists s s', client_run (replicate 1452 7) s [] 0 /\ tl_sent s' = tl_sent s.
Proof.
  destruct demo_rings as (tx & rx & Htx & Hst & Hrx & Hsr). set (data := replicate 1452 7).
  destruct (client_start_run data (demo_scom tx rx)) as (s & E & Hca & Hr); try done.
  assert (client_run data s [] 0) as Hrun by (by apply (client_run_start _ (demo_scom tx rx))).
  destruct (client_frame_step data s [] 4 [] Hca) as (s' & E' & _); try done; [lia |].
  exists s, s'. split; [done |].
  apply (client_never_requests_on_frame data s [] 0 4 [] s' Hrun); try done; lia.
Defined.

Lemma client_single_frame_never_finishes_witness :
  exists s, client_run [1; 2; 3] s [] 0 /\ tl_status s = SCOM_TL_STATE_CLIENT_STARTED.
Proof.
  destruct demo_rings as (tx & rx & Htx & Hst & Hrx & Hsr).
  destruct (client_start_run [1; 2; 3] (demo_scom tx rx)) as (s & E & _); try done.
  exists s. assert (client_run [1; 2; 3] s [] 0) as Hrun by (by apply (client_run_start _ (demo_scom tx rx))).
  split; [done |]. apply (client_single_frame_never_finishes [1; 2; 3] s [] 0 Hrun); done.
Defined.

Lemma scom_msg_proc_status_witness :
  exists s s', tl_status s = SCOM_TL_STATE_IDLE /\
    scom_tl_msg_proc (SCOM_TL_MSG_HDR SCOM_TL_CMD_CON_REQ 0 0 0) 6 s = Some (tt, s') /\
    tl_status s' = SCOM_TL_STATE_IDLE.
Proof.
  destruct demo_rings as (tx & rx & _). exists (demo_scom tx rx). eexists.
  assert (scom_tl_msg_proc (SCOM_TL_MSG_HDR SCOM_TL_CMD_CON_REQ 0 0 0) 6 (demo_scom tx rx) =
    scom_tl_proc_con_req (demo_scom tx rx)) as E by done.
  rewrite proc_con_req_run in E. split; [done |]. split; [exact E |].
  apply (scom_msg_proc_status (SCOM_TL_MSG_HDR SCOM_TL_CMD_CON_REQ 0 0 0) 6 (demo_scom tx rx) _ 0);
    [done | exact E].
Defined.

Lemma scom_msg_proc_dispatch_witness :
  exists s, scom_tl_msg_proc [0x91; 5] 2 s =
    Some (tt, {| s with tl_calls := tl_calls s ++ [(9, [0x91; 5])] |}).
Proof.
  destruct demo_rings as (tx & rx & _). exists (demo_scom tx rx).
  apply (scom_msg_proc_dispatch 0x91 [5] 2 (demo_scom tx rx)); done.
Defined.
