(* ===== verification/UdsBase.v ===== *)
(** * UDS diagnostic stack: state, timers and responses

    The data of src/app/base/uds (uds_define.h), the timers (uds_timer.c,
    [uds_set_timer]) and the functions that send requests and responses
    (uds_request.c).  The handlers run in a state monad over the static
    variables of the stack; what a handler does outside of the stack is logged
    as a list of events.  [UdsEnv] collects what the stack reads from its
    environment. *)

From S2P Require Import Prelude Framing Scom.

(** ** Constants *)

Definition UDS_TYPE_CLIENT : Z := 1.
Definition UDS_TYPE_SERVER : Z := 2.
Definition UDS_SERVER_MAX_BYTE : Z := 4096.

Definition SESSION_TYPE_DEFAULT : Z := 1.
Definition SESSION_TYPE_PROGRAM : Z := 2.
Definition SESSION_TYPE_EXTENDED : Z := 3.

Definition SecurityAccess_LEVEL0 : Z := 0.
Definition SecurityAccess_LEVEL1 : Z := 1.
Definition SecurityAccess_LEVEL2 : Z := 2.

Definition POS_RESPOND_SID_MASK : Z := 0x40.
Definition SID_NegativeResponse : Z := 0x7F.
Definition SID_TestPresent : Z := 0x3E.
Definition suppressPosRspMsgIndicationBit : Z := 0x80.
Definition suppressPosRspMsgIndicationBitMask : Z := 0x7F.

Definition NRC_ServiceNotSupported : Z := 0x11.
Definition NRC_SubFuncationNotSupported : Z := 0x12.
Definition NRC_IncorrectMessageLengthOrInvailFormat : Z := 0x13.
Definition NRC_ConditionsNotCorrect : Z := 0x22.
Definition NRC_RequstSequenceError : Z := 0x24.
Definition NRC_RequestOutOfRange : Z := 0x31.
Definition NRC_SecurityAccessDenied : Z := 0x33.
Definition NRC_InvalidKey : Z := 0x35.
Definition NRC_ExceedNumberOfAttempts : Z := 0x36.
Definition NRC_RequiredTimeDelayNotExpired : Z := 0x37.
Definition NRC_GeneralProgrammingFailure : Z := 0x72.
Definition NRC_wrongBlockSequenceCounter : Z := 0x73.
Definition NRC_RequestCorrectlyReceivedResponsePending : Z := 0x78.
Definition NRC_ServiceNotSupportedInActiveSession : Z := 0x7F.

Definition MSG_ID_UDS_SET_S : Z := 0xF1.
Definition MSG_ID_UDS_SET_C : Z := 0xF2.
Definition MSG_ID_UDS_REQ : Z := 0xF3.
Definition MSG_ID_UDS_IND : Z := 0xF4.
Definition MSG_ID_UDS_CFM : Z := 0xF5.
Definition MSG_ID_UDS_S_ACK : Z := 0xF7.
Definition MSG_ID_UDS_C_ACK : Z := 0xF8.

Definition N_OK : Z := 1.

Inductive UDS_TIMER_E :=
| P2SERVER | P2CLINT | P2EXT_SERVER | P2EXT_CLIENT
| S3SERVER | S3CLIENT | SERVER_SET | CLIENT_SET.

#[export] Instance UDS_TIMER_E_eq_dec : EqDecision UDS_TIMER_E.
Proof. solve_decision. Defined.

(** ** State *)

(** [uds_timer_t] and the switch and value of [UDS_TIMER_T]; [tmr_armed] is the
    running time of the created timer, [None] if there is none. *)
Record UDS_TIMER_T := {
  tmr_seq : Z; tmr_armed : option Z; tmr_switch : Z; tmr_value : Z
}.

Record UDS_T := {
  uds_mode : Z; uds_canport : Z; uds_sid : Z; uds_nrc : Z;
  uds_can_id_phy : Z; uds_can_id_fun : Z; uds_can_id_req : Z; uds_can_id_res : Z;
  uds_timer : UDS_TIMER_E -> UDS_TIMER_T
}.

(** The two static objects an [UDS_T *] can point to. *)
Inductive UDS_PTR := uds_server_ptr | uds_client_ptr.

#[export] Instance UDS_PTR_eq_dec : EqDecision UDS_PTR.
Proof. solve_decision. Defined.

(** Static variables of [UDS_SRV_SecrityAcess]. *)
Record SA_STATE := {
  sa_flag : Z; sa_counter : Z; sa_fail : Z; sa_time : Z;
  sa_seed : Z; sa_attempt : Z
}.

(** [TRANSFERDATACOFIG] of uds_file.h. *)
Record TRANSFER := {
  tr_prog_addr : Z; tr_prog_size : Z; tr_erase_addr : Z; tr_erase_size : Z;
  tr_block : Z; tr_status : Z; tr_data : list Z; tr_datasize : Z
}.

(** A row of [diag_table] (its constant and its variable part); [di_confirmed] is
    the offset of the confirmed flag in [uds_diag_item_buf]. *)
Record DIAG_ITEM_INFO := {
  di_dtc : list Z; di_thsd : Z; di_len : Z; di_offset : Z; di_counter : Z;
  di_confirmed : option Z; di_freeze : list Z
}.

(** What the handlers do outside of the stack. *)
Inductive UDS_EVENT :=
| EvSend (data : list Z)                           (* scom_tl_send_frame *)
| EvPm (evt : Z)                                   (* pm_send_evt *)
| EvClientCb (msg_id can_id : Z) (data : list Z)   (* uds_client_cb *)
| EvSaveDiag (buf : list Z)                        (* rds_update_once *)
| EvTukeyRequest                                   (* ap_do_report_request_tukey_qet *)
| EvTukeyClear.                                    (* tu_key_check_flag_finish = 0 *)

Record UDS := {
  u_server : UDS_T;
  u_client : UDS_T;
  u_session : Z;                  (* g_u8CurrentSessionType *)
  u_security : Z;                 (* g_u8SecurityAccess *)
  u_suppress : Z;                 (* g_u8suppressPosRspMsgIndicationFlag *)
  u_diag_id : Z;                  (* g_u32DiagID *)
  u_client_cb : bool;             (* uds_client_cb is set *)
  u_hold_mode : Z;
  u_dtc_switch : Z;               (* DTCSwitch *)
  u_tx_flag : Z;                  (* g_TxFlag *)
  u_rx_flag : Z;                  (* g_RxFlag *)
  u_sa : SA_STATE;
  u_erase_flag : Z;               (* erasememoryflag *)
  u_transfer : TRANSFER;          (* TransferDataConfig *)
  u_diag : list DIAG_ITEM_INFO;   (* diag_table *)
  u_diag_buf : list Z;            (* uds_diag_item_buf *)
  u_dtc_index : list Z;           (* DTC_index *)
  u_rdbi_buf : list Z;            (* Ar_u8RePDU_DATA of UDS_SRV_ReadDataByID *)
  u_now : nat;                    (* number of readings of the environment so far *)
  u_events : list UDS_EVENT       (* oldest first *)
}.

Abbreviation UM := (ST UDS).

(** ** Environment *)

Class UdsEnv := {
  env_time : nat -> Z;                        (* tm_get_time at the n-th reading *)
  env_tukey : nat -> Z;                       (* tu_key_check_flag_finish, set by another thread *)
  env_rand : Z -> Z;                          (* rand() after srand *)
  env_stack_byte : Z;                         (* what an uninitialised or foreign stack byte holds *)
  env_fault : nat -> nat -> Z;                (* result of a device's diagnosis function *)
  env_did_get : nat -> Z -> Z -> Z * list Z;  (* a DID's get function: return value, bytes written *)
  env_did_set : nat -> Z -> list Z -> Z;      (* a DID's set function *)
  env_tl_send : list Z -> Z;                  (* scom_tl_send_frame of a UDS message *)
  env_fuel : nat                              (* bound for the polling loop of the routine control *)
}.

(** What the stack relies on from the transport layer. *)
Class TransportOk (e : UdsEnv) := {
  tl_send_result : forall d, env_tl_send d = 0 \/ env_tl_send d = -1;
  tl_send_short : forall d, len d <= 248 -> env_tl_send d = 0
}.

Definition SCOM_TL_CMD_UDS_MSG : Z := Z.shiftl 7 4.

(** The transport layer of [Scom] keeps this promise. *)
Definition scom_tl_uds_send (d : list Z) : Z :=
  if len (frame (SCOM_TL_MSG_HDR SCOM_TL_CMD_UDS_MSG SCOM_TL_SINGLE_FRAME 0 (len d) ++ d)) <=? 512
  then 0 else -1.

Section env.
Context `{UdsEnv}.

(** ** Access to the state *)

Definition uds_get (p : UDS_PTR) (s : UDS) : UDS_T :=
  match p with uds_server_ptr => u_server s | uds_client_ptr => u_client s end.

Definition uds_put (p : UDS_PTR) (u : UDS_T) (s : UDS) : UDS :=
  match p with
  | uds_server_ptr => {| s with u_server := u |}
  | uds_client_ptr => {| s with u_client := u |}
  end.

Definition uds_mod (p : UDS_PTR) (f : UDS_T -> UDS_T) : UM unit :=
  st_mod (fun s => uds_put p (f (uds_get p s)) s).

Definition emit (e : UDS_EVENT) : UM unit :=
  st_mod (fun s => {| s with u_events := u_events s ++ [e] |}).

Definition set_session (v : Z) : UM unit := st_mod (fun s => {| s with u_session := v |}).
Definition set_security (v : Z) : UM unit := st_mod (fun s => {| s with u_security := v |}).
Definition set_suppress (v : Z) : UM unit := st_mod (fun s => {| s with u_suppress := v |}).
Definition set_transfer (v : TRANSFER) : UM unit := st_mod (fun s => {| s with u_transfer := v |}).
Definition set_flags (tx rx : Z) : UM unit := st_mod (fun s => {| s with u_tx_flag := tx; u_rx_flag := rx |}).
Definition set_sa (v : SA_STATE) : UM unit := st_mod (fun s => {| s with u_sa := v |}).
Definition set_dtc_switch (v : Z) : UM unit := st_mod (fun s => {| s with u_dtc_switch := v |}).

(** One reading of the environment. *)
Definition env_read {A} (f : nat -> A) : UM A :=
  s ← st_get; st_mod (fun s => {| s with u_now := S (u_now s) |});; mret (f (u_now s)).

Definition tm_get_time : UM Z := env_read env_time.

(** ** Timers *)

Definition timer_mod (p : UDS_PTR) (name : UDS_TIMER_E) (f : UDS_TIMER_T -> UDS_TIMER_T) : UM unit :=
  uds_mod p (fun u => {| u with uds_timer := fun n =>
    if decide (n = name) then f (uds_timer u n) else uds_timer u n |}).

Definition uds_timer_create (p : UDS_PTR) (name : UDS_TIMER_E) : UM unit :=
  timer_mod p name (fun t => {| t with tmr_seq := 0; tmr_armed := None |}).

(** [++(tm->seq) == 0 ? 1] on 16 bits. *)
Definition next_seq (seq : Z) : Z := if u16 (seq + 1) =? 0 then 1 else u16 (seq + 1).

(** The timer is created if the time is positive; the creation succeeds. *)
Definition uds_timer_settime (p : UDS_PTR) (name : UDS_TIMER_E) (time : Z) : UM unit :=
  timer_mod p name (fun t =>
    {| t with tmr_seq := next_seq (tmr_seq t);
              tmr_armed := if 0 <? time then Some time else None |}).

Definition uds_set_timer (p : UDS_PTR) (name : UDS_TIMER_E) (switch_value : Z) : UM unit :=
  timer_mod p name (fun t => {| t with tmr_switch := switch_value |});;
  if 1 =? switch_value then
    s ← st_get;
    uds_timer_settime p name (tmr_value (uds_timer (uds_get p s) name))
  else uds_timer_settime p name 0.

(** ** Requests and responses *)

Definition le32 (z : Z) : list Z :=
  [u8 z; u8 (Z.shiftr z 8); u8 (Z.shiftr z 16); u8 (Z.shiftr z 24)].

(** The header [uds_data_request] puts before the data. *)
Definition request_header (mode msg_id can_id pdu_dlc : Z) : list Z :=
  [u8 msg_id] ++
  (if negb (MSG_ID_UDS_SET_S =? msg_id) && negb (MSG_ID_UDS_SET_C =? msg_id)
      && ((UDS_TYPE_SERVER =? mode) || (UDS_TYPE_CLIENT =? mode))
   then le32 can_id ++ le16 pdu_dlc else []).

(** [pdu_data] is the block of the argument, [None] a null pointer (which the
    function dereferences); the local buffer has 2048 bytes. *)
Definition uds_data_request (p : UDS_PTR) (msg_id can_id : Z) (pdu_data : option (list Z))
    (pdu_dlc : Z) : UM Z :=
  s ← st_get;
  let hdr := request_header (uds_mode (uds_get p s)) msg_id can_id pdu_dlc in
  body ← st_lift (match pdu_data with
                  | Some d => if negb (pdu_dlc =? 0) then mem_read d 0 pdu_dlc else Some []
                  | None => Some []
                  end);
  if UDS_SERVER_MAX_BYTE / 2 <? len (hdr ++ body) then st_lift None
  else
    sid ← st_lift (d ← pdu_data; mem_get d 0);
    uds_mod p (fun u => {| u with uds_sid := sid; uds_can_id_req := can_id |});;
    emit (EvSend (hdr ++ body));;
    mret (u32 (env_tl_send (hdr ++ body))).

(** Byte [i] of a local array of which [pdu] has been written. *)
Definition stack_get (pdu : list Z) (i : Z) : Z := default env_stack_byte (mem_get pdu i).

(** [pdu] are the bytes written so far to the caller's array. *)
Definition uds_positive_response (p : UDS_PTR) (can_id pdu_dlc : Z) (pdu : list Z) : UM Z :=
  s ← st_get;
  let uds := uds_get p s in
  if uds_mode uds =? UDS_TYPE_SERVER then
    if pdu_dlc <=? UDS_SERVER_MAX_BYTE then
      if negb (stack_get pdu 0 =? SID_NegativeResponse) && (u_suppress s =? 1) then
        set_suppress 0;; mret 0
      else if (u_diag_id s =? uds_can_id_phy uds) && (stack_get pdu 0 =? SID_NegativeResponse) &&
              ((stack_get pdu 2 =? NRC_ServiceNotSupported) ||
               (stack_get pdu 2 =? NRC_SubFuncationNotSupported) ||
               (stack_get pdu 2 =? NRC_RequestOutOfRange)) then
        set_suppress 0;; mret 0
      else
        ret ← uds_data_request p MSG_ID_UDS_REQ can_id (Some pdu) pdu_dlc;
        (if ret =? 0 then
           uds_mod p (fun u => {| u with uds_sid := stack_get pdu 0; uds_nrc := stack_get pdu 2 |});;
           st_when (NRC_RequestCorrectlyReceivedResponsePending =? stack_get pdu 2)
             (uds_set_timer p P2EXT_SERVER 1)
         else mret tt);;
        set_suppress 0;;
        mret ret
    else mret 0
  else mret 0.

Definition uds_negative_response (p : UDS_PTR) (srv_id nrc : Z) : UM unit :=
  s ← st_get;
  _ ← uds_positive_response p (uds_can_id_res (uds_get p s)) 3 [SID_NegativeResponse; srv_id; nrc];
  mret tt.

(** Reading the request. *)
Definition pdu_at (pdu : list Z) (i : Z) : UM Z := st_lift (mem_get pdu i).

(** [uds_positive_response(tUDS, tUDS->can_id_res, n, ...)] with the first bytes
    of the response. *)
Definition respond (p : UDS_PTR) (n : Z) (pdu : list Z) : UM unit :=
  s ← st_get; _ ← uds_positive_response p (uds_can_id_res (uds_get p s)) n pdu; mret tt.

(** [if (p_u8PDU_Data[1] & suppressPosRspMsgIndicationBit)]. *)
Definition suppress_bit (sub : Z) : UM unit :=
  st_when (negb (Z.land sub suppressPosRspMsgIndicationBit =? 0)) (set_suppress 1).

End env.

(** ** The transport instance *)

Lemma scom_tl_uds_send_run d s :
  len d < 2 ^ 31 ->
  scom_tl_send_frame SCOM_TL_CMD_UDS_MSG SCOM_TL_SINGLE_FRAME 0 (Some d) (len d) s =
    Some (scom_tl_uds_send d,
          if scom_tl_uds_send d =? 0
          then tl_log (frame (SCOM_TL_MSG_HDR SCOM_TL_CMD_UDS_MSG SCOM_TL_SINGLE_FRAME 0 (len d) ++ d)) s
          else s).
Proof.
  intros Hd. pose proof (len_nonneg d). rewrite send_frame_run by (split; [lia | done]).
  rewrite segment_all. unfold scom_tl_uds_send. by case_bool.
Qed.

Lemma scom_transport_ok (e : UdsEnv) :
  (forall d, env_tl_send d = scom_tl_uds_send d) -> TransportOk e.
Proof.
  intros He. split; intros d.
  - rewrite He. unfold scom_tl_uds_send. case_bool; auto.
  - intros Hl. rewrite He. unfold scom_tl_uds_send.
    pose proof (frame_len_bound (SCOM_TL_MSG_HDR SCOM_TL_CMD_UDS_MSG SCOM_TL_SINGLE_FRAME 0 (len d) ++ d)) as Hb.
    rewrite len_app, hdr_len in Hb. unfold SIZEOF_HDR in Hb.
    by rewrite (proj2 (Z.leb_le _ 512)) by lia.
Qed.
