(* ===== verification/UdsDiag.v ===== *)
(** * UDS diagnosis: fault counters, trouble codes, identifiers

    src/app/base/uds/server/uds_diag.c and uds_read_dtc.c with the tables of
    server/foton/uds_diag_def.h.  The devices' diagnosis functions and the
    identifiers' get and set functions are parameters ([UdsEnv]). *)

From S2P Require Import Prelude UdsBase.

Definition DIAG_MAX_DID_CNT : Z := 17.
Definition DIAG_ITEM_BUF_LEN : Z := 1024.
Definition DID_INVALID : Z := 0xFFFF.
Definition DIAG_ITEM_NUM : Z := 17.
Definition UDS_INVALID_PARA : Z := Z.lor (Z.shiftl 0x0C00 16) 1.

Inductive DIAG_DATA_TYPE :=
| DIAG_DATA_UINT | DIAG_DATA_USHORT | DIAG_DATA_UCHAR | DIAG_DATA_STRING
| DIAG_DATA_DOUBLE | DIAG_DATA_TIME | DIAG_DATA_INVALID.

#[export] Instance DIAG_DATA_TYPE_eq_dec : EqDecision DIAG_DATA_TYPE.
Proof. solve_decision. Defined.

(** A row of [diag_did_table]; [did_writable] tells if its set function is not
    null. *)
Record DIAG_ITEM_DID := {
  did_id : Z; did_type : DIAG_DATA_TYPE; did_len : Z; did_writable : bool
}.

Definition did_row (id : Z) (t : DIAG_DATA_TYPE) (l : Z) (w : bool) : DIAG_ITEM_DID :=
  {| did_id := id; did_type := t; did_len := l; did_writable := w |}.

Definition diag_did_table : list DIAG_ITEM_DID :=
  [ did_row 0xF18C DIAG_DATA_STRING 8 false;  did_row 0xF1EE DIAG_DATA_STRING 14 false;
    did_row 0xF1EF DIAG_DATA_STRING 10 false; did_row 0xF18A DIAG_DATA_STRING 5 false;
    did_row 0xF198 DIAG_DATA_STRING 10 false; did_row 0xF187 DIAG_DATA_STRING 13 false;
    did_row 0xF190 DIAG_DATA_STRING 17 true;  did_row 0xF199 DIAG_DATA_STRING 4 true;
    did_row 0xF197 DIAG_DATA_STRING 14 false; did_row 0xF193 DIAG_DATA_STRING 14 false;
    did_row 0xF195 DIAG_DATA_STRING 14 false; did_row 0xF184 DIAG_DATA_STRING 14 false;
    did_row 0x4600 DIAG_DATA_STRING 64 true;  did_row 0x4601 DIAG_DATA_STRING 32 true;
    did_row 0x4602 DIAG_DATA_STRING 32 true;  did_row 0x4603 DIAG_DATA_STRING 64 true;
    did_row 0x4604 DIAG_DATA_STRING 32 true;  did_row 0x4605 DIAG_DATA_STRING 32 true;
    did_row 0x4606 DIAG_DATA_STRING 32 true;  did_row 0x4607 DIAG_DATA_STRING 32 true;
    did_row 0x4608 DIAG_DATA_STRING 6 true;   did_row 0x4609 DIAG_DATA_STRING 16 true;
    did_row 0x460A DIAG_DATA_STRING 15 false; did_row 0x460B DIAG_DATA_STRING 20 false;
    did_row 0x460C DIAG_DATA_STRING 15 false; did_row 0x460D DIAG_DATA_STRING 15 false;
    did_row 0x460E DIAG_DATA_UCHAR 1 true;    did_row 0x09FF DIAG_DATA_UCHAR 1 true;
    did_row 0x09FE DIAG_DATA_UCHAR 1 false ].

(** The freeze list of a row: the listed identifiers, the end mark, zeros. *)
Definition freeze_list (dids : list Z) : list Z :=
  take (Z.to_nat DIAG_MAX_DID_CNT) (dids ++ [DID_INVALID] ++ replicate 17 0).

Definition diag_row (dtc : list Z) (thsd : Z) : DIAG_ITEM_INFO :=
  {| di_dtc := dtc; di_thsd := thsd; di_len := 0; di_offset := 0; di_counter := 0;
     di_confirmed := None; di_freeze := freeze_list [] |}.

(** The DTC strings, as character codes, and the thresholds. *)
Definition diag_table_init : list DIAG_ITEM_INFO :=
  [ diag_row [57; 67; 48; 48; 55; 49] 45;  (* "9C0071" *)
    diag_row [57; 67; 48; 49; 49; 49] 4;   (* "9C0111" *)
    diag_row [57; 67; 48; 49; 49; 50] 4;   (* "9C0112" *)
    diag_row [57; 67; 48; 49; 49; 51] 4;   (* "9C0113" *)
    diag_row [57; 67; 48; 50; 51; 49] 4;   (* "9C0231" *)
    diag_row [57; 67; 48; 51; 49; 49] 4;   (* "9C0311" *)
    diag_row [57; 67; 48; 51; 49; 50] 4;   (* "9C0312" *)
    diag_row [57; 67; 48; 51; 49; 51] 12;  (* "9C0313" *)
    diag_row [57; 67; 48; 52; 51; 49] 60;  (* "9C0431" *)
    diag_row [57; 67; 48; 53; 49; 49] 4;   (* "9C0511" *)
    diag_row [57; 67; 48; 54; 48; 48] 60;  (* "9C0600" *)
    diag_row [57; 67; 48; 55; 49; 54] 10;  (* "9C0716" *)
    diag_row [57; 67; 48; 55; 49; 55] 10;  (* "9C0717" *)
    diag_row [57; 67; 48; 56; 48; 49] 10;  (* "9C0801" *)
    diag_row [57; 67; 48; 57; 51; 49] 4;   (* "9C0931" *)
    diag_row [57; 67; 49; 48; 49; 55] 1;   (* "9C1017" *)
    diag_row [57; 67; 49; 49; 49; 54] 1 ]. (* "9C1116" *)

(** ** Helpers *)

Definition get_le32 (b : list Z) (off : Z) : option Z :=
  lo ← get_le16 b off; hi ← get_le16 b (off + 2); Some (lo + 65536 * hi).

Definition find_did (did : Z) : option DIAG_ITEM_DID :=
  list_find (fun r => did_id r = did) diag_did_table ≫= fun '(_, r) => Some r.

Definition uds_diag_para_check (t : DIAG_DATA_TYPE) (n : Z) : Z :=
  match t with
  | DIAG_DATA_UINT => if negb (n =? 4) then UDS_INVALID_PARA else 0
  | DIAG_DATA_USHORT => if negb (n =? 2) then UDS_INVALID_PARA else 0
  | DIAG_DATA_UCHAR => if negb (n =? 1) then UDS_INVALID_PARA else 0
  | DIAG_DATA_DOUBLE => if negb (n =? 8) then UDS_INVALID_PARA else 0
  | DIAG_DATA_STRING => if n <=? 1 then UDS_INVALID_PARA else 0
  | DIAG_DATA_TIME => if negb (n =? 6) then UDS_INVALID_PARA else 0
  | DIAG_DATA_INVALID => UDS_INVALID_PARA
  end.

(** The bytes of a freeze frame: [None] for an identifier that is not in the
    table. *)
Fixpoint freeze_size (freeze : list Z) : option Z :=
  match freeze with
  | [] => Some 0
  | d :: t =>
      if d =? DID_INVALID then Some 0
      else match find_did d with
           | None => None
           | Some r => n ← freeze_size t; Some (did_len r + n)
           end
  end.

(** The loop of [uds_diag_init] over the rows: the table so far, and if it
    failed. *)
Fixpoint diag_init_rows (rows : list DIAG_ITEM_INFO) (offset : Z)
    : list DIAG_ITEM_INFO * bool :=
  match rows with
  | [] => ([], true)
  | r :: t =>
      match freeze_size (di_freeze r) with
      | None => (r :: t, false)
      | Some size =>
          let l := size + 4 in
          let '(t', ok) := diag_init_rows t (offset + l) in
          ({| r with di_offset := offset; di_confirmed := Some offset; di_len := l |} :: t', ok)
      end
  end.

Section env.
Context `{UdsEnv}.

Definition diag_item (id : Z) : UM DIAG_ITEM_INFO :=
  s ← st_get; st_lift (mem_get (u_diag s) id).

Definition set_item (id : Z) (r : DIAG_ITEM_INFO) : UM unit :=
  s ← st_get; l ← st_lift (mem_set (u_diag s) id r);
  st_mod (fun s => {| s with u_diag := l |}).

Definition set_diag_buf (b : list Z) : UM unit := st_mod (fun s => {| s with u_diag_buf := b |}).

(** [saved] is what [rds_get] returns, [None] if it fails. *)
Definition uds_diag_init (saved : option (list Z)) : UM Z :=
  set_diag_buf (replicate (Z.to_nat DIAG_ITEM_BUF_LEN) 0);;
  s ← st_get;
  let '(rows, ok) := diag_init_rows (u_diag s) 0 in
  st_mod (fun s => {| s with u_diag := rows |});;
  if negb ok then mret UDS_INVALID_PARA
  else
    r ← st_lift (mem_get rows (len rows - 1));
    if DIAG_ITEM_BUF_LEN <? di_offset r + di_len r then mret (UDS_INVALID_PARA + 2)
    else
      (match saved with
       | Some d => s ← st_get; b ← st_lift (mem_write (u_diag_buf s) 0 d); set_diag_buf b
       | None => mret tt
       end);;
      mret 0.

(** [*(diag_table[id].confirmed)]. *)
Definition confirmed (id : Z) : UM Z :=
  r ← diag_item id;
  s ← st_get;
  off ← st_lift (di_confirmed r);
  st_lift (get_le32 (u_diag_buf s) off).

(** The loop of [uds_diag_gen_freeze] over the freeze list. *)
Fixpoint gen_freeze_loop (freeze : list Z) (offset : Z) : UM unit :=
  match freeze with
  | [] => mret tt
  | d :: t =>
      if d =? DID_INVALID then mret tt
      else
        (match find_did d with
         | Some r =>
             res ← env_read (fun n => env_did_get n d (did_len r));
             s ← st_get;
             b ← st_lift (mem_write (u_diag_buf s) (offset + 4) (snd res));
             set_diag_buf b
         | None => mret tt
         end);;
        gen_freeze_loop t offset
  end.

Definition uds_diag_gen_freeze (id : Z) : UM unit :=
  r ← diag_item id; gen_freeze_loop (di_freeze r) (di_offset r).

Definition uds_diag_one_device (id : Z) : UM unit :=
  if DIAG_ITEM_NUM <=? id then mret tt
  else
    fault ← env_read (fun n => u8 (env_fault n (Z.to_nat id)));
    r ← diag_item id;
    if fault =? 0 then set_item id {| r with di_counter := 0 |}
    else if di_counter r <? di_thsd r then
      set_item id {| r with di_counter := u32 (di_counter r + 1) |}
    else
      c ← confirmed id;
      st_when (c =? 0)
        (off ← st_lift (di_confirmed r);
         s ← st_get;
         b ← st_lift (mem_write (u_diag_buf s) off [1; 0; 0; 0]);
         set_diag_buf b;;
         uds_diag_gen_freeze id).

(** The loop of [uds_diag_all_devices]; the result is [is_gen_freeze]. *)
Fixpoint all_devices_loop (n : nat) (i : Z) (gen : bool) : UM bool :=
  match n with
  | O => mret gen
  | S n =>
      pre ← confirmed i;
      uds_diag_one_device i;;
      post ← confirmed i;
      all_devices_loop n (i + 1) (gen || ((0 =? pre) && (1 =? post)))
  end.

Definition UDS_GetDTCSetting : UM Z := st_gets u_dtc_switch.

Definition save_diag : UM unit := s ← st_get; emit (EvSaveDiag (u_diag_buf s)).

Definition uds_diag_all_devices : UM unit :=
  setting ← UDS_GetDTCSetting;
  if 0 =? setting then mret tt
  else
    gen ← all_devices_loop (Z.to_nat DIAG_ITEM_NUM) 0 false;
    st_when gen save_diag.

(** Counting the rows that satisfy a test. *)
Fixpoint count_items (n : nat) (i : Z) (test : Z -> UM bool) : UM Z :=
  match n with
  | O => mret 0
  | S n => b ← test i; c ← count_items n (i + 1) test; mret ((if (b : bool) then 1 else 0) + c)
  end.

Definition uds_diag_is_cfm_dtc_valid (id : Z) : UM bool := c ← confirmed id; mret (negb (c =? 0)).

Definition uds_diag_is_uncfm_dtc_valid (id : Z) : UM bool :=
  r ← diag_item id; mret (0 <? di_counter r).

Definition cfm_or_uncfm (id : Z) : UM bool :=
  c ← uds_diag_is_cfm_dtc_valid id;
  if (c : bool) then mret true else uds_diag_is_uncfm_dtc_valid id.

Definition uds_diag_get_dtc_num : UM Z := count_items (Z.to_nat DIAG_ITEM_NUM) 0 cfm_or_uncfm.
Definition uds_diag_get_cfm_dtc_num : UM Z :=
  count_items (Z.to_nat DIAG_ITEM_NUM) 0 uds_diag_is_cfm_dtc_valid.
Definition uds_diag_get_uncfm_dtc_num : UM Z :=
  count_items (Z.to_nat DIAG_ITEM_NUM) 0 uds_diag_is_uncfm_dtc_valid.

Definition uds_diag_get_dtc (id : Z) : UM (list Z) := r ← diag_item id; mret (di_dtc r).

(** The conversion of 16 and 32-bit values in [uds_diag_get_did_value] and
    [uds_diag_set_did_value]: [value[0] >> 8] is 0 for a byte. *)
Definition convert_value (t : DIAG_DATA_TYPE) (value : list Z) (off : Z) : option (list Z) :=
  match t with
  | DIAG_DATA_USHORT =>
      v0 ← mem_get value off; v1 ← mem_get value (off + 1);
      mem_write value off (le16 (u16 (Z.shiftr v0 8 + v1)))
  | DIAG_DATA_UINT =>
      v0 ← mem_get value off; v1 ← mem_get value (off + 1);
      v2 ← mem_get value (off + 2); v3 ← mem_get value (off + 3);
      mem_write value off (le32 (u32 (Z.shiftr v0 24 + Z.shiftr v1 16 + Z.shiftr v2 8 + v3)))
  | _ => Some value
  end.

(** [value] is the block and [off] the offset of the pointer in it.  Returns the
    value of the call, the block and [*len]. *)
Definition uds_diag_get_did_value (did : Z) (value : list Z) (off n : Z) : UM (Z * list Z * Z) :=
  match find_did did with
  | None => mret (UDS_INVALID_PARA, value, n)
  | Some r =>
      if n <? did_len r then mret (UDS_INVALID_PARA, value, n)
      else
        '(ret, bytes) ← env_read (fun k => env_did_get k did n);
        value ← st_lift (mem_write value off bytes);
        if negb (ret =? 0) then mret (ret, value, n)
        else
          value ← st_lift (convert_value (did_type r) value off);
          mret (0, value, did_len r)
  end.

(** A null set function is called for a read-only identifier. *)
Definition uds_diag_set_did_value (did : Z) (value : list Z) (off n : Z) : UM Z :=
  match find_did did with
  | None => mret NRC_RequestOutOfRange
  | Some r =>
      if negb (n =? did_len r) then mret NRC_IncorrectMessageLengthOrInvailFormat
      else
        value ← st_lift (convert_value (did_type r) value off);
        bytes ← st_lift (mem_read value off n);
        if did_writable r then
          ret ← env_read (fun k => env_did_set k did bytes);
          if negb (ret =? 0) then mret NRC_IncorrectMessageLengthOrInvailFormat else mret 0
        else st_lift None
  end.

(** The loop of [uds_diag_get_freeze]: [None] result is the error return. *)
Fixpoint get_freeze_loop (fr : list Z) (row_off len_max offset cnt : Z) (freeze : list Z)
    : UM (option (list Z * Z)) :=
  match fr with
  | [] => mret (Some (freeze, cnt))
  | d :: t =>
      if d =? DID_INVALID then mret (Some (freeze, cnt))
      else
        f ← st_lift (mem_write freeze offset [u8 (Z.shiftr d 8); u8 d]);
        let offset := offset + 2 in
        match find_did d with
        | None => mret None
        | Some r =>
            if len_max <? did_len r + offset then mret None
            else
              s ← st_get;
              f ← st_lift (memcpy f offset (u_diag_buf s) (row_off + 4) (did_len r));
              get_freeze_loop t row_off len_max (offset + did_len r) (cnt + 1) f
        end
  end.

(** Returns the value of the call, the block, [*len] and [*did_num]. *)
Definition uds_diag_get_freeze (id : Z) (freeze : list Z) (n : Z) : UM (Z * list Z * Z * Z) :=
  r ← diag_item id;
  f0 ← st_lift (mem_get (di_freeze r) 0);
  if f0 =? DID_INVALID then mret (0, freeze, 0, 0)
  else
    res ← get_freeze_loop (di_freeze r) (di_offset r) n 0 0 freeze;
    match res with
    | None => mret (NRC_RequestOutOfRange, freeze, n, 0)
    | Some (f, cnt) => mret (0, f, di_len r - 4 + cnt * 2, cnt)
    end.

Definition uds_diag_dtc_clear : UM unit :=
  set_diag_buf (replicate (Z.to_nat DIAG_ITEM_BUF_LEN) 0);;
  st_mod (fun s => {| s with u_diag := map (fun r => {| r with di_counter := 0 |}) (u_diag s) |});;
  save_diag.

(** ** Reading trouble codes (uds_read_dtc.c) *)

Definition statusOfDTC_testfail : Z := 1.
Definition statusOfDTC_ConfirmedDTC : Z := 8.
Definition status_both : Z := Z.lor statusOfDTC_testfail statusOfDTC_ConfirmedDTC.

(** A hexadecimal digit of [strtoul]. *)
Definition hex_digit (c : Z) : option Z :=
  if (48 <=? c) && (c <=? 57) then Some (c - 48)
  else if (65 <=? c) && (c <=? 70) then Some (c - 55)
  else if (97 <=? c) && (c <=? 102) then Some (c - 87)
  else None.

Fixpoint strtoul16 (acc : Z) (l : list Z) : Z :=
  match l with
  | [] => acc
  | c :: t => match hex_digit c with Some d => strtoul16 (16 * acc + d) t | None => acc end
  end.

Definition ChangeDTCtoInt (dtcchar : list Z) : Z := u32 (strtoul16 0 dtcchar).

Definition dtc_bytes (dtc : Z) : list Z := [u8 (Z.shiftr dtc 16); u8 (Z.shiftr dtc 8); u8 dtc].

Definition ReportNumberOfDTCByStatusMask (p : UDS_PTR) (dlc : Z) (pdu : list Z) : UM unit :=
  sid ← pdu_at pdu 0;
  if negb (dlc =? 3) then uds_negative_response p sid NRC_IncorrectMessageLengthOrInvailFormat
  else
    mask ← pdu_at pdu 2;
    n ← (if Z.land mask status_both =? status_both then uds_diag_get_dtc_num
         else if negb (Z.land mask statusOfDTC_testfail =? 0) then uds_diag_get_uncfm_dtc_num
         else if negb (Z.land mask statusOfDTC_ConfirmedDTC =? 0) then uds_diag_get_cfm_dtc_num
         else mret 0);
    sub ← pdu_at pdu 1;
    respond p 6 [u8 (sid + POS_RESPOND_SID_MASK); sub; status_both; 0x00; u8 (Z.shiftr (u16 n) 8); u8 n].

(** The status byte of a row. *)
Definition dtc_status (id : Z) : UM Z :=
  c ← uds_diag_is_cfm_dtc_valid id;
  u ← uds_diag_is_uncfm_dtc_valid id;
  mret (Z.lor (if (c : bool) then statusOfDTC_ConfirmedDTC else 0)
              (if (u : bool) then statusOfDTC_testfail else 0)).

(** The loops over the rows: for each selected row its code and [extra]; the
    response array has 200 bytes. *)
Fixpoint report_loop (n : nat) (j : Z) (sel : Z -> UM bool) (extra : Z -> UM Z) (acc : list Z)
    : UM (list Z) :=
  match n with
  | O => mret acc
  | S n =>
      b ← sel j;
      acc ← (if (b : bool) then
               d ← uds_diag_get_dtc j;
               x ← extra j;
               let acc := acc ++ dtc_bytes (ChangeDTCtoInt d) ++ [u8 x] in
               if 200 <? len acc then st_lift None else mret acc
             else mret acc);
      report_loop n (j + 1) sel extra acc
  end.

Definition report_dtcs (p : UDS_PTR) (hdr : list Z) (sel : Z -> UM bool) (extra : Z -> UM Z) : UM unit :=
  r ← report_loop (Z.to_nat DIAG_ITEM_NUM) 0 sel extra hdr;
  respond p (len r) r.

Definition report_hdr (pdu : list Z) : UM (list Z) :=
  sid ← pdu_at pdu 0; sub ← pdu_at pdu 1; mret [u8 (sid + POS_RESPOND_SID_MASK); sub; status_both].

Definition ReportDTC_testfail_Or_Confirmed (p : UDS_PTR) (pdu : list Z) : UM unit :=
  hdr ← report_hdr pdu; report_dtcs p hdr cfm_or_uncfm dtc_status.

Definition ReportDTC_testfail (p : UDS_PTR) (pdu : list Z) : UM unit :=
  hdr ← report_hdr pdu;
  report_dtcs p hdr uds_diag_is_uncfm_dtc_valid (fun j =>
    c ← uds_diag_is_cfm_dtc_valid j;
    mret (Z.lor statusOfDTC_testfail (if (c : bool) then statusOfDTC_ConfirmedDTC else 0))).

Definition ReportDTC__Confirmed (p : UDS_PTR) (pdu : list Z) : UM unit :=
  hdr ← report_hdr pdu;
  report_dtcs p hdr uds_diag_is_cfm_dtc_valid (fun j =>
    u ← uds_diag_is_uncfm_dtc_valid j;
    mret (Z.lor statusOfDTC_ConfirmedDTC (if (u : bool) then statusOfDTC_testfail else 0))).

Definition ReportDTCByStatusMask (p : UDS_PTR) (dlc : Z) (pdu : list Z) : UM unit :=
  sid ← pdu_at pdu 0;
  if negb (dlc =? 3) then uds_negative_response p sid NRC_IncorrectMessageLengthOrInvailFormat
  else
    mask ← pdu_at pdu 2;
    if Z.land mask status_both =? 0 then hdr ← report_hdr pdu; respond p 3 hdr
    else if Z.land mask status_both =? status_both then ReportDTC_testfail_Or_Confirmed p pdu
    else if negb (Z.land mask statusOfDTC_testfail =? 0) then ReportDTC_testfail p pdu
    else if negb (Z.land mask statusOfDTC_ConfirmedDTC =? 0) then ReportDTC__Confirmed p pdu
    else mret tt.

(** The loop of [GetDTCSnapshotRecordNumber]. *)
Fixpoint snapshot_loop (n : nat) (i start_index : Z) : UM unit :=
  match n with
  | O => mret tt
  | S n =>
      c ← uds_diag_is_cfm_dtc_valid i;
      if (c : bool) then
        s ← st_get;
        l ← st_lift (mem_set (u_dtc_index s) i start_index);
        st_mod (fun s => {| s with u_dtc_index := l |});;
        snapshot_loop n (i + 1) (start_index + 1)
      else snapshot_loop n (i + 1) start_index
  end.

Definition GetDTCSnapshotRecordNumber : UM unit :=
  st_mod (fun s => {| s with u_dtc_index := replicate (Z.to_nat DIAG_ITEM_NUM) (2 ^ 32 - 1) |});;
  snapshot_loop (Z.to_nat DIAG_ITEM_NUM) 0 1.

Definition dtc_index (j : Z) : UM Z := s ← st_get; st_lift (mem_get (u_dtc_index s) j).

Definition ReportDTCSnapshotIdentification (p : UDS_PTR) (dlc : Z) (pdu : list Z) : UM unit :=
  sid ← pdu_at pdu 0;
  if negb (dlc =? 2) then uds_negative_response p sid NRC_IncorrectMessageLengthOrInvailFormat
  else
    sub ← pdu_at pdu 1;
    GetDTCSnapshotRecordNumber;;
    report_dtcs p [u8 (sid + POS_RESPOND_SID_MASK); sub] uds_diag_is_cfm_dtc_valid dtc_index.

(** The search of [DTCSnapshotRecordNumberAndDTCRecordIsValid]: the record
    number, the freeze frame block, its length and the number of identifiers; a
    [None] result is the return value -1. *)
Fixpoint snapshot_search (n : nat) (j number dtc : Z) (did_buf : list Z) (n_buf : Z)
    : UM (option (Z * list Z * Z * Z)) :=
  match n with
  | O => mret None
  | S n =>
      c ← uds_diag_is_cfm_dtc_valid j;
      if (c : bool) then
        d ← uds_diag_get_dtc j;
        idx ← dtc_index j;
        if (ChangeDTCtoInt d =? dtc) && ((idx =? number) || (number =? 0xFF)) then
          number ← (if number =? 0xFF then GetDTCSnapshotRecordNumber;; dtc_index j else mret number);
          '(_, buf, l, dids) ← uds_diag_get_freeze j did_buf n_buf;
          mret (Some (number, buf, l, dids))
        else snapshot_search n (j + 1) number dtc did_buf n_buf
      else snapshot_search n (j + 1) number dtc did_buf n_buf
  end.

Definition ReportDTCSnapshotRecordByDTCNumber (p : UDS_PTR) (dlc : Z) (pdu : list Z) : UM unit :=
  sid ← pdu_at pdu 0;
  if negb (dlc =? 6) then uds_negative_response p sid NRC_IncorrectMessageLengthOrInvailFormat
  else
    b2 ← pdu_at pdu 2; b3 ← pdu_at pdu 3; b4 ← pdu_at pdu 4; b5 ← pdu_at pdu 5;
    let dtc := Z.shiftl b2 16 + Z.shiftl b3 8 + b4 in
    res ← snapshot_search (Z.to_nat DIAG_ITEM_NUM) 0 b5 dtc (replicate 200 env_stack_byte) 200;
    match res with
    | None => uds_negative_response p sid NRC_RequestOutOfRange
    | Some (number, buf, l, dids) =>
        sub ← pdu_at pdu 1;
        body ← st_lift (mem_read buf 0 l);
        let r := [u8 (sid + POS_RESPOND_SID_MASK); sub; b2; b3; b4; status_both; u8 number; u8 dids] ++ body in
        if 200 <? len r then st_lift None else respond p (len r) r
    end.

Definition ReadSupportedDTCs (p : UDS_PTR) (dlc : Z) (pdu : list Z) : UM unit :=
  sid ← pdu_at pdu 0;
  if negb (dlc =? 2) then uds_negative_response p sid NRC_IncorrectMessageLengthOrInvailFormat
  else
    hdr ← report_hdr pdu;
    report_dtcs p hdr (fun _ => mret true) dtc_status.

Definition UDS_SRV_ReadDTC (p : UDS_PTR) (pdu : list Z) (dlc : Z) : UM unit :=
  sid ← pdu_at pdu 0;
  if dlc <? 2 then uds_negative_response p sid NRC_IncorrectMessageLengthOrInvailFormat
  else
    sub ← pdu_at pdu 1;
    if sub =? 0x01 then ReportNumberOfDTCByStatusMask p dlc pdu
    else if sub =? 0x02 then ReportDTCByStatusMask p dlc pdu
    else if sub =? 0x03 then ReportDTCSnapshotIdentification p dlc pdu
    else if sub =? 0x04 then ReportDTCSnapshotRecordByDTCNumber p dlc pdu
    else if sub =? 0x0A then ReadSupportedDTCs p dlc pdu
    else uds_negative_response p sid NRC_SubFuncationNotSupported.

End env.
