(* ===== verification/UdsServices.v ===== *)
(** * UDS services

    The handlers of src/app/base/uds/server, one definition per function:
    session control, security access with its key algorithm, tester present, ECU
    reset, DTC setting, clearing, communication control, reading and writing of
    identifiers, routine control, download and transfer.  [pdu] is the request
    (an access beyond its bytes is undefined), [dlc] its length argument, [p] the
    [UDS_T] the handler works for. *)

From S2P Require Import Prelude UdsBase UdsDiag.

(** ** The key algorithm (foton/key_access.c) *)

Definition wconst1 : Z := 0x0949a2b1.
Definition wconst2 : Z := 0x5f3b08de.

(** Byte [i] of a 32-bit word, 0 being the lowest. *)
Definition word_byte (w i : Z) : Z := u8 (Z.shiftr w (8 * i)).

Definition saGetKey (wSeed mode : Z) : Z :=
  if negb (mode =? 2) && negb (mode =? 4) then 0
  else
    let wConst := if mode =? 2 then wconst1 else wconst2 in
    let Seed i := word_byte wSeed (3 - i) in
    let Const i := word_byte wConst i in
    let Key0 := u8 (Const 0 * (Seed 0 * Seed 0) + Const 1 * (Seed 1 * Seed 1) + Const 2 * (Seed 0 * Seed 1)) in
    let Key1 := u8 (Const 0 * Seed 0 + Const 1 * Seed 1 + Const 3 * (Seed 0 * Seed 1)) in
    let Key2 := u8 (Const 0 * (Seed 2 * Seed 3) + Const 1 * (Seed 3 * Seed 3) + Const 2 * (Seed 2 * Seed 3)) in
    let Key3 := u8 (Const 0 * (Seed 2 * Seed 3) + Const 1 * Seed 3 + Const 3 * (Seed 2 * Seed 3)) in
    u32 (Key3 + Z.shiftl Key2 8 + Z.shiftl Key1 16 + Z.shiftl Key0 24).

(** [(a << 24) + (b << 16) + (c << 8) + d] stored to a 32-bit variable. *)
Definition be32 (a b c d : Z) : Z := u32 (Z.shiftl a 24 + Z.shiftl b 16 + Z.shiftl c 8 + d).

Definition RequestSeed_Secrity_Level1 : Z := 0x01.
Definition RequestSeed_Secrity_Level2 : Z := 0x03.
Definition SeedKey_Secrity_Level1 : Z := 0x02.
Definition SeedKey_Secrity_Level2 : Z := 0x04.
Definition SeedKey_Secrity_Level3 : Z := 0x12.

Section env.
Context `{UdsEnv}.

(** The negative response for the request's service. *)
Definition nrc (p : UDS_PTR) (pdu : list Z) (code : Z) : UM unit :=
  sid ← pdu_at pdu 0; uds_negative_response p sid code.

(** The first byte of a positive response. *)
Definition pos_sid (pdu : list Z) : UM Z := sid ← pdu_at pdu 0; mret (u8 (sid + POS_RESPOND_SID_MASK)).

(** ** Security access (uds_sec_access.c) *)

(** The delay after three failures: [true] if the request is refused. *)
Definition sa_delayed (current_time : Z) : UM bool :=
  s ← st_get;
  let sa := u_sa s in
  if 3 <=? sa_fail sa then
    if u32 (current_time - sa_time sa) <? 10 then mret true
    else set_sa {| sa with sa_fail := u32 (sa_fail sa - 1) |};; mret false
  else mret false.

(** [SecrityAccessFailCounter++] and the start of the delay at 3. *)
Definition sa_count_failure (current_time : Z) : UM unit :=
  st_mod (fun s =>
    let sa := u_sa s in
    let f := u32 (sa_fail sa + 1) in
    {| s with u_sa := {| sa with sa_fail := f;
                                 sa_time := if f =? 3 then current_time else sa_time sa |} |}).

(** The case of a seed request. *)
Definition sa_request_seed (current_time : Z) : UM unit :=
  s ← st_get;
  let sa := u_sa s in
  if sa_flag sa =? 1 then sa_count_failure current_time
  else
    let r := env_rand (u32 (current_time + sa_counter sa)) in
    let sa := {| sa with sa_counter := u8 (sa_counter sa + 1) |} in
    set_sa (if u_security s =? SecurityAccess_LEVEL0
            then {| sa with sa_seed := u32 r; sa_flag := 1 |}
            else {| sa with sa_seed := 0 |}).

(** The case of a key, after the length check; [mode] selects the key algorithm,
    [unlock] is what a correct key with the sub-function [sub] does.  The result
    tells if the positive response is to be sent. *)
Definition sa_send_key (p : UDS_PTR) (pdu : list Z) (current_time mode : Z)
    (unlock : UM unit) : UM bool :=
  s ← st_get;
  let sa := u_sa s in
  if sa_flag sa =? 0 then nrc p pdu NRC_RequstSequenceError;; mret false
  else if 3 <=? sa_attempt sa then
    set_sa {| sa with sa_flag := 0 |};;
    nrc p pdu NRC_ExceedNumberOfAttempts;; mret false
  else
    k0 ← pdu_at pdu 2; k1 ← pdu_at pdu 3; k2 ← pdu_at pdu 4; k3 ← pdu_at pdu 5;
    if be32 k0 k1 k2 k3 =? saGetKey (sa_seed sa) mode then
      set_sa {| sa with sa_flag := 0 |};;
      unlock;;
      mret true
    else
      nrc p pdu NRC_InvalidKey;;
      sa_count_failure current_time;;
      st_mod (fun s => {| s with u_sa := {| (u_sa s) with sa_attempt := u32 (sa_attempt (u_sa s) + 1) |} |});;
      mret false.

(** [Set_SecurityAccess_LEVELn(); SecrityAccessFailCounter = 0]. *)
Definition sa_unlock (level : Z) : UM unit :=
  set_security level;;
  st_mod (fun s => {| s with u_sa := {| (u_sa s) with sa_fail := 0 |} |}).

Definition UDS_SRV_SecrityAcess (p : UDS_PTR) (pdu : list Z) (dlc : Z) : UM unit :=
  if dlc <? 2 then nrc p pdu NRC_IncorrectMessageLengthOrInvailFormat
  else
    t ← tm_get_time;
    if t <? 900 then nrc p pdu NRC_RequiredTimeDelayNotExpired
    else
      t ← tm_get_time;
      let current_time := u32 (t / 1000) in
      delayed ← sa_delayed current_time;
      if (delayed : bool) then nrc p pdu NRC_RequiredTimeDelayNotExpired
      else
        sub ← pdu_at pdu 1;
        let f := Z.land sub suppressPosRspMsgIndicationBitMask in
        if (f =? RequestSeed_Secrity_Level1) || (f =? RequestSeed_Secrity_Level2) then
          if negb (dlc =? 2) then nrc p pdu NRC_IncorrectMessageLengthOrInvailFormat
          else
            sa_request_seed current_time;;
            suppress_bit sub;;
            sid ← pos_sid pdu;
            s ← st_get;
            let seed := sa_seed (u_sa s) in
            respond p 6 [sid; sub; word_byte seed 3; word_byte seed 2; word_byte seed 1; word_byte seed 0]
        else if f =? SeedKey_Secrity_Level1 then
          if negb (dlc =? 6) then nrc p pdu NRC_IncorrectMessageLengthOrInvailFormat
          else
            ok ← sa_send_key p pdu current_time 2
                   (st_when (sub =? SeedKey_Secrity_Level1) (sa_unlock SecurityAccess_LEVEL1));
            st_when ok (suppress_bit sub;; sid ← pos_sid pdu; respond p 2 [sid; sub])
        else if f =? SeedKey_Secrity_Level2 then
          if negb (dlc =? 6) then nrc p pdu NRC_IncorrectMessageLengthOrInvailFormat
          else
            ok ← sa_send_key p pdu current_time 4
                   (st_when (sub =? SeedKey_Secrity_Level3) (sa_unlock SecurityAccess_LEVEL2));
            st_when ok (suppress_bit sub;; sid ← pos_sid pdu; respond p 2 [sid; sub])
        else nrc p pdu NRC_SubFuncationNotSupported.

(** ** Session control and tester present *)

Definition UDS_SetDTCOn : UM unit := set_dtc_switch 1.
Definition UDS_SetDTCOff : UM unit := set_dtc_switch 0.

(** The positive response of the session control, with the timing parameters. *)
Definition session_response (p : UDS_PTR) (pdu : list Z) : UM unit :=
  sub ← pdu_at pdu 1;
  suppress_bit sub;;
  sid ← pos_sid pdu;
  s ← st_get;
  let p2 := tmr_value (uds_timer (uds_get p s) P2SERVER) in
  let p2e := tmr_value (uds_timer (uds_get p s) P2EXT_SERVER) in
  respond p 6 [sid; sub; u8 (Z.shiftr p2 8); u8 p2; u8 (Z.shiftr p2e 8); u8 p2e].

Definition UDS_SRV_DiagSessionCtrl (p : UDS_PTR) (pdu : list Z) (dlc : Z) : UM unit :=
  if negb (dlc =? 2) then nrc p pdu NRC_IncorrectMessageLengthOrInvailFormat
  else
    sub ← pdu_at pdu 1;
    s ← st_get;
    let f := Z.land sub suppressPosRspMsgIndicationBitMask in
    if f =? SESSION_TYPE_DEFAULT then
      set_session SESSION_TYPE_DEFAULT;;
      set_security SecurityAccess_LEVEL0;;
      UDS_SetDTCOn;;
      session_response p pdu
    else if f =? SESSION_TYPE_PROGRAM then
      if negb (u_session s =? SESSION_TYPE_DEFAULT)
      then set_session SESSION_TYPE_PROGRAM;; session_response p pdu
      else nrc p pdu NRC_ConditionsNotCorrect
    else if f =? SESSION_TYPE_EXTENDED then
      if negb (u_session s =? SESSION_TYPE_PROGRAM)
      then set_session SESSION_TYPE_EXTENDED;; session_response p pdu
      else nrc p pdu NRC_ConditionsNotCorrect
    else nrc p pdu NRC_SubFuncationNotSupported.

(** The two-byte positive response. *)
Definition short_response (p : UDS_PTR) (pdu : list Z) : UM unit :=
  sub ← pdu_at pdu 1; sid ← pos_sid pdu; suppress_bit sub;; respond p 2 [sid; sub].

Definition UDS_SRV_TesterPresent (p : UDS_PTR) (pdu : list Z) (dlc : Z) : UM unit :=
  if negb (dlc =? 2) then nrc p pdu NRC_IncorrectMessageLengthOrInvailFormat
  else
    sub ← pdu_at pdu 1;
    if Z.land sub suppressPosRspMsgIndicationBitMask =? 0 then short_response p pdu
    else nrc p pdu NRC_SubFuncationNotSupported.

(** ** ECU reset, DTC setting, clearing *)

Definition PM_EVT_RESTART_APP_REQ : Z := 7.
Definition PM_EVT_RESTART_4G_REQ : Z := 8.

Definition UDS_SRV_EcuReset (p : UDS_PTR) (pdu : list Z) (dlc : Z) : UM unit :=
  if negb (dlc =? 2) then nrc p pdu NRC_IncorrectMessageLengthOrInvailFormat
  else
    sub ← pdu_at pdu 1;
    let f := Z.land sub suppressPosRspMsgIndicationBitMask in
    if f =? 0x01 then short_response p pdu;; emit (EvPm PM_EVT_RESTART_4G_REQ)
    else if f =? 0x03 then short_response p pdu;; emit (EvPm PM_EVT_RESTART_APP_REQ)
    else nrc p pdu NRC_SubFuncationNotSupported.

Definition UDS_SRV_ControlDTCSetting (p : UDS_PTR) (pdu : list Z) (dlc : Z) : UM unit :=
  if negb (dlc =? 2) then nrc p pdu NRC_IncorrectMessageLengthOrInvailFormat
  else
    sub ← pdu_at pdu 1;
    let f := Z.land sub suppressPosRspMsgIndicationBitMask in
    if f =? 0x01 then set_dtc_switch 1;; short_response p pdu
    else if f =? 0x02 then set_dtc_switch 0;; short_response p pdu
    else nrc p pdu NRC_SubFuncationNotSupported.

Definition UDS_SRV_ClearDTC (p : UDS_PTR) (pdu : list Z) (dlc : Z) : UM unit :=
  if dlc =? 4 then
    b1 ← pdu_at pdu 1; b2 ← pdu_at pdu 2; b3 ← pdu_at pdu 3;
    if 0xFFFFFF =? Z.lor (Z.lor b1 (Z.shiftl b2 8)) (Z.shiftl b3 16) then
      nrc p pdu NRC_RequestCorrectlyReceivedResponsePending;;
      uds_diag_dtc_clear;;
      sid ← pos_sid pdu;
      respond p 1 [sid]
    else nrc p pdu NRC_RequestOutOfRange
  else nrc p pdu NRC_IncorrectMessageLengthOrInvailFormat.

(** ** Communication control *)

Definition normalCommuMesg : Z := 0x01.

Definition UDS_SRV_CommunicationControl (p : UDS_PTR) (pdu : list Z) (dlc : Z) : UM unit :=
  if negb (dlc =? 3) then nrc p pdu NRC_IncorrectMessageLengthOrInvailFormat
  else
    sub ← pdu_at pdu 1;
    kind ← pdu_at pdu 2;
    let f := Z.land sub suppressPosRspMsgIndicationBitMask in
    if 3 <? f then nrc p pdu NRC_SubFuncationNotSupported
    else
      st_when (kind =? normalCommuMesg)
        (if f =? 0x00 then set_flags 1 1
         else if f =? 0x01 then set_flags 0 1
         else if f =? 0x02 then set_flags 1 0
         else set_flags 0 0);;
      if kind =? normalCommuMesg then short_response p pdu
      else nrc p pdu NRC_RequestOutOfRange.

(** ** Identifiers *)

(** The loop of [UDS_SRV_ReadDataByID]: [m] bytes of the static response array are
    filled; the result is [None] on the error return. *)
Fixpoint read_did_loop (n : nat) (i m dlc : Z) (pdu : list Z) : UM (option Z) :=
  match n with
  | O => mret (Some m)
  | S n =>
      if i <? dlc then
        hi ← pdu_at pdu i; lo ← pdu_at pdu (i + 1);
        let did := Z.shiftl hi 8 + lo in
        s ← st_get;
        b ← st_lift (mem_write (u_rdbi_buf s) m [u8 (Z.shiftr did 8); u8 did]);
        '(ret, b, l) ← uds_diag_get_did_value did b (m + 2) (2000 - (m + 2));
        st_mod (fun s => {| s with u_rdbi_buf := b |});;
        if negb (ret =? 0) then mret None
        else read_did_loop n (i + 2) (m + 2 + l) dlc pdu
      else mret (Some m)
  end.

Definition UDS_SRV_ReadDataByID (p : UDS_PTR) (pdu : list Z) (dlc : Z) : UM unit :=
  if negb (dlc =? 3) || (dlc mod 2 =? 0) then nrc p pdu NRC_IncorrectMessageLengthOrInvailFormat
  else
    sid ← pos_sid pdu;
    s ← st_get;
    b ← st_lift (mem_set (u_rdbi_buf s) 0 sid);
    st_mod (fun s => {| s with u_rdbi_buf := b |});;
    res ← read_did_loop (Z.to_nat dlc) 1 1 dlc pdu;
    match res with
    | None => nrc p pdu NRC_RequestOutOfRange
    | Some m => s ← st_get; respond p m (u_rdbi_buf s)
    end.

Definition UDS_SRV_WriteDataByID (p : UDS_PTR) (pdu : list Z) (dlc : Z) : UM unit :=
  if dlc <? 3 then nrc p pdu NRC_IncorrectMessageLengthOrInvailFormat
  else
    b1 ← pdu_at pdu 1; b2 ← pdu_at pdu 2;
    nrc p pdu NRC_RequestCorrectlyReceivedResponsePending;;
    ret ← uds_diag_set_did_value (u16 (Z.shiftl b1 8 + b2)) pdu 3 (dlc - 3);
    if negb (ret =? 0) then nrc p pdu (u8 ret)
    else sid ← pos_sid pdu; respond p 3 [sid; b1; b2].

(** ** Routine control *)

(** The polling loop of the key learning routine; [t0] is the [int] start time. *)
Fixpoint tukey_loop (n : nat) (p : UDS_PTR) (pdu : list Z) (t0 : Z) : UM unit :=
  match n with
  | O => st_lift None
  | S n =>
      t ← tm_get_time;
      if 5000 <? u64 (t - t0) then mret tt
      else
        f ← env_read env_tukey;
        if f =? 1 then mret tt
        else
          t ← tm_get_time;
          st_when (u64 (t - t0) mod 20 =? 0) (nrc p pdu NRC_RequestCorrectlyReceivedResponsePending);;
          tukey_loop n p pdu t0
  end.

(** [size = (size << (i * 8)) | byte] for [i < n]; a shift by 32 or more is
    undefined. *)
Fixpoint erase_shift (n : nat) (i acc off : Z) (pdu : list Z) : option Z :=
  match n with
  | O => Some acc
  | S n =>
      b ← mem_get pdu (off + i);
      if 32 <=? i * 8 then None
      else erase_shift n (i + 1) (Z.lor (u32 (Z.shiftl acc (i * 8))) b) off pdu
  end.

Definition routine_hdr (pdu : list Z) : UM (list Z) :=
  sid ← pos_sid pdu; b1 ← pdu_at pdu 1; b2 ← pdu_at pdu 2; b3 ← pdu_at pdu 3; mret [sid; b1; b2; b3].

Definition transfer_zero : TRANSFER :=
  {| tr_prog_addr := 0; tr_prog_size := 0; tr_erase_addr := 0; tr_erase_size := 0;
     tr_block := 0; tr_status := 0; tr_data := replicate (Z.to_nat (80 * 1024)) 0; tr_datasize := 0 |}.

Definition UDS_SRV_RoutineControl (p : UDS_PTR) (pdu : list Z) (dlc : Z) : UM unit :=
  if dlc <? 4 then nrc p pdu NRC_IncorrectMessageLengthOrInvailFormat
  else
    b1 ← pdu_at pdu 1;
    if negb (b1 =? 0x01) then nrc p pdu NRC_SubFuncationNotSupported
    else
      b2 ← pdu_at pdu 2; b3 ← pdu_at pdu 3;
      let funvalue := Z.shiftl b2 8 + b3 in
      s ← st_get;
      if funvalue =? 0x0202 then
        hdr ← routine_hdr pdu;
        set_transfer transfer_zero;;
        respond p 5 (hdr ++ [env_stack_byte])
      else if funvalue =? 0x0203 then hdr ← routine_hdr pdu; respond p 4 hdr
      else if funvalue =? 0xFF00 then
        if u_erase_flag s =? 0 then nrc p pdu NRC_GeneralProgrammingFailure
        else
          b4 ← pdu_at pdu 4;
          let al := Z.land b4 0x0f in
          let sl := Z.land (Z.shiftr b4 4) 0x0f in
          let tr := u_transfer s in
          addr ← st_lift (erase_shift (Z.to_nat al) 0 (tr_erase_addr tr) 5 pdu);
          size ← st_lift (erase_shift (Z.to_nat sl) 0 (tr_erase_size tr) (5 + al) pdu);
          set_transfer {| tr with tr_erase_addr := addr; tr_erase_size := size |};;
          hdr ← routine_hdr pdu;
          respond p 5 (hdr ++ [0])
      else if funvalue =? 0xFF01 then
        hdr ← routine_hdr pdu;
        if u_erase_flag s =? 1 then
          st_mod (fun s => {| s with u_erase_flag := 0 |});; respond p 5 (hdr ++ [0])
        else respond p 5 (hdr ++ [1])
      else if funvalue =? 0xA400 then
        nrc p pdu NRC_RequestCorrectlyReceivedResponsePending;;
        emit EvTukeyRequest;;
        t0 ← tm_get_time;
        tukey_loop env_fuel p pdu (s32 t0);;
        hdr ← routine_hdr pdu;
        f ← env_read env_tukey;
        emit EvTukeyClear;;
        respond p 5 (hdr ++ [u8 f])
      else nrc p pdu NRC_RequestOutOfRange.

(** ** Download and transfer (not reachable from the service table) *)

(** [size = (size << 8) | byte] over [n] bytes from [off] on. *)
Fixpoint download_shift (n : nat) (acc off : Z) (pdu : list Z) : option Z :=
  match n with
  | O => Some acc
  | S n =>
      b ← mem_get pdu off;
      download_shift n (Z.lor (u32 (Z.shiftl acc 8)) b) (off + 1) pdu
  end.

Definition maxNumberOfBlockLength : Z := 0x0402.

Definition UDS_SRV_RequestDownload (p : UDS_PTR) (pdu : list Z) (dlc : Z) : UM unit :=
  b2 ← pdu_at pdu 2;
  let al := Z.land b2 0x0f in
  let sl := Z.land (Z.shiftr b2 4) 0x0f in
  if negb (dlc =? 3 + al + sl) then nrc p pdu NRC_IncorrectMessageLengthOrInvailFormat
  else
    b1 ← pdu_at pdu 1;
    if negb (b1 =? 0x00) then nrc p pdu NRC_RequestOutOfRange
    else
      s ← st_get;
      let tr := u_transfer s in
      addr ← st_lift (download_shift (Z.to_nat al) (tr_prog_addr tr) 3 pdu);
      size ← st_lift (download_shift (Z.to_nat sl) (tr_prog_size tr) (3 + al) pdu);
      set_transfer {| tr with tr_prog_addr := addr; tr_prog_size := size; tr_block := 1; tr_status := 0 |};;
      sid ← pos_sid pdu;
      respond p 4 [sid; 0x20; Z.land (Z.shiftr maxNumberOfBlockLength 8) 0xFF; Z.land maxNumberOfBlockLength 0xFF].

Definition UDS_SRV_TransferData (p : UDS_PTR) (pdu : list Z) (dlc : Z) : UM unit :=
  if maxNumberOfBlockLength <? dlc then nrc p pdu NRC_IncorrectMessageLengthOrInvailFormat
  else
    b1 ← pdu_at pdu 1;
    s ← st_get;
    let tr := u_transfer s in
    if negb (tr_block tr =? b1) then
      if b1 <=? tr_block tr then sid ← pos_sid pdu; respond p 2 [sid; b1]
      else nrc p pdu NRC_wrongBlockSequenceCounter
    else
      d ← st_lift (memcpy (tr_data tr) (tr_datasize tr) pdu 2 (dlc - 2));
      set_transfer {| tr with tr_block := u8 (tr_block tr + 1); tr_data := d;
                              tr_datasize := u32 (tr_datasize tr + (dlc - 2)) |};;
      sid ← pos_sid pdu;
      respond p 2 [sid; b1].

Definition UDS_SRV_RequestTransferExit (p : UDS_PTR) (dlc : Z) (pdu : list Z) : UM unit :=
  s ← st_get;
  set_transfer {| (u_transfer s) with tr_block := 1; tr_status := 1 |};;
  if negb (dlc =? 1) then nrc p pdu NRC_IncorrectMessageLengthOrInvailFormat
  else sid ← pos_sid pdu; respond p 1 [sid].

End env.
