(* ===== verification/UdsServer.v ===== *)
(** * UDS server: dispatch, proxy and timeouts

    The service table and dispatcher of uds_server.c, the proxy between the
    transport layer and the server and client (uds_proxy.c), and the messages the
    UDS thread handles (uds_main.c).  The theorems are about whole requests and
    about all runs of the thread. *)

From S2P Require Import Prelude UdsBase UdsDiag UdsServices.

(** ** Service tables *)

Definition zeros (n : nat) : list Z := replicate n 0.

Definition uds_index_mask : list Z :=
  zeros 16 ++                                                          (* 0x *)
  [1; 2; 0; 0; 3; 0; 0; 0; 0; 4] ++ zeros 6 ++                         (* 1x *)
  zeros 2 ++ [5; 0; 0; 0; 0; 6; 7] ++ zeros 5 ++ [8; 9] ++             (* 2x *)
  [0; 10; 0; 0; 13; 0; 14; 15] ++ zeros 6 ++ [11; 0] ++                (* 3x *)
  zeros 5 ++ [12] ++ zeros 10.                                         (* 8x *)

Definition server_supper_table : list Z :=
  zeros 16 ++                                                          (* 0x *)
  [0xFF; 0xFF; 0; 0; 0xEF; 0; 0; 0; 0; 0xEF] ++ zeros 6 ++             (* 1x *)
  zeros 2 ++ [0xEF; 0; 0; 0; 0; 0xF9; 0xFB] ++ zeros 5 ++ [0x69; 0] ++ (* 2x *)
  [0; 0xF9; 0; 0; 0x31; 0; 0x31; 0x31] ++ zeros 6 ++ [0xFF; 0] ++      (* 3x *)
  zeros 5 ++ [0xEB] ++ zeros 10.                                       (* 8x *)

Definition PhysicsAdd_Mask : Z := 0x01.
Definition FunctionAdd_Mask : Z := 0x02.
Definition DSC_STD_Mask : Z := 0x04.
Definition DSC_EXT_Mask : Z := 0x08.
Definition DSC_PRO_Mask : Z := 0x10.
Definition SAL2_Mask : Z := 0x20.
Definition SAL1_Mask : Z := 0x40.
Definition SAL0_Mask : Z := 0x80.
Definition DIAGNOSE_MAX_SERVICE : Z := 16.

Definition uds_get_table_index (sid : Z) : Z :=
  let h4bit := Z.land sid 0xF0 in
  if (h4bit =? 0x00) || (h4bit =? 0x10) || (h4bit =? 0x20) || (h4bit =? 0x30)
  then u8 (h4bit + Z.land sid 0x0F)
  else if h4bit =? 0x80 then u8 (0x40 + Z.land sid 0x0F)
  else 79.

(** The messages of the UDS thread: from the transport layer, the diagnosis
    timer (with the result of [uds_diag_available]), and the own timers. *)
Inductive UDS_MSG :=
| UdsScom (msg : list Z)
| UdsDiagTimer (available : bool)
| UdsTimeout (timer_id : UDS_TIMER_E) (seq : Z).

Section env.
Context `{UdsEnv}.

Definition uds_service_not_support (p : UDS_PTR) (pdu : list Z) (dlc : Z) : UM unit :=
  nrc p pdu NRC_ServiceNotSupported.

(** [uds_IOcontrol_by_indentifier], [uds_request_download],
    [uds_transfer_data] and [uds_request_transfer_exit] have empty bodies. *)
Definition uds_empty_service (p : UDS_PTR) (pdu : list Z) (dlc : Z) : UM unit := mret tt.

Definition uds_appl_table : list (UDS_PTR -> list Z -> Z -> UM unit) :=
  [ uds_service_not_support; UDS_SRV_DiagSessionCtrl; UDS_SRV_EcuReset; UDS_SRV_ClearDTC;
    UDS_SRV_ReadDTC; UDS_SRV_ReadDataByID; UDS_SRV_SecrityAcess; UDS_SRV_CommunicationControl;
    UDS_SRV_WriteDataByID; uds_empty_service; UDS_SRV_RoutineControl; UDS_SRV_TesterPresent;
    UDS_SRV_ControlDTCSetting; uds_empty_service; uds_empty_service; uds_empty_service ].

(** The mask of the session and of the security level; other values leave the
    support mask as it is. *)
Definition session_mask (session support_mask entry : Z) : Z :=
  if session =? SESSION_TYPE_DEFAULT then Z.land entry DSC_STD_Mask
  else if session =? SESSION_TYPE_PROGRAM then Z.land entry DSC_PRO_Mask
  else if session =? SESSION_TYPE_EXTENDED then Z.land entry DSC_EXT_Mask
  else support_mask.

Definition security_mask (security support_mask entry : Z) : Z :=
  if security =? SecurityAccess_LEVEL0 then Z.land entry SAL0_Mask
  else if security =? SecurityAccess_LEVEL1 then Z.land entry SAL1_Mask
  else if security =? SecurityAccess_LEVEL2 then Z.land entry SAL2_Mask
  else support_mask.

Definition uds_server_proc (p : UDS_PTR) (can_id : Z) (pdu : list Z) (dlc : Z) : UM unit :=
  sid ← pdu_at pdu 0;
  let table_index := uds_get_table_index sid in
  sid_index ← st_lift (mem_get uds_index_mask table_index);
  if sid_index =? 0 then nrc p pdu NRC_ServiceNotSupported
  else
    s ← st_get;
    entry ← st_lift (mem_get server_supper_table table_index);
    let support_mask := if uds_can_id_phy (uds_get p s) =? can_id
                        then Z.land entry PhysicsAdd_Mask else Z.land entry FunctionAdd_Mask in
    if support_mask <=? 0 then nrc p pdu NRC_ConditionsNotCorrect
    else
      let support_mask := session_mask (u_session s) support_mask entry in
      if support_mask <=? 0 then nrc p pdu NRC_ServiceNotSupportedInActiveSession
      else
        let support_mask := security_mask (u_security s) support_mask entry in
        if support_mask <=? 0 then nrc p pdu NRC_SecurityAccessDenied
        else if sid_index <? DIAGNOSE_MAX_SERVICE then
          f ← st_lift (mem_get uds_appl_table sid_index); f p pdu dlc
        else nrc p pdu NRC_ServiceNotSupported.

(** ** Configuration of the transport protocol (uds_proxy.c) *)

Definition UDS_CAN_PORT : Z := 1.
Definition UDS_CAN_ID_PHY : Z := 0x782.
Definition UDS_CAN_ID_FUN : Z := 0x7DF.
Definition UDS_CAN_ID_RES : Z := 0x78A.

Definition timer_zero : UDS_TIMER_T := {| tmr_seq := 0; tmr_armed := None; tmr_switch := 0; tmr_value := 0 |}.

Definition timer_init (value : UDS_TIMER_E -> Z) (n : UDS_TIMER_E) : UDS_TIMER_T :=
  {| timer_zero with tmr_value := value n |}.

(** The configured times in milliseconds. *)
Definition server_times (n : UDS_TIMER_E) : Z :=
  match n with P2SERVER => 50 | P2EXT_SERVER => 2000 | S3SERVER => 5000 | SERVER_SET => 1000 | _ => 0 end.

Definition client_times (n : UDS_TIMER_E) : Z :=
  match n with P2CLINT => 150 | P2EXT_CLIENT => 5000 | S3CLIENT => 4000 | CLIENT_SET => 1000 | _ => 0 end.

(** [timer_create] and [timer_t] objects are not yet created. *)
Definition uds_proxy_init : UM unit :=
  st_mod (fun s => {| s with
    u_server := {| uds_mode := UDS_TYPE_SERVER; uds_canport := UDS_CAN_PORT; uds_sid := 0; uds_nrc := 0;
                   uds_can_id_phy := UDS_CAN_ID_PHY; uds_can_id_fun := UDS_CAN_ID_FUN; uds_can_id_req := 0;
                   uds_can_id_res := UDS_CAN_ID_RES; uds_timer := timer_init server_times |};
    u_client := {| uds_mode := UDS_TYPE_CLIENT; uds_canport := 0; uds_sid := 0; uds_nrc := 0;
                   uds_can_id_phy := 0; uds_can_id_fun := 0; uds_can_id_req := 0;
                   uds_can_id_res := 0; uds_timer := timer_init client_times |} |});;
  uds_timer_create uds_server_ptr P2SERVER;; uds_timer_create uds_server_ptr P2EXT_SERVER;;
  uds_timer_create uds_server_ptr S3SERVER;; uds_timer_create uds_server_ptr SERVER_SET;;
  uds_timer_create uds_client_ptr P2CLINT;; uds_timer_create uds_client_ptr P2EXT_CLIENT;;
  uds_timer_create uds_client_ptr S3CLIENT;; uds_timer_create uds_client_ptr CLIENT_SET.

(** [UDS_TL_CFG_T], packed. *)
Definition UDS_TL_CFG_T (canport fill_value fc_stmin fc_bs n_bs n_cr phy fun_ res : Z) : list Z :=
  [u8 canport; u8 fill_value; u8 fc_stmin; u8 fc_bs] ++ le16 n_bs ++ le16 n_cr ++ le32 phy ++ le32 fun_ ++ le32 res.

Definition uds_set_server : UM Z :=
  uds_mod uds_server_ptr (fun u => {| u with uds_mode := UDS_TYPE_SERVER; uds_canport := UDS_CAN_PORT;
    uds_can_id_phy := UDS_CAN_ID_PHY; uds_can_id_fun := UDS_CAN_ID_FUN; uds_can_id_res := UDS_CAN_ID_RES |});;
  uds_set_timer uds_server_ptr SERVER_SET 1;;
  uds_data_request uds_server_ptr MSG_ID_UDS_SET_S 0
    (Some (UDS_TL_CFG_T UDS_CAN_PORT 0xff 10 0 150 150 UDS_CAN_ID_PHY UDS_CAN_ID_FUN UDS_CAN_ID_RES)) 20.

(** The common part of [uds_set_client] and [uds_set_client_ex]. *)
Definition set_client_cfg (port pid fid rid : Z) : UM unit :=
  uds_mod uds_client_ptr (fun u => {| u with uds_mode := UDS_TYPE_CLIENT; uds_canport := u8 port;
    uds_can_id_phy := u32 pid; uds_can_id_fun := u32 fid; uds_can_id_res := u32 rid |}).

Definition client_request_cfg (port pid fid rid : Z) : UM Z :=
  uds_set_timer uds_client_ptr CLIENT_SET 1;;
  uds_data_request uds_client_ptr MSG_ID_UDS_SET_C 0
    (Some (UDS_TL_CFG_T port 0 50 8 150 150 pid fid rid)) 20.

Definition uds_set_client : UM Z :=
  set_client_cfg 0 0 0 0;; client_request_cfg 0 0 0 0.

Definition uds_set_client_ex (port pid fid rid : Z) (cb : bool) : UM Z :=
  set_client_cfg port pid fid rid;;
  st_mod (fun s => {| s with u_client_cb := cb |});;
  client_request_cfg port pid fid rid.

Definition uds_clr_client : UM Z :=
  uds_set_timer uds_client_ptr CLIENT_SET 0;;
  uds_set_timer uds_client_ptr P2CLINT 0;;
  uds_set_timer uds_client_ptr P2EXT_CLIENT 0;;
  st_mod (fun s => {| s with u_client_cb := false |});;
  mret 0.

Definition uds_hold_client (en : Z) : UM unit := st_mod (fun s => {| s with u_hold_mode := en |}).

(** ** Timeouts and indications *)

Definition timer_owner (t : UDS_TIMER_E) : UDS_PTR :=
  if bool_decide (t = P2SERVER) || bool_decide (t = P2EXT_SERVER)
     || bool_decide (t = S3SERVER) || bool_decide (t = SERVER_SET)
  then uds_server_ptr else uds_client_ptr.

Definition client_callback (msg_id can_id : Z) (data : list Z) : UM unit :=
  s ← st_get; st_when (u_client_cb s) (emit (EvClientCb msg_id can_id data)).

Definition uds_timeout (timer_id : UDS_TIMER_E) (seq : Z) : UM unit :=
  s ← st_get;
  if negb (tmr_seq (uds_timer (uds_get (timer_owner timer_id) s) timer_id) =? seq) then mret tt
  else
    match timer_id with
    | P2SERVER | P2EXT_SERVER | S3CLIENT => mret tt
    | S3SERVER =>
        set_session SESSION_TYPE_DEFAULT;; set_security SecurityAccess_LEVEL0;; UDS_SetDTCOn
    | SERVER_SET => _ ← uds_set_server; mret tt
    | CLIENT_SET | P2CLINT | P2EXT_CLIENT => client_callback (-1) 0 []
    end.

Definition uds_confirm (p : UDS_PTR) (result : Z) : UM unit :=
  if result =? N_OK then
    s ← st_get;
    let u := uds_get p s in
    if uds_mode u =? UDS_TYPE_CLIENT then uds_set_timer p P2CLINT 1
    else if uds_mode u =? UDS_TYPE_SERVER then
      uds_set_timer p P2SERVER 0;;
      st_when (negb (SID_NegativeResponse =? uds_sid u)) (uds_set_timer p P2EXT_SERVER 0)
    else mret tt
  else mret tt.

(** [msg[0] | msg[1] << 8 | ...], compared as unsigned. *)
Definition msg_can_id (msg : list Z) : option Z :=
  b0 ← mem_get msg 0; b1 ← mem_get msg 1; b2 ← mem_get msg 2; b3 ← mem_get msg 3;
  Some (Z.lor (Z.lor (Z.lor b0 (Z.shiftl b1 8)) (Z.shiftl b2 16)) (Z.shiftl b3 24)).

(** A response for the client. *)
Definition client_indication (can_id : Z) (pdu : list Z) : UM unit :=
  m0 ← pdu_at pdu 0;
  srv_id ← (if SID_NegativeResponse =? m0 then pdu_at pdu 1 else mret (u8 (m0 - POS_RESPOND_SID_MASK)));
  s ← st_get;
  if (srv_id =? uds_sid (u_client s)) && negb (srv_id =? SID_TestPresent) then
    uds_set_timer uds_client_ptr P2CLINT 0;;
    pending ← (if SID_NegativeResponse =? m0
               then m2 ← pdu_at pdu 2; mret (NRC_RequestCorrectlyReceivedResponsePending =? m2)
               else mret false);
    uds_set_timer uds_client_ptr P2EXT_CLIENT (if (pending : bool) then 1 else 0);;
    client_callback MSG_ID_UDS_IND can_id pdu
  else mret tt.

Definition uds_proxy (msg : list Z) : UM unit :=
  match msg with
  | [] => mret tt
  | msg_id :: msg =>
      let n := len msg in
      if msg_id =? MSG_ID_UDS_S_ACK then uds_set_timer uds_server_ptr SERVER_SET 0
      else if msg_id =? MSG_ID_UDS_C_ACK then
        uds_set_timer uds_client_ptr CLIENT_SET 0;; client_callback msg_id 0 []
      else if msg_id =? MSG_ID_UDS_CFM then
        if n <? 5 then mret tt
        else
          can_id ← st_lift (msg_can_id msg);
          result ← st_lift (mem_get msg 4);
          s ← st_get;
          if can_id =? uds_can_id_res (u_server s) then uds_confirm uds_server_ptr result
          else if can_id =? uds_can_id_req (u_client s) then uds_confirm uds_client_ptr result
          else mret tt
      else if msg_id =? MSG_ID_UDS_IND then
        if n <? 6 then mret tt
        else
          lo ← st_lift (mem_get msg 4);
          hi ← st_lift (mem_get msg 5);
          if negb (n - 6 =? lo + hi * 0xff) then mret tt
          else
            can_id ← st_lift (msg_can_id msg);
            let pdu := drop 6 msg in
            s ← st_get;
            if (can_id =? uds_can_id_fun (u_server s)) || (can_id =? uds_can_id_phy (u_server s)) then
              uds_set_timer uds_server_ptr P2SERVER 1;;
              uds_set_timer uds_server_ptr S3SERVER 1;;
              uds_server_proc uds_server_ptr can_id pdu (n - 6)
            else client_indication can_id pdu
      else mret tt
  end.

(** One message of the UDS thread. *)
Definition uds_main_step (m : UDS_MSG) : UM unit :=
  match m with
  | UdsScom msg => uds_proxy msg
  | UdsDiagTimer available => st_when available uds_diag_all_devices
  | UdsTimeout t seq => uds_timeout t seq
  end.

(** Messages consist of bytes. *)
Definition msg_ok (m : UDS_MSG) : Prop :=
  match m with UdsScom msg => Forall is_byte msg | _ => True end.

(** A run of the thread; a step that fails ends the run. *)
Inductive uds_run : UDS -> UDS -> Prop :=
| uds_run_refl s : uds_run s s
| uds_run_step s1 s2 s3 m :
    uds_run s1 s2 -> msg_ok m -> uds_main_step m s2 = Some (tt, s3) -> uds_run s1 s3.

End env.
