(* ===== verification/UdsAccess.v ===== *)
(** * UDS access control

    What the services may change: sessions, security levels and responses.  The
    handlers of [UdsServices] and [UdsDiag] are followed once, for any relation on
    states that admits their effects ([HandlerRel]); the theorems instantiate it.
    They are about whole requests and all runs of the UDS thread. *)

From S2P Require Import Prelude Framing Scom UdsBase UdsDiag UdsServices UdsServer.

(** ** Observations *)

(** The configuration of a stack, which only the initialisation sets. *)
Definition ucfg (u : UDS_T) : Z * Z * Z * Z * Z * Z :=
  (uds_mode u, uds_can_id_phy u, uds_can_id_fun u, uds_can_id_res u,
   tmr_value (uds_timer u P2SERVER), tmr_value (uds_timer u P2EXT_SERVER)).

(** The access state: session, security level, security access, configuration of
    the server and its session timer. *)
Definition core (s : UDS) : Z * Z * SA_STATE * Z * (Z * Z * Z * Z * Z * Z) * UDS_TIMER_T :=
  (u_session s, u_security s, u_sa s, u_diag_id s, ucfg (u_server s), uds_timer (u_server s) S3SERVER).

Definition obs (s : UDS) := (core s, u_events s, u_suppress s).

(** The answers to a request with the service identifier [sid]. *)
Definition reply_to (sid : Z) (body : list Z) : Prop :=
  (exists code, body = [SID_NegativeResponse; sid; code]) \/
  (exists rest, body = u8 (sid + POS_RESPOND_SID_MASK) :: rest).

(** ** The access rules, as a specification

    Which addressing, sessions and security levels a service needs. *)
Record ACCESS := {
  ac_physical : bool; ac_functional : bool; ac_sessions : list Z; ac_levels : list Z
}.

Definition all_sessions : list Z := [SESSION_TYPE_DEFAULT; SESSION_TYPE_PROGRAM; SESSION_TYPE_EXTENDED].
Definition all_levels : list Z := [SecurityAccess_LEVEL0; SecurityAccess_LEVEL1; SecurityAccess_LEVEL2].

Definition access (phys func : bool) (ss ls : list Z) : option ACCESS :=
  Some {| ac_physical := phys; ac_functional := func; ac_sessions := ss; ac_levels := ls |}.

Definition access_of (sid : Z) : option ACCESS :=
  if bool_decide (sid ∈ [0x10; 0x11; 0x3E]) then access true true all_sessions all_levels
  else if bool_decide (sid ∈ [0x14; 0x19; 0x22]) then
    access true true [SESSION_TYPE_DEFAULT; SESSION_TYPE_EXTENDED] all_levels
  else if bool_decide (sid ∈ [0x27; 0x31]) then
    access true false [SESSION_TYPE_PROGRAM; SESSION_TYPE_EXTENDED] all_levels
  else if sid =? 0x28 then access true true [SESSION_TYPE_PROGRAM; SESSION_TYPE_EXTENDED] all_levels
  else if sid =? 0x2E then
    access true false [SESSION_TYPE_EXTENDED] [SecurityAccess_LEVEL1; SecurityAccess_LEVEL2]
  else if sid =? 0x2F then access false false [] []
  else if bool_decide (sid ∈ [0x34; 0x36; 0x37]) then
    access true false [SESSION_TYPE_PROGRAM] [SecurityAccess_LEVEL2]
  else if sid =? 0x85 then access true true [SESSION_TYPE_EXTENDED] all_levels
  else None.

(** The code a request is refused with, [None] if it is granted. *)
Definition verdict (sid session security : Z) (physical : bool) : option Z :=
  match access_of sid with
  | None => Some NRC_ServiceNotSupported
  | Some a =>
      if negb (if physical then ac_physical a else ac_functional a) then Some NRC_ConditionsNotCorrect
      else if negb (bool_decide (session ∈ ac_sessions a)) then Some NRC_ServiceNotSupportedInActiveSession
      else if negb (bool_decide (security ∈ ac_levels a)) then Some NRC_SecurityAccessDenied
      else None
  end.

(** Lists with a given first element. *)
Definition starts (x : Z) (l : list Z) : Prop := exists rest, l = x :: rest.

Section env.
Context `{UdsEnv}.

(** ** What leaves the observations alone *)

Section keeps.
Context {X : Type} (f : UDS -> X) (Hf : forall s s', obs s' = obs s -> f s' = f s).

Lemma keeps_obs_mod g : (forall s, obs (g s) = obs s) -> keeps f (st_mod g).
Proof using Hf. intros Hg. apply (steps_mod _). intros s. apply Hf, Hg. Qed.

Lemma keeps_uds_mod p g :
  (forall u, ucfg (g u) = ucfg u /\ uds_timer (g u) S3SERVER = uds_timer u S3SERVER) -> keeps f (uds_mod p g).
Proof using Hf.
  intros Hg. apply keeps_obs_mod. intros s. destruct p; [| done].
  unfold obs, core. cbn. by destruct (Hg (u_server s)) as [-> ->].
Qed.

Lemma keeps_timer_mod p name g :
  name <> S3SERVER -> (forall t, tmr_value (g t) = tmr_value t) -> keeps f (timer_mod p name g).
Proof using Hf.
  intros Hn Hg. apply keeps_uds_mod. intros u. unfold ucfg. cbn.
  rewrite (decide_False (P := S3SERVER = name)) by congruence. split; [| done].
  repeat case_decide; by rewrite ?Hg.
Qed.

Lemma keeps_set_timer p name v : name <> S3SERVER -> keeps f (uds_set_timer p name v).
Proof using Hf.
  intros Hn. unfold uds_set_timer, uds_timer_settime. steps_tac; by apply keeps_timer_mod.
Qed.

Lemma keeps_env_read {A} (g : nat -> A) : keeps f (env_read g).
Proof using Hf. unfold env_read. steps_tac. by apply keeps_obs_mod. Qed.

End keeps.

#[local] Hint Extern 3 (steps_by (same obs) (st_mod _)) => (apply keeps_obs_mod; [done | reflexivity]) : steps.
#[local] Hint Extern 1 (steps_by (same obs) (uds_set_timer _ _ _)) => (apply keeps_set_timer; done) : steps.
#[local] Hint Extern 1 (steps_by (same obs) (env_read _)) => (apply keeps_env_read; done) : steps.

Ltac uds_keeps := unfold pdu_at, set_diag_buf, set_flags, set_transfer, set_dtc_switch, tm_get_time; steps_tac.

(** Reading the fault memory. *)
Lemma keeps_diag_item id : keeps obs (diag_item id).
Proof. unfold diag_item. uds_keeps. Qed.

Lemma keeps_set_item id r : keeps obs (set_item id r).
Proof. unfold set_item. uds_keeps. Qed.

#[local] Hint Resolve keeps_diag_item keeps_set_item : steps.

Lemma keeps_confirmed id : keeps obs (confirmed id).
Proof. unfold confirmed. uds_keeps. Qed.

Lemma keeps_gen_freeze_loop l off : keeps obs (gen_freeze_loop l off).
Proof. induction l; cbn [gen_freeze_loop]; uds_keeps. Qed.

#[local] Hint Resolve keeps_confirmed keeps_gen_freeze_loop : steps.

Lemma keeps_one_device id : keeps obs (uds_diag_one_device id).
Proof. unfold uds_diag_one_device, uds_diag_gen_freeze. uds_keeps. Qed.

#[local] Hint Resolve keeps_one_device : steps.

Lemma keeps_all_devices_loop n : forall i gen, keeps obs (all_devices_loop n i gen).
Proof. induction n; intros; cbn [all_devices_loop]; uds_keeps. Qed.

Lemma keeps_count_items test n :
  (forall i, keeps obs (test i)) -> forall i, keeps obs (count_items n i test).
Proof. intros Ht. induction n; intros i; cbn [count_items]; uds_keeps. Qed.

#[local] Hint Resolve keeps_all_devices_loop keeps_count_items : steps.

Lemma keeps_is_cfm id : keeps obs (uds_diag_is_cfm_dtc_valid id).
Proof. unfold uds_diag_is_cfm_dtc_valid. uds_keeps. Qed.

Lemma keeps_is_uncfm id : keeps obs (uds_diag_is_uncfm_dtc_valid id).
Proof. unfold uds_diag_is_uncfm_dtc_valid. uds_keeps. Qed.

#[local] Hint Resolve keeps_is_cfm keeps_is_uncfm : steps.

Lemma keeps_cfm_or_uncfm id : keeps obs (cfm_or_uncfm id).
Proof. unfold cfm_or_uncfm. uds_keeps. Qed.

Lemma keeps_dtc_status id : keeps obs (dtc_status id).
Proof. unfold dtc_status. uds_keeps. Qed.

Lemma keeps_get_dtc id : keeps obs (uds_diag_get_dtc id).
Proof. unfold uds_diag_get_dtc. uds_keeps. Qed.

Lemma keeps_dtc_index id : keeps obs (dtc_index id).
Proof. unfold dtc_index. uds_keeps. Qed.

#[local] Hint Resolve keeps_cfm_or_uncfm keeps_dtc_status keeps_get_dtc keeps_dtc_index : steps.

Lemma keeps_snapshot_loop n : forall i k, keeps obs (snapshot_loop n i k).
Proof. induction n; intros; cbn [snapshot_loop]; uds_keeps. Qed.

#[local] Hint Resolve keeps_snapshot_loop : steps.

Lemma keeps_record_number : keeps obs GetDTCSnapshotRecordNumber.
Proof. unfold GetDTCSnapshotRecordNumber. uds_keeps. Qed.

Lemma keeps_get_freeze_loop l : forall o m off c b, keeps obs (get_freeze_loop l o m off c b).
Proof. induction l; intros; cbn [get_freeze_loop]; uds_keeps. Qed.

#[local] Hint Resolve keeps_record_number keeps_get_freeze_loop : steps.

Lemma keeps_get_freeze id b n : keeps obs (uds_diag_get_freeze id b n).
Proof. unfold uds_diag_get_freeze. uds_keeps. Qed.

#[local] Hint Resolve keeps_get_freeze : steps.

Lemma keeps_snapshot_search n : forall j k d b m, keeps obs (snapshot_search n j k d b m).
Proof. induction n; intros; cbn [snapshot_search]; uds_keeps. Qed.

Lemma keeps_get_did_value did v off n : keeps obs (uds_diag_get_did_value did v off n).
Proof. unfold uds_diag_get_did_value. uds_keeps. Qed.

Lemma keeps_set_did_value did v off n : keeps obs (uds_diag_set_did_value did v off n).
Proof. unfold uds_diag_set_did_value. uds_keeps. Qed.

#[local] Hint Resolve keeps_snapshot_search keeps_get_did_value keeps_set_did_value : steps.

Lemma keeps_read_did_loop n : forall i m dlc pdu, keeps obs (read_did_loop n i m dlc pdu).
Proof. induction n; intros; cbn [read_did_loop]; uds_keeps. Qed.

Lemma keeps_report_loop n sel extra :
  (forall i, keeps obs (sel i)) -> (forall i, keeps obs (extra i)) ->
  forall j acc, keeps obs (report_loop n j sel extra acc).
Proof. intros Hs He. induction n; intros; cbn [report_loop]; uds_keeps. Qed.

#[local] Hint Resolve keeps_read_did_loop keeps_report_loop : steps.

(** ** What a handler may do

    A relation that admits what the handlers of a service [sid] do on the stack
    [p], besides changing the session and the security. *)
Class HandlerRel (R : UDS -> UDS -> Prop) (p : UDS_PTR) (sid : Z) := {
  hr_pre :: PreOrder R;
  hr_quiet s s' : obs s' = obs s -> R s s';
  hr_respond n rest : 1 <= n -> steps_by R (respond p n (u8 (sid + POS_RESPOND_SID_MASK) :: rest));
  hr_nrc code : steps_by R (uds_negative_response p sid code);
  hr_suppress v : steps_by R (set_suppress v);
  hr_pm v : steps_by R (emit (EvPm v));
  hr_save b : steps_by R (emit (EvSaveDiag b));
  hr_tukey : steps_by R (emit EvTukeyRequest);
  hr_tukey_clear : steps_by R (emit EvTukeyClear)
}.

Section handlers.
Context (R : UDS -> UDS -> Prop) (p : UDS_PTR) (sid : Z) `{!HandlerRel R p sid}.
Context (pdu : list Z) (Hpdu : mem_get pdu 0 = Some sid).

Lemma hr_keeps {A} (m : UM A) : keeps obs m -> steps_by R m.
Proof using HandlerRel0. apply steps_sub. intros s s' E. by apply hr_quiet. Qed.

Ltac hr_keeps_tac :=
  lazymatch goal with |- steps_by R _ => apply hr_keeps; solve [eauto 3 with steps] end.

#[local] Hint Extern 4 (steps_by R _) => hr_keeps_tac : steps.
#[local] Hint Resolve hr_nrc hr_suppress hr_pm hr_save hr_tukey hr_tukey_clear : steps.
#[local] Hint Extern 1 (steps_by R (respond _ _ _)) => (apply hr_respond; lia) : steps.

Lemma hr_nrc_pdu code : steps_by R (nrc p pdu code).
Proof using HandlerRel0 Hpdu.
  unfold nrc, pdu_at. steps_apply @steps_lift_bind. rewrite Hpdu. intros ? [= <-]. eauto with steps.
Qed.

Lemma hr_pos_sid : spec_by R (fun x => x = u8 (sid + POS_RESPOND_SID_MASK)) (pos_sid pdu).
Proof using HandlerRel0 Hpdu.
  unfold pos_sid, pdu_at. rewrite Hpdu. intros s a s' [= <- <-]. split; [reflexivity | done].
Qed.

Lemma hr_report_hdr :
  spec_by R (starts (u8 (sid + POS_RESPOND_SID_MASK))) (report_hdr pdu).
Proof using HandlerRel0 Hpdu.
  unfold report_hdr, pdu_at. rewrite Hpdu. intros s a s'. st_run.
  destruct (mem_get pdu 1); [| done]. st_run. intros [= <- <-]. split; [reflexivity | by eexists].
Qed.

Lemma hr_suppress_bit sub : steps_by R (suppress_bit sub).
Proof using HandlerRel0. unfold suppress_bit. steps_tac. Qed.

Lemma hr_pdu_at i : steps_by R (pdu_at pdu i).
Proof using HandlerRel0. unfold pdu_at. steps_tac. Qed.

#[local] Hint Resolve hr_nrc_pdu hr_suppress_bit hr_pdu_at : steps.

Lemma hr_routine_hdr : spec_by R (starts (u8 (sid + POS_RESPOND_SID_MASK))) (routine_hdr pdu).
Proof using HandlerRel0 Hpdu.
  unfold routine_hdr. eapply (spec_bind _); [apply hr_pos_sid |]. intros ? ->.
  do 3 (eapply (spec_bind _ (fun _ => True)); [apply (spec_steps _), hr_pdu_at | intros ? _]).
  apply (spec_ret _). by eexists.
Qed.

Ltac hr_tac :=
  repeat first
    [ solve [eauto 3 with steps]
    | lazymatch goal with
      | |- steps_by _ (pos_sid _ ≫= _) =>
          steps_apply @steps_spec_bind; [apply hr_pos_sid | intros ? ->]
      | |- steps_by _ (report_hdr _ ≫= _) =>
          steps_apply @steps_spec_bind; [apply hr_report_hdr | intros ? [? ->]]
      | |- steps_by _ (routine_hdr _ ≫= _) =>
          steps_apply @steps_spec_bind; [apply hr_routine_hdr | intros ? [? ->]]
      | |- steps_by _ (pdu_at _ 0 ≫= _) =>
          unfold pdu_at at 1; steps_apply @steps_lift_bind; rewrite Hpdu; intros ? [= <-]
      end
    | steps_step ].

Lemma hr_report_dtcs hdr sel extra :
  starts (u8 (sid + POS_RESPOND_SID_MASK)) hdr ->
  (forall i, keeps obs (sel i)) -> (forall i, keeps obs (extra i)) ->
  steps_by R (report_dtcs p hdr sel extra).
Proof using HandlerRel0.
  intros Hh Hs He. unfold report_dtcs.
  assert (forall n j acc, starts (u8 (sid + POS_RESPOND_SID_MASK)) acc ->
    spec_by R (starts (u8 (sid + POS_RESPOND_SID_MASK)))
      (report_loop n j sel extra acc)) as Hl.
  { induction n as [|n IH]; intros j acc [rest ->]; cbn [report_loop].
    { apply (spec_ret _). by eexists. }
    eapply (spec_bind _ (fun _ => True)); [apply (spec_steps _), hr_keeps, Hs |]. intros b _.
    eapply (spec_bind _ (starts (u8 (sid + POS_RESPOND_SID_MASK)))); [| intros a Ha; by apply IH].
    destruct b.
    - eapply (spec_bind _ (fun _ => True)); [apply (spec_steps _), hr_keeps, keeps_get_dtc |]. intros d _.
      eapply (spec_bind _ (fun _ => True)); [apply (spec_steps _), hr_keeps, He |]. intros x _.
      cbv zeta. case_match; [by intros ??? ? |]. apply (spec_ret _). by eexists.
    - apply (spec_ret _). by eexists. }
  eapply (steps_spec_bind _ _); [by apply Hl |]. intros r [rest ->].
  apply hr_respond. rewrite len_cons. pose proof (len_nonneg rest). lia.
Qed.

#[local] Hint Extern 1 (steps_by R (report_dtcs _ _ _ _)) =>
  (apply hr_report_dtcs; [by eexists | intros; uds_keeps | intros; uds_keeps]) : steps.

(** ** The handlers *)

Lemma hr_tester_present dlc : steps_by R (UDS_SRV_TesterPresent p pdu dlc).
Proof using HandlerRel0 Hpdu. unfold UDS_SRV_TesterPresent, short_response. hr_tac. Qed.

Lemma hr_ecu_reset dlc : steps_by R (UDS_SRV_EcuReset p pdu dlc).
Proof using HandlerRel0 Hpdu. unfold UDS_SRV_EcuReset, short_response. hr_tac. Qed.

Lemma hr_control_dtc dlc : steps_by R (UDS_SRV_ControlDTCSetting p pdu dlc).
Proof using HandlerRel0 Hpdu. unfold UDS_SRV_ControlDTCSetting, short_response, set_dtc_switch. hr_tac. Qed.

Lemma hr_clear_dtc dlc : steps_by R (UDS_SRV_ClearDTC p pdu dlc).
Proof using HandlerRel0 Hpdu. unfold UDS_SRV_ClearDTC, uds_diag_dtc_clear, save_diag, set_diag_buf. hr_tac. Qed.

Lemma hr_comm_control dlc : steps_by R (UDS_SRV_CommunicationControl p pdu dlc).
Proof using HandlerRel0 Hpdu. unfold UDS_SRV_CommunicationControl, short_response, set_flags. hr_tac. Qed.

Lemma hr_write_did dlc : steps_by R (UDS_SRV_WriteDataByID p pdu dlc).
Proof using HandlerRel0 Hpdu. unfold UDS_SRV_WriteDataByID. hr_tac. Qed.

Lemma hr_tukey_loop n t0 : steps_by R (tukey_loop n p pdu t0).
Proof using HandlerRel0 Hpdu. induction n; cbn [tukey_loop]; unfold tm_get_time; hr_tac. Qed.

#[local] Hint Resolve hr_tukey_loop : steps.

Lemma hr_routine_control dlc : steps_by R (UDS_SRV_RoutineControl p pdu dlc).
Proof using HandlerRel0 Hpdu. unfold UDS_SRV_RoutineControl, set_transfer, tm_get_time. hr_tac. Qed.

Lemma hr_read_dtc dlc : steps_by R (UDS_SRV_ReadDTC p pdu dlc).
Proof using HandlerRel0 Hpdu.
  unfold UDS_SRV_ReadDTC, ReportNumberOfDTCByStatusMask, ReportDTCByStatusMask,
    ReportDTC_testfail_Or_Confirmed, ReportDTC_testfail, ReportDTC__Confirmed,
    ReportDTCSnapshotIdentification, ReportDTCSnapshotRecordByDTCNumber, ReadSupportedDTCs,
    uds_diag_get_dtc_num, uds_diag_get_cfm_dtc_num, uds_diag_get_uncfm_dtc_num.
  hr_tac. apply hr_respond. autorewrite with len. pose proof (len_nonneg a6). lia.
Qed.

(** Reading identifiers fills the response behind its first byte. *)
Lemma mem_write_first {A} (b : list A) off src b' :
  mem_write b off src = Some b' -> 1 <= off -> mem_get b' 0 = mem_get b 0.
Proof using.
  intros W Ho. rewrite !mem_get_lookup by lia. rewrite (mem_write_lookup _ _ _ _ _ W).
  change (Z.of_nat (Z.to_nat 0)) with 0. by rewrite (proj2 (Z.leb_gt _ _)) by lia.
Qed.

Lemma convert_value_first t v off v' :
  convert_value t v off = Some v' -> 1 <= off -> mem_get v' 0 = mem_get v 0.
Proof using.
  unfold convert_value. intros E Ho. destruct t; try congruence.
  all: repeat (apply bind_Some in E as (? & _ & E)).
  all: eapply mem_write_first; [exact E | done].
Qed.

Lemma find_did_len did r : find_did did = Some r -> 0 <= did_len r.
Proof using.
  unfold find_did. destruct (list_find _ _) as [[i r']|] eqn:E; [| done]. intros [= <-].
  apply list_find_Some in E as [E _].
  assert (Forall (fun r => 0 <= did_len r) diag_did_table) as HF.
  { unfold diag_did_table, did_row. repeat constructor; cbn; lia. }
  by apply (Forall_lookup_1 _ _ _ _ HF E).
Qed.

Lemma get_did_value_first did v off n s ret v' l s' :
  uds_diag_get_did_value did v off n s = Some ((ret, v', l), s') -> 1 <= off ->
  mem_get v' 0 = mem_get v 0 /\ u_rdbi_buf s' = u_rdbi_buf s /\ (ret = 0 -> 0 <= l).
Proof using.
  unfold uds_diag_get_did_value. destruct (find_did did) as [r|] eqn:Er; [| by intros [= <- <- <- <-]].
  pose proof (find_did_len _ _ Er).
  destruct (n <? did_len r); [by intros [= <- <- <- <-] |]. unfold env_read. st_run.
  destruct (env_did_get (u_now s) did n) as [rt bytes].
  destruct (mem_write v off bytes) as [v1|] eqn:W; [| done]. st_run.
  destruct (rt =? 0) eqn:Hr; cbn [negb].
  - destruct (convert_value (did_type r) v1 off) as [v2|] eqn:C; [| done]. st_run.
    intros [= <- <- <- <-] Ho. split; [| done].
    rewrite (convert_value_first _ _ _ _ C Ho). by eapply mem_write_first.
  - apply Z.eqb_neq in Hr. intros [= <- <- <- <-] Ho. split; [by eapply mem_write_first | done].
Qed.

Lemma read_did_loop_first n : forall i m dlc s r s',
  read_did_loop n i m dlc pdu s = Some (r, s') -> 1 <= m ->
  mem_get (u_rdbi_buf s') 0 = mem_get (u_rdbi_buf s) 0 /\ (forall m', r = Some m' -> 1 <= m').
Proof using.
  induction n as [|n IH]; intros i m dlc s r s'; cbn [read_did_loop].
  { intros [= <- <-] Hm. split; [done |]. by intros m' [= <-]. }
  destruct (i <? dlc); [| intros [= <- <-] Hm; split; [done |]; by intros m' [= <-]].
  unfold pdu_at. destruct (mem_get pdu i) as [hi|]; [st_run | done].
  destruct (mem_get pdu (i + 1)) as [lo|]; [st_run | done].
  set (did := Z.shiftl hi 8 + lo).
  destruct (mem_write (u_rdbi_buf s) m _) as [b|] eqn:W; [st_run | done].
  intros E Hm. unfold mbind at 1, st_bind in E.
  destruct (uds_diag_get_did_value did b (m + 2) _ s) as [[[[ret b'] l] s1]|] eqn:G; [| done].
  destruct (get_did_value_first _ _ _ _ _ _ _ _ _ G) as (G1 & G2 & G3); [lia |]. cbn in E.
  destruct (ret =? 0) eqn:Hr; cbn in E.
  - apply IH in E as [E1 E2]; [| apply Z.eqb_eq in Hr; specialize (G3 Hr); lia].
    split; [| done]. rewrite E1. cbn [u_rdbi_buf]. rewrite G1. by eapply mem_write_first.
  - injection E as <- <-. cbn [u_rdbi_buf]. split; [| done]. rewrite G1. by eapply mem_write_first.
Qed.

Lemma hr_read_did dlc : steps_by R (UDS_SRV_ReadDataByID p pdu dlc).
Proof using HandlerRel0 Hpdu.
  unfold UDS_SRV_ReadDataByID. case_match; [apply hr_nrc_pdu |].
  steps_apply @steps_spec_bind; [apply hr_pos_sid | intros ? ->]. apply steps_get_bind. intros s a s'.
  destruct (mem_set (u_rdbi_buf s) 0 _) as [b|] eqn:S; [| done]. st_run.
  set (s1 := {| s with u_rdbi_buf := b |}). intros E.
  unfold mbind at 1, st_bind in E.
  destruct (read_did_loop _ 1 1 dlc pdu s1) as [[res s2]|] eqn:L; [| done].
  assert (R s s2) as HR.
  { transitivity s1; [by apply hr_quiet |]. apply hr_quiet. by apply (keeps_read_did_loop _ _ _ _ _ _ _ _ L). }
  destruct (read_did_loop_first _ _ _ _ _ _ _ L) as [Hf Hm]; [lia |].
  transitivity s2; [done |]. destruct res as [m|]; [| by apply hr_nrc_pdu in E].
  change ((s ← st_get; respond p m (u_rdbi_buf s)) s2 = Some (a, s')) in E. rewrite run_get in E.
  apply mem_set_get in S. change (u_rdbi_buf s1) with b in Hf. rewrite S in Hf. specialize (Hm m eq_refl).
  destruct (u_rdbi_buf s2) as [|x l]; [done |]. injection Hf as ->. by apply hr_respond in E.
Qed.

(** Security access and session control, for relations that admit their
    effects. *)
Lemma hr_security_access dlc :
  (forall v, steps_by R (set_sa v)) -> (forall t, steps_by R (sa_count_failure t)) ->
  (forall v, steps_by R (set_security v)) ->
  (forall g, steps_by R (st_mod (fun s => {| s with u_sa := g s |}))) ->
  steps_by R (UDS_SRV_SecrityAcess p pdu dlc).
Proof using HandlerRel0 Hpdu.
  intros Hsa Hcf Hsec Hg.
  unfold UDS_SRV_SecrityAcess, sa_request_seed, sa_send_key, sa_unlock, sa_delayed, tm_get_time. hr_tac.
Qed.

Lemma hr_session_ctrl dlc :
  (forall v, steps_by R (set_session v)) -> steps_by R (set_security SecurityAccess_LEVEL0) ->
  steps_by R (UDS_SRV_DiagSessionCtrl p pdu dlc).
Proof using HandlerRel0 Hpdu.
  intros Hs Hsec. unfold UDS_SRV_DiagSessionCtrl, UDS_SetDTCOn, session_response, set_dtc_switch. hr_tac.
Qed.

End handlers.

(** ** The dispatcher *)

(** The handler of a service. *)
Definition service (sid : Z) : UDS_PTR -> list Z -> Z -> UM unit :=
  if sid =? 0x10 then UDS_SRV_DiagSessionCtrl
  else if sid =? 0x11 then UDS_SRV_EcuReset
  else if sid =? 0x14 then UDS_SRV_ClearDTC
  else if sid =? 0x19 then UDS_SRV_ReadDTC
  else if sid =? 0x22 then UDS_SRV_ReadDataByID
  else if sid =? 0x27 then UDS_SRV_SecrityAcess
  else if sid =? 0x28 then UDS_SRV_CommunicationControl
  else if sid =? 0x2E then UDS_SRV_WriteDataByID
  else if sid =? 0x31 then UDS_SRV_RoutineControl
  else if sid =? 0x3E then UDS_SRV_TesterPresent
  else if sid =? 0x85 then UDS_SRV_ControlDTCSetting
  else uds_empty_service.

(** The decision of [uds_server_proc] on its tables: a refusal or the row of
    [uds_appl_table]. *)
Definition code_decision (sid session security : Z) (physical : bool) : option (Z + Z) :=
  i ← mem_get uds_index_mask (uds_get_table_index sid);
  entry ← mem_get server_supper_table (uds_get_table_index sid);
  let m0 := if physical then Z.land entry PhysicsAdd_Mask else Z.land entry FunctionAdd_Mask in
  let m1 := session_mask session m0 entry in
  let m2 := security_mask security m1 entry in
  Some (if i =? 0 then inl NRC_ServiceNotSupported
        else if m0 <=? 0 then inl NRC_ConditionsNotCorrect
        else if m1 <=? 0 then inl NRC_ServiceNotSupportedInActiveSession
        else if m2 <=? 0 then inl NRC_SecurityAccessDenied
        else if i <? DIAGNOSE_MAX_SERVICE then inr i else inl NRC_ServiceNotSupported).

(** The decision, as the specification gives it. *)
Definition service_index (sid : Z) : Z := default 0 (mem_get uds_index_mask (uds_get_table_index sid)).

Definition sum_eqb (x y : Z + Z) : bool :=
  match x, y with inl a, inl b => a =? b | inr a, inr b => a =? b | _, _ => false end.

Definition decision_ok (sid session security : Z) (physical : bool) : bool :=
  match code_decision sid session security physical with
  | Some d => sum_eqb d (match verdict sid session security physical with
                         | Some c => inl c | None => inr (service_index sid) end)
  | None => false
  end.

Lemma code_decision_verdict sid session security physical :
  is_byte sid -> session ∈ all_sessions -> security ∈ all_levels ->
  code_decision sid session security physical =
    Some (match verdict sid session security physical with
          | Some c => inl c | None => inr (service_index sid) end).
Proof using.
  intros Hb Hs Hl.
  assert (decision_ok sid session security physical = true) as Hd.
  { assert (forallb (fun ss => forallb (fun sl => forallb (decision_ok sid ss sl) [true; false]) all_levels)
              all_sessions = true) as HF
      by (revert sid Hb; apply byte_enum; vm_compute; reflexivity).
    rewrite forallb_forall in HF. specialize (HF session (proj1 (list_elem_of_In _ _) Hs)).
    rewrite forallb_forall in HF. specialize (HF security (proj1 (list_elem_of_In _ _) Hl)).
    rewrite forallb_forall in HF. apply HF. destruct physical; simpl; auto. }
  unfold decision_ok in Hd. destruct (code_decision _ _ _ _) as [d|]; [| done]. f_equal.
  destruct d, (verdict _ _ _ _); cbn in Hd; try done; apply Z.eqb_eq in Hd; congruence.
Qed.

Lemma server_proc_decision p can_id pdu dlc sid s :
  mem_get pdu 0 = Some sid -> is_byte sid ->
  uds_server_proc p can_id pdu dlc s =
    match code_decision sid (u_session s) (u_security s) (uds_can_id_phy (uds_get p s) =? can_id) with
    | Some (inl code) => nrc p pdu code s
    | Some (inr i) => match mem_get uds_appl_table i with Some f => f p pdu dlc s | None => None end
    | None => None
    end.
Proof using.
  intros Hp Hb. unfold uds_server_proc, pdu_at, code_decision. rewrite Hp. st_run.
  assert (exists e, mem_get server_supper_table (uds_get_table_index sid) = Some e) as [e ->].
  { assert (match mem_get server_supper_table (uds_get_table_index sid) with Some _ => true | None => false end = true)
      as Ht by (clear Hp; revert sid Hb; apply byte_enum; vm_compute; reflexivity).
    destruct (mem_get server_supper_table _) as [e|]; [by exists e | done]. }
  destruct (mem_get uds_index_mask _) as [i|]; [| done]. st_run. cbn [mbind option_bind].
  destruct (i =? 0); [done |]. st_run. cbv zeta.
  repeat (case_match; st_run; try done).
Qed.

(** The identifiers in the tables. *)
Definition sids : list Z :=
  [0x10; 0x11; 0x14; 0x19; 0x22; 0x27; 0x28; 0x2E; 0x2F; 0x31; 0x3E; 0x34; 0x36; 0x37; 0x85].

Lemma access_of_sids sid : is_byte sid -> access_of sid <> None -> In sid sids.
Proof using.
  intros Hb Ha.
  assert ((match access_of sid with None => true | Some _ => existsb (Z.eqb sid) sids end) = true) as Hs
    by (clear Ha; revert sid Hb; apply byte_enum; vm_compute; reflexivity).
  destruct (access_of sid); [| done]. apply existsb_exists in Hs as (x & Hx & E).
  apply Z.eqb_eq in E. by subst.
Qed.

(** The handler the table holds for a granted service. *)
Lemma granted_service sid session security physical :
  is_byte sid -> verdict sid session security physical = None ->
  mem_get uds_appl_table (service_index sid) = Some (service sid).
Proof using.
  intros Hb Hv. assert (access_of sid <> None) as Ha by (unfold verdict in Hv; by destruct (access_of sid)).
  apply access_of_sids in Ha; [| done]. cbn [In sids] in Ha.
  repeat destruct Ha as [<- | Ha]; done.
Qed.

Lemma server_proc_run p can_id pdu dlc sid s :
  mem_get pdu 0 = Some sid -> is_byte sid ->
  u_session s ∈ all_sessions -> u_security s ∈ all_levels ->
  uds_server_proc p can_id pdu dlc s =
    match verdict sid (u_session s) (u_security s) (uds_can_id_phy (uds_get p s) =? can_id) with
    | Some code => uds_negative_response p sid code s
    | None => service sid p pdu dlc s
    end.
Proof using.
  intros Hp Hb Hs Hl. rewrite (server_proc_decision _ _ _ _ sid) by done.
  rewrite code_decision_verdict by done.
  destruct (verdict _ _ _ _) as [c|] eqn:Hv.
  - unfold nrc, pdu_at. rewrite Hp. by st_run.
  - by rewrite (granted_service _ _ _ _ Hb Hv).
Qed.

(** C6: the dispatcher implements the access rules: a request is refused with the
    code the specification gives for its service, addressing, session and security
    level, and otherwise handled by exactly the function of its service, on the
    unchanged state. *)
Theorem uds_server_proc_access p can_id pdu dlc sid s :
  mem_get pdu 0 = Some sid -> is_byte sid ->
  u_session s ∈ all_sessions -> u_security s ∈ all_levels ->
  uds_server_proc p can_id pdu dlc s =
    match verdict sid (u_session s) (u_security s) (uds_can_id_phy (uds_get p s) =? can_id) with
    | Some code => uds_negative_response p sid code s
    | None => service sid p pdu dlc s
    end.
Proof using. apply server_proc_run. Qed.

(** ** Sending a response *)

(** The message of a response of the server. *)
Definition response_msg (body : list Z) : list Z :=
  request_header UDS_TYPE_SERVER MSG_ID_UDS_REQ UDS_CAN_ID_RES (len body) ++ body.

(** The server as [uds_proxy_init] configures it. *)
Definition server_cfg : Z * Z * Z * Z * Z * Z :=
  (UDS_TYPE_SERVER, UDS_CAN_ID_PHY, UDS_CAN_ID_FUN, UDS_CAN_ID_RES, 50, 2000).

Definition server_ok (s : UDS) : Prop := ucfg (u_server s) = server_cfg.

Lemma server_ok_fields s :
  server_ok s -> uds_mode (u_server s) = UDS_TYPE_SERVER /\ uds_can_id_phy (u_server s) = UDS_CAN_ID_PHY /\
    uds_can_id_fun (u_server s) = UDS_CAN_ID_FUN /\ uds_can_id_res (u_server s) = UDS_CAN_ID_RES.
Proof using. unfold server_ok, ucfg, server_cfg. by intros [= -> -> -> ->]. Qed.

Lemma data_request_events p msg can pdu n s ret s' :
  uds_data_request p msg can (Some pdu) n s = Some (ret, s') -> n <> 0 ->
  core s' = core s /\ u_suppress s' = u_suppress s /\
  exists body, mem_read pdu 0 n = Some body /\
    u_events s' = u_events s ++ [EvSend (request_header (uds_mode (uds_get p s)) msg can n ++ body)].
Proof using.
  unfold uds_data_request, uds_mod, emit. st_run. intros E Hn.
  rewrite (proj2 (Z.eqb_neq _ _) Hn) in E. cbn [negb] in E.
  destruct (mem_read pdu 0 n) as [body|] eqn:Hr; [| done]. st_run.
  revert E. st_run. destruct (_ <? len (_ ++ body)); [done |].
  cbn [mbind option_bind]. destruct (mem_get pdu 0) as [sid|]; [| done]. st_run.
  intros [= <- <-]. destruct p; (split; [reflexivity |]); split; try done; by exists body.
Qed.

Lemma positive_response_events n pdu s ret s' :
  server_ok s -> 1 <= n ->
  uds_positive_response uds_server_ptr UDS_CAN_ID_RES n pdu s = Some (ret, s') ->
  core s' = core s /\
  (u_events s' = u_events s \/
   exists body, mem_read pdu 0 n = Some body /\ u_events s' = u_events s ++ [EvSend (response_msg body)]).
Proof using.
  intros Hok Hn. unfold uds_positive_response. st_run.
  destruct (server_ok_fields _ Hok) as (Hm & _). cbn [uds_get]. rewrite Hm.
  change (UDS_TYPE_SERVER =? UDS_TYPE_SERVER) with true. cbv iota.
  destruct (n <=? UDS_SERVER_MAX_BYTE); [| intros [= <- <-]; auto].
  case_match; [unfold set_suppress; st_run; intros [= <- <-]; auto |].
  case_match; [unfold set_suppress; st_run; intros [= <- <-]; auto |].
  unfold mbind at 1, st_bind.
  destruct (uds_data_request _ _ _ _ _ s) as [[rt s1]|] eqn:E; [| done].
  apply data_request_events in E as (Hc & _ & body & Hb & He); [| lia].
  cbn [uds_get] in He. rewrite Hm in He.
  assert (response_msg body = request_header UDS_TYPE_SERVER MSG_ID_UDS_REQ UDS_CAN_ID_RES n ++ body) as Hr.
  { unfold response_msg. by rewrite (mem_read_len _ _ _ _ Hb). }
  rewrite <- Hr in He. intros E.
  match type of E with (?m1 ;; set_suppress 0;; _) s1 = _ =>
    assert (keeps (fun s => (core s, u_events s)) (m1;; set_suppress 0;; mret rt)) as K end.
  { assert (forall x y : UDS, obs y = obs x -> (core y, u_events y) = (core x, u_events x)) as Ho
      by (unfold obs; intros x y Hxy; congruence).
    unfold set_suppress. case_match; steps_tac.
    - by apply keeps_uds_mod.
    - by apply keeps_set_timer. }
  pose proof (K _ _ _ E) as Hk. unfold same in Hk. apply pair_equal_spec in Hk as [-> ->].
  split; [done |]. right. by exists body.
Qed.

(** What a handler of [sid] reports, and the relation it stays in: as long as the
    server is configured it answers the request only and leaves [f] alone. *)
Definition reply_event (sid : Z) (e : UDS_EVENT) : Prop :=
  match e with
  | EvSend d => exists body, d = response_msg body /\ reply_to sid body
  | EvClientCb _ _ _ => False
  | _ => True
  end.

Definition handles {X} (f : UDS -> X) (sid : Z) (s s' : UDS) : Prop :=
  server_ok s ->
  f s' = f s /\ server_ok s' /\
  exists l, u_events s' = u_events s ++ l /\ Forall (reply_event sid) l.

Section handles.
Context {X : Type} (f : UDS -> X) (Hf : forall s s', core s' = core s -> f s' = f s).

#[export] Instance handles_preorder sid : PreOrder (handles f sid).
Proof using.
  split.
  - intros s Hok. split; [done |]. split; [done |]. exists []. by rewrite app_nil_r.
  - intros s1 s2 s3 H1 H2 Hok. destruct (H1 Hok) as (F1 & Hok2 & l1 & E1 & A1).
    destruct (H2 Hok2) as (F2 & Hok3 & l2 & E2 & A2).
    split; [congruence |]. split; [done |]. exists (l1 ++ l2).
    split; [by rewrite E2, E1, app_assoc | by apply Forall_app].
Qed.

Lemma handles_core sid s s' l :
  core s' = core s -> u_events s' = u_events s ++ l -> (server_ok s -> Forall (reply_event sid) l) ->
  handles f sid s s'.
Proof using Hf.
  intros Hc He Hl Hok. split; [by apply Hf |]. split; [| by exists l; auto].
  unfold server_ok, core in *. congruence.
Qed.

Lemma handles_quiet sid s s' : core s' = core s -> u_events s' = u_events s -> handles f sid s s'.
Proof using Hf. intros Hc He. apply (handles_core _ _ _ []); [done | by rewrite app_nil_r | done]. Qed.

Lemma handles_emit sid e :
  match e with EvSend _ | EvClientCb _ _ _ => False | _ => True end ->
  steps_by (handles f sid) (emit e).
Proof using Hf.
  intros He. apply (steps_mod _). intros s. apply (handles_core _ _ _ [e]); [done | done |].
  intros _. constructor; [| done]. by destruct e.
Qed.

Lemma handles_response sid n pdu :
  1 <= n -> (forall body, mem_read pdu 0 n = Some body -> reply_to sid body) ->
  steps_by (handles f sid)
    (s ← st_get; _ ← uds_positive_response uds_server_ptr (uds_can_id_res (uds_get uds_server_ptr s)) n pdu; mret tt).
Proof using Hf.
  intros Hn Hr s a s'. st_run. unfold mbind, st_bind. intros E Hok. revert E Hok.
  cbn [uds_get]. intros E Hok. destruct (server_ok_fields _ Hok) as (_ & _ & _ & Hres). rewrite Hres in E.
  destruct (uds_positive_response _ _ _ _ _) as [[rt s1]|] eqn:E1; [| done]. injection E as <- <-.
  apply positive_response_events in E1 as [Hc [He | (body & Hb & He)]]; [| | done | done].
  - by apply (handles_quiet sid).
  - apply (handles_core sid s s1 [EvSend (response_msg body)]); [done | done | | done].
    intros _. constructor; [| done]. exists body. split; [done | by apply Hr].
Qed.

#[export] Instance handles_rel sid : HandlerRel (handles f sid) uds_server_ptr sid.
Proof using Hf.
  split; try (intros; apply handles_emit; exact I).
  - apply _.
  - intros s s' Ho. unfold obs in Ho. apply handles_quiet; congruence.
  - intros n rest Hn. apply handles_response; [done |]. intros body Hb. right.
    destruct body as [|x l].
    + apply mem_read_len in Hb. change (len (@nil Z)) with 0 in Hb. lia.
    + pose proof (mem_read_lookup _ _ _ _ 0%nat Hb ltac:(lia)) as Hx. cbn in Hx.
      injection Hx as ->. by eexists.
  - intros code. apply handles_response; [lia |]. intros body Hb. left. exists code. rewrite mem_read_ok in Hb by (unfold len; cbn; lia). by injection Hb as <-.
  - intros v. apply (steps_mod _). intros s. by apply handles_quiet.
Qed.

End handles.

(** Without a configuration: what is determined by the access state is kept. *)
Section same_core.
Context {X : Type} (f : UDS -> X) (Hf : forall s s', core s' = core s -> f s' = f s).

Lemma same_core_obs s s' : obs s' = obs s -> f s' = f s.
Proof using Hf. unfold obs. intros E. apply Hf. congruence. Qed.

Lemma keeps_core_mod g : (forall s, core (g s) = core s) -> keeps f (st_mod g).
Proof using Hf. intros Hg. apply (steps_mod _). intros s. apply Hf, Hg. Qed.

Lemma keeps_data_request p msg can pdu n : keeps f (uds_data_request p msg can pdu n).
Proof using Hf.
  unfold uds_data_request, emit. steps_tac.
  - apply keeps_uds_mod; [exact same_core_obs | done].
  - by apply keeps_core_mod.
Qed.

Lemma keeps_positive_response p can n pdu : keeps f (uds_positive_response p can n pdu).
Proof using Hf.
  unfold uds_positive_response, set_suppress. steps_tac; try by apply keeps_core_mod.
  - apply keeps_data_request.
  - apply keeps_uds_mod; [exact same_core_obs | done].
  - apply keeps_set_timer; [exact same_core_obs | done].
Qed.

#[export] Instance same_core_rel p sid : HandlerRel (same f) p sid.
Proof using Hf.
  split; try (intros; by apply keeps_core_mod).
  - apply _.
  - exact same_core_obs.
  - intros n rest _. unfold respond. steps_tac. apply keeps_positive_response.
  - intros code. unfold uds_negative_response. steps_tac. apply keeps_positive_response.
Qed.

End same_core.

(** ** Security access *)

(** A request that may raise the security level: the right key for the last seed,
    after a seed request, with less than three wrong keys before. *)
Definition unlock_request (pdu : list Z) (s : UDS) : Prop :=
  sa_flag (u_sa s) <> 0 /\ sa_attempt (u_sa s) < 3 /\
  exists k0 k1 k2 k3, pdu = [0x27; SeedKey_Secrity_Level1; k0; k1; k2; k3] /\
    be32 k0 k1 k2 k3 = saGetKey (sa_seed (u_sa s)) 2.

(** What the test of a key reads, besides the request. *)
Definition sa_view (s : UDS) : Z * Z * Z * Z * Z :=
  (u_session s, u_security s, sa_seed (u_sa s), sa_flag (u_sa s), sa_attempt (u_sa s)).

Lemma sa_view_core s s' : core s' = core s -> sa_view s' = sa_view s.
Proof using. unfold core, sa_view. intros [= -> -> -> _ _ _]. done. Qed.

Lemma security_core s s' : core s' = core s -> u_security s' = u_security s.
Proof using. unfold core. congruence. Qed.

Lemma keeps_sa_delayed t : keeps sa_view (sa_delayed t).
Proof using.
  unfold sa_delayed. intros s a s'. st_run. case_match; [| by intros [= <- <-]].
  case_match; [by intros [= <- <-] |]. unfold set_sa. st_run. by intros [= <- <-].
Qed.

Lemma keeps_sa_count_failure t : keeps sa_view (sa_count_failure t).
Proof using. apply (steps_mod _). done. Qed.

Lemma sa_send_key_keeps_security p pdu sid t mode unlock :
  mem_get pdu 0 = Some sid -> keeps u_security unlock ->
  keeps u_security (sa_send_key p pdu t mode unlock).
Proof using.
  intros Hp Hu. unfold sa_send_key, set_sa, sa_count_failure, pdu_at.
  pose proof (hr_nrc_pdu _ p sid (HandlerRel0 := same_core_rel u_security security_core p sid) pdu Hp) as Hn.
  steps_tac.
Qed.

(** The outcomes of a key. *)
Lemma sa_send_key_run p sid sub k0 k1 k2 k3 t mode unlock s :
  let pdu := [sid; sub; k0; k1; k2; k3] in
  sa_send_key p pdu t mode unlock s =
    (if sa_flag (u_sa s) =? 0 then nrc p pdu NRC_RequstSequenceError;; mret false
     else if 3 <=? sa_attempt (u_sa s) then
       set_sa {| (u_sa s) with sa_flag := 0 |};; nrc p pdu NRC_ExceedNumberOfAttempts;; mret false
     else if be32 k0 k1 k2 k3 =? saGetKey (sa_seed (u_sa s)) mode then
       set_sa {| (u_sa s) with sa_flag := 0 |};; unlock;; mret true
     else
       nrc p pdu NRC_InvalidKey;; sa_count_failure t;;
       st_mod (fun s => {| s with u_sa := {| (u_sa s) with sa_attempt := u32 (sa_attempt (u_sa s) + 1) |} |});;
       mret false) s.
Proof using.
  intros pdu. unfold sa_send_key. rewrite run_get. case_match; [done |]. case_match; [done |].
  unfold pdu_at. change (mem_get pdu 2) with (Some k0). change (mem_get pdu 3) with (Some k1).
  change (mem_get pdu 4) with (Some k2). change (mem_get pdu 5) with (Some k3). rewrite !run_lift.
  by case_match.
Qed.

Lemma len_6 (l : list Z) : len l = 6 -> exists a b c d e f, l = [a; b; c; d; e; f].
Proof using.
  unfold len. intros E. do 6 (destruct l as [|? l]; [done |]). destruct l; [| cbn in E; lia].
  by repeat eexists.
Qed.

Lemma sa_unlock_level1 pdu sid sub k0 k1 k2 k3 p t s ok s' :
  pdu = [sid; sub; k0; k1; k2; k3] ->
  sa_send_key p pdu t 2 (st_when (sub =? SeedKey_Secrity_Level1) (sa_unlock SecurityAccess_LEVEL1)) s = Some (ok, s') ->
  u_security s' = u_security s \/
  (u_security s' = SecurityAccess_LEVEL1 /\ sub = SeedKey_Secrity_Level1 /\
   sa_flag (u_sa s) <> 0 /\ sa_attempt (u_sa s) < 3 /\ be32 k0 k1 k2 k3 = saGetKey (sa_seed (u_sa s)) 2).
Proof using.
  intros -> E. destruct (Z.eqb_spec sub SeedKey_Secrity_Level1) as [Hs|Hs].
  2: { left. by apply (sa_send_key_keeps_security p _ sid) in E; [| done | apply (steps_ret _)]. }
  rewrite sa_send_key_run in E.
  destruct (Z.eqb_spec (sa_flag (u_sa s)) 0) as [Hf|Hf]; cycle 1.
  1: destruct (Z.leb_spec 3 (sa_attempt (u_sa s))) as [Ha|Ha]; cycle 1.
  1: destruct (Z.eqb_spec (be32 k0 k1 k2 k3) (saGetKey (sa_seed (u_sa s)) 2)) as [Hk|Hk].
  1: { right. injection E as <- <-. done. }
  all: left; pose proof (hr_nrc_pdu _ p sid (HandlerRel0 := same_core_rel u_security security_core p sid)
         [sid; sub; k0; k1; k2; k3] eq_refl).
  all: match type of E with ?m _ = _ => assert (keeps u_security m) as K; [| by apply K in E] end.
  all: unfold set_sa, sa_count_failure; steps_tac.
Qed.

(** The level 2 key has no effect on the level: the sub-function 0x12 is not
    among the cases that compare with it. *)
Lemma sa_level2_locked p pdu sid t sub :
  mem_get pdu 0 = Some sid -> Z.land sub suppressPosRspMsgIndicationBitMask = SeedKey_Secrity_Level2 ->
  keeps u_security (sa_send_key p pdu t 4
    (st_when (sub =? SeedKey_Secrity_Level3) (sa_unlock SecurityAccess_LEVEL2))).
Proof using.
  intros Hp Hs. apply (sa_send_key_keeps_security _ _ sid); [done |].
  destruct (Z.eqb_spec sub SeedKey_Secrity_Level3) as [-> | _]; [done | apply (steps_ret _)].
Qed.

Lemma sa_handler_security p pdu s s' :
  mem_get pdu 0 = Some 0x27 -> UDS_SRV_SecrityAcess p pdu (len pdu) s = Some (tt, s') ->
  u_security s' = u_security s \/ (u_security s' = SecurityAccess_LEVEL1 /\ unlock_request pdu s).
Proof using.
  intros Hp. pose proof (same_core_rel u_security security_core p 0x27) as HR.
  pose proof (hr_nrc_pdu _ p 0x27 pdu Hp) as Hnrc.
  pose proof (hr_suppress_bit _ p 0x27) as Hsb.
  assert (forall n l, keeps u_security (respond p n l)) as Hre.
  { intros n l. unfold respond. steps_tac. apply keeps_positive_response, security_core. }
  unfold UDS_SRV_SecrityAcess. destruct (len pdu <? 2); [intros E; left; by apply Hnrc in E |].
  unfold tm_get_time, env_read. st_run. case_match; [intros E; left; by apply Hnrc in E |].
  st_run. set (t := u32 _). set (s1 := {| s with u_now := _ |}).
  intros E. apply st_bind_inv in E as (delayed & s2 & Ed & E).
  assert (sa_view s2 = sa_view s) as Hv by (by apply keeps_sa_delayed in Ed).
  injection Hv as _ Hsec Hseed Hflag Hatt. rewrite <- Hsec.
  destruct delayed; [left; by apply Hnrc in E |].
  unfold pdu_at in E. destruct (mem_get pdu 1) as [sub|] eqn:H1; [| done]. rewrite run_lift in E.
  case_match; [left |].
  { match type of E with ?m _ = _ => assert (keeps u_security m) as K; [| by apply K in E] end.
    unfold sa_request_seed, sa_count_failure, set_sa, pos_sid, pdu_at. steps_tac. }
  destruct (Z.eqb_spec (Z.land sub suppressPosRspMsgIndicationBitMask) SeedKey_Secrity_Level1) as [Hl1|_].
  - destruct (Z.eqb_spec (len pdu) 6) as [H6|_]; [| left; by apply Hnrc in E].
    apply st_bind_inv in E as (ok & s3 & Ek & E).
    assert (u_security s' = u_security s3) as ->.
    { match type of E with ?m _ = _ => assert (keeps u_security m) as K; [| by apply K in E] end.
      unfold pos_sid, pdu_at. steps_tac. }
    destruct (len_6 _ H6) as (sid & sub' & k0 & k1 & k2 & k3 & ->). injection Hp as ->. injection H1 as ->.
    destruct (sa_unlock_level1 _ _ _ _ _ _ _ _ _ _ _ _ eq_refl Ek) as [? | (Hs & -> & Hf & Ha & Hk)]; [by left |].
    right. split; [done |]. rewrite Hflag in Hf. rewrite Hatt in Ha. rewrite Hseed in Hk.
    split; [done |]. split; [done |]. by exists k0, k1, k2, k3.
  - left. match type of E with ?m _ = _ => assert (keeps u_security m) as K; [| by apply K in E] end.
    destruct (Z.eqb_spec (Z.land sub suppressPosRspMsgIndicationBitMask) SeedKey_Secrity_Level2); [| apply Hnrc].
    pose proof (sa_level2_locked p pdu 0x27 t sub Hp ltac:(done)).
    unfold pos_sid, pdu_at. steps_tac.
Qed.

(** ** All handlers *)

Lemma service_steps (R : UDS -> UDS -> Prop) p sid pdu dlc :
  HandlerRel R p sid -> mem_get pdu 0 = Some sid ->
  (sid = 0x27 -> steps_by R (UDS_SRV_SecrityAcess p pdu dlc)) ->
  (sid = 0x10 -> steps_by R (UDS_SRV_DiagSessionCtrl p pdu dlc)) ->
  steps_by R (service sid p pdu dlc).
Proof using.
  intros HR Hp Hsa Hss. unfold service.
  repeat match goal with |- steps_by _ ((if ?a =? ?b then _ else _) _ _ _) => destruct (Z.eqb_spec a b) end.
  1: by apply Hss. 5: by apply Hsa.
  - by apply hr_ecu_reset with (sid := sid).
  - by apply hr_clear_dtc with (sid := sid).
  - by apply hr_read_dtc with (sid := sid).
  - by apply hr_read_did with (sid := sid).
  - by apply hr_comm_control with (sid := sid).
  - by apply hr_write_did with (sid := sid).
  - by apply hr_routine_control with (sid := sid).
  - by apply hr_tester_present with (sid := sid).
  - by apply hr_control_dtc with (sid := sid).
  - apply steps_ret. apply (hr_pre (R := R) (p := p) (sid := sid)).
Qed.

(** ** Session control *)

(** The session and level after a session request with sub-function [sub]. *)
Definition next_session (sub session security : Z) : Z * Z :=
  let f := Z.land sub suppressPosRspMsgIndicationBitMask in
  if f =? SESSION_TYPE_DEFAULT then (SESSION_TYPE_DEFAULT, SecurityAccess_LEVEL0)
  else if (f =? SESSION_TYPE_PROGRAM) && negb (session =? SESSION_TYPE_DEFAULT)
  then (SESSION_TYPE_PROGRAM, security)
  else if (f =? SESSION_TYPE_EXTENDED) && negb (session =? SESSION_TYPE_PROGRAM)
  then (SESSION_TYPE_EXTENDED, security)
  else (session, security).

Definition access_state (s : UDS) : Z * Z := (u_session s, u_security s).

Lemma access_state_core s s' : core s' = core s -> access_state s' = access_state s.
Proof using. unfold core, access_state. congruence. Qed.

Lemma session_ctrl_access p pdu dlc sub s s' :
  mem_get pdu 0 = Some 0x10 -> mem_get pdu 1 = Some sub ->
  UDS_SRV_DiagSessionCtrl p pdu dlc s = Some (tt, s') ->
  access_state s' =
    (if dlc =? 2 then next_session sub (u_session s) (u_security s) else access_state s).
Proof using.
  intros Hp H1. pose proof (same_core_rel access_state access_state_core p 0x10) as HR.
  pose proof (hr_nrc_pdu _ p 0x10 pdu Hp) as Hnrc.
  assert (keeps access_state (session_response p pdu)) as Hre.
  { pose proof (hr_suppress_bit _ p 0x10 (HandlerRel0 := HR)) as Hsb.
    unfold session_response, respond, pos_sid, pdu_at. steps_tac.
    apply keeps_positive_response, access_state_core. }
  unfold UDS_SRV_DiagSessionCtrl. destruct (dlc =? 2); cbn [negb]; [| intros E; by apply Hnrc in E].
  unfold pdu_at. rewrite H1. st_run. unfold next_session.
  repeat (case_match; cbn [negb andb]); unfold UDS_SetDTCOn, set_dtc_switch, set_session, set_security; st_run;
    intros E; (apply Hre in E || apply Hnrc in E); try done.
  all: repeat match goal with X : _ && _ = true |- _ => apply andb_true_iff in X as [??] end.
  all: rewrite ?Z.eqb_eq in *; unfold SESSION_TYPE_PROGRAM, SESSION_TYPE_EXTENDED in *; lia.
Qed.

(** ** The thread *)

(** A request the transport layer indicates: its address and its bytes; the
    comparison of the length is the one of the code. *)
Definition request_of (m : UDS_MSG) : option (Z * list Z) :=
  match m with
  | UdsScom (id :: b0 :: b1 :: b2 :: b3 :: lo :: hi :: pdu) =>
      if (id =? MSG_ID_UDS_IND) && (len pdu =? lo + hi * 0xff)
      then Some (Z.lor (Z.lor (Z.lor b0 (Z.shiftl b1 8)) (Z.shiftl b2 16)) (Z.shiftl b3 24), pdu)
      else None
  | _ => None
  end.

Definition server_request (m : UDS_MSG) (can : Z) (pdu : list Z) : Prop :=
  request_of m = Some (can, pdu) /\ (can = UDS_CAN_ID_FUN \/ can = UDS_CAN_ID_PHY).

(** What messages other than requests and timeouts leave alone. *)
Definition view (s : UDS) := (u_session s, u_security s, u_sa s, u_suppress s, ucfg (u_server s)).

Definition calm (s s' : UDS) : Prop := server_ok s -> view s' = view s.

Lemma view_ok s s' : server_ok s -> view s' = view s -> server_ok s'.
Proof using. unfold server_ok, view. intros. congruence. Qed.

#[local] Instance calm_preorder : PreOrder calm.
Proof using.
  split; [by intros s Hok |]. intros s1 s2 s3 H1 H2 Hok. specialize (H1 Hok).
  rewrite <- H1. apply H2. by eapply view_ok.
Qed.

Lemma calm_keeps {A} (m : UM A) : keeps view m -> steps_by calm m.
Proof using. apply steps_sub. by intros s s' E Hok. Qed.

Lemma keeps_view_timer p name v : keeps view (uds_set_timer p name v).
Proof using.
  unfold uds_set_timer, uds_timer_settime, timer_mod, uds_mod. steps_tac.
  all: steps_apply @steps_mod; intros s; destruct p; [| done]; unfold same, view, ucfg; cbn.
  all: by repeat case_decide.
Qed.

Lemma keeps_view_data_request p msg can pdu n : keeps view (uds_data_request p msg can pdu n).
Proof using.
  unfold uds_data_request, uds_mod, emit. steps_tac.
  all: steps_apply @steps_mod; intros s; try (destruct p; done); done.
Qed.

Lemma view_obs s s' : obs s' = obs s -> view s' = view s.
Proof using. unfold obs, core, view. congruence. Qed.

#[local] Hint Resolve keeps_view_timer keeps_view_data_request : steps.

Lemma keeps_view_callback id can d : keeps view (client_callback id can d).
Proof using. unfold client_callback, emit. steps_tac. Qed.

#[local] Hint Resolve keeps_view_callback : steps.

Lemma keeps_view_diag b : keeps view (st_when b uds_diag_all_devices).
Proof using.
  unfold uds_diag_all_devices, UDS_GetDTCSetting, save_diag, emit. steps_tac.
  apply (steps_sub (same obs)); [apply view_obs | apply keeps_all_devices_loop].
Qed.

Lemma keeps_view_confirm p r : keeps view (uds_confirm p r).
Proof using. unfold uds_confirm. steps_tac. Qed.

Lemma keeps_view_client can pdu : keeps view (client_indication can pdu).
Proof using. unfold client_indication, pdu_at. steps_tac. Qed.

#[local] Hint Resolve keeps_view_confirm keeps_view_client : steps.

Lemma calm_set_server : steps_by calm uds_set_server.
Proof using.
  unfold uds_set_server. steps_apply @steps_bind; [| intros _; apply calm_keeps; steps_tac].
  intros s a s' [= _ <-] Hok. unfold view. cbn -[ucfg]. f_equal.
  unfold server_ok, ucfg in *. cbn. unfold server_cfg in *. congruence.
Qed.

(** What a request does before it is dispatched. *)
Definition pre_request : UM unit :=
  uds_set_timer uds_server_ptr P2SERVER 1;; uds_set_timer uds_server_ptr S3SERVER 1.

Lemma proxy_cases msg s s' :
  server_ok s -> uds_proxy msg s = Some (tt, s') ->
  view s' = view s \/
  exists can pdu s1, server_request (UdsScom msg) can pdu /\ pre_request s = Some (tt, s1) /\
    uds_server_proc uds_server_ptr can pdu (len pdu) s1 = Some (tt, s').
Proof using.
  intros Hok. destruct msg as [|id msg]; [intros [= <-]; by left |]. cbn [uds_proxy].
  destruct (id =? MSG_ID_UDS_S_ACK); [intros E; left; by apply keeps_view_timer in E |].
  destruct (id =? MSG_ID_UDS_C_ACK).
  { intros E. left. match type of E with ?m _ = _ => assert (keeps view m) as K by steps_tac; by apply K in E end. }
  destruct (id =? MSG_ID_UDS_CFM).
  { intros E. left. match type of E with ?m _ = _ => assert (keeps view m) as K by steps_tac; by apply K in E end. }
  destruct (id =? MSG_ID_UDS_IND) eqn:Hid; [| intros [= <-]; by left].
  destruct (Z.ltb_spec (len msg) 6) as [H6|H6]; [intros [= <-]; by left |].
  destruct msg as [|b0 [|b1 [|b2 [|b3 [|lo [|hi pdu]]]]]]; try (unfold len in H6; cbn in H6; lia).
  change (mem_get _ 4) with (Some lo). change (mem_get _ 5) with (Some hi). st_run.
  replace (len (b0 :: b1 :: b2 :: b3 :: lo :: hi :: pdu) - 6) with (len pdu) by (autorewrite with len; lia).
  destruct (len pdu =? lo + hi * 255) eqn:Hl; cbn [negb]; [| intros [= <-]; by left].
  unfold msg_can_id. change (mem_get _ 0) with (Some b0). change (mem_get _ 1) with (Some b1).
  change (mem_get _ 2) with (Some b2). change (mem_get _ 3) with (Some b3).
  cbn [mbind option_bind]. st_run. set (can := Z.lor _ _). change (drop 6 _) with pdu.
  destruct (server_ok_fields _ Hok) as (_ & Hphy & Hfun & _). rewrite Hphy, Hfun.
  destruct ((can =? UDS_CAN_ID_FUN) || (can =? UDS_CAN_ID_PHY)) eqn:Hc.
  - intros E. right. exists can, pdu. apply st_bind_inv in E as ([] & s0 & E0 & E).
    apply st_bind_inv in E as ([] & s1 & E1 & E). exists s1. split; [| split; [| done]].
    + split; [cbn [request_of]; by rewrite Hid, Hl |]. apply orb_true_iff in Hc as [Hc|Hc]; lia.
    + unfold pre_request. by rewrite (st_bind_run _ _ _ _ _ E0).
  - intros E. left. by apply keeps_view_client in E.
Qed.

(** ** Access control as a state machine *)

(** The changes of session and security level a message may cause: a session
    request, the right key sent to the physical address outside of the default
    session, the timeout of the session. *)
Inductive access_step (s : UDS) (m : UDS_MSG) : Z * Z -> Prop :=
| as_stay : access_step s m (u_session s, u_security s)
| as_session can sub :
    server_request m can [0x10; sub] -> access_step s m (next_session sub (u_session s) (u_security s))
| as_unlock pdu :
    server_request m UDS_CAN_ID_PHY pdu -> u_session s <> SESSION_TYPE_DEFAULT -> unlock_request pdu s ->
    access_step s m (u_session s, SecurityAccess_LEVEL1)
| as_timeout seq :
    m = UdsTimeout S3SERVER seq -> tmr_seq (uds_timer (u_server s) S3SERVER) = seq ->
    access_step s m (SESSION_TYPE_DEFAULT, SecurityAccess_LEVEL0).

(** The states of a run. *)
Record run_ok (s : UDS) : Prop := {
  ro_server : server_ok s;
  ro_session : u_session s ∈ all_sessions;
  ro_security : u_security s = SecurityAccess_LEVEL0 \/ u_security s = SecurityAccess_LEVEL1;
  ro_default : u_session s = SESSION_TYPE_DEFAULT -> u_security s = SecurityAccess_LEVEL0
}.

Lemma run_ok_levels s : run_ok s -> u_security s ∈ all_levels.
Proof using.
  intros [_ _ Hl _]. apply list_elem_of_In. destruct Hl as [-> | ->]; cbn; auto.
Qed.

(** The dispatcher never leaves the configuration. *)
Lemma server_proc_ok can pdu sid dlc s s' :
  mem_get pdu 0 = Some sid -> is_byte sid -> u_session s ∈ all_sessions -> u_security s ∈ all_levels ->
  uds_server_proc uds_server_ptr can pdu dlc s = Some (tt, s') -> handles (fun _ => tt) sid s s'.
Proof using.
  intros Hp Hb Hs Hl. rewrite (server_proc_run _ _ _ _ sid) by done.
  assert (HandlerRel (handles (fun _ => tt) sid) uds_server_ptr sid) as HR by (by apply handles_rel).
  destruct (verdict _ _ _ _); [by apply hr_nrc |].
  apply (service_steps _ _ sid); [done | done | intros -> | intros ->].
  - apply hr_security_access with (sid := 0x27); [done | done | intros ?..]; unfold set_sa, sa_count_failure, set_security.
    all: apply (steps_mod _); intros x Hok; split; [done |]; split; [done |]; exists []; by rewrite app_nil_r.
  - apply hr_session_ctrl with (sid := 0x10); [done | done | intros ?..]; unfold set_session, set_security.
    all: apply (steps_mod _); intros x Hok; split; [done |]; split; [done |]; exists []; by rewrite app_nil_r.
Qed.

Lemma len_2 (l : list Z) : len l = 2 -> exists a b, l = [a; b].
Proof using.
  unfold len. intros E. do 2 (destruct l as [|? l]; [done |]). destruct l; [| cbn in E; lia]. by repeat eexists.
Qed.

(** What a dispatched request does to the session and the level. *)
Lemma server_proc_access m can pdu s s1 s' :
  server_request m can pdu -> Forall is_byte pdu -> run_ok s1 -> view s1 = view s ->
  uds_server_proc uds_server_ptr can pdu (len pdu) s1 = Some (tt, s') ->
  access_step s m (access_state s').
Proof using.
  intros Hm Hb Hok Hv E. destruct pdu as [|sid rest]; [done |].
  assert (is_byte sid) as Hsid by (by inversion Hb).
  rewrite (server_proc_run _ _ _ _ sid) in E; [| done | done | apply Hok | by apply run_ok_levels].
  injection Hv as Hses Hsec Hsa _ _.
  assert (HandlerRel (same access_state) uds_server_ptr sid) as HR by (apply same_core_rel, access_state_core).
  assert (access_state s' = access_state s1 -> access_step s m (access_state s')) as Hstay.
  { intros ->. unfold access_state. rewrite Hses, Hsec. apply as_stay. }
  destruct (verdict sid (u_session s1) (u_security s1) _) as [code|] eqn:Ev; [by apply hr_nrc in E; auto |].
  destruct (decide (sid = 0x10)) as [->|H10].
  { destruct rest as [|sub rest].
    { apply Hstay. unfold service, UDS_SRV_DiagSessionCtrl in E. cbn in E. by apply (hr_nrc_pdu _ _ 0x10) in E; auto. }
    apply (session_ctrl_access _ _ _ sub) in E; [| done | done].
    destruct (Z.eqb_spec (len (0x10 :: sub :: rest)) 2) as [Hl2|_]; [| by apply Hstay].
    destruct (len_2 _ Hl2) as (a & b & [= <- <- ->]). rewrite E, Hses, Hsec. by apply (as_session _ _ can). }
  destruct (decide (sid = 0x27)) as [->|H27]; [| apply Hstay; revert E; by apply (service_steps _ _ _ _ _ HR)].
  assert (u_session s' = u_session s1) as Hss.
  { assert (forall x y : UDS, core y = core x -> u_session y = u_session x) as Hc by (unfold core; congruence).
    pose proof (same_core_rel u_session Hc uds_server_ptr 0x27) as HR'.
    assert (keeps u_session (UDS_SRV_SecrityAcess uds_server_ptr (0x27 :: rest) (len (0x27 :: rest)))) as K.
    { by apply hr_security_access with (sid := 0x27); try done; intros ?; apply (steps_mod _). }
    by apply K in E. }
  apply sa_handler_security in E as [Hsec' | [Hsec' Hu]]; [| | done].
  - apply Hstay. unfold access_state. congruence.
  - unfold access_state. rewrite Hss, Hsec', Hses. apply (as_unlock _ _ (0x27 :: rest)).
    + destruct Hm as [Hm [-> | ->]]; [| by split; [done | right]]. exfalso.
      destruct (server_ok_fields _ (ro_server _ Hok)) as (_ & Hphy & _). cbn [uds_get] in Ev.
      by rewrite Hphy in Ev.
    + intros Hd. destruct (server_ok_fields _ (ro_server _ Hok)) as (_ & Hphy & _). cbn [uds_get] in Ev.
      rewrite <- Hses in Hd. rewrite Hd in Ev. by destruct (_ =? can) in Ev.
    + unfold unlock_request in *. by rewrite <- Hsa.
Qed.

Lemma pre_request_view s s1 : pre_request s = Some (tt, s1) -> view s1 = view s.
Proof using. assert (keeps view pre_request) as K by (unfold pre_request; steps_tac). apply K. Qed.

Lemma run_ok_view s s1 : run_ok s -> view s1 = view s -> run_ok s1.
Proof using.
  intros [H1 H2 H3 H4] Hv. assert (server_ok s1) as H1' by (by eapply view_ok).
  injection Hv as Hs Hl _ _. by split; rewrite ?Hs, ?Hl.
Qed.

Lemma request_bytes m can pdu : msg_ok m -> server_request m can pdu -> Forall is_byte pdu.
Proof using.
  intros Hm [Hr _]. destruct m as [msg| |]; try done. cbn in Hm.
  do 7 (destruct msg as [|? msg]; [done |]). cbn [request_of] in Hr.
  destruct (_ && _); [| done]. injection Hr as _ <-. repeat (apply Forall_cons_1 in Hm as [_ Hm]); exact Hm.
Qed.

Lemma main_step_access m s s' :
  run_ok s -> msg_ok m -> uds_main_step m s = Some (tt, s') ->
  access_step s m (access_state s') /\ server_ok s'.
Proof using.
  intros Hok Hm E. pose proof (ro_server _ Hok) as Hsv.
  assert (view s' = view s -> access_step s m (access_state s') /\ server_ok s') as Hview.
  { intros Hv. split; [| by eapply view_ok]. injection Hv as Hs Hl _ _. unfold access_state. rewrite Hs, Hl.
    apply as_stay. }
  destruct m as [msg | av | t seq]; cbn [uds_main_step] in E.
  - apply proxy_cases in E as [Hv | (can & pdu & s1 & Hreq & Hpre & E)]; [by apply Hview | | done].
    apply pre_request_view in Hpre. assert (run_ok s1) as Hok1 by (by eapply run_ok_view).
    assert (Forall is_byte pdu) as Hb by (by eapply request_bytes).
    split; [by eapply server_proc_access |].
    destruct pdu as [|sid rest]; [done |]. apply (server_proc_ok _ _ sid) in E.
    + apply E. apply Hok1.
    + done.
    + by inversion Hb.
    + apply Hok1.
    + by apply run_ok_levels.
  - apply keeps_view_diag in E. exact (Hview E).
  - unfold uds_timeout in E. rewrite run_get in E.
    destruct (Z.eqb_spec (tmr_seq (uds_timer (uds_get (timer_owner t) s) t)) seq) as [Hseq|_]; cbn [negb] in E;
      [| injection E as <-; by apply Hview].
    destruct t; try (injection E as <-; by apply Hview); try (apply keeps_view_callback in E; exact (Hview E)).
    + injection E as <-. split; [by eapply as_timeout |]. exact Hsv.
    + apply st_bind_inv in E as (r & s1 & E & [= <-]). apply Hview. exact (calm_set_server _ _ _ E Hsv).
Qed.

Lemma access_step_ok s m a s' :
  run_ok s -> access_step s m a -> access_state s' = a -> server_ok s' -> run_ok s'.
Proof using.
  intros [H1 H2 H3 H4] Ha <- Hs'. unfold access_state in Ha.
  inversion Ha as [[E1 E2] | can sub Hr E | pdu Hr Hd Hu [E1 E2] | seq Ht Hq [E1 E2]].
  - by split; rewrite <- ?E1, <- ?E2.
  - unfold next_session in E.
    repeat case_match; injection E as E1 E2; split; rewrite <- ?E1, <- ?E2; auto; try done.
    all: apply list_elem_of_In; cbn; auto.
  - split; rewrite <- ?E1, <- ?E2; [done | done | by right | done].
  - split; rewrite <- ?E1, <- ?E2; auto. apply list_elem_of_In. cbn. auto.
Qed.

(** C1: access control refines its state machine: in every state of a run each
    message of the thread changes session and security level only by a session
    request (to the state [next_session] gives), by the timeout of the session,
    or by the right key for the last seed, sent to the physical address outside
    of the default session with less than three wrong keys before. *)
Theorem uds_access_refines m s s' :
  run_ok s -> msg_ok m -> uds_main_step m s = Some (tt, s') -> access_step s m (access_state s').
Proof using. intros. by apply main_step_access. Qed.

Lemma uds_run_keeps_ok s s' : run_ok s -> uds_run s s' -> run_ok s'.
Proof using.
  intros Hok Hr. induction Hr as [|s1 s2 s3 m Hr IH Hm E]; [done |].
  specialize (IH Hok). destruct (main_step_access _ _ _ IH Hm E) as [Ha Hs]. by eapply access_step_ok.
Qed.

(** In no run is the default session unlocked, and level 2 is never reached. *)
Theorem uds_default_session_locked s s' :
  run_ok s -> uds_run s s' ->
  (u_session s' = SESSION_TYPE_DEFAULT -> u_security s' = SecurityAccess_LEVEL0) /\
  u_security s' <> SecurityAccess_LEVEL2.
Proof using.
  intros Hok Hr. destruct (uds_run_keeps_ok _ _ Hok Hr) as [_ _ Hl Hd]. split; [done |].
  by destruct Hl as [-> | ->].
Qed.

End env.
