(* ===== verification/UdsProps.v ===== *)
(** * UDS requests: answers, timers, lockout and unlocking

    Theorems about whole requests, on top of [UdsAccess]: who is answered, what
    happens to the session timer, the lockout after wrong keys, the exchange of
    seed and key, suppressed responses and the polling loop of the key learning
    routine. *)

From S2P Require Import Prelude Framing Scom UdsBase UdsDiag UdsServices UdsServer UdsAccess.

Section env.
Context `{UdsEnv}.

#[local] Existing Instance handles_rel.

(** A server request as the thread executes it. *)
Lemma request_step m can pdu s :
  server_ok s -> server_request m can pdu ->
  uds_main_step m s = (pre_request;; uds_server_proc uds_server_ptr can pdu (len pdu)) s.
Proof using.
  intros Hok [Hreq Hc]. destruct m as [msg| |]; try done.
  destruct msg as [|id [|b0 [|b1 [|b2 [|b3 [|lo [|hi msg]]]]]]]; try done.
  cbn [request_of] in Hreq. destruct (Z.eqb_spec id MSG_ID_UDS_IND) as [->|]; [| done]. cbn [andb] in Hreq.
  destruct (len msg =? lo + hi * 0xff) eqn:Hl; [| done]. injection Hreq as Hcan <-.
  cbn [uds_main_step uds_proxy]. change (MSG_ID_UDS_IND =? MSG_ID_UDS_S_ACK) with false.
  change (MSG_ID_UDS_IND =? MSG_ID_UDS_C_ACK) with false.
  change (MSG_ID_UDS_IND =? MSG_ID_UDS_CFM) with false.
  change (MSG_ID_UDS_IND =? MSG_ID_UDS_IND) with true. cbv iota.
  replace (len (b0 :: b1 :: b2 :: b3 :: lo :: hi :: msg) - 6) with (len msg) by (autorewrite with len; lia).
  rewrite (proj2 (Z.ltb_ge _ _)) by (autorewrite with len; pose proof (len_nonneg msg); lia).
  change (mem_get _ 4) with (Some lo). change (mem_get _ 5) with (Some hi). st_run. rewrite Hl.
  cbn [negb]. unfold msg_can_id. change (mem_get _ 0) with (Some b0). change (mem_get _ 1) with (Some b1).
  change (mem_get _ 2) with (Some b2). change (mem_get _ 3) with (Some b3).
  cbn [mbind option_bind]. st_run. rewrite Hcan. change (drop 6 _) with msg.
  destruct (server_ok_fields _ Hok) as (_ & Hphy & Hfun & _). rewrite Hphy, Hfun.
  replace ((can =? UDS_CAN_ID_FUN) || (can =? UDS_CAN_ID_PHY)) with true by (destruct Hc as [-> | ->]; done).
  unfold pre_request. by rewrite run_assoc.
Qed.

Lemma request_run m can pdu s s' :
  run_ok s -> msg_ok m -> server_request m can pdu -> uds_main_step m s = Some (tt, s') ->
  exists sid rest s1, pdu = sid :: rest /\ is_byte sid /\ pre_request s = Some (tt, s1) /\ run_ok s1 /\
    uds_server_proc uds_server_ptr can pdu (len pdu) s1 = Some (tt, s').
Proof using.
  intros Hok Hm Hr E. assert (Forall is_byte pdu) as Hb by (by eapply request_bytes).
  rewrite (request_step m can pdu) in E; [| apply Hok | done].
  apply st_bind_inv in E as ([] & s1 & E1 & E). destruct pdu as [|sid rest]; [done |].
  exists sid, rest, s1. split; [done |]. split; [by inversion Hb |]. split; [done |]. split; [| done].
  eapply run_ok_view; [done | by apply pre_request_view].
Qed.

Lemma pre_request_events s s1 : pre_request s = Some (tt, s1) -> u_events s1 = u_events s.
Proof using.
  assert (keeps u_events pre_request) as K; [| apply K].
  unfold pre_request, uds_set_timer, uds_timer_settime, timer_mod, uds_mod. steps_tac.
Qed.

(** The server answers nothing but the request: in every state of a run, what a
    request makes it send is a sequence of responses to the service of that request
    (the negative response names it, a positive one is its identifier plus 0x40),
    each with the header of the response address and its exact length; the client
    is not called. *)
Theorem uds_answers_request m can pdu s s' :
  run_ok s -> msg_ok m -> server_request m can pdu -> uds_main_step m s = Some (tt, s') ->
  exists sid rest l, pdu = sid :: rest /\ u_events s' = u_events s ++ l /\ Forall (reply_event sid) l.
Proof using.
  intros Hok Hm Hr E. destruct (request_run _ _ _ _ _ Hok Hm Hr E) as (sid & rest & s1 & -> & Hb & Hpre & Hok1 & E1).
  apply (server_proc_ok _ _ sid) in E1 as Hh; [| done | done | apply Hok1 | by apply run_ok_levels].
  destruct (Hh (ro_server _ Hok1)) as (_ & _ & l & He & Hl).
  exists sid, rest, l. split; [done |]. by rewrite He, (pre_request_events _ _ Hpre).
Qed.

(** What neither session nor security changes touch is kept by a request. *)
Lemma server_proc_keeps {X} (f : UDS -> X) can pdu sid dlc s s' :
  (forall s s', core s' = core s -> f s' = f s) ->
  (forall v, keeps f (set_session v)) -> (forall v, keeps f (set_security v)) ->
  (forall g, keeps f (st_mod (fun s => {| s with u_sa := g s |}))) ->
  mem_get pdu 0 = Some sid -> is_byte sid -> run_ok s ->
  uds_server_proc uds_server_ptr can pdu dlc s = Some (tt, s') -> f s' = f s.
Proof using.
  intros Hf Hs Hl Hg Hp Hb Hok. rewrite (server_proc_run _ _ _ _ sid); [| done | done | apply Hok | by apply run_ok_levels].
  pose proof (same_core_rel f Hf uds_server_ptr sid) as HR.
  assert (forall v, keeps f (set_sa v)) as Hsa by (intros v; apply (Hg (fun _ => v))).
  destruct (verdict _ _ _ _); [apply (hr_nrc (HandlerRel := HR)) |].
  apply (service_steps (same f) uds_server_ptr sid pdu dlc HR Hp); intros ->.
  - apply (hr_security_access (same f) uds_server_ptr 0x27 pdu Hp dlc); [done | | done | done].
    intros t. unfold sa_count_failure. steps_apply @steps_mod. intros x. exact (Hg (fun s => _) x tt _ eq_refl).
  - by apply (hr_session_ctrl (same f) uds_server_ptr 0x10 pdu Hp dlc).
Qed.

Lemma next_seq_ne seq : next_seq seq <> seq.
Proof using.
  unfold next_seq, u16. case_bool; [by intros <- |]. intros E.
  pose proof (Z.mod_pos_bound (seq + 1) (2 ^ 16) ltac:(lia)).
  destruct (Z.eq_dec seq (2 ^ 16 - 1)) as [->|]; [done |].
  rewrite Z.mod_small in E by lia. lia.
Qed.

(** The session timer a request starts. *)
Definition restarted (t : UDS_TIMER_T) : UDS_TIMER_T :=
  {| tmr_seq := next_seq (tmr_seq t);
     tmr_armed := if 0 <? tmr_value t then Some (tmr_value t) else None;
     tmr_switch := 1; tmr_value := tmr_value t |}.

Lemma pre_request_timer s s1 :
  pre_request s = Some (tt, s1) -> uds_timer (u_server s1) S3SERVER = restarted (uds_timer (u_server s) S3SERVER).
Proof using. intros [= <-]. reflexivity. Qed.

(** Every request restarts the session timer: afterwards it runs with its full
    time and a new sequence number, and a timeout of the timer that ran before, even
    if its message is already in the queue, is ignored. *)
Theorem uds_request_restarts_session m can pdu s s' :
  run_ok s -> msg_ok m -> server_request m can pdu -> uds_main_step m s = Some (tt, s') ->
  let t := uds_timer (u_server s) S3SERVER in
  uds_timer (u_server s') S3SERVER = restarted t /\
  uds_main_step (UdsTimeout S3SERVER (tmr_seq t)) s' = Some (tt, s').
Proof using.
  intros Hok Hm Hr E t. destruct (request_run _ _ _ _ _ Hok Hm Hr E) as (sid & rest & s1 & -> & Hb & Hpre & Hok1 & E1).
  assert (uds_timer (u_server s') S3SERVER = restarted t) as Ht.
  { unfold t. rewrite <- (pre_request_timer _ _ Hpre).
    refine (server_proc_keeps (fun s => uds_timer (u_server s) S3SERVER) _ (sid :: rest) sid _ _ _ _ _ _ _ eq_refl Hb Hok1 E1); try done.
    1: unfold core; congruence. all: by intros ?; steps_apply @steps_mod. }
  split; [done |]. cbn [uds_main_step]. unfold uds_timeout. rewrite run_get.
  change (uds_get (timer_owner S3SERVER) s') with (u_server s'). rewrite Ht. cbn [tmr_seq restarted]. by rewrite (proj2 (Z.eqb_neq _ _) (next_seq_ne _)).
Qed.

(** The timeout of the session, if it is not stale, closes the session and the
    security access and enables the recording of trouble codes; nothing else. *)
Theorem uds_session_timeout s :
  uds_main_step (UdsTimeout S3SERVER (tmr_seq (uds_timer (u_server s) S3SERVER))) s =
    Some (tt, {| s with u_session := SESSION_TYPE_DEFAULT; u_security := SecurityAccess_LEVEL0;
                        u_dtc_switch := 1 |}).
Proof using.
  cbn [uds_main_step]. unfold uds_timeout. rewrite run_get, Z.eqb_refl. done.
Qed.

(** ** Lockout *)

Definition locked (s : UDS) : Prop := 3 <= sa_attempt (u_sa s).

Definition stays_locked (s s' : UDS) : Prop := locked s -> locked s'.

#[local] Instance stays_locked_preorder : PreOrder stays_locked.
Proof using. split; [by intros s L | intros x y z H1 H2 L; by apply H2, H1]. Qed.

Definition attempts (s : UDS) : Z := sa_attempt (u_sa s).

Lemma attempts_core s s' : core s' = core s -> attempts s' = attempts s.
Proof using. unfold core, attempts. intros E. by injection E as _ _ -> _ _ _. Qed.

Lemma stays_locked_keeps {A} (m : UM A) : keeps attempts m -> steps_by stays_locked m.
Proof using.
  apply steps_sub. intros s s' E L. unfold same, attempts in E. unfold locked in *. by rewrite E.
Qed.

#[local] Instance stays_locked_rel p sid : HandlerRel stays_locked p sid.
Proof using.
  pose proof (same_core_rel attempts attempts_core p sid) as HR.
  destruct HR as [_ _ H1 H2 H3 H4 H5 H6 H7]. split; try (intros; apply stays_locked_keeps; auto; done).
  - apply _.
  - intros s s' E L. unfold locked. change (3 <= attempts s').
    by rewrite (attempts_core s s') by (unfold obs in E; congruence).
Qed.

Lemma stays_locked_send_key p sid pdu t mode unlock :
  mem_get pdu 0 = Some sid -> keeps attempts unlock ->
  steps_by stays_locked (sa_send_key p pdu t mode unlock).
Proof using.
  intros Hp Hu. unfold sa_send_key. apply steps_get_bind. intros s a s'.
  destruct (sa_flag (u_sa s) =? 0).
  { apply (steps_bind stays_locked); [by apply (hr_nrc_pdu _ p sid) | intros ?; apply (steps_ret _)]. }
  destruct (Z.leb_spec 3 (sa_attempt (u_sa s))) as [Ha|Ha].
  - unfold set_sa. rewrite run_mod. intros E L.
    assert (steps_by stays_locked (nrc p pdu NRC_ExceedNumberOfAttempts;; mret false)) as K.
    { apply (steps_bind _); [by apply (hr_nrc_pdu _ p sid) | intros ?; apply (steps_ret _)]. }
    by apply K in E; apply E.
  - intros _ L. unfold locked in L. lia.
Qed.

Lemma stays_locked_handler p pdu dlc :
  mem_get pdu 0 = Some 0x27 -> steps_by stays_locked (UDS_SRV_SecrityAcess p pdu dlc).
Proof using.
  intros Hp. pose proof (stays_locked_rel p 0x27) as HR.
  pose proof (hr_nrc_pdu _ p 0x27 pdu Hp) as Hnrc.
  pose proof (hr_suppress_bit _ p 0x27 (HandlerRel0 := HR)) as Hsb.
  assert (forall n l, steps_by stays_locked (respond p n l)) as Hre.
  { intros n l. apply stays_locked_keeps. unfold respond. steps_tac.
    apply keeps_positive_response, attempts_core. }
  assert (forall b v, keeps attempts (st_when b (sa_unlock v))) as Hul.
  { intros b v. unfold sa_unlock, set_security. steps_tac. }
  assert (forall t, steps_by stays_locked (sa_delayed t)) as Hde.
  { intros t. apply stays_locked_keeps. intros s a s' E. apply keeps_sa_delayed in E.
    unfold same, sa_view in E. by injection E as _ _ _ _ E. }
  assert (forall t, steps_by stays_locked (sa_request_seed t)) as Hrs.
  { intros t. unfold sa_request_seed. apply steps_get_bind. intros s a s'.
    case_match; intros [= <- <-] L; [done |]. unfold locked in *. cbn. by case_match. }
  pose proof (fun t mode unlock => stays_locked_send_key p 0x27 pdu t mode unlock Hp) as Hsk.
  unfold UDS_SRV_SecrityAcess, tm_get_time, env_read, pos_sid, pdu_at.
  steps_tac; try (apply Hsk, Hul); by apply stays_locked_keeps, (steps_mod _).
Qed.

Lemma main_step_locked m s s' :
  run_ok s -> msg_ok m -> uds_main_step m s = Some (tt, s') -> stays_locked s s'.
Proof using.
  intros Hok Hm E. pose proof (ro_server _ Hok) as Hsv.
  assert (view s' = view s -> stays_locked s s') as Hview.
  { intros Hv L. injection Hv as _ _ Hv _. unfold locked in *. by rewrite Hv. }
  destruct m as [msg | av | t seq]; cbn [uds_main_step] in E.
  - apply proxy_cases in E as [Hv | (can & pdu & s1 & Hreq & Hpre & E)]; [by apply Hview | | done].
    apply pre_request_view in Hpre. assert (run_ok s1) as Hok1 by (by eapply run_ok_view).
    assert (Forall is_byte pdu) as Hb by (by eapply request_bytes).
    destruct pdu as [|sid rest]; [done |].
    rewrite (server_proc_run _ _ _ _ sid) in E; [| done | by inversion Hb | apply Hok1 | by apply run_ok_levels].
    intros L. assert (locked s1) as L1 by (injection Hpre as _ _ Hpre _; unfold locked in *; by rewrite Hpre).
    revert L1. change (stays_locked s1 s').
    destruct (verdict _ _ _ _); [by apply (hr_nrc (sid := sid)) in E |].
    apply (service_steps stays_locked uds_server_ptr sid (sid :: rest)) in E; [done | apply _ | done | |]; intros ->.
    + by apply stays_locked_handler.
    + apply (hr_session_ctrl stays_locked uds_server_ptr 0x10 (0x10 :: rest) eq_refl); [intros v |];
        apply stays_locked_keeps; by steps_apply @steps_mod.
  - apply keeps_view_diag in E. exact (Hview E).
  - unfold uds_timeout in E. rewrite run_get in E.
    destruct (negb _); [injection E as <-; by apply Hview |].
    destruct t; try (injection E as <-; by apply Hview); try (apply keeps_view_callback in E; exact (Hview E)).
    { injection E as <-. by intros L. }
    apply st_bind_inv in E as (r & s1 & E & [= <-]). apply Hview. exact (calm_set_server _ _ _ E Hsv).
Qed.

(** Three wrong keys lock the security access for good: the number of wrong keys
    is never reset, so once it has reached three no run unlocks the server again. *)
Theorem uds_lockout_permanent s s' :
  run_ok s -> locked s -> u_security s = SecurityAccess_LEVEL0 -> uds_run s s' ->
  locked s' /\ u_security s' = SecurityAccess_LEVEL0.
Proof using.
  intros Hok L Hs Hr. induction Hr as [|s1 s2 s3 m Hr IH Hm E]; [done |].
  destruct (IH Hok L Hs) as [L2 Hs2]. pose proof (uds_run_keeps_ok _ _ Hok Hr) as Hok2.
  split; [by apply (main_step_locked _ _ _ Hok2 Hm E) |].
  destruct (main_step_access _ _ _ Hok2 Hm E) as [Ha _]. unfold access_state in Ha.
  inversion Ha as [[E1 E2] | can sub Hq E1 | pdu Hq Hd Hu [E1 E2] | seq Ht Hq [E1 E2]]; [congruence | | | done].
  - unfold next_session in E1. repeat case_match; injection E1 as _ <-; done.
  - destruct Hu as (_ & Hu & _). unfold locked in L2. lia.
Qed.

(** ** Executing a response *)

Lemma data_request_run p can pdu n s :
  1 <= n <= 2041 -> n <= len pdu ->
  exists s', uds_data_request p MSG_ID_UDS_REQ can (Some pdu) n s =
      Some (u32 (env_tl_send (request_header (uds_mode (uds_get p s)) MSG_ID_UDS_REQ can n ++ take (Z.to_nat n) pdu)), s') /\
    core s' = core s /\ u_suppress s' = u_suppress s /\
    u_events s' = u_events s ++
      [EvSend (request_header (uds_mode (uds_get p s)) MSG_ID_UDS_REQ can n ++ take (Z.to_nat n) pdu)].
Proof using.
  intros Hn Hl. unfold uds_data_request, uds_mod, emit. st_run.
  rewrite (proj2 (Z.eqb_neq n 0)) by lia. cbn [negb]. rewrite mem_read_ok by lia.
  change (drop (Z.to_nat 0) pdu) with pdu. st_run. set (hdr := request_header _ _ _ _).
  assert (len hdr <= 7) as Hh.
  { unfold hdr, request_header. repeat case_match; unfold len; cbn; lia. }
  change (UDS_SERVER_MAX_BYTE / 2) with 2048.
  rewrite (proj2 (Z.ltb_ge _ _)) by (autorewrite with len; lia).
  cbn [mbind option_bind]. destruct (mem_get_is_Some pdu 0) as [x ->]; [lia |]. st_run.
  eexists. split; [reflexivity |]. destruct p; by split.
Qed.

(** The last branch of [uds_positive_response]: sending. *)
Lemma send_run n pdu s :
  server_ok s -> 1 <= n <= 2041 -> n <= len pdu ->
  exists ret s',
    (ret ← uds_data_request uds_server_ptr MSG_ID_UDS_REQ UDS_CAN_ID_RES (Some pdu) n;
     (if ret =? 0 then
        uds_mod uds_server_ptr (fun u => {| u with uds_sid := stack_get pdu 0; uds_nrc := stack_get pdu 2 |});;
        st_when (NRC_RequestCorrectlyReceivedResponsePending =? stack_get pdu 2)
          (uds_set_timer uds_server_ptr P2EXT_SERVER 1)
      else mret tt);;
     set_suppress 0;;
     mret ret) s = Some (ret, s') /\ core s' = core s /\ u_suppress s' = 0 /\
    u_events s' = u_events s ++ [EvSend (response_msg (take (Z.to_nat n) pdu))].
Proof using.
  intros Hok Hn Hl. destruct (server_ok_fields _ Hok) as (Hm & _).
  destruct (data_request_run uds_server_ptr UDS_CAN_ID_RES pdu n s Hn Hl) as (s1 & E & Hc & Hsu & He).
  rewrite (st_bind_run _ _ _ _ _ E). clear E. cbn [uds_get] in He. rewrite Hm in He.
  assert (response_msg (take (Z.to_nat n) pdu) =
    request_header UDS_TYPE_SERVER MSG_ID_UDS_REQ UDS_CAN_ID_RES n ++ take (Z.to_nat n) pdu) as Hrm.
  { unfold response_msg. f_equal. f_equal. rewrite len_take. lia. }
  rewrite <- Hrm in He. set (ret := u32 _).
  match goal with |- exists _ _, (?m1 ≫= ?k) s1 = _ /\ _ =>
    assert (exists s2, m1 s1 = Some (tt, s2) /\ core s2 = core s1 /\ u_events s2 = u_events s1) as (s2 & E2 & Hc2 & He2) end.
  { destruct (ret =? 0); [| by exists s1]. unfold uds_mod. rewrite run_mod.
    destruct (_ =? stack_get pdu 2); cbn [st_when]; (eexists; split; [reflexivity |]); done. }
  rewrite (st_bind_run _ _ _ _ _ E2). unfold set_suppress. st_run.
  do 2 eexists. split; [reflexivity |]. cbn [u_suppress u_events]. rewrite He2, He.
  split; [by rewrite <- Hc, <- Hc2 | done].
Qed.

(** A response of [n] bytes whose first is not the negative response. *)
Lemma respond_run n pdu x s :
  server_ok s -> 1 <= n <= 2041 -> n <= len pdu -> mem_get pdu 0 = Some x -> x <> SID_NegativeResponse ->
  exists s', respond uds_server_ptr n pdu s = Some (tt, s') /\ core s' = core s /\ u_suppress s' = 0 /\
    u_events s' = u_events s ++
      (if u_suppress s =? 1 then [] else [EvSend (response_msg (take (Z.to_nat n) pdu))]).
Proof using.
  intros Hok Hn Hl Hx Hne. unfold respond, uds_positive_response. st_run. cbn [uds_get].
  destruct (server_ok_fields _ Hok) as (Hm & _ & _ & Hr). rewrite Hm, Hr.
  change (UDS_TYPE_SERVER =? UDS_TYPE_SERVER) with true. cbv iota.
  rewrite (proj2 (Z.leb_le _ _)) by (unfold UDS_SERVER_MAX_BYTE; lia).
  replace (stack_get pdu 0 =? SID_NegativeResponse) with false
    by (unfold stack_get; rewrite Hx; symmetry; by apply Z.eqb_neq).
  cbn [negb andb]. rewrite Bool.andb_false_r. cbn [andb].
  destruct (u_suppress s =? 1) eqn:Hs; [unfold set_suppress; st_run |].
  { eexists. split; [reflexivity |]. by rewrite app_nil_r. }
  destruct (send_run n pdu s Hok Hn Hl) as (ret & s' & E & Hc & Hsu & He).
  rewrite (st_bind_run _ _ _ _ _ E). by exists s'.
Qed.

(** A negative response; the rule for functional addressing, which compares the
    address of the request with the physical one, does not apply. *)
Lemma negative_response_run sid code s :
  server_ok s -> u_diag_id s <> UDS_CAN_ID_PHY ->
  exists s', uds_negative_response uds_server_ptr sid code s = Some (tt, s') /\ core s' = core s /\
    u_suppress s' = 0 /\ u_events s' = u_events s ++ [EvSend (response_msg [SID_NegativeResponse; sid; code])].
Proof using.
  intros Hok Hd. unfold uds_negative_response, uds_positive_response. st_run. cbn [uds_get].
  destruct (server_ok_fields _ Hok) as (Hm & Hp & _ & Hr). rewrite Hm, Hr, Hp.
  change (UDS_TYPE_SERVER =? UDS_TYPE_SERVER) with true. cbv iota.
  rewrite (proj2 (Z.eqb_neq _ _) Hd). cbn [andb]. change (3 <=? UDS_SERVER_MAX_BYTE) with true. cbv iota.
  set (pdu := [SID_NegativeResponse; sid; code]).
  change (stack_get pdu 0 =? SID_NegativeResponse) with true. cbn [negb andb].
  destruct (send_run 3 pdu s Hok) as (ret & s' & E & Hc & Hsu & He); [lia | by vm_compute |].
  rewrite (st_bind_run _ _ _ _ _ E). by exists s'.
Qed.

(** ** The exchange of seed and key *)

(** A request as the transport layer hands it over. *)
Definition ind_msg (can : Z) (pdu : list Z) : UDS_MSG :=
  UdsScom (MSG_ID_UDS_IND :: le32 can ++ le16 (len pdu) ++ pdu).

Lemma ind_msg_request can pdu :
  can = UDS_CAN_ID_FUN \/ can = UDS_CAN_ID_PHY -> len pdu < 256 -> server_request (ind_msg can pdu) can pdu.
Proof using.
  intros Hc Hl. pose proof (len_nonneg pdu). split; [| done]. unfold ind_msg, le16, le32. cbn [app request_of].
  change (MSG_ID_UDS_IND =? MSG_ID_UDS_IND) with true. cbn [andb].
  rewrite u8_small by (unfold is_byte; lia). rewrite Z.shiftr_div_pow2, (Z.div_small _ (2 ^ 8)) by lia.
  change (u8 0) with 0. rewrite Z.mul_0_l, Z.add_0_r, Z.eqb_refl. by destruct Hc as [-> | ->].
Qed.

Lemma ind_msg_ok can pdu : Forall is_byte pdu -> msg_ok (ind_msg can pdu).
Proof using.
  intros Hp. unfold ind_msg, le32, le16. cbn [msg_ok app].
  repeat (apply List.Forall_cons; [first [apply u8_range | by vm_compute] |]). exact Hp.
Qed.

(** The fault memory. *)
Definition memory (s : UDS) : list DIAG_ITEM_INFO * list Z := (u_diag s, u_diag_buf s).

(** The step of a request the rules grant. *)
Lemma granted_step can pdu sid s :
  can = UDS_CAN_ID_FUN \/ can = UDS_CAN_ID_PHY -> len pdu < 256 -> mem_get pdu 0 = Some sid -> is_byte sid ->
  run_ok s -> verdict sid (u_session s) (u_security s) (UDS_CAN_ID_PHY =? can) = None ->
  exists s1, uds_main_step (ind_msg can pdu) s = service sid uds_server_ptr pdu (len pdu) s1 /\
    view s1 = view s /\ u_events s1 = u_events s /\ u_diag_id s1 = u_diag_id s /\ memory s1 = memory s.
Proof using.
  intros Hc Hl Hp Hb Hok Hv. rewrite (request_step _ can pdu); [| apply Hok | by apply ind_msg_request].
  assert (exists s1, pre_request s = Some (tt, s1) /\ u_diag_id s1 = u_diag_id s /\ memory s1 = memory s)
    as (s1 & E1 & Hd) by (eexists; split; [reflexivity | done]).
  rewrite (st_bind_run _ _ _ _ _ E1). pose proof (pre_request_view _ _ E1) as Hv1.
  pose proof (pre_request_events _ _ E1) as He1.
  assert (run_ok s1) as Hok1 by (by eapply run_ok_view). exists s1. split; [| done].
  injection Hv1 as Hs1 Hl1 _ _. destruct (server_ok_fields _ (ro_server _ Hok1)) as (_ & Hphy & _).
  rewrite (server_proc_run _ _ _ _ sid); [| done | done | apply Hok1 | by apply run_ok_levels].
  cbn [uds_get]. by rewrite Hphy, Hs1, Hl1, Hv.
Qed.

Lemma word_byte_be32 r :
  is_u32 r -> be32 (word_byte r 3) (word_byte r 2) (word_byte r 1) (word_byte r 0) = r.
Proof using.
  intros Hr. unfold be32, word_byte, u8, is_u32 in *.
  change (8 * 3) with 24. change (8 * 2) with 16. change (8 * 1) with 8. change (8 * 0) with 0.
  rewrite !Z.shiftl_mul_pow2, !Z.shiftr_div_pow2 by lia. change (2 ^ 0) with 1. rewrite Z.div_1_r.
  rewrite u32_small.
  - change (2 ^ 24) with (2 ^ 8 * 2 ^ 8 * 2 ^ 8). change (2 ^ 16) with (2 ^ 8 * 2 ^ 8).
    rewrite <- !Z.div_div by lia. change (2 ^ 8) with 256.
    pose proof (Z.div_mod r 256 ltac:(lia)). pose proof (Z.div_mod (r / 256) 256 ltac:(lia)).
    pose proof (Z.div_mod (r / 256 / 256) 256 ltac:(lia)).
    rewrite (Z.mod_small (r / 256 / 256 / 256)); [lia |]. split.
    + repeat apply Z.div_pos; lia.
    + rewrite !Z.div_div by lia. apply Z.div_lt_upper_bound; lia.
  - unfold is_u32. change (2 ^ 24) with 16777216. change (2 ^ 16) with 65536. change (2 ^ 8) with 256.
    pose proof (Z.mod_pos_bound (r / 16777216) 256 ltac:(lia)). pose proof (Z.mod_pos_bound (r / 65536) 256 ltac:(lia)).
    pose proof (Z.mod_pos_bound (r / 256) 256 ltac:(lia)). pose proof (Z.mod_pos_bound r 256 ltac:(lia)). lia.
Qed.

Context (clock : forall n, 900 <= env_time n).

(** The security access once the clock test and the delay are passed. *)
Lemma sa_enter (pdu : list Z) dlc p s :
  2 <= dlc -> sa_fail (u_sa s) < 3 ->
  exists s1 t, core s1 = core s /\ u_suppress s1 = u_suppress s /\ u_events s1 = u_events s /\
    UDS_SRV_SecrityAcess p pdu dlc s =
      (sub ← pdu_at pdu 1;
       let f := Z.land sub suppressPosRspMsgIndicationBitMask in
       if (f =? RequestSeed_Secrity_Level1) || (f =? RequestSeed_Secrity_Level2) then
         if negb (dlc =? 2) then nrc p pdu NRC_IncorrectMessageLengthOrInvailFormat
         else
           sa_request_seed t;;
           suppress_bit sub;;
           sid ← pos_sid pdu;
           s ← st_get;
           let seed := sa_seed (u_sa s) in
           respond p 6 [sid; sub; word_byte seed 3; word_byte seed 2; word_byte seed 1; word_byte seed 0]
       else if f =? SeedKey_Secrity_Level1 then
         if negb (dlc =? 6) then nrc p pdu NRC_IncorrectMessageLengthOrInvailFormat
         else
           ok ← sa_send_key p pdu t 2
                  (st_when (sub =? SeedKey_Secrity_Level1) (sa_unlock SecurityAccess_LEVEL1));
           st_when ok (suppress_bit sub;; sid ← pos_sid pdu; respond p 2 [sid; sub])
       else if f =? SeedKey_Secrity_Level2 then
         if negb (dlc =? 6) then nrc p pdu NRC_IncorrectMessageLengthOrInvailFormat
         else
           ok ← sa_send_key p pdu t 4
                  (st_when (sub =? SeedKey_Secrity_Level3) (sa_unlock SecurityAccess_LEVEL2));
           st_when ok (suppress_bit sub;; sid ← pos_sid pdu; respond p 2 [sid; sub])
       else nrc p pdu NRC_SubFuncationNotSupported) s1.
Proof using clock.
  intros Hd Hf. unfold UDS_SRV_SecrityAcess. rewrite (proj2 (Z.ltb_ge _ _)) by lia.
  unfold tm_get_time, env_read. st_run. rewrite (proj2 (Z.ltb_ge _ _)) by apply clock. st_run.
  unfold sa_delayed. st_run. cbn [u_sa]. rewrite (proj2 (Z.leb_gt 3 _)) by done. st_run.
  do 2 eexists. split; [| split; [| split; [| reflexivity]]]; reflexivity.
Qed.

Lemma server_ok_core s s' : core s' = core s -> server_ok s -> server_ok s'.
Proof using. unfold core, server_ok. congruence. Qed.

Lemma sa_core s s' : core s' = core s -> u_sa s' = u_sa s.
Proof using. unfold core. congruence. Qed.

(** A seed request of a locked server. *)
Lemma sa_seed_run s :
  server_ok s -> u_suppress s = 0 -> u_security s = SecurityAccess_LEVEL0 ->
  sa_flag (u_sa s) <> 1 -> sa_fail (u_sa s) < 3 ->
  exists s' seed, UDS_SRV_SecrityAcess uds_server_ptr [0x27; 0x01] 2 s = Some (tt, s') /\ is_u32 seed /\
    server_ok s' /\ u_suppress s' = 0 /\ access_state s' = access_state s /\
    u_sa s' = {| (u_sa s) with sa_seed := seed; sa_flag := 1; sa_counter := u8 (sa_counter (u_sa s) + 1) |} /\
    u_events s' = u_events s ++ [EvSend (response_msg
      [0x67; 0x01; word_byte seed 3; word_byte seed 2; word_byte seed 1; word_byte seed 0])].
Proof using clock.
  intros Hok Hsu Hl Hf Hfail.
  destruct (sa_enter [0x27; 0x01] 2 uds_server_ptr s ltac:(lia) Hfail) as (s1 & t & Hc & Hsu1 & He1 & ->).
  assert (server_ok s1) as Hok1 by (unfold server_ok, core in *; congruence).
  injection Hc as Hses Hsec Hsa _ _. unfold pdu_at, pos_sid. change (mem_get [0x27; 0x01] 1) with (Some 0x01). st_run.
  change (Z.land 1 suppressPosRspMsgIndicationBitMask) with 1.
  change (1 =? RequestSeed_Secrity_Level1) with true. cbn [orb]. cbv iota. change (2 =? 2) with true. cbn [negb].
  unfold sa_request_seed. st_run. rewrite Hsa, Hsec, Hl, (proj2 (Z.eqb_neq _ _) Hf). unfold set_sa.
  change (SecurityAccess_LEVEL0 =? SecurityAccess_LEVEL0) with true. cbv iota. st_run.
  unfold suppress_bit. change (negb (Z.land 1 suppressPosRspMsgIndicationBit =? 0)) with false. st_run.
  unfold pdu_at. change (mem_get [0x27; 1] 0) with (Some 0x27). st_run. cbn [u_sa sa_seed].
  set (seed := u32 (env_rand _)).
  match goal with |- exists s' _, respond _ 6 ?l ?x = _ /\ _ =>
    destruct (respond_run 6 l 0x67 x) as (s' & E & Hc' & Hsu' & He') end;
    [exact Hok1 | lia | by vm_compute | done | done |].
  exists s', seed. split; [exact E |]. split; [apply u32_range |].
  split; [by eapply server_ok_core |]. split; [done |]. split; [| split].
  - rewrite (access_state_core _ _ Hc'). unfold access_state. cbn [u_session u_security]. by rewrite Hses, Hsec.
  - rewrite (sa_core _ _ Hc'). reflexivity.
  - rewrite He'. cbn [u_events u_suppress]. by rewrite He1, Hsu1, Hsu.
Qed.

(** The right key. *)
Lemma sa_key_run s k0 k1 k2 k3 :
  server_ok s -> u_suppress s = 0 -> sa_flag (u_sa s) <> 0 -> sa_fail (u_sa s) < 3 -> sa_attempt (u_sa s) < 3 ->
  be32 k0 k1 k2 k3 = saGetKey (sa_seed (u_sa s)) 2 ->
  exists s', UDS_SRV_SecrityAcess uds_server_ptr [0x27; 0x02; k0; k1; k2; k3] 6 s = Some (tt, s') /\
    u_security s' = SecurityAccess_LEVEL1 /\ u_session s' = u_session s /\
    u_events s' = u_events s ++ [EvSend (response_msg [0x67; 0x02])].
Proof using clock.
  intros Hok Hsu Hf Hfail Hatt Hk. set (pdu := [0x27; 0x02; k0; k1; k2; k3]).
  destruct (sa_enter pdu 6 uds_server_ptr s ltac:(lia) Hfail) as (s1 & t & Hc & Hsu1 & He1 & ->).
  assert (server_ok s1) as Hok1 by (by eapply server_ok_core).
  pose proof (sa_core _ _ Hc) as Hsa. pose proof (access_state_core _ _ Hc) as [= Hses Hsec].
  unfold pdu_at at 1. change (mem_get pdu 1) with (Some 0x02). rewrite run_lift. cbv zeta.
  change (Z.land 2 suppressPosRspMsgIndicationBitMask) with 2.
  change (2 =? RequestSeed_Secrity_Level1) with false. change (2 =? RequestSeed_Secrity_Level2) with false.
  change (2 =? SeedKey_Secrity_Level1) with true. cbn [orb]. cbv iota. change (6 =? 6) with true. cbn [negb].
  set (s2 := {| s1 with u_sa := {| (u_sa s1) with sa_flag := 0 |} |}).
  set (s3 := {| s2 with u_security := SecurityAccess_LEVEL1; u_sa := {| (u_sa s2) with sa_fail := 0 |} |}).
  assert (sa_send_key uds_server_ptr pdu t 2 (st_when true (sa_unlock SecurityAccess_LEVEL1)) s1 = Some (true, s3)) as Ek.
  { rewrite <- Hsa in Hf, Hatt, Hk. unfold pdu. rewrite sa_send_key_run, (proj2 (Z.eqb_neq _ _) Hf), (proj2 (Z.leb_gt _ _) Hatt),
      Hk, Z.eqb_refl.
    reflexivity. }
  rewrite (st_bind_run _ _ _ _ _ Ek). rewrite run_when_true. unfold suppress_bit.
  change (negb (Z.land 2 suppressPosRspMsgIndicationBit =? 0)) with false. st_run. unfold pos_sid, pdu_at.
  change (mem_get pdu 0) with (Some 0x27). st_run.
  destruct (respond_run 2 [0x67; 0x02] 0x67 s3) as (s' & E & Hc' & Hsu' & He');
    [exact Hok1 | lia | by vm_compute | done | done |].
  exists s'. split; [exact E |]. pose proof (access_state_core _ _ Hc') as [= Hses' Hsec'].
  rewrite Hsec', Hses', He'. cbn [u_security u_session u_events u_suppress s3 s2]. by rewrite Hses, He1, Hsu1, Hsu.
Qed.

(** A tester that computes the right key is let in: in the extended session and
    with the access locked, a seed request is answered with four bytes, and the key
    of the word these bytes spell unlocks level 1. *)
Theorem uds_seed_key_unlocks s :
  run_ok s -> u_session s = SESSION_TYPE_EXTENDED -> u_security s = SecurityAccess_LEVEL0 ->
  u_suppress s = 0 -> sa_flag (u_sa s) = 0 -> sa_fail (u_sa s) < 3 -> sa_attempt (u_sa s) < 3 ->
  exists s1 b3 b2 b1 b0,
    uds_main_step (ind_msg UDS_CAN_ID_PHY [0x27; 0x01]) s = Some (tt, s1) /\
    u_events s1 = u_events s ++ [EvSend (response_msg [0x67; 0x01; b3; b2; b1; b0])] /\
    forall k3 k2 k1 k0, be32 k3 k2 k1 k0 = saGetKey (be32 b3 b2 b1 b0) 2 ->
      exists s2, uds_main_step (ind_msg UDS_CAN_ID_PHY [0x27; 0x02; k3; k2; k1; k0]) s1 = Some (tt, s2) /\
        u_security s2 = SecurityAccess_LEVEL1 /\ u_session s2 = SESSION_TYPE_EXTENDED /\
        u_events s2 = u_events s1 ++ [EvSend (response_msg [0x67; 0x02])].
Proof using clock.
  intros Hok Hse Hl Hsu Hf Hfail Hatt.
  destruct (granted_step UDS_CAN_ID_PHY [0x27; 0x01] 0x27 s) as (t1 & E1 & Hv1 & He1 & _);
    [by right | by vm_compute | done | done | done | by rewrite Hse, Hl |].
  assert (server_ok t1) as Hok1 by (eapply view_ok; [apply Hok | done]).
  injection Hv1 as Hses1 Hsec1 Hsa1 Hsu1 _.
  destruct (sa_seed_run t1) as (s1 & seed & Es & Hseed & Hoks & Hsus & Has & Hsas & Hes);
    [done | congruence | congruence | rewrite Hsa1, Hf; done | by rewrite Hsa1 |].
  injection Has as Hses Hsec. rewrite Hsa1 in Hsas.
  exists s1, (word_byte seed 3), (word_byte seed 2), (word_byte seed 1), (word_byte seed 0).
  split; [by rewrite E1 |]. split; [by rewrite Hes, He1 |].
  intros k3 k2 k1 k0. rewrite word_byte_be32 by done. intros Hk.
  assert (run_ok s1) as Hr1.
  { split; [done | | |]; rewrite ?Hses, ?Hsec, ?Hses1, ?Hsec1; apply Hok. }
  destruct (granted_step UDS_CAN_ID_PHY [0x27; 0x02; k3; k2; k1; k0] 0x27 s1) as (t2 & E2 & Hv2 & He2 & _);
    [by right | by vm_compute | done | done | done | rewrite Hses, Hsec, Hses1, Hsec1, Hse, Hl; done |].
  assert (server_ok t2) as Hok2 by (by eapply view_ok). injection Hv2 as Hses2 Hsec2 Hsa2 Hsu2 _.
  destruct (sa_key_run t2 k3 k2 k1 k0) as (s2 & Ek & Hl2 & Hs2 & Hev2); try (rewrite ?Hsa2, ?Hsas; done).
  - congruence.
  - exists s2. split; [by rewrite E2 |]. split; [done |]. split; [congruence |]. by rewrite Hev2, He2.
Qed.

(** A wrong key. *)
Lemma sa_wrong_key_run s k0 k1 k2 k3 :
  server_ok s -> u_diag_id s <> UDS_CAN_ID_PHY -> sa_flag (u_sa s) <> 0 ->
  0 <= sa_fail (u_sa s) < 3 -> 0 <= sa_attempt (u_sa s) < 3 ->
  be32 k0 k1 k2 k3 <> saGetKey (sa_seed (u_sa s)) 2 ->
  exists s', UDS_SRV_SecrityAcess uds_server_ptr [0x27; 0x02; k0; k1; k2; k3] 6 s = Some (tt, s') /\
    access_state s' = access_state s /\ sa_attempt (u_sa s') = sa_attempt (u_sa s) + 1 /\
    sa_fail (u_sa s') = sa_fail (u_sa s) + 1 /\ sa_flag (u_sa s') = sa_flag (u_sa s) /\
    u_events s' = u_events s ++ [EvSend (response_msg [SID_NegativeResponse; 0x27; NRC_InvalidKey])].
Proof using clock.
  intros Hok Hdi Hf Hfail Hatt Hk. set (pdu := [0x27; 0x02; k0; k1; k2; k3]).
  destruct (sa_enter pdu 6 uds_server_ptr s ltac:(lia) ltac:(lia)) as (s1 & t & Hc & Hsu1 & He1 & ->).
  assert (server_ok s1) as Hok1 by (by eapply server_ok_core).
  assert (u_diag_id s1 <> UDS_CAN_ID_PHY) as Hdi1 by (unfold core in Hc; congruence).
  pose proof (sa_core _ _ Hc) as Hsa. pose proof (access_state_core _ _ Hc) as Has. rewrite <- Hsa in *.
  unfold pdu_at at 1. change (mem_get pdu 1) with (Some 0x02). rewrite run_lift. cbv zeta.
  change (Z.land 2 suppressPosRspMsgIndicationBitMask) with 2.
  change (2 =? RequestSeed_Secrity_Level1) with false. change (2 =? RequestSeed_Secrity_Level2) with false.
  change (2 =? SeedKey_Secrity_Level1) with true. cbn [orb]. cbv iota. change (6 =? 6) with true. cbn [negb].
  destruct (negative_response_run 0x27 NRC_InvalidKey s1 Hok1 Hdi1) as (s2 & En & Hc2 & Hsu2 & He2).
  assert (sa_send_key uds_server_ptr pdu t 2 (st_when true (sa_unlock SecurityAccess_LEVEL1)) s1 =
    (nrc uds_server_ptr pdu NRC_InvalidKey;; sa_count_failure t;;
     st_mod (fun s => {| s with u_sa := {| (u_sa s) with sa_attempt := u32 (sa_attempt (u_sa s) + 1) |} |});;
     mret false) s1) as Ek.
  { unfold pdu. rewrite sa_send_key_run, (proj2 (Z.eqb_neq _ _) Hf), (proj2 (Z.leb_gt _ _)) by lia.
    by rewrite (proj2 (Z.eqb_neq _ _) Hk). }
  assert (nrc uds_server_ptr pdu NRC_InvalidKey s1 = Some (tt, s2)) as En' by exact En.
  rewrite (st_bind_run _ _ _ _ _ En') in Ek. unfold sa_count_failure in Ek. rewrite !run_mod in Ek.
  change (2 =? SeedKey_Secrity_Level1) with true. rewrite (st_bind_run _ _ _ _ _ Ek). rewrite run_when_false.
  eexists. split; [reflexivity |]. pose proof (sa_core _ _ Hc2) as Hsa2.
  pose proof (access_state_core _ _ Hc2) as [= Ha1 Ha2].
  split; [rewrite <- Has; unfold access_state; cbn [u_session u_security]; by rewrite Ha1, Ha2 |].
  cbn [u_sa u_events sa_attempt sa_fail sa_flag]. rewrite Hsa2, He2, He1.
  by rewrite !u32_small by (unfold is_u32; lia).
Qed.

(** A wrong key is refused and counted; the level does not change. *)
Theorem uds_wrong_key_counted s k0 k1 k2 k3 :
  run_ok s -> u_session s = SESSION_TYPE_EXTENDED -> u_diag_id s <> UDS_CAN_ID_PHY ->
  sa_flag (u_sa s) <> 0 -> 0 <= sa_fail (u_sa s) < 3 -> 0 <= sa_attempt (u_sa s) < 3 ->
  be32 k0 k1 k2 k3 <> saGetKey (sa_seed (u_sa s)) 2 ->
  exists s', uds_main_step (ind_msg UDS_CAN_ID_PHY [0x27; 0x02; k0; k1; k2; k3]) s = Some (tt, s') /\
    access_state s' = access_state s /\ sa_attempt (u_sa s') = sa_attempt (u_sa s) + 1 /\
    sa_fail (u_sa s') = sa_fail (u_sa s) + 1 /\
    u_events s' = u_events s ++ [EvSend (response_msg [SID_NegativeResponse; 0x27; NRC_InvalidKey])].
Proof using clock.
  intros Hok Hse Hdi Hf Hfail Hatt Hk.
  destruct (granted_step UDS_CAN_ID_PHY [0x27; 0x02; k0; k1; k2; k3] 0x27 s) as (t & E & Hv & He & Hd & _);
    [by right | by vm_compute | done | done | done | |].
  { rewrite Hse. destruct (ro_security _ Hok) as [-> | ->]; done. }
  assert (server_ok t) as Hok1 by (eapply view_ok; [apply Hok | done]).
  injection Hv as Hs1 Hl1 Hsa _ _. rewrite <- Hsa in *.
  destruct (sa_wrong_key_run t k0 k1 k2 k3) as (s' & Es & Ha & Hat & Hfa & _ & Hev); try done; [congruence |].
  exists s'. rewrite E. split; [done |]. split; [by rewrite Ha; unfold access_state; rewrite Hs1, Hl1 |].
  by rewrite Hev, He.
Qed.

End env.

Section env2.
Context `{UdsEnv}.

(** ** Suppressed responses *)

(** The tester present service in every session and for both kinds of addressing:
    the response is sent unless its suppression is requested, and nothing else
    changes; the suppression does not outlive the request. *)
Theorem uds_tester_present_response can sub s :
  can = UDS_CAN_ID_FUN \/ can = UDS_CAN_ID_PHY -> run_ok s -> u_suppress s = 0 -> sub = 0 \/ sub = 0x80 ->
  exists s', uds_main_step (ind_msg can [0x3E; sub]) s = Some (tt, s') /\
    access_state s' = access_state s /\ u_suppress s' = 0 /\
    u_events s' = u_events s ++ (if sub =? 0 then [EvSend (response_msg [0x7E; 0])] else []).
Proof using.
  intros Hc Hok Hsu Hsub.
  destruct (granted_step can [0x3E; sub] 0x3E s) as (t & E & Hv & He & _);
    [done | by vm_compute | done | done | done | |].
  { destruct (ro_security _ Hok) as [-> | ->]; pose proof (ro_session _ Hok) as Hs;
      apply list_elem_of_In in Hs; cbn in Hs; destruct Hs as [<- | [<- | [<- | []]]]; by destruct (_ =? can). }
  assert (server_ok t) as Hok1 by (eapply view_ok; [apply Hok | done]).
  injection Hv as Hs1 Hl1 _ Hsu1 _. rewrite E.
  change (service 0x3E uds_server_ptr [0x3E; sub] (len [0x3E; sub]) t) with
    (UDS_SRV_TesterPresent uds_server_ptr [0x3E; sub] 2 t).
  unfold UDS_SRV_TesterPresent. change (negb (2 =? 2)) with false. cbv iota. unfold short_response, pos_sid, pdu_at.
  change (mem_get [0x3E; sub] 1) with (Some sub). change (mem_get [0x3E; sub] 0) with (Some 0x3E). st_run.
  destruct Hsub as [-> | ->].
  - change (Z.land 0 suppressPosRspMsgIndicationBitMask =? 0) with true. st_run.
    unfold suppress_bit. change (negb (Z.land 0 suppressPosRspMsgIndicationBit =? 0)) with false. st_run.
    destruct (respond_run 2 [0x7E; 0] 0x7E t) as (s' & Er & Hcr & Hsr & Her);
      [done | lia | by vm_compute | done | done |].
    exists s'. split; [exact Er |]. rewrite (access_state_core _ _ Hcr), Her, Hsu1, Hsu, He.
    unfold access_state. by rewrite Hs1, Hl1.
  - change (Z.land 0x80 suppressPosRspMsgIndicationBitMask =? 0) with true. st_run.
    unfold suppress_bit. change (negb (Z.land 0x80 suppressPosRspMsgIndicationBit =? 0)) with true. unfold set_suppress. st_run.
    match goal with |- exists s', respond _ 2 _ ?x = _ /\ _ =>
      destruct (respond_run 2 [0x7E; 0x80] 0x7E x) as (s' & Er & Hcr & Hsr & Her) end;
      [done | lia | by vm_compute | done | done |].
    exists s'. split; [exact Er |]. rewrite (access_state_core _ _ Hcr), Her, <- He.
    unfold access_state. cbn. by rewrite Hs1, Hl1, app_nil_r.
Qed.

(** ** Long requests *)

(** A request of 256 bytes or more never reaches a handler: the comparison of its
    length multiplies the high byte by 255 instead of 256. *)
Theorem uds_long_request_dropped can pdu s :
  256 <= len pdu < 65536 -> uds_main_step (ind_msg can pdu) s = Some (tt, s).
Proof using.
  intros Hl. unfold ind_msg, le16, le32. cbn [app uds_main_step uds_proxy].
  change (MSG_ID_UDS_IND =? MSG_ID_UDS_S_ACK) with false. change (MSG_ID_UDS_IND =? MSG_ID_UDS_C_ACK) with false.
  change (MSG_ID_UDS_IND =? MSG_ID_UDS_CFM) with false. change (MSG_ID_UDS_IND =? MSG_ID_UDS_IND) with true.
  cbv iota. rewrite !len_cons. rewrite (proj2 (Z.ltb_ge _ _)) by lia.
  change (mem_get _ 4) with (Some (u8 (len pdu))). change (mem_get _ 5) with (Some (u8 (Z.shiftr (len pdu) 8))).
  st_run. rewrite (proj2 (Z.eqb_neq _ _)); [done |].
  unfold u8. rewrite Z.shiftr_div_pow2 by lia. change (2 ^ 8) with 256.
  rewrite (Z.mod_small (len pdu / 256)) by (split; [apply Z.div_pos; lia | apply Z.div_lt_upper_bound; lia]).
  pose proof (Z.div_mod (len pdu) 256 ltac:(lia)). assert (1 <= len pdu / 256) by (apply Z.div_le_lower_bound; lia).
  lia.
Qed.

(** ** The polling loop of the key learning *)

Lemma keeps_now_negative p sid code : keeps u_now (uds_negative_response p sid code).
Proof using.
  unfold uds_negative_response, uds_positive_response, uds_data_request, set_suppress, emit, uds_set_timer,
    uds_timer_settime, timer_mod, uds_mod.
  steps_tac; steps_apply @steps_mod; by intros s; destruct p.
Qed.

Lemma negative_response_total sid code s :
  server_ok s -> exists s', uds_negative_response uds_server_ptr sid code s = Some (tt, s') /\
    server_ok s' /\ u_now s' = u_now s.
Proof using.
  intros Hok. assert (exists s', uds_negative_response uds_server_ptr sid code s = Some (tt, s')) as [s' E].
  { destruct (Z.eq_dec (u_diag_id s) UDS_CAN_ID_PHY) as [Hd|Hd].
    - unfold uds_negative_response, uds_positive_response. st_run. cbn [uds_get].
      destruct (server_ok_fields _ Hok) as (Hm & Hp & _ & Hr). rewrite Hm, Hr, Hp, Hd.
      change (UDS_TYPE_SERVER =? UDS_TYPE_SERVER) with true. cbv iota.
      change (3 <=? UDS_SERVER_MAX_BYTE) with true. cbv iota. set (pdu := [SID_NegativeResponse; sid; code]).
      change (stack_get pdu 0 =? SID_NegativeResponse) with true. cbn [negb andb].
      case_match; [by eexists |].
      destruct (send_run 3 pdu s Hok) as (ret & s' & E & _); [lia | by vm_compute |].
      rewrite (st_bind_run _ _ _ _ _ E). by exists s'.
    - destruct (negative_response_run sid code s Hok Hd) as (s' & E & _). by exists s'. }
  exists s'. split; [done |]. split; [| by apply keeps_now_negative in E].
  eapply server_ok_core; [| exact Hok].
  assert (HandlerRel (same core) uds_server_ptr sid) as HR by (by apply same_core_rel).
  by apply (hr_nrc (R := same core)) in E.
Qed.

(** C40: the loop ends: if the clock is more than five seconds past the start at the
    [k]-th of its iterations, [k + 1] units of fuel are enough, whatever the learning
    flag does. *)
Theorem tukey_loop_terminates (pdu : list Z) sid t0 k s :
  server_ok s -> mem_get pdu 0 = Some sid -> 5000 < u64 (env_time (u_now s + 3 * k)%nat - t0) ->
  exists s', tukey_loop (S k) uds_server_ptr pdu t0 s = Some (tt, s') /\ server_ok s'.
Proof using.
  intros Hok Hp. revert s Hok. induction k as [|k IH]; intros s Hok Ht; cbn [tukey_loop]; unfold tm_get_time, env_read; st_run.
  - rewrite Nat.mul_0_r, Nat.add_0_r in Ht. rewrite (proj2 (Z.ltb_lt _ _) Ht). by eexists.
  - destruct (5000 <? u64 (env_time (u_now s) - t0)); [by eexists |]. st_run.
    destruct (env_tukey _ =? 1); [by eexists |]. st_run. cbn [u_now].
    set (s3 := {| s with u_now := S (S (S (u_now s))) |}).
    destruct (_ mod 20 =? 0); [rewrite run_when_true | rewrite run_when_false, run_ret].
    + destruct (negative_response_total sid NRC_RequestCorrectlyReceivedResponsePending s3) as (s4 & E & Hok4 & Hn); [done |].
      assert (nrc uds_server_ptr pdu NRC_RequestCorrectlyReceivedResponsePending s3 = Some (tt, s4)) as En
        by (unfold nrc, pdu_at; by rewrite Hp).
      rewrite (st_bind_run _ _ _ _ _ En). apply IH; [done |]. rewrite Hn. cbn [u_now s3].
      by replace (S (S (S (u_now s))) + 3 * k)%nat with (u_now s + 3 * S k)%nat by lia.
    + apply IH; [done |]. cbn [u_now s3].
      by replace (S (S (S (u_now s))) + 3 * k)%nat with (u_now s + 3 * S k)%nat by lia.
Qed.

End env2.

(** ** Witnesses *)

(** An environment: a clock that advances, no faults, the serial transport. *)
#[local] Instance demo_env : UdsEnv := {|
  env_time := fun n => 1000 + 3000 * Z.of_nat n;
  env_tukey := fun _ => 0;
  env_rand := fun seed => seed + 12345;
  env_stack_byte := 0;
  env_fault := fun _ _ => 0;
  env_did_get := fun _ _ n => (0, replicate (Z.to_nat n) 0);
  env_did_set := fun _ _ _ => 0;
  env_tl_send := scom_tl_uds_send;
  env_fuel := 10
|}.

Lemma demo_clock n : 900 <= env_time n.
Proof. cbn [env_time demo_env]. lia. Qed.

Definition uds_t_zero : UDS_T :=
  {| uds_mode := 0; uds_canport := 0; uds_sid := 0; uds_nrc := 0; uds_can_id_phy := 0; uds_can_id_fun := 0;
     uds_can_id_req := 0; uds_can_id_res := 0; uds_timer := fun _ => timer_zero |}.

(** The static variables at the start of the program. *)
Definition uds_zero : UDS :=
  {| u_server := uds_t_zero; u_client := uds_t_zero; u_session := SESSION_TYPE_DEFAULT;
     u_security := SecurityAccess_LEVEL0; u_suppress := 0; u_diag_id := 0; u_client_cb := false;
     u_hold_mode := 0; u_dtc_switch := 1; u_tx_flag := 1; u_rx_flag := 1;
     u_sa := {| sa_flag := 0; sa_counter := 0; sa_fail := 0; sa_time := 0; sa_seed := 0; sa_attempt := 0 |};
     u_erase_flag := 0;
     u_transfer := {| tr_prog_addr := 0; tr_prog_size := 0; tr_erase_addr := 0; tr_erase_size := 0;
                      tr_block := 0; tr_status := 0; tr_data := []; tr_datasize := 0 |};
     u_diag := diag_table_init; u_diag_buf := []; u_dtc_index := []; u_rdbi_buf := replicate 2000 0;
     u_now := 0; u_events := [] |}.

(** The initialised stack. *)
Definition uds_boot : UDS := match uds_proxy_init uds_zero with Some (_, s) => s | None => uds_zero end.

Lemma uds_boot_ok : run_ok uds_boot.
Proof. split; try done; [apply list_elem_of_In; cbn; auto | by left]. Qed.

Definition uds_extended (sa : SA_STATE) : UDS :=
  {| uds_boot with u_session := SESSION_TYPE_EXTENDED; u_sa := sa |}.

Lemma uds_extended_ok sa : run_ok (uds_extended sa).
Proof. split; try done; [apply list_elem_of_In; cbn; auto | by left]. Qed.

Definition sa_fresh : SA_STATE :=
  {| sa_flag := 0; sa_counter := 0; sa_fail := 0; sa_time := 0; sa_seed := 0; sa_attempt := 0 |}.

(** Evaluating that a step succeeds, without its state. *)
Lemma succeeds {A} (o : option (unit * A)) :
  match o with Some _ => true | None => false end = true -> exists a, o = Some (tt, a).
Proof. destruct o as [[[] a]|]; [by exists a | done]. Qed.

Lemma uds_answers_request_witness :
  exists s', uds_main_step (ind_msg UDS_CAN_ID_PHY [0x10; 0x03]) uds_boot = Some (tt, s') /\
    exists sid rest l, [0x10; 0x03] = sid :: rest /\ u_events s' = u_events uds_boot ++ l /\ Forall (reply_event sid) l.
Proof.
  destruct (succeeds (uds_main_step (ind_msg UDS_CAN_ID_PHY [0x10; 0x03]) uds_boot)) as [s' E]; [by vm_compute |].
  exists s'. split; [exact E |].
  eapply (uds_answers_request (ind_msg UDS_CAN_ID_PHY [0x10; 0x03]) UDS_CAN_ID_PHY); [exact uds_boot_ok | | | exact E].
  - apply ind_msg_ok. repeat (apply List.Forall_cons; [by vm_compute |]). apply List.Forall_nil.
  - by apply ind_msg_request; [right |].
Defined.

Lemma uds_request_restarts_session_witness :
  exists s', uds_main_step (ind_msg UDS_CAN_ID_PHY [0x3E; 0x00]) uds_boot = Some (tt, s') /\
    uds_main_step (UdsTimeout S3SERVER 0) s' = Some (tt, s').
Proof.
  destruct (succeeds (uds_main_step (ind_msg UDS_CAN_ID_PHY [0x3E; 0x00]) uds_boot)) as [s' E]; [by vm_compute |].
  exists s'. split; [exact E |].
  eapply (uds_request_restarts_session (ind_msg UDS_CAN_ID_PHY [0x3E; 0x00]) UDS_CAN_ID_PHY [0x3E; 0x00] uds_boot);
    [exact uds_boot_ok | | | exact E].
  - apply ind_msg_ok. repeat (apply List.Forall_cons; [by vm_compute |]). apply List.Forall_nil.
  - by apply ind_msg_request; [right |].
Defined.

Lemma uds_lockout_permanent_witness :
  let s := uds_extended {| sa_fresh with sa_attempt := 3 |} in u_security s = SecurityAccess_LEVEL0 /\ locked s.
Proof.
  intros s. destruct (uds_lockout_permanent s s (uds_extended_ok _)) as [H1 H2]; [done | done | apply uds_run_refl |].
  by split.
Defined.

Lemma uds_seed_key_unlocks_witness :
  let s := uds_extended sa_fresh in
  exists s1 b3 b2 b1 b0,
    uds_main_step (ind_msg UDS_CAN_ID_PHY [0x27; 0x01]) s = Some (tt, s1) /\
    u_events s1 = u_events s ++ [EvSend (response_msg [0x67; 0x01; b3; b2; b1; b0])].
Proof.
  intros s.
  destruct (uds_seed_key_unlocks demo_clock s (uds_extended_ok _) eq_refl eq_refl eq_refl eq_refl eq_refl eq_refl)
    as (s1 & b3 & b2 & b1 & b0 & E & He & _).
  exists s1, b3, b2, b1, b0. split; [exact E | exact He].
Defined.

Lemma uds_wrong_key_counted_witness :
  let s := uds_extended {| sa_fresh with sa_flag := 1; sa_seed := 77 |} in
  exists s', uds_main_step (ind_msg UDS_CAN_ID_PHY [0x27; 0x02; 1; 2; 3; 4]) s = Some (tt, s') /\
    sa_attempt (u_sa s') = 1.
Proof.
  intros s. destruct (uds_wrong_key_counted demo_clock s 1 2 3 4 (uds_extended_ok _) eq_refl)
    as (s' & E & _ & Ha & _); [done | done | by split | by split | by vm_compute |].
  exists s'. split; [exact E | exact Ha].
Defined.

Lemma uds_tester_present_response_witness :
  exists s', uds_main_step (ind_msg UDS_CAN_ID_FUN [0x3E; 0x80]) uds_boot = Some (tt, s') /\
    u_events s' = u_events uds_boot.
Proof.
  destruct (uds_tester_present_response UDS_CAN_ID_FUN 0x80 uds_boot) as (s' & E & _ & _ & He);
    [by left | exact uds_boot_ok | done | by right |].
  exists s'. split; [exact E |]. by rewrite He, app_nil_r.
Defined.

Lemma uds_long_request_dropped_witness :
  uds_main_step (ind_msg UDS_CAN_ID_PHY (0x36 :: replicate 299 0)) uds_boot = Some (tt, uds_boot).
Proof. apply uds_long_request_dropped. vm_compute. split; congruence. Defined.

Lemma tukey_loop_terminates_witness :
  exists s', tukey_loop 2 uds_server_ptr [0x31; 0x01; 0xA4; 0x00] 1000 uds_boot = Some (tt, s') /\ server_ok s'.
Proof. apply (tukey_loop_terminates _ 0x31 1000 1); done. Defined.

Lemma uds_server_proc_access_witness :
  uds_server_proc uds_server_ptr UDS_CAN_ID_FUN [0x27; 0x01] 2 uds_boot =
    uds_negative_response uds_server_ptr 0x27 NRC_ConditionsNotCorrect uds_boot /\
  uds_server_proc uds_server_ptr UDS_CAN_ID_PHY [0x27; 0x01] 2 uds_boot =
    uds_negative_response uds_server_ptr 0x27 NRC_ServiceNotSupportedInActiveSession uds_boot.
Proof.
  assert (u_session uds_boot ∈ all_sessions) as Hs by apply uds_boot_ok.
  assert (u_security uds_boot ∈ all_levels) as Hl by apply run_ok_levels, uds_boot_ok.
  assert (is_byte 0x27) as Hb by (by vm_compute).
  pose proof (uds_server_proc_access uds_server_ptr UDS_CAN_ID_FUN [0x27; 0x01] 2 0x27 uds_boot eq_refl Hb Hs Hl) as E1.
  pose proof (uds_server_proc_access uds_server_ptr UDS_CAN_ID_PHY [0x27; 0x01] 2 0x27 uds_boot eq_refl Hb Hs Hl) as E2.
  change (verdict _ _ _ _) with (Some NRC_ConditionsNotCorrect) in E1.
  change (verdict _ _ _ _) with (Some NRC_ServiceNotSupportedInActiveSession) in E2.
  split; [exact E1 | exact E2].
Defined.

Lemma uds_access_refines_witness :
  exists s', uds_main_step (ind_msg UDS_CAN_ID_PHY [0x10; 0x03]) uds_boot = Some (tt, s') /\
    access_step uds_boot (ind_msg UDS_CAN_ID_PHY [0x10; 0x03]) (access_state s').
Proof.
  destruct (succeeds (uds_main_step (ind_msg UDS_CAN_ID_PHY [0x10; 0x03]) uds_boot)) as [s' E]; [by vm_compute |].
  exists s'. split; [exact E |]. apply (uds_access_refines _ uds_boot s' uds_boot_ok); [| exact E].
  apply ind_msg_ok. repeat (apply List.Forall_cons; [by vm_compute |]). apply List.Forall_nil.
Defined.

Lemma uds_default_session_locked_witness :
  exists s', uds_run uds_boot s' /\ u_security s' <> SecurityAccess_LEVEL2.
Proof.
  destruct (succeeds (uds_main_step (ind_msg UDS_CAN_ID_PHY [0x10; 0x03]) uds_boot)) as [s' E]; [by vm_compute |].
  exists s'. assert (uds_run uds_boot s') as Hr.
  { eapply uds_run_step; [apply uds_run_refl | | exact E].
    apply ind_msg_ok. repeat (apply List.Forall_cons; [by vm_compute |]). apply List.Forall_nil. }
  split; [exact Hr |]. by apply (uds_default_session_locked uds_boot s' uds_boot_ok).
Defined.
