(* ===== verification/UdsDtc.v ===== *)
(** * UDS trouble codes

    The fault memory of [UdsDiag]: its layout after the initialisation, the fault
    counters and confirmation, saving, clearing, and the answers of the service that
    reads trouble codes. *)

From S2P Require Import Prelude UdsBase UdsDiag UdsServices UdsServer UdsAccess UdsProps.

(** ** Layout *)

(** A row that [uds_diag_init] has placed: its region starts with the confirmed
    flag. *)
Definition placed (r : DIAG_ITEM_INFO) : Prop :=
  di_confirmed r = Some (di_offset r) /\ 4 <= di_len r.

(** Rows one behind the other from [off] on. *)
Fixpoint laid_out (off : Z) (rows : list DIAG_ITEM_INFO) : Prop :=
  match rows with
  | [] => True
  | r :: t => di_offset r = off /\ placed r /\ laid_out (off + di_len r) t
  end.

Fixpoint rows_end (off : Z) (rows : list DIAG_ITEM_INFO) : Z :=
  match rows with [] => off | r :: t => rows_end (off + di_len r) t end.

Lemma freeze_size_nonneg l n : freeze_size l = Some n -> 0 <= n.
Proof.
  revert n. induction l as [|d l IH]; intros n; cbn [freeze_size]; [by intros [= <-] |].
  destruct (d =? DID_INVALID); [by intros [= <-] |].
  destruct (find_did d) as [r|] eqn:Er; [| done]. intros E. apply bind_Some in E as (k & Ek & [= <-]).
  apply IH in Ek. pose proof (find_did_len _ _ Er). lia.
Qed.

Lemma diag_init_rows_laid_out rows : forall off rows',
  diag_init_rows rows off = (rows', true) ->
  laid_out off rows' /\ length rows' = length rows /\
  (forall i r', rows' !! i = Some r' -> exists r, rows !! i = Some r /\
     di_dtc r' = di_dtc r /\ di_thsd r' = di_thsd r /\ di_counter r' = di_counter r /\ di_freeze r' = di_freeze r).
Proof.
  induction rows as [|r rows IH]; intros off rows'; cbn [diag_init_rows].
  { intros [= <-]. split; [done |]. split; [done |]. intros i r'. by rewrite lookup_nil. }
  destruct (freeze_size (di_freeze r)) as [size|] eqn:Es; [| done].
  destruct (diag_init_rows rows _) as [t' ok] eqn:Et. intros [= <- ->].
  destruct (IH _ _ Et) as (Hl & Hn & Hr). apply freeze_size_nonneg in Es.
  split; [| split; [by cbn; rewrite Hn |]].
  - cbn [laid_out di_offset di_len]. unfold placed. cbn. split; [done |]. split; [split; [done | lia] | done].
  - intros [|i] r'; [intros [= <-]; by exists r | apply Hr].
Qed.

Lemma laid_out_lookup rows : forall off i r,
  laid_out off rows -> rows !! i = Some r ->
  placed r /\ off <= di_offset r /\ di_offset r + di_len r <= rows_end off rows.
Proof.
  induction rows as [|x rows IH]; intros off i r; [done |]. cbn [laid_out rows_end].
  intros (Ho & Hp & Hl) Hi. assert (forall k, k <= rows_end k rows) as Hend.
  { clear -Hl. revert Hl. generalize (off + di_len x). induction rows as [|y rows IH]; intros k Hl j; cbn; [lia |].
    destruct Hl as (_ & [_ Hy] & Hl). specialize (IH _ Hl (j + di_len y)). lia. }
  destruct i as [|i]; cbn in Hi.
  - injection Hi as ->. specialize (Hend (off + di_len r)). split; [done |]. lia.
  - destruct (IH _ _ _ Hl Hi) as (Hr & H1 & H2). destruct Hp as [_ Hp]. split; [done |]. lia.
Qed.

Lemma laid_out_disjoint rows : forall off i j r1 r2,
  laid_out off rows -> rows !! i = Some r1 -> rows !! j = Some r2 -> (i < j)%nat ->
  di_offset r1 + di_len r1 <= di_offset r2.
Proof.
  induction rows as [|x rows IH]; intros off i j r1 r2; [done |]. cbn [laid_out].
  intros (Ho & Hp & Hl) Hi Hj Hij. destruct j as [|j]; [lia |]. cbn in Hj.
  destruct i as [|i]; cbn in Hi.
  - injection Hi as ->. destruct (laid_out_lookup _ _ _ _ Hl Hj) as (_ & H1 & _). lia.
  - eapply IH; [done | done | done | lia].
Qed.

(** ** The state of the fault memory *)

(** The table is laid out in the buffer, the counters are within their thresholds
    and no row has a freeze frame. *)
Record diag_ok (s : UDS) : Prop := {
  do_rows : length (u_diag s) = Z.to_nat DIAG_ITEM_NUM;
  do_layout : laid_out 0 (u_diag s);
  do_buf : len (u_diag_buf s) = DIAG_ITEM_BUF_LEN;
  do_end : rows_end 0 (u_diag s) <= DIAG_ITEM_BUF_LEN;
  do_bytes : Forall is_byte (u_diag_buf s);
  do_counter i r : u_diag s !! i = Some r -> 0 <= di_counter r <= di_thsd r /\ di_thsd r < 2 ^ 32 - 1;
  do_freeze i r : u_diag s !! i = Some r -> di_freeze r !! 0%nat = Some DID_INVALID
}.

Section env.
Context `{UdsEnv}.

Lemma diag_init_step s :
  u_diag s = diag_table_init ->
  exists s', uds_diag_init None s = Some (0, s') /\ diag_ok s' /\
    (forall i j r1 r2, u_diag s' !! i = Some r1 -> u_diag s' !! j = Some r2 -> (i < j)%nat ->
       di_offset r1 + di_len r1 <= di_offset r2) /\
    u_diag_buf s' = replicate 1024 0.
Proof using.
  intros Hd. unfold uds_diag_init, set_diag_buf. st_run. cbn [u_diag]. rewrite Hd.
  destruct (diag_init_rows diag_table_init 0) as [rows ok] eqn:E.
  assert (ok = true) as -> by (vm_compute in E; congruence).
  destruct (diag_init_rows_laid_out _ _ _ E) as (Hl & Hn & Hr). st_run. cbn [negb].
  assert (rows_end 0 rows = 68) as He by (vm_compute in E; injection E as <-; reflexivity).
  assert (exists r, mem_get rows (len rows - 1) = Some r) as [r Hlast].
  { apply mem_get_is_Some. unfold len. rewrite Hn. cbn. lia. }
  rewrite Hlast. st_run. apply mem_get_Some in Hlast as [_ Hlast].
  destruct (laid_out_lookup _ _ _ _ Hl Hlast) as (_ & _ & Hb). rewrite He in Hb.
  rewrite (proj2 (Z.ltb_ge _ _)) by (unfold DIAG_ITEM_BUF_LEN; lia). st_run.
  eexists. split; [reflexivity |]. split; [| split].
  - split; cbn [u_diag u_diag_buf].
    + rewrite Hn. done.
    + done.
    + by rewrite len_replicate.
    + rewrite He. done.
    + apply Forall_replicate. by vm_compute.
    + intros i x Hx. destruct (Hr _ _ Hx) as (x0 & Hx0 & _ & -> & -> & _).
      revert Hx0. unfold diag_table_init.
      do 17 (destruct i as [|i]; [intros [= <-]; by vm_compute |]). done.
    + intros i x Hx. destruct (Hr _ _ Hx) as (x0 & Hx0 & _ & _ & _ & ->).
      revert Hx0. unfold diag_table_init.
      do 17 (destruct i as [|i]; [intros [= <-]; by vm_compute |]). done.
  - cbn [u_diag]. intros i j r1 r2. by apply laid_out_disjoint with (off := 0).
  - done.
Qed.

(** The initialisation lays the rows of the table out one behind the other in the
    buffer, without overlap and within its 1024 bytes, and starts with no confirmed
    trouble code when nothing was saved. *)
Theorem uds_diag_init_layout s :
  u_diag s = diag_table_init ->
  exists s', uds_diag_init None s = Some (0, s') /\ diag_ok s' /\
    (forall i j r1 r2, u_diag s' !! i = Some r1 -> u_diag s' !! j = Some r2 -> (i < j)%nat ->
       di_offset r1 + di_len r1 <= di_offset r2) /\
    u_diag_buf s' = replicate 1024 0.
Proof using. apply diag_init_step. Qed.

(** ** One row *)

Definition row_conf (s : UDS) (r : DIAG_ITEM_INFO) : Z := default 0 (get_le32 (u_diag_buf s) (di_offset r)).

(** What counts of a row: its fault counter and if its code is confirmed. *)
Definition row_status (s : UDS) (r : DIAG_ITEM_INFO) : Z * bool := (di_counter r, negb (row_conf s r =? 0)).

Lemma get_le32_total (b : list Z) off :
  0 <= off -> off + 4 <= len b -> exists v, get_le32 b off = Some v.
Proof using.
  intros Ho Hl. unfold get_le32, get_le16.
  destruct (mem_get_is_Some b off) as [b0 ->]; [lia |]. destruct (mem_get_is_Some b (off + 1)) as [b1 ->]; [lia |].
  destruct (mem_get_is_Some b (off + 2)) as [b2 ->]; [lia |].
  destruct (mem_get_is_Some b (off + 2 + 1)) as [b3 ->]; [lia |]. by eexists.
Qed.

Lemma get_le32_unchanged (b b' : list Z) lo hi off :
  unchanged b b' lo hi -> 0 <= off -> off + 4 <= len b -> off + 4 <= lo \/ hi <= off ->
  get_le32 b' off = get_le32 b off.
Proof using.
  intros U Ho Hl Hd. unfold get_le32, get_le16.
  assert (forall k, 0 <= k < 4 -> mem_get b' (off + k) = mem_get b (off + k)) as Hk.
  { intros k Hk. destruct (mem_get_is_Some b (off + k)) as [x Hx]; [lia |]. rewrite Hx.
    by apply (mem_get_unchanged _ _ _ _ _ _ U) in Hx; [| lia]. }
  pose proof (Hk 0) as H0. pose proof (Hk 3) as H3. rewrite Z.add_0_r in H0. replace (off + 3) with (off + 2 + 1) in H3 by lia.
  by rewrite H0, H3, (Hk 1), (Hk 2) by lia.
Qed.

Lemma row_region s i r :
  diag_ok s -> u_diag s !! i = Some r ->
  placed r /\ 0 <= di_offset r /\ di_offset r + 4 <= len (u_diag_buf s).
Proof using.
  intros Hok Hi. destruct (laid_out_lookup _ _ _ _ (do_layout _ Hok) Hi) as ([Hp Hp4] & H0 & He).
  pose proof (do_end _ Hok). rewrite (do_buf _ Hok). split; [done |]. lia.
Qed.

Lemma diag_item_run s i r : u_diag s !! i = Some r -> diag_item (Z.of_nat i) s = Some (r, s).
Proof using.
  intros Hi. unfold diag_item. st_run. rewrite mem_get_lookup by lia. by rewrite Nat2Z.id, Hi.
Qed.

Lemma confirmed_run s i r :
  diag_ok s -> u_diag s !! i = Some r -> confirmed (Z.of_nat i) s = Some (row_conf s r, s).
Proof using.
  intros Hok Hi. unfold confirmed. rewrite (st_bind_run _ _ _ _ _ (diag_item_run _ _ _ Hi)). st_run.
  destruct (row_region _ _ _ Hok Hi) as ([-> _] & H0 & H4). st_run. unfold row_conf.
  by destruct (get_le32_total _ _ H0 H4) as [v ->].
Qed.

(** Replacing the counter of a row. *)
Definition with_counter (r : DIAG_ITEM_INFO) (c : Z) : DIAG_ITEM_INFO := {| r with di_counter := c |}.

Lemma laid_out_counter rows : forall off i r c,
  rows !! i = Some r ->
  (laid_out off rows -> laid_out off (<[i := with_counter r c]> rows)) /\
  rows_end off (<[i := with_counter r c]> rows) = rows_end off rows.
Proof using.
  induction rows as [|x rows IH]; intros off i r c; [done |]. destruct i as [|i]; cbn [lookup list_lookup].
  - intros [= ->]. split; [| done]. cbn. by intros (? & ? & ?).
  - intros Hi. destruct (IH (off + di_len x) _ _ c Hi) as [H1 H2]. cbn [laid_out rows_end insert list_insert].
    split; [| done]. intros (? & ? & ?). split; [done |]. split; [done |]. by apply H1.
Qed.

Lemma set_counter_ok s i r c n :
  diag_ok s -> u_diag s !! i = Some r -> 0 <= c <= di_thsd r ->
  diag_ok {| s with u_diag := <[i := with_counter r c]> (u_diag s); u_now := n |}.
Proof using.
  intros Hok Hi Hc. destruct (laid_out_counter (u_diag s) 0 i r c Hi) as [Hl He].
  split; cbn [u_diag u_diag_buf].
  - rewrite length_insert. apply Hok.
  - apply Hl, Hok.
  - apply Hok.
  - rewrite He. apply Hok.
  - apply Hok.
  - intros j x Hj. apply list_lookup_insert_Some in Hj as [(-> & <- & _) | (_ & Hj)]; [| by eapply do_counter].
    destruct (do_counter _ Hok _ _ Hi). by cbn.
  - intros j x Hj. apply list_lookup_insert_Some in Hj as [(-> & <- & _) | (_ & Hj)]; [| by eapply do_freeze].
    cbn. by eapply (do_freeze _ Hok).
Qed.

Lemma set_item_run s i r r' :
  u_diag s !! i = Some r -> set_item (Z.of_nat i) r' s = Some (tt, {| s with u_diag := <[i := r']> (u_diag s) |}).
Proof using.
  intros Hi. unfold set_item. st_run. apply lookup_lt_Some in Hi.
  rewrite mem_set_ok by (unfold len; lia). by rewrite Nat2Z.id.
Qed.

(** Confirming a row: its flag becomes 1, the rest of the buffer stays. *)
Lemma diag_ok_same s s' : diag_ok s -> u_diag s' = u_diag s -> u_diag_buf s' = u_diag_buf s -> diag_ok s'.
Proof using. intros [] Hd Hb. split; rewrite ?Hd, ?Hb; auto. Qed.

Lemma write_flag_run s i r :
  diag_ok s -> u_diag s !! i = Some r ->
  exists b, mem_write (u_diag_buf s) (di_offset r) [1; 0; 0; 0] = Some b /\
    diag_ok {| s with u_diag_buf := b |} /\ get_le32 b (di_offset r) = Some 1 /\
    forall j x, u_diag s !! j = Some x -> j <> i -> get_le32 b (di_offset x) = get_le32 (u_diag_buf s) (di_offset x).
Proof using.
  intros Hok Hi. destruct (row_region _ _ _ Hok Hi) as ([_ Hp4] & H0 & H4).
  destruct (mem_write (u_diag_buf s) (di_offset r) [1; 0; 0; 0]) as [b|] eqn:W;
    [| rewrite mem_write_ok in W; [done | done | by change (len [1; 0; 0; 0]) with 4]].
  exists b. split; [done |]. pose proof (mem_write_len _ _ _ _ W) as Hlen. split; [| split].
  - split; cbn [u_diag u_diag_buf]; try apply Hok; [by rewrite Hlen; apply Hok |].
    apply Forall_lookup. intros k x Hx. rewrite (mem_write_lookup _ _ _ _ k W) in Hx.
    destruct (_ && _).
    + destruct (k - _)%nat as [|[|[|[|?]]]]; cbn in Hx; try done; injection Hx as <-; by vm_compute.
    + exact (Forall_lookup_1 _ _ _ _ (do_bytes _ Hok) Hx).
  - apply mem_write_block_at in W. rewrite !block_at_cons in W. destruct W as (G0 & G1 & G2 & G3 & _).
    unfold get_le32, get_le16. replace (di_offset r + 1 + 1) with (di_offset r + 2) in G2, G3 by lia.
    rewrite G0, G1, G2. cbn [mbind option_bind]. by rewrite G3.
  - intros j x Hj Hne. destruct (row_region _ _ _ Hok Hj) as ([_ Hx4] & Hx0 & Hx1).
    eapply get_le32_unchanged; [by eapply mem_write_unchanged | done | done |].
    change (len [1; 0; 0; 0]) with 4. pose proof (do_layout _ Hok) as Hl.
    destruct (decide (j < i)%nat).
    + pose proof (laid_out_disjoint _ _ _ _ _ _ Hl Hj Hi ltac:(done)). lia.
    + pose proof (laid_out_disjoint _ _ _ _ _ _ Hl Hi Hj ltac:(lia)). lia.
Qed.

(** The effect of a diagnosis on a row: counting up to the threshold, then
    confirming. *)
Definition device_next (fault thsd : Z) (st : Z * bool) : Z * bool :=
  let '(c, conf) := st in
  if fault =? 0 then (0, conf) else if c <? thsd then (c + 1, conf) else (c, true).

(** What a diagnosis of row [i] leaves alone. *)
Definition same_rows (i : nat) (s s' : UDS) : Prop :=
  length (u_diag s') = length (u_diag s) /\
  forall j r, u_diag s !! j = Some r -> exists r', u_diag s' !! j = Some r' /\
    di_dtc r' = di_dtc r /\ di_thsd r' = di_thsd r /\ (j <> i -> row_status s' r' = row_status s r).

Lemma one_device_step s i r :
  diag_ok s -> u_diag s !! i = Some r ->
  exists s' r', uds_diag_one_device (Z.of_nat i) s = Some (tt, s') /\ diag_ok s' /\
    u_diag s' !! i = Some r' /\
    row_status s' r' = device_next (u8 (env_fault (u_now s) i)) (di_thsd r) (row_status s r) /\
    same_rows i s s' /\ u_now s' = S (u_now s) /\ u_events s' = u_events s /\
    (row_conf s' r' = row_conf s r \/ row_conf s' r' = 1).
Proof using.
  intros Hok Hi. pose proof (do_rows _ Hok) as Hn. pose proof (lookup_lt_Some _ _ _ Hi) as Hlt.
  unfold uds_diag_one_device. unfold DIAG_ITEM_NUM in *. rewrite (proj2 (Z.leb_gt _ _)) by lia.
  unfold env_read. st_run. rewrite Nat2Z.id. set (fault := u8 _). set (s1 := {| s with u_now := S (u_now s) |}).
  rewrite (st_bind_run _ _ _ _ _ (diag_item_run s1 _ _ Hi)).
  destruct (do_counter _ Hok _ _ Hi) as [Hc Ht]. unfold row_status, device_next.
  assert (forall c, 0 <= c <= di_thsd r ->
    exists s' r', set_item (Z.of_nat i) (with_counter r c) s1 = Some (tt, s') /\ diag_ok s' /\
      u_diag s' !! i = Some r' /\ (di_counter r', negb (row_conf s' r' =? 0)) = (c, negb (row_conf s r =? 0)) /\
      same_rows i s s' /\ u_now s' = S (u_now s) /\ u_events s' = u_events s /\
      (row_conf s' r' = row_conf s r \/ row_conf s' r' = 1)) as Hset.
  { intros c Hcr. rewrite (set_item_run s1 _ _ _ Hi). do 2 eexists. split; [reflexivity |].
    split; [by apply (set_counter_ok s i r c (S (u_now s))) |]. cbn [u_diag s1].
    split; [by apply list_lookup_insert_eq; lia |]. split; [done |].
    split; [| split; [done |]; split; [done |]; by left]. split; [cbn [u_diag]; by rewrite length_insert |].
    intros j x Hj. cbn [u_diag]. destruct (decide (i = j)) as [<-|Hne].
    - rewrite list_lookup_insert_eq by lia. eexists. split; [done |].
      rewrite Hi in Hj. injection Hj as ->. done.
    - rewrite list_lookup_insert_ne by done. by exists x. }
  destruct (fault =? 0); [apply Hset; lia |].
  destruct (Z.ltb_spec (di_counter r) (di_thsd r)) as [Hlow|Hhigh].
  { rewrite u32_small by (unfold is_u32; lia). apply Hset; lia. }
  assert (diag_ok s1) as Hok1 by (by eapply diag_ok_same).
  rewrite (st_bind_run _ _ _ _ _ (confirmed_run s1 _ _ Hok1 Hi)). change (row_conf s1 r) with (row_conf s r).
  destruct (row_conf s r =? 0) eqn:Hconf; cbn [negb].
  - destruct (write_flag_run s1 _ _ Hok1 Hi) as (b & W & Hokb & G & Hj). rewrite run_when_true.
    destruct (row_region _ _ _ Hok Hi) as ([-> _] & _ & _). st_run. rewrite W. st_run. unfold set_diag_buf. st_run.
    unfold uds_diag_gen_freeze. set (s2 := {| s1 with u_diag_buf := b |}).
    rewrite (st_bind_run _ _ _ _ _ (diag_item_run s2 _ _ Hi)).
    assert (gen_freeze_loop (di_freeze r) (di_offset r) s2 = Some (tt, s2)) as ->.
    { pose proof (do_freeze _ Hok _ _ Hi) as Hfz. destruct (di_freeze r) as [|d fz]; [done |]. injection Hfz as ->.
      done. }
    assert (row_conf s2 r = 1) as Hc2 by (unfold row_conf; cbn [u_diag_buf s2]; by rewrite G).
    exists s2, r. split; [done |]. split; [done |]. split; [done |]. split; [| split; [| by auto]].
    + by rewrite Hc2.
    + split; [done |]. intros j x Hx. exists x. split; [done |]. split; [done |]. split; [done |]. intros Hne.
      unfold row_status, row_conf. cbn [u_diag_buf s2]. by rewrite (Hj _ _ Hx Hne).
  - exists s1, r. split; [done |]. split; [done |]. split; [done |]. split; [| split; [| by auto]].
    + change (row_conf s1 r) with (row_conf s r). by rewrite Hconf.
    + split; [done |]. intros j x Hx. by exists x.
Qed.

(** [n] diagnoses of a row in a row. *)
Fixpoint diagnose (n : nat) (i : Z) : UM unit :=
  match n with O => mret tt | S n => uds_diag_one_device i;; diagnose n i end.

Lemma diagnose_faults n i : forall s r,
  (forall k, u8 (env_fault k i) <> 0) -> diag_ok s -> u_diag s !! i = Some r ->
  exists s' r', diagnose n (Z.of_nat i) s = Some (tt, s') /\ diag_ok s' /\ u_diag s' !! i = Some r' /\
    row_status s' r' =
      (Z.min (di_counter r + Z.of_nat n) (di_thsd r),
       snd (row_status s r) || (di_thsd r <? di_counter r + Z.of_nat n)).
Proof using.
  induction n as [|n IH]; intros s r Hf Hok Hi; cbn [diagnose].
  { exists s, r. split; [done |]. split; [done |]. split; [done |]. destruct (do_counter _ Hok _ _ Hi) as [Hc _].
    unfold row_status. cbn [snd Z.of_nat]. rewrite Z.add_0_r, Z.min_l, (proj2 (Z.ltb_ge _ _)) by lia.
    by rewrite orb_false_r. }
  destruct (one_device_step s i r Hok Hi) as (s1 & r1 & E1 & Hok1 & Hi1 & Hst & [_ Hrows] & _).
  rewrite (st_bind_run _ _ _ _ _ E1). destruct (Hrows _ _ Hi) as (r1' & Hi1' & _ & Hth & _).
  rewrite Hi1 in Hi1'. injection Hi1' as <-.
  destruct (IH s1 r1 Hf Hok1 Hi1) as (s2 & r2 & E2 & Hok2 & Hi2 & Hst2).
  exists s2, r2. split; [done |]. split; [done |]. split; [done |]. rewrite Hst2, Hst, Hth.
  destruct (do_counter _ Hok _ _ Hi) as [Hc _].
  assert (di_counter r1 = fst (row_status s1 r1)) as -> by done. rewrite Hst.
  unfold row_status, device_next. rewrite (proj2 (Z.eqb_neq _ _) (Hf _)).
  destruct (Z.ltb_spec (di_counter r) (di_thsd r)); cbn [fst snd]; f_equal; try lia.
  - by replace (di_counter r + 1 + Z.of_nat n) with (di_counter r + Z.of_nat (S n)) by lia.
  - rewrite (proj2 (Z.ltb_lt _ (di_counter r + Z.of_nat (S n)))) by lia. by rewrite orb_true_r.
Qed.

(** A fault that is found in every diagnosis counts up to the threshold of its
    trouble code, and the code is confirmed exactly when it was found more often than
    that; the flag of no other row changes on the way. *)
Theorem uds_diag_fault_confirms n i s r :
  (forall k, u8 (env_fault k i) <> 0) -> diag_ok s -> u_diag s !! i = Some r ->
  row_status s r = (0, false) ->
  exists s' r', diagnose n (Z.of_nat i) s = Some (tt, s') /\ diag_ok s' /\ u_diag s' !! i = Some r' /\
    row_status s' r' = (Z.min (Z.of_nat n) (di_thsd r), di_thsd r <? Z.of_nat n).
Proof using.
  intros Hf Hok Hi Hst. destruct (diagnose_faults n i s r Hf Hok Hi) as (s' & r' & E & Hok' & Hi' & Hst').
  exists s', r'. split; [done |]. split; [done |]. split; [done |]. rewrite Hst', Hst.
  injection Hst as -> _. done.
Qed.

(** ** All rows *)

Lemma all_devices_step n : forall i gen s,
  diag_ok s -> (i + n = 17)%nat ->
  exists gen' s', all_devices_loop n (Z.of_nat i) gen s = Some (gen', s') /\ diag_ok s' /\ u_events s' = u_events s /\
    (forall j r, u_diag s !! j = Some r -> exists r', u_diag s' !! j = Some r' /\
       di_thsd r' = di_thsd r /\ di_dtc r' = di_dtc r /\
       row_status s' r' = (if decide (i <= j)%nat
         then device_next (u8 (env_fault (u_now s + (j - i)) j)) (di_thsd r) (row_status s r)
         else row_status s r)) /\
    (gen' = true <-> gen = true \/
       exists j r r', u_diag s !! j = Some r /\ u_diag s' !! j = Some r' /\
         snd (row_status s r) = false /\ snd (row_status s' r') = true).
Proof using.
  induction n as [|n IH]; intros i gen s Hok Hin; cbn [all_devices_loop].
  { exists gen, s. split; [done |]. split; [done |]. split; [done |]. split.
    - intros j r Hj. exists r. repeat (split; [done |]). apply lookup_lt_Some in Hj as Hlt.
      rewrite (do_rows _ Hok) in Hlt. change (Z.to_nat DIAG_ITEM_NUM) with 17%nat in Hlt.
      by rewrite decide_False by lia.
    - split; [by left |]. intros [Hg | (j & r & r' & H1 & H2 & H3 & H4)]; [done | congruence]. }
  destruct (lookup_lt_is_Some_2 (u_diag s) i) as [r Hi]; [rewrite (do_rows _ Hok); unfold DIAG_ITEM_NUM; lia |].
  rewrite (st_bind_run _ _ _ _ _ (confirmed_run _ _ _ Hok Hi)).
  destruct (one_device_step s i r Hok Hi) as (s1 & r1 & E1 & Hok1 & Hi1 & Hst1 & [Hn1 Hrows1] & Hnow & Hev & Hcf).
  rewrite (st_bind_run _ _ _ _ _ E1), (st_bind_run _ _ _ _ _ (confirmed_run _ _ _ Hok1 Hi1)).
  replace (Z.of_nat i + 1) with (Z.of_nat (S i)) by lia.
  set (g1 := gen || _).
  destruct (IH (S i) g1 s1 Hok1 ltac:(lia)) as (gen' & s' & E & Hok' & Hev' & Hrows & Hgen).
  exists gen', s'. split; [done |]. split; [done |]. split; [congruence |].
  assert (forall j x, u_diag s !! j = Some x -> exists x', u_diag s' !! j = Some x' /\
    di_thsd x' = di_thsd x /\ di_dtc x' = di_dtc x /\
    row_status s' x' = (if decide (i <= j)%nat
      then device_next (u8 (env_fault (u_now s + (j - i)) j)) (di_thsd x) (row_status s x)
      else row_status s x)) as Hall.
  { intros j x Hj. destruct (Hrows1 _ _ Hj) as (x1 & Hj1 & Hd1 & Ht1 & Hs1).
    destruct (Hrows _ _ Hj1) as (x' & Hj' & Ht' & Hd' & Hs').
    exists x'. split; [done |]. split; [congruence |]. split; [congruence |]. rewrite Hs', Ht1.
    destruct (decide (j = i)) as [->|Hne].
    - rewrite decide_False, decide_True by lia. rewrite Hi in Hj. injection Hj as <-.
      rewrite Hi1 in Hj1. injection Hj1 as <-. rewrite Hst1. by rewrite Nat.sub_diag, Nat.add_0_r.
    - rewrite (Hs1 Hne), Hnow. destruct (decide (S i <= j)%nat).
      + rewrite decide_True by lia. by replace (S (u_now s) + (j - S i))%nat with (u_now s + (j - i))%nat by lia.
      + by rewrite decide_False by lia. }
  split; [exact Hall |]. rewrite Hgen.
  destruct (Hrows _ _ Hi1) as (ri & Hi' & _ & _ & Hsi). rewrite decide_False in Hsi by lia.
  assert (snd (row_status s r) = false /\ snd (row_status s1 r1) = true <->
    (0 =? row_conf s r) && (1 =? row_conf s1 r1) = true) as Hnew.
  { unfold row_status. cbn [snd]. rewrite andb_true_iff, negb_false_iff, negb_true_iff, !Z.eqb_eq, Z.eqb_neq.
    destruct Hcf as [-> | ->]; lia. }
  unfold g1. rewrite orb_true_iff, <- Hnew. split.
  - intros [[Hg | [H1 H2]] | (j & x & x' & Hx & Hx' & H1 & H2)]; [by left | right; exists i, r, ri; by rewrite Hsi |].
    right. destruct (lookup_lt_is_Some_2 (u_diag s) j) as [y Hy].
    { apply lookup_lt_Some in Hx. by rewrite <- Hn1. }
    destruct (Hrows1 _ _ Hy) as (y1 & Hy1 & _ & _ & Hys). rewrite Hx in Hy1. injection Hy1 as <-.
    exists j, y, x'. split; [done |]. split; [done |]. split; [| done].
    rewrite <- Hys; [done |]. intros ->. rewrite Hi1 in Hx. injection Hx as <-.
    rewrite Hi' in Hx'. injection Hx' as <-. congruence.
  - intros [Hg | (j & x & x' & Hx & Hx' & H1 & H2)]; [by left; left |].
    destruct (decide (j = i)) as [->|Hne].
    + rewrite Hi in Hx. injection Hx as <-. rewrite Hi' in Hx'. injection Hx' as <-. left. right. by rewrite <- Hsi.
    + right. destruct (Hrows1 _ _ Hx) as (x1 & Hx1 & _ & _ & Hxs). exists j, x1, x'.
      split; [done |]. split; [done |]. by rewrite (Hxs Hne).
Qed.

(** C32: one round of the diagnosis: every row makes its own step for what its device
    reports, nothing is accessed out of bounds, and the buffer is saved exactly when
    a trouble code became confirmed in this round. With the recording switched off
    the round does nothing. *)
Theorem uds_diag_round s :
  diag_ok s ->
  exists s', uds_diag_all_devices s = Some (tt, s') /\ diag_ok s' /\
    (u_dtc_switch s = 0 -> s' = s) /\
    (u_dtc_switch s <> 0 ->
       (forall i r, u_diag s !! i = Some r -> exists r', u_diag s' !! i = Some r' /\
          row_status s' r' = device_next (u8 (env_fault (u_now s + i) i)) (di_thsd r) (row_status s r)) /\
       ((u_events s' = u_events s ++ [EvSaveDiag (u_diag_buf s')] /\
         exists j r r', u_diag s !! j = Some r /\ u_diag s' !! j = Some r' /\
           snd (row_status s r) = false /\ snd (row_status s' r') = true) \/
        (u_events s' = u_events s /\
         forall j r r', u_diag s !! j = Some r -> u_diag s' !! j = Some r' ->
           snd (row_status s' r') = true -> snd (row_status s r) = true))).
Proof using.
  intros Hok. unfold uds_diag_all_devices, UDS_GetDTCSetting. rewrite run_gets.
  destruct (Z.eqb_spec 0 (u_dtc_switch s)) as [H0|H0]; [exists s; split; [done |]; by split |].
  destruct (all_devices_step 17 0 false s Hok eq_refl) as (gen & s1 & E & Hok1 & Hev & Hrows & Hgen).
  change (Z.to_nat DIAG_ITEM_NUM) with 17%nat. change (Z.of_nat 0) with 0 in E. rewrite (st_bind_run _ _ _ _ _ E).
  assert (forall i r, u_diag s !! i = Some r -> exists r', u_diag s1 !! i = Some r' /\
    row_status s1 r' = device_next (u8 (env_fault (u_now s + i) i)) (di_thsd r) (row_status s r)) as Hst.
  { intros i r Hi. destruct (Hrows _ _ Hi) as (r' & Hi' & _ & _ & Hs). rewrite decide_True, Nat.sub_0_r in Hs by lia.
    by exists r'. }
  destruct gen; cbn [st_when].
  - unfold save_diag, emit. eexists. split; [reflexivity |]. split; [by eapply diag_ok_same |].
    split; [lia |]. intros _. split; [exact Hst |]. left. split; [by cbn; rewrite Hev |].
    destruct (proj1 Hgen eq_refl) as [? | Hj]; [done | exact Hj].
  - exists s1. split; [done |]. split; [done |]. split; [lia |]. intros _. split; [exact Hst |]. right.
    split; [done |]. intros j r r' Hj Hj' Hc. destruct (snd (row_status s r)) eqn:Hr; [done |]. exfalso.
    assert (false = true) by (apply Hgen; right; by exists j, r, r'). done.
Qed.

(** ** Reading trouble codes *)

(** The status byte of a row, as the specification has it: bit 0 for a counted fault,
    bit 3 for a confirmed code. *)
Definition status_byte (st : Z * bool) : Z :=
  Z.lor (if snd st then statusOfDTC_ConfirmedDTC else 0) (if 0 <? fst st then statusOfDTC_testfail else 0).

(** The rows a status mask selects, and what is reported of them. *)
Definition selected (s : UDS) (mask : Z) (r : DIAG_ITEM_INFO) : bool :=
  negb (Z.land mask (status_byte (row_status s r)) =? 0).

Definition record (s : UDS) (r : DIAG_ITEM_INFO) : list Z :=
  dtc_bytes (ChangeDTCtoInt (di_dtc r)) ++ [status_byte (row_status s r)].

Definition records (s : UDS) (sel : DIAG_ITEM_INFO -> bool) (rows : list DIAG_ITEM_INFO) : list Z :=
  flat_map (fun r => if sel r then record s r else []) rows.

(** A test of the rows that only reads. *)
Definition reads {A} (s : UDS) (m : Z -> UM A) (f : DIAG_ITEM_INFO -> A) : Prop :=
  forall i r, u_diag s !! i = Some r -> m (Z.of_nat i) s = Some (f r, s).

Lemma is_cfm_reads s : diag_ok s -> reads s uds_diag_is_cfm_dtc_valid (fun r => snd (row_status s r)).
Proof using.
  intros Hok i r Hi. unfold uds_diag_is_cfm_dtc_valid.
  by rewrite (st_bind_run _ _ _ _ _ (confirmed_run _ _ _ Hok Hi)).
Qed.

Lemma is_uncfm_reads s : reads s uds_diag_is_uncfm_dtc_valid (fun r => 0 <? fst (row_status s r)).
Proof using.
  intros i r Hi. unfold uds_diag_is_uncfm_dtc_valid. by rewrite (st_bind_run _ _ _ _ _ (diag_item_run _ _ _ Hi)).
Qed.

Lemma cfm_or_uncfm_reads s :
  diag_ok s -> reads s cfm_or_uncfm (fun r => snd (row_status s r) || (0 <? fst (row_status s r))).
Proof using.
  intros Hok i r Hi. unfold cfm_or_uncfm. rewrite (st_bind_run _ _ _ _ _ (is_cfm_reads _ Hok _ _ Hi)).
  destruct (snd (row_status s r)); [done |]. by rewrite (is_uncfm_reads _ _ _ Hi).
Qed.

Lemma dtc_status_reads s : diag_ok s -> reads s dtc_status (fun r => status_byte (row_status s r)).
Proof using.
  intros Hok i r Hi. unfold dtc_status. rewrite (st_bind_run _ _ _ _ _ (is_cfm_reads _ Hok _ _ Hi)).
  by rewrite (st_bind_run _ _ _ _ _ (is_uncfm_reads _ _ _ Hi)).
Qed.

Lemma count_items_run s test f n : forall j,
  reads s test f -> (j + n = length (u_diag s))%nat ->
  count_items n (Z.of_nat j) test s = Some (len (filter (fun r => f r = true) (drop j (u_diag s))), s).
Proof using.
  induction n as [|n IH]; intros j Ht Hn; cbn [count_items].
  { by rewrite drop_ge by lia. }
  destruct (lookup_lt_is_Some_2 (u_diag s) j) as [r Hr]; [lia |].
  rewrite (st_bind_run _ _ _ _ _ (Ht _ _ Hr)). replace (Z.of_nat j + 1) with (Z.of_nat (S j)) by lia.
  rewrite (st_bind_run _ _ _ _ _ (IH (S j) Ht ltac:(lia))), (drop_S _ _ _ Hr).
  rewrite filter_cons. destruct (f r) eqn:E.
  - rewrite decide_True by done. by rewrite len_cons.
  - by rewrite decide_False by done.
Qed.

Lemma report_loop_run s sel extra f g n : forall j acc,
  reads s sel f -> reads s extra g -> len acc + 4 * Z.of_nat n <= 200 -> (j + n = length (u_diag s))%nat ->
  report_loop n (Z.of_nat j) sel extra acc s =
    Some (acc ++ flat_map (fun r => if f r then dtc_bytes (ChangeDTCtoInt (di_dtc r)) ++ [u8 (g r)] else [])
                   (drop j (u_diag s)), s).
Proof using.
  induction n as [|n IH]; intros j acc Hs He Hl Hn; cbn [report_loop].
  { rewrite drop_ge by lia. by rewrite app_nil_r. }
  destruct (lookup_lt_is_Some_2 (u_diag s) j) as [r Hr]; [lia |].
  rewrite (st_bind_run _ _ _ _ _ (Hs _ _ Hr)), (drop_S _ _ _ Hr). cbn [flat_map].
  replace (Z.of_nat j + 1) with (Z.of_nat (S j)) by lia. destruct (f r).
  - rewrite run_assoc. unfold uds_diag_get_dtc. rewrite run_assoc, (st_bind_run _ _ _ _ _ (diag_item_run _ _ _ Hr)). st_run.
    rewrite (st_bind_run _ _ _ _ _ (He _ _ Hr)).
    assert (len (acc ++ dtc_bytes (ChangeDTCtoInt (di_dtc r)) ++ [u8 (g r)]) = len acc + 4) as Hl4
      by (autorewrite with len; done).
    rewrite (proj2 (Z.ltb_ge _ _)) by lia. st_run.
    rewrite IH; [| done | done | lia | lia]. by rewrite <- !app_assoc.
  - st_run. by apply IH; [| | lia | lia].
Qed.

(** The cases of the code on a mask, against the specification. *)
Definition mask_case (mask : Z) (conf unconf : bool) : bool :=
  if Z.land mask status_both =? 0 then false
  else if Z.land mask status_both =? status_both then conf || unconf
  else if negb (Z.land mask statusOfDTC_testfail =? 0) then unconf
  else if negb (Z.land mask statusOfDTC_ConfirmedDTC =? 0) then conf else false.

Definition mask_ok (mask : Z) : bool :=
  forallb (fun conf => forallb (fun unconf =>
    eqb (mask_case mask conf unconf)
      (negb (Z.land mask (Z.lor (if (conf : bool) then statusOfDTC_ConfirmedDTC else 0)
                                (if (unconf : bool) then statusOfDTC_testfail else 0)) =? 0)))
    [true; false]) [true; false] &&
  ((Z.land mask status_both =? 0) || negb (Z.land mask statusOfDTC_testfail =? 0)
   || negb (Z.land mask statusOfDTC_ConfirmedDTC =? 0)).

Lemma mask_ok_byte mask : is_byte mask -> mask_ok mask = true.
Proof using. apply byte_enum. vm_compute. reflexivity. Qed.

Lemma selected_case s mask r :
  is_byte mask ->
  selected s mask r = mask_case mask (snd (row_status s r)) (0 <? fst (row_status s r)).
Proof using.
  intros Hb. pose proof (mask_ok_byte _ Hb) as Hm. unfold mask_ok in Hm. apply andb_true_iff in Hm as [Hm _].
  assert (forall b, In b [true; false]) as Hin by (intros []; cbn; auto).
  rewrite forallb_forall in Hm. specialize (Hm (snd (row_status s r)) (Hin _)).
  rewrite forallb_forall in Hm. specialize (Hm (0 <? fst (row_status s r)) (Hin _)).
  apply eqb_prop in Hm. by rewrite Hm.
Qed.

Lemma mask_case_exhaustive mask :
  is_byte mask -> (Z.land mask status_both =? 0) = false -> (Z.land mask statusOfDTC_testfail =? 0) = true ->
  (Z.land mask statusOfDTC_ConfirmedDTC =? 0) = false.
Proof using.
  intros Hb H1 H2. pose proof (mask_ok_byte _ Hb) as Hm. unfold mask_ok in Hm. apply andb_true_iff in Hm as [_ Hm].
  rewrite H1, H2 in Hm. by apply negb_true_iff in Hm.
Qed.

(** The records of the reports, for any of the cases. *)
Lemma report_dtcs_run p s hdr sel extra (f : DIAG_ITEM_INFO -> bool) (g : DIAG_ITEM_INFO -> Z) rows :
  diag_ok s -> reads s sel f -> reads s extra g -> len hdr <= 100 ->
  (forall r, (if f r then dtc_bytes (ChangeDTCtoInt (di_dtc r)) ++ [u8 (g r)] else []) = rows r) ->
  report_dtcs p hdr sel extra s =
    respond p (len (hdr ++ flat_map rows (u_diag s))) (hdr ++ flat_map rows (u_diag s)) s.
Proof using.
  intros Hok Hs He Hl Hr. unfold report_dtcs. change (Z.to_nat DIAG_ITEM_NUM) with 17%nat. change 0 with (Z.of_nat 0).
  pose proof (do_rows _ Hok) as Hn. change (Z.to_nat DIAG_ITEM_NUM) with 17%nat in Hn.
  rewrite (st_bind_run _ _ _ _ _ (report_loop_run s sel extra f g 17 0 hdr Hs He ltac:(lia) ltac:(lia))).
  rewrite drop_0. by rewrite (List.flat_map_ext _ rows).
Qed.

Lemma status_byte_u8 st : u8 (status_byte st) = status_byte st.
Proof using. unfold status_byte. destruct (snd st), (0 <? fst st); done. Qed.

Lemma record_of s r c u :
  snd (row_status s r) = c -> (0 <? fst (row_status s r)) = u ->
  dtc_bytes (ChangeDTCtoInt (di_dtc r)) ++
    [u8 (Z.lor (if (c : bool) then statusOfDTC_ConfirmedDTC else 0) (if (u : bool) then statusOfDTC_testfail else 0))] =
  record s r.
Proof using. intros <- <-. unfold record. f_equal. f_equal. apply status_byte_u8. Qed.

(** The reports by status mask and of all codes, before they are sent. *)
Lemma report_by_mask_run p mask s :
  diag_ok s -> is_byte mask ->
  ReportDTCByStatusMask p 3 [0x19; 0x02; mask] s =
    (let r := [0x59; 0x02; status_both] ++ records s (selected s mask) (u_diag s) in respond p (len r) r s).
Proof using.
  intros Hok Hb. unfold ReportDTCByStatusMask, pdu_at. change (mem_get [0x19; 0x02; mask] 0) with (Some 0x19).
  change (mem_get [0x19; 0x02; mask] 2) with (Some mask). change (negb (3 =? 3)) with false. st_run. cbv zeta.
  unfold ReportDTC_testfail_Or_Confirmed, ReportDTC_testfail, ReportDTC__Confirmed.
  assert (report_hdr [0x19; 0x02; mask] s = Some ([0x59; 0x02; status_both], s)) as Eh by done.
  pose proof (fun r => selected_case s mask r Hb) as Hsel. unfold mask_case in Hsel. unfold records.
  destruct (Z.land mask status_both =? 0) eqn:H0.
  { rewrite (st_bind_run _ _ _ _ _ Eh), (List.flat_map_ext _ (fun _ => [])); [| intros r; by rewrite Hsel].
    assert (forall l : list DIAG_ITEM_INFO, flat_map (fun _ => @nil Z) l = []) as -> by (induction l; done). done. }
  destruct (Z.land mask status_both =? status_both).
  { rewrite (st_bind_run _ _ _ _ _ Eh). apply (report_dtcs_run _ _ _ _ _ _ _ _ Hok (cfm_or_uncfm_reads _ Hok) (dtc_status_reads _ Hok)); [by vm_compute |].
    intros r. rewrite Hsel. destruct (_ || _); [| done]. by apply record_of. }
  destruct (Z.land mask statusOfDTC_testfail =? 0) eqn:H1; cbn [negb] in *.
  - pose proof (mask_case_exhaustive _ Hb H0 H1) as H8. rewrite H8 in *. cbn [negb] in *.
    rewrite (st_bind_run _ _ _ _ _ Eh). apply (report_dtcs_run _ _ _ _ _ (fun r => snd (row_status s r))
      (fun r => Z.lor statusOfDTC_ConfirmedDTC (if 0 <? fst (row_status s r) then statusOfDTC_testfail else 0)));
      [done | by apply is_cfm_reads | | by vm_compute |].
    + intros i r Hi. by rewrite (st_bind_run _ _ _ _ _ (is_uncfm_reads _ _ _ Hi)).
    + intros r. rewrite Hsel. destruct (snd (row_status s r)) eqn:Ec; [| done]. by apply (record_of _ _ true).
  - rewrite (st_bind_run _ _ _ _ _ Eh). apply (report_dtcs_run _ _ _ _ _ (fun r => 0 <? fst (row_status s r))
      (fun r => Z.lor statusOfDTC_testfail (if snd (row_status s r) then statusOfDTC_ConfirmedDTC else 0)));
      [done | by apply is_uncfm_reads | | by vm_compute |].
    + intros i r Hi. by rewrite (st_bind_run _ _ _ _ _ (is_cfm_reads _ Hok _ _ Hi)).
    + intros r. rewrite Hsel. destruct (0 <? fst (row_status s r)) eqn:Eu; [| done].
      rewrite Z.lor_comm. by apply (record_of _ _ _ true).
Qed.

(** The number report tests the mask without its first case. *)
Definition mask_case_num (mask : Z) (conf unconf : bool) : bool :=
  if Z.land mask status_both =? status_both then conf || unconf
  else if negb (Z.land mask statusOfDTC_testfail =? 0) then unconf
  else if negb (Z.land mask statusOfDTC_ConfirmedDTC =? 0) then conf else false.

Lemma mask_case_num_eq mask c u : is_byte mask -> mask_case mask c u = mask_case_num mask c u.
Proof using.
  intros Hb. apply eqb_prop. revert mask Hb. apply (byte_enum (fun mask => eqb (mask_case mask c u) (mask_case_num mask c u))).
  destruct c, u; vm_compute; reflexivity.
Qed.

Lemma report_number_run p mask s :
  diag_ok s -> is_byte mask ->
  ReportNumberOfDTCByStatusMask p 3 [0x19; 0x01; mask] s =
    (let n := len (filter (fun r => selected s mask r = true) (u_diag s)) in
     respond p 6 [0x59; 0x01; status_both; 0x00; u8 (Z.shiftr (u16 n) 8); u8 n] s).
Proof using.
  intros Hok Hb. unfold ReportNumberOfDTCByStatusMask, pdu_at. change (mem_get [0x19; 0x01; mask] 0) with (Some 0x19).
  change (mem_get [0x19; 0x01; mask] 2) with (Some mask). change (negb (3 =? 3)) with false. st_run. cbv zeta.
  match goal with |- (?m ≫= ?k) s = _ => assert (m s = Some (len (filter (fun r => selected s mask r = true) (u_diag s)), s)) as E end.
  2: { rewrite (st_bind_run _ _ _ _ _ E). reflexivity. }
  unfold uds_diag_get_dtc_num, uds_diag_get_uncfm_dtc_num, uds_diag_get_cfm_dtc_num.
  pose proof (do_rows _ Hok) as Hn. change (Z.to_nat DIAG_ITEM_NUM) with 17%nat in *.
  assert (forall r, selected s mask r = mask_case_num mask (snd (row_status s r)) (0 <? fst (row_status s r))) as Hsel.
  { intros r. rewrite selected_case by done. by apply mask_case_num_eq. }
  assert (forall f : DIAG_ITEM_INFO -> bool, (forall r, selected s mask r = f r) ->
    len (filter (fun r => f r = true) (u_diag s)) = len (filter (fun r => selected s mask r = true) (u_diag s))) as Hf.
  { intros f Hf. f_equal. apply list_filter_iff. intros r. by rewrite Hf. }
  unfold mask_case_num in Hsel. repeat case_match.
  - change 0 with (Z.of_nat 0) at 1. rewrite (count_items_run s _ _ 17 0 (cfm_or_uncfm_reads _ Hok)) by lia. rewrite drop_0. by rewrite Hf.
  - change 0 with (Z.of_nat 0) at 1. rewrite (count_items_run s _ _ 17 0 (is_uncfm_reads _)) by lia. rewrite drop_0. by rewrite Hf.
  - change 0 with (Z.of_nat 0) at 1. rewrite (count_items_run s _ _ 17 0 (is_cfm_reads _ Hok)) by lia. rewrite drop_0. by rewrite Hf.
  - rewrite <- (Hf (fun _ => false)) by done.
    assert (forall l : list DIAG_ITEM_INFO, filter (fun _ => false = true) l = []) as ->; [| done].
    induction l as [|r l IH]; [done |]. by rewrite filter_cons, decide_False.
Qed.

(** *** Whole requests *)

Lemma flat_map_filter {A B} (f : A -> bool) (g : A -> list B) l :
  flat_map g (filter (fun x => f x = true) l) = flat_map (fun x => if f x then g x else []) l.
Proof using.
  induction l as [|x l IH]; [done |]. rewrite filter_cons. simpl. destruct (f x) eqn:E.
  - rewrite decide_True by done. simpl. by rewrite IH.
  - by rewrite decide_False.
Qed.

Lemma records_len s sel rows : len (records s sel rows) <= 4 * len rows.
Proof using.
  unfold records. induction rows as [|r rows IH]; [done |]. cbn [flat_map]. rewrite len_app, len_cons.
  assert (len (if sel r then record s r else []) <= 4); [| lia]. by destruct (sel r).
Qed.

(** Sending a response leaves the fault memory alone. *)
Lemma keeps_memory_response p can n pdu : keeps memory (uds_positive_response p can n pdu).
Proof using.
  unfold uds_positive_response, uds_data_request, set_suppress, emit, uds_set_timer, uds_timer_settime, timer_mod, uds_mod.
  steps_tac; steps_apply @steps_mod; by intros s; destruct p.
Qed.

Lemma keeps_memory_respond p n pdu : keeps memory (respond p n pdu).
Proof using. unfold respond. steps_tac. apply keeps_memory_response. Qed.

Lemma diag_ok_memory s s' : diag_ok s -> memory s' = memory s -> diag_ok s'.
Proof using. intros Hok E. injection E as E1 E2. by eapply diag_ok_same. Qed.

(** The report of trouble codes by status mask lists, in the order of the table,
    exactly the rows whose status byte has a bit of the mask, each with its code and
    its status byte (bit 0: a fault is counted, bit 3: confirmed); the report of
    their number gives exactly the number of these records. Both only read. *)
Theorem uds_read_dtc_by_mask can mask s :
  can = UDS_CAN_ID_FUN \/ can = UDS_CAN_ID_PHY -> run_ok s -> diag_ok s -> is_byte mask ->
  u_session s <> SESSION_TYPE_PROGRAM -> u_suppress s = 0 ->
  let sel := filter (fun r => selected s mask r = true) (u_diag s) in
  exists s1 s2,
    uds_main_step (ind_msg can [0x19; 0x02; mask]) s = Some (tt, s1) /\ memory s1 = memory s /\
    u_events s1 = u_events s ++ [EvSend (response_msg ([0x59; 0x02; status_both] ++ flat_map (record s) sel))] /\
    uds_main_step (ind_msg can [0x19; 0x01; mask]) s = Some (tt, s2) /\ memory s2 = memory s /\
    u_events s2 = u_events s ++ [EvSend (response_msg [0x59; 0x01; status_both; 0; 0; len sel])].
Proof using.
  intros Hc Hok Hdo Hb Hses Hsu sel.
  assert (verdict 0x19 (u_session s) (u_security s) (UDS_CAN_ID_PHY =? can) = None) as Hv.
  { pose proof (ro_session _ Hok) as Hs. apply list_elem_of_In in Hs. cbn in Hs.
    destruct Hs as [Hs | [Hs | [Hs | []]]]; rewrite <- Hs; [| by destruct Hses |];
      destruct (ro_security _ Hok) as [-> | ->]; by destruct (_ =? can). }
  assert (len sel <= 17) as Hsel.
  { pose proof (do_rows _ Hdo) as Hn. change (Z.to_nat DIAG_ITEM_NUM) with 17%nat in Hn.
    pose proof (length_filter (fun r => selected s mask r = true) (u_diag s)). unfold sel, len. lia. }
  destruct (granted_step can [0x19; 0x02; mask] 0x19 s) as (t1 & E1 & Hv1 & He1 & _ & Hm1); try done.
  destruct (granted_step can [0x19; 0x01; mask] 0x19 s) as (t2 & E2 & Hv2 & He2 & _ & Hm2); try done.
  assert (forall t, memory t = memory s -> u_diag t = u_diag s /\
    flat_map (record t) (filter (fun r => selected t mask r = true) (u_diag t)) = flat_map (record s) sel) as Hmem.
  { intros t Ht. injection Ht as Hd Hbf. split; [done |]. unfold sel, selected, record, row_status, row_conf.
    by rewrite Hd, Hbf. }
  destruct (Hmem _ Hm1) as [_ Hr1]. injection Hm2 as Hd2 Hb2.
  assert (flat_map (record t1) (filter (fun r => selected t1 mask r = true) (u_diag t1)) =
    records t1 (selected t1 mask) (u_diag t1)) as Hrec.
  { apply flat_map_filter. }
  assert (diag_ok t1) as Hdo1 by (by apply (diag_ok_memory s)). assert (diag_ok t2) as Hdo2 by (by apply (diag_ok_same s)).
  assert (server_ok t1) as Hok1 by (eapply view_ok; [apply Hok | done]).
  assert (server_ok t2) as Hok2 by (eapply view_ok; [apply Hok | done]).
  injection Hv1 as _ _ _ Hsu1 _. injection Hv2 as _ _ _ Hsu2 _.
  pose proof (records_len t1 (selected t1 mask) (u_diag t1)) as Hlen.
  assert (len (u_diag t1) = 17) as H17 by (unfold len; rewrite (do_rows _ Hdo1); done).
  set (body := [0x59; 0x02; status_both] ++ records t1 (selected t1 mask) (u_diag t1)).
  assert (3 <= len body <= 100) as Hbody
    by (unfold body; rewrite len_app; change (len [89; 2; status_both]) with 3; pose proof (len_nonneg (records t1 (selected t1 mask) (u_diag t1))); lia).
  destruct (respond_run (len body) body 0x59 t1) as (s1 & Er1 & _ & _ & Hev1);
    [done | lia | lia | done | done |].
  destruct (respond_run 6 [0x59; 0x01; status_both; 0; 0; len sel] 0x59 t2) as (s2 & Er2 & _ & _ & Hev2);
    [done | lia | by vm_compute | done | done |].
  exists s1, s2. split; [| split; [| split; [| split; [| split]]]].
  - rewrite E1. transitivity (ReportDTCByStatusMask uds_server_ptr 3 [0x19; 0x02; mask] t1); [done |].
    by rewrite report_by_mask_run.
  - rewrite <- Hm1. by apply (keeps_memory_respond _ _ _ _ _ _ Er1).
  - rewrite Hev1, He1, Hsu1, Hsu. cbn [Z.eqb]. rewrite <- Hr1, Hrec. unfold len at 1. rewrite Nat2Z.id, firstn_all. done.
  - rewrite E2. transitivity (ReportNumberOfDTCByStatusMask uds_server_ptr 3 [0x19; 0x01; mask] t2); [done |].
    rewrite report_number_run by done. cbv zeta.
    assert (len (filter (fun r => selected t2 mask r = true) (u_diag t2)) = len sel) as ->.
    { unfold sel, selected, row_status, row_conf. by rewrite Hd2, Hb2. }
    rewrite u16_small by (unfold is_u16; pose proof (len_nonneg sel); lia).
    rewrite (u8_small (len sel)) by (unfold is_byte; pose proof (len_nonneg sel); lia).
    rewrite Z.shiftr_div_pow2, Z.div_small by (change (2 ^ 8) with 256; pose proof (len_nonneg sel); lia). exact Er2.
  - transitivity (memory t2); [| unfold memory; by rewrite Hd2, Hb2]. by apply (keeps_memory_respond _ _ _ _ _ _ Er2).
  - rewrite Hev2, He2, Hsu2, Hsu. done.
Qed.

(** ** Clearing *)

Lemma keeps_memory_negative p sid code : keeps memory (uds_negative_response p sid code).
Proof using. unfold uds_negative_response. steps_tac. apply keeps_memory_response. Qed.

(** Clearing the trouble codes is answered with a pending and a positive response,
    with the empty buffer saved in between; afterwards no row has a fault counted or
    a code confirmed, so that every report is empty. *)
Theorem uds_clear_dtc can s :
  can = UDS_CAN_ID_FUN \/ can = UDS_CAN_ID_PHY -> run_ok s -> diag_ok s ->
  u_session s <> SESSION_TYPE_PROGRAM -> u_suppress s = 0 -> u_diag_id s <> UDS_CAN_ID_PHY ->
  exists s', uds_main_step (ind_msg can [0x14; 0xFF; 0xFF; 0xFF]) s = Some (tt, s') /\ diag_ok s' /\
    (forall i r, u_diag s' !! i = Some r -> row_status s' r = (0, false)) /\
    u_events s' = u_events s ++
      [EvSend (response_msg [SID_NegativeResponse; 0x14; NRC_RequestCorrectlyReceivedResponsePending]);
       EvSaveDiag (replicate 1024 0);
       EvSend (response_msg [0x54])].
Proof using.
  intros Hc Hok Hdo Hses Hsu Hdi.
  assert (verdict 0x14 (u_session s) (u_security s) (UDS_CAN_ID_PHY =? can) = None) as Hv.
  { pose proof (ro_session _ Hok) as Hs. apply list_elem_of_In in Hs. cbn in Hs.
    destruct Hs as [Hs | [Hs | [Hs | []]]]; rewrite <- Hs; [| by destruct Hses |];
      destruct (ro_security _ Hok) as [-> | ->]; by destruct (_ =? can). }
  destruct (granted_step can [0x14; 0xFF; 0xFF; 0xFF] 0x14 s) as (t & E & Hv1 & He1 & Hdi1 & Hm1); try done.
  assert (server_ok t) as Hok1 by (eapply view_ok; [apply Hok | done]). rewrite E.
  assert (u_diag_id t <> UDS_CAN_ID_PHY) as Hdi2 by congruence.
  destruct (negative_response_run 0x14 NRC_RequestCorrectlyReceivedResponsePending t Hok1 Hdi2)
    as (t2 & En & Hc2 & Hsu2 & He2).
  pose proof (keeps_memory_negative _ _ _ _ _ _ En) as Hm2. unfold same in Hm2. rewrite Hm1 in Hm2.
  assert (diag_ok t2) as Hdo2 by (by eapply diag_ok_memory).
  set (pdu := [0x14; 0xFF; 0xFF; 0xFF]).
  assert (nrc uds_server_ptr pdu NRC_RequestCorrectlyReceivedResponsePending t = Some (tt, t2)) as En' by exact En.
  set (rows := map (fun r => with_counter r 0) (u_diag t2)).
  set (t3 := {| t2 with u_diag := rows; u_diag_buf := replicate 1024 0;
                        u_events := u_events t2 ++ [EvSaveDiag (replicate 1024 0)] |}).
  destruct (respond_run 1 [0x54] 0x54 t3) as (s' & Er & _ & _ & Hev);
    [by eapply server_ok_core | lia | by vm_compute | done | done |].
  exists s'. change (service 0x14 uds_server_ptr pdu (len pdu) t) with (UDS_SRV_ClearDTC uds_server_ptr pdu 4 t).
  assert (UDS_SRV_ClearDTC uds_server_ptr pdu 4 t = Some (tt, s')) as ->.
  { unfold UDS_SRV_ClearDTC. change (4 =? 4) with true. cbv iota.
    rewrite (st_bind_run (pdu_at pdu 1) _ t 0xFF t), (st_bind_run (pdu_at pdu 2) _ t 0xFF t),
      (st_bind_run (pdu_at pdu 3) _ t 0xFF t) by done.
    change (0xFFFFFF =? _) with true. cbv iota. rewrite (st_bind_run _ _ _ _ _ En').
    assert (uds_diag_dtc_clear t2 = Some (tt, t3)) as Ec by done. rewrite (st_bind_run _ _ _ _ _ Ec).
    by rewrite (st_bind_run (pos_sid pdu) _ t3 0x54 t3) by done. }
  split; [done |]. pose proof (keeps_memory_respond _ _ _ _ _ _ Er) as Hm3. unfold same in Hm3.
  assert (memory s' = (rows, replicate 1024 0)) as Hm by (by rewrite Hm3).
  pose proof (f_equal fst Hm : u_diag s' = rows) as Hr.
  pose proof (f_equal snd Hm : u_diag_buf s' = replicate 1024 0) as Hb.
  assert (forall i r, u_diag s' !! i = Some r -> exists x, u_diag t2 !! i = Some x /\ r = with_counter x 0) as Hrows.
  { intros i r. rewrite Hr. unfold rows. change (map ?g ?l) with (g <$> l).
    intros Hx. apply list_lookup_fmap_Some in Hx as (x & -> & Hx). by exists x. }
  assert (forall l off, laid_out off (map (fun r => with_counter r 0) l) <-> laid_out off l) as Hlay.
  { induction l as [|x l IH]; intros off; [done |]. cbn [map laid_out]. by rewrite IH. }
  assert (forall l off, rows_end off (map (fun r => with_counter r 0) l) = rows_end off l) as Hend.
  { induction l as [|x l IH]; intros off; [done |]. cbn [map rows_end]. by rewrite IH. }
  assert (diag_ok s') as Hdo3.
  { split; rewrite ?Hb, ?Hr.
    - unfold rows. rewrite length_map. apply Hdo2.
    - unfold rows. apply Hlay, Hdo2.
    - done.
    - unfold rows. rewrite Hend. apply Hdo2.
    - apply Forall_replicate. by vm_compute.
    - rewrite <- Hr. intros i r Hi. destruct (Hrows _ _ Hi) as (x & Hx & ->).
      pose proof (do_counter _ Hdo2 _ _ Hx). cbn. lia.
    - rewrite <- Hr. intros i r Hi. destruct (Hrows _ _ Hi) as (x & Hx & ->). by apply (do_freeze _ Hdo2 _ _ Hx). }
  split; [done |]. split.
  - intros i r Hi. destruct (row_region _ _ _ Hdo3 Hi) as (_ & H0 & H4).
    destruct (Hrows _ _ Hi) as (x & _ & ->). unfold row_status. cbn [di_counter with_counter]. f_equal.
    apply negb_false_iff, Z.eqb_eq. unfold row_conf. rewrite Hb in *.
    unfold get_le32, get_le16. set (off := di_offset _) in *. change (len (replicate 1024 0)) with 1024 in H4.
    rewrite !mem_get_lookup by lia. rewrite !lookup_replicate_2 by lia. done.
  - rewrite Hev. cbn [u_events u_suppress t3]. rewrite Hsu2, He2, He1. by rewrite <- !app_assoc.
Qed.

End env.

(** ** Witnesses *)

#[local] Existing Instance demo_env.

Lemma keeps_view_diag_init : keeps (fun s => (view s, u_diag_id s, u_dtc_switch s)) (uds_diag_init None).
Proof. unfold uds_diag_init, set_diag_buf. steps_tac. Qed.

(** The initialised stack with its fault memory. *)
Lemma demo_diag :
  exists s, run_ok s /\ diag_ok s /\ u_session s = SESSION_TYPE_DEFAULT /\ u_suppress s = 0 /\ u_diag_id s = 0 /\
    u_dtc_switch s = 1.
Proof.
  destruct (diag_init_step uds_boot eq_refl) as (s & E & Hok & _). exists s.
  pose proof (keeps_view_diag_init _ _ _ E) as Hv. unfold same in Hv.
  apply pair_equal_spec in Hv as [Hv Hsw]. apply pair_equal_spec in Hv as [Hv Hd].
  split; [by eapply run_ok_view; [exact uds_boot_ok |] |]. split; [done |].
  split; [exact (f_equal (fun v => fst (fst (fst (fst v)))) Hv) |].
  split; [exact (f_equal (fun v => snd (fst v)) Hv) |]. by split.
Qed.

Lemma uds_diag_init_layout_witness : exists s', uds_diag_init None uds_boot = Some (0, s') /\ diag_ok s'.
Proof. destruct (uds_diag_init_layout uds_boot eq_refl) as (s' & E & Hok & _). by exists s'. Defined.

Lemma uds_diag_round_witness : exists s s', diag_ok s /\ uds_diag_all_devices s = Some (tt, s') /\ diag_ok s'.
Proof.
  destruct demo_diag as (s & _ & Hok & _). destruct (uds_diag_round s Hok) as (s' & E & Hok' & _).
  by exists s, s'.
Defined.

(** A device that always reports a fault. *)
Definition faulty_env : UdsEnv := {|
  env_time := env_time; env_tukey := env_tukey; env_rand := env_rand; env_stack_byte := 0;
  env_fault := fun _ _ => 1; env_did_get := env_did_get; env_did_set := env_did_set;
  env_tl_send := scom_tl_uds_send; env_fuel := 10 |}.

Lemma uds_diag_fault_confirms_witness :
  exists s s' r', diag_ok s /\ diagnose (H := faulty_env) 50 0 s = Some (tt, s') /\
    u_diag s' !! 0%nat = Some r' /\ row_status s' r' = (45, true).
Proof.
  destruct (diag_init_step uds_boot eq_refl) as (s & E & Hok & _ & Hb).
  destruct (lookup_lt_is_Some_2 (u_diag s) 0) as [r Hr]; [rewrite (do_rows _ Hok); unfold DIAG_ITEM_NUM; lia |].
  exists s. assert (row_status s r = (0, false) /\ di_thsd r = 45) as [Hst Ht].
  { vm_compute in E. injection E as <-. cbn in Hr. injection Hr as <-. done. }
  destruct (uds_diag_fault_confirms (H := faulty_env) 50 0 s r ltac:(done) Hok Hr Hst) as (s' & r' & E' & _ & Hr' & Hst').
  exists s', r'. split; [done |]. split; [exact E' |]. split; [done |]. by rewrite Hst', Ht.
Defined.

Lemma uds_read_dtc_by_mask_witness :
  exists s s1, diag_ok s /\ uds_main_step (ind_msg UDS_CAN_ID_FUN [0x19; 0x02; 0x09]) s = Some (tt, s1) /\ memory s1 = memory s.
Proof.
  destruct demo_diag as (s & Hr & Hok & Hs & Hsu & Hd & _).
  destruct (uds_read_dtc_by_mask UDS_CAN_ID_FUN 0x09 s) as (s1 & s2 & E & Hm & _);
    [by left | done | done | by vm_compute | by rewrite Hs | done |].
  by exists s, s1.
Defined.

Lemma uds_clear_dtc_witness :
  exists s s', diag_ok s /\ uds_main_step (ind_msg UDS_CAN_ID_PHY [0x14; 0xFF; 0xFF; 0xFF]) s = Some (tt, s') /\ diag_ok s'.
Proof.
  destruct demo_diag as (s & Hr & Hok & Hs & Hsu & Hd & _).
  destruct (uds_clear_dtc UDS_CAN_ID_PHY s) as (s' & E & Hok' & _);
    [by right | done | done | by rewrite Hs | done | by rewrite Hd |].
  by exists s, s'.
Defined.
