(* ===== verification/Pm.v ===== *)
(** * Power manager

    The state machine of src/app/base/pm: the register table and the wakeup
    checks (pm_ctl.c), the event table with its handlers (pm_state.c), the votes,
    the mode and the messages of the thread (pm_main.c).  What a handler does
    outside of the module is logged as a list of actions; what it reads from its
    environment while it handles one message is a [PM_ENV]. *)

From S2P Require Import Prelude.

(** ** Constants *)

Definition MPU_MID_AT : Z := 0x0400.
Definition MPU_MID_PM : Z := 0x0800.
Definition MPU_MID_MID_PWDG : Z := 0x3f06.
Definition AT_MSG_ID_RING : Z := MPU_MID_AT + 4.

Definition PM_MSG_OFF : Z := MPU_MID_PM.
Definition PM_MSG_SLEEP : Z := MPU_MID_PM + 1.
Definition PM_MSG_EMERGENCY : Z := MPU_MID_PM + 2.
Definition PM_MSG_RUNNING : Z := MPU_MID_PM + 3.
Definition PM_MSG_RTC_WAKEUP : Z := MPU_MID_PM + 4.
Definition PM_MSG_ID_EVT : Z := MPU_MID_PM + 5.
Definition PM_MSG_ID_CHECK_TIMER : Z := MPU_MID_PM + 6.
Definition PM_MSG_ID_RTC_TIMER : Z := MPU_MID_PM + 7.
Definition PM_MSG_ID_FOTA_UPDATE : Z := MPU_MID_PM + 8.

Definition PM_INVALID_PARA : Z := Z.lor (Z.shiftl MPU_MID_PM 16) 1.
Definition PM_TABLE_OVERFLOW : Z := PM_INVALID_PARA + 2.

Definition PM_RUNNING_MODE : Z := 0.
Definition PM_EMERGENCY_MODE : Z := 1.
Definition PM_LISTEN_MODE : Z := 2.
Definition PM_SLEEP_MODE : Z := 3.
Definition PM_DEEP_SLEEP_MODE : Z := 4.
Definition PM_OFF_MODE : Z := 5.

Definition PM_EVT_RING : Z := 0.
Definition PM_EVT_RTC : Z := 1.
Definition PM_EVT_RUNNING : Z := 2.
Definition PM_EVT_TIMEOUT : Z := 3.
Definition PM_EVT_EMERGENCY : Z := 4.
Definition PM_EVT_POWER_OFF : Z := 5.
Definition PM_EVT_SLEEP_REQ : Z := 6.
Definition PM_EVT_RESTART_APP_REQ : Z := 7.
Definition PM_EVT_RESTART_4G_REQ : Z := 8.
Definition PM_EVT_FOTA_UPDATE_REQ : Z := 9.
Definition PM_EVT_NUM : Z := 10.

Definition FOTA_ING : Z := 1.
Definition FOTA_OK : Z := 2.
Definition FOTA_ERROR : Z := 3.

Definition PM_MAX_REG_ITEM_NUM : Z := 16.

(** ** Data *)

Inductive PM_STATE :=
| PM_ST_NORMAL | PM_ST_MCK_SLEEP | PM_ST_MCK_POWER_OFF | PM_ST_MCK_EMERGENCY
| PM_ST_SLEEP | PM_ST_MCK_RESTART_APP | PM_ST_MCK_RESTART_4G | PM_ST_MCK_FOTA_UPDATE.

#[export] Instance PM_STATE_eq_dec : EqDecision PM_STATE.
Proof. solve_decision. Defined.

Definition state_index (st : PM_STATE) : Z :=
  match st with
  | PM_ST_NORMAL => 0 | PM_ST_MCK_SLEEP => 1 | PM_ST_MCK_POWER_OFF => 2
  | PM_ST_MCK_EMERGENCY => 3 | PM_ST_SLEEP => 4 | PM_ST_MCK_RESTART_APP => 5
  | PM_ST_MCK_RESTART_4G => 6 | PM_ST_MCK_FOTA_UPDATE => 7
  end.

(** [PM_REG_ITEM]; [handler] is the address of a function, [0] the null pointer. *)
Record PM_REG_ITEM := { mid : Z; handler : Z }.

Record PM_REG_TBL := { used_num : Z; pmtbl : list PM_REG_ITEM }.

(** What the handlers do outside of the module. *)
Inductive GPIO := GPIO_EN5_CTRL | GPIO_WAKEUP_MCU | GPIO_BT_RST.

#[export] Instance GPIO_eq_dec : EqDecision GPIO.
Proof. solve_decision. Defined.

Inductive PM_ACT :=
| ActGpio (pin : GPIO) (level : Z)        (* gpio_set_level *)
| ActForbidInd (v : Z)                    (* QL_NW_ForbidInd *)
| ActWakeLock (locked : bool)             (* Ql_SLP_WakeLock_Lock, _Unlock *)
| ActSend (receiver msgid : Z)            (* tcom_send_msg of an empty message *)
| ActPost (evt : Z)                       (* tcom_send_msg of an event to the module *)
| ActAppSleep (v : Z)                     (* st_set(ST_ITEM_APP_SLEEP) *)
| ActRtcStop                              (* tm_stop(pm_rtc_data_timer) *)
| ActRtcStart (ms : Z)                    (* tm_start(pm_rtc_data_timer) *)
| ActPowerdown                            (* Ql_Powerdown *)
| ActKillApp                              (* system *)
| ActUpgIdle                              (* upg_set_status *)
| ActRemoveCache                          (* dir_remove_path of the cache *)
| ActRemoveUpg                            (* dir_remove_path of the upgrade directory *)
| ActScomSleepReq                         (* scom_tl_send_frame of a sleep request *)
| ActFeed.                                (* pwdg_feed *)

#[export] Instance PM_ACT_eq_dec : EqDecision PM_ACT.
Proof. solve_decision. Defined.

(** The static variables of the module. *)
Record PM := {
  pm_state : PM_STATE;
  pm_ring_status : Z;
  pm_mode : Z;
  pm_regtbl : PM_REG_TBL;
  pm_check_cnt : Z;            (* of pm_st_s0e3 *)
  cnt_app : Z;                 (* cnt of pm_st_s5e3 *)
  cnt_4g : Z;                  (* cnt of pm_st_s6e3 *)
  cnt_fota : Z;                (* cnt of pm_st_s7e3 *)
  error_cnt : Z;               (* of pm_st_s7e3 *)
  acts : list PM_ACT           (* what was done, oldest first *)
}.

(** The environment during one message: the results of [file_read] and the byte
    read from the two files of the kernel, the answers of the registered
    handlers, the results of sending to the row [i] of the table and to other
    modules, of [st_get], of the configured wakeup time, of the sockets, of the
    update status and of [dir_exists]. *)
Record PM_ENV := {
  e_usb : Z * Z; e_mcu : Z * Z;
  e_ready : Z -> Z -> Z;
  e_send : Z -> Z; e_send_at : Z; e_post : Z;
  e_mode : Z * Z; e_rtc : Z; e_sock : Z; e_fota : Z; e_cache : bool
}.

Abbreviation PMM := (ST PM).

(** ** Elementary updates *)

Definition act (a : PM_ACT) : PMM unit := st_mod (fun s => {| s with acts := acts s ++ [a] |}).
Definition pm_set_state (st : PM_STATE) : PMM unit := st_mod (fun s => {| s with pm_state := st |}).
Definition pm_get_state : PMM PM_STATE := st_gets pm_state.
Definition set_ring (v : Z) : PMM unit := st_mod (fun s => {| s with pm_ring_status := v |}).
Definition set_mode (v : Z) : PMM unit := st_mod (fun s => {| s with pm_mode := v |}).
Definition set_check_cnt (v : Z) : PMM unit := st_mod (fun s => {| s with pm_check_cnt := v |}).
Definition set_cnt_app (v : Z) : PMM unit := st_mod (fun s => {| s with cnt_app := v |}).
Definition set_cnt_4g (v : Z) : PMM unit := st_mod (fun s => {| s with cnt_4g := v |}).
Definition set_cnt_fota (v : Z) : PMM unit := st_mod (fun s => {| s with cnt_fota := v |}).
Definition set_error_cnt (v : Z) : PMM unit := st_mod (fun s => {| s with error_cnt := v |}).

(** [++] of an [int]: overflow is undefined. *)
Definition int_incr (v : Z) : option Z := if v <? 2 ^ 31 - 1 then Some (v + 1) else None.

(** ** pm_ctl.c *)

Definition PM_REG_TBL_init : PM_REG_TBL :=
  {| used_num := 0; pmtbl := replicate (Z.to_nat PM_MAX_REG_ITEM_NUM) {| mid := 0; handler := 0 |} |}.

Definition pm_init_para : PMM unit := st_mod (fun s => {| s with pm_regtbl := PM_REG_TBL_init |}).

Definition pm_reg_handler (m h : Z) : PMM Z :=
  if h =? 0 then mret PM_INVALID_PARA
  else
    t ← st_gets pm_regtbl;
    if PM_MAX_REG_ITEM_NUM <=? used_num t then mret PM_TABLE_OVERFLOW
    else
      rows ← st_lift (mem_set (pmtbl t) (used_num t) {| mid := m; handler := h |});
      st_mod (fun s => {| s with pm_regtbl := {| used_num := u16 (used_num t + 1); pmtbl := rows |} |});;
      mret 0.

(** The byte of a file of the kernel: ['1'] is a low voltage. *)
Definition wakeup_file (r : Z * Z) : Z :=
  if negb (fst r =? 0) then -1
  else if snd r =? 49 then 0
  else if snd r =? 48 then 1
  else -1.

Section env.
Context (env : PM_ENV).

Definition pm_usb_wakeup_check : Z := wakeup_file (e_usb env).
Definition pm_mcu_wakeup_check : Z := wakeup_file (e_mcu env).

(** The [for] loop of [pm_notify_moudle], [n] rows from row [i] on. *)
Fixpoint notify_loop (n : nat) (i msgid : Z) : PMM Z :=
  match n with
  | O => mret 0
  | S n =>
      t ← st_gets pm_regtbl;
      row ← st_lift (mem_get (pmtbl t) i);
      act (ActSend (mid row) msgid);;
      if negb (e_send env i =? 0) then mret (e_send env i)
      else notify_loop n (i + 1) msgid
  end.

Definition pm_notify_moudle (msgid : Z) : PMM Z :=
  t ← st_gets pm_regtbl; notify_loop (Z.to_nat (used_num t)) 0 msgid.

(** The number of the first [n] rows from [i] on that answer [1]. *)
Fixpoint ready_loop (n : nat) (rows : list PM_REG_ITEM) (i id : Z) : option Z :=
  match n with
  | O => Some 0
  | S n =>
      row ← mem_get rows i;
      c ← ready_loop n rows (i + 1) id;
      Some (if e_ready env (handler row) id =? 1 then 1 + c else c)
  end.

Definition pm_is_sleep_ready (id : Z) : PMM Z :=
  t ← st_gets pm_regtbl;
  count ← st_lift (ready_loop (Z.to_nat (used_num t)) (pmtbl t) 0 id);
  mret (if count =? used_num t then 1 else 0).

(** ** pm_main.c: votes and mode *)

Definition pm_vote_oppose : PMM unit := act (ActForbidInd 0);; act (ActWakeLock true).

Definition pm_vote_agree : PMM unit :=
  act (ActGpio GPIO_BT_RST 0);; act (ActForbidInd 1);; act (ActWakeLock false).

Definition pm_get_mode : PMM Z := st_gets pm_mode.

Definition pm_send_evt (evt : Z) : PMM Z := act (ActPost evt);; mret (e_post env).

Definition pm_mode_proc (new_mode : Z) : PMM Z :=
  if (new_mode <? PM_RUNNING_MODE) || (PM_OFF_MODE <? new_mode) then mret (-1)
  else
    set_mode new_mode;;
    if new_mode =? PM_RUNNING_MODE then pm_send_evt PM_EVT_RUNNING;; mret 0
    else if new_mode =? PM_EMERGENCY_MODE then pm_send_evt PM_EVT_EMERGENCY;; mret 0
    else if new_mode =? PM_LISTEN_MODE then pm_send_evt PM_EVT_SLEEP_REQ;; mret 0
    else if (new_mode =? PM_SLEEP_MODE) || (new_mode =? PM_DEEP_SLEEP_MODE) || (new_mode =? PM_OFF_MODE)
    then pm_send_evt PM_EVT_POWER_OFF
    else mret PM_INVALID_PARA.

(** ** pm_state.c *)

Definition pm_init_state : PMM unit := pm_set_state PM_ST_NORMAL.

Definition pm_st_ignore : PMM unit := mret tt.

Definition pm_wakeup_low : PMM unit := act (ActGpio GPIO_WAKEUP_MCU 0);; set_ring 0.
Definition pm_wakeup_high : PMM unit := act (ActGpio GPIO_WAKEUP_MCU 1);; set_ring 1.

Definition pm_mcu_wakeup : PMM unit :=
  pm_vote_oppose;;
  pm_set_state PM_ST_NORMAL;;
  pm_notify_moudle PM_MSG_RUNNING;;
  act (ActAppSleep 0);;
  act (ActGpio GPIO_EN5_CTRL 1).

Definition pm_ring_wakeup : PMM unit :=
  st ← pm_get_state;
  if negb (bool_decide (st = PM_ST_NORMAL)) then
    pm_vote_oppose;;
    pm_set_state PM_ST_NORMAL;;
    pm_notify_moudle PM_MSG_RUNNING;;
    act (ActGpio GPIO_EN5_CTRL 1);;
    pm_wakeup_high
  else st_when (pm_mcu_wakeup_check =? 0) pm_wakeup_high.

Definition pm_rtc_wakeup : PMM unit :=
  pm_vote_oppose;; pm_notify_moudle PM_MSG_RTC_WAKEUP;; mret tt.

(** [is_allow |= pm_usb_wakeup_check(); is_allow |= pm_mcu_wakeup_check() << 1] *)
Definition wakeup_bits : Z :=
  Z.lor (Z.lor 0 pm_usb_wakeup_check) (Z.shiftl pm_mcu_wakeup_check 1).

Definition enter (st : PM_STATE) (msgid : Z) : PMM unit :=
  pm_set_state st;; pm_notify_moudle msgid;; mret tt.

Definition pm_st_s0e3 : PMM unit :=
  s ← st_get;
  if 1 <=? wakeup_bits then
    set_check_cnt 0;; st_when (negb (pm_ring_status s =? 0)) pm_wakeup_low
  else
    c ← st_lift (int_incr (pm_check_cnt s));
    set_check_cnt c;;
    if 10 <=? c then
      let '(ret, mode) := e_mode env in
      if negb (ret =? 0) then mret tt
      else
        (if (PM_SLEEP_MODE =? mode) || (PM_DEEP_SLEEP_MODE =? mode) || (PM_OFF_MODE =? mode)
         then enter PM_ST_MCK_POWER_OFF PM_MSG_OFF
         else enter PM_ST_MCK_SLEEP PM_MSG_SLEEP);;
        set_check_cnt 0
    else mret tt.

Definition pm_st_s0e4 : PMM unit := enter PM_ST_MCK_EMERGENCY PM_MSG_EMERGENCY.
Definition pm_st_s0e5 : PMM unit := enter PM_ST_MCK_POWER_OFF PM_MSG_OFF.
Definition pm_st_s0e6 : PMM unit := enter PM_ST_MCK_SLEEP PM_MSG_SLEEP.
Definition pm_st_s0e7 : PMM unit := enter PM_ST_MCK_RESTART_APP PM_MSG_OFF.
Definition pm_st_s0e8 : PMM unit := enter PM_ST_MCK_RESTART_4G PM_MSG_OFF.
Definition pm_st_s0e9 : PMM unit := enter PM_ST_MCK_FOTA_UPDATE PM_MSG_OFF.

Definition pm_st_s1e3 : PMM unit :=
  if 1 <=? wakeup_bits then pm_mcu_wakeup;; pm_wakeup_low
  else
    r ← pm_is_sleep_ready PM_MSG_SLEEP;
    s ← st_get;
    if (1 =? r) && (0 =? pm_ring_status s) then
      pm_set_state PM_ST_SLEEP;;
      st_when (negb (e_rtc env =? 0))
        (act ActRtcStop;; act (ActRtcStart (u32 (e_rtc env * 1000))));;
      pm_vote_agree
    else mret tt.

Definition pm_st_s1e4 : PMM unit := enter PM_ST_MCK_EMERGENCY PM_MSG_EMERGENCY.

Definition off_bits (mode : Z) : Z :=
  let b := if negb (PM_OFF_MODE =? mode) && negb (PM_DEEP_SLEEP_MODE =? mode)
           then Z.lor 0 pm_usb_wakeup_check else 0 in
  Z.lor b (Z.shiftl pm_mcu_wakeup_check 1).

Definition pm_st_s2e3 : PMM unit :=
  mode ← pm_get_mode;
  if 1 <=? off_bits mode then pm_mcu_wakeup;; pm_wakeup_low
  else
    r ← pm_is_sleep_ready PM_MSG_OFF;
    s ← st_get;
    if (1 =? r) && (0 =? pm_ring_status s) then act ActPowerdown else mret tt.

Definition pm_st_s3e3 : PMM unit :=
  pm_wakeup_low;;
  r ← pm_is_sleep_ready PM_MSG_EMERGENCY;
  st_when (1 =? r) (act (ActAppSleep 1)).

Definition pm_st_s3e5 : PMM unit := enter PM_ST_MCK_POWER_OFF PM_MSG_OFF.

Definition pm_st_s4e1 : PMM unit := pm_rtc_wakeup;; pm_set_state PM_ST_MCK_SLEEP.

Definition pm_st_s4e3 : PMM unit :=
  if 1 <=? wakeup_bits then pm_mcu_wakeup;; pm_wakeup_low
  else st_when (0 <=? e_sock env) pm_ring_wakeup.

Definition pm_st_s5e3 : PMM unit :=
  r ← pm_is_sleep_ready PM_MSG_OFF;
  s ← st_get;
  if (1 =? r) || (5 <? cnt_app s) then act ActKillApp
  else c ← st_lift (int_incr (cnt_app s)); set_cnt_app c.

Definition pm_st_s6e3 : PMM unit :=
  r ← pm_is_sleep_ready PM_MSG_OFF;
  s ← st_get;
  if (1 =? r) || (5 <? cnt_4g s) then act ActPowerdown
  else c ← st_lift (int_incr (cnt_4g s)); set_cnt_4g c.

(** The end of the wait: the cache is removed and the AT module told to start. *)
Definition fota_start : PMM unit :=
  st_when (e_cache env) (act ActRemoveCache);;
  act (ActSend MPU_MID_AT PM_MSG_ID_FOTA_UPDATE).

(** The update failed too often. *)
Definition fota_stop : PMM unit :=
  act ActUpgIdle;;
  set_error_cnt 0;;
  enter PM_ST_NORMAL PM_MSG_RUNNING;;
  st_when (e_cache env) (act ActRemoveCache);;
  act ActRemoveUpg.

Definition pm_st_s7e3 : PMM unit :=
  r ← pm_is_sleep_ready PM_MSG_OFF;
  s ← st_get;
  is_allow ←
    (if 1 =? r then mret true
     else c ← st_lift (int_incr (cnt_fota s)); set_cnt_fota c;; mret (10 <? c));
  if (FOTA_OK =? e_fota env) || (FOTA_ING =? e_fota env) then mret tt
  else if FOTA_ERROR =? e_fota env then
    c ← st_lift (int_incr (error_cnt s));
    set_error_cnt c;;
    if 3 <? c then fota_stop else st_when is_allow fota_start
  else st_when is_allow fota_start.

(** The columns are the events, the rows the states. *)
Definition state_tbl : list (list (PMM unit)) :=
  [[pm_ring_wakeup; pm_st_ignore; pm_st_ignore; pm_st_s0e3; pm_st_s0e4;
    pm_st_s0e5; pm_st_s0e6; pm_st_s0e7; pm_st_s0e8; pm_st_s0e9];
   [pm_ring_wakeup; pm_rtc_wakeup; pm_mcu_wakeup; pm_st_s1e3; pm_st_s1e4;
    pm_st_ignore; pm_st_ignore; pm_st_ignore; pm_st_ignore; pm_st_ignore];
   [pm_ring_wakeup; pm_st_ignore; pm_mcu_wakeup; pm_st_s2e3; pm_st_ignore;
    pm_st_ignore; pm_st_ignore; pm_st_ignore; pm_st_ignore; pm_st_ignore];
   [pm_st_ignore; pm_st_ignore; pm_mcu_wakeup; pm_st_s3e3; pm_st_ignore;
    pm_st_s3e5; pm_st_ignore; pm_st_ignore; pm_st_ignore; pm_st_ignore];
   [pm_ring_wakeup; pm_st_s4e1; pm_st_ignore; pm_st_s4e3; pm_st_ignore;
    pm_st_ignore; pm_st_ignore; pm_st_ignore; pm_st_ignore; pm_st_ignore];
   [pm_st_ignore; pm_st_ignore; pm_st_ignore; pm_st_s5e3; pm_st_ignore;
    pm_st_ignore; pm_st_ignore; pm_st_ignore; pm_st_ignore; pm_st_ignore];
   [pm_st_ignore; pm_st_ignore; pm_st_ignore; pm_st_s6e3; pm_st_ignore;
    pm_st_ignore; pm_st_ignore; pm_st_ignore; pm_st_ignore; pm_st_ignore];
   [pm_st_ignore; pm_st_ignore; pm_st_ignore; pm_st_s7e3; pm_st_ignore;
    pm_st_ignore; pm_st_ignore; pm_st_ignore; pm_st_ignore; pm_st_ignore]].

Definition pm_evt_proc (evt : Z) : PMM unit :=
  if (PM_EVT_NUM <=? evt) || (evt <? PM_EVT_RING) then mret tt
  else
    st ← pm_get_state;
    row ← st_lift (mem_get state_tbl (state_index st));
    f ← st_lift (mem_get row evt);
    f.

(** ** The thread *)

(** A message of the module with the first four bytes of its buffer, read as an
    event; the shell and the status module call the others. *)
Inductive PM_MSG :=
| PmMsg (msgid evt : Z)                   (* tcom_recv_msg *)
| PmNetlink (re_modem : bool)             (* netlink_recv *)
| PmMode (new_mode : Z)                   (* pm_mode_proc, called by st_set *)
| PmReg (m h : Z)                         (* pm_reg_handler *)
| PmRestart (app : option bool)           (* pm_restart: 4g, app or neither *)
| PmShutdown                              (* pm_shutdown *)
| PmKill.                                 (* pm_kill_handler *)

Definition pm_main_msg (msgid evt : Z) : PMM unit :=
  if AT_MSG_ID_RING =? msgid then pm_send_evt PM_EVT_RING;; mret tt
  else if PM_MSG_ID_EVT =? msgid then pm_evt_proc evt
  else if PM_MSG_ID_RTC_TIMER =? msgid then pm_send_evt PM_EVT_RTC;; mret tt
  else if PM_MSG_ID_CHECK_TIMER =? msgid then pm_evt_proc PM_EVT_TIMEOUT
  else if MPU_MID_MID_PWDG =? msgid then act ActFeed
  else mret tt.

Definition pm_restart (app : option bool) : PMM Z :=
  match app with
  | Some true => pm_send_evt PM_EVT_RESTART_APP_REQ;; mret 0
  | Some false => pm_send_evt PM_EVT_RESTART_4G_REQ;; mret 0
  | None => mret 0
  end.

Definition pm_shutdown : PMM Z := act ActScomSleepReq;; pm_send_evt PM_EVT_SLEEP_REQ.

Definition pm_main_step (m : PM_MSG) : PMM unit :=
  match m with
  | PmMsg msgid evt => pm_main_msg msgid evt
  | PmNetlink re_modem => st_when re_modem (pm_send_evt PM_EVT_RESTART_4G_REQ;; mret tt)
  | PmMode new_mode => pm_mode_proc new_mode;; mret tt
  | PmReg m h => pm_reg_handler m h;; mret tt
  | PmRestart app => pm_restart app;; mret tt
  | PmShutdown => pm_shutdown;; mret tt
  | PmKill => pm_send_evt PM_EVT_RESTART_APP_REQ;; mret tt
  end.

End env.

(** The zero-initialised statics, [pm_init] and the start of [pm_main], which
    opposes the sleep. *)
Definition pm_statics : PM :=
  {| pm_state := PM_ST_NORMAL; pm_ring_status := 0; pm_mode := PM_RUNNING_MODE;
     pm_regtbl := PM_REG_TBL_init; pm_check_cnt := 0; cnt_app := 0; cnt_4g := 0;
     cnt_fota := 0; error_cnt := 0; acts := [] |}.

Definition pm_boot : PMM unit := pm_init_para;; pm_init_state;; pm_vote_oppose.

(** A run: every message comes with what the environment answers. *)
Inductive pm_run : PM -> PM -> Prop :=
| pm_run_refl s : pm_run s s
| pm_run_step s1 s2 s3 env m :
    pm_run s1 s2 -> pm_main_step env m s2 = Some (tt, s3) -> pm_run s1 s3.

(** ** What the rest of the device sees

    The wake lock, the wakeup pin of the micro controller, power down, the
    restart of the application and the start of an update. *)
Definition is_visible (a : PM_ACT) : bool :=
  match a with
  | ActWakeLock _ | ActPowerdown | ActKillApp => true
  | ActGpio GPIO_WAKEUP_MCU _ => true
  | ActSend _ id => id =? PM_MSG_ID_FOTA_UPDATE
  | _ => false
  end.

Definition visible (l : list PM_ACT) : list PM_ACT := List.filter is_visible l.

(** The last vote and the last level of the pin. *)
Definition locked (l : list PM_ACT) : bool :=
  fold_left (fun v a => match a with ActWakeLock b => b | _ => v end) l true.
Definition pin (l : list PM_ACT) : Z :=
  fold_left (fun v a => match a with ActGpio GPIO_WAKEUP_MCU b => b | _ => v end) l 0.

Arguments locked : simpl never.
Arguments pin : simpl never.

Definition rows (s : PM) : list PM_REG_ITEM :=
  take (Z.to_nat (used_num (pm_regtbl s))) (pmtbl (pm_regtbl s)).

Record tbl_ok (t : PM_REG_TBL) : Prop := {
  tbl_len : len (pmtbl t) = PM_MAX_REG_ITEM_NUM;
  tbl_used : 0 <= used_num t <= PM_MAX_REG_ITEM_NUM;
  tbl_handlers : Forall (fun r => handler r <> 0) (take (Z.to_nat (used_num t)) (pmtbl t))
}.

(** The wake lock is released exactly in the state [PM_ST_SLEEP], and the pin has
    the level of the ring status. *)
Record wf (s : PM) : Prop := {
  wf_tbl : tbl_ok (pm_regtbl s);
  wf_lock : locked (visible (acts s)) = negb (bool_decide (pm_state s = PM_ST_SLEEP));
  wf_pin : pin (visible (acts s)) = pm_ring_status s;
  wf_ring : pm_ring_status s = 0 \/ pm_ring_status s = 1;
  wf_sleep : pm_state s = PM_ST_SLEEP -> pm_ring_status s = 0;
  wf_mode : PM_RUNNING_MODE <= pm_mode s <= PM_OFF_MODE;
  wf_check : 0 <= pm_check_cnt s;
  wf_app : 0 <= cnt_app s <= 6;
  wf_4g : 0 <= cnt_4g s <= 6;
  wf_fota : 0 <= cnt_fota s;
  wf_error : 0 <= error_cnt s <= 3
}.

(** The two counters without a bound are not at the end of [int]. *)
Definition counters_fit (s : PM) : Prop := pm_check_cnt s < 2 ^ 31 - 1 /\ cnt_fota s < 2 ^ 31 - 1.

(** ** The power states, as a specification

    The next state and the visible actions of an event.  [wakeup_seen]: both
    files could be read and one of them reports a high voltage. *)
Section spec.
Context (env : PM_ENV).

Definition wakeup_seen : bool :=
  let usb := pm_usb_wakeup_check env in let mcu := pm_mcu_wakeup_check env in
  negb (usb =? -1) && negb (mcu =? -1) && ((usb =? 1) || (mcu =? 1)).

Definition all_ready (s : PM) (id : Z) : bool :=
  forallb (fun r => e_ready env (handler r) id =? 1) (rows s).

Definition PM_OUT : Type := PM_STATE * list PM_ACT.
Definition woken (level : Z) : PM_OUT :=
  (PM_ST_NORMAL, [ActWakeLock true; ActGpio GPIO_WAKEUP_MCU level]).

Definition spec_ring (s : PM) : PM_OUT :=
  match pm_state s with
  | PM_ST_NORMAL => (PM_ST_NORMAL, if pm_mcu_wakeup_check env =? 0 then [ActGpio GPIO_WAKEUP_MCU 1] else [])
  | PM_ST_MCK_SLEEP | PM_ST_MCK_POWER_OFF | PM_ST_SLEEP => woken 1
  | st => (st, [])
  end.

Definition spec_rtc (s : PM) : PM_OUT :=
  match pm_state s with
  | PM_ST_MCK_SLEEP | PM_ST_SLEEP => (PM_ST_MCK_SLEEP, [ActWakeLock true])
  | st => (st, [])
  end.

Definition spec_running (s : PM) : PM_OUT :=
  match pm_state s with
  | PM_ST_MCK_SLEEP | PM_ST_MCK_POWER_OFF | PM_ST_MCK_EMERGENCY => (PM_ST_NORMAL, [ActWakeLock true])
  | st => (st, [])
  end.

Definition spec_normal_timeout (s : PM) : PM_OUT :=
  if wakeup_seen then
    (PM_ST_NORMAL, if pm_ring_status s =? 0 then [] else [ActGpio GPIO_WAKEUP_MCU 0])
  else if pm_check_cnt s <? 9 then (PM_ST_NORMAL, [])
  else if negb (fst (e_mode env) =? 0) then (PM_ST_NORMAL, [])
  else if (PM_SLEEP_MODE =? snd (e_mode env)) || (PM_DEEP_SLEEP_MODE =? snd (e_mode env))
    || (PM_OFF_MODE =? snd (e_mode env))
  then (PM_ST_MCK_POWER_OFF, [])
  else (PM_ST_MCK_SLEEP, []).

(** Without power from the vehicle the USB voltage does not keep the box on. *)
Definition off_prevented (s : PM) : bool :=
  if (PM_OFF_MODE =? pm_mode s) || (PM_DEEP_SLEEP_MODE =? pm_mode s)
  then pm_mcu_wakeup_check env =? 1 else wakeup_seen.

Definition fota_allowed (s : PM) : bool := all_ready s PM_MSG_OFF || (10 <=? cnt_fota s).

Definition spec_fota_timeout (s : PM) : PM_OUT :=
  if (FOTA_OK =? e_fota env) || (FOTA_ING =? e_fota env) then (PM_ST_MCK_FOTA_UPDATE, [])
  else if (FOTA_ERROR =? e_fota env) && (error_cnt s =? 3) then (PM_ST_NORMAL, [])
  else (PM_ST_MCK_FOTA_UPDATE,
        if fota_allowed s then [ActSend MPU_MID_AT PM_MSG_ID_FOTA_UPDATE] else []).

Definition spec_timeout (s : PM) : PM_OUT :=
  match pm_state s with
  | PM_ST_NORMAL => spec_normal_timeout s
  | PM_ST_MCK_SLEEP =>
      if wakeup_seen then woken 0
      else if all_ready s PM_MSG_SLEEP && (pm_ring_status s =? 0) then (PM_ST_SLEEP, [ActWakeLock false])
      else (PM_ST_MCK_SLEEP, [])
  | PM_ST_MCK_POWER_OFF =>
      if off_prevented s then woken 0
      else (PM_ST_MCK_POWER_OFF,
            if all_ready s PM_MSG_OFF && (pm_ring_status s =? 0) then [ActPowerdown] else [])
  | PM_ST_MCK_EMERGENCY => (PM_ST_MCK_EMERGENCY, [ActGpio GPIO_WAKEUP_MCU 0])
  | PM_ST_SLEEP =>
      if wakeup_seen then woken 0
      else if 0 <=? e_sock env then woken 1 else (PM_ST_SLEEP, [])
  | PM_ST_MCK_RESTART_APP =>
      (PM_ST_MCK_RESTART_APP, if all_ready s PM_MSG_OFF || (cnt_app s =? 6) then [ActKillApp] else [])
  | PM_ST_MCK_RESTART_4G =>
      (PM_ST_MCK_RESTART_4G, if all_ready s PM_MSG_OFF || (cnt_4g s =? 6) then [ActPowerdown] else [])
  | PM_ST_MCK_FOTA_UPDATE => spec_fota_timeout s
  end.

(** A request leaves the states it is accepted in. *)
Definition spec_request (s : PM) (from : list PM_STATE) (to : PM_STATE) : PM_OUT :=
  (if bool_decide (pm_state s ∈ from) then to else pm_state s, []).

Definition spec_evt (s : PM) (evt : Z) : PM_OUT :=
  if evt =? PM_EVT_RING then spec_ring s
  else if evt =? PM_EVT_RTC then spec_rtc s
  else if evt =? PM_EVT_RUNNING then spec_running s
  else if evt =? PM_EVT_TIMEOUT then spec_timeout s
  else if evt =? PM_EVT_EMERGENCY then
    spec_request s [PM_ST_NORMAL; PM_ST_MCK_SLEEP] PM_ST_MCK_EMERGENCY
  else if evt =? PM_EVT_POWER_OFF then
    spec_request s [PM_ST_NORMAL; PM_ST_MCK_EMERGENCY] PM_ST_MCK_POWER_OFF
  else if evt =? PM_EVT_SLEEP_REQ then spec_request s [PM_ST_NORMAL] PM_ST_MCK_SLEEP
  else if evt =? PM_EVT_RESTART_APP_REQ then spec_request s [PM_ST_NORMAL] PM_ST_MCK_RESTART_APP
  else if evt =? PM_EVT_RESTART_4G_REQ then spec_request s [PM_ST_NORMAL] PM_ST_MCK_RESTART_4G
  else if evt =? PM_EVT_FOTA_UPDATE_REQ then spec_request s [PM_ST_NORMAL] PM_ST_MCK_FOTA_UPDATE
  else (pm_state s, []).

End spec.

(** ** The operations implement the specification *)

Lemma visible_app l k : visible (l ++ k) = visible l ++ visible k.
Proof. apply List.filter_app. Qed.

Lemma locked_app l k : locked (l ++ k) = fold_left (fun v a => match a with ActWakeLock b => b | _ => v end) k (locked l).
Proof. apply fold_left_app. Qed.

Lemma pin_app l k :
  pin (l ++ k) = fold_left (fun v a => match a with ActGpio GPIO_WAKEUP_MCU b => b | _ => v end) k (pin l).
Proof. apply fold_left_app. Qed.

Definition log (l : list PM_ACT) (s : PM) : PM := {| s with acts := acts s ++ l |}.

Lemma log_log l k s : log k (log l s) = log (l ++ k) s.
Proof. unfold log. cbn. by rewrite app_assoc. Qed.

Section proofs.
Context (env : PM_ENV).

Lemma tbl_get t i :
  tbl_ok t -> 0 <= i < used_num t -> exists r, mem_get (pmtbl t) i = Some r.
Proof. intros [L U _] Hi. apply mem_get_is_Some. lia. Qed.

Lemma notify_loop_run n : forall i msgid s,
  tbl_ok (pm_regtbl s) -> 0 <= i -> i + Z.of_nat n <= used_num (pm_regtbl s) ->
  msgid <> PM_MSG_ID_FOTA_UPDATE ->
  exists r l, notify_loop env n i msgid s = Some (r, log l s) /\ visible l = [].
Proof.
  induction n as [|n IH]; intros i msgid s Ht Hi Hn Hid.
  - exists 0, []. split; [| done]. unfold log. rewrite app_nil_r. by destruct s.
  - destruct (tbl_get (pm_regtbl s) i Ht ltac:(lia)) as [row E].
    cbn [notify_loop]. st_run. rewrite E. st_run. unfold act at 1. st_run.
    assert (visible [ActSend (mid row) msgid] = []) as V
      by (cbn; destruct (Z.eqb_spec msgid PM_MSG_ID_FOTA_UPDATE); done).
    destruct (negb _).
    + by exists (e_send env i), [ActSend (mid row) msgid].
    + destruct (IH (i + 1) msgid (log [ActSend (mid row) msgid] s)) as (r & l & E' & V');
        [done | lia | cbn; lia | done |].
      exists r, ([ActSend (mid row) msgid] ++ l). rewrite visible_app, V, V'. split; [| done].
      unfold log in *. cbn in *. rewrite E'. cbn. by rewrite <- !app_assoc.
Qed.

Lemma notify_run msgid s :
  tbl_ok (pm_regtbl s) -> msgid <> PM_MSG_ID_FOTA_UPDATE ->
  exists r l, pm_notify_moudle env msgid s = Some (r, log l s) /\ visible l = [].
Proof.
  intros Ht Hid. unfold pm_notify_moudle. st_run.
  apply notify_loop_run; [done | lia | | done]. destruct Ht. lia.
Qed.

Lemma ready_loop_run rows id n : forall i,
  0 <= i -> i + Z.of_nat n <= len rows ->
  exists c, ready_loop env n rows i id = Some c /\ 0 <= c <= Z.of_nat n /\
    (c = Z.of_nat n <->
     forallb (fun r => e_ready env (handler r) id =? 1) (take n (drop (Z.to_nat i) rows)) = true).
Proof.
  induction n as [|n IH]; intros i Hi Hn.
  - exists 0. repeat split; lia.
  - destruct (mem_get_is_Some rows i) as [r E]; [lia |].
    destruct (IH (i + 1)) as (c & Ec & Hc & Hiff); [lia | lia |].
    cbn [ready_loop]. rewrite E. cbn [mbind option_bind]. rewrite Ec. cbn [mbind option_bind].
    apply mem_get_Some in E as [_ E]. rewrite (drop_S _ _ _ E).
    replace (Z.to_nat (i + 1)) with (S (Z.to_nat i)) in Hiff by lia.
    cbn [take forallb]. destruct (_ =? 1).
    + eexists. split; [done |]. split; [lia |]. rewrite <- Hiff. lia.
    + eexists. split; [done |]. split; [lia |]. cbn. split; [lia | done].
Qed.

Lemma ready_run id s :
  tbl_ok (pm_regtbl s) ->
  pm_is_sleep_ready env id s = Some ((if all_ready env s id then 1 else 0), s).
Proof.
  intros Ht. unfold pm_is_sleep_ready. st_run.
  destruct Ht as [L U _].
  destruct (ready_loop_run (pmtbl (pm_regtbl s)) id (Z.to_nat (used_num (pm_regtbl s))) 0)
    as (c & E & Hc & Hiff); [lia | lia |].
  rewrite E. st_run. change (Z.to_nat 0) with 0%nat in Hiff. rewrite drop_0 in Hiff.
  fold (rows s) in Hiff. fold (all_ready env s id) in Hiff.
  destruct (all_ready env s id), (Z.eqb_spec c (used_num (pm_regtbl s))); try done; exfalso.
  - apply n. rewrite <- (Z2Nat.id (used_num _)) by lia. by apply Hiff.
  - enough (false = true) by done. apply Hiff. lia.
Qed.

Lemma check_values r : wakeup_file r = -1 \/ wakeup_file r = 0 \/ wakeup_file r = 1.
Proof. unfold wakeup_file. repeat case_match; auto. Qed.

Lemma wakeup_bits_seen : (1 <=? wakeup_bits env) = wakeup_seen env.
Proof.
  unfold wakeup_bits, wakeup_seen, pm_usb_wakeup_check, pm_mcu_wakeup_check.
  destruct (check_values (e_usb env)) as [-> | [-> | ->]],
    (check_values (e_mcu env)) as [-> | [-> | ->]]; done.
Qed.

Lemma off_bits_seen s :
  (1 <=? off_bits env (pm_mode s)) = off_prevented env s.
Proof.
  unfold off_bits, off_prevented, wakeup_seen, pm_usb_wakeup_check, pm_mcu_wakeup_check.
  destruct (PM_OFF_MODE =? pm_mode s), (PM_DEEP_SLEEP_MODE =? pm_mode s); cbn [negb andb orb];
    destruct (check_values (e_mcu env)) as [-> | [-> | ->]]; try done;
    destruct (check_values (e_usb env)) as [-> | [-> | ->]]; done.
Qed.

(** [m] has the outcome [o], unless a counter overflows. *)
Definition does (m : PMM unit) (s : PM) (o : PM_OUT) : Prop :=
  (m s = None /\ ~ counters_fit s) \/
  exists s', m s = Some (tt, s') /\ pm_state s' = fst o /\
    visible (acts s') = visible (acts s) ++ snd o /\ wf s'.

(** Runs a call of [pm_notify_moudle]. *)
Ltac pm_notify :=
  match goal with
  | |- context [mbind _ (pm_notify_moudle env ?id) ?t] =>
      let r := fresh "r" in let l := fresh "l" in let E := fresh "E" in let V := fresh "V" in
      destruct (notify_run id t) as (r & l & E & V); [assumption | done |];
      rewrite (st_bind_run _ _ _ _ _ E); clear E; unfold log;
      cbn [pm_state pm_ring_status pm_mode pm_regtbl pm_check_cnt cnt_app cnt_4g cnt_fota error_cnt acts]
  end.

Ltac pm_ready :=
  match goal with
  | |- context [mbind _ (pm_is_sleep_ready env ?id) ?t] =>
      rewrite (st_bind_run _ _ _ _ _ (ready_run id t ltac:(assumption)))
  end.

Ltac pm_prep := unfold does, enter, pm_mcu_wakeup, pm_vote_oppose, pm_vote_agree, pm_wakeup_low, pm_wakeup_high,
  pm_set_state, pm_get_state, set_ring, set_check_cnt, set_cnt_app, set_cnt_4g, set_cnt_fota,
  set_error_cnt, act, pm_get_mode.

(** One step; the projections are reduced at once so that states stay small. *)
Ltac pm_step :=
  first [rewrite run_assoc | rewrite run_mod | rewrite run_gets | rewrite run_get | rewrite run_ret
    | rewrite run_lift | rewrite run_mret];
  cbn [pm_state pm_ring_status pm_mode pm_regtbl pm_check_cnt cnt_app cnt_4g cnt_fota error_cnt acts].

Ltac pm_sym := repeat (first [pm_step | pm_notify | pm_ready | progress cbn [st_when negb andb orb]]).

Lemma visible_quiet a l : is_visible a = false -> visible (a :: l) = visible l.
Proof. intros H. cbn. by rewrite H. Qed.

Ltac pm_vis :=
  repeat match goal with V : visible _ = [] |- _ => rewrite ?visible_app, ?V; clear V end;
  rewrite ?visible_app; cbn; rewrite ?app_nil_r, <- ?app_assoc; cbn.

Ltac pm_done :=
  right; eexists; split; [reflexivity |]; cbn;
  split; [try done |];
  split; [pm_vis; done |];
  constructor; cbn;
  rewrite ?visible_app; pm_vis; rewrite ?locked_app, ?pin_app;
  cbn; auto; try done; try lia; try congruence;
  try (repeat match goal with H : locked _ = _ |- _ => rewrite H; clear H end;
       repeat case_bool_decide; cbn; congruence).

Section wf.
Context (s : PM) (W : wf s).

Lemma does_enter st id o :
  st <> PM_ST_SLEEP -> pm_state s <> PM_ST_SLEEP -> id <> PM_MSG_ID_FOTA_UPDATE ->
  o = (st, []) -> does (enter env st id) s o.
Proof.
  intros N1 N2 Hid ->. destruct W as [Ht Hl Hp Hr Hs Hm ? ? ? ? ?]. pm_prep. pm_sym. pm_done.
Qed.

Ltac pm_start := destruct W as [Ht Hl Hp Hr Hs Hm ? ? ? ? ?]; pm_prep; pm_sym.

Lemma does_nothing : does (mret tt) s (pm_state s, []).
Proof. pm_start. pm_done. Qed.

Lemma does_ring_wake : pm_state s <> PM_ST_NORMAL -> does (pm_ring_wakeup env) s (woken 1).
Proof. intros N. unfold pm_ring_wakeup. pm_start. rewrite bool_decide_false by done. pm_sym. pm_done. Qed.

Lemma does_ring_normal : pm_state s = PM_ST_NORMAL -> does (pm_ring_wakeup env) s (spec_ring env s).
Proof.
  intros N. unfold pm_ring_wakeup, spec_ring. rewrite N. pm_start. rewrite bool_decide_true by done.
  destruct (_ =? 0); pm_sym; pm_done.
Qed.

Lemma does_mcu : does (pm_mcu_wakeup env) s (PM_ST_NORMAL, [ActWakeLock true]).
Proof. pm_start. pm_done. Qed.

Lemma does_woken : does (pm_mcu_wakeup env;; pm_wakeup_low) s (woken 0).
Proof. pm_start. pm_done. Qed.

Lemma does_rtc : pm_state s = PM_ST_MCK_SLEEP ->
  does (pm_rtc_wakeup env) s (PM_ST_MCK_SLEEP, [ActWakeLock true]).
Proof. intros N. unfold pm_rtc_wakeup. pm_start. pm_done.
Qed.

Lemma does_s4e1 : does (pm_st_s4e1 env) s (PM_ST_MCK_SLEEP, [ActWakeLock true]).
Proof. unfold pm_st_s4e1, pm_rtc_wakeup. pm_start. pm_done. Qed.

Lemma does_s1e3 : pm_state s = PM_ST_MCK_SLEEP -> does (pm_st_s1e3 env) s (spec_timeout env s).
Proof.
  intros N. unfold pm_st_s1e3, spec_timeout. rewrite N, wakeup_bits_seen.
  destruct (wakeup_seen env); [apply does_woken |]. pm_start.
  rewrite (Z.eqb_sym 0). destruct (all_ready env s PM_MSG_SLEEP); cbn [Z.eqb andb Pos.eqb];
    [| pm_done].
  destruct (Z.eqb_spec (pm_ring_status s) 0); [| pm_done].
  destruct (e_rtc env =? 0); pm_sym; pm_done.
Qed.

Lemma does_s0e3 : pm_state s = PM_ST_NORMAL -> does (pm_st_s0e3 env) s (spec_timeout env s).
Proof.
  intros N. unfold pm_st_s0e3, spec_timeout, spec_normal_timeout. rewrite N. pm_start.
  rewrite wakeup_bits_seen. destruct (wakeup_seen env).
  { pm_sym. destruct (pm_ring_status s =? 0); pm_sym; pm_done. }
  unfold int_incr. destruct (Z.ltb_spec (pm_check_cnt s) (2 ^ 31 - 1));
    [| left; split; [done | unfold counters_fit; lia]].
  pm_sym. destruct (e_mode env) as [ret mode]. cbn [fst snd].
  destruct (Z.leb_spec 10 (pm_check_cnt s + 1)), (Z.ltb_spec (pm_check_cnt s) 9); try lia;
    [| pm_sym; pm_done].
  destruct (ret =? 0); pm_sym; [| pm_done].
  destruct (_ || _); pm_sym; pm_done.
Qed.

Lemma does_s2e3 : pm_state s = PM_ST_MCK_POWER_OFF -> does (pm_st_s2e3 env) s (spec_timeout env s).
Proof.
  intros N. unfold pm_st_s2e3, spec_timeout. rewrite N.
  unfold pm_get_mode. unfold does. rewrite run_gets, off_bits_seen.
  destruct (off_prevented env s); [apply does_woken |].
  pm_start. rewrite (Z.eqb_sym 0).
  destruct (all_ready env s PM_MSG_OFF); cbn [Z.eqb andb Pos.eqb]; [| pm_done].
  destruct (Z.eqb_spec (pm_ring_status s) 0); pm_sym; pm_done.
Qed.

Lemma does_s3e3 : pm_state s = PM_ST_MCK_EMERGENCY -> does (pm_st_s3e3 env) s (spec_timeout env s).
Proof.
  intros N. unfold pm_st_s3e3, spec_timeout. rewrite N. pm_start.
  destruct (all_ready env _ PM_MSG_EMERGENCY); cbn [Z.eqb Pos.eqb]; pm_sym; pm_done.
Qed.

Lemma does_s4e3 : pm_state s = PM_ST_SLEEP -> does (pm_st_s4e3 env) s (spec_timeout env s).
Proof.
  intros N. unfold pm_st_s4e3, spec_timeout. rewrite N, wakeup_bits_seen.
  destruct (wakeup_seen env); [apply does_woken |].
  destruct (0 <=? e_sock env); cbn [st_when]; [apply does_ring_wake; by rewrite N |].
  rewrite <- N. apply does_nothing.
Qed.

Lemma does_s5e3 : pm_state s = PM_ST_MCK_RESTART_APP -> does (pm_st_s5e3 env) s (spec_timeout env s).
Proof.
  intros N. unfold pm_st_s5e3, spec_timeout. rewrite N. pm_start.
  unfold int_incr. destruct (Z.ltb_spec (cnt_app s) (2 ^ 31 - 1)); [| lia].
  destruct (all_ready env s PM_MSG_OFF); cbn [Z.eqb orb Pos.eqb]; pm_sym; [pm_done |].
  destruct (Z.ltb_spec 5 (cnt_app s)), (Z.eqb_spec (cnt_app s) 6); try lia; pm_sym; pm_done.
Qed.

Lemma does_s6e3 : pm_state s = PM_ST_MCK_RESTART_4G -> does (pm_st_s6e3 env) s (spec_timeout env s).
Proof.
  intros N. unfold pm_st_s6e3, spec_timeout. rewrite N. pm_start.
  unfold int_incr. destruct (Z.ltb_spec (cnt_4g s) (2 ^ 31 - 1)); [| lia].
  destruct (all_ready env s PM_MSG_OFF); cbn [Z.eqb orb Pos.eqb]; pm_sym; [pm_done |].
  destruct (Z.ltb_spec 5 (cnt_4g s)), (Z.eqb_spec (cnt_4g s) 6); try lia; pm_sym; pm_done.
Qed.

Lemma does_s7e3 : pm_state s = PM_ST_MCK_FOTA_UPDATE -> does (pm_st_s7e3 env) s (spec_timeout env s).
Proof.
  intros N. unfold pm_st_s7e3, spec_timeout, spec_fota_timeout, fota_allowed, fota_start, fota_stop.
  rewrite N. pm_start. unfold int_incr.
  destruct (all_ready env s PM_MSG_OFF); cbn [Z.eqb orb Pos.eqb]; pm_sym.
  - destruct (_ || _); pm_sym; [pm_done |].
    destruct (FOTA_ERROR =? e_fota env); cbn [andb].
    + destruct (Z.ltb_spec (error_cnt s) (2 ^ 31 - 1)); [| lia]. pm_sym.
      destruct (Z.ltb_spec 3 (error_cnt s + 1)), (Z.eqb_spec (error_cnt s) 3); try lia;
        pm_sym; destruct (e_cache env); pm_sym; pm_done.
    + destruct (e_cache env); pm_sym; pm_done.
  - destruct (Z.ltb_spec (cnt_fota s) (2 ^ 31 - 1));
      [| left; split; [done | unfold counters_fit; lia]].
    pm_sym. replace (10 <? cnt_fota s + 1) with (10 <=? cnt_fota s)
      by (destruct (Z.leb_spec 10 (cnt_fota s)), (Z.ltb_spec 10 (cnt_fota s + 1)); lia).
    destruct (_ || _); pm_sym; [pm_done |].
    destruct (FOTA_ERROR =? e_fota env); cbn [andb].
    + destruct (Z.ltb_spec (error_cnt s) (2 ^ 31 - 1)); [| lia]. pm_sym.
      destruct (Z.ltb_spec 3 (error_cnt s + 1)), (Z.eqb_spec (error_cnt s) 3); try lia;
        pm_sym; destruct (e_cache env); pm_sym; try pm_done; destruct (10 <=? cnt_fota s); pm_sym; pm_done.
    + destruct (10 <=? cnt_fota s); pm_sym; [| pm_done]. destruct (e_cache env); pm_sym; pm_done.
Qed.

Definition cell (st : PM_STATE) (evt : Z) : option (PMM unit) :=
  row ← mem_get (state_tbl env) (state_index st); mem_get row evt.

Lemma does_cell evt f o :
  0 <= evt < PM_EVT_NUM -> cell (pm_state s) evt = Some f -> does f s o -> does (pm_evt_proc env evt) s o.
Proof.
  unfold cell, pm_evt_proc, does. intros He Hc.
  destruct (Z.leb_spec PM_EVT_NUM evt); [lia |].
  destruct (Z.ltb_spec evt PM_EVT_RING); [unfold PM_EVT_RING in *; lia |]. cbn [orb].
  unfold pm_get_state. rewrite run_gets.
  destruct (mem_get (state_tbl env) (state_index (pm_state s))) as [row|]; [| done].
  cbn in Hc. rewrite run_lift, Hc, run_lift. done.
Qed.

Lemma spec_out evt : evt < 0 \/ PM_EVT_NUM <= evt -> spec_evt env s evt = (pm_state s, []).
Proof.
  unfold spec_evt, PM_EVT_NUM, PM_EVT_RING, PM_EVT_RTC, PM_EVT_RUNNING, PM_EVT_TIMEOUT,
    PM_EVT_EMERGENCY, PM_EVT_POWER_OFF, PM_EVT_SLEEP_REQ, PM_EVT_RESTART_APP_REQ,
    PM_EVT_RESTART_4G_REQ, PM_EVT_FOTA_UPDATE_REQ.
  intros. repeat (case_bool; [lia |]). done.
Qed.

Ltac pm_cell :=
  eapply does_cell; [done | match goal with N : pm_state s = _ |- _ => rewrite N end; reflexivity |].

(** Every cell of the table. *)
Lemma does_evt evt : does (pm_evt_proc env evt) s (spec_evt env s evt).
Proof.
  destruct (decide (evt < 0 \/ PM_EVT_NUM <= evt)) as [Ho | Hi].
  { rewrite spec_out by done. unfold pm_evt_proc.
    replace ((PM_EVT_NUM <=? evt) || (evt <? PM_EVT_RING)) with true; [apply does_nothing |].
    unfold PM_EVT_RING. destruct (Z.leb_spec PM_EVT_NUM evt), (Z.ltb_spec evt 0); done || lia. }
  assert (evt = 0 \/ evt = 1 \/ evt = 2 \/ evt = 3 \/ evt = 4 \/ evt = 5 \/ evt = 6 \/
    evt = 7 \/ evt = 8 \/ evt = 9) as He by (unfold PM_EVT_NUM in *; lia).
  unfold spec_evt, spec_rtc, spec_running, spec_request.
  destruct (pm_state s) eqn:N; clear Hi; repeat (destruct He as [-> | He]); try subst evt; pm_cell;
    cbn [Z.eqb Pos.eqb PM_EVT_RING PM_EVT_RTC PM_EVT_RUNNING PM_EVT_TIMEOUT PM_EVT_EMERGENCY PM_EVT_POWER_OFF
      PM_EVT_SLEEP_REQ PM_EVT_RESTART_APP_REQ PM_EVT_RESTART_4G_REQ PM_EVT_FOTA_UPDATE_REQ];
    rewrite ?N;
    first [ solve [eauto using does_s0e3, does_s1e3, does_s2e3, does_s3e3, does_s4e3, does_s5e3,
              does_s6e3, does_s7e3, does_ring_normal, does_mcu, does_rtc, does_s4e1]
          | solve [unfold spec_ring; rewrite N; apply does_ring_wake; by rewrite N]
          | solve [apply does_enter; rewrite ?N; done]
          | pose proof does_nothing as D; rewrite N in D; unfold spec_ring; rewrite ?N; exact D ].
Qed.

Lemma evt_run evt s' :
  pm_evt_proc env evt s = Some (tt, s') ->
  pm_state s' = fst (spec_evt env s evt) /\
  visible (acts s') = visible (acts s) ++ snd (spec_evt env s evt) /\ wf s'.
Proof. destruct (does_evt evt) as [[-> _] | (s1 & -> & H)]; [done |]. by intros [= <-]. Qed.

Lemma evt_total evt : counters_fit s -> exists s', pm_evt_proc env evt s = Some (tt, s').
Proof. intros F. destruct (does_evt evt) as [[_ N] | (s' & E & _)]; [done | by exists s']. Qed.

End wf.

Lemma wf_log l s : wf s -> visible l = [] -> wf (log l s).
Proof.
  intros [Ht Hl Hp Hr Hs Hm ? ? ? ? ?] V. unfold log.
  constructor; cbn; auto; by rewrite visible_app, V, app_nil_r.
Qed.

Lemma post_run evt s : pm_send_evt env evt s = Some (e_post env, log [ActPost evt] s).
Proof. done. Qed.

Lemma reg_run m h s :
  wf s -> exists r s', pm_reg_handler m h s = Some (r, s') /\ wf s'.
Proof.
  intros W. pose proof W as [Ht Hl Hp Hr Hs Hm ? ? ? ? ?]. unfold pm_reg_handler.
  destruct (Z.eqb_spec h 0); [by eexists _, s |]. rewrite run_gets.
  destruct (Z.leb_spec PM_MAX_REG_ITEM_NUM (used_num (pm_regtbl s))); [by eexists _, s |].
  destruct Ht as [L U H0]. unfold PM_MAX_REG_ITEM_NUM in *.
  rewrite mem_set_ok by lia. rewrite run_lift, run_mod. eexists _, _. split; [done |].
  constructor; cbn; auto. rewrite u16_small by (unfold is_u16; lia).
  constructor; cbn.
  - by rewrite len_insert.
  - unfold PM_MAX_REG_ITEM_NUM. lia.
  - replace (Z.to_nat (used_num (pm_regtbl s) + 1)) with (S (Z.to_nat (used_num (pm_regtbl s)))) by lia.
    erewrite take_S_r by (apply list_lookup_insert_eq; unfold len in *; lia).
    rewrite take_insert_ge by lia. apply Forall_app. split; [done |]. by repeat constructor.
Qed.

Lemma mode_run v s : wf s -> exists r s', pm_mode_proc env v s = Some (r, s') /\ wf s'.
Proof.
  intros W. pose proof W as [Ht Hl Hp Hr Hs Hm ? ? ? ? ?].
  unfold pm_mode_proc. destruct (_ || _) eqn:E; [by eexists _, s |].
  apply orb_false_iff in E as [E1%Z.ltb_ge E2%Z.ltb_ge].
  assert (wf {| s with pm_mode := v |}) as W' by (constructor; cbn; auto).
  unfold set_mode. rewrite run_mod.
  repeat (case_bool; cbn [orb]; [eexists _, _; split; [reflexivity |]; by apply wf_log |]).
  eexists _, _. by split.
Qed.

(** ** Whole messages *)

Lemma step_run m s :
  wf s ->
  (pm_main_step env m s = None /\ ~ counters_fit s) \/
  exists s', pm_main_step env m s = Some (tt, s') /\ wf s'.
Proof.
  intros W.
  assert (forall evt, (pm_evt_proc env evt s = None /\ ~ counters_fit s) \/
    exists s', pm_evt_proc env evt s = Some (tt, s') /\ wf s') as Hevt.
  { intros evt. destruct (does_evt s W evt) as [? | (s' & ? & _ & _ & ?)]; [by left | right; by exists s']. }
  assert (forall l, visible l = [] -> exists s', Some (tt, log l s) = Some (tt, s') /\ wf s') as Hlog.
  { intros l V. eexists. split; [done |]. by apply wf_log. }
  destruct m as [msgid evt | b | v | m h | o | |]; cbn [pm_main_step].
  - unfold pm_main_msg. repeat (case_bool; [first [apply Hevt | right; by apply (Hlog [_])] |]).
    right. by exists s.
  - right. destruct b; [by apply (Hlog [_]) | by exists s].
  - right. destruct (mode_run v s W) as (r & s' & E & W'). rewrite (st_bind_run _ _ _ _ _ E). by exists s'.
  - right. destruct (reg_run m h s W) as (r & s' & E & W'). rewrite (st_bind_run _ _ _ _ _ E). by exists s'.
  - right. destruct o as [[]|]; [by apply (Hlog [_]) | by apply (Hlog [_]) | by exists s].
  - right. assert (wf (log [ActPost PM_EVT_SLEEP_REQ] (log [ActScomSleepReq] s))) as W'
      by (apply wf_log; [by apply wf_log | done]).
    by eexists.
  - right. by apply (Hlog [_]).
Qed.

End proofs.

Lemma boot_run : exists s0, pm_boot pm_statics = Some (tt, s0) /\ wf s0.
Proof.
  eexists. split; [reflexivity |]. constructor; cbn; try done; try lia; auto.
Qed.

Lemma run_wf s s' : wf s -> pm_run s s' -> wf s'.
Proof.
  intros W. induction 1 as [| s1 s2 s3 env m _ IH E]; [done |].
  destruct (step_run env m s2 (IH W)) as [[? _] | (s4 & E' & W')]; congruence.
Qed.

(** ** An idle device *)

(** The timeouts of the periodic timer, with what the environment answers. *)
Fixpoint pm_timeouts (envs : list PM_ENV) : PMM unit :=
  match envs with
  | [] => mret tt
  | env :: envs => pm_main_step env (PmMsg PM_MSG_ID_CHECK_TIMER 0);; pm_timeouts envs
  end.

Lemma timeouts_app l k s s' :
  pm_timeouts l s = Some (tt, s') -> pm_timeouts (l ++ k) s = pm_timeouts k s'.
Proof.
  revert s. induction l as [|env l IH]; intros s; [by intros [= ->] |].
  cbn [pm_timeouts app]. intros (u & s1 & E & El)%st_bind_inv.
  rewrite (st_bind_run _ _ _ _ _ E). by apply IH.
Qed.

Section idle.
Context (env : PM_ENV) (Hquiet : wakeup_seen env = false) (s : PM) (W : wf s).

Lemma timeout_normal :
  pm_state s = PM_ST_NORMAL ->
  pm_main_step env (PmMsg PM_MSG_ID_CHECK_TIMER 0) s = pm_st_s0e3 env s.
Proof.
  intros N. change (pm_evt_proc env PM_EVT_TIMEOUT s = pm_st_s0e3 env s).
  change ((st_gets pm_state ≫= fun st => row ← st_lift (mem_get (state_tbl env) (state_index st));
    f ← st_lift (mem_get row PM_EVT_TIMEOUT); f) s = pm_st_s0e3 env s).
  rewrite run_gets, N. reflexivity.
Qed.

Lemma idle_step :
  pm_state s = PM_ST_NORMAL -> pm_check_cnt s < 9 ->
  pm_main_step env (PmMsg PM_MSG_ID_CHECK_TIMER 0) s =
    Some (tt, {| s with pm_check_cnt := pm_check_cnt s + 1 |}).
Proof.
  intros N Hc. rewrite timeout_normal by done.
  unfold pm_st_s0e3, set_check_cnt. rewrite run_get, wakeup_bits_seen, Hquiet.
  unfold int_incr. destruct (Z.ltb_spec (pm_check_cnt s) (2 ^ 31 - 1)); [| lia].
  rewrite run_lift, run_mod. destruct (Z.leb_spec 10 (pm_check_cnt s + 1)); [lia | done].
Qed.

Lemma idle_last :
  pm_state s = PM_ST_NORMAL -> pm_check_cnt s = 9 ->
  fst (e_mode env) = 0 -> snd (e_mode env) < PM_SLEEP_MODE ->
  exists l, visible l = [] /\
  pm_main_step env (PmMsg PM_MSG_ID_CHECK_TIMER 0) s =
    Some (tt, log l {| s with pm_check_cnt := 0; pm_state := PM_ST_MCK_SLEEP |}).
Proof.
  intros N Hc Hm0 Hm1. rewrite timeout_normal by done.
  unfold pm_st_s0e3, set_check_cnt. rewrite run_get, wakeup_bits_seen, Hquiet, Hc.
  change (int_incr 9) with (Some 10). rewrite run_lift, run_mod.
  destruct (e_mode env) as [ret mode]. cbn in Hm0, Hm1. subst ret.
  replace ((PM_SLEEP_MODE =? mode) || (PM_DEEP_SLEEP_MODE =? mode) || (PM_OFF_MODE =? mode)) with false
    by (unfold PM_SLEEP_MODE, PM_DEEP_SLEEP_MODE, PM_OFF_MODE in *; repeat case_bool; done || lia).
  change (10 <=? 10) with true. change (negb (0 =? 0)) with false. cbv iota.
  unfold enter, pm_set_state. rewrite run_assoc, run_mod, run_assoc.
  match goal with |- context [mbind _ _ ?t] =>
    destruct (notify_run env PM_MSG_SLEEP t) as (r & l & E & V); [apply W | done |] end.
  rewrite (st_bind_run _ _ _ _ _ E). rewrite run_ret. exists l. done.
Qed.

Lemma idle_sleep :
  pm_state s = PM_ST_MCK_SLEEP -> pm_ring_status s = 0 -> all_ready env s PM_MSG_SLEEP = true ->
  counters_fit s ->
  exists s', pm_main_step env (PmMsg PM_MSG_ID_CHECK_TIMER 0) s = Some (tt, s') /\
    pm_state s' = PM_ST_SLEEP /\ locked (visible (acts s')) = false.
Proof.
  intros N Hr Ha F. destruct (evt_total env s W PM_EVT_TIMEOUT F) as [s' E]. exists s'.
  split; [done |]. destruct (evt_run env s W _ _ E) as (Hs & Hv & W').
  cbn in Hs, Hv. unfold spec_timeout in *. rewrite N, Hquiet, Ha, Hr in *. cbn in Hs, Hv.
  rewrite Hv, locked_app. done.
Qed.
End idle.

Lemma idle_steps envs : forall s,
  Forall (fun env => wakeup_seen env = false) envs ->
  pm_state s = PM_ST_NORMAL -> pm_check_cnt s + len envs <= 9 ->
  pm_timeouts envs s = Some (tt, {| s with pm_check_cnt := pm_check_cnt s + len envs |}).
Proof.
  induction envs as [|env envs IH]; intros s Hq N Hc.
  - cbn. rewrite Z.add_0_r. by destruct s.
  - apply Forall_cons_1 in Hq as [Hq Hqs]. rewrite len_cons in *. pose proof (len_nonneg envs).
    cbn [pm_timeouts]. rewrite (st_bind_run _ _ _ _ _ (idle_step env Hq s N ltac:(lia))).
    rewrite IH by (cbn; (done || lia)). cbn. do 3 f_equal. lia.
Qed.

(** ** Properties *)

(** C33: the state of the power manager is well formed in all runs from its start
    (in particular, the wake lock of the modem is released exactly in the state
    PM_ST_SLEEP, the wakeup pin has the level of the ring status, the register
    table is in bounds and holds no null pointer, and the counters stay in their
    ranges), and in a well formed state every message is handled and leads to a
    well formed state, as long as the two unbounded counters are not at the end
    of [int]. *)
Theorem pm_well_formed :
  (forall s0 s, pm_boot pm_statics = Some (tt, s0) -> pm_run s0 s -> wf s) /\
  (forall env m s, wf s -> counters_fit s ->
     exists s', pm_main_step env m s = Some (tt, s') /\ wf s').
Proof.
  split.
  - intros s0 s E R. destruct boot_run as (s1 & E1 & W). apply (run_wf s1); [done |].
    congruence.
  - intros env m s W F. by destruct (step_run env m s W) as [[_ N] | H].
Qed.

(** C4: every event in every state does what the specification of the power
    states says: the next state and the sequence of the visible actions (votes,
    wakeup pin, power down, restart, start of the update) are those of
    [spec_evt], for all answers of the environment. *)
Theorem pm_evt_refines env evt s :
  wf s -> counters_fit s ->
  exists s', pm_main_step env (PmMsg PM_MSG_ID_EVT evt) s = Some (tt, s') /\
    pm_state s' = fst (spec_evt env s evt) /\
    visible (acts s') = visible (acts s) ++ snd (spec_evt env s evt).
Proof.
  intros W F. destruct (evt_total env s W evt F) as [s' E]. exists s'.
  destruct (evt_run env s W evt s' E) as (H1 & H2 & _). done.
Qed.

(** C39: an idle device goes to sleep.  From a well formed running state with a
    low ring pin, after timeouts without a wakeup source up to the tenth in a row
    and one more at which all registered modules answer that they are ready, the
    power manager is in the state PM_ST_SLEEP and has released the wake lock. *)
Theorem pm_idle_sleeps envs env env' s :
  wf s -> pm_state s = PM_ST_NORMAL -> pm_ring_status s = 0 -> cnt_fota s < 2 ^ 31 - 1 ->
  pm_check_cnt s + len envs = 9 ->
  Forall (fun e => wakeup_seen e = false) (envs ++ [env; env']) ->
  fst (e_mode env) = 0 -> snd (e_mode env) < PM_SLEEP_MODE ->
  all_ready env' s PM_MSG_SLEEP = true ->
  exists s', pm_timeouts (envs ++ [env; env']) s = Some (tt, s') /\
    pm_state s' = PM_ST_SLEEP /\ locked (visible (acts s')) = false.
Proof.
  intros W N Hr Hf Hc Hq Hm0 Hm1 Ha.
  apply Forall_app in Hq as [Hqs [Hq1 [Hq2 _]%Forall_cons_1]%Forall_cons_1].
  rewrite (timeouts_app _ _ _ _ (idle_steps envs s Hqs N ltac:(lia))), Hc.
  cbn [pm_timeouts].
  assert (wf {| s with pm_check_cnt := 9 |}) as W9 by (destruct W; constructor; cbn; auto; lia).
  destruct (idle_last env Hq1 _ W9 N eq_refl Hm0 Hm1) as (l & V & E).
  rewrite (st_bind_run _ _ _ _ _ E).
  assert (wf (log l {| s with pm_check_cnt := 0; pm_state := PM_ST_MCK_SLEEP |})) as W0.
  { apply wf_log; [| done]. destruct W as [? Hl]. rewrite N in Hl. constructor; cbn; auto; done || lia. }
  destruct (idle_sleep env' Hq2 _ W0) as (s' & E' & Hs); [done | done | done | split; cbn; lia |].
  exists s'. rewrite (st_bind_run _ _ _ _ _ E'). by split.
Qed.

(** ** Witnesses *)

(** All checks are read, [usb] and [mcu] are the voltages; everybody is ready. *)
Definition demo_env (usb mcu : bool) : PM_ENV := {|
  e_usb := (0, if usb then 48 else 49); e_mcu := (0, if mcu then 48 else 49);
  e_ready := fun _ _ => 1; e_send := fun _ => 0; e_send_at := 0; e_post := 0;
  e_mode := (0, PM_RUNNING_MODE); e_rtc := 60; e_sock := -1; e_fota := 0; e_cache := false |}.

Definition demo_boot : PM :=
  match (pm_boot;; pm_reg_handler 0x400 1;; pm_reg_handler 0xC00 2) pm_statics with
  | Some (_, s) => s | None => pm_statics
  end.

Definition demo_sleep : PM :=
  match pm_timeouts (replicate 11 (demo_env false false)) demo_boot with
  | Some (_, s) => s | None => demo_boot
  end.

Lemma demo_boot_wf : wf demo_boot.
Proof.
  destruct boot_run as (s0 & E & W).
  assert (s0 = snd (default (tt, pm_statics) (pm_boot pm_statics))) as -> by (by rewrite E).
  destruct (reg_run 0x400 1 _ W) as (r1 & s1 & E1 & W1).
  destruct (reg_run 0xC00 2 _ W1) as (r2 & s2 & E2 & W2).
  assert (demo_boot = s2) as ->; [| done].
  assert (s1 = snd (default (0, pm_statics)
    (pm_reg_handler 0x400 1 (snd (default (tt, pm_statics) (pm_boot pm_statics)))))) as ->
    by (by rewrite E1).
  assert (s2 = snd (default (0, pm_statics) (pm_reg_handler 0xC00 2
    (snd (default (0, pm_statics) (pm_reg_handler 0x400 1
      (snd (default (tt, pm_statics) (pm_boot pm_statics))))))))) as ->
    by (by rewrite E2).
  reflexivity.
Qed.

Lemma timeouts_run envs s s' : pm_timeouts envs s = Some (tt, s') -> pm_run s s'.
Proof.
  assert (forall a b c, pm_run a b -> pm_run b c -> pm_run a c) as Htrans.
  { intros a b c R R'. revert R. induction R' as [| s1 s2 s3 env m _ IH E]; [done |]. intros Ra.
    eapply pm_run_step; [by apply IH | exact E]. }
  revert s. induction envs as [|env envs IH]; intros s; [intros [= ->]; constructor |].
  cbn [pm_timeouts]. intros ([] & s1 & E & El)%st_bind_inv.
  apply (Htrans _ s1); [| by apply IH]. eapply pm_run_step; [constructor | done].
Qed.

Lemma demo_sleep_wf : wf demo_sleep.
Proof.
  apply (run_wf demo_boot); [apply demo_boot_wf |].
  apply (timeouts_run (replicate 11 (demo_env false false))). vm_compute; reflexivity.
Qed.

Lemma pm_well_formed_witness :
  exists s', pm_main_step (demo_env false true) (PmMsg PM_MSG_ID_CHECK_TIMER 0) demo_sleep = Some (tt, s') /\ wf s'.
Proof.
  apply (proj2 pm_well_formed); [exact demo_sleep_wf | split; vm_compute; reflexivity].
Defined.

(** The ring wakes the sleeping device. *)
Lemma pm_evt_refines_witness :
  exists s', pm_main_step (demo_env false false) (PmMsg PM_MSG_ID_EVT PM_EVT_RING) demo_sleep = Some (tt, s') /\
    pm_state s' = PM_ST_NORMAL /\
    visible (acts s') =
      visible (acts demo_sleep) ++ [ActWakeLock true; ActGpio GPIO_WAKEUP_MCU 1].
Proof.
  apply (pm_evt_refines (demo_env false false) PM_EVT_RING demo_sleep);
    [exact demo_sleep_wf | split; vm_compute; reflexivity].
Defined.

Lemma pm_idle_sleeps_witness :
  exists s', pm_timeouts (replicate 9 (demo_env false false) ++ [demo_env false false; demo_env false false])
      demo_boot = Some (tt, s') /\
    pm_state s' = PM_ST_SLEEP /\ locked (visible (acts s')) = false.
Proof.
  apply (pm_idle_sleeps (replicate 9 (demo_env false false)) (demo_env false false) (demo_env false false) demo_boot);
    first [exact demo_boot_wf | vm_compute; reflexivity | repeat constructor].
Defined.

(** A file that cannot be read hides the wakeup by the other one: [-1] or-ed with
    it is [-1], which the handlers take for permission to sleep. *)
Lemma pm_read_error_hides_wakeup env :
  pm_usb_wakeup_check env = -1 -> pm_mcu_wakeup_check env = 1 -> wakeup_bits env = -1.
Proof. unfold wakeup_bits. by intros -> ->. Qed.
