(* ===== verification/J1939.v ===== *)
(** * J1939 vehicle faults

    src/app/base/uds/J1939/J1939.c: the reassembly of multi-packet messages, the
    decoding of active trouble codes (DM1), the table of faults with its timeout,
    the notification of registered modules and the DM2 query.  Every message of
    the bus and every timeout is one step; the state is that of the static
    variables, and a call to another module is logged. *)

From stdpp Require Import gmap.
From S2P Require Import Prelude.

(** ** Constants *)

Definition VEHI_FAULT_TABLE_NUM : Z := 256.
Definition DTC_TIMEOUT : Z := 60 * 1000.
Definition J1939_DM1_MAX_REG : Z := 4.
Definition J1939_HEART_TIMER : Z := 9.
Definition J1939_REQ_TIMER : Z := 10.
Definition J1939_STOP_TIMER : Z := 0.
Definition J1939_START_TIMER : Z := 1.
Definition J1939_DM2_IDLE : Z := 0.
Definition J1939_DM2_BUSY : Z := 1.
Definition VF_NULL : Z := 0.
Definition VF_START : Z := 1.
Definition VF_END : Z := 2.
Definition MSG_ID_REQ : Z := 0xF2.
Definition UDS_INVALID_PARA : Z := Z.lor (Z.shiftl 0x0C00 16) 1.
Definition UDS_PARA_OVERFLOW : Z := UDS_INVALID_PARA + 2.

(** ** Data *)

Record DTC_T := { spn : Z; fmi : Z; oc : Z; cm : Z; dtc_sa : Z; dtc_port : Z }.

Record VEHI_FAULT_DATA_T := {
  status : Z; startTime : list Z; endTime : list Z; update_time : Z; dtc : DTC_T
}.

Record DTC_MF_T := { total_size : Z; mf_no : Z; total_no : Z; mf_buff : list Z }.

Record RTCTIME := { t_sec : Z; t_min : Z; t_hour : Z; t_mday : Z; t_mon : Z; t_year : Z }.

(** Calls to other modules. *)
Inductive J_EVENT :=
| EvNotify (cb : Z) (f : VEHI_FAULT_DATA_T)   (* J1939_tbl.changed[n] *)
| EvSave (t : list VEHI_FAULT_DATA_T)         (* rds_update_once *)
| EvTimerStop (i : Z)                         (* tm_stop *)
| EvTimerStart (i ms : Z)                     (* tm_start *)
| EvDm2 (cb : Z) (data : list Z) (dlc : Z).   (* dm2.func *)

Record J := {
  dm2_da : Z; dm2_status : Z; dm2_func : Z;
  tbl_num : Z; tbl_cb : list Z;
  timer_switch : list Z; timer_value : list Z;
  is_need_save : Z;
  dtc_buff : list DTC_MF_T;
  dtc_table : list VEHI_FAULT_DATA_T;
  misc_start : Z; misc_end : Z;      (* misc_time of the start and of the end function *)
  scan_cnt : Z;                      (* cnt of the scan function *)
  events : list J_EVENT
}.

(** What is read from outside during one step: the uptime, the clock, the answers
    of the registered functions, the result of saving. *)
Record J_ENV := {
  e_now : Z; e_time : RTCTIME; e_notify : Z -> Z; e_save : Z
}.

Definition DTC_zero : DTC_T := {| spn := 0; fmi := 0; oc := 0; cm := 0; dtc_sa := 0; dtc_port := 0 |}.
Definition zeros (n : Z) : list Z := replicate (Z.to_nat n) 0.
Definition VEHI_FAULT_zero : VEHI_FAULT_DATA_T :=
  {| status := VF_NULL; startTime := zeros 5; endTime := zeros 5; update_time := 0; dtc := DTC_zero |}.
Definition DTC_MF_zero : DTC_MF_T :=
  {| total_size := 0; mf_no := 0; total_no := 0; mf_buff := zeros (256 * 7) |}.
Definition dtc_table_zero : list VEHI_FAULT_DATA_T :=
  replicate (Z.to_nat VEHI_FAULT_TABLE_NUM) VEHI_FAULT_zero.

Abbreviation JM := (ST J).

(** ** Elementary updates *)

Definition ev (e : J_EVENT) : JM unit := st_mod (fun s => {| s with events := events s ++ [e] |}).
Definition set_table (t : list VEHI_FAULT_DATA_T) : JM unit := st_mod (fun s => {| s with dtc_table := t |}).
Definition set_need_save (v : Z) : JM unit := st_mod (fun s => {| s with is_need_save := v |}).
Definition set_misc_start (v : Z) : JM unit := st_mod (fun s => {| s with misc_start := v |}).
Definition set_misc_end (v : Z) : JM unit := st_mod (fun s => {| s with misc_end := v |}).
Definition set_buff (b : list DTC_MF_T) : JM unit := st_mod (fun s => {| s with dtc_buff := b |}).

Definition get_fault (i : Z) : JM VEHI_FAULT_DATA_T :=
  t ← st_gets dtc_table; st_lift (mem_get t i).
Definition put_fault (i : Z) (f : VEHI_FAULT_DATA_T) : JM unit :=
  t ← st_gets dtc_table; t' ← st_lift (mem_set t i f); set_table t'.
Definition get_mf (sa : Z) : JM DTC_MF_T := b ← st_gets dtc_buff; st_lift (mem_get b sa).
Definition put_mf (sa : Z) (m : DTC_MF_T) : JM unit :=
  b ← st_gets dtc_buff; b' ← st_lift (mem_set b sa m); set_buff b'.

(** ** Registration and timers *)

Definition J1939_dm1_register (callback : Z) : JM Z :=
  if callback =? 0 then mret UDS_INVALID_PARA
  else
    s ← st_get;
    if J1939_DM1_MAX_REG <=? tbl_num s then mret UDS_PARA_OVERFLOW
    else
      cbs ← st_lift (mem_set (tbl_cb s) (tbl_num s) callback);
      st_mod (fun s => {| s with tbl_cb := cbs; tbl_num := u8 (tbl_num s + 1) |});;
      mret 0.

Definition J1939_set_timer (id switch_value : Z) : JM unit :=
  if J1939_HEART_TIMER <=? id then
    let i := id - J1939_HEART_TIMER in
    s ← st_get;
    sw ← st_lift (mem_set (timer_switch s) i (u8 switch_value));
    st_mod (fun s => {| s with timer_switch := sw |});;
    ev (EvTimerStop i);;
    if switch_value =? J1939_START_TIMER then
      ms ← st_lift (mem_get (timer_value s) i); ev (EvTimerStart i ms)
    else mret tt
  else mret tt.

(** The request is built but not sent: the call of the serial layer in
    [J1939_request] is commented out. *)
Definition J1939_dm2_request (port da callback : Z) : JM Z :=
  s ← st_get;
  if dm2_status s =? J1939_DM2_BUSY then mret J1939_DM2_BUSY
  else
    st_mod (fun s => {| s with dm2_da := da; dm2_status := J1939_DM2_BUSY; dm2_func := callback |});;
    J1939_set_timer J1939_REQ_TIMER J1939_START_TIMER;;
    mret 0.

Section env.
Context (env : J_ENV).

Definition J1939_fault_save : JM Z :=
  t ← st_gets dtc_table; ev (EvSave t);; mret (e_save env).

(** ** The fault table *)

(** [VEHI_FAULT_TIME_T]: bit fields of 6, 6, 5, 5, 4 and 6 bits, lowest first. *)
Definition fault_time (t : RTCTIME) : list Z :=
  let v := Z.lor (Z.land (t_sec t) 63)
    (Z.lor (Z.shiftl (Z.land (t_min t) 63) 6)
    (Z.lor (Z.shiftl (Z.land (t_hour t) 31) 12)
    (Z.lor (Z.shiftl (Z.land (t_mday t) 31) 17)
    (Z.lor (Z.shiftl (Z.land (t_mon t) 15) 22)
           (Z.shiftl (Z.land (t_year t) 63) 26))))) in
  [u8 v; u8 (Z.shiftr v 8); u8 (Z.shiftr v 16); u8 (Z.shiftr v 24)].

(** Without a clock only the counter distinguishes the times. *)
Definition time_stamp (misc : Z) : list Z :=
  (if t_year (e_time env) <=? 2000 then zeros 4 else fault_time (e_time env)) ++ [u8 misc].

Definition J1939_vehi_fault_start (d : DTC_T) (index : Z) : JM unit :=
  put_fault index VEHI_FAULT_zero;;
  f ← get_fault index;
  s ← st_get;
  let misc := if 100 <=? misc_start s then 0 else misc_start s in
  put_fault index {| f with status := VF_START; dtc := d; update_time := e_now env;
                      startTime := time_stamp misc |};;
  set_misc_start (misc + 1).

Definition J1939_vehi_fault_end (index : Z) : JM unit :=
  f ← get_fault index;
  s ← st_get;
  let misc := if 100 <=? misc_end s then 0 else misc_end s in
  put_fault index {| f with status := VF_END; endTime := time_stamp misc |};;
  set_misc_end (misc + 1).

(** Calls of the registered functions from the [i]-th on, for the fault [index]. *)
Fixpoint notify_all (n : nat) (i index : Z) : JM unit :=
  match n with
  | O => mret tt
  | S n =>
      s ← st_get;
      cb ← st_lift (mem_get (tbl_cb s) i);
      f ← get_fault index;
      ev (EvNotify cb f);;
      notify_all n (i + 1) index
  end.

Definition notify (index : Z) : JM unit :=
  num ← st_gets tbl_num; notify_all (Z.to_nat num) 0 index.

(** The same loop in the scan, which ends when a function fails. *)
Fixpoint notify_until (n : nat) (i index : Z) : JM unit :=
  match n with
  | O => mret tt
  | S n =>
      s ← st_get;
      cb ← st_lift (mem_get (tbl_cb s) i);
      f ← get_fault index;
      ev (EvNotify cb f);;
      if e_notify env cb =? 0 then notify_until n (i + 1) index else mret tt
  end.

Definition scan_row (i : Z) : JM unit :=
  f ← get_fault i;
  st_when ((status f =? VF_START) && (DTC_TIMEOUT <? u64 (e_now env - update_time f)))
    (J1939_vehi_fault_end i;;
     num ← st_gets tbl_num;
     notify_until (Z.to_nat num) 0 i).

Definition J1939_vehi_fault_scan : JM unit :=
  st_for (Z.to_nat VEHI_FAULT_TABLE_NUM) 0 scan_row;;
  s ← st_get;
  c ← st_lift (if scan_cnt s <? 2 ^ 31 - 1 then Some (scan_cnt s + 1) else None);
  if (5 <=? c) && negb (is_need_save s =? 0) then
    st_mod (fun s => {| s with scan_cnt := 0; is_need_save := 0 |});;
    J1939_fault_save;; mret tt
  else st_mod (fun s => {| s with scan_cnt := c |}).

Definition J1939_timeout (timer_id : Z) : JM unit :=
  if timer_id =? J1939_HEART_TIMER then J1939_vehi_fault_scan else mret tt.

(** ** DM1 *)

(** The first row from [i] on, of [n], that satisfies [p]; [i + n] if none does. *)
Fixpoint find_row (p : VEHI_FAULT_DATA_T -> bool) (n : nat) (i : Z) (t : list VEHI_FAULT_DATA_T) : option Z :=
  match n with
  | O => Some i
  | S n => f ← mem_get t i; if p f then Some i else find_row p n (i + 1) t
  end.

Definition active_spn (v : Z) (f : VEHI_FAULT_DATA_T) : bool :=
  (spn (dtc f) =? v) && (status f =? VF_START).
Definition inactive (f : VEHI_FAULT_DATA_T) : bool := negb (status f =? VF_START).

Definition dm1_one (d : DTC_T) : JM unit :=
  t ← st_gets dtc_table;
  j ← st_lift (find_row (active_spn (spn d)) (Z.to_nat VEHI_FAULT_TABLE_NUM) 0 t);
  if j =? VEHI_FAULT_TABLE_NUM then
    k ← st_lift (find_row inactive (Z.to_nat VEHI_FAULT_TABLE_NUM) 0 t);
    if k =? VEHI_FAULT_TABLE_NUM then mret tt
    else J1939_vehi_fault_start d k;; set_need_save 1;; notify k
  else
    f ← get_fault j;
    if negb (fmi (dtc f) =? fmi d) then
      J1939_vehi_fault_end j;; notify j;;
      J1939_vehi_fault_start d j;; notify j;;
      set_need_save 1
    else put_fault j {| f with update_time := e_now env |}.

Fixpoint J1939_dm1_pro (ds : list DTC_T) : JM unit :=
  match ds with
  | [] => mret tt
  | d :: ds => dm1_one d;; J1939_dm1_pro ds
  end.

(** [temp_dtc] has 256 elements. *)
Definition temp_dtc_size : Z := 256.

(** The loop over the trouble codes of [buff] (the data behind the lamp status)
    from the [i]-th on; [fuel] bounds the iterations. *)
Fixpoint dm_loop (fuel : nat) (i length port sa : Z) (data : list Z) : option (list DTC_T) :=
  match fuel with
  | O => None
  | S fuel =>
      if i * 4 + 4 <=? length then
        let j := 2 + i * 4 in
        b0 ← mem_get data j; b1 ← mem_get data (j + 1);
        b2 ← mem_get data (j + 2); b3 ← mem_get data (j + 3);
        if i <? temp_dtc_size then
          let d := {| spn := b0 + b1 * 256 + Z.shiftr b2 5 * 256 * 256;
                      fmi := Z.land b2 31; cm := Z.shiftr b3 7; oc := Z.land b3 127;
                      dtc_sa := u8 sa; dtc_port := u8 port |} in
          ds ← dm_loop fuel (i + 1) length port sa data; Some (d :: ds)
        else None
      else Some []
  end.

Definition J1939_add_dm_data (port sa : Z) (data : list Z) (len : Z) : JM unit :=
  if len <=? 2 then mret tt
  else
    ds ← st_lift (dm_loop (Z.to_nat len) 0 (len - 2) port sa data);
    J1939_dm1_pro ds.

(** ** Messages of the bus *)

Definition PGN_DM1 : Z := 0xFECA.
Definition PGN_TP_CM : Z := 0xECFF.
Definition PGN_TP_DT : Z := 0xEBFF.
Definition PGN_DM2 : Z := 0xFECB.

Definition mf_reset (m : DTC_MF_T) : DTC_MF_T := {| m with mf_no := 0; total_no := 0; total_size := 0 |}.

Definition J1939_msg_decode (canid port : Z) (data : list Z) (dlc : Z) : JM unit :=
  let sa := Z.land canid 255 in
  let pgn := Z.land (Z.shiftr canid 8) 0x3ffff in
  if pgn =? PGN_DM1 then J1939_add_dm_data port sa data dlc
  else if pgn =? PGN_TP_CM then
    b1 ← st_lift (mem_get data 1); b2 ← st_lift (mem_get data 2); b3 ← st_lift (mem_get data 3);
    m ← get_mf sa;
    put_mf sa {| m with total_size := Z.lor (Z.shiftl b2 8) b1; total_no := b3; mf_no := 0 |}
  else if pgn =? PGN_TP_DT then
    cur_no ← st_lift (mem_get data 0);
    m ← get_mf sa;
    if (total_no m <? cur_no) || negb (cur_no =? mf_no m + 1) then put_mf sa (mf_reset m)
    else
      b ← st_lift (memcpy (mf_buff m) (7 * (cur_no - 1)) data 1 7);
      put_mf sa {| m with mf_no := cur_no; mf_buff := b |};;
      if cur_no =? total_no m then
        J1939_add_dm_data port sa b (total_size m);;
        m ← get_mf sa; put_mf sa (mf_reset m)
      else mret tt
  else if pgn =? PGN_DM2 then
    st_mod (fun s => {| s with dm2_status := J1939_DM2_IDLE |});;
    J1939_set_timer J1939_REQ_TIMER J1939_STOP_TIMER;;
    s ← st_get;
    st_when (negb (dm2_func s =? 0)) (ev (EvDm2 (dm2_func s) data dlc))
  else mret tt.

End env.

(** A message of the CAN module. *)
Record CAN_MSG := { c_type : Z; c_exten : bool; MsgID : Z; c_port : Z; Data : list Z; c_len : Z }.

Fixpoint J1939_can_callback (env : J_ENV) (msgs : list CAN_MSG) : JM unit :=
  match msgs with
  | [] => mret tt
  | c :: msgs =>
      st_when (negb (c_type c =? 84) && c_exten c)
        (J1939_msg_decode env (MsgID c) (c_port c) (Data c) (c_len c));;
      J1939_can_callback env msgs
  end.

(** The statics after [J1939_init]: the table is restored if it was saved. *)
Definition J1939_init (restored : option (list VEHI_FAULT_DATA_T)) : J := {|
  dm2_da := 0; dm2_status := J1939_DM2_IDLE; dm2_func := 0;
  tbl_num := 0; tbl_cb := zeros J1939_DM1_MAX_REG;
  timer_switch := zeros 3; timer_value := [60 * 1000; 3000; 1000];
  is_need_save := 0;
  dtc_buff := replicate (Z.to_nat 256) DTC_MF_zero;
  dtc_table := default dtc_table_zero restored;
  misc_start := 0; misc_end := 0; scan_cnt := 0; events := []
|}.

(** ** Running the table operations *)

Ltac j_proj := cbn [dm2_da dm2_status dm2_func tbl_num tbl_cb timer_switch timer_value is_need_save
  dtc_buff dtc_table misc_start misc_end scan_cnt events].

Ltac j_step :=
  first [rewrite run_assoc | rewrite run_mod | rewrite run_gets | rewrite run_get | rewrite run_ret
    | rewrite run_lift | rewrite run_mret]; j_proj.

Ltac j_sym := repeat (first [j_step | progress cbn [st_when negb andb orb]]).

Lemma get_fault_run i f s :
  0 <= i -> dtc_table s !! Z.to_nat i = Some f -> get_fault i s = Some (f, s).
Proof. intros Hi E. unfold get_fault. rewrite run_gets, mem_get_lookup, E by done. done. Qed.

Lemma put_fault_run i f s :
  0 <= i < len (dtc_table s) ->
  put_fault i f s = Some (tt, {| s with dtc_table := <[Z.to_nat i := f]> (dtc_table s) |}).
Proof. intros Hi. unfold put_fault, set_table. rewrite run_gets, mem_set_ok by done. by rewrite run_lift. Qed.

Lemma get_mf_run i m s :
  0 <= i -> dtc_buff s !! Z.to_nat i = Some m -> get_mf i s = Some (m, s).
Proof. intros Hi E. unfold get_mf. rewrite run_gets, mem_get_lookup, E by done. done. Qed.

Lemma put_mf_run i m s :
  0 <= i < len (dtc_buff s) ->
  put_mf i m s = Some (tt, {| s with dtc_buff := <[Z.to_nat i := m]> (dtc_buff s) |}).
Proof. intros Hi. unfold put_mf, set_buff. rewrite run_gets, mem_set_ok by done. by rewrite run_lift. Qed.

Section run.
Context (env : J_ENV).

Definition next_misc (v : Z) : Z := if 100 <=? v then 0 else v.

Definition started (misc : Z) (d : DTC_T) : VEHI_FAULT_DATA_T :=
  {| status := VF_START; startTime := time_stamp env (next_misc misc); endTime := zeros 5;
     update_time := e_now env; dtc := d |}.

Definition ended (misc : Z) (f : VEHI_FAULT_DATA_T) : VEHI_FAULT_DATA_T :=
  {| f with status := VF_END; endTime := time_stamp env (next_misc misc) |}.

Lemma start_run d i s :
  0 <= i < len (dtc_table s) ->
  J1939_vehi_fault_start env d i s =
    Some (tt, {| s with dtc_table := <[Z.to_nat i := started (misc_start s) d]> (dtc_table s);
                        misc_start := next_misc (misc_start s) + 1 |}).
Proof.
  intros Hi. unfold J1939_vehi_fault_start.
  rewrite (st_bind_run _ _ _ _ _ (put_fault_run i _ s Hi)).
  erewrite st_bind_run; [| apply get_fault_run; [lia | j_proj; apply list_lookup_insert_eq; unfold len in Hi; lia]].
  rewrite run_get. j_proj.
  erewrite st_bind_run; [| apply put_fault_run; j_proj; rewrite len_insert; lia].
  unfold set_misc_start. cbn. rewrite list_insert_insert_eq. done.
Qed.

Lemma end_run i f s :
  0 <= i < len (dtc_table s) -> dtc_table s !! Z.to_nat i = Some f ->
  J1939_vehi_fault_end env i s =
    Some (tt, {| s with dtc_table := <[Z.to_nat i := ended (misc_end s) f]> (dtc_table s);
                        misc_end := next_misc (misc_end s) + 1 |}).
Proof.
  intros Hi E. unfold J1939_vehi_fault_end.
  rewrite (st_bind_run _ _ _ _ _ (get_fault_run i f s ltac:(lia) E)), run_get.
  rewrite (st_bind_run _ _ _ _ _ (put_fault_run i _ s Hi)). done.
Qed.

(** The registered functions. *)
Definition callbacks (s : J) : list Z := take (Z.to_nat (tbl_num s)) (tbl_cb s).

Lemma notify_all_run index f n : forall i s,
  0 <= i -> i + Z.of_nat n <= len (tbl_cb s) -> 0 <= index -> dtc_table s !! Z.to_nat index = Some f ->
  notify_all n i index s =
    Some (tt, {| s with events := events s ++ map (fun cb => EvNotify cb f) (take n (drop (Z.to_nat i) (tbl_cb s))) |}).
Proof.
  induction n as [|n IH]; intros i s Hi Hn Hx E.
  - cbn. rewrite app_nil_r. by destruct s.
  - destruct (mem_get_is_Some (tbl_cb s) i) as [cb Ecb]; [lia |].
    cbn [notify_all]. rewrite run_get, Ecb, run_lift.
    rewrite (st_bind_run _ _ _ _ _ (get_fault_run index f s Hx E)).
    unfold ev. rewrite run_mod. rewrite IH by (j_proj; (done || lia)). j_proj.
    apply mem_get_Some in Ecb as [_ Ecb]. rewrite (drop_S _ _ _ Ecb).
    replace (Z.to_nat (i + 1)) with (S (Z.to_nat i)) by lia.
    cbn [take map]. by rewrite <- app_assoc.
Qed.

Lemma j_notify_run index f s :
  0 <= tbl_num s <= len (tbl_cb s) -> 0 <= index -> dtc_table s !! Z.to_nat index = Some f ->
  notify index s =
    Some (tt, {| s with events := events s ++ map (fun cb => EvNotify cb f) (callbacks s) |}).
Proof.
  intros Ht Hx E. unfold notify. rewrite run_gets.
  rewrite (notify_all_run index f) by (done || lia).
  change (Z.to_nat 0) with 0%nat. by rewrite drop_0.
Qed.

Lemma find_row_run p n : forall i t,
  0 <= i -> i + Z.of_nat n <= len t ->
  exists j, find_row p n i t = Some j /\ i <= j <= i + Z.of_nat n /\
    (j < i + Z.of_nat n -> exists f, t !! Z.to_nat j = Some f /\ p f = true) /\
    (forall k f, i <= Z.of_nat k < j -> t !! k = Some f -> p f = false).
Proof.
  induction n as [|n IH]; intros i t Hi Hn.
  - exists i. repeat split; try lia; intros; lia.
  - destruct (mem_get_is_Some t i) as [f Ef]; [lia |]. cbn [find_row]. rewrite Ef. cbn [mbind option_bind].
    apply mem_get_Some in Ef as [_ Ef].
    destruct (p f) eqn:Hp.
    + exists i. split; [done |]. split; [lia |]. split; [intros _; by exists f | intros; lia].
    + destruct (IH (i + 1) t) as (j & E & Hj & Hfound & Hnot); [lia | lia |].
      exists j. rewrite E. split; [done |]. split; [lia |]. split; [intros; apply Hfound; lia |].
      intros k g Hk Hg. destruct (decide (Z.of_nat k = i)) as [Hki |].
      * replace (Z.to_nat i) with k in Ef by lia. congruence.
      * apply (Hnot k g); [lia | done].
Qed.

End run.

(** ** The active faults, as a map from SPN to trouble code *)

Definition entry (f : VEHI_FAULT_DATA_T) : option (Z * DTC_T) :=
  if status f =? VF_START then Some (spn (dtc f), dtc f) else None.
Definition active_list (t : list VEHI_FAULT_DATA_T) : list (Z * DTC_T) := omap entry t.
Definition active_map (t : list VEHI_FAULT_DATA_T) : gmap Z DTC_T := list_to_map (active_list t).
Definition unique (t : list VEHI_FAULT_DATA_T) : Prop := NoDup (active_list t).*1.

(** What a trouble code of a DM1 message does to the active faults, and which
    faults the registered functions are called with. *)
Definition spec_one (d : DTC_T) (m : gmap Z DTC_T) : gmap Z DTC_T * list (Z * DTC_T) :=
  match m !! spn d with
  | Some d0 =>
      if fmi d0 =? fmi d then (m, [])
      else (<[spn d := d]> m, [(VF_END, d0); (VF_START, d)])
  | None =>
      if decide (Z.of_nat (size m) < VEHI_FAULT_TABLE_NUM) then (<[spn d := d]> m, [(VF_START, d)])
      else (m, [])
  end.

Fixpoint spec_dm1 (ds : list DTC_T) (m : gmap Z DTC_T) : gmap Z DTC_T * list (Z * DTC_T) :=
  match ds with
  | [] => (m, [])
  | d :: ds =>
      let '(m1, n1) := spec_one d m in
      let '(m2, n2) := spec_dm1 ds m1 in
      (m2, n1 ++ n2)
  end.

(** Every registered function is called with every notification. *)
Definition notices (cbs : list Z) (ns : list (Z * DTC_T)) : list (Z * (Z * DTC_T)) :=
  flat_map (fun n => map (fun cb => (cb, n)) cbs) ns.

Definition notice_of (e : J_EVENT) : option (Z * (Z * DTC_T)) :=
  match e with EvNotify cb f => Some (cb, (status f, dtc f)) | _ => None end.

Lemma notices_app cbs a b : notices cbs (a ++ b) = notices cbs a ++ notices cbs b.
Proof. apply flat_map_app. Qed.

Lemma omap_notify cbs f :
  omap notice_of (map (fun cb => EvNotify cb f) cbs) = notices cbs [(status f, dtc f)].
Proof.
  unfold notices. cbn. rewrite app_nil_r. induction cbs as [|cb cbs IH]; [done |].
  cbn. by rewrite <- IH.
Qed.

Lemma active_app a b : active_list (a ++ b) = active_list a ++ active_list b.
Proof. apply omap_app. Qed.

(** The rows around the row [i]. *)
Lemma split_row (t : list VEHI_FAULT_DATA_T) i f :
  t !! i = Some f -> exists l1 l2, t = l1 ++ f :: l2 /\ forall g, <[i := g]> t = l1 ++ g :: l2.
Proof.
  intros E. destruct (list_elem_of_split_length t i f E) as (l1 & l2 & -> & Hl).
  exists l1, l2. split; [done |]. intros g.
  rewrite Hl, <- (Nat.add_0_r (length l1)). by rewrite insert_app_r.
Qed.

Lemma same_entry t i f g :
  t !! i = Some f -> entry g = entry f -> active_list (<[i := g]> t) = active_list t.
Proof.
  intros E H. destruct (split_row t i f E) as (l1 & l2 & -> & ->).
  rewrite !active_app. cbn. by rewrite H.
Qed.

Lemma add_entry t i f g d :
  t !! i = Some f -> entry f = None -> entry g = Some (spn d, d) ->
  active_list (<[i := g]> t) ≡ₚ (spn d, d) :: active_list t.
Proof.
  intros E Hf Hg. destruct (split_row t i f E) as (l1 & l2 & -> & ->).
  rewrite !active_app. cbn. rewrite Hf, Hg. symmetry. apply Permutation_middle.
Qed.

Lemma change_entry t i f g d d0 :
  t !! i = Some f -> entry f = Some (spn d, d0) -> entry g = Some (spn d, d) ->
  exists l, active_list t ≡ₚ (spn d, d0) :: l /\ active_list (<[i := g]> t) ≡ₚ (spn d, d) :: l.
Proof.
  intros E Hf Hg. destruct (split_row t i f E) as (l1 & l2 & -> & ->).
  rewrite !active_app. cbn. rewrite Hf, Hg. exists (active_list l1 ++ active_list l2).
  split; symmetry; apply Permutation_middle.
Qed.

Lemma active_map_perm t l :
  unique t -> active_list t ≡ₚ l -> active_map t = list_to_map l.
Proof. intros U P. unfold active_map. by apply list_to_map_proper. Qed.

Lemma active_map_lookup t v d :
  unique t -> active_map t !! v = Some d <-> (v, d) ∈ active_list t.
Proof. intros U. unfold active_map. by rewrite elem_of_list_to_map. Qed.

Lemma active_elem t v d :
  (v, d) ∈ active_list t <-> exists i f, t !! i = Some f /\ status f = VF_START /\ dtc f = d /\ spn d = v.
Proof.
  unfold active_list. rewrite list_elem_of_omap. split.
  - intros (f & Hf & He). apply list_elem_of_lookup in Hf as [i Hi]. exists i, f.
    unfold entry in He. destruct (Z.eqb_spec (status f) VF_START); [| done]. by injection He as <- <-.
  - intros (i & f & Hi & Hs & <- & <-). exists f. split; [by eapply list_elem_of_lookup_2 |].
    unfold entry. by rewrite Hs.
Qed.

Lemma active_size t : unique t -> size (active_map t) = length (active_list t).
Proof. intros U. unfold active_map. by apply map_size_list_to_map. Qed.

Lemma active_le t : (length (active_list t) <= length t)%nat.
Proof.
  induction t as [|f t IH]; [done |]. cbn. unfold active_list in *. destruct (entry f); cbn; lia.
Qed.

(** The table is full exactly if every row is active. *)
Lemma active_full t :
  length (active_list t) = length t <-> forall i f, t !! i = Some f -> status f = VF_START.
Proof.
  pose proof active_le as Hle.
  induction t as [|f t IH]; [done |]. cbn. specialize (Hle t). unfold entry at 1.
  destruct (Z.eqb_spec (status f) VF_START) as [Hs | Hs]; cbn; split.
  - intros [= H] [|i] g; cbn; [by intros [= <-] |]. by apply IH.
  - intros H. f_equal. apply IH. intros i g Hg. by apply (H (S i)).
  - intros H. unfold active_list in *. cbn in *. lia.
  - intros H. by destruct (Hs (H 0%nat f eq_refl)).
Qed.

(** ** Well-formed states *)

Record mf_ok (m : DTC_MF_T) : Prop := {
  mf_len : len (mf_buff m) = 256 * 7;
  mf_bytes : Forall is_byte (mf_buff m);
  mf_size : is_u16 (total_size m);
  mf_total : is_byte (total_no m);
  mf_cur : 0 <= mf_no m <= total_no m
}.

Definition table_ok (t : list VEHI_FAULT_DATA_T) : Prop := len t = VEHI_FAULT_TABLE_NUM /\ unique t.

(** What the table operations leave alone. *)
Definition rest (s : J) := (tbl_num s, tbl_cb s, timer_switch s, timer_value s, dtc_buff s, scan_cnt s).

Record wf (s : J) : Prop := {
  wf_table : table_ok (dtc_table s);
  wf_cb : len (tbl_cb s) = J1939_DM1_MAX_REG /\ 0 <= tbl_num s <= J1939_DM1_MAX_REG;
  wf_timer : len (timer_switch s) = 3 /\ len (timer_value s) = 3;
  wf_buff : len (dtc_buff s) = 256 /\ Forall mf_ok (dtc_buff s);
  wf_scan : 0 <= scan_cnt s
}.

Lemma wf_same s s' : wf s -> rest s' = rest s -> table_ok (dtc_table s') -> wf s'.
Proof. intros [? ? ? ? ?] [= E1 E2 E3 E4 E5 E6] T. constructor; [done | congruence..]. Qed.

Section steps.
Context (env : J_ENV).

(** [m] changes the active faults and notifies as the pair [o] says. *)
Definition reports (m : JM unit) (s : J) (o : gmap Z DTC_T * list (Z * DTC_T)) : Prop :=
  exists s', m s = Some (tt, s') /\ wf s' /\ rest s' = rest s /\
    active_map (dtc_table s') = fst o /\
    omap notice_of (events s') = omap notice_of (events s) ++ notices (callbacks s) (snd o).

Lemma entry_started misc d : entry (started env misc d) = Some (spn d, d).
Proof. done. Qed.

Lemma unique_perm t l : active_list t ≡ₚ l -> NoDup l.*1 -> unique t.
Proof. unfold unique. by intros ->. Qed.

Lemma callbacks_rest s s' : rest s' = rest s -> callbacks s' = callbacks s.
Proof. unfold callbacks. intros [= -> -> _ _ _ _]. done. Qed.

(** A new fault in the free row [k]. *)
Lemma new_fault d k f s :
  wf s -> 0 <= k < VEHI_FAULT_TABLE_NUM -> dtc_table s !! Z.to_nat k = Some f -> entry f = None ->
  active_map (dtc_table s) !! spn d = None ->
  reports (J1939_vehi_fault_start env d k;; set_need_save 1;; notify k) s
    (<[spn d := d]> (active_map (dtc_table s)), [(VF_START, d)]).
Proof.
  intros W Hk Ef Hf Hd. destruct W as [[Hl Hu] Hcb Ht Hb Hs] eqn:HW. clear HW.
  unfold reports. rewrite (st_bind_run _ _ _ _ _ (start_run env d k s ltac:(lia))).
  unfold set_need_save. rewrite run_mod. j_proj.
  erewrite j_notify_run; [| j_proj; lia | lia | j_proj; apply list_lookup_insert_eq; unfold len in Hl; lia].
  eexists. split; [done |]. j_proj.
  assert (active_list (<[Z.to_nat k := started env (misc_start s) d]> (dtc_table s)) ≡ₚ
    (spn d, d) :: active_list (dtc_table s)) as P by (by apply (add_entry _ _ f)).
  assert (NoDup ((spn d, d) :: active_list (dtc_table s)).*1) as ND.
  { cbn. apply NoDup_cons_2; [| done]. unfold active_map in Hd.
    by apply not_elem_of_list_to_map_2. }
  assert (unique (<[Z.to_nat k := started env (misc_start s) d]> (dtc_table s))) as U
    by (by apply (unique_perm _ _ P)).
  split; [apply (wf_same s); [done | done |]; split; j_proj; [by rewrite len_insert | done] |].
  split; [done |]. split.
  - by rewrite (active_map_perm _ _ U P).
  - rewrite omap_app, omap_notify. done.
Qed.

(** The fault of row [j] is replaced by one with the same SPN. *)
Lemma replace_fault d j f s :
  wf s -> 0 <= j < VEHI_FAULT_TABLE_NUM -> dtc_table s !! Z.to_nat j = Some f ->
  entry f = Some (spn d, dtc f) ->
  reports (J1939_vehi_fault_end env j;; notify j;; J1939_vehi_fault_start env d j;; notify j;;
           set_need_save 1) s
    (<[spn d := d]> (active_map (dtc_table s)), [(VF_END, dtc f); (VF_START, d)]).
Proof.
  intros W Hj Ef Hf. destruct W as [[Hl Hu] Hcb Ht Hb Hs] eqn:HW. clear HW.
  unfold reports. rewrite (st_bind_run _ _ _ _ _ (end_run env j f s ltac:(lia) Ef)).
  erewrite st_bind_run;
    [| apply j_notify_run; j_proj; [lia | lia | apply list_lookup_insert_eq; unfold len in Hl; lia]].
  j_proj. erewrite st_bind_run; [| apply start_run; j_proj; rewrite len_insert; lia].
  j_proj. rewrite list_insert_insert_eq.
  erewrite st_bind_run;
    [| apply j_notify_run; j_proj; [lia | lia | apply list_lookup_insert_eq; unfold len in Hl; lia]].
  unfold set_need_save. eexists. split; [done |]. j_proj.
  destruct (change_entry (dtc_table s) _ f (started env (misc_start s) d) d (dtc f) Ef Hf) as (l & P1 & P2);
    [done |].
  assert (NoDup ((spn d, d) :: l).*1) as ND.
  { unfold unique in Hu. rewrite P1 in Hu. done. }
  assert (unique (<[Z.to_nat j := started env (misc_start s) d]> (dtc_table s))) as U
    by (by apply (unique_perm _ _ P2)).
  split; [apply (wf_same s); [done | done |]; split; j_proj; [by rewrite len_insert | done] |].
  split; [done |]. split.
  - rewrite (active_map_perm _ _ U P2), (active_map_perm _ _ Hu P1). cbn. by rewrite insert_insert_eq.
  - rewrite !omap_app, !omap_notify, <- app_assoc, <- notices_app. done.
Qed.

Lemma dm1_one_run d s : wf s -> reports (dm1_one env d) s (spec_one d (active_map (dtc_table s))).
Proof.
  intros W. pose proof (wf_table s W) as [Hl Hu].
  unfold dm1_one. unfold reports. rewrite run_gets.
  destruct (find_row_run (active_spn (spn d)) (Z.to_nat VEHI_FAULT_TABLE_NUM) 0 (dtc_table s))
    as (j & Ej & Hj & Hfound & Hnone); [lia | unfold VEHI_FAULT_TABLE_NUM in *; lia |].
  change (0 + Z.of_nat (Z.to_nat VEHI_FAULT_TABLE_NUM)) with VEHI_FAULT_TABLE_NUM in *.
  rewrite Ej, run_lift. unfold spec_one.
  destruct (Z.eqb_spec j VEHI_FAULT_TABLE_NUM) as [Hjn | Hjn].
  - assert (active_map (dtc_table s) !! spn d = None) as Hd.
    { apply eq_None_not_Some. intros [d0 Hd]. apply active_map_lookup in Hd; [| done].
      apply active_elem in Hd as (i & f & Ef & Hst & <- & Hsp).
      assert (active_spn (spn d) f = false) as Ha.
      { apply (Hnone i f); [| done]. apply lookup_lt_Some in Ef. unfold len in Hl. lia. }
      unfold active_spn in Ha. rewrite Hsp, Hst, Z.eqb_refl in Ha. done. }
    rewrite Hd, active_size by done.
    destruct (find_row_run inactive (Z.to_nat VEHI_FAULT_TABLE_NUM) 0 (dtc_table s))
      as (k & Ek & Hk & Hkf & Hkn); [lia | unfold VEHI_FAULT_TABLE_NUM in *; lia |].
    change (0 + Z.of_nat (Z.to_nat VEHI_FAULT_TABLE_NUM)) with VEHI_FAULT_TABLE_NUM in *.
    rewrite Ek, run_lift. pose proof (active_full (dtc_table s)) as Hfull.
    destruct (Z.eqb_spec k VEHI_FAULT_TABLE_NUM) as [Hkk | Hkk].
    + destruct (decide _) as [Hlt | _].
      { exfalso. enough (length (active_list (dtc_table s)) = length (dtc_table s)) by (unfold len in Hl; lia).
        apply Hfull. intros i f Ef. assert (inactive f = false) as Hi.
        { apply (Hkn i f); [| done]. apply lookup_lt_Some in Ef. unfold len in Hl. lia. }
        unfold inactive in Hi. destruct (Z.eqb_spec (status f) VF_START); done. }
      exists s. cbn. by rewrite app_nil_r.
    + destruct Hkf as (f & Ef & Hi); [lia |]. unfold inactive in Hi.
      destruct (decide _) as [_ | Hge].
      * apply (new_fault d k f); [done | lia | done | | done].
        unfold entry. by destruct (status f =? VF_START).
      * exfalso. apply Hge. destruct Hfull as [Hfull _].
        assert (length (active_list (dtc_table s)) <> length (dtc_table s)) as Hne.
        { intros He. rewrite (Hfull He _ _ Ef) in Hi. done. }
        assert (length (active_list (dtc_table s)) <= length (dtc_table s))%nat
          by apply active_le.
        unfold len in Hl. lia.
  - destruct Hfound as (f & Ef & Ha); [lia |]. unfold active_spn in Ha.
    apply andb_true_iff in Ha as [Hsp%Z.eqb_eq Hst%Z.eqb_eq].
    rewrite (st_bind_run _ _ _ _ _ (get_fault_run j f s ltac:(lia) Ef)).
    assert (active_map (dtc_table s) !! spn d = Some (dtc f)) as ->.
    { apply active_map_lookup; [done |]. apply active_elem. by exists (Z.to_nat j), f. }
    destruct (fmi (dtc f) =? fmi d); cbn [negb].
    + rewrite put_fault_run by lia. eexists. split; [done |].
      assert (active_list (<[Z.to_nat j := {| f with update_time := e_now env |}]> (dtc_table s)) =
        active_list (dtc_table s)) as He by (by apply (same_entry _ _ f)).
      split; [apply (wf_same s); [done | done |] |].
      { split; j_proj; [by rewrite len_insert |]. unfold unique. by rewrite He. }
      split; [done |]. j_proj. unfold active_map. rewrite He. cbn. by rewrite app_nil_r.
    + apply (replace_fault d j f); [done | lia | done |]. unfold entry. by rewrite Hst, <- Hsp.
Qed.

Lemma dm1_pro_run ds : forall s, wf s -> reports (J1939_dm1_pro env ds) s (spec_dm1 ds (active_map (dtc_table s))).
Proof.
  induction ds as [|d ds IH]; intros s W.
  - exists s. cbn. by rewrite app_nil_r.
  - cbn [J1939_dm1_pro spec_dm1].
    destruct (dm1_one_run d s W) as (s1 & E1 & W1 & R1 & A1 & N1).
    destruct (IH s1 W1) as (s2 & E2 & W2 & R2 & A2 & N2).
    rewrite A1 in A2, N2. destruct (spec_one d _) as [m1 n1]. cbn [fst snd] in *.
    destruct (spec_dm1 ds m1) as [m2 n2]. cbn [fst snd] in *.
    exists s2. split; [by rewrite (st_bind_run _ _ _ _ _ E1) |]. split; [done |].
    split; [congruence |]. split; [done |].
    cbn [snd]. rewrite N2, N1, <- app_assoc, notices_app, (callbacks_rest s s1 R1). done.
Qed.

End steps.

(** ** Timeouts and messages *)

Section bounds.
Context (env : J_ENV).

Lemma notify_until_run index n : forall i s,
  0 <= i -> i + Z.of_nat n <= len (tbl_cb s) -> 0 <= index < len (dtc_table s) ->
  exists l, notify_until env n i index s = Some (tt, {| s with events := events s ++ l |}).
Proof.
  induction n as [|n IH]; intros i s Hi Hn Hx.
  - exists []. cbn. rewrite app_nil_r. by destruct s.
  - destruct (mem_get_is_Some (tbl_cb s) i) as [cb Ecb]; [lia |].
    destruct (mem_get_is_Some (dtc_table s) index Hx) as [f Ef].
    apply mem_get_Some in Ef as [_ Ef].
    cbn [notify_until]. rewrite run_get, Ecb, run_lift.
    rewrite (st_bind_run _ _ _ _ _ (get_fault_run index f s ltac:(lia) Ef)).
    unfold ev. rewrite run_mod. destruct (e_notify env cb =? 0).
    + destruct (IH (i + 1) {| s with events := events s ++ [EvNotify cb f] |}) as (l & E);
        [lia | j_proj; lia | done |].
      exists ([EvNotify cb f] ++ l). rewrite E. j_proj. by rewrite <- app_assoc.
    + by exists [EvNotify cb f].
Qed.

Lemma end_entry misc t i f :
  unique t -> t !! i = Some f -> unique (<[i := ended env misc f]> t).
Proof.
  intros U E. destruct (split_row t i f E) as (l1 & l2 & -> & ->).
  unfold unique in *. rewrite !active_app in *. cbn [active_list omap list_omap] in *.
  change (entry (ended env misc f)) with (@None (Z * DTC_T)). cbn.
  destruct (entry f) as [[v d]|]; [| done]. cbn in U.
  rewrite fmap_app in *. cbn in U. rewrite <- Permutation_middle in U. by apply NoDup_cons_1_2 in U.
Qed.

Lemma scan_row_run i s :
  wf s -> 0 <= i < VEHI_FAULT_TABLE_NUM ->
  exists s', scan_row env i s = Some (tt, s') /\ wf s' /\ rest s' = rest s.
Proof.
  intros W Hi. pose proof W as [[Hl Hu] Hcb _ _ _].
  destruct (mem_get_is_Some (dtc_table s) i) as [f Ef]; [lia |]. apply mem_get_Some in Ef as [_ Ef].
  unfold scan_row. rewrite (st_bind_run _ _ _ _ _ (get_fault_run i f s ltac:(lia) Ef)).
  destruct (_ && _); cbn [st_when]; [| by exists s].
  rewrite (st_bind_run _ _ _ _ _ (end_run env i f s ltac:(lia) Ef)), run_gets. j_proj.
  edestruct (notify_until_run i (Z.to_nat (tbl_num s)) 0) as (l & El); cycle 3.
  - rewrite El. eexists. split; [done |]. split; [| done].
    apply (wf_same s); [done | done |]. split; j_proj; [by rewrite len_insert | by apply end_entry].
  - lia.
  - j_proj. lia.
  - j_proj. rewrite len_insert. lia.
Qed.

Lemma timeout_run id s :
  wf s -> scan_cnt s < 2 ^ 31 - 1 -> exists s', J1939_timeout env id s = Some (tt, s') /\ wf s'.
Proof.
  intros W Hc. unfold J1939_timeout. destruct (_ =? _); [| by exists s].
  unfold J1939_vehi_fault_scan.
  destruct (st_for_inv (fun _ s' => wf s' /\ rest s' = rest s) (scan_row env)
    (Z.to_nat VEHI_FAULT_TABLE_NUM) 0 s) as (s1 & E1 & W1 & R1); [done | |].
  { intros j s1 Hj [W1 R1]. destruct (scan_row_run j s1 W1) as (s2 & E2 & W2 & R2);
      [unfold VEHI_FAULT_TABLE_NUM in *; lia |]. exists s2. split; [done |]. split; congruence. }
  rewrite (st_bind_run _ _ _ _ _ E1), run_get.
  assert (scan_cnt s1 = scan_cnt s) as -> by (by injection R1).
  destruct (Z.ltb_spec (scan_cnt s) (2 ^ 31 - 1)); [| lia]. rewrite run_lift.
  destruct W1 as [? ? ? ? Hs]. pose proof (wf_scan s W).
  destruct (_ && _).
  - eexists. split; [reflexivity |]. constructor; cbn; (done || lia).
  - eexists. split; [reflexivity |]. constructor; cbn; (done || lia).
Qed.

(** The loop over the trouble codes: it succeeds exactly if they fit. *)
Lemma dm_loop_fits length port sa data : forall fuel i,
  0 <= i -> 2 + length <= len data -> length < 4 * (temp_dtc_size + 1) ->
  length < 4 * (i + Z.of_nat fuel) -> (0 < fuel)%nat ->
  exists ds, dm_loop fuel i length port sa data = Some ds.
Proof.
  induction fuel as [|fuel IH]; intros i Hi Hl Hs Hf H0; [lia |].
  cbn [dm_loop]. destruct (Z.leb_spec (i * 4 + 4) length); [| by exists []]. cbv zeta.
  destruct (mem_get_is_Some data (2 + i * 4)) as [b0 ->]; [lia |].
  destruct (mem_get_is_Some data (2 + i * 4 + 1)) as [b1 ->]; [lia |].
  destruct (mem_get_is_Some data (2 + i * 4 + 2)) as [b2 ->]; [lia |].
  destruct (mem_get_is_Some data (2 + i * 4 + 3)) as [b3 ->]; [lia |].
  cbn [mbind option_bind]. destruct (Z.ltb_spec i temp_dtc_size); [| lia].
  destruct (IH (i + 1)) as [ds ->]; [lia.. |]. by eexists.
Qed.

Lemma dm_loop_overflow length port sa data : forall fuel i,
  0 <= i <= temp_dtc_size -> 4 * (temp_dtc_size + 1) <= length ->
  dm_loop fuel i length port sa data = None.
Proof.
  induction fuel as [|fuel IH]; intros i Hi Hl; [done |].
  cbn [dm_loop]. destruct (Z.leb_spec (i * 4 + 4) length); [| lia]. cbv zeta.
  destruct (mem_get data (2 + i * 4)); [cbn [mbind option_bind] | done].
  destruct (mem_get data (2 + i * 4 + 1)); [cbn [mbind option_bind] | done].
  destruct (mem_get data (2 + i * 4 + 2)); [cbn [mbind option_bind] | done].
  destruct (mem_get data (2 + i * 4 + 3)); [cbn [mbind option_bind] | done].
  destruct (Z.ltb_spec i temp_dtc_size); [| done].
  rewrite IH by lia. done.
Qed.

(** The largest data that fit: the lamp status, 256 codes and a remainder. *)
Definition dm_max : Z := 2 + 4 * temp_dtc_size + 3.

Lemma add_dm_run port sa data n s :
  wf s -> n <= len data -> n <= dm_max ->
  exists s', J1939_add_dm_data env port sa data n s = Some (tt, s') /\ wf s' /\ rest s' = rest s.
Proof.
  intros W Hn Hm. unfold J1939_add_dm_data. destruct (Z.leb_spec n 2); [by exists s |].
  unfold dm_max in Hm.
  destruct (dm_loop_fits (n - 2) port sa data (Z.to_nat n) 0) as [ds ->]; [lia.. |].
  rewrite run_lift. destruct (dm1_pro_run env ds s W) as (s' & ? & ? & ? & _). by exists s'.
Qed.

Lemma add_dm_overflow port sa data n s :
  dm_max < n -> J1939_add_dm_data env port sa data n s = None.
Proof.
  unfold dm_max, J1939_add_dm_data. intros Hn. unfold temp_dtc_size in Hn.
  destruct (Z.leb_spec n 2); [lia |].
  rewrite dm_loop_overflow by (unfold temp_dtc_size; lia). done.
Qed.

(** The message completes a transfer of more data than the codes fit. *)
Definition completes_oversize (s : J) (canid : Z) (data : list Z) : bool :=
  (Z.land (Z.shiftr canid 8) 0x3ffff =? PGN_TP_DT) &&
  match mem_get (dtc_buff s) (Z.land canid 255), mem_get data 0 with
  | Some m, Some c => (c =? mf_no m + 1) && (c =? total_no m) && (dm_max <? total_size m)
  | _, _ => false
  end.

Lemma wf_set_mf s i m : wf s -> mf_ok m -> wf {| s with dtc_buff := <[i := m]> (dtc_buff s) |}.
Proof.
  intros [? ? ? [Hb Hf] ?] M. constructor; cbn; auto. rewrite len_insert. split; [done |].
  by apply Forall_insert.
Qed.

Lemma land_255 z : 0 <= Z.land z 255 < 256.
Proof. change 255 with (Z.ones 8). rewrite Z.land_ones by lia. apply Z.mod_pos_bound. lia. Qed.

Lemma set_timer_run id v s :
  wf s -> J1939_HEART_TIMER <= id < J1939_HEART_TIMER + 3 ->
  exists s', J1939_set_timer id v s = Some (tt, s') /\ wf s'.
Proof.
  intros W Hid. pose proof W as [T Hcb [Hs Hv] Hb Hc]. unfold J1939_set_timer.
  destruct (Z.leb_spec J1939_HEART_TIMER id); [| lia].
  rewrite run_get, mem_set_ok by lia. rewrite run_lift, run_mod. j_proj.
  unfold ev. rewrite run_mod. j_proj. destruct (_ =? _).
  - destruct (mem_get_is_Some (timer_value s) (id - J1939_HEART_TIMER)) as [ms Ems]; [lia |].
    rewrite Ems, run_lift. eexists. split; [reflexivity |].
    constructor; cbn; auto. by rewrite len_insert.
  - eexists. split; [reflexivity |]. constructor; cbn; auto. by rewrite len_insert.
Qed.


Lemma get_mf_ok s sa :
  wf s -> 0 <= sa < 256 -> exists m, mem_get (dtc_buff s) sa = Some m /\ get_mf sa s = Some (m, s) /\ mf_ok m.
Proof.
  intros W Hs. destruct W as [_ _ _ [Hb Hf] _].
  destruct (mem_get_is_Some (dtc_buff s) sa) as [m Em]; [lia |]. exists m. split; [done |].
  apply mem_get_Some in Em as [_ Em]. split; [apply get_mf_run; [lia | done] |].
  by eapply Forall_lookup_1.
Qed.

(** A packet of a transfer is stored. *)
Lemma packet_run m c data :
  mf_ok m -> Forall is_byte data -> len data = 8 -> 1 <= c <= total_no m ->
  exists b, memcpy (mf_buff m) (7 * (c - 1)) data 1 7 = Some b /\
    mf_ok {| m with mf_no := c; mf_buff := b |} /\
    mem_write (mf_buff m) (7 * (c - 1)) (take 7 (drop 1 data)) = Some b.
Proof.
  intros [Hl Hb Hs Ht Hc] Hd Hn Hcur. unfold memcpy. unfold is_byte in Ht.
  rewrite mem_read_ok by lia. cbn [mbind option_bind].
  change (Z.to_nat 7) with 7%nat. change (Z.to_nat 1) with 1%nat.
  assert (len (take 7 (drop 1 data)) = 7) as H7 by (rewrite len_take, len_drop; lia).
  destruct (mem_write (mf_buff m) (7 * (c - 1)) (take 7 (drop 1 data))) as [b|] eqn:E;
    [| rewrite mem_write_ok in E by lia; done].
  exists b. split; [done |]. split; [| done].
  constructor; cbn; auto; [| | lia].
  - apply mem_write_len in E. lia.
  - rewrite mem_write_ok in E by lia. injection E as <-.
    repeat apply Forall_app_2; auto using Forall_take, Forall_drop.
Qed.

Lemma decode_run canid port data dlc s :
  wf s -> Forall is_byte data -> len data = 8 -> dlc <= 8 ->
  if completes_oversize s canid data then J1939_msg_decode env canid port data dlc s = None
  else exists s', J1939_msg_decode env canid port data dlc s = Some (tt, s') /\ wf s'.
Proof.
  intros W Hd Hn Hdlc. unfold completes_oversize, J1939_msg_decode.
  pose proof (land_255 canid) as Hsa. set (sa := Z.land canid 255) in *.
  set (pgn := Z.land (Z.shiftr canid 8) 0x3ffff).
  destruct (mem_get_is_Some data 0) as [c Ec]; [lia |].
  destruct (mem_get_is_Some data 1) as [b1 E1]; [lia |].
  destruct (mem_get_is_Some data 2) as [b2 E2]; [lia |].
  destruct (mem_get_is_Some data 3) as [b3 E3]; [lia |].
  assert (forall i b, mem_get data i = Some b -> is_byte b) as Hbyte.
  { intros i b E. apply mem_get_Some in E as [_ E]. by eapply Forall_lookup_1. }
  destruct (get_mf_ok s sa W Hsa) as (m & Em & Eg & M).
  pose proof (wf_buff s W) as [Hlb _].
  destruct (Z.eqb_spec pgn PGN_DM1) as [Hp | Hp].
  { rewrite Hp. cbn [Z.eqb Pos.eqb PGN_DM1 PGN_TP_DT andb].
    destruct (add_dm_run port sa data dlc s W) as (s' & E & W' & _);
      [lia | unfold dm_max, temp_dtc_size; lia |]. by exists s'. }
  destruct (Z.eqb_spec pgn PGN_TP_CM) as [Hp2 | Hp2].
  { rewrite Hp2. cbn [Z.eqb Pos.eqb PGN_TP_CM PGN_TP_DT andb].
    rewrite E1, run_lift, E2, run_lift, E3, run_lift, (st_bind_run _ _ _ _ _ Eg).
    rewrite put_mf_run by lia. eexists. split; [done |]. apply wf_set_mf; [done |].
    pose proof (Hbyte _ _ E1). pose proof (Hbyte _ _ E2). pose proof (Hbyte _ _ E3). unfold is_byte in *.
    destruct M. constructor; cbn; auto; [| lia].
    rewrite lor_shiftl_add by lia. unfold is_u16. lia. }
  destruct (Z.eqb_spec pgn PGN_TP_DT) as [Hp3 | Hp3]; cbn [andb].
  2: { destruct (pgn =? PGN_DM2); [| by exists s]. rewrite run_mod.
       set (s1 := {| s with dm2_status := J1939_DM2_IDLE |}).
       assert (wf s1) as W1 by (by apply (wf_same s); [| | apply W]).
       destruct (set_timer_run J1939_REQ_TIMER J1939_STOP_TIMER s1 W1) as (s2 & E & W2);
         [unfold J1939_HEART_TIMER, J1939_REQ_TIMER; lia |].
       rewrite (st_bind_run _ _ _ _ _ E), run_get. destruct (negb _); [| by exists s2].
       eexists. split; [done |]. by apply (wf_same s2); [| | apply W2]. }
  rewrite Em, Ec, run_lift, (st_bind_run _ _ _ _ _ Eg).
  destruct (Z.ltb_spec (total_no m) c) as [Hlt | Hlt]; cbn [orb].
  { destruct (Z.eqb_spec c (total_no m)); [lia |]. rewrite andb_false_r. cbn [andb].
    rewrite put_mf_run by lia. eexists. split; [done |]. apply wf_set_mf; [done |].
    destruct M. constructor; cbn; auto; unfold is_u16, is_byte; lia. }
  destruct (Z.eqb_spec c (mf_no m + 1)) as [Hno | Hno]; cbn [negb andb].
  2: { rewrite put_mf_run by lia. eexists. split; [done |]. apply wf_set_mf; [done |].
       destruct M. constructor; cbn; auto; unfold is_u16, is_byte; lia. }
  pose proof (mf_cur m M).
  destruct (packet_run m c data M Hd Hn) as (b & Eb & Mb & _); [lia |].
  rewrite Eb, run_lift.
  erewrite st_bind_run by (apply put_mf_run; lia).
  set (s1 := {| s with dtc_buff := _ |}).
  assert (wf s1) as W1 by (by apply wf_set_mf).
  destruct (Z.eqb_spec c (total_no m)) as [Hlast | Hlast]; cbn [andb]; [| by exists s1].
  destruct (Z.ltb_spec dm_max (total_size m)) as [Hov | Hfit].
  - unfold mbind. cbn. by rewrite add_dm_overflow.
  - destruct (add_dm_run port sa b (total_size m) s1 W1) as (s2 & E & W2 & R2).
    { pose proof (mf_len _ Mb) as Hmb. cbn in Hmb. rewrite Hmb. unfold dm_max, temp_dtc_size in Hfit. lia. }
    { done. }
    rewrite (st_bind_run _ _ _ _ _ E).
    destruct (get_mf_ok s2 sa W2 Hsa) as (m2 & _ & Eg2 & M2).
    rewrite (st_bind_run _ _ _ _ _ Eg2). pose proof (wf_buff s2 W2) as [Hlb2 _].
    rewrite put_mf_run by lia. eexists. split; [done |]. apply wf_set_mf; [done |].
    destruct M2. constructor; cbn; auto; unfold is_u16, is_byte; lia.
Qed.

End bounds.

(** ** Steps of the module *)

Inductive J_MSG :=
| JCan (msgs : list CAN_MSG)          (* J1939_can_callback *)
| JTimeout (timer_id : Z)             (* J1939_timeout *)
| JRegister (cb : Z)                  (* J1939_dm1_register *)
| JDm2 (port da cb : Z)               (* J1939_dm2_request *)
| JSave.                              (* J1939_fault_save *)

Definition j_step (env : J_ENV) (m : J_MSG) : JM unit :=
  match m with
  | JCan msgs => J1939_can_callback env msgs
  | JTimeout id => J1939_timeout env id
  | JRegister cb => J1939_dm1_register cb;; mret tt
  | JDm2 port da cb => J1939_dm2_request port da cb;; mret tt
  | JSave => J1939_fault_save env;; mret tt
  end.

(** Frames as the CAN module delivers them. *)
Definition can_ok (c : CAN_MSG) : Prop := Forall is_byte (Data c) /\ len (Data c) = 8 /\ c_len c <= 8.

Definition jmsg_ok (m : J_MSG) : Prop := match m with JCan msgs => Forall can_ok msgs | _ => True end.

Inductive j_run : J -> J -> Prop :=
| j_run_refl s : j_run s s
| j_run_step s1 s2 s3 env m :
    j_run s1 s2 -> jmsg_ok m -> j_step env m s2 = Some (tt, s3) -> j_run s1 s3.

Lemma init_wf restored : (forall t, restored = Some t -> table_ok t) -> wf (J1939_init restored).
Proof.
  intros Hr. constructor; cbn; try done; try lia.
  - destruct restored as [t|]; [by apply Hr |].
    split; [done |]. unfold unique.
    replace (active_list _) with (@nil (Z * DTC_T)) by reflexivity.
    constructor.
  - split; [done |]. apply Forall_replicate. constructor; try done; cbn; try lia.
    by apply Forall_replicate.
Qed.

Lemma can_wf env msgs : forall s s',
  wf s -> Forall can_ok msgs -> J1939_can_callback env msgs s = Some (tt, s') -> wf s'.
Proof.
  induction msgs as [|c msgs IH]; intros s s' W Hc; [by intros [= <-] |].
  apply Forall_cons_1 in Hc as [(Hb & Hl & Hd) Hcs].
  cbn [J1939_can_callback]. intros ([] & s1 & E1 & E2)%st_bind_inv.
  apply (IH s1); [| done | done]. destruct (negb _ && _); cbn [st_when] in E1; [| by injection E1 as <-].
  pose proof (decode_run env (MsgID c) (c_port c) (Data c) (c_len c) s W Hb Hl Hd) as H.
  destruct (completes_oversize _ _ _); [congruence |]. destruct H as (s2 & E & W2). congruence.
Qed.

Lemma register_wf cb s r s' : wf s -> J1939_dm1_register cb s = Some (r, s') -> wf s'.
Proof.
  intros W. unfold J1939_dm1_register. destruct (cb =? 0); [by intros [= _ <-] |].
  rewrite run_get. destruct (Z.leb_spec J1939_DM1_MAX_REG (tbl_num s)); [by intros [= _ <-] |].
  destruct W as [? [Hl Hu] ? ? ?]. unfold J1939_DM1_MAX_REG in *.
  rewrite mem_set_ok by lia. rewrite run_lift, run_mod. intros [= _ <-].
  constructor; cbn; auto. rewrite len_insert, u8_small by (unfold is_byte; lia).
  unfold J1939_DM1_MAX_REG. lia.
Qed.

Lemma step_wf env m s s' : wf s -> jmsg_ok m -> j_step env m s = Some (tt, s') -> wf s'.
Proof.
  intros W Hm. destruct m as [msgs | id | cb | port da cb |]; cbn [j_step].
  - by apply can_wf.
  - intros E. unfold J1939_timeout in E. destruct (Z.ltb_spec (scan_cnt s) (2 ^ 31 - 1)) as [Hc | Hc].
    + destruct (timeout_run env id s W Hc) as (s1 & E1 & W1). unfold J1939_timeout in E1. congruence.
    + destruct (_ =? _); [| by injection E as <-]. unfold J1939_vehi_fault_scan in E.
      destruct (st_for_inv (fun _ s' => wf s' /\ rest s' = rest s) (scan_row env)
        (Z.to_nat VEHI_FAULT_TABLE_NUM) 0 s) as (s1 & E1 & W1 & R1); [done | |].
      { intros j s1 Hj [W1 R1]. destruct (scan_row_run env j s1 W1) as (s2 & E2 & W2 & R2);
          [unfold VEHI_FAULT_TABLE_NUM in *; lia |]. exists s2. split; [done |]. split; congruence. }
      rewrite (st_bind_run _ _ _ _ _ E1), run_get in E.
      assert (scan_cnt s1 = scan_cnt s) as H by (by injection R1).
      rewrite H in E. destruct (Z.ltb_spec (scan_cnt s) (2 ^ 31 - 1)); [lia | done].
  - intros (r & s1 & E & [= <-])%st_bind_inv. by eapply register_wf.
  - unfold J1939_dm2_request. intros (r & s1 & E & [= <-])%st_bind_inv. rewrite run_get in E.
    destruct (_ =? _); [by injection E as _ <- |]. rewrite run_mod in E.
    set (s2 := {| s with dm2_da := _; dm2_status := _; dm2_func := _ |}) in E.
    assert (wf s2) as W2 by (by apply (wf_same s); [| | apply W]).
    destruct (set_timer_run J1939_REQ_TIMER J1939_START_TIMER s2 W2) as (s3 & E3 & W3);
      [unfold J1939_HEART_TIMER, J1939_REQ_TIMER; lia |].
    rewrite (st_bind_run _ _ _ _ _ E3) in E. by injection E as _ <-.
  - intros (r & s1 & E & [= <-])%st_bind_inv. injection E as _ <-.
    by apply (wf_same s); [| | apply W].
Qed.

Lemma j_run_wf s s' : wf s -> j_run s s' -> wf s'.
Proof.
  intros W. induction 1 as [|s1 s2 s3 env m _ IH Hm E]; [done |].
  eapply step_wf; [by apply IH | exact Hm | exact E].
Qed.

(** ** Transfers *)

(** A trouble code in four bytes, and the range of its fields. *)
Definition encode_dtc (d : DTC_T) : list Z :=
  [spn d mod 256; spn d / 256 mod 256; spn d / 65536 * 32 + fmi d; cm d * 128 + oc d].

Record dtc_ok (sa port : Z) (d : DTC_T) : Prop := {
  ok_spn : 0 <= spn d < 2 ^ 19; ok_fmi : 0 <= fmi d < 32; ok_cm : 0 <= cm d < 2;
  ok_oc : 0 <= oc d < 128; ok_sa : dtc_sa d = sa; ok_port : dtc_port d = port
}.

Definition dm1_payload (lamps : Z * Z) (ds : list DTC_T) : list Z :=
  fst lamps :: snd lamps :: flat_map encode_dtc ds.

(** The frames of a broadcast of [p]: the announcement and packets of seven bytes,
    the last one filled up. *)
Definition packets (p : list Z) : Z := (len p + 6) / 7.
Definition padded (p : list Z) : list Z := p ++ replicate (Z.to_nat (7 * packets p - len p)) 255.

Definition frame (pgn sa port : Z) (data : list Z) : CAN_MSG :=
  {| c_type := 0; c_exten := true; MsgID := pgn * 256 + sa; c_port := port; Data := data; c_len := 8 |}.

Definition packet (p : list Z) (k : Z) : list Z :=
  k :: take 7 (drop (Z.to_nat (7 * (k - 1))) (padded p)).

Definition tp_transfer (sa port : Z) (p : list Z) : list CAN_MSG :=
  frame PGN_TP_CM sa port [32; len p mod 256; len p / 256; packets p; 255; 0xCA; 0xFE; 0] ::
  map (fun k => frame PGN_TP_DT sa port (packet p k)) (seqZ 1 (packets p)).

Lemma dtc_decode sa port d :
  dtc_ok sa port d -> is_byte sa -> is_byte port ->
  {| spn := spn d mod 256 + spn d / 256 mod 256 * 256 +
       Z.shiftr (spn d / 65536 * 32 + fmi d) 5 * 256 * 256;
     fmi := Z.land (spn d / 65536 * 32 + fmi d) 31; cm := Z.shiftr (cm d * 128 + oc d) 7;
     oc := Z.land (cm d * 128 + oc d) 127; dtc_sa := u8 sa; dtc_port := u8 port |} = d.
Proof.
  intros [Hs Hf Hc Ho Ha Hp] Hsa Hport.
  change 31 with (Z.ones 5). change 127 with (Z.ones 7). rewrite !Z.land_ones, !Z.shiftr_div_pow2 by lia.
  change (2 ^ 5) with 32. change (2 ^ 7) with 128.
  rewrite !(Z.add_comm (_ * _) (fmi d)), !(Z.add_comm (_ * _) (oc d)).
  rewrite !Z.div_add, !Z.mod_add, !(Z.mod_small (fmi d)), !(Z.mod_small (oc d)),
    !(Z.div_small (fmi d)), !(Z.div_small (oc d)), !u8_small by (done || lia).
  destruct d as [sp fm o c a b]. cbn in *. subst. f_equal.
  pose proof (Z.div_mod sp 256 ltac:(lia)). pose proof (Z.div_mod (sp / 256) 256 ltac:(lia)).
  rewrite Z.div_div in * by lia. change (256 * 256) with 65536 in *. lia.
Qed.

Lemma dm_loop_decode sa port data : is_byte sa -> is_byte port -> forall ds fuel i,
  Forall (dtc_ok sa port) ds -> 0 <= i -> i + len ds <= temp_dtc_size -> len ds < Z.of_nat fuel ->
  block_at data (2 + i * 4) (flat_map encode_dtc ds) ->
  dm_loop fuel i (4 * (i + len ds)) port sa data = Some ds.
Proof.
  intros Hsa Hport. induction ds as [|d ds IH]; intros fuel i Hok Hi Hn Hf Hb.
  - destruct fuel; [rewrite len_nil in Hf; lia |]. cbn [dm_loop]. rewrite len_nil.
    destruct (Z.leb_spec (i * 4 + 4) (4 * (i + 0))); [lia | done].
  - apply Forall_cons_1 in Hok as [Hd Hds]. rewrite len_cons in *. pose proof (len_nonneg ds).
    destruct fuel as [|fuel]; [lia |]. cbn [flat_map] in Hb. unfold encode_dtc in Hb at 1.
    cbn [app] in Hb.
    apply block_at_cons in Hb as [E0 Hb]. apply block_at_cons in Hb as [E1 Hb].
    apply block_at_cons in Hb as [E2 Hb]. apply block_at_cons in Hb as [E3 Hb].
    cbn [dm_loop]. destruct (Z.leb_spec (i * 4 + 4) (4 * (i + (1 + len ds)))); [| lia]. cbv zeta.
    rewrite E0. cbn [mbind option_bind]. rewrite E1. cbn [mbind option_bind].
    replace (2 + i * 4 + 2) with (2 + i * 4 + 1 + 1) by lia. rewrite E2. cbn [mbind option_bind].
    replace (2 + i * 4 + 3) with (2 + i * 4 + 1 + 1 + 1) by lia. rewrite E3. cbn [mbind option_bind].
    destruct (Z.ltb_spec i temp_dtc_size); [| lia].
    rewrite (dtc_decode sa port d Hd Hsa Hport).
    replace (4 * (i + (1 + len ds))) with (4 * (i + 1 + len ds)) by lia.
    rewrite IH; [done | done | lia | lia | lia |].
    by replace (2 + (i + 1) * 4) with (2 + i * 4 + 1 + 1 + 1 + 1) by lia.
Qed.

Lemma packets_bounds p : len p <= 7 * packets p < len p + 7.
Proof.
  unfold packets. pose proof (Z.div_mod (len p + 6) 7 ltac:(lia)).
  pose proof (Z.mod_pos_bound (len p + 6) 7 ltac:(lia)). lia.
Qed.

Lemma padded_len p : len (padded p) = 7 * packets p.
Proof. unfold padded. pose proof (packets_bounds p). rewrite len_app, len_replicate by lia. lia. Qed.

Lemma padded_bytes p : Forall is_byte p -> Forall is_byte (padded p).
Proof. intros. apply Forall_app_2; [done |]. by apply Forall_replicate. Qed.

Lemma packet_len p k : 1 <= k <= packets p -> len (packet p k) = 8.
Proof.
  intros Hk. unfold packet. rewrite len_cons, len_take, len_drop, padded_len. lia.
Qed.

Lemma packet_bytes p k : Forall is_byte p -> is_byte k -> Forall is_byte (packet p k).
Proof.
  intros Hp Hk. apply Forall_cons; [done |]. by apply Forall_take, Forall_drop, padded_bytes.
Qed.

Lemma canid_fields pgn sa :
  0 <= pgn < 2 ^ 18 -> is_byte sa ->
  Z.land (Z.shiftr (pgn * 256 + sa) 8) 0x3ffff = pgn /\ Z.land (pgn * 256 + sa) 255 = sa.
Proof.
  intros Hp Hs. unfold is_byte in Hs. change 0x3ffff with (Z.ones 18). change 255 with (Z.ones 8).
  rewrite !Z.land_ones, Z.shiftr_div_pow2 by lia. change (2 ^ 8) with 256.
  rewrite Z.add_comm, Z.div_add, Z.mod_add, (Z.div_small sa), (Z.mod_small sa), Z.mod_small by lia.
  lia.
Qed.

Section transfer.
Context (env : J_ENV) (sa port : Z) (Hsa : is_byte sa) (Hport : is_byte port).
Context (p : list Z) (Hbytes : Forall is_byte p) (Hsize : 2 < len p <= dm_max).

Let n := packets p.

Lemma n_bounds : 1 <= n <= 255.
Proof. pose proof (packets_bounds p). unfold dm_max, temp_dtc_size in Hsize. fold n in H. lia. Qed.

(** The state of the reassembly after [k] packets. *)
Record received (s s' : J) (k : Z) : Prop := {
  rc_rest : exists b, s' = {| s with dtc_buff := b |};
  rc_wf : wf s';
  rc_buff : exists m, mem_get (dtc_buff s') sa = Some m /\ mf_no m = k /\ total_no m = n /\
    total_size m = len p /\ block_at (mf_buff m) 0 (take (Z.to_nat (7 * k)) (padded p))
}.

Lemma mf_put (b : list DTC_MF_T) m : len b = 256 -> mem_get (<[Z.to_nat sa := m]> b) sa = Some m.
Proof.
  intros Hl. unfold is_byte in Hsa. rewrite mem_get_lookup by lia.
  apply list_lookup_insert_eq. unfold len in Hl. lia.
Qed.

Lemma decode_frame pgn data s :
  0 <= pgn < 2 ^ 18 ->
  J1939_can_callback env [frame pgn sa port data] s = J1939_msg_decode env (pgn * 256 + sa) port data 8 s.
Proof.
  intros Hp. unfold J1939_can_callback, frame. cbn [c_type c_exten MsgID c_port Data c_len negb andb Z.eqb st_when].
  apply run_bind_tt.
Qed.


Lemma cm_run s :
  wf s ->
  exists s', J1939_can_callback env
    [frame PGN_TP_CM sa port [32; len p mod 256; len p / 256; packets p; 255; 0xCA; 0xFE; 0]] s =
    Some (tt, s') /\ received s s' 0.
Proof.
  intros W. rewrite decode_frame by (unfold PGN_TP_CM; lia). unfold J1939_msg_decode.
  destruct (canid_fields PGN_TP_CM sa) as [-> ->]; [unfold PGN_TP_CM; lia | done |].
  change (PGN_TP_CM =? PGN_DM1) with false. change (PGN_TP_CM =? PGN_TP_CM) with true. cbv beta iota zeta.
  cbn [mem_get Z.leb Z.compare Z.to_nat Pos.to_nat Pos.iter_op lookup list_lookup Nat.add].
  unfold mem_get. cbn [Z.leb Z.compare]. change (Z.to_nat 1) with 1%nat. change (Z.to_nat 2) with 2%nat.
  change (Z.to_nat 3) with 3%nat. cbn [lookup list_lookup]. rewrite !run_lift.
  destruct (get_mf_ok s sa W Hsa) as (m & Em & Eg & M). rewrite (st_bind_run _ _ _ _ _ Eg).
  destruct (wf_buff s W) as [Hlb Hf]. pose proof n_bounds. unfold is_byte in Hsa.
  rewrite put_mf_run by lia. eexists. split; [done |].
  pose proof (Z.div_mod (len p) 256 ltac:(lia)). pose proof (Z.mod_pos_bound (len p) 256 ltac:(lia)).
  assert (Z.lor (Z.shiftl (len p / 256) 8) (len p mod 256) = len p) as Hs
    by (rewrite lor_shiftl_add; lia).
  rewrite Hs. unfold dm_max, temp_dtc_size in Hsize. fold n.
  constructor; [by eexists | |].
  - apply wf_set_mf; [done |]. destruct M. constructor; cbn; auto; unfold is_u16, is_byte; lia.
  - j_proj. eexists. split; [by apply mf_put |]. cbn. split; [done |]. split; [done |]. split; [done |].
    apply block_at_nil. destruct M. lia.
Qed.

(** A packet that is the next one, up to the test for the last. *)
Lemma packet_step s s' k :
  received s s' k -> 0 <= k < n ->
  exists m b s1, received s s1 (k + 1) /\ mem_get (dtc_buff s1) sa = Some {| m with mf_no := k + 1; mf_buff := b |} /\
    total_size m = len p /\
  J1939_can_callback env [frame PGN_TP_DT sa port (packet p (k + 1))] s' =
    (if k + 1 =? n then
       J1939_add_dm_data env port sa b (len p);; m ← get_mf sa; put_mf sa (mf_reset m)
     else mret tt) s1.
Proof.
  intros R Hk. destruct R as [(b0 & ->) W (m & Em & Hno & Htot & Hsz & Hblk)].
  pose proof n_bounds as Hn.
  rewrite decode_frame by (unfold PGN_TP_DT; lia). unfold J1939_msg_decode.
  destruct (canid_fields PGN_TP_DT sa) as [-> ->]; [unfold PGN_TP_DT; lia | done |].
  change (PGN_TP_DT =? PGN_DM1) with false. change (PGN_TP_DT =? PGN_TP_CM) with false.
  change (PGN_TP_DT =? PGN_TP_DT) with true. cbv beta iota zeta.
  change (mem_get (packet p (k + 1)) 0) with (Some (k + 1)). rewrite run_lift.
  set (s1 := {| s with dtc_buff := b0 |}) in *.
  destruct (get_mf_ok s1 sa W Hsa) as (m' & Em' & Eg & M). assert (m' = m) as -> by congruence.
  rewrite (st_bind_run _ _ _ _ _ Eg), Hno, Htot, Hsz.
  destruct (Z.ltb_spec n (k + 1)); [lia |]. rewrite Z.eqb_refl. cbn [orb negb].
  destruct (packet_run m (k + 1) (packet p (k + 1)) M) as (b & Eb & Mb & Ew);
    [by apply packet_bytes; unfold is_byte; [| lia] | apply packet_len; fold n; lia | lia |].
  rewrite Eb, run_lift. cbv beta.
  assert ({| total_size := len p; mf_no := k + 1; total_no := n; mf_buff := b |} =
    {| m with mf_no := k + 1; mf_buff := b |}) as -> by (by rewrite Hsz, Htot).
  destruct (wf_buff s1 W) as [Hlb Hf]. pose proof Hsa as Hsa'. unfold is_byte in Hsa'.
  erewrite st_bind_run by (apply put_mf_run; lia).
  eexists m, b, _. split; [| split; [| split; [exact Hsz | reflexivity]]]; [| j_proj; by apply mf_put].
  constructor; [by eexists | by apply wf_set_mf |].
  eexists. j_proj. split; [by apply mf_put |]. cbn. split; [done |]. split; [done |]. split; [done |].
  replace (7 * (k + 1 - 1)) with (7 * k) in Ew by lia.
  assert (len (take (Z.to_nat (7 * k)) (padded p)) = 7 * k) as Hl7.
  { rewrite len_take, padded_len. fold n. lia. }
  assert (take (Z.to_nat (7 * (k + 1))) (padded p) =
    take (Z.to_nat (7 * k)) (padded p) ++ take 7 (drop (Z.to_nat (7 * k)) (padded p))) as ->.
  { rewrite take_take_drop. f_equal. lia. }
  apply block_at_app. rewrite Hl7, Z.add_0_l.
  assert (take 7 (drop 1 (packet p (k + 1))) = take 7 (drop (Z.to_nat (7 * k)) (padded p))) as Hchunk.
  { unfold packet. cbn [drop]. rewrite drop_0, take_take. f_equal. f_equal. lia. }
  rewrite Hchunk in Ew. split; [| by apply mem_write_block_at in Ew].
  eapply block_at_unchanged; [by apply mem_write_unchanged in Ew | rewrite Hl7; lia | done].
Qed.


Lemma callback_app a b s :
  J1939_can_callback env (a ++ b) s = (J1939_can_callback env a;; J1939_can_callback env b) s.
Proof.
  revert s. induction a as [|c a IH]; intros s; [done |]. cbn [app J1939_can_callback].
  rewrite run_assoc. unfold mbind, st_bind. destruct (st_when _ _ s) as [[[] s1]|]; [apply IH | done].
Qed.

Lemma packets_run s s0 (j : nat) :
  received s s0 0 -> Z.of_nat j < n ->
  exists s', J1939_can_callback env
      (map (fun k => frame PGN_TP_DT sa port (packet p k)) (seqZ 1 (Z.of_nat j))) s0 =
    Some (tt, s') /\ received s s' (Z.of_nat j).
Proof.
  intros R. induction j as [|j IH]; intros Hj; [by exists s0 |].
  destruct IH as (s1 & E1 & R1); [lia |].
  rewrite Nat2Z.inj_succ. unfold Z.succ. rewrite (seqZ_app 1 (Z.of_nat j) 1) by lia.
  rewrite map_app, callback_app, (st_bind_run _ _ _ _ _ E1).
  destruct (packet_step s s1 (Z.of_nat j) R1) as (m & b & s2 & R2 & _ & _ & E2); [lia |].
  change (seqZ (1 + Z.of_nat j) 1) with [1 + Z.of_nat j].
  rewrite (Z.add_comm 1). cbn [map].
  rewrite E2. destruct (Z.eqb_spec (Z.of_nat j + 1) n); [lia |]. by exists s2.
Qed.

(** The whole transfer hands the payload to [J1939_add_dm_data]. *)
Lemma transfer_add s :
  wf s ->
  exists b s2, received s s2 n /\ block_at b 0 p /\
    J1939_can_callback env (tp_transfer sa port p) s =
      (J1939_add_dm_data env port sa b (len p);; m ← get_mf sa; put_mf sa (mf_reset m)) s2.
Proof.
  intros W. pose proof n_bounds as Hn.
  destruct (cm_run s W) as (s0 & E0 & R0).
  destruct (packets_run s s0 (Z.to_nat (n - 1)) R0) as (s1 & E1 & R1); [lia |].
  rewrite Z2Nat.id in * by lia.
  destruct (packet_step s s1 (n - 1) R1) as (m & b & s2 & R2 & Em & Hsz & E2); [lia |].
  replace (n - 1 + 1) with n in * by lia. rewrite Z.eqb_refl in E2.
  exists b, s2. split; [done |]. split.
  - destruct R2 as [_ _ (m' & Em' & _ & _ & _ & Hb)]. rewrite Em in Em'. injection Em' as <-. cbn in Hb.
    rewrite take_ge in Hb by (pose proof (padded_len p); unfold len in *; fold n in H; lia).
    unfold padded in Hb. by apply block_at_app in Hb as [Hb _].
  - unfold tp_transfer. fold n.
    replace (seqZ 1 n) with (seqZ 1 (n - 1) ++ [n]).
    2: { replace n with (n - 1 + 1) at 3 by lia. rewrite seqZ_app by lia. f_equal.
         change (seqZ (1 + (n - 1)) 1) with [1 + (n - 1)]. f_equal. lia. }
    rewrite map_app. cbn [map]. fold n in E0.
    change (?x :: ?a ++ ?b) with ([x] ++ (a ++ b)).
    by rewrite callback_app, (st_bind_run _ _ _ _ _ E0), callback_app, (st_bind_run _ _ _ _ _ E1), E2.
Qed.

End transfer.

Lemma dm1_payload_len lamps ds : len (dm1_payload lamps ds) = 2 + 4 * len ds.
Proof.
  unfold dm1_payload. rewrite !len_cons.
  assert (len (flat_map encode_dtc ds) = 4 * len ds) as ->; [| lia].
  induction ds as [|d ds IH]; [done |]. cbn [flat_map]. rewrite len_app, len_cons, IH. change (len (encode_dtc d)) with 4. lia.
Qed.

Lemma dm1_payload_bytes sa port lamps ds :
  is_byte (fst lamps) -> is_byte (snd lamps) -> Forall (dtc_ok sa port) ds ->
  Forall is_byte (dm1_payload lamps ds).
Proof.
  intros H1 H2 Hds. apply Forall_cons; [done |]. apply Forall_cons; [done |].
  induction Hds as [|d ds [Hs Hf Hc Ho _ _] _ IH]; [done |]. cbn [flat_map]. apply Forall_app_2; [| done].
  unfold encode_dtc, is_byte. pose proof (Z.mod_pos_bound (spn d) 256 ltac:(lia)).
  pose proof (Z.mod_pos_bound (spn d / 256) 256 ltac:(lia)).
  assert (0 <= spn d / 65536 < 8) by (split; [apply Z.div_pos; lia | apply Z.div_lt_upper_bound; lia]).
  repeat (apply Forall_cons; [lia |]). done.
Qed.

Lemma transfer_run env sa port lamps ds s :
  wf s -> is_byte sa -> is_byte port -> is_byte (fst lamps) -> is_byte (snd lamps) ->
  Forall (dtc_ok sa port) ds -> 1 <= len ds <= temp_dtc_size ->
  exists s', J1939_can_callback env (tp_transfer sa port (dm1_payload lamps ds)) s = Some (tt, s') /\ wf s' /\
    active_map (dtc_table s') = fst (spec_dm1 ds (active_map (dtc_table s))) /\
    omap notice_of (events s') = omap notice_of (events s) ++
      notices (callbacks s) (snd (spec_dm1 ds (active_map (dtc_table s)))).
Proof.
  intros W Hsa Hport Hl1 Hl2 Hds Hn.
  pose proof (dm1_payload_len lamps ds) as Hlen. set (p := dm1_payload lamps ds) in *.
  assert (2 < len p <= dm_max) as Hsize by (unfold dm_max; lia).
  destruct (transfer_add env sa port Hsa p (dm1_payload_bytes sa port lamps ds Hl1 Hl2 Hds) Hsize s W)
    as (b & s2 & [(b2 & ->) W2 _] & Hb & ->).
  assert (exists s3, J1939_add_dm_data env port sa b (len p) {| s with dtc_buff := b2 |} = Some (tt, s3) /\
    wf s3 /\ active_map (dtc_table s3) = fst (spec_dm1 ds (active_map (dtc_table s))) /\
    omap notice_of (events s3) = omap notice_of (events s) ++
      notices (callbacks s) (snd (spec_dm1 ds (active_map (dtc_table s))))) as (s3 & E3 & W3 & H3).
  { unfold J1939_add_dm_data. destruct (Z.leb_spec (len p) 2); [lia |].
    rewrite Hlen. replace (2 + 4 * len ds - 2) with (4 * (0 + len ds)) by lia.
    rewrite (dm_loop_decode sa port b Hsa Hport ds) by
      (done || lia || (unfold p, dm1_payload in Hb; apply block_at_cons in Hb as [_ Hb];
         by apply block_at_cons in Hb as [_ Hb])).
    rewrite run_lift. destruct (dm1_pro_run env ds _ W2) as (s3 & E3 & W3 & _ & H3). by exists s3. }
  rewrite (st_bind_run _ _ _ _ _ E3).
  destruct (get_mf_ok s3 sa W3 Hsa) as (m & _ & Eg & M). rewrite (st_bind_run _ _ _ _ _ Eg).
  pose proof (wf_buff s3 W3) as [Hlb _]. unfold is_byte in Hsa. rewrite put_mf_run by lia.
  eexists. split; [done |]. split; [| done]. apply wf_set_mf; [done |].
  destruct M. constructor; cbn; auto; unfold is_u16, is_byte; lia.
Qed.

(** ** Properties *)

(** C38: in all runs from the initialisation, with any restored table that is well
    formed, the fault table has 256 rows and no SPN is active twice, and a frame
    of the bus is handled without an access out of bounds exactly if it does not
    complete a transfer that announced more than 1029 bytes: only then the
    decoder writes past its 256 trouble codes. *)
Theorem j1939_decode_bounds restored s env canid port data dlc :
  (forall t, restored = Some t -> table_ok t) -> j_run (J1939_init restored) s ->
  Forall is_byte data -> len data = 8 -> dlc <= 8 ->
  table_ok (dtc_table s) /\
  (J1939_msg_decode env canid port data dlc s = None <-> completes_oversize s canid data = true).
Proof.
  intros Hr R Hd Hl Hdlc. pose proof (j_run_wf _ _ (init_wf restored Hr) R) as W.
  split; [apply W |]. pose proof (decode_run env canid port data dlc s W Hd Hl Hdlc) as H.
  destruct (completes_oversize s canid data); [done |]. destruct H as (s' & -> & _). done.
Qed.

(** C7: the trouble codes of a DM1 message change the active faults like a map
    from SPN to trouble code with room for 256 (a new SPN is added, a changed FMI
    ends the old and starts the new fault, the same code only refreshes), and
    every registered function is called with exactly the faults that ended and
    started, in that order. *)
Theorem j1939_dm1_refines env ds s :
  wf s ->
  exists s', J1939_dm1_pro env ds s = Some (tt, s') /\ wf s' /\
    active_map (dtc_table s') = fst (spec_dm1 ds (active_map (dtc_table s))) /\
    omap notice_of (events s') = omap notice_of (events s) ++
      notices (callbacks s) (snd (spec_dm1 ds (active_map (dtc_table s)))).
Proof. intros W. destruct (dm1_pro_run env ds s W) as (s' & ? & ? & _ & ?). by exists s'. Qed.

(** C10: trouble codes that are encoded into a DM1 message and sent as an announced
    transfer of packets (1 to 256 codes, from any source, over whatever an earlier
    transfer left behind) are reassembled and decoded to exactly these codes. *)
Theorem j1939_transfer_roundtrip env sa port lamps ds s :
  wf s -> is_byte sa -> is_byte port -> is_byte (fst lamps) -> is_byte (snd lamps) ->
  Forall (dtc_ok sa port) ds -> 1 <= len ds <= 256 ->
  exists s', J1939_can_callback env (tp_transfer sa port (dm1_payload lamps ds)) s = Some (tt, s') /\
    active_map (dtc_table s') = fst (spec_dm1 ds (active_map (dtc_table s))) /\
    omap notice_of (events s') = omap notice_of (events s) ++
      notices (callbacks s) (snd (spec_dm1 ds (active_map (dtc_table s)))).
Proof.
  intros W Hsa Hp H1 H2 Hds Hn.
  destruct (transfer_run env sa port lamps ds s W Hsa Hp H1 H2 Hds Hn) as (s' & ? & _ & ?). by exists s'.
Qed.

(** ** Witnesses *)

Definition demo_env : J_ENV := {|
  e_now := 1000; e_time := {| t_sec := 1; t_min := 2; t_hour := 3; t_mday := 4; t_mon := 5; t_year := 2019 |};
  e_notify := fun _ => 0; e_save := 0 |}.

Definition demo_dtc (v : Z) : DTC_T :=
  {| spn := v; fmi := 3; oc := 1; cm := 0; dtc_sa := 0x21; dtc_port := 1 |}.

(** An announcement of one packet and 1030 bytes. *)
Definition demo_cm : CAN_MSG := frame PGN_TP_CM 0x21 1 [32; 6; 4; 1; 255; 0xCA; 0xFE; 0].

Definition demo_announced : J :=
  match J1939_can_callback demo_env [demo_cm] (J1939_init None) with
  | Some (_, s) => s | None => J1939_init None
  end.

Lemma j1939_decode_bounds_witness :
  table_ok (dtc_table demo_announced) /\
  (J1939_msg_decode demo_env (PGN_TP_DT * 256 + 0x21) 1 [1; 0; 0; 0; 0; 0; 0; 0] 8 demo_announced = None <->
   completes_oversize demo_announced (PGN_TP_DT * 256 + 0x21) [1; 0; 0; 0; 0; 0; 0; 0] = true).
Proof.
  apply (j1939_decode_bounds None).
  - discriminate.
  - apply (j_run_step _ (J1939_init None) _ demo_env (JCan [demo_cm])); [constructor | |].
    + repeat constructor; discriminate.
    + vm_compute. reflexivity.
  - repeat constructor; discriminate.
  - reflexivity.
  - discriminate.
Defined.

Lemma j1939_dm1_refines_witness :
  exists s', J1939_dm1_pro demo_env [demo_dtc 100; demo_dtc 200] (J1939_init None) = Some (tt, s') /\ wf s' /\
    active_map (dtc_table s') =
      fst (spec_dm1 [demo_dtc 100; demo_dtc 200] (active_map (dtc_table (J1939_init None)))) /\
    omap notice_of (events s') = omap notice_of (events (J1939_init None)) ++
      notices (callbacks (J1939_init None))
        (snd (spec_dm1 [demo_dtc 100; demo_dtc 200] (active_map (dtc_table (J1939_init None))))).
Proof. apply j1939_dm1_refines, init_wf. discriminate. Defined.

Lemma j1939_transfer_roundtrip_witness :
  exists s', J1939_can_callback demo_env
      (tp_transfer 0x21 1 (dm1_payload (0, 0) [demo_dtc 100; demo_dtc 200])) (J1939_init None) = Some (tt, s') /\
    active_map (dtc_table s') =
      fst (spec_dm1 [demo_dtc 100; demo_dtc 200] (active_map (dtc_table (J1939_init None)))) /\
    omap notice_of (events s') = omap notice_of (events (J1939_init None)) ++
      notices (callbacks (J1939_init None))
        (snd (spec_dm1 [demo_dtc 100; demo_dtc 200] (active_map (dtc_table (J1939_init None))))).
Proof.
  apply j1939_transfer_roundtrip;
    [apply init_wf; discriminate | split; [discriminate | reflexivity] | split; [discriminate | reflexivity]
    | split; [discriminate | reflexivity] | split; [discriminate | reflexivity] | | split; discriminate].
  repeat constructor; discriminate.
Defined.
