(* ===== verification/Md5.v ===== *)
(** * MD5

    src/mid/md5/md5.c: the context, [MD5Init], [MD5Update], [MD5Final] and
    [Transform].  The theorem shows that a message that is hashed in any pieces has
    the digest of the reference function [md5], which pads the whole message and
    folds the transformation over its blocks. *)

From S2P Require Import Prelude.

(** ** The transformation of a block *)

Definition lnot32 (x : Z) : Z := Z.lxor x (2 ^ 32 - 1).

Inductive MD5_FUN := FF | GG | HH | II.

Definition F (x y z : Z) : Z := Z.lor (Z.land x y) (Z.land (lnot32 x) z).
Definition G (x y z : Z) : Z := Z.lor (Z.land x z) (Z.land y (lnot32 z)).
Definition H (x y z : Z) : Z := Z.lxor (Z.lxor x y) z.
Definition I (x y z : Z) : Z := Z.lxor y (Z.lor x (lnot32 z)).

Definition fun_of (f : MD5_FUN) : Z -> Z -> Z -> Z :=
  match f with FF => F | GG => G | HH => H | II => I end.

Definition ROTATE_LEFT (x n : Z) : Z := Z.lor (u32 (Z.shiftl x n)) (Z.shiftr x (32 - n)).

Record MD5_BUF := { ba : Z; bb : Z; bc : Z; bd : Z }.

(** One of the macros FF, GG, HH, II; the roles of the four words rotate with
    every step, so that the next one is about [d]. *)
Definition md5_step (inw : list Z) (r : MD5_BUF) (st : MD5_FUN * Z * Z * Z) : MD5_BUF :=
  let '(f, k, s, ac) := st in
  let x := default 0 (mem_get inw k) in
  let a := u32 (ba r + (fun_of f (bb r) (bc r) (bd r) + x + ac)) in
  let a := u32 (ROTATE_LEFT a s + bb r) in
  {| ba := bd r; bb := a; bc := bb r; bd := bc r |}.

(** The macro, the index of the word, the rotation and the constant of the steps. *)
Definition md5_table : list (MD5_FUN * Z * Z * Z) :=
  [(FF, 0, 7, 3614090360); (FF, 1, 12, 3905402710); (FF, 2, 17, 606105819); (FF, 3, 22, 3250441966);
   (FF, 4, 7, 4118548399); (FF, 5, 12, 1200080426); (FF, 6, 17, 2821735955); (FF, 7, 22, 4249261313);
   (FF, 8, 7, 1770035416); (FF, 9, 12, 2336552879); (FF, 10, 17, 4294925233); (FF, 11, 22, 2304563134);
   (FF, 12, 7, 1804603682); (FF, 13, 12, 4254626195); (FF, 14, 17, 2792965006); (FF, 15, 22, 1236535329);
   (GG, 1, 5, 4129170786); (GG, 6, 9, 3225465664); (GG, 11, 14, 643717713); (GG, 0, 20, 3921069994);
   (GG, 5, 5, 3593408605); (GG, 10, 9, 38016083); (GG, 15, 14, 3634488961); (GG, 4, 20, 3889429448);
   (GG, 9, 5, 568446438); (GG, 14, 9, 3275163606); (GG, 3, 14, 4107603335); (GG, 8, 20, 1163531501);
   (GG, 13, 5, 2850285829); (GG, 2, 9, 4243563512); (GG, 7, 14, 1735328473); (GG, 12, 20, 2368359562);
   (HH, 5, 4, 4294588738); (HH, 8, 11, 2272392833); (HH, 11, 16, 1839030562); (HH, 14, 23, 4259657740);
   (HH, 1, 4, 2763975236); (HH, 4, 11, 1272893353); (HH, 7, 16, 4139469664); (HH, 10, 23, 3200236656);
   (HH, 13, 4, 681279174); (HH, 0, 11, 3936430074); (HH, 3, 16, 3572445317); (HH, 6, 23, 76029189);
   (HH, 9, 4, 3654602809); (HH, 12, 11, 3873151461); (HH, 15, 16, 530742520); (HH, 2, 23, 3299628645);
   (II, 0, 6, 4096336452); (II, 7, 10, 1126891415); (II, 14, 15, 2878612391); (II, 5, 21, 4237533241);
   (II, 12, 6, 1700485571); (II, 3, 10, 2399980690); (II, 10, 15, 4293915773); (II, 1, 21, 2240044497);
   (II, 8, 6, 1873313359); (II, 15, 10, 4264355552); (II, 6, 15, 2734768916); (II, 13, 21, 1309151649);
   (II, 4, 6, 4149444226); (II, 11, 10, 3174756917); (II, 2, 15, 718787259); (II, 9, 21, 3951481745)].

Definition Transform (buf : MD5_BUF) (inw : list Z) : MD5_BUF :=
  let r := fold_left (md5_step inw) md5_table buf in
  {| ba := u32 (ba buf + ba r); bb := u32 (bb buf + bb r);
     bc := u32 (bc buf + bc r); bd := u32 (bd buf + bd r) |}.

(** ** The context *)

Record MD5_CTX := {
  ctx_i0 : Z; ctx_i1 : Z;        (* i[2] *)
  ctx_buf : MD5_BUF;
  ctx_in : list Z;               (* in[64] *)
  ctx_digest : list Z            (* digest[16] *)
}.

Definition MD5_LENGTH : Z := 16.

Definition PADDING : list Z := 128 :: replicate 63 0.

Definition md5_iv : MD5_BUF :=
  {| ba := 0x67452301; bb := 0xefcdab89; bc := 0x98badcfe; bd := 0x10325476 |}.

Definition MD5Init (c : MD5_CTX) : MD5_CTX := {| c with ctx_i0 := 0; ctx_i1 := 0; ctx_buf := md5_iv |}.

(** The little-endian word at [ii]. *)
Definition word_at (b : list Z) (ii : Z) : option Z :=
  b3 ← mem_get b (ii + 3); b2 ← mem_get b (ii + 2); b1 ← mem_get b (ii + 1); b0 ← mem_get b ii;
  Some (Z.lor (Z.lor (Z.lor (Z.shiftl b3 24) (Z.shiftl b2 16)) (Z.shiftl b1 8)) b0).

(** [n] words from [ii] on. *)
Fixpoint words_at (n : nat) (b : list Z) (ii : Z) : option (list Z) :=
  match n with
  | O => Some []
  | S n => w ← word_at b ii; ws ← words_at n b (ii + 4); Some (w :: ws)
  end.

(** The loop over the input bytes. *)
Fixpoint update_loop (bytes : list Z) (buf : MD5_BUF) (inb : list Z) (mdi : Z)
    : option (MD5_BUF * list Z) :=
  match bytes with
  | [] => Some (buf, inb)
  | x :: bytes =>
      inb ← mem_set inb mdi x;
      if mdi + 1 =? 0x40 then
        ws ← words_at 16 inb 0;
        update_loop bytes (Transform buf ws) inb 0
      else update_loop bytes buf inb (mdi + 1)
  end.

(** The number of bytes in the buffer. *)
Definition mdi_of (c : MD5_CTX) : Z := Z.land (Z.shiftr (ctx_i0 c) 3) 0x3F.

Definition MD5Update (c : MD5_CTX) (inBuf : list Z) (inLen : Z) : option MD5_CTX :=
  let lo := u32 (Z.shiftl inLen 3) in
  let i1 := if u32 (ctx_i0 c + lo) <? ctx_i0 c then u32 (ctx_i1 c + 1) else ctx_i1 c in
  bytes ← mem_read inBuf 0 inLen;
  '(buf, inb) ← update_loop bytes (ctx_buf c) (ctx_in c) (mdi_of c);
  Some {| ctx_i0 := u32 (ctx_i0 c + lo); ctx_i1 := u32 (i1 + Z.shiftr inLen 29);
          ctx_buf := buf; ctx_in := inb; ctx_digest := ctx_digest c |}.

Definition word_bytes (w : Z) : list Z :=
  [Z.land w 0xFF; Z.land (Z.shiftr w 8) 0xFF; Z.land (Z.shiftr w 16) 0xFF; Z.land (Z.shiftr w 24) 0xFF].

Definition digest_of (b : MD5_BUF) : list Z :=
  word_bytes (ba b) ++ word_bytes (bb b) ++ word_bytes (bc b) ++ word_bytes (bd b).

Definition MD5Final (c : MD5_CTX) : option MD5_CTX :=
  let mdi := mdi_of c in
  let padLen := if mdi <? 56 then 56 - mdi else 120 - mdi in
  c' ← MD5Update c PADDING padLen;
  ws ← words_at 14 (ctx_in c') 0;
  let buf := Transform (ctx_buf c') (ws ++ [ctx_i0 c; ctx_i1 c]) in
  Some {| c' with ctx_buf := buf; ctx_digest := digest_of buf |}.

(** A context on the stack, and a message in pieces. *)
Definition MD5_CTX_zero : MD5_CTX := {|
  ctx_i0 := 0; ctx_i1 := 0; ctx_buf := {| ba := 0; bb := 0; bc := 0; bd := 0 |};
  ctx_in := replicate 64 0; ctx_digest := replicate 16 0 |}.

Fixpoint md5_updates (c : MD5_CTX) (pieces : list (list Z)) : option MD5_CTX :=
  match pieces with
  | [] => Some c
  | p :: pieces => c ← MD5Update c p (len p); md5_updates c pieces
  end.

Definition md5_pieces (c : MD5_CTX) (pieces : list (list Z)) : option (list Z) :=
  c ← md5_updates (MD5Init c) pieces; c ← MD5Final c; Some (ctx_digest c).

(** ** The reference *)

(** Little-endian words of a list of bytes. *)
Fixpoint le_words (l : list Z) : list Z :=
  match l with
  | b0 :: b1 :: b2 :: b3 :: l => b0 + 2 ^ 8 * b1 + 2 ^ 16 * b2 + 2 ^ 24 * b3 :: le_words l
  | _ => []
  end.

Fixpoint le_bytes (n : nat) (z : Z) : list Z :=
  match n with O => [] | S n => z mod 256 :: le_bytes n (z / 256) end.

(** The message, a one bit, zeros up to 56 modulo 64, and the length in bits. *)
Definition md5_pad (m : list Z) : list Z :=
  m ++ 128 :: replicate (Z.to_nat ((55 - len m) mod 64)) 0 ++ le_bytes 8 (8 * len m).

Fixpoint chunks (n : nat) (l : list Z) : list (list Z) :=
  match n with O => [] | S n => take 64 l :: chunks n (drop 64 l) end.

Definition md5_fold (l : list Z) (h : MD5_BUF) : MD5_BUF :=
  fold_left (fun h b => Transform h (le_words b)) (chunks (length l / 64) l) h.

Definition md5 (m : list Z) : list Z := digest_of (md5_fold (md5_pad m) md5_iv).

(** ** Byte by byte

    The digest of the full blocks and the bytes of the open block. *)
Definition absorb (s : MD5_BUF * list Z) (x : Z) : MD5_BUF * list Z :=
  let '(h, r) := s in
  if len r =? 63 then (Transform h (le_words (r ++ [x])), []) else (h, r ++ [x]).

Definition absorbs (l : list Z) (s : MD5_BUF * list Z) : MD5_BUF * list Z := fold_left absorb l s.

Lemma absorbs_app a b s : absorbs (a ++ b) s = absorbs b (absorbs a s).
Proof. apply fold_left_app. Qed.

Lemma absorbs_open h l : forall r, len r + len l < 64 -> absorbs l (h, r) = (h, r ++ l).
Proof.
  induction l as [|x l IH]; intros r Hl; [by rewrite app_nil_r |].
  rewrite len_cons in Hl. pose proof (len_nonneg l). unfold absorbs. cbn [fold_left absorb].
  destruct (Z.eqb_spec (len r) 63); [lia |].
  fold (absorbs l (h, r ++ [x])). rewrite IH by (rewrite len_app, len_cons, len_nil; lia).
  by rewrite <- app_assoc.
Qed.

Lemma absorbs_block h r l :
  len r + len l = 64 -> l <> [] -> absorbs l (h, r) = (Transform h (le_words (r ++ l)), []).
Proof.
  intros Hl Hne. destruct (exists_last Hne) as (l' & x & ->).
  rewrite len_app, len_cons, len_nil in Hl.
  rewrite absorbs_app, absorbs_open by lia. unfold absorbs. cbn [fold_left absorb].
  rewrite len_app. destruct (Z.eqb_spec (len r + len l') 63); [| lia]. by rewrite <- app_assoc.
Qed.

(** On whole blocks this is the fold of the reference. *)
Lemma absorbs_blocks n : forall l h,
  length l = (64 * n)%nat ->
  absorbs l (h, []) = (fold_left (fun h b => Transform h (le_words b)) (chunks n l) h, []).
Proof.
  induction n as [|n IH]; intros l h Hl; [by destruct l |].
  rewrite <- (take_drop 64 l) at 1. rewrite absorbs_app.
  assert (length (take 64 l) = 64%nat) as H64 by (rewrite length_take; lia).
  rewrite absorbs_block; [| unfold len; rewrite H64; done | by destruct (take 64 l)].
  rewrite IH by (rewrite length_drop; lia). done.
Qed.

(** The number of open bytes. *)
Lemma absorbs_len l : forall h r,
  len r < 64 -> len (snd (absorbs l (h, r))) = (len r + len l) mod 64 /\ len (snd (absorbs l (h, r))) < 64.
Proof.
  induction l as [|x l IH]; intros h r Hr.
  - pose proof (len_nonneg r). cbn. rewrite len_nil, Z.add_0_r, Z.mod_small by lia. lia.
  - unfold absorbs. cbn [fold_left absorb]. rewrite len_cons.
    destruct (Z.eqb_spec (len r) 63) as [E | E].
    + destruct (IH (Transform h (le_words (r ++ [x]))) []) as [H1 H2]; [done |].
      unfold absorbs in *. rewrite H1. split; [| lia]. rewrite len_nil, E.
      replace (63 + (1 + len l)) with (0 + len l + 1 * 64) by lia. by rewrite Z.mod_add.
    + destruct (IH h (r ++ [x])) as [H1 H2]; [rewrite len_app, len_cons, len_nil; lia |].
      unfold absorbs in *. rewrite H1. split; [| lia]. rewrite len_app, len_cons, len_nil. f_equal. lia.
Qed.

Lemma absorbs_bytes l : forall h r,
  Forall is_byte r -> Forall is_byte l -> Forall is_byte (snd (absorbs l (h, r))).
Proof.
  induction l as [|x l IH]; intros h r Hr Hl; [done |].
  apply Forall_cons_1 in Hl as [Hx Hl]. unfold absorbs. cbn [fold_left absorb].
  destruct (len r =? 63); apply IH; auto using Forall_nil_2. apply Forall_app_2; [done | by constructor].
Qed.

(** ** Words *)

Lemma word_at_block b ii b0 b1 b2 b3 :
  is_byte b0 -> is_byte b1 -> is_byte b2 -> is_byte b3 ->
  block_at b ii [b0; b1; b2; b3] ->
  word_at b ii = Some (b0 + 2 ^ 8 * b1 + 2 ^ 16 * b2 + 2 ^ 24 * b3).
Proof.
  unfold is_byte. intros H0 H1 H2 H3 Hb. rewrite !block_at_cons in Hb.
  destruct Hb as (E0 & E1 & E2 & E3 & _). unfold word_at.
  replace (ii + 3) with (ii + 1 + 1 + 1) by lia. replace (ii + 2) with (ii + 1 + 1) by lia.
  rewrite E3, E2, E1, E0. cbn [mbind option_bind]. f_equal.
  rewrite (Z.shiftl_mul_pow2 b2) by lia. rewrite (lor_shiftl_add b3) by lia.
  replace (b3 * 2 ^ 24 + b2 * 2 ^ 16) with ((b3 * 2 ^ 8 + b2) * 2 ^ 16) by lia.
  rewrite <- (Z.shiftl_mul_pow2 _ 16) by lia.
  rewrite (Z.shiftl_mul_pow2 b1) by lia. rewrite (lor_shiftl_add _ _ 16) by lia.
  replace ((b3 * 2 ^ 8 + b2) * 2 ^ 16 + b1 * 2 ^ 8) with (((b3 * 2 ^ 8 + b2) * 2 ^ 8 + b1) * 2 ^ 8) by lia.
  rewrite <- (Z.shiftl_mul_pow2 _ 8) by lia. rewrite lor_shiftl_add by lia. lia.
Qed.

Lemma words_at_block n : forall l b ii,
  length l = (4 * n)%nat -> Forall is_byte l -> block_at b ii l -> words_at n b ii = Some (le_words l).
Proof.
  induction n as [|n IH]; intros l b ii Hl Hb Hat; [by destruct l |].
  destruct l as [|b0 [|b1 [|b2 [|b3 l]]]]; try (cbn in Hl; lia).
  apply Forall_cons_1 in Hb as [H0 Hb]. apply Forall_cons_1 in Hb as [H1 Hb].
  apply Forall_cons_1 in Hb as [H2 Hb]. apply Forall_cons_1 in Hb as [H3 Hb].
  change (b0 :: b1 :: b2 :: b3 :: l) with ([b0; b1; b2; b3] ++ l) in Hat.
  apply block_at_app in Hat as [Hw Hat]. cbn [words_at].
  rewrite (word_at_block _ _ b0 b1 b2 b3) by done. cbn [mbind option_bind].
  rewrite (IH l) by (done || (cbn in Hl; lia)). done.
Qed.

Lemma le_words_app a : forall n b, length a = (4 * n)%nat -> le_words (a ++ b) = le_words a ++ le_words b.
Proof.
  intros n. revert a. induction n as [|n IH]; intros a b Ha; [by destruct a |].
  destruct a as [|b0 [|b1 [|b2 [|b3 a]]]]; try (cbn in Ha; lia).
  cbn [app le_words]. rewrite IH by (cbn in Ha; lia). done.
Qed.

(** ** The context holds the state of the byte-wise digest *)

Definition state_of (m : list Z) : MD5_BUF * list Z := absorbs m (md5_iv, []).

Record buffered (buf : MD5_BUF) (inb : list Z) (st : MD5_BUF * list Z) : Prop := {
  bf_len : len inb = 64;
  bf_buf : buf = fst st;
  bf_open : block_at inb 0 (snd st)
}.

Record rep (c : MD5_CTX) (m : list Z) : Prop := {
  rep_i0 : ctx_i0 c = (8 * len m) mod 2 ^ 32;
  rep_i1 : ctx_i1 c = (8 * len m / 2 ^ 32) mod 2 ^ 32;
  rep_buf : buffered (ctx_buf c) (ctx_in c) (state_of m)
}.

Lemma update_loop_run bytes : forall h r inb,
  Forall is_byte bytes -> Forall is_byte r -> len r < 64 -> buffered h inb (h, r) ->
  exists buf' inb', update_loop bytes h inb (len r) = Some (buf', inb') /\
    buffered buf' inb' (absorbs bytes (h, r)).
Proof.
  induction bytes as [|x bytes IH]; intros h r inb Hx Hr Hl [Hin _ Hb]; [by exists h, inb |].
  apply Forall_cons_1 in Hx as [Hx Hxs]. cbn [snd] in Hb. pose proof (len_nonneg r).
  cbn [update_loop]. destruct (mem_set_exists inb (len r) x) as (inb1 & E & Hu & Hg); [lia |].
  rewrite E. cbn [mbind option_bind].
  assert (block_at inb1 0 (r ++ [x])) as Hb1.
  { apply block_at_app. split; [eapply block_at_unchanged; [done | lia | done] |].
    by rewrite Z.add_0_l, block_at_single. }
  assert (len inb1 = 64) as Hin1 by (destruct Hu; lia).
  assert (Forall is_byte (r ++ [x])) as Hrx by (apply Forall_app_2; [done | by constructor]).
  unfold absorbs. cbn [fold_left absorb].
  destruct (Z.eqb_spec (len r + 1) 0x40), (Z.eqb_spec (len r) 63); try lia.
  - rewrite (words_at_block 16 (r ++ [x])); [| rewrite length_app; unfold len in *; cbn; lia | done | done].
    cbn [mbind option_bind]. change 0 with (len (@nil Z)).
    apply IH; [done | by constructor | by rewrite len_nil |]. split; [done | done |].
    cbn [snd]. apply block_at_nil. lia.
  - replace (len r + 1) with (len (r ++ [x])) by (rewrite len_app, len_cons, len_nil; lia).
    apply IH; [done | done | rewrite len_app, len_cons, len_nil; lia |]. by split.
Qed.

Lemma mdi_run c m : rep c m -> mdi_of c = len m mod 64.
Proof.
  intros [E _ _]. unfold mdi_of. rewrite E. change 0x3F with (Z.ones 6).
  rewrite Z.land_ones, Z.shiftr_div_pow2 by lia. change (2 ^ 3) with 8. change (2 ^ 6) with 64.
  replace (2 ^ 32) with (8 * 2 ^ 29) by lia. rewrite Z.mul_mod_distr_l by lia.
  rewrite (Z.mul_comm 8), Z.div_mul by lia.
  change (2 ^ 29) with (64 * 2 ^ 23). rewrite Z.rem_mul_r, Z.mul_comm, Z.mod_add, Z.mod_mod by lia. done.
Qed.

Lemma state_open m : len (snd (state_of m)) = len m mod 64 /\ len (snd (state_of m)) < 64.
Proof. unfold state_of. by apply (absorbs_len m md5_iv []). Qed.

(** The bit counters. *)
Lemma counters_add n k :
  0 <= n -> 0 <= k < 2 ^ 32 ->
  let lo := u32 (Z.shiftl k 3) in let i0 := (8 * n) mod 2 ^ 32 in let i1 := (8 * n / 2 ^ 32) mod 2 ^ 32 in
  u32 (i0 + lo) = (8 * (n + k)) mod 2 ^ 32 /\
  u32 ((if u32 (i0 + lo) <? i0 then u32 (i1 + 1) else i1) + Z.shiftr k 29) = (8 * (n + k) / 2 ^ 32) mod 2 ^ 32.
Proof.
  intros Hn Hk. unfold u32. rewrite Z.shiftl_mul_pow2, Z.shiftr_div_pow2 by lia.
  change (2 ^ 3) with 8. cbv zeta.
  pose proof (Z.div_mod (8 * n) (2 ^ 32) ltac:(lia)) as E1. pose proof (Z.div_mod (8 * k) (2 ^ 32) ltac:(lia)) as E2.
  replace (k / 2 ^ 29) with (8 * k / 2 ^ 32) by (replace (2 ^ 32) with (8 * 2 ^ 29) by lia; apply Z.div_mul_cancel_l; lia).
  rewrite (Z.mul_comm k 8).
  set (a := 8 * n mod 2 ^ 32) in *. set (b := 8 * k mod 2 ^ 32) in *.
  set (qa := 8 * n / 2 ^ 32) in *. set (qb := 8 * k / 2 ^ 32) in *.
  assert (0 <= a < 2 ^ 32) by (apply Z.mod_pos_bound; lia).
  assert (0 <= b < 2 ^ 32) by (apply Z.mod_pos_bound; lia).
  assert (8 * (n + k) = a + b + (qa + qb) * 2 ^ 32) as E by lia. rewrite E.
  rewrite Z.mod_add, Z.div_add by lia. split; [done |].
  destruct (decide (a + b < 2 ^ 32)) as [Hlt | Hge].
  - rewrite (Z.mod_small (a + b)), (Z.div_small (a + b)) by lia. destruct (Z.ltb_spec (a + b) a); [lia |].
    rewrite Zplus_mod_idemp_l. f_equal.
  - assert ((a + b) mod 2 ^ 32 = a + b - 2 ^ 32) as -> by (symmetry; apply (Z.mod_unique_pos _ _ 1); lia).
    assert ((a + b) / 2 ^ 32 = 1) as -> by (symmetry; apply (Z.div_unique_pos _ _ 1 (a + b - 2 ^ 32)); lia).
    destruct (Z.ltb_spec (a + b - 2 ^ 32) a); [| lia].
    rewrite Zplus_mod_idemp_l, <- Z.add_assoc, Zplus_mod_idemp_l. f_equal. lia.
Qed.

Lemma update_run c m p k :
  rep c m -> Forall is_byte m -> Forall is_byte p -> 0 <= k <= len p -> k < 2 ^ 32 ->
  exists c', MD5Update c p k = Some c' /\ rep c' (m ++ take (Z.to_nat k) p).
Proof.
  intros R Hm Hp Hk Hk2. pose proof R as [E0 E1 [Hin Hbuf Hopen]].
  unfold MD5Update. rewrite mem_read_ok by lia. change (Z.to_nat 0) with 0%nat. rewrite drop_0.
  cbn [mbind option_bind]. destruct (state_open m) as [Hs1 Hs2].
  rewrite (mdi_run c m R), <- Hs1.
  destruct (state_of m) as [h r] eqn:Es. cbn [fst snd] in *. subst h.
  destruct (update_loop_run (take (Z.to_nat k) p) (ctx_buf c) r (ctx_in c)) as (buf' & inb' & -> & Hb').
  - by apply Forall_take.
  - replace r with (snd (state_of m)) by (by rewrite Es). unfold state_of. apply absorbs_bytes; [by constructor | done].
  - done.
  - by split.
  - cbn [mbind option_bind]. eexists. split; [done |].
    assert (len (m ++ take (Z.to_nat k) p) = len m + k) as Hl by (rewrite len_app, len_take; lia).
    destruct (counters_add (len m) k (len_nonneg m)) as [H0 H1]; [lia |].
    split; cbn.
    + by rewrite Hl, E0.
    + by rewrite Hl, E0, E1.
    + unfold state_of in *. rewrite absorbs_app, Es. done.
Qed.

Lemma init_rep c : len (ctx_in c) = 64 -> rep (MD5Init c) [].
Proof.
  intros H. constructor; [done | done |]. split; [done | done |]. apply block_at_nil. cbn. lia.
Qed.

Lemma updates_run pieces : forall c m,
  rep c m -> Forall is_byte m -> Forall (fun p => Forall is_byte p /\ len p < 2 ^ 32) pieces ->
  exists c', md5_updates c pieces = Some c' /\ rep c' (m ++ concat pieces).
Proof.
  induction pieces as [|p pieces IH]; intros c m R Hm Hp; [exists c; by rewrite app_nil_r |].
  apply Forall_cons_1 in Hp as [[Hb Hl] Hp]. cbn [md5_updates].
  destruct (update_run c m p (len p) R Hm Hb) as (c1 & E & R1); [pose proof (len_nonneg p); lia | done |].
  rewrite E. cbn [mbind option_bind]. unfold len in R1. rewrite Nat2Z.id, firstn_all in R1.
  destruct (IH c1 (m ++ p) R1) as (c2 & E2 & R2); [by apply Forall_app_2 | done |].
  exists c2. by rewrite <- app_assoc in R2.
Qed.

(** ** The end of the message *)

Definition pad_len (n : Z) : Z := (55 - n) mod 64.

Lemma pad_length m : exists k, length (md5_pad m) = (64 * k)%nat.
Proof.
  exists (Z.to_nat ((len m + 1 + pad_len (len m) + 8) / 64)). unfold md5_pad, pad_len.
  rewrite length_app. cbn [length]. rewrite length_app, length_replicate. cbn [le_bytes length].
  pose proof (Z.mod_pos_bound (55 - len m) 64 ltac:(lia)). pose proof (len_nonneg m).
  pose proof (Z.div_mod (55 - len m) 64 ltac:(lia)) as E.
  assert ((len m + 1 + (55 - len m) mod 64 + 8) / 64 = 1 - (55 - len m) / 64) as ->.
  { replace (len m + 1 + (55 - len m) mod 64 + 8) with ((1 - (55 - len m) / 64) * 64) by lia.
    by rewrite Z.div_mul. }
  unfold len in *. lia.
Qed.

Lemma md5_absorbs m : md5 m = digest_of (fst (state_of (md5_pad m))).
Proof.
  destruct (pad_length m) as [k Hk]. unfold md5, md5_fold, state_of.
  rewrite (absorbs_blocks k) by done. rewrite Hk, Nat.mul_comm, Nat.div_mul by lia. done.
Qed.

Lemma le_bytes_byte n : forall z, Forall is_byte (le_bytes n z).
Proof. induction n as [|n IH]; intros z; constructor; [apply Z.mod_pos_bound; lia | apply IH]. Qed.

(** The length field is the pair of counters. *)
Lemma le_words_length n :
  0 <= n -> le_words (le_bytes 8 n) = [n mod 2 ^ 32; n / 2 ^ 32 mod 2 ^ 32].
Proof.
  intros Hn. cbn [le_bytes le_words].
  assert (forall a, 0 <= a -> a mod 256 + 2 ^ 8 * (a / 256 mod 256) + 2 ^ 16 * (a / 256 / 256 mod 256) +
    2 ^ 24 * (a / 256 / 256 / 256 mod 256) = a mod 2 ^ 32) as Hw.
  { intros a Ha. change (2 ^ 32) with (256 * (256 * (256 * 256))).
    rewrite !Z.rem_mul_r by lia. lia. }
  rewrite !Hw by (repeat apply Z.div_pos; lia). do 3 f_equal.
  rewrite !Z.div_div by lia. done.
Qed.

Lemma final_run c m :
  rep c m -> Forall is_byte m -> exists c', MD5Final c = Some c' /\ ctx_digest c' = md5 m.
Proof.
  intros R Hm. pose proof R as [E0 E1 _]. unfold MD5Final. rewrite (mdi_run c m R).
  pose proof (Z.mod_pos_bound (len m) 64 ltac:(lia)) as Hr. pose proof (len_nonneg m) as Hpos.
  set (k := if len m mod 64 <? 56 then 56 - len m mod 64 else 120 - len m mod 64).
  assert (k = 1 + pad_len (len m)) as Hk.
  { unfold k, pad_len. rewrite Zminus_mod. change (55 mod 64) with 55.
    destruct (Z.ltb_spec (len m mod 64) 56).
    - rewrite (Z.mod_small (55 - len m mod 64)) by lia. lia.
    - rewrite <- (Z.mod_unique_pos (55 - len m mod 64) 64 (-1) (119 - len m mod 64)) by lia. lia. }
  assert (0 <= pad_len (len m) < 64) as Hpl by (apply Z.mod_pos_bound; lia).
  destruct (update_run c m PADDING k R Hm) as (c1 & -> & [_ _ [Hin Hbuf Hopen]]);
    [by repeat constructor | change (len PADDING) with 64; lia | lia |].
  cbn [mbind option_bind].
  set (q := take (Z.to_nat k) PADDING) in *.
  assert (q = 128 :: replicate (Z.to_nat (pad_len (len m))) 0) as Hq.
  { unfold q, PADDING. rewrite Hk. replace (Z.to_nat (1 + pad_len (len m))) with (S (Z.to_nat (pad_len (len m)))) by lia.
    cbn [take]. rewrite take_replicate. do 2 f_equal. lia. }
  assert (len q = k) as Hlq by (rewrite Hq, len_cons, len_replicate by lia; lia).
  destruct (state_open (m ++ q)) as [Ho _].
  assert ((len m + k) mod 64 = 56) as H56.
  { rewrite Hk. unfold pad_len. replace (len m + (1 + (55 - len m) mod 64)) with (len m + 1 + (55 - len m) mod 64) by lia.
    rewrite Zplus_mod_idemp_r. by replace (len m + 1 + (55 - len m)) with 56 by lia. }
  rewrite len_app, Hlq, H56 in Ho.
  assert (Forall is_byte (m ++ q)) as Hmq.
  { apply Forall_app_2; [done |]. rewrite Hq. constructor; [done |]. by apply Forall_replicate. }
  assert (Forall is_byte (snd (state_of (m ++ q)))) as Hby
    by (apply absorbs_bytes; [by constructor | done]).
  assert (md5_pad m = (m ++ q) ++ le_bytes 8 (8 * len m)) as Hpad.
  { unfold md5_pad. fold (pad_len (len m)). rewrite Hq. by rewrite <- app_assoc. }
  rewrite md5_absorbs, Hpad. unfold state_of at 1. rewrite absorbs_app. fold (state_of (m ++ q)).
  destruct (state_of (m ++ q)) as [h r]. cbn [fst snd] in *. subst h.
  rewrite (words_at_block 14 r) by (done || (unfold len in Ho; lia)). cbn [mbind option_bind].
  eexists. split; [done |]. cbn [ctx_digest].
  rewrite absorbs_block; [| rewrite Ho; done | done]. cbn [fst]. do 2 f_equal.
  rewrite (le_words_app r 14) by (unfold len in Ho; lia). rewrite le_words_length by lia. by rewrite E0, E1.
Qed.

Lemma pieces_run c pieces :
  len (ctx_in c) = 64 -> Forall (fun p => Forall is_byte p /\ len p < 2 ^ 32) pieces ->
  md5_pieces c pieces = Some (md5 (concat pieces)).
Proof.
  intros Hc Hp. unfold md5_pieces.
  destruct (updates_run pieces (MD5Init c) [] (init_rep c Hc) (Forall_nil_2 _) Hp) as (c1 & -> & R).
  cbn [mbind option_bind].
  destruct (final_run c1 (concat pieces) R) as (c2 & -> & Hd).
  - clear -Hp. induction Hp as [|p ps [Hb _] _ IH]; [constructor |]. by apply Forall_app_2.
  - cbn [mbind option_bind]. by rewrite Hd.
Qed.

Lemma md5_len m : len (md5 m) = 16.
Proof. done. Qed.

(** ** Property *)

(** C34: a message of bytes that is hashed in any pieces (of less than 4 GB each,
    empty ones included) with any reused context has the digest that the
    reference computes from the whole message, with no access out of bounds. *)
Theorem md5_streaming c pieces :
  len (ctx_in c) = 64 -> Forall (fun p => Forall is_byte p /\ len p < 2 ^ 32) pieces ->
  md5_pieces c pieces = Some (md5 (concat pieces)).
Proof. apply pieces_run. Qed.

(** The digest of "abc", from two pieces. *)
Lemma md5_streaming_witness :
  md5_pieces MD5_CTX_zero [[97]; [98; 99]] = Some (md5 (concat [[97]; [98; 99]])).
Proof. apply md5_streaming; [reflexivity | repeat constructor; discriminate]. Defined.

(** Test vectors of RFC 1321. *)
Example md5_empty : md5 [] =
  [0xd4; 0x1d; 0x8c; 0xd9; 0x8f; 0x00; 0xb2; 0x04; 0xe9; 0x80; 0x09; 0x98; 0xec; 0xf8; 0x42; 0x7e].
Proof. reflexivity. Qed.

Example md5_abc : md5 [97; 98; 99] =
  [0x90; 0x01; 0x50; 0x98; 0x3c; 0xd2; 0x4f; 0xb0; 0xd6; 0x96; 0x3f; 0x7d; 0x28; 0xe1; 0x7f; 0x72].
Proof. reflexivity. Qed.
