(* ===== verification/Aes.v ===== *)
(** * AES (src/mid/aes/aes.c)

    The block cipher with keys of 128 bits that protects the messages of the autopilot
    interface: [CipherString] and [InvCipherString] encrypt and decrypt in place, block
    by block, [add_pkcs_padding] fills the last block.

    The [4] times [4] bytes [state[r][c]] are a list of [16], row by row; a loop over
    rows and columns that writes every entry from a copy is [build].  The theorems:
    decryption undoes encryption; the tables are those of the finite field. *)

From S2P Require Import Prelude.
From Stdlib Require Import Ring.

(** ** Definitions *)

Definition sBox : list Z :=
  [0x63; 0x7c; 0x77; 0x7b; 0xf2; 0x6b; 0x6f; 0xc5; 0x30; 0x01; 0x67; 0x2b; 0xfe; 0xd7; 0xab; 0x76;
   0xca; 0x82; 0xc9; 0x7d; 0xfa; 0x59; 0x47; 0xf0; 0xad; 0xd4; 0xa2; 0xaf; 0x9c; 0xa4; 0x72; 0xc0;
   0xb7; 0xfd; 0x93; 0x26; 0x36; 0x3f; 0xf7; 0xcc; 0x34; 0xa5; 0xe5; 0xf1; 0x71; 0xd8; 0x31; 0x15;
   0x04; 0xc7; 0x23; 0xc3; 0x18; 0x96; 0x05; 0x9a; 0x07; 0x12; 0x80; 0xe2; 0xeb; 0x27; 0xb2; 0x75;
   0x09; 0x83; 0x2c; 0x1a; 0x1b; 0x6e; 0x5a; 0xa0; 0x52; 0x3b; 0xd6; 0xb3; 0x29; 0xe3; 0x2f; 0x84;
   0x53; 0xd1; 0x00; 0xed; 0x20; 0xfc; 0xb1; 0x5b; 0x6a; 0xcb; 0xbe; 0x39; 0x4a; 0x4c; 0x58; 0xcf;
   0xd0; 0xef; 0xaa; 0xfb; 0x43; 0x4d; 0x33; 0x85; 0x45; 0xf9; 0x02; 0x7f; 0x50; 0x3c; 0x9f; 0xa8;
   0x51; 0xa3; 0x40; 0x8f; 0x92; 0x9d; 0x38; 0xf5; 0xbc; 0xb6; 0xda; 0x21; 0x10; 0xff; 0xf3; 0xd2;
   0xcd; 0x0c; 0x13; 0xec; 0x5f; 0x97; 0x44; 0x17; 0xc4; 0xa7; 0x7e; 0x3d; 0x64; 0x5d; 0x19; 0x73;
   0x60; 0x81; 0x4f; 0xdc; 0x22; 0x2a; 0x90; 0x88; 0x46; 0xee; 0xb8; 0x14; 0xde; 0x5e; 0x0b; 0xdb;
   0xe0; 0x32; 0x3a; 0x0a; 0x49; 0x06; 0x24; 0x5c; 0xc2; 0xd3; 0xac; 0x62; 0x91; 0x95; 0xe4; 0x79;
   0xe7; 0xc8; 0x37; 0x6d; 0x8d; 0xd5; 0x4e; 0xa9; 0x6c; 0x56; 0xf4; 0xea; 0x65; 0x7a; 0xae; 0x08;
   0xba; 0x78; 0x25; 0x2e; 0x1c; 0xa6; 0xb4; 0xc6; 0xe8; 0xdd; 0x74; 0x1f; 0x4b; 0xbd; 0x8b; 0x8a;
   0x70; 0x3e; 0xb5; 0x66; 0x48; 0x03; 0xf6; 0x0e; 0x61; 0x35; 0x57; 0xb9; 0x86; 0xc1; 0x1d; 0x9e;
   0xe1; 0xf8; 0x98; 0x11; 0x69; 0xd9; 0x8e; 0x94; 0x9b; 0x1e; 0x87; 0xe9; 0xce; 0x55; 0x28; 0xdf;
   0x8c; 0xa1; 0x89; 0x0d; 0xbf; 0xe6; 0x42; 0x68; 0x41; 0x99; 0x2d; 0x0f; 0xb0; 0x54; 0xbb; 0x16].

Definition invsBox : list Z :=
  [0x52; 0x09; 0x6a; 0xd5; 0x30; 0x36; 0xa5; 0x38; 0xbf; 0x40; 0xa3; 0x9e; 0x81; 0xf3; 0xd7; 0xfb;
   0x7c; 0xe3; 0x39; 0x82; 0x9b; 0x2f; 0xff; 0x87; 0x34; 0x8e; 0x43; 0x44; 0xc4; 0xde; 0xe9; 0xcb;
   0x54; 0x7b; 0x94; 0x32; 0xa6; 0xc2; 0x23; 0x3d; 0xee; 0x4c; 0x95; 0x0b; 0x42; 0xfa; 0xc3; 0x4e;
   0x08; 0x2e; 0xa1; 0x66; 0x28; 0xd9; 0x24; 0xb2; 0x76; 0x5b; 0xa2; 0x49; 0x6d; 0x8b; 0xd1; 0x25;
   0x72; 0xf8; 0xf6; 0x64; 0x86; 0x68; 0x98; 0x16; 0xd4; 0xa4; 0x5c; 0xcc; 0x5d; 0x65; 0xb6; 0x92;
   0x6c; 0x70; 0x48; 0x50; 0xfd; 0xed; 0xb9; 0xda; 0x5e; 0x15; 0x46; 0x57; 0xa7; 0x8d; 0x9d; 0x84;
   0x90; 0xd8; 0xab; 0x00; 0x8c; 0xbc; 0xd3; 0x0a; 0xf7; 0xe4; 0x58; 0x05; 0xb8; 0xb3; 0x45; 0x06;
   0xd0; 0x2c; 0x1e; 0x8f; 0xca; 0x3f; 0x0f; 0x02; 0xc1; 0xaf; 0xbd; 0x03; 0x01; 0x13; 0x8a; 0x6b;
   0x3a; 0x91; 0x11; 0x41; 0x4f; 0x67; 0xdc; 0xea; 0x97; 0xf2; 0xcf; 0xce; 0xf0; 0xb4; 0xe6; 0x73;
   0x96; 0xac; 0x74; 0x22; 0xe7; 0xad; 0x35; 0x85; 0xe2; 0xf9; 0x37; 0xe8; 0x1c; 0x75; 0xdf; 0x6e;
   0x47; 0xf1; 0x1a; 0x71; 0x1d; 0x29; 0xc5; 0x89; 0x6f; 0xb7; 0x62; 0x0e; 0xaa; 0x18; 0xbe; 0x1b;
   0xfc; 0x56; 0x3e; 0x4b; 0xc6; 0xd2; 0x79; 0x20; 0x9a; 0xdb; 0xc0; 0xfe; 0x78; 0xcd; 0x5a; 0xf4;
   0x1f; 0xdd; 0xa8; 0x33; 0x88; 0x07; 0xc7; 0x31; 0xb1; 0x12; 0x10; 0x59; 0x27; 0x80; 0xec; 0x5f;
   0x60; 0x51; 0x7f; 0xa9; 0x19; 0xb5; 0x4a; 0x0d; 0x2d; 0xe5; 0x7a; 0x9f; 0x93; 0xc9; 0x9c; 0xef;
   0xa0; 0xe0; 0x3b; 0x4d; 0xae; 0x2a; 0xf5; 0xb0; 0xc8; 0xeb; 0xbb; 0x3c; 0x83; 0x53; 0x99; 0x61;
   0x17; 0x2b; 0x04; 0x7e; 0xba; 0x77; 0xd6; 0x26; 0xe1; 0x69; 0x14; 0x63; 0x55; 0x21; 0x0c; 0x7d].

Definition STATE : Type := list Z.

Definition entry (s : STATE) (r c : Z) : Z := s !!! Z.to_nat (4 * r + c).

Definition build (f : Z -> Z -> Z) : STATE := map (fun k => f (k / 4) (k mod 4)) (map Z.of_nat (seq 0 16)).

Definition SubBytes (s : STATE) : STATE := build (fun r c => sBox !!! Z.to_nat (entry s r c)).
Definition InvSubBytes (s : STATE) : STATE := build (fun r c => invsBox !!! Z.to_nat (entry s r c)).

(** The row [0] is left alone, which is the shift by [0]. *)
Definition ShiftRows (s : STATE) : STATE := build (fun r c => entry s r ((c + r) mod 4)).
Definition InvShiftRows (s : STATE) : STATE := build (fun r c => entry s r ((c - r + 4) mod 4)).

(** [bw[i]] of [bw[i - 1]]. *)
Definition xtime (b : Z) : Z :=
  let d := u8 (Z.shiftl b 1) in if negb (Z.land b 0x80 =? 0) then Z.lxor d 0x1b else d.

Definition FFmul (a b : Z) : Z :=
  let bw1 := xtime b in let bw2 := xtime bw1 in let bw3 := xtime bw2 in
  let add i bw res := if negb (Z.land (Z.shiftr a i) 1 =? 0) then Z.lxor res bw else res in
  add 3 bw3 (add 2 bw2 (add 1 bw1 (add 0 b 0))).

(** The column [c] times the circulant matrix of [k0] to [k3]. *)
Definition mix (k0 k1 k2 k3 : Z) (s : STATE) : STATE := build (fun r c =>
  Z.lxor (Z.lxor (Z.lxor (FFmul k0 (entry s r c)) (FFmul k1 (entry s ((r + 1) mod 4) c)))
    (FFmul k2 (entry s ((r + 2) mod 4) c))) (FFmul k3 (entry s ((r + 3) mod 4) c))).

Definition MixColumns : STATE -> STATE := mix 0x02 0x03 0x01 0x01.
Definition InvMixColumns : STATE -> STATE := mix 0x0e 0x0b 0x0d 0x09.

Definition AddRoundKey (s k : STATE) : STATE := build (fun r c => Z.lxor (entry s r c) (entry k r c)).

Definition rc : list Z := [0x01; 0x02; 0x04; 0x08; 0x10; 0x20; 0x40; 0x80; 0x1b; 0x36].

(** The column [j] of the next round key: [w] the last one, [n] the next one as far as
    it is computed. *)
Definition key_column (w n : STATE) (x j : Z) : STATE :=
  let t r :=
    if j =? 0 then
      let b := sBox !!! Z.to_nat (entry w ((r + 1) mod 4) 3) in if r =? 0 then Z.lxor b x else b
    else entry n r (j - 1) in
  build (fun r c => if c =? j then Z.lxor (entry w r j) (t r) else entry n r c).

Definition next_key (w : STATE) (x : Z) : STATE :=
  fold_left (fun n j => key_column w n x j) [0; 1; 2; 3] (replicate 16 0).

Fixpoint expand (w : STATE) (rcs : list Z) : list STATE :=
  match rcs with [] => [w] | x :: rcs => w :: expand (next_key w x) rcs end.

(** A block in the order of its columns. *)
Definition load (b : list Z) : STATE := build (fun r c => b !!! Z.to_nat (c * 4 + r)).
Definition store (s : STATE) : list Z := build (fun c r => entry s r c).

(** The eleven round keys of the sixteen bytes at [key]. *)
Definition KeyExpansion (key : list Z) : option (list STATE) :=
  k ← mem_read key 0 16; Some (expand (load k) rc).

(** The body of the loop of [Cipher], and the loop from round [i] on with the keys that
    are left. *)
Definition round (i : Z) (s w : STATE) : STATE :=
  let s := ShiftRows (SubBytes s) in AddRoundKey (if negb (i =? 10) then MixColumns s else s) w.

Fixpoint cipher_rounds (i : Z) (ws : list STATE) (s : STATE) : STATE :=
  match ws with [] => s | w :: ws => cipher_rounds (i + 1) ws (round i s w) end.

Definition cipher_block (ws : list STATE) (b : list Z) : list Z :=
  match ws with [] => b | w :: ws => store (cipher_rounds 1 ws (AddRoundKey (load b) w)) end.

(** The loop of [InvCipher], the keys in the reverse order. *)
Definition inv_body (i : Z) (s w : STATE) : STATE :=
  let s := AddRoundKey (InvSubBytes (InvShiftRows s)) w in if negb (i =? 0) then InvMixColumns s else s.

Fixpoint inv_rounds (i : Z) (ws : list STATE) (s : STATE) : STATE :=
  match ws with [] => s | w :: ws => inv_rounds (i - 1) ws (inv_body i s w) end.

Definition inv_block (ws : list STATE) (b : list Z) : list Z :=
  match rev ws with [] => b | w :: ws => store (inv_rounds 9 ws (AddRoundKey (load b) w)) end.

(** [Cipher] and [InvCipher] of the block at an offset of the memory. *)
Definition on_block (f : list Z -> list Z) (m : list Z) (off : Z) : option (list Z) :=
  b ← mem_read m off 16; mem_write m off (f b).

Definition Cipher (ws : list STATE) : list Z -> Z -> option (list Z) := on_block (cipher_block ws).
Definition InvCipher (ws : list STATE) : list Z -> Z -> option (list Z) := on_block (inv_block ws).

(** [for (i = 0; i < length; i += 16)] *)
Fixpoint blocks (f : list Z -> Z -> option (list Z)) (n : nat) (m : list Z) (off : Z) : option (list Z) :=
  match n with O => Some m | S n => m ← f m off; blocks f n m (off + 16) end.

Definition count (length : Z) : nat := Z.to_nat ((length + 15) / 16).

(** The length of the string at the beginning of the memory, its zero included. *)
Fixpoint string_size (m : list Z) : option Z :=
  match m with [] => None | x :: m => if x =? 0 then Some 1 else n ← string_size m; Some (n + 1) end.

Definition CipherString (m : list Z) (length : Z) (key : list Z) : option (list Z) :=
  ws ← KeyExpansion key;
  length ← (if length =? 0 then string_size m else Some length);
  blocks (Cipher ws) (count length) m 0.

Definition InvCipherString (m : list Z) (length : Z) (key : list Z) : option (list Z) :=
  ws ← KeyExpansion key;
  blocks (InvCipher ws) (count length) m 0.

(** The counter is an [unsigned char]: the loop does not end for 256 bytes and more. *)
Definition add_pkcs_padding (output : list Z) (output_len data_len : Z) : option (list Z) :=
  let padding_len := output_len - data_len in
  if 256 <=? padding_len then None
  else if padding_len <=? 0 then Some output
  else mem_write output data_len (replicate (Z.to_nat padding_len) (u8 padding_len)).

(** ** States *)

Definition state_ok (s : STATE) : Prop := len s = 16 /\ Forall is_byte s.

Definition in4 (i : Z) : Prop := 0 <= i < 4.

Lemma cell_build f r c : in4 r -> in4 c -> entry (build f) r c = f r c.
Proof.
  unfold in4, entry, build. intros Hr Hc. rewrite map_map.
  apply list_lookup_total_correct. rewrite list_lookup_fmap, lookup_seq_lt by lia. cbn [fmap option_fmap option_map].
  f_equal. f_equal; Z.div_mod_to_equations; lia.
Qed.

Lemma cell_byte s r c : state_ok s -> in4 r -> in4 c -> is_byte (entry s r c).
Proof.
  unfold in4, entry. intros [L B] Hr Hc. unfold len in L.
  destruct (lookup_lt_is_Some_2 s (Z.to_nat (4 * r + c))) as [x Hx]; [lia |].
  rewrite (list_lookup_total_correct _ _ _ Hx). by eapply Forall_lookup_1.
Qed.

Lemma build_ok f : (forall r c, in4 r -> in4 c -> is_byte (f r c)) -> state_ok (build f).
Proof.
  intros H. split; [reflexivity |]. apply Forall_fmap, List.Forall_forall. intros k Hk.
  apply in_map_iff in Hk as (n & <- & Hn%in_seq). cbn. apply H; unfold in4; Z.div_mod_to_equations; lia.
Qed.

(** A state is what its cells are. *)
Lemma state_ext f s : len s = 16 -> (forall r c, in4 r -> in4 c -> f r c = entry s r c) -> build f = s.
Proof.
  intros L H. apply list_eq. intros k. unfold len in L. destruct (decide (k < 16)%nat) as [Hk | Hk].
  2: { rewrite !lookup_ge_None_2; [done | lia |]. unfold build. rewrite !length_map, length_seq. lia. }
  destruct (lookup_lt_is_Some_2 s k) as [x Hx]; [lia |]. rewrite Hx. unfold build. rewrite map_map.
  rewrite list_lookup_fmap, lookup_seq_lt by lia. cbn [fmap option_fmap option_map]. f_equal.
  rewrite H by (unfold in4; Z.div_mod_to_equations; lia). unfold entry.
  apply list_lookup_total_correct. rewrite <- Hx. f_equal. Z.div_mod_to_equations. lia.
Qed.

Lemma in4_mod i : in4 (i mod 4).
Proof. unfold in4. apply Z.mod_pos_bound. lia. Qed.

#[local] Hint Resolve in4_mod cell_byte : core.

(** ** Bytes *)

Lemma lxor_byte a b : is_byte a -> is_byte b -> is_byte (Z.lxor a b).
Proof.
  unfold is_byte. intros Ha Hb.
  assert (0 <= Z.lxor a b) by (apply Z.lxor_nonneg; lia). split; [done |].
  assert (Z.lxor a b mod 2 ^ 8 = Z.lxor a b) as <-; [| apply Z.mod_pos_bound; lia].
  rewrite <- Z.land_ones by lia. apply Z.bits_inj'. intros n Hn. rewrite Z.land_spec, Z.lxor_spec.
  destruct (decide (n < 8)).
  - rewrite Z.ones_spec_low by lia. by rewrite andb_true_r.
  - rewrite Z.ones_spec_high, andb_false_r by lia.
    assert (forall x, 0 <= x < 256 -> Z.testbit x n = false) as Hx; [| by rewrite !Hx].
    intros x Hx. destruct (decide (x = 0)) as [-> | N]; [apply Z.testbit_0_l |].
    apply Z.bits_above_log2; [lia |]. apply Z.log2_lt_pow2; [lia |].
    apply Z.lt_le_trans with (2 ^ 8); [lia | apply Z.pow_le_mono_r; lia].
Qed.

Lemma lxor_cancel a b : Z.lxor (Z.lxor a b) b = a.
Proof. by rewrite Z.lxor_assoc, Z.lxor_nilpotent, Z.lxor_0_r. Qed.

Definition bytes : list Z := map Z.of_nat (seq 0 256).

Lemma in_bytes x : is_byte x -> In x bytes.
Proof. unfold is_byte. intros H. apply in_map_iff. exists (Z.to_nat x). split; [lia | apply in_seq; lia]. Qed.

Lemma all_bytes (P : Z -> bool) x : forallb P bytes = true -> is_byte x -> P x = true.
Proof. rewrite forallb_forall. intros H Hx. by apply H, in_bytes. Qed.

Definition byteb (x : Z) : bool := (0 <=? x) && (x <? 256).

Lemma byteb_ok x : byteb x = true -> is_byte x.
Proof. unfold byteb, is_byte. lia. Qed.

(** The tables are inverse to one another. *)
Lemma sbox_inverse x : is_byte x -> is_byte (sBox !!! Z.to_nat x) /\ invsBox !!! Z.to_nat (sBox !!! Z.to_nat x) = x.
Proof.
  intros H.
  assert (byteb (sBox !!! Z.to_nat x) && (invsBox !!! Z.to_nat (sBox !!! Z.to_nat x) =? x) = true) as E.
  { apply (all_bytes (fun x => byteb (sBox !!! Z.to_nat x) && (invsBox !!! Z.to_nat (sBox !!! Z.to_nat x) =? x))); [| done].
    vm_compute. reflexivity. }
  apply andb_true_iff in E as [? E%Z.eqb_eq]. split; [by apply byteb_ok | done].
Qed.

(** The factors of the two matrices. *)
Definition factors : list Z := [0x01; 0x02; 0x03; 0x09; 0x0b; 0x0d; 0x0e].

Lemma ffmul_byte a x : In a factors -> is_byte x -> is_byte (FFmul a x).
Proof.
  intros Ha Hx. apply byteb_ok. apply (all_bytes (fun x => byteb (FFmul a x))); [| done].
  assert (forallb (fun a => forallb (fun x => byteb (FFmul a x)) bytes) factors = true) as H by (vm_compute; reflexivity).
  rewrite forallb_forall in H. by apply H.
Qed.

(** Equations between sums of bytes. *)
Ltac xor_ring := apply Z.bits_inj'; intros ? _; rewrite ?Z.lxor_spec, ?Z.testbit_0_l; ring.

Lemma xtime_xor x y : is_byte x -> is_byte y ->
  is_byte (xtime x) /\ xtime (Z.lxor x y) = Z.lxor (xtime x) (xtime y).
Proof.
  intros Hx Hy.
  assert (byteb (xtime x) && forallb (fun y => xtime (Z.lxor x y) =? Z.lxor (xtime x) (xtime y)) bytes = true) as E.
  { apply (all_bytes (fun x => byteb (xtime x) && forallb (fun y => xtime (Z.lxor x y) =? Z.lxor (xtime x) (xtime y)) bytes));
      [| done]. vm_compute. reflexivity. }
  apply andb_true_iff in E as [B E]. split; [by apply byteb_ok |]. apply Z.eqb_eq.
  by apply (all_bytes (fun y => xtime (Z.lxor x y) =? Z.lxor (xtime x) (xtime y))).
Qed.

Lemma ffmul_xor a x y : In a factors -> is_byte x -> is_byte y -> FFmul a (Z.lxor x y) = Z.lxor (FFmul a x) (FFmul a y).
Proof.
  intros Ha Hx Hy. destruct (xtime_xor x y Hx Hy) as [Bx E1], (xtime_xor y x Hy Hx) as [By _].
  destruct (xtime_xor _ _ Bx By) as [Bx2 E2], (xtime_xor _ _ By Bx) as [By2 _].
  destruct (xtime_xor _ _ Bx2 By2) as [_ E3].
  assert (forall z, FFmul a z = Z.lxor (if Z.testbit a 0 then z else 0) (Z.lxor (if Z.testbit a 1 then xtime z else 0)
    (Z.lxor (if Z.testbit a 2 then xtime (xtime z) else 0) (if Z.testbit a 3 then xtime (xtime (xtime z)) else 0)))) as E.
  { intros z. repeat (destruct Ha as [<- | Ha]); try done; lazy -[xtime Z.lxor]; xor_ring. }
  rewrite !E, E1, E2, E3. repeat case_match; rewrite ?Z.lxor_0_l, ?Z.lxor_0_r; xor_ring.
Qed.

(** ** Decryption undoes each step *)

Lemma sub_ok s : state_ok s -> state_ok (SubBytes s).
Proof. intros H. apply build_ok. intros. by apply sbox_inverse, cell_byte. Qed.

Lemma shift_ok s : state_ok s -> state_ok (ShiftRows s).
Proof. intros H. apply build_ok. auto. Qed.

Lemma mix_ok k0 k1 k2 k3 s : Forall (fun k => In k factors) [k0; k1; k2; k3] -> state_ok s -> state_ok (mix k0 k1 k2 k3 s).
Proof.
  intros Hk H. repeat apply Forall_cons_1 in Hk as [? Hk]. apply build_ok. intros.
  repeat apply lxor_byte; apply ffmul_byte; auto.
Qed.

Lemma add_ok s k : state_ok s -> state_ok k -> state_ok (AddRoundKey s k).
Proof. intros H Hk. apply build_ok. intros. apply lxor_byte; auto. Qed.

Lemma inv_sub s : state_ok s -> InvSubBytes (SubBytes s) = s.
Proof.
  intros H. apply state_ext; [apply H |]. intros r c Hr Hc. unfold SubBytes. rewrite cell_build by done.
  by apply sbox_inverse, cell_byte.
Qed.

Lemma inv_shift s : state_ok s -> InvShiftRows (ShiftRows s) = s.
Proof.
  intros H. apply state_ext; [apply H |]. intros r c Hr Hc. unfold ShiftRows. rewrite cell_build by auto.
  f_equal. unfold in4 in *. Z.div_mod_to_equations. lia.
Qed.

Lemma inv_add s k : state_ok s -> AddRoundKey (AddRoundKey s k) k = s.
Proof.
  intros H. apply state_ext; [apply H |]. intros r c Hr Hc. unfold AddRoundKey. rewrite cell_build by done.
  apply lxor_cancel.
Qed.

(** The product of the two matrices. *)
Definition prod (a b : Z) (x : Z) : Z := FFmul a (FFmul b x).

Lemma matrix_product x : is_byte x ->
  let row a b c d := Z.lxor (Z.lxor (Z.lxor (prod 0x0e a x) (prod 0x0b b x)) (prod 0x0d c x)) (prod 0x09 d x) in
  row 0x02 0x01 0x01 0x03 = x /\ row 0x03 0x02 0x01 0x01 = 0 /\ row 0x01 0x03 0x02 0x01 = 0 /\ row 0x01 0x01 0x03 0x02 = 0.
Proof.
  intros H row.
  assert ((row 0x02 0x01 0x01 0x03 =? x) && (row 0x03 0x02 0x01 0x01 =? 0) && (row 0x01 0x03 0x02 0x01 =? 0) &&
    (row 0x01 0x01 0x03 0x02 =? 0) = true) as E; [| rewrite !andb_true_iff, !Z.eqb_eq in E; tauto].
  apply (all_bytes (fun x =>
    let row a b c d := Z.lxor (Z.lxor (Z.lxor (prod 0x0e a x) (prod 0x0b b x)) (prod 0x0d c x)) (prod 0x09 d x) in
    (row 0x02 0x01 0x01 0x03 =? x) && (row 0x03 0x02 0x01 0x01 =? 0) && (row 0x01 0x03 0x02 0x01 =? 0) &&
    (row 0x01 0x01 0x03 0x02 =? 0))); [vm_compute; reflexivity | exact H].
Qed.

Lemma mix_column a b c d : is_byte a -> is_byte b -> is_byte c -> is_byte d ->
  let m p q r s := Z.lxor (Z.lxor (Z.lxor (FFmul 2 p) (FFmul 3 q)) (FFmul 1 r)) (FFmul 1 s) in
  Z.lxor (Z.lxor (Z.lxor (FFmul 0x0e (m a b c d)) (FFmul 0x0b (m b c d a))) (FFmul 0x0d (m c d a b))) (FFmul 0x09 (m d a b c)) = a.
Proof.
  intros Ha Hb Hc Hd m.
  destruct (matrix_product a Ha) as (Ea & _), (matrix_product b Hb) as (_ & Eb & _),
    (matrix_product c Hc) as (_ & _ & Ec & _), (matrix_product d Hd) as (_ & _ & _ & Ed).
  unfold prod in *. unfold m.
  assert (forall k x, In k factors -> is_byte x -> is_byte (FFmul k x)) as B by apply ffmul_byte.
  rewrite !ffmul_xor by (repeat simple apply lxor_byte; try simple apply B; first [assumption | cbn; auto 20]).
  transitivity (Z.lxor a (Z.lxor 0 (Z.lxor 0 0))); [| by rewrite !Z.lxor_0_r].
  etransitivity; [| exact (f_equal2 Z.lxor Ea (f_equal2 Z.lxor Eb (f_equal2 Z.lxor Ec Ed)))]. xor_ring.
Qed.

Lemma inv_mix s : state_ok s -> InvMixColumns (MixColumns s) = s.
Proof.
  intros H. apply state_ext; [apply H |]. intros r c Hr Hc. unfold MixColumns, mix at 1 2 3 4.
  rewrite !cell_build by auto.
  assert (forall i j, ((r + i) mod 4 + j) mod 4 = (r + (i + j)) mod 4) as E.
  { intros i j. rewrite Zplus_mod_idemp_l. f_equal. lia. }
  rewrite !E. change (1 + 1) with 2. change (1 + 2) with 3. change (1 + 3) with 4. change (2 + 1) with 3.
  change (2 + 2) with 4. change (2 + 3) with 5. change (3 + 1) with 4. change (3 + 2) with 5. change (3 + 3) with 6.
  assert ((r + 4) mod 4 = r /\ (r + 5) mod 4 = (r + 1) mod 4 /\ (r + 6) mod 4 = (r + 2) mod 4) as (-> & -> & ->).
  { unfold in4 in Hr. Z.div_mod_to_equations. lia. }
  apply mix_column; auto.
Qed.

(** ** Blocks *)

Lemma load_ok b : len b = 16 -> Forall is_byte b -> state_ok (load b).
Proof.
  intros L B. apply build_ok. intros r c Hr Hc. unfold in4, len in *.
  destruct (lookup_lt_is_Some_2 b (Z.to_nat (c * 4 + r))) as [x Hx]; [lia |].
  rewrite (list_lookup_total_correct _ _ _ Hx). by eapply Forall_lookup_1.
Qed.

Lemma store_ok s : state_ok s -> state_ok (store s).
Proof. intros H. apply build_ok. auto. Qed.

Lemma load_store s : state_ok s -> load (store s) = s.
Proof.
  intros H. apply state_ext; [apply H |]. intros r c Hr Hc.
  change (store s !!! Z.to_nat (c * 4 + r)) with (store s !!! Z.to_nat (c * 4 + r)).
  replace (c * 4 + r) with (4 * c + r) by lia. change (entry (store s) c r = entry s r c).
  unfold store. by rewrite cell_build.
Qed.

Lemma store_load b : len b = 16 -> store (load b) = b.
Proof.
  intros L. apply state_ext; [done |]. intros c r Hc Hr. unfold load. rewrite cell_build by done.
  unfold entry. by replace (c * 4 + r) with (4 * c + r) by lia.
Qed.

Lemma mix_columns_ok s : state_ok s -> state_ok (MixColumns s).
Proof. apply mix_ok. repeat (constructor; [cbn; auto 10 |]). constructor. Qed.

(** One round and its inverse. *)
Lemma round_ok i s w : state_ok s -> state_ok w -> state_ok (round i s w).
Proof.
  intros Hs Hw. apply add_ok; [| done]. destruct (negb _); [| by apply shift_ok, sub_ok].
  by apply mix_columns_ok, shift_ok, sub_ok.
Qed.

Lemma rounds_ok ws : forall i s, Forall state_ok ws -> state_ok s -> state_ok (cipher_rounds i ws s).
Proof.
  induction ws as [|w ws IH]; intros i s W Hs; [done |]. apply Forall_cons_1 in W as [? W].
  apply IH; [done | by apply round_ok].
Qed.

Lemma rounds_app a b : forall i s, cipher_rounds i (a ++ b) s = cipher_rounds (i + len a) b (cipher_rounds i a s).
Proof.
  induction a as [|w a IH]; intros i s; cbn [app cipher_rounds]; [by rewrite len_nil, Z.add_0_r |].
  rewrite IH, len_cons. f_equal. lia.
Qed.

(** [u] is what the inverse loop holds when the cipher was at [s]. *)
Definition undone (u s : STATE) : Prop := InvSubBytes (InvShiftRows u) = s.

Lemma undo_last s k : state_ok s -> state_ok k -> undone (AddRoundKey (round 10 s k) k) s.
Proof.
  intros Hs Hk. unfold undone, round. pose proof (sub_ok s Hs) as H1. pose proof (shift_ok _ H1) as H2.
  change (negb (10 =? 10)) with false. cbv iota. by rewrite inv_add, inv_shift, inv_sub.
Qed.

Lemma undo_round i u s k : 1 <= i <= 9 -> state_ok s -> state_ok k -> undone u (round i s k) -> undone (inv_body i u k) s.
Proof.
  intros Hi Hs Hk U. unfold inv_body. rewrite U. unfold undone, round. rewrite (proj2 (Z.eqb_neq i 0)), (proj2 (Z.eqb_neq i 10)) by lia.
  cbn [negb]. pose proof (sub_ok s Hs) as H1. pose proof (shift_ok _ H1) as H2. pose proof (mix_columns_ok _ H2).
  by rewrite inv_add, inv_mix, inv_shift, inv_sub.
Qed.

Lemma undo_rounds w s ks : state_ok s -> state_ok w -> Forall state_ok ks -> len ks <= 9 -> forall u,
  undone u (cipher_rounds 1 ks (AddRoundKey s w)) -> inv_rounds (len ks) (rev ks ++ [w]) u = s.
Proof.
  intros Hs Hw. induction ks as [|k ks IH] using rev_ind; intros K L u U.
  { cbn [rev app inv_rounds cipher_rounds] in *. change (len []) with 0. unfold inv_body. rewrite U, inv_add by done. done. }
  apply Forall_app in K as [K K1]. apply Forall_cons_1 in K1 as [Hk _].
  rewrite len_app in *. change (len [k]) with 1 in *. pose proof (len_nonneg ks).
  rewrite rounds_app in U. cbn [cipher_rounds] in U. rewrite rev_app_distr. cbn [rev app inv_rounds].
  replace (len ks + 1 - 1) with (len ks) by lia. apply IH; [done | lia |].
  apply undo_round; [lia | by apply rounds_ok, add_ok | done |]. by replace (len ks + 1) with (1 + len ks) by lia.
Qed.

Lemma inv_block_ok ws b : len ws = 11 -> Forall state_ok ws -> len b = 16 -> Forall is_byte b ->
  let c := cipher_block ws b in len c = 16 /\ Forall is_byte c /\ inv_block ws c = b.
Proof.
  intros L W Lb B. destruct ws as [|w ws]; [done |]. destruct ws as [|v ks _] using rev_ind; [done |].
  rewrite len_cons, len_app in L. change (len [v]) with 1 in L.
  apply Forall_cons_1 in W as [Hw W]. apply Forall_app in W as [K V]. apply Forall_cons_1 in V as [Hv _].
  pose proof (load_ok b Lb B) as Hs. pose proof (add_ok _ _ Hs Hw) as H0.
  unfold cipher_block, inv_block. rewrite rounds_app. cbn [cipher_rounds rev]. rewrite rev_app_distr. cbn [rev app].
  pose proof (rounds_ok ks 1 _ K H0) as H9. replace (1 + len ks) with 10 by lia.
  pose proof (round_ok 10 _ _ H9 Hv) as Ht. destruct (store_ok _ Ht) as [Lc Bc].
  split; [done |]. split; [done |]. rewrite load_store by done.
  replace 9 with (len ks) by lia. rewrite (undo_rounds w (load b) ks); try done; [by apply store_load | lia |].
  by apply undo_last.
Qed.

Lemma inv_body_ok i s w : state_ok s -> state_ok w -> state_ok (inv_body i s w).
Proof.
  intros Hs Hw. assert (state_ok (InvShiftRows s)) as H1 by (apply build_ok; auto).
  assert (state_ok (InvSubBytes (InvShiftRows s))) as H2.
  { apply build_ok. intros r c Hr Hc.
    apply byteb_ok, (all_bytes (fun x => byteb (invsBox !!! Z.to_nat x))); [vm_compute; reflexivity | auto]. }
  pose proof (add_ok _ _ H2 Hw) as H3. unfold inv_body. destruct (negb _); [| done].
  apply mix_ok; [| done]. repeat (constructor; [cbn; auto 10 |]). constructor.
Qed.

Lemma inv_block_shape ws b : ws <> [] -> Forall state_ok ws -> len b = 16 -> Forall is_byte b -> state_ok (inv_block ws b).
Proof.
  intros N W Lb B. unfold inv_block. apply Forall_rev in W.
  destruct (rev ws) as [|w vs] eqn:E; [by split |]. apply Forall_cons_1 in W as [Hw V]. apply store_ok.
  pose proof (add_ok _ _ (load_ok b Lb B) Hw) as Hs. revert Hs. generalize (AddRoundKey (load b) w) 9.
  clear E. induction vs as [|v vs IH]; intros s i Hs; [done |]. apply Forall_cons_1 in V as [Hv V].
  apply IH; [done | by apply inv_body_ok].
Qed.

(** ** Round keys *)

Lemma key_column_ok w n x j : state_ok w -> state_ok n -> is_byte x -> in4 j -> state_ok (key_column w n x j).
Proof.
  intros Hw Hn Hx Hj. apply build_ok. intros r c Hr Hc. destruct (c =? j); [| auto].
  apply lxor_byte; [auto |]. destruct (Z.eqb_spec j 0).
  - assert (is_byte (sBox !!! Z.to_nat (entry w ((r + 1) mod 4) 3))) by (apply sbox_inverse, cell_byte; auto; split; lia).
    destruct (r =? 0); [by apply lxor_byte | done].
  - apply cell_byte; auto. unfold in4 in *. lia.
Qed.

Lemma next_key_ok w x : state_ok w -> is_byte x -> state_ok (next_key w x).
Proof.
  intros Hw Hx. unfold next_key. cbn [fold_left].
  repeat (apply key_column_ok; [done | | done | unfold in4; lia]).
  split; [reflexivity |]. apply Forall_replicate. unfold is_byte. lia.
Qed.

Lemma expand_ok rcs : forall w, state_ok w -> Forall is_byte rcs ->
  len (expand w rcs) = 1 + len rcs /\ Forall state_ok (expand w rcs).
Proof.
  induction rcs as [|x rcs IH]; intros w Hw Hr; cbn [expand]; [split; [done | by apply Forall_cons_2] |].
  apply Forall_cons_1 in Hr as [Hx Hr]. destruct (IH (next_key w x)) as [L F]; [by apply next_key_ok | done |].
  rewrite !len_cons, L. split; [lia | by constructor].
Qed.

Lemma key_expansion_ok key : 16 <= len key -> Forall is_byte key ->
  exists ws, KeyExpansion key = Some ws /\ len ws = 11 /\ Forall state_ok ws.
Proof.
  intros L B. unfold KeyExpansion. rewrite mem_read_ok by lia. cbn [mbind option_bind].
  eexists. split; [reflexivity |]. rewrite drop_0.
  apply (expand_ok rc); [| repeat constructor; done].
  apply load_ok; [rewrite len_take; lia | by apply Forall_take].
Qed.

(** ** Strings *)

Fixpoint map_blocks (f : list Z -> list Z) (n : nat) (l : list Z) : list Z :=
  match n with O => l | S n => f (take 16 l) ++ map_blocks f n (drop 16 l) end.

Lemma blocks_map f n : (forall b, len b = 16 -> Forall is_byte b -> len (f b) = 16 /\ Forall is_byte (f b)) ->
  forall m off, 0 <= off -> off + 16 * Z.of_nat n <= len m -> Forall is_byte m ->
  blocks (on_block f) n m off = Some (take (Z.to_nat off) m ++ map_blocks f n (drop (Z.to_nat off) m)).
Proof.
  intros Hf. induction n as [|n IH]; intros m off Ho Hl Hb; cbn [blocks map_blocks]; [by rewrite take_drop |].
  assert (len (take 16 (drop (Z.to_nat off) m)) = 16) as L by (rewrite len_take, len_drop; lia).
  destruct (Hf _ L) as [Lf Bf]; [by apply Forall_take, Forall_drop |].
  set (m1 := take (Z.to_nat off) m ++ f (take 16 (drop (Z.to_nat off) m)) ++ drop (Z.to_nat (off + 16)) m).
  assert (on_block f m off = Some m1) as ->.
  { unfold on_block. rewrite mem_read_ok by lia. cbn [mbind option_bind]. change (Z.to_nat 16) with 16%nat.
    rewrite mem_write_ok by lia. by rewrite Lf. }
  cbn [mbind option_bind]. assert (len m1 = len m) as L1.
  { unfold m1. rewrite !len_app, len_take, len_drop, Lf. lia. }
  rewrite IH; [| lia | lia |].
  2: { apply Forall_app_2; [by apply Forall_take |]. apply Forall_app_2; [done | by apply Forall_drop]. }
  assert (Z.to_nat (off + 16) = length (take (Z.to_nat off) m ++ f (take 16 (drop (Z.to_nat off) m)))) as E.
  { unfold len in *. rewrite length_app, length_take. lia. }
  f_equal. unfold m1. rewrite app_assoc, take_app_length', drop_app_length' by done. rewrite <- app_assoc. do 3 f_equal.
  rewrite drop_drop. f_equal. lia.
Qed.

Lemma map_blocks_inverse f g n : (forall b, len b = 16 -> Forall is_byte b -> len (f b) = 16 /\ g (f b) = b) ->
  forall l, 16 * Z.of_nat n <= len l -> Forall is_byte l -> map_blocks g n (map_blocks f n l) = l.
Proof.
  intros Hf. induction n as [|n IH]; intros l Hl Hb; cbn [map_blocks]; [done |].
  destruct (Hf (take 16 l)) as [Lf Gf]; [rewrite len_take; lia | by apply Forall_take |].
  rewrite take_app_length', drop_app_length' by (unfold len in Lf; lia).
  rewrite Gf, IH; [apply take_drop | rewrite len_drop; lia | by apply Forall_drop].
Qed.

Lemma map_blocks_shape f n : (forall b, len b = 16 -> Forall is_byte b -> len (f b) = 16 /\ Forall is_byte (f b)) ->
  forall l, 16 * Z.of_nat n <= len l -> Forall is_byte l ->
  len (map_blocks f n l) = len l /\ Forall is_byte (map_blocks f n l) /\
  drop (16 * n) (map_blocks f n l) = drop (16 * n) l.
Proof.
  intros Hf. induction n as [|n IH]; intros l Hl Hb; cbn [map_blocks]; [done |].
  destruct (Hf (take 16 l)) as [Lf Bf]; [rewrite len_take; lia | by apply Forall_take |].
  destruct (IH (drop 16 l)) as (L & B & D); [rewrite len_drop; lia | by apply Forall_drop |].
  split; [rewrite len_app, L, len_drop; lia |]. split; [by apply Forall_app_2 |].
  replace (16 * S n)%nat with (length (f (take 16 l)) + 16 * n)%nat by (unfold len in Lf; lia).
  rewrite <- drop_drop, drop_app_length, D, drop_drop. f_equal. unfold len in Lf. lia.
Qed.

Section string.
Context (key : list Z) (Hk : 16 <= len key) (Bk : Forall is_byte key).
Context (m : list Z) (length : Z) (Hl : 0 < length) (Hm : 16 * Z.of_nat (count length) <= len m) (Bm : Forall is_byte m).

Lemma cipher_string_ok : exists c, CipherString m length key = Some c /\ len c = len m /\ Forall is_byte c /\
  drop (16 * count length) c = drop (16 * count length) m /\ InvCipherString c length key = Some m.
Proof using All.
  destruct (key_expansion_ok key Hk Bk) as (ws & E & L & W).
  assert (forall b, len b = 16 -> Forall is_byte b ->
    len (cipher_block ws b) = 16 /\ Forall is_byte (cipher_block ws b) /\ inv_block ws (cipher_block ws b) = b) as H
    by (intros; by apply inv_block_ok).
  assert (forall b, len b = 16 -> Forall is_byte b -> len (cipher_block ws b) = 16 /\ Forall is_byte (cipher_block ws b)) as H1
    by (intros b Lb Bb; destruct (H b Lb Bb) as (? & ? & _); done).
  destruct (map_blocks_shape _ _ H1 m Hm Bm) as (Lc & Bc & Dc).
  exists (map_blocks (cipher_block ws) (count length) m). split.
  { unfold CipherString. rewrite E. cbn [mbind option_bind]. rewrite (proj2 (Z.eqb_neq _ _)) by lia.
    cbn [mbind option_bind]. unfold Cipher. by rewrite blocks_map by (done || lia). }
  split; [done |]. split; [done |]. split; [done |].
  unfold InvCipherString. rewrite E. cbn [mbind option_bind]. unfold InvCipher.
  rewrite blocks_map; [| intros b Lb Bb; apply inv_block_shape; try done; by intros -> | done | lia | done].
  rewrite drop_0. f_equal. apply map_blocks_inverse; [| done | done].
  intros b Lb Bb. destruct (H b Lb Bb) as (? & _ & ?). done.
Qed.
End string.

(** ** Properties *)

(** The finite field of 256 elements: polynomials of bits modulo
    [x^8 + x^4 + x^3 + x + 1]. *)
Definition poly_mul (a b : Z) : Z :=
  fold_left (fun p i => if Z.testbit b i then Z.lxor p (Z.shiftl a i) else p) [0; 1; 2; 3; 4; 5; 6; 7] 0.
Definition poly_mod (p : Z) : Z :=
  fold_left (fun p i => if Z.testbit p (i + 8) then Z.lxor p (Z.shiftl 0x11b i) else p) [7; 6; 5; 4; 3; 2; 1; 0] p.
Definition gf_mul (a b : Z) : Z := poly_mod (poly_mul a b).

(** The affine map of the S-box: the sum of four rotations and a constant. *)
Definition rotl8 (x i : Z) : Z := u8 (Z.lor (Z.shiftl x i) (Z.shiftr x (8 - i))).
Definition affine (x : Z) : Z :=
  Z.lxor (Z.lxor (Z.lxor (Z.lxor (Z.lxor x (rotl8 x 1)) (rotl8 x 2)) (rotl8 x 3)) (rotl8 x 4)) 0x63.

(** C16: the code computes in the finite field of AES: [FFmul] is its product, the S-box
    the affine map of the inverse, the round constants are powers of the polynomial [x]. *)
Theorem aes_field :
  (forall a x, 0 <= a < 16 -> is_byte x -> FFmul a x = gf_mul a x) /\
  sBox !!! 0%nat = affine 0 /\
  (forall x, is_byte x -> x <> 0 -> exists y, is_byte y /\ gf_mul x y = 1 /\ sBox !!! Z.to_nat x = affine y) /\
  (forall x, is_byte x -> invsBox !!! Z.to_nat (sBox !!! Z.to_nat x) = x) /\
  rc = take 10 (snd (fold_left (fun p _ => (gf_mul 2 p.1, p.2 ++ [p.1])) rc (1, []))).
Proof.
  split; [| split; [vm_compute; reflexivity | split; [| split; [by apply sbox_inverse | vm_compute; reflexivity]]]].
  - intros a x Ha Hx. apply Z.eqb_eq, (all_bytes (fun x => FFmul a x =? gf_mul a x)); [| done].
    assert (forallb (fun a => forallb (fun x => FFmul a x =? gf_mul a x) bytes) (map Z.of_nat (seq 0 16)) = true) as H
      by (vm_compute; reflexivity).
    rewrite forallb_forall in H. apply H, in_map_iff. exists (Z.to_nat a). split; [lia | apply in_seq; lia].
  - intros x Hx N.
    assert ((x =? 0) || existsb (fun y => (gf_mul x y =? 1) && (sBox !!! Z.to_nat x =? affine y)) bytes = true) as H.
    { apply (all_bytes (fun x => (x =? 0) || existsb (fun y => (gf_mul x y =? 1) && (sBox !!! Z.to_nat x =? affine y)) bytes));
        [vm_compute; reflexivity | done]. }
    apply orb_true_iff in H as [H%Z.eqb_eq | (y & Hy & H)%existsb_exists]; [done |].
    apply andb_true_iff in H as [?%Z.eqb_eq ?%Z.eqb_eq]. exists y. split; [| done].
    apply in_map_iff in Hy as (n & <- & Hn%in_seq). unfold is_byte. lia.
Qed.

(** C15: a message that is padded to whole blocks and encrypted in place is decrypted to
    the padded message, whose last bytes tell how much was added; memory behind it is not
    changed. *)
Theorem aes_roundtrip key m d :
  16 <= len key -> Forall is_byte key -> Forall is_byte m -> 0 <= d ->
  let out := d + 16 - d mod 16 in out <= len m ->
  exists p c, add_pkcs_padding m out d = Some p /\ CipherString p out key = Some c /\ InvCipherString c out key = Some p /\
    take (Z.to_nat d) p = take (Z.to_nat d) m /\
    (forall i, d <= i < out -> mem_get p i = Some (out - d)) /\
    len c = len m /\ drop (Z.to_nat out) c = drop (Z.to_nat out) m.
Proof.
  intros Hk Bk Bm Hd out Ho. pose proof (Z.mod_pos_bound d 16 ltac:(lia)) as Hr.
  assert (count out = Z.to_nat (out / 16) /\ out = 16 * (out / 16)) as [Hc H16].
  { unfold count, out. split; [f_equal |]; Z.div_mod_to_equations; lia. }
  set (pad := replicate (Z.to_nat (out - d)) (u8 (out - d))).
  assert (len pad = out - d) as Lp by (apply len_replicate; unfold out; lia).
  assert (u8 (out - d) = out - d) as Eu by (apply u8_small; unfold is_byte, out; lia).
  destruct (mem_write m d pad) as [p|] eqn:W; [| rewrite mem_write_ok in W by lia; done].
  pose proof (mem_write_len _ _ _ _ W) as L.
  assert (p = take (Z.to_nat d) m ++ pad ++ drop (Z.to_nat out) m) as Ep.
  { rewrite mem_write_ok in W by lia. injection W as <-. do 3 f_equal. lia. }
  assert (Forall is_byte p) as Bp.
  { rewrite Ep. apply Forall_app_2; [by apply Forall_take |]. apply Forall_app_2; [| by apply Forall_drop].
    apply Forall_replicate. apply u8_range. }
  destruct (cipher_string_ok key Hk Bk p out) as (c & E & Lc & _ & Dc & I); [unfold out; lia | rewrite Hc; lia | done |].
  exists p, c. split.
  { unfold add_pkcs_padding. rewrite (proj2 (Z.leb_gt _ _)) by (unfold out; lia).
    by rewrite (proj2 (Z.leb_gt _ _)) by (unfold out; lia). }
  split; [done |]. split; [done |].
  assert (length (take (Z.to_nat d) m) = Z.to_nat d) as Lt by (rewrite length_take; unfold len, out in *; lia).
  split; [rewrite Ep, take_app_length'; done |]. split; [| split; [lia |]].
  - intros i Hi. rewrite mem_get_lookup by lia. rewrite (mem_write_lookup _ _ _ _ _ W), Lp.
    rewrite (proj2 (Z.leb_le _ _)), (proj2 (Z.ltb_lt _ _)) by lia. cbn [andb]. unfold pad.
    rewrite lookup_replicate_2 by lia. by rewrite Eu.
  - replace (Z.to_nat out) with (16 * count out)%nat by lia. rewrite Dc, Ep.
    rewrite app_assoc, drop_app_length'; [f_equal; lia |]. rewrite length_app. unfold len in Lp. lia.
Qed.

(** The example of the standard, and a message of five bytes. *)
Definition demo_key : list Z := map Z.of_nat (seq 0 16).

Example aes_standard :
  CipherString (map (fun i => 17 * Z.of_nat i) (seq 0 16)) 16 demo_key =
  Some [0x69; 0xc4; 0xe0; 0xd8; 0x6a; 0x7b; 0x04; 0x30; 0xd8; 0xcd; 0xb7; 0x80; 0x70; 0xb4; 0xc5; 0x5a].
Proof. vm_compute. reflexivity. Qed.

Lemma aes_roundtrip_witness : exists p c,
  add_pkcs_padding ([1; 2; 3; 4; 5] ++ replicate 15 0) 16 5 = Some p /\ CipherString p 16 demo_key = Some c /\
  InvCipherString c 16 demo_key = Some p /\ mem_get p 15 = Some 11.
Proof.
  destruct (aes_roundtrip demo_key ([1; 2; 3; 4; 5] ++ replicate 15 0) 5) as (p & c & Ep & Ec & Ei & _ & Hp & _).
  - discriminate.
  - repeat constructor; discriminate.
  - repeat constructor; discriminate.
  - discriminate.
  - discriminate.
  - exists p, c. split; [exact Ep |]. split; [exact Ec |]. split; [exact Ei |].
    apply (Hp 15). split; [discriminate | reflexivity].
Defined.
