(* ===== verification/File.v ===== *)
(** * Files

    The file operations of src/mid/file/file.c that the reliable data store uses,
    on a file system that is a finite map from paths to contents.  A state records
    every change of the file system, so that a loss of power at any point is a
    prefix of the record, the last write cut anywhere ([torn]).  Every system call
    can fail: [fault] says how the n-th one ends. *)

From stdpp Require Import gmap strings.
From S2P Require Import Prelude Md5.

(** ** The file system *)

Abbreviation FS := (gmap string (list Z)).

Inductive FS_STEP :=
| FsCreate (p : string)                    (* created or truncated *)
| FsAppend (p : string) (bytes : list Z)   (* write, sendfile *)
| FsRename (p q : string)                  (* rename *)
| FsRemove (p : string).                   (* unlink *)

Definition do_step (st : FS_STEP) (fs : FS) : FS :=
  match st with
  | FsCreate p => <[p := []]> fs
  | FsAppend p bytes => <[p := default [] (fs !! p) ++ bytes]> fs
  | FsRename p q => match fs !! p with Some c => <[q := c]> (delete p fs) | None => fs end
  | FsRemove p => delete p fs
  end.

Definition do_steps (l : list FS_STEP) (fs : FS) : FS := fold_left (fun fs st => do_step st fs) l fs.

(** What can be on the disk when the power fails: [torn l d] if [d] is what was
    done of [l]. *)
Inductive torn : list FS_STEP -> list FS_STEP -> Prop :=
| torn_nil l : torn l []
| torn_cons st l d : torn l d -> torn (st :: l) (st :: d)
| torn_write p bytes l k : torn (FsAppend p bytes :: l) [FsAppend p (take k bytes)].

Record FILES := { fs : FS; trace : list FS_STEP; tick : nat }.

Abbreviation FM := (ST FILES).

(** ** Error codes *)

Definition DIR_MAKE_FAILED : Z := Z.lor (Z.shiftl 0x3f02 16) 2.
Definition FILE_MAKE_FAILED : Z := Z.lor (Z.shiftl 0x3f01 16) 2.
Definition FILE_STAT_FAILED : Z := Z.lor (Z.shiftl 0x3f01 16) 3.
Definition FILE_OPEN_FAILED : Z := Z.lor (Z.shiftl 0x3f01 16) 5.
Definition FILE_SET_ATTR_FAILED : Z := Z.lor (Z.shiftl 0x3f01 16) 6.
Definition FILE_COPY_FAILED : Z := Z.lor (Z.shiftl 0x3f01 16) 8.
Definition DEV_RW_INVALID_PARAMETER : Z := Z.lor (Z.shiftl 0x3f04 16) 1.
Definition DEV_RW_READ_FAILED : Z := Z.lor (Z.shiftl 0x3f04 16) 2.

Definition COM_APP_MAX_PATH_LEN : Z := 256.

Definition strlen (s : string) : Z := Z.of_nat (String.length s).

(** ** Operations *)

Definition step (st : FS_STEP) : FM unit :=
  st_mod (fun s => {| s with fs := do_step st (fs s); trace := trace s ++ [st] |}).

Definition file_exists (p : string) : FM bool := st_gets (fun s => bool_decide (is_Some (fs s !! p))).

(** [-1] if there is no file; [int], so a file of 2 GiB has a negative size. *)
Definition file_size (p : string) : FM Z :=
  st_gets (fun s => match fs s !! p with Some c => s32 (len c) | None => -1 end).

Section faults.
(** The [n]-th system call fails if [fault n] is [Some k], a transfer after [k]
    bytes. *)
Context (fault : nat -> option nat).

Definition sys : FM (option nat) :=
  n ← st_gets tick;
  st_mod (fun s => {| s with tick := S n |});;
  mret (fault n).

(** Directories are not part of the file system: making them fails or not. *)
Definition dir_make_path (p : string) : FM Z :=
  r ← sys; mret (match r with None => 0 | Some _ => DIR_MAKE_FAILED end).

(** [open] with [O_TRUNC | O_CREAT], and [creat]: the path, or [None] for a
    negative descriptor. *)
Definition open_write (p : string) : FM (option string) :=
  r ← sys;
  match r with None => step (FsCreate p);; mret (Some p) | Some _ => mret None end.

(** Also a failing write reports DEV_RW_READ_FAILED. *)
Definition dev_write (fd : option string) (data : list Z) : FM Z :=
  match fd with
  | None => mret DEV_RW_INVALID_PARAMETER
  | Some p =>
      r ← sys;
      match r with
      | None => step (FsAppend p data);; mret 0
      | Some k => step (FsAppend p (take k data));; mret DEV_RW_READ_FAILED
      end
  end.

(** [dev_read] of a file of which [rest] is unread: it fails or reads [n] bytes. *)
Definition dev_read (rest : list Z) (n : Z) : FM (option (list Z * list Z)) :=
  r ← sys;
  match r with
  | None => bytes ← st_lift (mem_read rest 0 n); mret (Some (bytes, drop (Z.to_nat n) rest))
  | Some _ => mret None
  end.

(** The content of an opened file, [None] for a negative descriptor. *)
Definition file_open_read (p : string) : FM (option (list Z)) :=
  r ← sys;
  match r with None => st_gets (fun s => fs s !! p) | Some _ => mret None end.

(** A failure is only logged. *)
Definition file_rename (old_path new_path : string) : FM unit :=
  r ← sys; match r with None => step (FsRename old_path new_path) | Some _ => mret tt end.

Definition file_delete (p : string) : FM unit :=
  r ← sys; match r with None => step (FsRemove p) | Some _ => mret tt end.

Definition temp_path (p : string) : string := (p ++ ".new")%string.

Definition file_write_atomic (p : string) (data : list Z) : FM Z :=
  if COM_APP_MAX_PATH_LEN <=? strlen (temp_path p) then mret FILE_OPEN_FAILED
  else
    fd ← open_write (temp_path p);
    ret ← dev_write fd data;
    if negb (ret =? 0) then mret ret
    else file_rename (temp_path p) p;; mret ret.

(** The digest of the header and the data, in two pieces. *)
Definition file_digest (hdr data : list Z) : option (list Z) := md5_pieces MD5_CTX_zero [hdr; data].

Definition file_update_atomic (p : string) (hdr data : list Z) : FM Z :=
  if COM_APP_MAX_PATH_LEN <=? strlen (temp_path p) then mret FILE_OPEN_FAILED
  else
    fd ← open_write (temp_path p);
    ret ← dev_write fd hdr;
    if negb (ret =? 0) then mret ret
    else
      ret ← dev_write fd data;
      if negb (ret =? 0) then mret ret
      else
        digest ← st_lift (file_digest hdr data);
        ret ← dev_write fd digest;
        if negb (ret =? 0) then mret ret
        else file_rename (temp_path p) p;; mret ret.

(** The loop of [sendfile] calls is one transfer. *)
Definition file_copy (src_path dst_path : string) : FM Z :=
  e ← file_exists src_path;
  if negb e then mret FILE_STAT_FAILED
  else
    d ← file_exists dst_path;
    ret ← (if (d : bool) then mret 0 else dir_make_path dst_path : FM Z);
    if negb (ret =? 0) then mret FILE_MAKE_FAILED
    else
      rd ← file_open_read src_path;
      match rd with
      | None => mret FILE_STAT_FAILED
      | Some content =>
          wr ← open_write dst_path;
          match wr with
          | None => mret FILE_STAT_FAILED
          | Some _ =>
              a ← sys;
              match a with
              | Some _ => mret FILE_SET_ATTR_FAILED
              | None =>
                  ret ← dev_write wr content;
                  mret (if ret =? 0 then 0 else FILE_COPY_FAILED)
              end
          end
      end.

(** [read_len] is the size of the buffer; the bytes read, or an error code. *)
Definition file_read (path : string) (read_len : Z) : FM (Z + list Z) :=
  size ← file_size path;
  if size <? 0 then mret (inl FILE_STAT_FAILED)
  else
    fd ← file_open_read path;
    match fd with
    | None => mret (inl FILE_OPEN_FAILED)
    | Some content =>
        r ← dev_read content (Z.min read_len size);
        mret (match r with None => inl DEV_RW_READ_FAILED | Some (bytes, _) => inr bytes end)
    end.

End faults.

(** A C string in a buffer. *)
Fixpoint c_string (l : list Z) : list Z :=
  match l with [] => [] | x :: l => if x =? 0 then [] else x :: c_string l end.

(** ** What an operation does to the disk *)

Definition touches (P : string -> Prop) (st : FS_STEP) : Prop :=
  match st with
  | FsCreate p | FsAppend p _ | FsRemove p => P p
  | FsRename p q => P p /\ P q
  end.

(** Files hold bytes. *)
Definition bytes_ok (f : FS) : Prop := forall p c, f !! p = Some c -> Forall is_byte c.
Definition step_ok (st : FS_STEP) : Prop :=
  match st with FsAppend _ bytes => Forall is_byte bytes | _ => True end.

Lemma do_steps_app a b f : do_steps (a ++ b) f = do_steps b (do_steps a f).
Proof. apply fold_left_app. Qed.

Lemma do_step_bytes st f : bytes_ok f -> step_ok st -> bytes_ok (do_step st f).
Proof.
  intros Hf Hs p c. destruct st as [q | q bytes | q r | q]; cbn [do_step step_ok] in *.
  - intros [[_ <-] | [_ E]]%lookup_insert_Some; [constructor | by eapply Hf].
  - intros [[_ <-] | [_ E]]%lookup_insert_Some; [| by eapply Hf].
    apply Forall_app_2; [| done]. destruct (f !! q) eqn:E; [by eapply Hf | constructor].
  - destruct (f !! q) eqn:E; [| by apply Hf].
    intros [[_ <-] | [_ E']]%lookup_insert_Some; [by eapply Hf |].
    apply lookup_delete_Some in E' as [_ E']. by eapply Hf.
  - intros [_ E]%lookup_delete_Some. by eapply Hf.
Qed.

Lemma do_steps_bytes l : forall f, bytes_ok f -> Forall step_ok l -> bytes_ok (do_steps l f).
Proof.
  induction l as [|st l IH]; intros f Hf Hl; [done |]. apply Forall_cons_1 in Hl as [? ?].
  apply (IH (do_step st f)); [by apply do_step_bytes | done].
Qed.

(** [m] always ends, started on the files [f]; its result and the steps it takes
    satisfy [Q]. *)
Definition emits {A} (f : FS) (m : FM A) (Q : A -> list FS_STEP -> Prop) : Prop :=
  forall s, fs s = f -> bytes_ok f -> exists a s' l, m s = Some (a, s') /\ trace s' = trace s ++ l /\
    fs s' = do_steps l f /\ Forall step_ok l /\ Q a l.

Lemma emits_ret {A} f (a : A) (Q : A -> list FS_STEP -> Prop) : Q a [] -> emits f (mret a) Q.
Proof. intros HQ s <- _. exists a, s, []. rewrite app_nil_r. split; [done |]. by repeat split. Qed.

Lemma emits_bind {A B} f (m : FM A) (k : A -> FM B) P Q :
  emits f m P ->
  (forall a l0, P a l0 -> emits (do_steps l0 f) (k a) (fun b l => Q b (l0 ++ l))) ->
  emits f (m ≫= k) Q.
Proof.
  intros Hm Hk s Hf Hs. destruct (Hm s Hf Hs) as (a & s1 & l1 & E1 & T1 & F1 & S1 & P1).
  destruct (Hk a l1 P1 s1) as (b & s2 & l2 & E2 & T2 & F2 & S2 & Q2); [done | by apply do_steps_bytes |].
  exists b, s2, (l1 ++ l2). rewrite (st_bind_run _ _ _ _ _ E1). split; [done |].
  split; [by rewrite T2, T1, app_assoc |]. split; [by rewrite F2, do_steps_app |].
  split; [by apply Forall_app_2 | done].
Qed.

(** A call that leaves the files alone. *)
Lemma emits_bind_pure {A B} f (m : FM A) (k : A -> FM B) (P : A -> Prop) Q :
  emits f m (fun a l => P a /\ l = []) -> (forall a, P a -> emits f (k a) Q) -> emits f (m ≫= k) Q.
Proof. intros Hm Hk. eapply emits_bind; [exact Hm |]. intros a l0 [Ha ->]. by apply Hk. Qed.

Lemma emits_weaken {A} f (m : FM A) (P Q : A -> list FS_STEP -> Prop) :
  emits f m P -> (forall a l, P a l -> Q a l) -> emits f m Q.
Proof.
  intros Hm HQ s Hf Hs. destruct (Hm s Hf Hs) as (a & s1 & l1 & E1 & T1 & F1 & S1 & P1).
  exists a, s1, l1. auto 10.
Qed.

Lemma emits_bytes {A} f (m : FM A) Q : (bytes_ok f -> emits f m Q) -> emits f m Q.
Proof. intros H s Hf Hs. by apply H. Qed.

Lemma emits_step f st : step_ok st -> emits f (step st) (fun _ l => l = [st]).
Proof.
  intros Hst s <- _. exists tt, {| s with fs := do_step st (fs s); trace := trace s ++ [st] |}, [st].
  split; [done |]. split; [done |]. split; [done |]. split; [by constructor | done].
Qed.

Lemma emits_gets {A} f (g : FILES -> A) (h : FS -> A) :
  (forall s, g s = h (fs s)) -> emits f (st_gets g) (fun a l => a = h f /\ l = []).
Proof.
  intros Hg s <- _. exists (g s), s, []. rewrite app_nil_r. split; [done |]. split; [done |].
  split; [done |]. split; [constructor |]. split; [apply Hg | done].
Qed.

Lemma emits_lift {A} f (o : option A) a : o = Some a -> emits f (st_lift o) (fun b l => b = a /\ l = []).
Proof.
  intros -> s <- _. exists a, s, []. rewrite app_nil_r. split; [done |]. split; [done |].
  split; [done |]. by split.
Qed.

(** ** Loss of power *)

Lemma torn_app a b d : torn (a ++ b) d -> torn a d \/ exists d', d = a ++ d' /\ torn b d'.
Proof.
  revert d. induction a as [|st a IH]; intros d T; [right; by exists d |].
  cbn [app] in T. inversion T as [| st' l d' T' | p bytes l k]; subst.
  - left. constructor.
  - destruct (IH _ T') as [H | (d2 & -> & H)]; [left; by constructor | right; by exists d2].
  - left. constructor.
Qed.

Lemma torn_refl l : torn l l.
Proof. induction l; by constructor. Qed.

Lemma torn_step_ok l d : torn l d -> Forall step_ok l -> Forall step_ok d.
Proof.
  induction 1 as [l | st l d T IH | p bytes l k]; intros Hl; [constructor | |].
  - apply Forall_cons_1 in Hl as [? ?]. constructor; auto.
  - apply Forall_cons_1 in Hl as [? _]. repeat constructor. by apply Forall_take.
Qed.

Lemma torn_touches (P : string -> Prop) l d : torn l d -> Forall (touches P) l -> Forall (touches P) d.
Proof.
  induction 1 as [l | st l d T IH | p bytes l k]; intros Hl; [constructor | |].
  - apply Forall_cons_1 in Hl as [? ?]. constructor; auto.
  - apply Forall_cons_1 in Hl as [? _]. repeat constructor. done.
Qed.

Lemma Forall_touches (P Q : string -> Prop) l :
  (forall p, P p -> Q p) -> Forall (touches P) l -> Forall (touches Q) l.
Proof.
  intros HPQ. apply Forall_impl. intros [p | p b | p q | p]; cbn [touches]; [auto .. | | auto].
  intros [? ?]. auto.
Qed.

(** Steps on other paths do not matter. *)
Lemma do_steps_other (P : string -> Prop) l p : forall f,
  Forall (touches P) l -> ~ P p -> do_steps l f !! p = f !! p.
Proof.
  induction l as [|st l IH]; intros f Hl Hp; [done |].
  apply Forall_cons_1 in Hl as [Hst Hl]. cbn [do_steps fold_left]. fold (do_steps l (do_step st f)).
  rewrite IH by done. destruct st as [q | q bytes | q r | q]; cbn [do_step touches] in *.
  - rewrite lookup_insert_ne; [done | congruence].
  - rewrite lookup_insert_ne; [done | congruence].
  - destruct Hst as [Hq Hr]. destruct (f !! q); [| done].
    rewrite lookup_insert_ne, lookup_delete_ne by congruence. done.
  - rewrite lookup_delete_ne; [done | congruence].
Qed.

(** ** The operations *)

Section specs.
Context (fault : nat -> option nat).

(** Some call fails. *)
Definition faulty : Prop := exists n, is_Some (fault n).

Lemma emits_bind_sys {A} f (k : option nat -> FM A) Q :
  (faulty -> forall n, emits f (k (Some n)) Q) -> emits f (k None) Q -> emits f (sys fault ≫= k) Q.
Proof.
  intros HS HN s Hf Hs. set (s1 := {| s with tick := S (tick s) |}).
  change ((sys fault ≫= k) s) with (k (fault (tick s)) s1). change (trace s) with (trace s1).
  destruct (fault (tick s)) as [n|] eqn:E; [| by apply HN].
  apply HS; [exists (tick s); by rewrite E | done | done].
Qed.

Lemma emits_dir_make f p : emits f (dir_make_path fault p) (fun a l => (a = 0 \/ faulty) /\ l = []).
Proof. apply emits_bind_sys; intros; apply emits_ret; auto. Qed.

Lemma emits_exists f p :
  emits f (file_exists p) (fun a l => a = bool_decide (is_Some (f !! p)) /\ l = []).
Proof. by apply (emits_gets f _ (fun f => bool_decide (is_Some (f !! p)))). Qed.

Lemma emits_open_write f p :
  emits f (open_write fault p) (fun a l =>
    a = None /\ l = [] /\ faulty \/ a = Some p /\ l = [FsCreate p]).
Proof.
  apply emits_bind_sys; [intros; apply emits_ret; by left |].
  eapply emits_bind; [by apply emits_step |]. intros a l ->. apply emits_ret. by right.
Qed.

Lemma emits_write f fd data :
  Forall is_byte data ->
  emits f (dev_write fault fd data) (fun a l =>
    match fd with
    | None => a <> 0 /\ l = []
    | Some p => a = 0 /\ l = [FsAppend p data] \/
                a <> 0 /\ faulty /\ exists k, l = [FsAppend p (take k data)]
    end).
Proof.
  intros Hd. destruct fd as [p|]; [| apply emits_ret; done]. apply emits_bind_sys.
  - intros Hf k. eapply emits_bind; [apply emits_step; by apply Forall_take |]. intros a l ->.
    apply emits_ret. right. split; [done |]. split; [done | by exists k].
  - eapply emits_bind; [by apply emits_step |]. intros a l ->. apply emits_ret. by left.
Qed.

Lemma emits_read_open f p :
  emits f (file_open_read fault p) (fun a l => (a = None /\ faulty \/ a = f !! p) /\ l = []).
Proof.
  apply emits_bind_sys; [intros; apply emits_ret; auto |].
  eapply emits_weaken; [by apply (emits_gets f _ (fun f => f !! p)) |]. intros a l [-> ->]. auto.
Qed.

Lemma emits_read f rest n :
  0 <= n <= len rest ->
  emits f (dev_read fault rest n) (fun a l =>
    (a = None /\ faulty \/ a = Some (take (Z.to_nat n) rest, drop (Z.to_nat n) rest)) /\ l = []).
Proof.
  intros Hn. apply emits_bind_sys; [intros; apply emits_ret; auto |].
  eapply emits_bind_pure; [apply emits_lift, mem_read_ok; lia |]. intros bytes ->.
  apply emits_ret. rewrite drop_0. auto.
Qed.

Lemma emits_rename f p q :
  emits f (file_rename fault p q) (fun _ l => l = [] /\ faulty \/ l = [FsRename p q]).
Proof.
  apply emits_bind_sys; [intros; apply emits_ret; by left |].
  eapply emits_weaken; [by apply emits_step |]. auto.
Qed.

Lemma emits_delete f p : emits f (file_delete fault p) (fun _ l => l = [] /\ faulty \/ l = [FsRemove p]).
Proof.
  apply emits_bind_sys; [intros; apply emits_ret; by left |].
  eapply emits_weaken; [by apply emits_step |]. auto.
Qed.

(** Either only the temporary file was changed, or it is complete and maybe has
    replaced the old. *)
Definition replaces (p : string) (pieces : list (list Z)) (a : Z) (l : list FS_STEP) : Prop :=
  let t := temp_path p in
  a <> 0 /\ Forall (touches (eq t)) l /\ (faulty \/ COM_APP_MAX_PATH_LEN <= strlen t) \/
  a = 0 /\ exists r, l = FsCreate t :: map (FsAppend t) pieces ++ r /\
                    (r = [] /\ faulty \/ r = [FsRename t p]).

Lemma file_digest_md5 hdr data :
  Forall is_byte hdr -> Forall is_byte data -> len hdr < 2 ^ 32 -> len data < 2 ^ 32 ->
  file_digest hdr data = Some (md5 (hdr ++ data)).
Proof.
  intros Hh Hd Lh Ld. unfold file_digest. rewrite pieces_run; [cbn [concat]; by rewrite app_nil_r | done |].
  repeat (constructor; [by split |]). constructor.
Qed.

Lemma md5_bytes l : Forall is_byte (md5 l).
Proof.
  unfold md5, digest_of, word_bytes. change 0xFF with (Z.ones 8). rewrite !Z.land_ones by lia.
  repeat (constructor; [apply Z.mod_pos_bound; lia |]). constructor.
Qed.

(** A write of which the failure ends the operation. *)
Lemma emits_write_checked f p data (k : Z -> FM Z) Q :
  Forall is_byte data ->
  emits (do_step (FsAppend p data) f) (k 0) (fun a l => Q a (FsAppend p data :: l)) ->
  (forall a n, a <> 0 -> faulty -> Q a [FsAppend p (take n data)]) ->
  emits f (ret ← dev_write fault (Some p) data; if negb (ret =? 0) then mret ret else k ret) Q.
Proof.
  intros Hd Hk HQ. eapply emits_bind; [by apply emits_write |]. intros r l0 H0.
  destruct (Z.eqb_spec r 0) as [-> | N]; cbn [negb].
  - destruct H0 as [[_ ->] | [? _]]; [| done]. exact Hk.
  - apply emits_ret. destruct H0 as [[? _] | (_ & ? & n & ->)]; [done |]. by apply HQ.
Qed.

(** The frame of the atomic operations: the length check and the creation. *)
Lemma emits_replace f p pieces (k : option string -> FM Z) :
  (faulty -> emits f (k None) (fun a l => a <> 0 /\ l = [])) ->
  emits (do_step (FsCreate (temp_path p)) f) (k (Some (temp_path p)))
    (fun a l => replaces p pieces a (FsCreate (temp_path p) :: l)) ->
  emits f (if COM_APP_MAX_PATH_LEN <=? strlen (temp_path p) then mret FILE_OPEN_FAILED
           else open_write fault (temp_path p) ≫= k) (replaces p pieces).
Proof.
  intros HN HS. destruct (Z.leb_spec COM_APP_MAX_PATH_LEN (strlen (temp_path p))).
  { apply emits_ret. left. split; [done | split; [constructor | by right]]. }
  eapply emits_bind; [apply emits_open_write |]. intros fd l0 [(-> & -> & Hf) | [-> ->]]; [| exact HS].
  eapply emits_weaken; [by apply HN |]. intros a l [Ha ->]. left. split; [done | split; [constructor | by left]].
Qed.

Lemma emits_write_null f data (k : Z -> FM Z) :
  emits f (ret ← dev_write fault None data; if negb (ret =? 0) then mret ret else k ret)
    (fun a l => a <> 0 /\ l = []).
Proof. by apply (emits_ret _ DEV_RW_INVALID_PARAMETER). Qed.

Lemma replaces_rename f p pieces l0 :
  l0 = FsCreate (temp_path p) :: map (FsAppend (temp_path p)) pieces ->
  emits f (file_rename fault (temp_path p) p;; mret 0) (fun a l => replaces p pieces a (l0 ++ l)).
Proof.
  intros ->. eapply emits_bind; [apply emits_rename |]. intros [] r Hr. apply emits_ret. right.
  split; [done |]. exists r. by rewrite app_nil_r.
Qed.

Ltac replaces_fail := intros; left; split; [done | split; [by repeat constructor | by left]].

Lemma emits_write_atomic f p data :
  Forall is_byte data -> emits f (file_write_atomic fault p data) (replaces p [data]).
Proof.
  intros Hd. apply emits_replace; [intros; apply emits_write_null |].
  apply emits_write_checked; [done | | replaces_fail].
  by apply (replaces_rename _ _ _ [_; _]).
Qed.

Lemma emits_update f p hdr data :
  Forall is_byte hdr -> Forall is_byte data -> len hdr < 2 ^ 32 -> len data < 2 ^ 32 ->
  emits f (file_update_atomic fault p hdr data) (replaces p [hdr; data; md5 (hdr ++ data)]).
Proof.
  intros Hh Hd Lh Ld. apply emits_replace; [intros; apply emits_write_null |].
  apply emits_write_checked; [done | | replaces_fail].
  apply emits_write_checked; [done | | replaces_fail].
  eapply emits_bind_pure; [by apply emits_lift, file_digest_md5 |]. intros digest ->.
  apply emits_write_checked; [apply md5_bytes | | replaces_fail].
  by apply (replaces_rename _ _ _ [_; _; _; _]).
Qed.

(** A prefix of the source, the whole of it if the result is 0. *)
Definition copies (src dst : string) (f : FS) (a : Z) (l : list FS_STEP) : Prop :=
  match f !! src with
  | None => a <> 0 /\ l = []
  | Some c =>
      a = 0 /\ l = [FsCreate dst; FsAppend dst c] \/
      a <> 0 /\ faulty /\ (l = [] \/ l = [FsCreate dst] \/ exists n, l = [FsCreate dst; FsAppend dst (take n c)])
  end.

Lemma emits_copy f src dst : emits f (file_copy fault src dst) (copies src dst f).
Proof.
  apply emits_bytes. intros Hf. unfold file_copy, copies.
  eapply emits_bind_pure; [apply emits_exists |]. intros e ->.
  destruct (f !! src) as [c|] eqn:Hc; [| by apply emits_ret].
  rewrite bool_decide_true by done. cbn [negb].
  eapply emits_bind_pure; [apply emits_exists |]. intros d _.
  eapply (emits_bind_pure _ _ _ (fun r => r = 0 \/ faulty)).
  { destruct d; [apply emits_ret; auto | apply emits_dir_make]. }
  intros r Hr. destruct (Z.eqb_spec r 0) as [-> | N]; cbn [negb].
  2: { apply emits_ret. destruct Hr as [? | ?]; [done |]. right. auto. }
  eapply emits_bind_pure; [apply emits_read_open |]. intros [content|] H.
  2: { apply emits_ret. destruct H as [[_ ?] | H]; [right; auto |]. by rewrite Hc in H. }
  destruct H as [[? _] | H]; [done |]. rewrite Hc in H. injection H as ->.
  eapply emits_bind; [apply emits_open_write |]. intros wr l0 [(-> & -> & ?) | [-> ->]];
    [apply emits_ret; right; auto |].
  apply emits_bind_sys; [intros; apply emits_ret; right; auto |].
  eapply emits_bind; [apply emits_write; by eapply Hf |]. intros r2 l1 H1. apply emits_ret.
  rewrite app_nil_r. destruct H1 as [[-> ->] | (N & ? & n & ->)]; [by left | right].
  rewrite (proj2 (Z.eqb_neq _ _) N). split; [done |]. split; [done |]. right; right. by exists n.
Qed.

End specs.
