(* ===== verification/Clist.v ===== *)
(** * Intrusive doubly linked lists

    src/include/list.h on a memory of links: a list is the address of its
    sentinel, its nodes are the links inside of the elements.  A pointer that does
    not point to a link is undefined behaviour ([None]).  The theorem shows that
    the operations implement finite sequences, for any number of lists in one
    memory. *)

From stdpp Require Import gmap.
From S2P Require Import Prelude.

(** ** Operations *)

Record list_t := { prev : Z; next : Z }.

Abbreviation LINKS := (gmap Z list_t).

Definition get_prev (h : LINKS) (p : Z) : option Z := prev <$> h !! p.
Definition get_next (h : LINKS) (p : Z) : option Z := next <$> h !! p.
Definition set_prev (h : LINKS) (p v : Z) : option LINKS :=
  n ← h !! p; Some (<[p := {| prev := v; next := next n |}]> h).
Definition set_next (h : LINKS) (p v : Z) : option LINKS :=
  n ← h !! p; Some (<[p := {| prev := prev n; next := v |}]> h).

Definition list_init (h : LINKS) (list : Z) : option LINKS :=
  h ← set_next h list list; set_prev h list list.

Definition list_insert_before (h : LINKS) (list node : Z) : option LINKS :=
  p ← get_prev h list; h ← set_prev h node p;
  h ← set_next h node list;
  p ← get_prev h list; h ← set_next h p node;
  set_prev h list node.

Definition list_insert_after (h : LINKS) (list node : Z) : option LINKS :=
  n ← get_next h list; h ← set_next h node n;
  h ← set_prev h node list;
  n ← get_next h list; h ← set_prev h n node;
  set_next h list node.

Definition list_delete (h : LINKS) (node : Z) : option LINKS :=
  p ← get_prev h node; n ← get_next h node; h ← set_next h p n;
  n ← get_next h node; p ← get_prev h node; set_prev h n p.

Definition list_empty (h : LINKS) (list : Z) : option bool :=
  n ← get_next h list; p ← get_prev h list; Some ((n =? list) || (p =? list)).

(** The removed node, or the null pointer. *)
Definition list_get_first (h : LINKS) (list : Z) : option (option Z * LINKS) :=
  e ← list_empty h list;
  if (e : bool) then Some (None, h)
  else ret ← get_next h list; h ← list_delete h ret; Some (Some ret, h).

Definition list_get_last (h : LINKS) (list : Z) : option (option Z * LINKS) :=
  e ← list_empty h list;
  if (e : bool) then Some (None, h)
  else ret ← get_prev h list; h ← list_delete h ret; Some (Some ret, h).

(** The loop of [list_count], [n] nodes at most. *)
Fixpoint count_loop (n : nat) (h : LINKS) (list node cnt : Z) : option Z :=
  if node =? list then Some cnt
  else match n with
       | O => None
       | S n => nx ← get_next h node; count_loop n h list nx (cnt + 1)
       end.

Definition list_count (n : nat) (h : LINKS) (list : Z) : option Z :=
  node ← get_next h list; count_loop n h list node 0.

(** ** Chains *)

Definition linked (h : LINKS) (a b : Z) : Prop := get_next h a = Some b /\ get_prev h b = Some a.

(** From [a] over [xs] to [b]. *)
Fixpoint chain (h : LINKS) (a : Z) (xs : list Z) (b : Z) : Prop :=
  match xs with
  | [] => linked h a b
  | x :: xs => linked h a x /\ chain h x xs b
  end.

Lemma chain_app h xs x ys : forall a b,
  chain h a (xs ++ x :: ys) b <-> chain h a xs x /\ chain h x ys b.
Proof.
  induction xs as [|y xs IH]; intros a b; cbn [app chain]; [done |].
  rewrite IH. tauto.
Qed.

(** Links elsewhere do not matter. *)
Lemma chain_frame h h' xs : forall a b,
  (forall y, In y (a :: xs) -> get_next h' y = get_next h y) ->
  (forall y, In y (xs ++ [b]) -> get_prev h' y = get_prev h y) ->
  chain h a xs b -> chain h' a xs b.
Proof.
  induction xs as [|x xs IH]; intros a b Hn Hp; cbn [chain app] in *; unfold linked.
  - rewrite Hn, Hp by auto using in_eq. done.
  - rewrite Hn, Hp by auto using in_eq. intros [? Hc]. split; [done |].
    apply IH; [| | done]; intros y Hy; [apply Hn | apply Hp]; by right.
Qed.

Lemma set_next_ok h p v : is_Some (h !! p) -> exists h', set_next h p v = Some h' /\
  (forall y, get_next h' y = if y =? p then Some v else get_next h y) /\
  (forall y, get_prev h' y = get_prev h y) /\ dom h' = dom h.
Proof.
  intros [n Hn]. unfold set_next. rewrite Hn. eexists. split; [reflexivity |].
  unfold get_next, get_prev. split; [| split].
  - intros y. destruct (Z.eqb_spec y p) as [-> | N]; [by rewrite lookup_insert_eq | by rewrite lookup_insert_ne].
  - intros y. destruct (decide (y = p)) as [-> | N]; [by rewrite lookup_insert_eq, Hn | by rewrite lookup_insert_ne].
  - apply dom_insert_lookup_L. by rewrite Hn.
Qed.

Lemma set_prev_ok h p v : is_Some (h !! p) -> exists h', set_prev h p v = Some h' /\
  (forall y, get_prev h' y = if y =? p then Some v else get_prev h y) /\
  (forall y, get_next h' y = get_next h y) /\ dom h' = dom h.
Proof.
  intros [n Hn]. unfold set_prev. rewrite Hn. eexists. split; [reflexivity |].
  unfold get_next, get_prev. split; [| split].
  - intros y. destruct (Z.eqb_spec y p) as [-> | N]; [by rewrite lookup_insert_eq | by rewrite lookup_insert_ne].
  - intros y. destruct (decide (y = p)) as [-> | N]; [by rewrite lookup_insert_eq, Hn | by rewrite lookup_insert_ne].
  - apply dom_insert_lookup_L. by rewrite Hn.
Qed.

Lemma get_next_mem h y v : get_next h y = Some v -> is_Some (h !! y).
Proof. unfold get_next. by destruct (h !! y). Qed.
Lemma get_prev_mem h y v : get_prev h y = Some v -> is_Some (h !! y).
Proof. unfold get_prev. by destruct (h !! y). Qed.
Lemma dom_mem (h h' : LINKS) y : dom h' = dom h -> is_Some (h !! y) -> is_Some (h' !! y).
Proof. rewrite <- !elem_of_dom. by intros ->. Qed.

(** One assignment, followed through the rest of the operation. *)
Ltac set_step :=
  match goal with
  | |- exists h', (set_next ?h ?p ?v ≫= _) = _ /\ _ =>
      let h' := fresh "h" in let E := fresh "E" in let Hn := fresh "Hn" in let Hp := fresh "Hp" in let Hd := fresh "Hd" in
      destruct (set_next_ok h p v) as (h' & E & Hn & Hp & Hd);
        [eauto using dom_mem | rewrite E; cbn [mbind option_bind]; clear E]
  | |- exists h', (set_prev ?h ?p ?v ≫= _) = _ /\ _ =>
      let h' := fresh "h" in let E := fresh "E" in let Hn := fresh "Hn" in let Hp := fresh "Hp" in let Hd := fresh "Hd" in
      destruct (set_prev_ok h p v) as (h' & E & Hp & Hn & Hd);
        [eauto using dom_mem | rewrite E; cbn [mbind option_bind]; clear E]
  | |- exists h', set_next ?h ?p ?v = _ /\ _ =>
      let h' := fresh "h" in let E := fresh "E" in let Hn := fresh "Hn" in let Hp := fresh "Hp" in let Hd := fresh "Hd" in
      destruct (set_next_ok h p v) as (h' & E & Hn & Hp & Hd); [eauto using dom_mem | exists h'; split; [exact E |]; clear E]
  | |- exists h', set_prev ?h ?p ?v = _ /\ _ =>
      let h' := fresh "h" in let E := fresh "E" in let Hn := fresh "Hn" in let Hp := fresh "Hp" in let Hd := fresh "Hd" in
      destruct (set_prev_ok h p v) as (h' & E & Hp & Hn & Hd); [eauto using dom_mem | exists h'; split; [exact E |]; clear E]
  end.

Ltac get_value :=
  repeat match goal with
  | H : forall y, get_next ?h y = _ |- context [get_next ?h ?a] => rewrite (H a)
  | H : forall y, get_prev ?h y = _ |- context [get_prev ?h ?a] => rewrite (H a)
  end.

Lemma insert_before_run h l node p :
  get_prev h l = Some p -> is_Some (h !! p) -> is_Some (h !! node) -> node <> l ->
  exists h', list_insert_before h l node = Some h' /\ dom h' = dom h /\
    (forall y, get_next h' y = if y =? p then Some node else if y =? node then Some l else get_next h y) /\
    (forall y, get_prev h' y = if y =? l then Some node else if y =? node then Some p else get_prev h y).
Proof.
  intros El Hp Hn N. pose proof (get_prev_mem _ _ _ El) as Hl. unfold list_insert_before.
  rewrite El. cbn [mbind option_bind]. set_step. set_step. get_value.
  rewrite (proj2 (Z.eqb_neq l node)) by congruence. rewrite El. cbn [mbind option_bind]. set_step. set_step.
  split; [congruence |]. split; intros y; get_value; done.
Qed.

Lemma insert_after_run h l node n :
  get_next h l = Some n -> is_Some (h !! n) -> is_Some (h !! node) -> node <> l ->
  exists h', list_insert_after h l node = Some h' /\ dom h' = dom h /\
    (forall y, get_next h' y = if y =? l then Some node else if y =? node then Some n else get_next h y) /\
    (forall y, get_prev h' y = if y =? n then Some node else if y =? node then Some l else get_prev h y).
Proof.
  intros El Hp Hn N. pose proof (get_next_mem _ _ _ El) as Hl. unfold list_insert_after.
  rewrite El. cbn [mbind option_bind]. set_step. set_step. get_value.
  rewrite (proj2 (Z.eqb_neq l node)) by congruence. rewrite El. cbn [mbind option_bind]. set_step. set_step.
  split; [congruence |]. split; intros y; get_value; done.
Qed.

Lemma delete_run h node p n :
  get_prev h node = Some p -> get_next h node = Some n -> p <> node ->
  is_Some (h !! p) -> is_Some (h !! n) ->
  exists h', list_delete h node = Some h' /\ dom h' = dom h /\
    (forall y, get_next h' y = if y =? p then Some n else get_next h y) /\
    (forall y, get_prev h' y = if y =? n then Some p else get_prev h y).
Proof.
  intros Ep En N Hp Hn. unfold list_delete.
  rewrite Ep, En. cbn [mbind option_bind]. set_step. get_value.
  rewrite (proj2 (Z.eqb_neq node p)) by congruence. rewrite Ep, En. cbn [mbind option_bind]. set_step.
  split; [congruence |]. split; intros y; get_value; done.
Qed.

(** ** Lists *)

(** The sentinel [l] with the nodes [xs]. *)
Record ring (h : LINKS) (l : Z) (xs : list Z) : Prop := {
  ring_chain : chain h l xs l;
  ring_nodup : List.NoDup (l :: xs)
}.

Lemma chain_mem h xs : forall a b y, chain h a xs b -> In y (a :: xs ++ [b]) -> is_Some (h !! y).
Proof.
  induction xs as [|x xs IH]; intros a b y; cbn [chain app].
  - intros [Hn Hp] [<- | [<- | []]]; [by eapply get_next_mem | by eapply get_prev_mem].
  - intros [[Hn _] Hc] [<- | Hy]; [by eapply get_next_mem | by eapply IH].
Qed.

Lemma chain_next h a xs b : chain h a xs b -> get_next h a = Some (hd b xs).
Proof. destruct xs; cbn [chain hd]; [by intros [? _] | by intros [[? _] _]]. Qed.

Lemma last_cons (x : Z) ys : forall d, List.last (x :: ys) d = List.last ys x.
Proof.
  revert x. induction ys as [|y ys IH]; intros x d; [done |].
  change (List.last (y :: ys) d = List.last (y :: ys) x). by rewrite !IH.
Qed.

Lemma chain_prev h xs : forall a b, chain h a xs b -> get_prev h b = Some (List.last xs a).
Proof.
  induction xs as [|x xs IH]; intros a b; cbn [chain]; [by intros [_ ?] |].
  intros [_ Hc]. by rewrite (IH _ _ Hc), last_cons.
Qed.

Lemma eqb_ne (y z : Z) : y <> z -> (y =? z) = false.
Proof. apply Z.eqb_neq. Qed.

(** The elements before [p] differ from it. *)
Lemma nodup_before (a p : Z) xs y : List.NoDup (a :: xs ++ [p]) -> In y (a :: xs) -> y <> p.
Proof.
  rewrite app_comm_cons. intros ND Hy ->.
  apply (NoDup_remove_2 _ [] _ ND). by rewrite app_nil_r.
Qed.

Lemma last_in (xs : list Z) a : In (List.last xs a) (a :: xs).
Proof.
  destruct xs as [|x xs _] using rev_ind; [by left |]. rewrite last_last.
  right. apply in_or_app. right. by left.
Qed.

(** The end of a chain is linked to another node. *)
Lemma chain_redirect h h' a xs x z :
  chain h a xs x -> List.NoDup (a :: xs) ->
  get_next h' (List.last xs a) = Some z -> get_prev h' z = Some (List.last xs a) ->
  (forall y, In y (a :: xs) -> y <> List.last xs a -> get_next h' y = get_next h y) ->
  (forall y, In y xs -> get_prev h' y = get_prev h y) ->
  chain h' a xs z.
Proof.
  intros Hc ND En Ep Hn Hp. destruct xs as [|p xs _] using rev_ind; [by split |].
  rewrite last_last in *. apply chain_app in Hc as [Hc _]. apply chain_app. split; [| by split].
  apply (chain_frame h); [| done | exact Hc]. intros y Hy. apply Hn.
  - destruct Hy as [-> | Hy]; [by left | right; apply in_or_app; by left].
  - by eapply nodup_before.
Qed.

(** A node becomes the last of a list. *)
Lemma ring_snoc h h' l xs node :
  ring h l xs -> ~ In node (l :: xs) ->
  (forall y, get_next h' y = if y =? List.last xs l then Some node else if y =? node then Some l else get_next h y) ->
  (forall y, get_prev h' y = if y =? l then Some node else if y =? node then Some (List.last xs l) else get_prev h y) ->
  ring h' l (xs ++ [node]).
Proof.
  intros [Hc ND] Hx Hn Hp. pose proof (last_in xs l) as Hl.
  assert (node <> List.last xs l) as Np by congruence.
  assert (node <> l) as Nl by (intros ->; apply Hx; by left).
  split.
  - apply chain_app. split; [| split; rewrite ?Hn, ?Hp, Z.eqb_refl; [by rewrite eqb_ne | done]].
    apply (chain_redirect h _ _ _ l); [done | done | | | |].
    + by rewrite Hn, Z.eqb_refl.
    + by rewrite Hp, eqb_ne, Z.eqb_refl.
    + intros y Hy Ny. rewrite Hn, !eqb_ne; [done | congruence | done].
    + intros y Hy. rewrite Hp, !eqb_ne; [done | intros -> | intros ->]; [apply Hx; by right |].
      by apply NoDup_cons_iff in ND as [? _].
  - rewrite app_comm_cons. apply NoDup_Add with (a := node) (l := l :: xs); [| done].
    rewrite <- (app_nil_r (l :: xs)) at 1. apply Add_app.
Qed.

(** A node becomes the first of a list. *)
Lemma ring_cons h h' l xs node :
  ring h l xs -> ~ In node (l :: xs) ->
  (forall y, get_next h' y = if y =? l then Some node else if y =? node then Some (hd l xs) else get_next h y) ->
  (forall y, get_prev h' y = if y =? hd l xs then Some node else if y =? node then Some l else get_prev h y) ->
  ring h' l (node :: xs).
Proof.
  intros [Hc ND] Hx Hn Hp. assert (node <> l) as Nl by (intros ->; apply Hx; by left).
  split; [| apply NoDup_Add with (a := node) (l := l :: xs); [apply Add_cons, Add_head | done]].
  cbn [chain]. split.
  - split; [by rewrite Hn, Z.eqb_refl |]. rewrite Hp, Z.eqb_refl, eqb_ne; [done |].
    destruct xs as [|x xs]; [done |]. intros ->. apply Hx. right. by left.
  - destruct xs as [|x xs]; cbn [hd chain] in *.
    { split; rewrite ?Hn, ?Hp, ?Z.eqb_refl; [by rewrite eqb_ne | done]. }
    assert (node <> x) as Nx by (intros ->; apply Hx; right; by left).
    split; [split; rewrite ?Hn, ?Hp, ?Z.eqb_refl; [by rewrite eqb_ne | done] |].
    destruct Hc as [_ Hc]. apply NoDup_cons_iff in ND as [Nlx ND]. apply NoDup_cons_iff in ND as [Nxx _].
    apply (chain_frame h); [| | exact Hc].
    + intros y Hy. rewrite Hn, !eqb_ne; [done | intros -> | intros ->; done]. apply Hx. by right.
    + intros y [Hy | [<- | []]]%in_app_or.
      * rewrite Hp, !eqb_ne; [done | intros -> | intros ->; done]. apply Hx. right. by right.
      * rewrite Hp, !eqb_ne; [done | done | intros ->]. apply Nlx. by left.
Qed.

(** A node leaves a list. *)
Lemma ring_unlink h h' l xs node ys :
  ring h l (xs ++ node :: ys) ->
  (forall y, get_next h' y = if y =? List.last xs l then Some (hd l ys) else get_next h y) ->
  (forall y, get_prev h' y = if y =? hd l ys then Some (List.last xs l) else get_prev h y) ->
  ring h' l (xs ++ ys).
Proof.
  intros [[Hx Hy]%chain_app ND] Hn Hp.
  assert (List.NoDup (l :: xs ++ ys)) as ND' by (rewrite app_comm_cons in *; by apply NoDup_remove_1 in ND).
  split; [| done].
  assert (forall y, In y (l :: xs) -> ~ In y ys) as D.
  { intros y Hy1 Hy2. rewrite app_comm_cons in ND'.
    apply in_split in Hy2 as (y1 & y2 & ->). rewrite app_assoc in ND'. apply NoDup_remove_2 in ND'.
    apply ND'. rewrite !in_app_iff. by left; left. }
  assert (List.NoDup (l :: xs)) as NDx by (rewrite app_comm_cons in ND'; by apply NoDup_app_remove_r in ND').
  assert (chain h' l xs (hd l ys)) as Hc.
  { apply (chain_redirect h _ _ _ node); [done | done | | | |].
    - by rewrite Hn, Z.eqb_refl.
    - by rewrite Hp, Z.eqb_refl.
    - intros y Hy1 Ny. by rewrite Hn, eqb_ne.
    - intros y Hy1. rewrite Hp, eqb_ne; [done |]. intros ->. destruct ys as [|n ys]; cbn [hd] in *.
      + by apply NoDup_cons_iff in NDx as [? _].
      + apply (D n); [by right | by left]. }
  destruct ys as [|n ys]; [by rewrite app_nil_r |]. cbn [hd] in *.
  apply chain_app. split; [done |]. destruct Hy as [_ Hy].
  apply (chain_frame h); [| | exact Hy].
  - intros y Hy1. rewrite Hn, eqb_ne; [done |]. intros ->. by apply (D _ (last_in xs l)).
  - intros y [Hy1 | [<- | []]]%in_app_or; rewrite Hp, eqb_ne; [done | | done |].
    + intros ->. rewrite app_comm_cons in ND'. apply NoDup_app_remove_l in ND'.
      by apply NoDup_cons_iff in ND' as [? _].
    + intros ->. apply (D n); by left.
Qed.

(** ** Operations on one list *)

Section ops.
Context (h : LINKS) (l : Z) (xs : list Z) (R : ring h l xs).

Lemma ring_mem y : In y (l :: xs) -> is_Some (h !! y).
Proof.
  intros Hy. eapply chain_mem; [apply R |]. destruct Hy as [-> | Hy]; [by left | right].
  apply in_or_app. by left.
Qed.

Lemma hd_in : In (hd l xs) (l :: xs).
Proof. destruct xs; cbn; auto. Qed.

(** Only the cells of the list and the node change. *)
Definition only (h' : LINKS) (ys : list Z) : Prop := forall y, ~ In y ys -> h' !! y = h !! y.

Lemma only_of (h' : LINKS) ys : dom h' = dom h ->
  (forall y, ~ In y ys -> get_next h' y = get_next h y) ->
  (forall y, ~ In y ys -> get_prev h' y = get_prev h y) -> only h' ys.
Proof.
  intros Hd Hn Hp y Hy. specialize (Hn y Hy). specialize (Hp y Hy). unfold get_next, get_prev in *.
  destruct (h' !! y) as [[p n]|], (h !! y) as [[p' n']|]; cbn in *; congruence.
Qed.

Lemma insert_before_ok node : is_Some (h !! node) -> ~ In node (l :: xs) ->
  exists h', list_insert_before h l node = Some h' /\ dom h' = dom h /\
    ring h' l (xs ++ [node]) /\ only h' (node :: l :: xs).
Proof.
  intros Hm Hx. pose proof (chain_prev _ _ _ _ (ring_chain _ _ _ R)) as Hp.
  destruct (insert_before_run h l node _ Hp) as (h' & E & Hd & Hn' & Hp');
    [apply ring_mem, last_in | done | intros ->; apply Hx; by left |].
  exists h'. split; [done |]. split; [done |]. split; [by eapply ring_snoc |].
  apply only_of; [done | |]; intros y Hy; [rewrite Hn' | rewrite Hp']; rewrite !eqb_ne; try done;
    intros ->; apply Hy; [by left | right; apply last_in | by left | right; by left].
Qed.

Lemma insert_after_ok node : is_Some (h !! node) -> ~ In node (l :: xs) ->
  exists h', list_insert_after h l node = Some h' /\ dom h' = dom h /\
    ring h' l (node :: xs) /\ only h' (node :: l :: xs).
Proof.
  intros Hm Hx. pose proof (chain_next _ _ _ _ (ring_chain _ _ _ R)) as Hn.
  destruct (insert_after_run h l node _ Hn) as (h' & E & Hd & Hn' & Hp');
    [apply ring_mem, hd_in | done | intros ->; apply Hx; by left |].
  exists h'. split; [done |]. split; [done |]. split; [by eapply ring_cons |].
  apply only_of; [done | |]; intros y Hy; [rewrite Hn' | rewrite Hp']; rewrite !eqb_ne; try done;
    intros ->; apply Hy; [by left | right; by left | by left | right; apply hd_in].
Qed.

Lemma empty_ok : list_empty h l = Some (match xs with [] => true | _ => false end).
Proof.
  pose proof R as [Hc ND]. unfold list_empty. rewrite (chain_next _ _ _ _ Hc), (chain_prev _ _ _ _ Hc).
  cbn [mbind option_bind]. f_equal. destruct xs as [|x ys]; cbn [hd]; [by rewrite Z.eqb_refl |].
  pose proof (last_in ys x) as Hl. apply NoDup_cons_iff in ND as [Nx _].
  rewrite last_cons.
  rewrite !eqb_ne; [done | intros E; apply Nx; by rewrite <- E | intros ->; apply Nx; by left].
Qed.

Lemma delete_ok ys node zs : xs = ys ++ node :: zs ->
  exists h', list_delete h node = Some h' /\ dom h' = dom h /\ ring h' l (ys ++ zs) /\ only h' (l :: xs).
Proof.
  intros Ex. pose proof R as [Hc ND]. rewrite Ex in Hc, ND. apply chain_app in Hc as [Hy Hz].
  rewrite Ex.
  assert (In (List.last ys l) (l :: ys ++ node :: zs)) as Hl.
  { destruct (last_in ys l) as [<- | H]; [by left | right; apply in_or_app; by left]. }
  assert (In (hd l zs) (l :: ys ++ node :: zs)) as Hh.
  { destruct zs as [|z zs]; [by left | right; apply in_or_app; right; right; by left]. }
  destruct (delete_run h node _ _ (chain_prev _ _ _ _ Hy) (chain_next _ _ _ _ Hz)) as (h' & E & Hd & Hn' & Hp').
  - rewrite app_comm_cons in ND. apply NoDup_remove_2 in ND. intros E. apply ND. rewrite <- E.
    apply in_or_app. left. apply last_in.
  - apply ring_mem. by rewrite Ex.
  - apply ring_mem. by rewrite Ex.
  - exists h'. split; [done |]. split; [done |]. split; [eapply ring_unlink; [by rewrite <- Ex | done | done] |].
    apply only_of; [done | |]; intros y Hy'; [rewrite Hn' | rewrite Hp']; rewrite eqb_ne; try done; congruence.
Qed.

End ops.

Lemma get_first_ok h l xs : ring h l xs ->
  exists h', list_get_first h l = Some (hd_error xs, h') /\ dom h' = dom h /\
    ring h' l (tl xs) /\ only h h' (l :: xs).
Proof.
  intros R. unfold list_get_first. rewrite (empty_ok _ _ _ R). cbn [mbind option_bind].
  destruct xs as [|x ys]; [by exists h |].
  rewrite (chain_next _ _ _ _ (ring_chain _ _ _ R)). cbn [mbind option_bind hd].
  destruct (delete_ok _ _ _ R [] x ys) as (h' & -> & H); [done |]. by exists h'.
Qed.

Lemma get_last_ok h l xs : ring h l xs ->
  exists h', list_get_last h l = Some (hd_error (rev xs), h') /\ dom h' = dom h /\
    ring h' l (removelast xs) /\ only h h' (l :: xs).
Proof.
  intros R. unfold list_get_last. rewrite (empty_ok _ _ _ R). cbn [mbind option_bind].
  destruct xs as [|x ys _] using rev_ind; [by exists h |].
  rewrite (chain_prev _ _ _ _ (ring_chain _ _ _ R)), last_last, rev_app_distr, removelast_last.
  assert (forall b, match ys ++ [x] with [] => true | _ :: _ => b end = b) as -> by (by destruct ys).
  cbn [mbind option_bind rev app hd_error].
  destruct (delete_ok _ _ _ R ys x []) as (h' & -> & H); [done |]. rewrite app_nil_r in H. by exists h'.
Qed.

Lemma init_ok h l : is_Some (h !! l) ->
  exists h', list_init h l = Some h' /\ dom h' = dom h /\ ring h' l [] /\ only h h' [l].
Proof.
  intros Hl. unfold list_init. set_step. set_step. split; [congruence |]. split.
  - split; [split; get_value; by rewrite Z.eqb_refl | apply NoDup_cons_iff; split; [by intros [] | constructor]].
  - apply only_of; [congruence | |]; intros y Hy; get_value; rewrite ?eqb_ne; try done;
      intros ->; apply Hy; by left.
Qed.

Lemma ring_frame h h' l xs ys : ring h l xs -> only h h' ys -> (forall y, In y (l :: xs) -> ~ In y ys) -> ring h' l xs.
Proof.
  intros [Hc ND] Ho D. split; [| done]. apply (chain_frame h); [| | exact Hc].
  - intros y Hy. unfold get_next. by rewrite Ho by auto.
  - intros y Hy. unfold get_prev. rewrite Ho; [done |]. apply D.
    apply in_app_or in Hy as [Hy | [-> | []]]; [by right | by left].
Qed.

(** ** Many lists in one memory *)

(** The sequences that sentinels stand for. *)
Abbreviation LISTS := (gmap Z (list Z)).

Record lists_ok (h : LINKS) (m : LISTS) : Prop := {
  lo_ring l xs : m !! l = Some xs -> ring h l xs;
  lo_disj l l' xs xs' y : m !! l = Some xs -> m !! l' = Some xs' ->
    In y (l :: xs) -> In y (l' :: xs') -> l = l'
}.

(** In no list. *)
Definition unlinked (m : LISTS) (y : Z) : Prop := forall l xs, m !! l = Some xs -> ~ In y (l :: xs).

Inductive LIST_OP :=
| OpInit (l : Z) | OpAddTail (l node : Z) | OpAddHead (l node : Z) | OpDelete (l node : Z)   (* a node of the list [l] *)
| OpFirst (l : Z) | OpLast (l : Z) | OpEmpty (l : Z).

Definition of_ptr (r : option Z) : Z := default 0 r.

(** The operation on the memory, with its result ([0] is the null pointer). *)
Definition run_op (op : LIST_OP) (h : LINKS) : option (Z * LINKS) :=
  match op with
  | OpInit l => h ← list_init h l; Some (0, h)
  | OpAddTail l node => h ← list_insert_before h l node; Some (0, h)
  | OpAddHead l node => h ← list_insert_after h l node; Some (0, h)
  | OpDelete _ node => h ← list_delete h node; Some (0, h)
  | OpFirst l => '(r, h) ← list_get_first h l; Some (of_ptr r, h)
  | OpLast l => '(r, h) ← list_get_last h l; Some (of_ptr r, h)
  | OpEmpty l => b ← list_empty h l; Some (Z.b2z b, h)
  end.

Definition nodes (m : LISTS) (l : Z) : list Z := default [] (m !! l).

Definition spec_op (op : LIST_OP) (m : LISTS) : Z * LISTS :=
  match op with
  | OpInit l => (0, <[l := []]> m)
  | OpAddTail l node => (0, <[l := nodes m l ++ [node]]> m)
  | OpAddHead l node => (0, <[l := node :: nodes m l]> m)
  | OpDelete l node => (0, <[l := List.remove Z.eq_dec node (nodes m l)]> m)
  | OpFirst l => (of_ptr (hd_error (nodes m l)), <[l := tl (nodes m l)]> m)
  | OpLast l => (of_ptr (hd_error (rev (nodes m l))), <[l := removelast (nodes m l)]> m)
  | OpEmpty l => (Z.b2z (match nodes m l with [] => true | _ => false end), m)
  end.

(** What the callers guarantee: sentinels are initialised, added nodes are in no
    list, pointers point to links. *)
Definition legal (links : gset Z) (op : LIST_OP) (m : LISTS) : Prop :=
  match op with
  | OpInit l => l ∈ links /\ (is_Some (m !! l) \/ unlinked m l)
  | OpAddTail l node | OpAddHead l node => is_Some (m !! l) /\ node ∈ links /\ unlinked m node
  | OpDelete l node => is_Some (m !! l) /\ In node (nodes m l)
  | OpFirst l | OpLast l | OpEmpty l => is_Some (m !! l)
  end.

(** The cells that an operation on [l] may use. *)
Definition own (m : LISTS) (l y : Z) : Prop := In y (l :: nodes m l) \/ unlinked m y.

Lemma own_other h m l l' xs' y :
  lists_ok h m -> is_Some (m !! l) \/ unlinked m l -> m !! l' = Some xs' -> In y (l' :: xs') ->
  own m l y -> l' = l.
Proof.
  intros [_ D] Hl Hl' Hy [Hy' | U]; [| by destruct (U _ _ Hl')].
  destruct Hl as [[xs Hl] | U].
  - unfold nodes in Hy'. rewrite Hl in Hy'. by eapply D.
  - unfold nodes in Hy'. destruct (m !! l) as [xs|] eqn:Hl; [by destruct (U _ _ Hl); left |].
    destruct Hy' as [-> | []]. by destruct (U _ _ Hl').
Qed.

Lemma update_ok h h' m l ys xs' :
  lists_ok h m -> is_Some (m !! l) \/ unlinked m l ->
  only h h' ys -> (forall y, In y ys -> own m l y) ->
  ring h' l xs' -> (forall y, In y (l :: xs') -> own m l y) ->
  lists_ok h' (<[l := xs']> m).
Proof.
  intros L Hl Ho Hys R Hxs. split.
  - intros l1 xs1 [[<- <-] | [N H1]]%lookup_insert_Some; [done |].
    eapply ring_frame; [by eapply L | done |]. intros y Hy Hy'.
    apply N. symmetry. eapply own_other; eauto.
  - intros l1 l2 xs1 xs2 y [[<- <-] | [N1 H1]]%lookup_insert_Some [[<- <-] | [N2 H2]]%lookup_insert_Some Hy1 Hy2.
    + done.
    + symmetry. eapply own_other; eauto.
    + eapply own_other; eauto.
    + by eapply L.
Qed.

Lemma NoDup_remove_split (x : Z) ys zs : List.NoDup (ys ++ x :: zs) ->
  List.remove Z.eq_dec x (ys ++ x :: zs) = ys ++ zs.
Proof.
  intros ND%NoDup_remove_2. rewrite in_app_iff in ND. rewrite remove_app, remove_cons.
  rewrite !notin_remove by tauto. done.
Qed.

(** *** The operations on the lists of a memory *)

Section many.
Context (h : LINKS) (m : LISTS) (L : lists_ok h m).

(** The result of an operation is a memory of the same cells for the lists [m']. *)
Definition becomes (o : option LINKS) (m' : LISTS) : Prop :=
  exists h', o = Some h' /\ dom h' = dom h /\ lists_ok h' m'.

Lemma nodes_some l xs : m !! l = Some xs -> nodes m l = xs.
Proof using. unfold nodes. by intros ->. Qed.

Lemma own_node l xs y : m !! l = Some xs -> In y (l :: xs) -> own m l y.
Proof using. intros Hl Hy. left. by rewrite (nodes_some _ _ Hl). Qed.

Lemma lists_init l : is_Some (h !! l) -> is_Some (m !! l) \/ unlinked m l -> becomes (list_init h l) (<[l := []]> m).
Proof using L.
  intros Hm Hl. destruct (init_ok h l Hm) as (h' & E & Hd & R & Ho). exists h'. split; [done |]. split; [done |].
  eapply update_ok; eauto; intros y [<- | []]; left; by left.
Qed.

Lemma lists_add_tail l xs node : m !! l = Some xs -> is_Some (h !! node) -> unlinked m node ->
  becomes (list_insert_before h l node) (<[l := xs ++ [node]]> m).
Proof using L.
  intros Hl Hm U. destruct (insert_before_ok h l xs (lo_ring _ _ L _ _ Hl) node Hm (U _ _ Hl)) as (h' & E & Hd & R & Ho).
  exists h'. split; [done |]. split; [done |]. pose proof (own_node l xs) as O.
  eapply update_ok; eauto.
  - intros y [<- | Hy]; [by right | by apply O].
  - intros y [<- | [Hy | [<- | []]]%in_app_or]; [apply O; [done | by left] | apply O; [done | by right] | by right].
Qed.

Lemma lists_add_head l xs node : m !! l = Some xs -> is_Some (h !! node) -> unlinked m node ->
  becomes (list_insert_after h l node) (<[l := node :: xs]> m).
Proof using L.
  intros Hl Hm U. destruct (insert_after_ok h l xs (lo_ring _ _ L _ _ Hl) node Hm (U _ _ Hl)) as (h' & E & Hd & R & Ho).
  exists h'. split; [done |]. split; [done |]. pose proof (own_node l xs) as O.
  eapply update_ok; eauto.
  - intros y [<- | Hy]; [by right | by apply O].
  - intros y [<- | [<- | Hy]]; [apply O; [done | by left] | by right | apply O; [done | by right]].
Qed.

Lemma lists_delete l ys node zs : m !! l = Some (ys ++ node :: zs) ->
  becomes (list_delete h node) (<[l := ys ++ zs]> m).
Proof using L.
  intros Hl. destruct (delete_ok h l _ (lo_ring _ _ L _ _ Hl) ys node zs eq_refl) as (h' & E & Hd & R & Ho).
  exists h'. split; [done |]. split; [done |]. pose proof (own_node l (ys ++ node :: zs)) as O.
  eapply update_ok; eauto.
  intros y [<- | Hy]; apply O; try done; [by left | right]. rewrite in_app_iff in *. cbn. tauto.
Qed.

Lemma lists_get_first l xs : m !! l = Some xs ->
  exists h', list_get_first h l = Some (hd_error xs, h') /\ dom h' = dom h /\ lists_ok h' (<[l := tl xs]> m).
Proof using L.
  intros Hl. destruct (get_first_ok h l xs (lo_ring _ _ L _ _ Hl)) as (h' & E & Hd & R & Ho).
  exists h'. split; [done |]. split; [done |]. pose proof (own_node l xs) as O. eapply update_ok; eauto.
  intros y [<- | Hy]; apply O; try done; [by left | right]. destruct xs; [done | by right].
Qed.

Lemma lists_get_last l xs : m !! l = Some xs ->
  exists h', list_get_last h l = Some (hd_error (rev xs), h') /\ dom h' = dom h /\ lists_ok h' (<[l := removelast xs]> m).
Proof using L.
  intros Hl. destruct (get_last_ok h l xs (lo_ring _ _ L _ _ Hl)) as (h' & E & Hd & R & Ho).
  exists h'. split; [done |]. split; [done |]. pose proof (own_node l xs) as O. eapply update_ok; eauto.
  intros y [<- | Hy]; apply O; try done; [by left | right].
  destruct xs as [|x xs _] using rev_ind; [done |]. rewrite removelast_last in Hy. apply in_or_app. by left.
Qed.

Lemma lists_empty l xs : m !! l = Some xs -> list_empty h l = Some (match xs with [] => true | _ => false end).
Proof using L. intros Hl. apply empty_ok, (lo_ring _ _ L _ _ Hl). Qed.

(** A list can be entered at any of its links. *)
Lemma ring_rotate l x xs : ring h l (x :: xs) -> ring h x (xs ++ [l]).
Proof using.
  intros [[Hl Hc] ND]. split; [by apply chain_app |].
  eapply Permutation_NoDup, ND. rewrite <- Permutation_cons_append. constructor.
Qed.

Lemma ring_rotate_back l x xs : ring h l (xs ++ [x]) -> ring h x (l :: xs).
Proof using.
  intros [[Hc Hl]%chain_app ND]. split; [by split |].
  eapply Permutation_NoDup, ND. rewrite <- Permutation_cons_append. constructor.
Qed.

Lemma lists_delete_key l : lists_ok h (base.delete l m).
Proof using L.
  split.
  - intros l' xs [_ H]%lookup_delete_Some. by apply L.
  - intros l1 l2 xs1 xs2 y [_ H1]%lookup_delete_Some [_ H2]%lookup_delete_Some. by eapply L.
Qed.

(** The same links under another sentinel. *)
Lemma lists_rename l xs x ys : m !! l = Some xs -> ring h x ys ->
  (forall y, In y (x :: ys) -> In y (l :: xs)) -> lists_ok h (<[x := ys]> (base.delete l m)).
Proof using L.
  intros Hl R Hin. split.
  - intros l' xs' [[<- <-] | [_ [_ H]%lookup_delete_Some]]%lookup_insert_Some; [done | by apply L].
  - intros l1 l2 xs1 xs2 y [[<- <-] | [N1 [D1 H1]%lookup_delete_Some]]%lookup_insert_Some
      [[<- <-] | [N2 [D2 H2]%lookup_delete_Some]]%lookup_insert_Some Hy1 Hy2.
    + done.
    + exfalso. apply D2. by eapply (lo_disj _ _ L l l2 xs xs2 y); auto.
    + exfalso. apply D1. by eapply (lo_disj _ _ L l l1 xs xs1 y); auto.
    + by eapply L.
Qed.

Lemma lists_rotate l x xs : m !! l = Some (x :: xs) -> lists_ok h (<[x := xs ++ [l]]> (base.delete l m)).
Proof using L.
  intros Hl. eapply lists_rename; [done | by apply ring_rotate, L |].
  intros y. cbn. rewrite in_app_iff. cbn. tauto.
Qed.

Lemma lists_rotate_back l x xs : m !! l = Some (xs ++ [x]) -> lists_ok h (<[x := l :: xs]> (base.delete l m)).
Proof using L.
  intros Hl. eapply lists_rename; [done | by apply ring_rotate_back, L |].
  intros y. cbn. rewrite in_app_iff. cbn. tauto.
Qed.

(** A cell outside of the lists. *)
Lemma lists_frame x v : unlinked m x -> is_Some (h !! x) -> dom (<[x := v]> h) = dom h /\ lists_ok (<[x := v]> h) m.
Proof using L.
  intros U Hx. split; [by apply dom_insert_lookup_L |]. split; [| by apply L].
  intros l xs Hl. eapply (ring_frame h _ _ _ [x]); [by apply L | |].
  - intros y Hy. apply lookup_insert_ne. intros ->. apply Hy. by left.
  - intros y Hy [<- | []]. by apply (U l xs).
Qed.

End many.

Lemma op_run h m op : lists_ok h m -> legal (dom h) op m ->
  exists h', run_op op h = Some (fst (spec_op op m), h') /\ dom h' = dom h /\ lists_ok h' (snd (spec_op op m)).
Proof.
  intros L G. destruct op as [l | l node | l node | l node | l | l | l]; cbn [run_op spec_op legal fst snd] in *.
  - destruct G as [Hm%elem_of_dom Hl]. destruct (lists_init h m L l Hm Hl) as (h' & -> & ?). by exists h'.
  - destruct G as ([xs Hl] & Hm%elem_of_dom & U). rewrite (nodes_some _ _ _ Hl).
    destruct (lists_add_tail h m L l xs node Hl Hm U) as (h' & -> & ?). by exists h'.
  - destruct G as ([xs Hl] & Hm%elem_of_dom & U). rewrite (nodes_some _ _ _ Hl).
    destruct (lists_add_head h m L l xs node Hl Hm U) as (h' & -> & ?). by exists h'.
  - destruct G as [[xs Hl] Hx]. rewrite (nodes_some _ _ _ Hl) in *. apply in_split in Hx as (ys & zs & ->).
    destruct (lists_delete h m L l ys node zs Hl) as (h' & -> & ?). exists h'. rewrite NoDup_remove_split; [done |].
    pose proof (ring_nodup _ _ _ (lo_ring _ _ L _ _ Hl)) as ND. by apply NoDup_cons_iff in ND as [_ ?].
  - destruct G as [xs Hl]. rewrite (nodes_some _ _ _ Hl).
    destruct (lists_get_first h m L l xs Hl) as (h' & -> & ?). by exists h'.
  - destruct G as [xs Hl]. rewrite (nodes_some _ _ _ Hl).
    destruct (lists_get_last h m L l xs Hl) as (h' & -> & ?). by exists h'.
  - destruct G as [xs Hl]. rewrite (nodes_some _ _ _ Hl), (lists_empty h m L l xs Hl). by exists h.
Qed.

(** ** Sequences of operations *)

Fixpoint run_ops (ops : list LIST_OP) (h : LINKS) : option (list Z * LINKS) :=
  match ops with
  | [] => Some ([], h)
  | op :: ops => '(r, h) ← run_op op h; '(rs, h) ← run_ops ops h; Some (r :: rs, h)
  end.

Fixpoint spec_ops (ops : list LIST_OP) (m : LISTS) : list Z * LISTS :=
  match ops with
  | [] => ([], m)
  | op :: ops => let '(r, m) := spec_op op m in let '(rs, m) := spec_ops ops m in (r :: rs, m)
  end.

Fixpoint legal_ops (links : gset Z) (ops : list LIST_OP) (m : LISTS) : Prop :=
  match ops with
  | [] => True
  | op :: ops => legal links op m /\ legal_ops links ops (snd (spec_op op m))
  end.

Lemma ops_run ops : forall h m, lists_ok h m -> legal_ops (dom h) ops m ->
  exists h', run_ops ops h = Some (fst (spec_ops ops m), h') /\ dom h' = dom h /\ lists_ok h' (snd (spec_ops ops m)).
Proof.
  induction ops as [|op ops IH]; intros h m L G; cbn [run_ops spec_ops legal_ops] in *; [by exists h |].
  destruct G as [G Gs]. destruct (op_run h m op L G) as (h1 & -> & Hd1 & L1).
  destruct (spec_op op m) as [r m1]. cbn [fst snd mbind option_bind] in *. rewrite <- Hd1 in Gs.
  destruct (IH h1 m1 L1 Gs) as (h2 & -> & Hd2 & L2).
  destruct (spec_ops ops m1) as [rs m2]. cbn [fst snd mbind option_bind] in *.
  exists h2. split; [done |]. split; [congruence | done].
Qed.

Lemma count_loop_ok h l xs : forall n a cnt,
  chain h a xs l -> ~ In l xs -> (length xs <= n)%nat ->
  (node ← get_next h a; count_loop n h l node cnt) = Some (cnt + Z.of_nat (length xs)).
Proof.
  induction xs as [|x xs IH]; intros n a cnt Hc Hl Hn; rewrite (chain_next _ _ _ _ Hc); cbn [mbind option_bind hd].
  - destruct n; cbn [count_loop]; rewrite Z.eqb_refl; f_equal; cbn; lia.
  - destruct n as [|n]; cbn [length] in Hn; [lia |]. cbn [count_loop].
    rewrite eqb_ne by (intros ->; apply Hl; by left).
    destruct Hc as [_ Hc]. rewrite IH; [f_equal; cbn [length]; lia | done | | lia].
    intros H. apply Hl. by right.
Qed.

(** [list_count] gives the number of nodes. *)
Lemma count_ok h l xs n : ring h l xs -> (length xs <= n)%nat -> list_count n h l = Some (Z.of_nat (length xs)).
Proof.
  intros [Hc ND] Hn. unfold list_count. rewrite (count_loop_ok h l xs n l 0 Hc); [done | | done].
  by apply NoDup_cons_iff in ND as [? _].
Qed.

(** C37: the pointer manipulations of list.h implement finite sequences: on any
    number of disjoint lists in one memory, every sequence of operations whose
    callers add only nodes that are in no list and remove only nodes of the list
    runs without an invalid access, returns the results of the sequences, and
    leaves well-formed lists whose counted lengths are those of the sequences. *)
Theorem list_refines_sequences h m ops :
  lists_ok h m -> legal_ops (dom h) ops m ->
  exists h', run_ops ops h = Some (fst (spec_ops ops m), h') /\ lists_ok h' (snd (spec_ops ops m)) /\
    forall l xs n, snd (spec_ops ops m) !! l = Some xs -> (length xs <= n)%nat ->
      list_count n h' l = Some (Z.of_nat (length xs)).
Proof.
  intros L G. destruct (ops_run ops h m L G) as (h' & E & _ & L'). exists h'.
  split; [done |]. split; [done |]. intros l xs n Hl Hn. apply count_ok; [by eapply lo_ring | done].
Qed.

Definition fresh_links (n : nat) : LINKS :=
  list_to_map ((fun i => (Z.of_nat i, {| prev := 0; next := 0 |})) <$> seq 1 n).

Lemma lists_ok_empty h : lists_ok h ∅.
Proof. split; intros *; rewrite lookup_empty; discriminate. Qed.

Definition demo_ops : list LIST_OP :=
  [OpInit 1; OpInit 2; OpAddTail 1 3; OpAddTail 1 4; OpAddHead 1 5; OpFirst 1; OpAddTail 2 5; OpDelete 1 3; OpEmpty 2; OpLast 1].

Lemma legal_demo : legal_ops (dom (fresh_links 5)) demo_ops ∅.
Proof.
  assert (forall (m : LISTS) y, bool_decide (map_Forall (fun l xs => y ∉ l :: xs) m) = true -> unlinked m y) as U.
  { intros m y H%bool_decide_eq_true l xs Hl Hy. apply (H l xs Hl). by apply list_elem_of_In. }
  repeat split; try (apply U; reflexivity); try (vm_compute; eauto; fail);
    try (right; apply U; reflexivity); try (apply elem_of_dom; vm_compute; eauto; fail).
Qed.

Lemma list_refines_sequences_witness :
  (exists h', run_ops demo_ops (fresh_links 5) = Some (fst (spec_ops demo_ops ∅), h')) /\
  fst (spec_ops demo_ops ∅) = [0; 0; 0; 0; 0; 5; 0; 0; 0; 4].
Proof.
  split; [| vm_compute; reflexivity].
  destruct (list_refines_sequences (fresh_links 5) ∅ demo_ops (lists_ok_empty _) legal_demo) as (h' & E & _).
  by exists h'.
Defined.
