(* ===== verification/Dir.v ===== *)
(** * Directories

    Copying a directory, src/mid/dir/dir.c, on the files of [File].  Directories
    themselves are not part of the model's file system: whether one can be opened,
    made or removed is the answer of a system call that can fail.  The order in
    which [fts] (C library) walks a directory is a parameter, [ls]; all that is
    used of it is that the paths it gives start with the directory's own. *)

From stdpp Require Import gmap strings sets.
From S2P Require Import Prelude Md5 File.

Open Scope string_scope.
Open Scope Z_scope.

Definition DIR_INVALID_PARAMETER : Z := Z.lor (Z.shiftl 0x3f02 16) 1.
Definition DIR_STAT_FAILED : Z := DIR_INVALID_PARAMETER + 2.
Definition DIR_REMOVE_FAILED : Z := DIR_INVALID_PARAMETER + 3.
Definition DIR_COPY_FAILED : Z := DIR_INVALID_PARAMETER + 4.
Definition DIR_OPEN_FAILED : Z := DIR_INVALID_PARAMETER + 5.

Definition COM_APP_STATUS_FILE : string := "status.conf".

(** What [fts_read] gives below the top directory; [FTS_BAD] for the kinds that
    end the copy. *)
Inductive FTSENT := FTS_D (path : string) | FTS_F (path : string) | FTS_BAD.

(** [entry->fts_path + n] *)
Definition path_from (n : nat) (p : string) : string := String.substring n (String.length p - n) p.

(** [strstr] *)
Fixpoint contains (sub l : list Z) : bool :=
  bool_decide (take (length sub) l = sub) || match l with [] => false | _ :: l => contains sub l end.

Section faults.
Context (fault : nat -> option nat).
Context (ls : FS -> string -> list FTSENT).

(** Whether a directory is there, is empty. *)
Definition answer : FM bool := r ← sys fault; mret (match r with None => true | Some _ => false end).
Definition dir_is_dir (path : string) : FM bool := answer.
Definition dir_exists (path : string) : FM bool := answer.
Definition dir_is_empty (path : string) : FM bool := answer.

(** [remove] of every file and directory. *)
Fixpoint remove_entries (es : list FTSENT) : FM Z :=
  match es with
  | [] => mret 0
  | FTS_F p :: es =>
      r ← sys fault;
      match r with None => step (FsRemove p);; remove_entries es | Some _ => mret DIR_REMOVE_FAILED end
  | FTS_D _ :: es =>
      r ← sys fault;
      match r with None => remove_entries es | Some _ => mret DIR_REMOVE_FAILED end
  | FTS_BAD :: es => remove_entries es
  end.

Definition dir_remove_path (path : string) : FM Z :=
  d ← answer;                                     (* lstat *)
  if negb d then mret DIR_STAT_FAILED
  else
    o ← answer;                                   (* fts_open *)
    if negb o then mret DIR_OPEN_FAILED
    else es ← st_gets (fun s => ls (fs s) path); remove_entries es.

(** The status file, which is not copied. *)
Definition dst_path_st (dst_path : string) : string :=
  if bool_decide (path_from (String.length dst_path - 1) dst_path = "/") then dst_path ++ "status.conf"
  else dst_path ++ "/status.conf".

Fixpoint copy_entries (n : nat) (dst_path : string) (es : list FTSENT) : FM Z :=
  match es with
  | [] => mret 0
  | FTS_BAD :: _ => mret DIR_COPY_FAILED
  | FTS_D p :: es =>
      ret ← dir_make_path fault (dst_path ++ path_from n p);
      if negb (ret =? 0) then mret ret else copy_entries n dst_path es
  | FTS_F p :: es =>
      let newPath := dst_path ++ path_from n p in
      if bool_decide (newPath = dst_path_st dst_path) then copy_entries n dst_path es
      else
        ret ← file_copy fault p newPath;
        if negb (ret =? 0) then mret ret else copy_entries n dst_path es
  end.

Definition dir_copy_no_st (src_path dst_path : string) : FM Z :=
  s ← dir_is_dir src_path;
  if negb s then mret DIR_INVALID_PARAMETER
  else
    d ← dir_is_dir dst_path;
    if negb d then mret DIR_INVALID_PARAMETER
    else
      es ← st_gets (fun s => ls (fs s) src_path);
      copy_entries (String.length src_path) dst_path es.

Definition status_file (dst_dir : string) : string := dst_dir ++ "/" ++ COM_APP_STATUS_FILE.

Definition dir_update_start (dst_dir : string) : FM Z :=
  file_write_atomic fault (status_file dst_dir) (c_chars "bad").

Definition dir_update_commit (dst_dir : string) : FM Z :=
  file_write_atomic fault (status_file dst_dir) (c_chars "good").

Definition dir_get_status (dir : string) : FM bool :=
  d ← dir_is_dir dir;
  if negb d then mret false
  else
    e ← file_exists (status_file dir);
    if negb e then mret false
    else
      r ← file_read fault (status_file dir) 15;
      mret (match r with inl _ => false | inr data => contains (c_chars "good") (c_string data) end).

Definition dir_copy (src_dir dst_dir : string) : FM Z :=
  e ← dir_exists src_dir;
  if negb e then mret 0
  else
    e ← dir_is_empty src_dir;
    if (e : bool) then mret 0
    else
      ret ← dir_make_path fault dst_dir;
      if negb (ret =? 0) then mret ret
      else
        ret ← dir_remove_path dst_dir;
        if negb (ret =? 0) then mret ret
        else
          ret ← dir_make_path fault dst_dir;
          if negb (ret =? 0) then mret ret
          else
            ret ← dir_update_start dst_dir;
            if negb (ret =? 0) then mret ret
            else
              ret ← dir_copy_no_st src_dir dst_dir;
              if negb (ret =? 0) then mret ret else dir_update_commit dst_dir.

End faults.

(** ** Where a copy writes *)

Definition below (dir p : string) : Prop := exists r, p = dir ++ r.

Definition entry_below (dir : string) (e : FTSENT) : Prop :=
  match e with FTS_D p | FTS_F p => below dir p | FTS_BAD => True end.

Section specs.
Context (fault : nat -> option nat).
Context (ls : FS -> string -> list FTSENT).
Context (ls_below : forall f d, Forall (entry_below d) (ls f d)).

(** A call that changes only files below [dir]. *)
Definition within {A} (dir : string) (m : FM A) : Prop :=
  forall f, emits f m (fun _ l => Forall (touches (below dir)) l).

Lemma within_ret {A} dir (a : A) : within dir (mret a).
Proof. intros f. apply emits_ret. constructor. Qed.

Lemma within_bind {A B} dir (m : FM A) (k : A -> FM B) :
  within dir m -> (forall a, within dir (k a)) -> within dir (m ≫= k).
Proof.
  intros Hm Hk f. eapply emits_bind; [apply Hm |]. intros a l0 H0.
  eapply emits_weaken; [apply Hk |]. intros b l H. by apply Forall_app_2.
Qed.

Lemma within_bind_gets {A B} dir (g : FILES -> A) (h : FS -> A) (k : A -> FM B) :
  (forall s, g s = h (fs s)) -> (forall f, within dir (k (h f))) -> within dir (st_gets g ≫= k).
Proof.
  intros Hg Hk f. eapply emits_bind_pure; [by apply (emits_gets f g h) |]. intros a ->. apply Hk.
Qed.

Lemma within_emits {A} dir (m : FM A) (P : FS -> A -> list FS_STEP -> Prop) :
  (forall f, emits f m (P f)) -> (forall f a l, P f a l -> Forall (touches (below dir)) l) -> within dir m.
Proof. intros Hm HP f. eapply emits_weaken; [apply Hm |]. apply HP. Qed.

Lemma within_quiet {A} dir (m : FM A) : (forall f, exists P, emits f m (fun a l => P a /\ l = [])) -> within dir m.
Proof. intros Hm f. destruct (Hm f) as [P HP]. eapply emits_weaken; [exact HP |]. by intros a l [_ ->]. Qed.

Lemma within_if {A} dir (b : bool) (m1 m2 : FM A) : within dir m1 -> within dir m2 -> within dir (if b then m1 else m2).
Proof. by destruct b. Qed.

Lemma within_bind_sys {A} dir (k : option nat -> FM A) :
  (forall r, within dir (k r)) -> within dir (sys fault ≫= k).
Proof. intros Hk f. apply emits_bind_sys; intros; apply Hk. Qed.

Lemma within_answer dir : within dir (answer fault).
Proof. apply within_bind_sys. intros. apply within_ret. Qed.

Lemma within_make dir p : within dir (dir_make_path fault p).
Proof. apply within_quiet. intros f. eexists. apply emits_dir_make. Qed.

Lemma below_app dir p : below dir (dir ++ p).
Proof. by exists p. Qed.

Lemma within_copy dir src p : below dir p -> within dir (file_copy fault src p).
Proof.
  intros Hp. eapply within_emits; [intros; apply emits_copy |].
  intros f a l. unfold copies. destruct (f !! src); [| by intros [_ ->]].
  by intros [[_ ->] | (_ & _ & [-> | [-> | [n ->]]])]; repeat constructor.
Qed.

Lemma app_assoc_str (a b c : string) : (a ++ b) ++ c = a ++ (b ++ c).
Proof. induction a as [|x a IH]; [done |]. change (String x ((a ++ b) ++ c) = String x (a ++ (b ++ c))). by rewrite IH. Qed.

Lemma within_status dir data : Forall is_byte data -> within dir (file_write_atomic fault (status_file dir) data).
Proof.
  intros Hd. eapply within_emits; [intros; by apply emits_write_atomic |].
  assert (below dir (status_file dir)) as Hs by apply below_app.
  assert (below dir (temp_path (status_file dir))) as Ht.
  { unfold temp_path, status_file. rewrite app_assoc_str. apply below_app. }
  intros f a l [(_ & Hl & _) | (_ & r & -> & Hr)].
  - eapply Forall_touches; [| exact Hl]. by intros p <-.
  - repeat constructor; [done .. |]. by destruct Hr as [[-> _] | ->]; repeat constructor.
Qed.

Lemma within_remove_entries dir es : Forall (entry_below dir) es -> within dir (remove_entries fault es).
Proof.
  induction 1 as [|e es He _ IH]; [apply within_ret |].
  destruct e as [p | p |]; cbn [remove_entries]; [.. | done].
  - apply within_bind_sys. intros [k|]; [apply within_ret | done].
  - apply within_bind_sys. intros [k|]; [apply within_ret |].
    apply within_bind; [| done]. eapply within_emits; [intros; by apply emits_step |].
    intros f a l ->. by repeat constructor.
Qed.

Lemma within_copy_entries dir n es : within dir (copy_entries fault n dir es).
Proof.
  induction es as [|[p | p |] es IH]; cbn [copy_entries]; [apply within_ret | | | apply within_ret].
  - apply within_bind; [apply within_make |]. intros ret. apply within_if; [apply within_ret | done].
  - apply within_if; [done |]. apply within_bind; [apply within_copy, below_app |].
    intros ret. apply within_if; [apply within_ret | done].
Qed.

Lemma within_dir_remove dir : within dir (dir_remove_path fault ls dir).
Proof.
  apply within_bind; [apply within_answer |]. intros d. apply within_if; [apply within_ret |].
  apply within_bind; [apply within_answer |]. intros o. apply within_if; [apply within_ret |].
  apply (within_bind_gets _ _ (fun f => ls f dir)); [done |]. intros f. by apply within_remove_entries.
Qed.

(** Only files of the destination are created, changed or removed. *)
Lemma within_dir_copy src dst : within dst (dir_copy fault ls src dst).
Proof.
  apply within_bind; [apply within_answer |]. intros e. apply within_if; [apply within_ret |].
  apply within_bind; [apply within_answer |]. intros e2. apply within_if; [apply within_ret |].
  apply within_bind; [apply within_make |]. intros r1. apply within_if; [apply within_ret |].
  apply within_bind; [apply within_dir_remove |]. intros r2. apply within_if; [apply within_ret |].
  apply within_bind; [apply within_make |]. intros r3. apply within_if; [apply within_ret |].
  apply within_bind; [apply within_status; repeat constructor; lia |]. intros r4.
  apply within_if; [apply within_ret |].
  apply within_bind; [| intros r5; apply within_if; [apply within_ret | apply within_status; repeat constructor; lia]].
  apply within_bind; [apply within_answer |]. intros s. apply within_if; [apply within_ret |].
  apply within_bind; [apply within_answer |]. intros d. apply within_if; [apply within_ret |].
  apply (within_bind_gets _ _ (fun f => ls f src)); [done |]. intros f. apply within_copy_entries.
Qed.

End specs.
