(* ===== verification/Rds.v ===== *)
(** * Reliable data store

    src/mid/rds/rds.c on the files of [File]: a type of data is a file in a master
    and in a backup directory, with a header in front and the MD5 digest of both
    behind it.  Reading falls back to the backup and restores the master from it.
    The theorems are about any failure of the system calls and about a loss of
    power at any point. *)

From stdpp Require Import gmap strings.
From S2P Require Import Prelude Md5 File Dir.

Open Scope string_scope.
Open Scope Z_scope.

(** ** Constants and tables *)

Definition RDS_INVALID_PARA : Z := Z.lor (Z.shiftl 0x3f05 16) 1.
Definition RDS_INVALID_TYPE : Z := RDS_INVALID_PARA + 1.
Definition RDS_FILE_NOT_EXIST : Z := RDS_INVALID_PARA + 2.
Definition RDS_INVALID_FILE : Z := RDS_INVALID_PARA + 3.
Definition RDS_OPEN_FILE_FAILED : Z := RDS_INVALID_PARA + 4.

Definition COM_APP_VER_LEN : Z := 32.
Definition COM_APP_MAIN_VER : list Z := c_chars "MPU_J303FTTRAD091[A_00]".

Definition COM_APP_CUR_DATA_DIR : string := "/usrdata/dev/data/usrdata".
Definition COM_APP_CUR_CFG_DIR : string := "/usrapp/current/data/cfg".
Definition COM_DATA_CUR_CFG_DIR : string := "/usrdata/current/data/cfg".
Definition COM_NULL_DIR : string := "".

Definition RDS_MASTER_PATH : string := "/master".
Definition RDS_SLAVE_PATH : string := "/slave".

Inductive RDS_BACKUP_ATTR := RDS_SINGLE | RDS_BACKUP.
Inductive RDS_PATH_TYPE := RDS_PATH_MASTER | RDS_PATH_BACKUP.

Record RDS_ITEM := {
  rds_type : Z; path_name : string; area_path : string; backup_attr : RDS_BACKUP_ATTR; file_name : string
}.

Definition data_item (type : Z) (file : string) : RDS_ITEM :=
  {| rds_type := type; path_name := COM_APP_CUR_DATA_DIR; area_path := COM_NULL_DIR;
     backup_attr := RDS_BACKUP; file_name := file |}.

Definition rds_data_tbl : list RDS_ITEM :=
  [data_item 0 "dev_info.dat"; data_item 1 "dev_distance.dat"; data_item 2 "uds_diag.dat";
   data_item 3 "J1939_fault.dat";
   {| rds_type := 4; path_name := COM_APP_CUR_CFG_DIR; area_path := COM_DATA_CUR_CFG_DIR;
      backup_attr := RDS_BACKUP; file_name := "sys_cfg.dat" |};
   data_item 5 "adp_cfg.dat"; data_item 6 "ft_regseq.dat"].

(** The first row with the type. *)
Definition rds_get_index (type : Z) : option RDS_ITEM :=
  List.find (fun r => rds_type r =? type) rds_data_tbl.

Definition rds_build_single_path (r : RDS_ITEM) : string := path_name r ++ "/" ++ file_name r.

Definition rds_build_backup_path (r : RDS_ITEM) (is_backup : bool) : string :=
  path_name r ++ (if is_backup then RDS_SLAVE_PATH else RDS_MASTER_PATH) ++ "/" ++ file_name r.

Definition rds_get_full_path (r : RDS_ITEM) (type : RDS_PATH_TYPE) : string :=
  match backup_attr r, type with
  | RDS_SINGLE, _ => rds_build_single_path r
  | RDS_BACKUP, RDS_PATH_MASTER => rds_build_backup_path r false
  | RDS_BACKUP, RDS_PATH_BACKUP => rds_build_backup_path r true
  end.

(** [RDS_HDR]: the version, filled with zeros, and the length. *)
Definition sizeof_hdr : Z := COM_APP_VER_LEN + 4.

Definition rds_hdr (n : Z) : list Z :=
  COM_APP_MAIN_VER ++ replicate (Z.to_nat (COM_APP_VER_LEN - len COM_APP_MAIN_VER)) 0 ++ le_bytes 4 n.

(** [strncpy] of 32 bytes, and the last byte set to zero. *)
Definition copy_ver (ver : list Z) : list Z :=
  let s := take (Z.to_nat (COM_APP_VER_LEN - 1)) (c_string ver) in
  s ++ replicate (Z.to_nat (COM_APP_VER_LEN - len s)) 0.

(** ** Operations *)

Section faults.
Context (fault : nat -> option nat).
Context (ls : FS -> string -> list FTSENT).

Definition rds_write_raw (path : string) (data : list Z) : FM Z :=
  e ← file_exists path;
  ret ← (if (e : bool) then mret 0 else dir_make_path fault path : FM Z);
  if negb (ret =? 0) then mret ret else file_write_atomic fault path data.

Definition rds_write (path : string) (data : list Z) (n : Z) : FM Z :=
  e ← file_exists path;
  ret ← (if (e : bool) then mret 0 else dir_make_path fault path : FM Z);
  if negb (ret =? 0) then mret ret else file_update_atomic fault path (rds_hdr n) data.

(** [data] is the buffer, of which all bytes are stored; [None] a null pointer. *)
Definition rds_update_raw (type : Z) (data : option (list Z)) : FM Z :=
  match data with
  | None | Some [] => mret RDS_INVALID_PARA
  | Some data =>
      match rds_get_index type with
      | None => mret RDS_INVALID_TYPE
      | Some r => rds_write_raw (rds_get_full_path r RDS_PATH_MASTER) data
      end
  end.

Definition rds_update_once (type : Z) (data : option (list Z)) : FM Z :=
  match data with
  | None | Some [] => mret RDS_INVALID_PARA
  | Some data =>
      match rds_get_index type with
      | None => mret RDS_INVALID_TYPE
      | Some r =>
          let master := rds_get_full_path r RDS_PATH_MASTER in
          ret ← rds_write master data (len data);
          if negb (ret =? 0) then mret ret
          else
            ret ← match backup_attr r with
                  | RDS_BACKUP => file_copy fault master (rds_get_full_path r RDS_PATH_BACKUP)
                  | RDS_SINGLE => mret ret
                  end;
            if negb (strlen (area_path r) =? 0) then dir_copy fault ls (path_name r) (area_path r) else mret ret
      end
  end.

(** The result of reading: an error code, or the data, its length and the version. *)
Record RDS_DATA := { rd_data : list Z; rd_len : Z; rd_ver : list Z }.
Definition RDS_RESULT : Type := Z + RDS_DATA.

(** [buf_len] is the size of the caller's buffer. *)
Definition rds_read (path : string) (buf_len : Z) : FM RDS_RESULT :=
  e ← file_exists path;
  if negb e then mret (inl RDS_FILE_NOT_EXIST)
  else
    size ← file_size path;
    let size := u32 size in
    if size <=? sizeof_hdr + MD5_LENGTH then mret (inl RDS_INVALID_FILE)
    else
      fd ← file_open_read fault path;
      match fd with
      | None => mret (inl RDS_OPEN_FILE_FAILED)
      | Some content =>
          h ← dev_read fault content sizeof_hdr;
          match h with
          | None => mret (inl DEV_RW_READ_FAILED)
          | Some (hdr, rest) =>
              hdr_len ← st_lift (word_at hdr COM_APP_VER_LEN);
              if negb (size =? u32 (sizeof_hdr + MD5_LENGTH + hdr_len)) then mret (inl RDS_INVALID_FILE)
              else if buf_len <? hdr_len then mret (inl RDS_INVALID_PARA)
              else
                d ← dev_read fault rest hdr_len;
                match d with
                | None => mret (inl DEV_RW_READ_FAILED)
                | Some (data, rest) =>
                    m ← dev_read fault rest MD5_LENGTH;
                    match m with
                    | None => mret (inl DEV_RW_READ_FAILED)
                    | Some (digest, _) =>
                        expected ← st_lift (file_digest hdr data);
                        if bool_decide (expected = digest) then
                          mret (inr {| rd_data := data; rd_len := hdr_len;
                                       rd_ver := copy_ver (take (Z.to_nat COM_APP_VER_LEN) hdr) |})
                        else mret (inl RDS_INVALID_FILE)
                    end
                end
          end
      end.

Definition rds_get (type buf_len : Z) : FM RDS_RESULT :=
  match rds_get_index type with
  | None => mret (inl RDS_INVALID_TYPE)
  | Some r =>
      let master := rds_get_full_path r RDS_PATH_MASTER in
      ret ← rds_read master buf_len;
      match ret, backup_attr r with
      | inr d, _ => mret (inr d)
      | inl e, RDS_SINGLE => mret (inl e)
      | inl _, RDS_BACKUP =>
          let backup := rds_get_full_path r RDS_PATH_BACKUP in
          ret ← rds_read backup buf_len;
          match ret with
          | inl e => mret (inl e)
          | inr d => file_copy fault backup master;; mret (inr d)
          end
      end
  end.

Fixpoint delete_rows (rs : list RDS_ITEM) : FM unit :=
  match rs with
  | [] => mret tt
  | r :: rs =>
      file_delete fault (rds_get_full_path r RDS_PATH_MASTER);;
      match backup_attr r with
      | RDS_SINGLE => mret tt
      | RDS_BACKUP => file_delete fault (rds_get_full_path r RDS_PATH_BACKUP)
      end;;
      delete_rows rs
  end.

Definition rds_set_default : FM unit := delete_rows rds_data_tbl.

End faults.

(** ** The content of a file *)

Open Scope list_scope.
Open Scope Z_scope.

(** The data of a valid file. *)
Definition rds_value (content : list Z) : option (list Z) :=
  let hdr := take (Z.to_nat sizeof_hdr) content in
  let rest := drop (Z.to_nat sizeof_hdr) content in
  if len content <=? sizeof_hdr + MD5_LENGTH then None
  else
    n ← word_at hdr COM_APP_VER_LEN;
    if negb (len content =? sizeof_hdr + MD5_LENGTH + n) then None
    else
      let data := take (Z.to_nat n) rest in
      if bool_decide (md5 (hdr ++ data) = take (Z.to_nat MD5_LENGTH) (drop (Z.to_nat n) rest))
      then Some data else None.

Definition rds_image (data : list Z) : list Z :=
  rds_hdr (len data) ++ data ++ md5 (rds_hdr (len data) ++ data).

Lemma rds_hdr_len n : len (rds_hdr n) = sizeof_hdr.
Proof. reflexivity. Qed.

Lemma rds_hdr_bytes n : Forall is_byte (rds_hdr n).
Proof.
  unfold rds_hdr. apply Forall_app_2; [| apply Forall_app_2; [| apply le_bytes_byte]].
  - apply (bool_decide_unpack _). vm_compute. exact Logic.I.
  - apply (bool_decide_unpack _). vm_compute. exact Logic.I.
Qed.

Lemma rds_hdr_word n : 0 <= n < 2 ^ 32 -> word_at (rds_hdr n) COM_APP_VER_LEN = Some n.
Proof.
  intros Hn.
  rewrite (word_at_block _ _ (n mod 256) (n / 256 mod 256) (n / 256 / 256 mod 256) (n / 256 / 256 / 256 mod 256)).
  - f_equal. Z.div_mod_to_equations. lia.
  - by apply Z.mod_pos_bound.
  - by apply Z.mod_pos_bound.
  - by apply Z.mod_pos_bound.
  - by apply Z.mod_pos_bound.
  - rewrite !block_at_cons. by repeat split.
Qed.

Lemma rds_value_image data :
  0 < len data < 2 ^ 32 -> rds_value (rds_image data) = Some data.
Proof.
  intros Hd. unfold rds_value, rds_image.
  rewrite (take_app_length' (rds_hdr _)), (drop_app_length' (rds_hdr _)) by done.
  assert (len (rds_hdr (len data) ++ data ++ md5 (rds_hdr (len data) ++ data)) =
    sizeof_hdr + MD5_LENGTH + len data) as ->.
  { rewrite !len_app, rds_hdr_len, md5_len. unfold MD5_LENGTH. lia. }
  rewrite rds_hdr_word by lia. cbn [mbind option_bind]. rewrite Z.eqb_refl.
  destruct (Z.leb_spec (sizeof_hdr + MD5_LENGTH + len data) (sizeof_hdr + MD5_LENGTH)); [lia |].
  cbn [negb]. rewrite take_app_length', drop_app_length' by (unfold len; lia).
  rewrite take_ge by (pose proof (md5_len (rds_hdr (len data) ++ data)); unfold len, MD5_LENGTH in *; lia).
  by rewrite bool_decide_true.
Qed.

(** What a valid file is made of. *)
Lemma rds_value_inv c d : rds_value c = Some d ->
  len c = sizeof_hdr + MD5_LENGTH + len d /\
  word_at (take (Z.to_nat sizeof_hdr) c) COM_APP_VER_LEN = Some (len d).
Proof.
  unfold rds_value. destruct (Z.leb_spec (len c) (sizeof_hdr + MD5_LENGTH)); [done |].
  destruct (word_at _ _) as [n|] eqn:E; cbn [mbind option_bind]; [| done].
  destruct (Z.eqb_spec (len c) (sizeof_hdr + MD5_LENGTH + n)) as [Hc | _]; cbn [negb]; [| done].
  destruct (bool_decide _); [| done]. intros [= <-].
  assert (len (take (Z.to_nat n) (drop (Z.to_nat sizeof_hdr) c)) = n) as ->; [| done].
  change sizeof_hdr with 36 in *. change MD5_LENGTH with 16 in *.
  unfold len in *. rewrite length_take, length_drop. lia.
Qed.

(** A torn copy of a valid file is not valid. *)
Lemma rds_value_torn c d k : rds_value c = Some d -> Z.of_nat k < len c -> rds_value (take k c) = None.
Proof.
  intros [Hc Hw]%rds_value_inv Hk. unfold rds_value.
  change sizeof_hdr with 36 in *. change MD5_LENGTH with 16 in *.
  assert (len (take k c) = Z.of_nat k) as -> by (unfold len in *; rewrite length_take; lia).
  destruct (Z.leb_spec (Z.of_nat k) (36 + 16)); [done |].
  rewrite take_take. replace (Z.to_nat 36 `min` k)%nat with (Z.to_nat 36) by lia. rewrite Hw.
  cbn [mbind option_bind]. destruct (Z.eqb_spec (Z.of_nat k) (36 + 16 + len d)); [lia | done].
Qed.

Lemma word_at_some b ii : Forall is_byte b -> 0 <= ii -> ii + 4 <= len b ->
  exists w, word_at b ii = Some w /\ 0 <= w < 2 ^ 32.
Proof.
  intros Hb Hi Hl.
  destruct (mem_get_is_Some b ii) as [b0 E0]; [lia |].
  destruct (mem_get_is_Some b (ii + 1)) as [b1 E1]; [lia |].
  destruct (mem_get_is_Some b (ii + 1 + 1)) as [b2 E2]; [lia |].
  destruct (mem_get_is_Some b (ii + 1 + 1 + 1)) as [b3 E3]; [lia |].
  assert (forall i x, mem_get b i = Some x -> is_byte x) as Hx.
  { intros i x [_ Hx]%mem_get_Some. by eapply Forall_lookup_1. }
  pose proof (Hx _ _ E0). pose proof (Hx _ _ E1). pose proof (Hx _ _ E2). pose proof (Hx _ _ E3).
  unfold is_byte in *. exists (b0 + 2 ^ 8 * b1 + 2 ^ 16 * b2 + 2 ^ 24 * b3). split; [| lia].
  apply word_at_block; [done .. |]. rewrite !block_at_cons. repeat split; [done .. |].
  apply block_at_nil. lia.
Qed.

(** ** The paths of a type *)

Abbreviation master r := (rds_get_full_path r RDS_PATH_MASTER).
Abbreviation backup r := (rds_get_full_path r RDS_PATH_BACKUP).

(** The files that an update changes. *)
Definition row_paths (r : RDS_ITEM) (p : string) : Prop :=
  p = temp_path (master r) \/ p = master r \/ p = backup r \/ area_path r <> "" /\ below (area_path r) p.

Lemma below_prefix d p : below d p -> String.prefix d p = true.
Proof.
  intros [q ->]. induction d as [|x d IH]; [by destruct q |].
  change (String.prefix (String x d) (String x (d ++ q)) = true). cbn [String.prefix].
  by destruct (Ascii.ascii_dec x x).
Qed.

Definition outside (r : RDS_ITEM) (p : string) : bool :=
  bool_decide (area_path r = "") || negb (String.prefix (area_path r) p).

Definition row_ok (r : RDS_ITEM) : bool :=
  (strlen (temp_path (master r)) <? COM_APP_MAX_PATH_LEN) &&
  bool_decide (temp_path (master r) <> master r) && bool_decide (temp_path (master r) <> backup r) &&
  bool_decide (master r <> backup r) &&
  outside r (master r) && outside r (backup r) &&
  match backup_attr r with RDS_BACKUP => true | RDS_SINGLE => false end.

Definition rows_ok (r r' : RDS_ITEM) : bool :=
  (rds_type r =? rds_type r') ||
  forallb (fun p => outside r p && forallb (fun q => bool_decide (p <> q)) [temp_path (master r); master r; backup r])
    [master r'; backup r'].

Lemma rds_get_index_In type r : rds_get_index type = Some r -> In r rds_data_tbl /\ rds_type r = type.
Proof. intros [H E]%List.find_some. split; [done | by apply Z.eqb_eq]. Qed.

Lemma not_outside r p : outside r p = true -> ~ (area_path r <> "" /\ below (area_path r) p).
Proof.
  unfold outside. intros [H%bool_decide_eq_true | H]%orb_true_iff [Ha Hp]; [done |].
  by rewrite (below_prefix _ _ Hp) in H.
Qed.

Record row_facts (r : RDS_ITEM) : Prop := {
  rf_len : strlen (temp_path (master r)) < COM_APP_MAX_PATH_LEN;
  rf_tm : temp_path (master r) <> master r;
  rf_tb : temp_path (master r) <> backup r;
  rf_mb : master r <> backup r;
  rf_am : ~ (area_path r <> "" /\ below (area_path r) (master r));
  rf_ab : ~ (area_path r <> "" /\ below (area_path r) (backup r));
  rf_attr : backup_attr r = RDS_BACKUP
}.

Lemma rds_row type r : rds_get_index type = Some r -> row_facts r.
Proof.
  intros [H _]%rds_get_index_In.
  assert (forallb row_ok rds_data_tbl = true) as Ht by (vm_compute; reflexivity).
  rewrite forallb_forall in Ht. specialize (Ht r H). unfold row_ok in Ht.
  rewrite !andb_true_iff, !bool_decide_eq_true, Z.ltb_lt in Ht. destruct Ht as [[[[[[Hl ?] ?] ?] Hm] Hb] Ha].
  constructor; auto using not_outside. by destruct (backup_attr r).
Qed.

(** Updates of one type leave the files of the others alone. *)
Lemma rds_rows type r type' r' :
  rds_get_index type = Some r -> rds_get_index type' = Some r' -> type <> type' ->
  ~ row_paths r (master r') /\ ~ row_paths r (backup r').
Proof.
  intros [H <-]%rds_get_index_In [H' <-]%rds_get_index_In N.
  assert (forallb (fun r => forallb (rows_ok r) rds_data_tbl) rds_data_tbl = true) as Ht
    by (vm_compute; reflexivity).
  rewrite forallb_forall in Ht. specialize (Ht r H). rewrite forallb_forall in Ht. specialize (Ht r' H').
  unfold rows_ok in Ht. rewrite (proj2 (Z.eqb_neq _ _) N) in Ht. cbn [orb] in Ht.
  assert (forall p, In p [master r'; backup r'] -> ~ row_paths r p) as Hp; [| by split; apply Hp; cbn; auto].
  intros p Hp. rewrite forallb_forall in Ht. specialize (Ht p Hp). apply andb_true_iff in Ht as [Ho Hq].
  apply not_outside in Ho. cbn [forallb] in Hq. rewrite !andb_true_iff, !bool_decide_eq_true in Hq.
  destruct Hq as (? & ? & ? & _). unfold row_paths. by intros [-> | [-> | [-> | ?]]].
Qed.

(** ** Reading a file *)

(** No file has 2 GiB. *)
Definition small (f : FS) : Prop := forall p c, f !! p = Some c -> len c < 2 ^ 31.

Definition value_at (f : FS) (p : string) : option (list Z) := f !! p ≫= rds_value.

(** What [rds_read] gives. *)
Definition reads (fault : nat -> option nat) (f : FS) (p : string) (buf_len : Z) (a : RDS_RESULT) : Prop :=
  match a with
  | inr d => value_at f p = Some (rd_data d) /\ rd_len d = len (rd_data d)
  | inl _ => faulty fault \/ forall v, value_at f p = Some v -> buf_len < len v
  end.

Section specs.
Context (fault : nat -> option nat).
Context (ls : FS -> string -> list FTSENT).
Context (ls_below : forall f d, Forall (entry_below d) (ls f d)).

Lemma reads_none f p buf_len e : value_at f p = None -> reads fault f p buf_len (inl e).
Proof. intros Hv. right. congruence. Qed.

(** The data and the digest behind a header. *)
Lemma emits_rds_body f hdr rest n :
  Forall is_byte hdr -> Forall is_byte rest -> len hdr < 2 ^ 32 -> 0 <= n < 2 ^ 32 -> len rest = n + 16 ->
  emits f
    (d ← dev_read fault rest n;
     match d with
     | None => mret (inl DEV_RW_READ_FAILED)
     | Some (data, rest) =>
         m ← dev_read fault rest MD5_LENGTH;
         match m with
         | None => mret (inl DEV_RW_READ_FAILED)
         | Some (digest, _) =>
             expected ← st_lift (file_digest hdr data);
             if bool_decide (expected = digest) then
               mret (inr {| rd_data := data; rd_len := n;
                            rd_ver := copy_ver (take (Z.to_nat COM_APP_VER_LEN) hdr) |})
             else mret (inl RDS_INVALID_FILE)
         end
     end : FM RDS_RESULT)
    (fun a l =>
       match a with
       | inr d => rd_data d = take (Z.to_nat n) rest /\ rd_len d = n /\
                  md5 (hdr ++ rd_data d) = take (Z.to_nat MD5_LENGTH) (drop (Z.to_nat n) rest)
       | inl _ => faulty fault \/
           md5 (hdr ++ take (Z.to_nat n) rest) <> take (Z.to_nat MD5_LENGTH) (drop (Z.to_nat n) rest)
       end /\ l = []).
Proof.
  intros Hbh Hbr Hh Hn Hr.
  eapply emits_bind_pure; [apply emits_read; lia |]. intros d [[-> Hf] | ->];
    [apply emits_ret; split; [by left | done] |].
  eapply emits_bind_pure; [apply emits_read; rewrite len_drop; change MD5_LENGTH with 16; lia |].
  intros m [[-> Hf] | ->]; [apply emits_ret; split; [by left | done] |].
  eapply emits_bind_pure; [apply emits_lift, file_digest_md5; [done | by apply Forall_take | done |] |].
  { rewrite len_take. lia. }
  intros digest ->. case_bool_decide as E; apply emits_ret; split; [| done | by right | done]. done.
Qed.

Lemma emits_rds_read f p buf_len :
  small f -> 0 <= buf_len -> emits f (rds_read fault p buf_len) (fun a l => reads fault f p buf_len a /\ l = []).
Proof.
  intros Hsmall Hbuf. apply emits_bytes. intros Hb. unfold rds_read.
  eapply emits_bind_pure; [apply emits_exists |]. intros e ->.
  destruct (f !! p) as [c|] eqn:Hc.
  2: { apply emits_ret. split; [| done]. apply reads_none. unfold value_at. by rewrite Hc. }
  rewrite bool_decide_true by done. cbn [negb].
  eapply emits_bind_pure.
  { by apply (emits_gets f _ (fun f => match f !! p with Some c => s32 (len c) | None => -1 end)). }
  intros size ->. rewrite Hc. pose proof (Hsmall _ _ Hc) as Hlen. pose proof (len_nonneg c).
  pose proof (Hb _ _ Hc) as Hbytes. rewrite s32_small, u32_small by (unfold is_u32; lia).
  assert (value_at f p = rds_value c) as Hv by (unfold value_at; by rewrite Hc).
  unfold rds_value in Hv. change sizeof_hdr with 36 in *. change MD5_LENGTH with 16 in *.
  change COM_APP_VER_LEN with 32 in *. change (36 + 16) with 52 in *.
  destruct (Z.leb_spec (len c) 52); [apply emits_ret; split; [by apply reads_none | done] |].
  eapply emits_bind_pure; [apply emits_read_open |]. intros fd Hfd.
  destruct fd as [content|]; [| apply emits_ret; split; [left; destruct Hfd as [[_ ?] | ?]; congruence | done]].
  destruct Hfd as [[? _] | Hfd]; [done |]. rewrite Hc in Hfd. injection Hfd as ->.
  eapply emits_bind_pure; [apply emits_read; lia |]. intros h [[-> Hf] | ->];
    [apply emits_ret; split; [by left | done] |].
  set (hdr := take (Z.to_nat 36) c) in *. set (rest := drop (Z.to_nat 36) c) in *.
  assert (len hdr = 36 /\ len rest = len c - 36) as [Hh Hr].
  { unfold hdr, rest. rewrite len_take, len_drop. lia. }
  destruct (word_at_some hdr 32) as (n & Hw & Hn); [by apply Forall_take | lia | lia |].
  rewrite Hw in Hv. cbn [mbind option_bind] in Hv.
  eapply emits_bind_pure; [by apply emits_lift |]. intros n' ->.
  destruct (Z.eqb_spec (len c) (52 + n)) as [Hn2 | Hn2]; cbn [negb] in Hv.
  2: { rewrite (proj2 (Z.eqb_neq (len c) (u32 (52 + n)))).
       - apply emits_ret. split; [by apply reads_none | done].
       - unfold u32. change (2 ^ 32) with 4294967296 in *. Z.div_mod_to_equations. lia. }
  rewrite u32_small, Hn2, Z.eqb_refl by (unfold is_u32; lia). cbn [negb].
  assert (len (take (Z.to_nat n) rest) = n) as Hd by (rewrite len_take; lia).
  destruct (Z.ltb_spec buf_len n).
  { apply emits_ret. split; [| done]. right. intros v. rewrite Hv.
    case_bool_decide; [intros [= <-]; lia | done]. }
  eapply emits_weaken; [apply emits_rds_body; [by apply Forall_take | by apply Forall_drop | lia ..] |].
  intros a l [Ha ->]. split; [| done]. unfold reads. rewrite Hv.
  destruct a as [e | d].
  - destruct Ha as [? | Ha]; [by left |]. right. by rewrite bool_decide_false.
  - destruct Ha as (E1 & E2 & E3). rewrite E1 in *. rewrite bool_decide_true by done. by rewrite E2, Hd.
Qed.

(** ** Updating *)

(** The steps of an update: the master file, the copy, the other area. *)
Definition updates (r : RDS_ITEM) (data : list Z) (f : FS) (a : Z) (l : list FS_STEP) : Prop :=
  let hdr := rds_hdr (len data) in
  let pieces := [hdr; data; md5 (hdr ++ data)] in
  a <> 0 /\ faulty fault /\ Forall (touches (eq (temp_path (master r)))) l \/
  exists l1 l2 l3 a1 a2, l = l1 ++ l2 ++ l3 /\ a1 = 0 /\ replaces fault (master r) pieces a1 l1 /\
    copies fault (master r) (backup r) (do_steps l1 f) a2 l2 /\
    Forall (touches (fun p => area_path r <> "" /\ below (area_path r) p)) l3.

Lemma emits_rds_write f p data :
  Forall is_byte data -> len data < 2 ^ 32 ->
  emits f (rds_write fault p data (len data)) (fun a l =>
    a <> 0 /\ faulty fault /\ l = [] \/
    replaces fault p [rds_hdr (len data); data; md5 (rds_hdr (len data) ++ data)] a l).
Proof.
  intros Hd Ld. unfold rds_write. eapply emits_bind_pure; [apply emits_exists |]. intros e _.
  eapply (emits_bind_pure _ _ _ (fun a => a = 0 \/ faulty fault)).
  { destruct e; [apply emits_ret; auto | apply emits_dir_make]. }
  intros a Ha. destruct (Z.eqb_spec a 0) as [-> | N]; cbn [negb].
  - eapply emits_weaken; [apply emits_update; [apply rds_hdr_bytes | done | | done] | intros; by right].
    rewrite rds_hdr_len. by vm_compute.
  - apply emits_ret. left. by destruct Ha.
Qed.

Lemma strlen_empty s : (strlen s =? 0) = bool_decide (s = "").
Proof. by destruct s. Qed.

Lemma emits_rds_update f type r data :
  rds_get_index type = Some r -> Forall is_byte data -> 0 < len data < 2 ^ 32 ->
  emits f (rds_update_once fault ls type (Some data)) (updates r data f).
Proof.
  intros Hr Hd Ld. pose proof (rds_row _ _ Hr) as R. unfold rds_update_once.
  destruct data as [|x data0]; [exfalso; destruct Ld as [Ld _]; by vm_compute in Ld |]. set (data := x :: data0) in *. rewrite Hr.
  eapply emits_bind; [apply emits_rds_write; [done | lia] |]. intros a1 l1 H1.
  destruct (Z.eqb_spec a1 0) as [-> | N]; cbn [negb].
  2: { apply emits_ret. left. rewrite app_nil_r.
       destruct H1 as [(_ & ? & ->) | [(_ & Hl & [? | ?]) | [? _]]]; [by auto using Forall_nil_2 | by auto | | done].
       destruct R. lia. }
  destruct H1 as [[? _] | H1]; [done |]. rewrite (rf_attr _ R).
  eapply emits_bind; [apply emits_copy |]. intros a2 l2 H2.
  assert (emits (do_steps l2 (do_steps l1 f))
    (if negb (strlen (area_path r) =? 0) then dir_copy fault ls (path_name r) (area_path r) else mret a2 : FM Z)
    (fun _ l3 => Forall (touches (fun p => area_path r <> "" /\ below (area_path r) p)) l3)) as H3.
  { rewrite strlen_empty. case_bool_decide as Ha; [by apply emits_ret |].
    eapply emits_weaken; [by apply within_dir_copy |]. intros a3 l3. by apply Forall_touches. }
  eapply emits_weaken; [exact H3 |]. intros a3 l3 Hl3. right.
  exists l1, l2, l3, 0, a2. by rewrite app_assoc.
Qed.

(** ** The data of a type *)

End specs.

(** The data that a type has: the master's, if that is not valid the backup's. *)
Definition rds_lookup (type : Z) (f : FS) : option (list Z) :=
  r ← rds_get_index type;
  match value_at f (master r), backup_attr r with
  | Some v, _ => Some v
  | None, RDS_BACKUP => value_at f (backup r)
  | None, RDS_SINGLE => None
  end.

Lemma lookup_row type r f : rds_get_index type = Some r ->
  rds_lookup type f = match value_at f (master r) with Some v => Some v | None => value_at f (backup r) end.
Proof.
  intros Hr. unfold rds_lookup. rewrite Hr. cbn [mbind option_bind]. by rewrite (rf_attr _ (rds_row _ _ Hr)).
Qed.

Lemma lookup_same type r f g : rds_get_index type = Some r ->
  g !! master r = f !! master r -> g !! backup r = f !! backup r -> rds_lookup type g = rds_lookup type f.
Proof. intros Hr Em Eb. rewrite !(lookup_row _ _ _ Hr). unfold value_at. by rewrite Em, Eb. Qed.

Lemma lookup_master type r f c v : rds_get_index type = Some r ->
  f !! master r = Some c -> rds_value c = Some v -> rds_lookup type f = Some v.
Proof. intros Hr Hc Hv. rewrite (lookup_row _ _ _ Hr). unfold value_at. rewrite Hc. cbn. by rewrite Hv. Qed.

Lemma lookup_backup type r f v : rds_get_index type = Some r ->
  value_at f (master r) = None \/ value_at f (master r) = Some v ->
  value_at f (backup r) = Some v -> rds_lookup type f = Some v.
Proof. intros Hr [Hm | Hm] Hb; rewrite (lookup_row _ _ _ Hr), Hm; done. Qed.

(** ** Copies cut by a loss of power *)

Lemma copies_touches fault src dst f a l : copies fault src dst f a l -> Forall (touches (eq dst)) l.
Proof.
  unfold copies. destruct (f !! src); [| by intros [_ ->]].
  by intros [[_ ->] | (_ & _ & [-> | [-> | [n ->]]])]; repeat constructor.
Qed.

(** The destination is untouched or holds a prefix of the source. *)
Lemma copies_torn fault src dst f a l d c :
  copies fault src dst f a l -> torn l d -> f !! src = Some c ->
  d = [] \/ exists m, do_steps d f !! dst = Some (take m c).
Proof.
  unfold copies. intros Hl Ht Hc. rewrite Hc in Hl.
  assert (exists m, l = [] \/ l = [FsCreate dst] \/ l = [FsCreate dst; FsAppend dst (take m c)]) as [m Hl'].
  { destruct Hl as [[_ ->] | (_ & _ & [-> | [-> | [n ->]]])]; [| by exists 0%nat; auto .. | by exists n; auto].
    exists (length c). rewrite take_ge by lia. auto. }
  assert (forall k, do_steps [FsCreate dst; FsAppend dst (take k c)] f !! dst = Some (take k c)) as HA.
  { intros k. cbn [do_steps fold_left do_step]. by rewrite !lookup_insert_eq. }
  clear Hl. destruct Hl' as [-> | [-> | ->]]; inversion Ht as [| st l1 d1 T1 | q b l1 k]; subst; auto; right.
  - inversion T1; subst. exists 0%nat. cbn. by rewrite lookup_insert_eq.
  - inversion T1 as [| st l2 d2 T2 | q b l2 k]; subst.
    + exists 0%nat. cbn. by rewrite lookup_insert_eq.
    + inversion T2; subst. exists m. apply HA.
    + exists (k `min` m)%nat. rewrite take_take. apply HA.
Qed.

(** Copying a valid file leaves the destination as it was, invalid or with the
    source's value. *)
Lemma copies_value fault src dst f a l d v :
  src <> dst -> copies fault src dst f a l -> torn l d -> value_at f src = Some v ->
  value_at (do_steps d f) src = Some v /\
  (d = [] \/ value_at (do_steps d f) dst = None \/ value_at (do_steps d f) dst = Some v).
Proof.
  intros N Hl Ht Hv. unfold value_at in *. destruct (f !! src) as [c|] eqn:Hc; [| done]. cbn in Hv.
  split.
  - rewrite (do_steps_other (eq dst)); [by rewrite Hc | | done].
    eapply torn_touches; [done |]. by eapply copies_touches.
  - destruct (copies_torn _ _ _ _ _ _ _ _ Hl Ht Hc) as [-> | [m ->]]; [by left | right]. cbn.
    destruct (decide (Z.of_nat m < len c)); [left; by eapply rds_value_torn | right].
    rewrite take_ge; [done | unfold len in *; lia].
Qed.

(** ** A loss of power in an update *)

(** The master file is absent or valid, as after a start that has read it. *)
Definition intact (r : RDS_ITEM) (f : FS) : Prop :=
  forall c, f !! master r = Some c -> is_Some (rds_value c).

Definition renamed (r : RDS_ITEM) (l : list FS_STEP) : Prop := In (FsRename (temp_path (master r)) (master r)) l.

(** The temporary file holds the image before it is renamed. *)
Lemma image_written r data f :
  let hdr := rds_hdr (len data) in
  let t := temp_path (master r) in
  do_steps (FsCreate t :: map (FsAppend t) [hdr; data; md5 (hdr ++ data)]) f !! t = Some (rds_image data).
Proof.
  cbn [map do_steps fold_left do_step]. unfold rds_image. rewrite !lookup_insert_eq.
  unfold default, id. cbn [app]. by rewrite <- app_assoc.
Qed.

Section crash.
Context (fault : nat -> option nat) (type : Z) (r : RDS_ITEM) (data : list Z) (f : FS).
Context (Hr : rds_get_index type = Some r) (Hd : 0 < len data < 2 ^ 32).

Abbreviation pieces := [rds_hdr (len data); data; md5 (rds_hdr (len data) ++ data)].
Abbreviation t := (temp_path (master r)).

Lemma temp_only d : Forall (touches (eq t)) d -> rds_lookup type (do_steps d f) = rds_lookup type f.
Proof.
  pose proof (rds_row _ _ Hr) as [].
  intros Hl. eapply lookup_same; [done | by apply (do_steps_other (eq t)) ..].
Qed.

Lemma write_torn d : torn (FsCreate t :: map (FsAppend t) pieces) d -> Forall (touches (eq t)) d.
Proof. intros T. eapply torn_touches; [done |]. by repeat constructor. Qed.

Lemma renamed_master :
  do_steps (FsCreate t :: map (FsAppend t) pieces ++ [FsRename t (master r)]) f !! master r = Some (rds_image data).
Proof.
  rewrite app_comm_cons, do_steps_app. pose proof (image_written r data f) as E. cbn zeta in E.
  set (g := do_steps (_ :: _) f) in *. change (do_step (FsRename t (master r)) g !! master r = Some (rds_image data)).
  cbn [do_step]. rewrite E. by rewrite lookup_insert_eq.
Qed.

(** The steps behind the master file's do not change it. *)
Lemma later_touches a2 l1 l2 l3 :
  copies fault (master r) (backup r) (do_steps l1 f) a2 l2 ->
  Forall (touches (fun p => area_path r <> "" /\ below (area_path r) p)) l3 ->
  Forall (touches (fun p => p <> master r)) (l2 ++ l3).
Proof.
  pose proof (rds_row _ _ Hr) as []. intros H2 H3. apply Forall_app_2.
  - eapply Forall_touches; [| by eapply copies_touches]. intros p <-; congruence.
  - eapply Forall_touches; [| exact H3]. intros p Hp ->; tauto.
Qed.

Lemma updates_torn a l d :
  updates fault r data f a l -> torn l d -> intact r f \/ renamed r l ->
  rds_lookup type (do_steps d f) = rds_lookup type f \/ rds_lookup type (do_steps d f) = Some data.
Proof.
  intros [(_ & _ & Hl) | (l1 & l2 & l3 & a1 & a2 & -> & -> & H1 & H2 & H3)] T I.
  { left. apply temp_only. by eapply torn_touches. }
  destruct H1 as [[? _] | (_ & rn & -> & Hrn)]; [done |].
  pose proof (later_touches _ _ _ _ H2 H3) as H23.
  destruct Hrn as [[-> Hf] | ->].
  - (* not renamed *)
    left. rewrite app_nil_r in *. apply torn_app in T as [T | (d2 & -> & T)].
    { by apply temp_only, write_torn. }
    rewrite do_steps_app. set (g := do_steps (_ :: _) f) in *.
    assert (rds_lookup type g = rds_lookup type f) as Eg by (apply temp_only; by repeat constructor).
    rewrite <- Eg. assert (g !! master r = f !! master r) as Em.
    { apply (do_steps_other (eq t)); [by repeat constructor |]. by destruct (rds_row _ _ Hr). }
    destruct I as [I | I].
    2: { exfalso. unfold renamed in I. apply in_app_or in I. destruct I as [I | I].
         - by repeat (destruct I as [I | I]; [done |]).
         - apply (proj1 (List.Forall_forall _ _) H23) in I. by destruct I as [_ ?]. }
    assert (do_steps d2 g !! master r = g !! master r) as Em2.
    { apply (do_steps_other (fun p => p <> master r)); [by eapply torn_touches | tauto]. }
    destruct (g !! master r) as [c|] eqn:Hc.
    + destruct (I c) as [v Hv]; [congruence |]. by rewrite !(lookup_master _ _ _ c v Hr).
    + unfold copies in H2. rewrite Hc in H2. destruct H2 as [_ ->].
      apply lookup_same with r; [done | congruence |].
      apply (do_steps_other _ _ _ _ (torn_touches _ l3 _ T H3)). by destruct (rds_row _ _ Hr).
  - (* renamed *)
    apply torn_app in T as [T | (d2 & -> & T)].
    + rewrite app_comm_cons in T. apply torn_app in T as [T | (d1 & -> & T)].
      { left. by apply temp_only, write_torn. }
      inversion T as [| st l0 d0 T0 |]; subst; [left; rewrite app_nil_r; apply temp_only; by repeat constructor |].
      inversion T0; subst. right. eapply lookup_master; [done | apply renamed_master |].
      by apply rds_value_image.
    + right. eapply lookup_master; [done | | by apply rds_value_image].
      rewrite do_steps_app. rewrite (do_steps_other (fun p => p <> master r));
        [apply renamed_master | by eapply torn_touches | tauto].
Qed.

(** All steps are on the type's own files. *)
Lemma updates_paths a l : updates fault r data f a l -> Forall (touches (row_paths r)) l.
Proof.
  unfold row_paths. intros [(_ & _ & Hl) | (l1 & l2 & l3 & a1 & a2 & -> & -> & H1 & H2 & H3)].
  { eapply Forall_touches; [| exact Hl]. auto. }
  apply Forall_app_2; [| apply Forall_app_2].
  - destruct H1 as [[? _] | (_ & rn & -> & Hrn)]; [done |]. cbn [map app].
    assert (Forall (touches (fun p => p = t \/ p = master r \/ p = backup r \/ area_path r <> "" /\ below (area_path r) p)) rn).
    { destruct Hrn as [[-> _] | ->]; constructor; [cbn; auto | constructor]. }
    repeat (constructor; [by left |]). done.
  - eapply Forall_touches; [| by eapply copies_touches]. intros p <-. auto.
  - eapply Forall_touches; [| exact H3]. tauto.
Qed.

Lemma updates_others a l d type' :
  updates fault r data f a l -> torn l d -> type <> type' ->
  rds_lookup type' (do_steps d f) = rds_lookup type' f.
Proof.
  intros Hl T N. destruct (rds_get_index type') as [r'|] eqn:Hr'; [| unfold rds_lookup; by rewrite Hr'].
  destruct (rds_rows _ _ _ _ Hr Hr' N) as [Hm Hb].
  pose proof (torn_touches _ _ _ T (updates_paths _ _ Hl)).
  eapply lookup_same; [done | by eapply do_steps_other ..].
Qed.

(** If no call fails, the image is in the master and in the backup file. *)
Lemma updates_done a l : ~ faulty fault -> updates fault r data f a l ->
  value_at (do_steps l f) (master r) = Some data /\ value_at (do_steps l f) (backup r) = Some data.
Proof.
  intros NF [(_ & ? & _) | (l1 & l2 & l3 & a1 & a2 & -> & -> & H1 & H2 & H3)]; [done |].
  pose proof (later_touches _ _ _ _ H2 H3) as H23.
  destruct H1 as [[? _] | (_ & rn & -> & [[_ ?] | ->])]; [done .. |].
  rewrite !do_steps_app. set (g := do_steps (_ :: _) f) in *.
  assert (g !! master r = Some (rds_image data)) as Hg by apply renamed_master.
  unfold copies in H2. rewrite Hg in H2. destruct H2 as [[_ ->] | (_ & ? & _)]; [| done].
  pose proof (rds_row _ _ Hr) as [].
  split; unfold value_at.
  - rewrite <- do_steps_app, (do_steps_other (fun p => p <> master r)); [| done | tauto].
    rewrite Hg. by apply rds_value_image.
  - rewrite (do_steps_other _ _ _ _ H3) by done. cbn [do_steps fold_left do_step].
    rewrite !lookup_insert_eq. by apply rds_value_image.
Qed.
End crash.

(** ** Reading with recovery *)

(** What [rds_get] does: nothing, or a copy of the valid backup over the master. *)
Definition gets (fault : nat -> option nat) (r : RDS_ITEM) (buf_len : Z) (f : FS) (a : RDS_RESULT)
    (l : list FS_STEP) : Prop :=
  match a with
  | inl _ => l = [] /\ (faulty fault \/
      (forall v, value_at f (master r) = Some v -> buf_len < len v) /\
      (forall v, value_at f (backup r) = Some v -> buf_len < len v))
  | inr d => rd_len d = len (rd_data d) /\
      (l = [] /\ value_at f (master r) = Some (rd_data d) \/
       value_at f (backup r) = Some (rd_data d) /\
       (faulty fault \/ forall v, value_at f (master r) = Some v -> buf_len < len v) /\
       exists a', copies fault (backup r) (master r) f a' l)
  end.

Lemma emits_rds_get fault f type r buf_len :
  rds_get_index type = Some r -> small f -> 0 <= buf_len ->
  emits f (rds_get fault type buf_len) (gets fault r buf_len f).
Proof.
  intros Hr Hs Hb. unfold rds_get. rewrite Hr.
  eapply emits_bind_pure; [by apply emits_rds_read |]. intros [e | d] H1.
  2: { destruct H1 as [Hv Hl]. apply emits_ret. split; [done | by left]. }
  rewrite (rf_attr _ (rds_row _ _ Hr)).
  eapply emits_bind_pure; [by apply emits_rds_read |]. intros [e2 | d] H2.
  { apply emits_ret. split; [done |]. cbn in H1, H2. tauto. }
  destruct H2 as [Hv Hl]. eapply emits_bind; [apply emits_copy |]. intros a' l Hc. apply emits_ret.
  split; [done | right]. rewrite app_nil_r. split; [done |]. split; [exact H1 | by exists a'].
Qed.

Section get.
Context (fault : nat -> option nat) (type : Z) (r : RDS_ITEM) (buf_len : Z) (f : FS).
Context (Hr : rds_get_index type = Some r).

Lemma gets_touches a l : gets fault r buf_len f a l -> Forall (touches (eq (master r))) l.
Proof.
  destruct a as [e | d]; cbn [gets]; [by intros [-> _] |].
  intros [_ [[-> _] | (_ & _ & a' & Hc)]]; [constructor | by eapply copies_touches].
Qed.

(** However far it gets, the type has valid data if it had: the master's or the
    backup's. *)
Lemma gets_torn a l d v :
  gets fault r buf_len f a l -> torn l d -> rds_lookup type f = Some v ->
  exists v', rds_lookup type (do_steps d f) = Some v' /\
    (value_at f (master r) = Some v' \/ value_at f (backup r) = Some v').
Proof.
  intros G T Hv. pose proof (rds_row _ _ Hr) as [].
  assert (d = [] -> exists v', rds_lookup type (do_steps d f) = Some v' /\
    (value_at f (master r) = Some v' \/ value_at f (backup r) = Some v')) as Hnil.
  { intros ->. exists v. split; [done |]. rewrite (lookup_row _ _ _ Hr) in Hv.
    destruct (value_at f (master r)); auto. }
  assert (l = [] -> d = []) as Hl by (intros ->; by inversion T).
  destruct a as [e | x]; cbn [gets] in G; [destruct G as [-> _]; auto |].
  destruct G as [_ [[-> _] | (Hx & _ & a' & Hc)]]; [auto |].
  destruct (copies_value _ _ _ _ _ _ _ _ (not_eq_sym rf_mb0) Hc T Hx) as [Eb Em].
  destruct Em as [? | Em]; [auto |]. exists (rd_data x). split; [| auto].
  by eapply lookup_backup.
Qed.

(** Without failures and with a buffer that is large enough nothing changes but
    the master file, to the same value. *)
Lemma gets_clean a l d :
  ~ faulty fault ->
  (forall v, rds_lookup type f = Some v -> len v <= buf_len) ->
  gets fault r buf_len f a l -> torn l d ->
  rds_lookup type (do_steps d f) = rds_lookup type f /\
  match rds_lookup type f with
  | Some v => exists x, a = inr x /\ rd_data x = v /\ rd_len x = len v /\ value_at (do_steps l f) (master r) = Some v
  | None => (exists e, a = inl e) /\ l = []
  end.
Proof.
  intros NF Hbuf G T. pose proof (rds_row _ _ Hr) as [].
  assert (forall v, rds_lookup type f = Some v -> ~ buf_len < len v) as Hbuf2 by (intros v Hv; apply Hbuf in Hv; lia).
  rewrite (lookup_row _ _ _ Hr) in Hbuf2.
  destruct a as [e | x]; cbn [gets] in G.
  - destruct G as [-> [? | [Hm Hb]]]; [done |]. inversion T; subst. split; [done |].
    rewrite (lookup_row _ _ _ Hr). destruct (value_at f (master r)) as [v|] eqn:Em.
    { by destruct (Hbuf2 _ eq_refl (Hm v eq_refl)). }
    destruct (value_at f (backup r)) as [v|] eqn:Eb; [by destruct (Hbuf2 _ eq_refl (Hb v eq_refl)) |].
    split; [by exists e | done].
  - destruct G as [Hx [[-> Hm] | (Hb & [? | Hm] & a' & Hc)]]; [| done |].
    + inversion T; subst. split; [done |]. rewrite (lookup_row _ _ _ Hr), Hm. by exists x.
    + assert (value_at f (master r) = None) as Em.
      { destruct (value_at f (master r)) as [v|] eqn:Em; [| done]. by destruct (Hbuf2 _ eq_refl (Hm v eq_refl)). }
      pose proof (lookup_backup _ _ _ _ Hr (or_introl Em) Hb) as El.
      rewrite El. destruct (copies_value _ _ _ _ _ _ _ _ (not_eq_sym rf_mb0) Hc T Hb) as [Eb Ed].
      split; [destruct Ed as [-> | Ed]; [exact El | by eapply lookup_backup] |].
      exists x. split; [done |]. split; [done |]. split; [done |].
      unfold copies, value_at in *. destruct (f !! backup r) as [c|]; [| done].
      destruct Hc as [[_ ->] | (_ & ? & _)]; [| done]. cbn [do_steps fold_left do_step].
      by rewrite !lookup_insert_eq.
Qed.
End get.

(** ** Properties *)

(** C3: If the master file was intact before or the rename of the update is not lost, a
    loss of power at any point of [rds_update_once], whatever calls fail, leaves the
    type with its old or with the new data. The other types keep theirs in any case, and
    if no call fails both the master and the backup hold the new data. With a damaged
    master and a failing rename the data is lost ([rds_update_loses_backup]). *)
Theorem rds_update_crash_safe fault ls type r data s :
  (forall f d, Forall (entry_below d) (ls f d)) ->
  rds_get_index type = Some r -> bytes_ok (fs s) -> Forall is_byte data -> 0 < len data < 2 ^ 32 ->
  exists ret s' l, rds_update_once fault ls type (Some data) s = Some (ret, s') /\
    trace s' = trace s ++ l /\ fs s' = do_steps l (fs s) /\
    (forall d, torn l d -> intact r (fs s) \/ renamed r l ->
       rds_lookup type (do_steps d (fs s)) = rds_lookup type (fs s) \/
       rds_lookup type (do_steps d (fs s)) = Some data) /\
    (forall d type', torn l d -> type <> type' ->
       rds_lookup type' (do_steps d (fs s)) = rds_lookup type' (fs s)) /\
    (~ faulty fault -> value_at (fs s') (master r) = Some data /\ value_at (fs s') (backup r) = Some data).
Proof.
  intros Hls Hr Hb Hd Ld.
  destruct (emits_rds_update fault ls Hls (fs s) type r data Hr Hd Ld s eq_refl Hb)
    as (ret & s' & l & E & T & F & _ & U).
  exists ret, s', l. split; [done |]. split; [done |]. split; [done |]. split; [| split].
  - intros d. by eapply updates_torn.
  - intros d type'. by eapply updates_others.
  - rewrite F. intros NF. by eapply updates_done.
Qed.

(** C8: [rds_get] returns the data of the type, from the backup if the master file
    is not valid, which it then restores; a loss of power in it never leaves the
    type without valid data.  Without failing calls and with a buffer that is large
    enough the result is exactly the data and the data never changes. *)
Theorem rds_get_recovers fault type r buf_len s :
  rds_get_index type = Some r -> bytes_ok (fs s) -> small (fs s) -> 0 <= buf_len ->
  exists a s' l, rds_get fault type buf_len s = Some (a, s') /\
    trace s' = trace s ++ l /\ fs s' = do_steps l (fs s) /\
    (forall d v, torn l d -> rds_lookup type (fs s) = Some v ->
       exists v', rds_lookup type (do_steps d (fs s)) = Some v' /\
         (value_at (fs s) (master r) = Some v' \/ value_at (fs s) (backup r) = Some v')) /\
    (~ faulty fault -> (forall v, rds_lookup type (fs s) = Some v -> len v <= buf_len) ->
       (forall d, torn l d -> rds_lookup type (do_steps d (fs s)) = rds_lookup type (fs s)) /\
       match rds_lookup type (fs s) with
       | Some v => exists x, a = inr x /\ rd_data x = v /\ rd_len x = len v /\
                             value_at (fs s') (master r) = Some v
       | None => (exists e, a = inl e) /\ l = []
       end).
Proof.
  intros Hr Hb Hs Hbuf.
  destruct (emits_rds_get fault (fs s) type r buf_len Hr Hs Hbuf s eq_refl Hb)
    as (a & s' & l & E & T & F & _ & G).
  exists a, s', l. split; [done |]. split; [done |]. split; [done |]. split.
  - intros d v. by eapply gets_torn.
  - intros NF HB. rewrite F. split.
    + intros d Hd. by eapply gets_clean.
    + eapply gets_clean; [done .. | apply torn_refl].
Qed.

Definition row0 : RDS_ITEM := data_item 0 "dev_info.dat".
Definition no_fault (n : nat) : option nat := None.
Definition empty_ls (f : FS) (d : string) : list FTSENT := [].

(** The first update of a type on an empty disk. *)
Lemma rds_update_crash_safe_witness :
  exists ret s' l,
    rds_update_once no_fault empty_ls 0 (Some [1; 2; 3]) {| fs := ∅; trace := []; tick := 0 |} = Some (ret, s') /\
    (forall d, torn l d -> rds_lookup 0 (do_steps d ∅) = None \/ rds_lookup 0 (do_steps d ∅) = Some [1; 2; 3]) /\
    value_at (fs s') (master row0) = Some [1; 2; 3].
Proof.
  destruct (rds_update_crash_safe no_fault empty_ls 0 row0 [1; 2; 3] {| fs := ∅; trace := []; tick := 0 |})
    as (ret & s' & l & E & _ & _ & Hc & _ & Hn).
  - intros f d. constructor.
  - reflexivity.
  - intros p c H. discriminate.
  - repeat constructor; discriminate.
  - split; reflexivity.
  - exists ret, s', l. split; [exact E |]. split.
    + intros d T. apply (Hc d T). left. intros c H. discriminate.
    + apply Hn. intros [n [k H]]. discriminate.
Defined.

(** The master file is damaged, the backup is restored. *)
Definition damaged : FS := {[ master row0 := [7]; backup row0 := rds_image [1; 2; 3] ]}.

Lemma rds_get_recovers_witness :
  exists a s' l,
    rds_get no_fault 0 1000 {| fs := damaged; trace := []; tick := 0 |} = Some (a, s') /\
    forall d, torn l d -> exists v', rds_lookup 0 (do_steps d damaged) = Some v'.
Proof.
  assert (forall p c, damaged !! p = Some c -> c = [7] \/ c = rds_image [1; 2; 3]) as Hd.
  { intros p c. unfold damaged. intros [[_ <-] | [_ H]]%lookup_insert_Some; [by left |].
    apply lookup_singleton_Some in H as [_ <-]. by right. }
  destruct (rds_get_recovers no_fault 0 row0 1000 {| fs := damaged; trace := []; tick := 0 |})
    as (a & s' & l & E & _ & _ & Hc & _).
  - reflexivity.
  - intros p c H. destruct (Hd p c H) as [-> | ->]; vm_compute; repeat constructor; discriminate.
  - intros p c H. destruct (Hd p c H) as [-> | ->]; vm_compute; reflexivity.
  - discriminate.
  - exists a, s', l. split; [exact E |]. intros d T. destruct (Hc d [1; 2; 3] T) as (v' & Hv & _).
    + vm_compute. reflexivity.
    + by exists v'.
Defined.

(** A rename that fails is only logged: if the master file is damaged it is then
    copied over the valid backup, and the data is lost. *)
Definition rename_fails (n : nat) : option nat := if (n =? 4)%nat then Some 0%nat else None.

Example rds_update_loses_backup :
  rds_lookup 0 damaged = Some [1; 2; 3] /\
  option_map (fun x => (fst x, rds_lookup 0 (fs (snd x))))
    (rds_update_once rename_fails empty_ls 0 (Some [4]) {| fs := damaged; trace := []; tick := 0 |}) =
  Some (0, None).
Proof. split; vm_compute; reflexivity. Qed.
