(* ===== verification/Cfg.v ===== *)
(** * Configuration parameters (src/app/base/cfg/cfg_para.c)

    The parameters of the box lie in one buffer at the offsets that [cfg_init_para]
    computes from the table of src/app/base/cfg/cfg_para_def.h.  They are set and read
    by number; a module registers to hear of changes; the buffer as a whole is one type
    of data of the reliable data store ([Rds]).

    A callback of a module is a number, its calls are logged with the arrays that it is
    given; the C code ignores its result.  What is not in the C program's hands are
    arguments: the bytes in memory behind an object that is read or written past its end
    ([behind]), what a failed [rds_get] leaves in the buffer ([left]: it reads the data
    into it before it compares the digest) and the version that was never written
    ([ver0]).  The theorems are in [CfgProps]. *)

From stdpp Require Import gmap strings.
From S2P Require Import Prelude Md5 File Dir Rds.

Open Scope list_scope.
Open Scope Z_scope.

(** ** Constants *)

Definition CFG_PARA_MAX_MEMBER_CNT : Z := 6.
Definition CFG_MAX_PARA_LEN : Z := 512.
Definition CFG_PARA_BUF_LEN : Z := 5 * 1024.
Definition CFG_MAX_REG_ITEM_NUM : Z := 128.
Definition CFG_SET_UNSILENT : Z := 0.
Definition CFG_SET_SILENT : Z := 1.
Definition RDS_SYS_CFG : Z := 4.

Definition CFG_INVALID_PARAMETER : Z := Z.lor (Z.shiftl 0x0200 16) 1.
Definition CFG_TABLE_OVERFLOW : Z := CFG_INVALID_PARAMETER + 1.
Definition CFG_TABLE_UPDATE_PARA_FAILED : Z := CFG_INVALID_PARAMETER + 2.
Definition CFG_CHECK_CFG_TABLE_FAILED : Z := CFG_INVALID_PARAMETER + 4.
Definition CFG_PARA_OVERFLOW : Z := CFG_INVALID_PARAMETER + 5.

Definition DEFAULT_SSID : String.string := "foton_tbox".
Definition DEFAULT_PASSWORD : String.string := "12345678".
Definition HIGH_MODEL_CODE : String.string := "H4794010002A0".
Definition HW_VERSION : String.string := "H4HA0002180814".
Definition MODEL_NUM : String.string := "YLA02".
Definition UDS_12V_POWER : Z := 12.

(** [CFG_PARA_ITEM_ID] *)
Definition CFG_ITEM_SN_NUM : Z := 0.
Definition CFG_ITEM_DEV_NUM : Z := 1.
Definition CFG_ITEM_SLEEP_MODE : Z := 2.
Definition CFG_ITEM_LOCAL_APN : Z := 3.
Definition CFG_ITEM_LOC_APN_AUTH : Z := 4.
Definition CFG_ITEM_WAN_APN : Z := 5.
Definition CFG_ITEM_WAN_APN_AUTH : Z := 6.
Definition CFG_ITEM_DBC_PATH : Z := 7.
Definition CFG_ITEM_WIFI_SET : Z := 8.
Definition CFG_ITEM_DCOM_SET : Z := 9.
Definition CFG_ITEM_NET_TYPE : Z := 10.
Definition CFG_ITEM_WIFI_MAXASSOC : Z := 11.
Definition CFG_ITEM_WIFI_SSID : Z := 12.
Definition CFG_ITEM_WIFI_KEY : Z := 13.
Definition CFG_ITEM_ICALL : Z := 14.
Definition CFG_ITEM_BCALL : Z := 15.
Definition CFG_ITEM_WHITE_LIST : Z := 16.
Definition CFG_ITEM_SLEEP_TIME : Z := 17.
Definition CFG_ITEM_DSLEEP_TIME : Z := 18.
Definition CFG_ITEM_VTD : Z := 19.
Definition CFG_ITEM_ACC_THS : Z := 20.
Definition CFG_ITEM_ICALL_F : Z := 21.
Definition CFG_ITEM_BCALL_F : Z := 22.
Definition CFG_ITEM_ECALL_F : Z := 23.
Definition CFG_ITEM_CAN_DEFAULT_BAUD_0 : Z := 24.
Definition CFG_ITEM_CAN_DEFAULT_BAUD_1 : Z := 25.
Definition CFG_ITEM_CAN_DEFAULT_BAUD_2 : Z := 26.
Definition CFG_ITEM_CAN_DEFAULT_BAUD_3 : Z := 27.
Definition CFG_ITEM_CAN_DEFAULT_BAUD_4 : Z := 28.
Definition CFG_ITEM_LOG_ENABLE : Z := 29.
Definition CFG_ITEM_RTC_WAKEUP_TIME : Z := 30.
Definition CFG_ITEM_BAT_TYPE : Z := 31.
Definition CFG_ITEM_GB32960_VIN : Z := 32.
Definition CFG_ITEM_GB32960_URL : Z := 33.
Definition CFG_ITEM_GB32960_PORT : Z := 34.
Definition CFG_ITEM_GB32960_INTERVAL : Z := 35.
Definition CFG_ITEM_GB32960_REGINTV : Z := 36.
Definition CFG_ITEM_GB32960_TIMEOUT : Z := 37.
Definition CFG_ITEM_GB32960_REGSEQ : Z := 38.
Definition CFG_ITEM_DSU_AUTHKEY : Z := 39.
Definition CFG_ITEM_DSU_CANLOG_TIME : Z := 40.
Definition CFG_ITEM_DSU_CANLOG_MODE : Z := 41.
Definition CFG_ITEM_DSU_SDHZ : Z := 42.
Definition CFG_ITEM_DSU_HOURFILE : Z := 43.
Definition CFG_ITEM_DSU_LOOPFILE : Z := 44.
Definition CFG_ITEM_FOTON_VIN : Z := 45.
Definition CFG_ITEM_FOTON_URL : Z := 46.
Definition CFG_ITEM_FOTON_PORT : Z := 47.
Definition CFG_ITEM_FOTON_INTERVAL : Z := 48.
Definition CFG_ITEM_FOTON_REGINTV : Z := 49.
Definition CFG_ITEM_FOTON_TIMEOUT : Z := 50.
Definition CFG_ITEM_FT_UDS_REPAIR_SHOP_CODE : Z := 51.
Definition CFG_ITEM_FT_UDS_AVN_SERIAL_NUMBER : Z := 52.
Definition CFG_ITEM_FT_UDS_VEHICLE_TYPE : Z := 53.
Definition CFG_ITEM_CAN2_AUTO_BAUD : Z := 54.
Definition CFG_ITEM_FT_UDS_POWER : Z := 55.
Definition CFG_ITEM_FUELCELL : Z := 56.
Definition CFG_ITEM_PART_NUM : Z := 57.
Definition CFG_ITEM_FT_UDS_HW : Z := 58.
Definition CFG_ITEM_INTEST_HW : Z := 59.
Definition CFG_ITEM_FT_HBINTV : Z := 60.
Definition CFG_ITEM_FT_REGISTER : Z := 61.
Definition CFG_ITEM_FT_TID : Z := 62.
Definition CFG_ITEM_FT_SIM : Z := 63.
Definition CFG_ITEM_FT_DTN : Z := 64.
Definition CFG_ITEM_FT_DEV_TYPE : Z := 65.
Definition CFG_ITEM_FT_DEV_SN : Z := 66.
Definition CFG_ITEM_FT_TYPE : Z := 67.
Definition CFG_ITEM_FT_PORT : Z := 68.
Definition CFG_ITEM_FTTSP_VIN : Z := 69.
Definition CFG_ITEM_FTTSP_URL : Z := 70.
Definition CFG_ITEM_FTTSP_PORT : Z := 71.
Definition CFG_ITEM_FTTSP_INTERVAL : Z := 72.
Definition CFG_ITEM_FTTSP_TUKEY : Z := 73.
Definition CFG_ITEM_ID_MAX : Z := 74.

(** ** The table *)

Inductive CFG_DATA_TYPE :=
  | CFG_DATA_UINT | CFG_DATA_USHORT | CFG_DATA_UCHAR | CFG_DATA_STRING | CFG_DATA_DOUBLE | CFG_DATA_INVALID.

(** The names of the members are only printed. *)
Record CFG_ITEM_INFO := {
  itemid : Z; item_len : Z; item_offset : Z; member : list (CFG_DATA_TYPE * Z)
}.

(** The members, the end, and what C fills the rest of the array with. *)
Definition row (id : Z) (m : list (CFG_DATA_TYPE * Z)) : CFG_ITEM_INFO := {|
  itemid := id; item_len := 0; item_offset := 0;
  member := m ++ [(CFG_DATA_INVALID, 0)] ++
    replicate (Z.to_nat (CFG_PARA_MAX_MEMBER_CNT - 1 - len m)) (CFG_DATA_UINT, 0) |}.

Definition cfg_table_rows : list CFG_ITEM_INFO := [
  row CFG_ITEM_SN_NUM [(CFG_DATA_UINT, 4)];
  row CFG_ITEM_DEV_NUM [(CFG_DATA_UINT, 4)];
  row CFG_ITEM_SLEEP_MODE [(CFG_DATA_UCHAR, 1)];
  row CFG_ITEM_LOCAL_APN [(CFG_DATA_STRING, 32)];
  row CFG_ITEM_LOC_APN_AUTH [(CFG_DATA_STRING, 32); (CFG_DATA_STRING, 32)];
  row CFG_ITEM_WAN_APN [(CFG_DATA_STRING, 32)];
  row CFG_ITEM_WAN_APN_AUTH [(CFG_DATA_STRING, 32); (CFG_DATA_STRING, 32)];
  row CFG_ITEM_DBC_PATH [(CFG_DATA_STRING, 256)];
  row CFG_ITEM_WIFI_SET [(CFG_DATA_UCHAR, 1)];
  row CFG_ITEM_DCOM_SET [(CFG_DATA_UCHAR, 1)];
  row CFG_ITEM_NET_TYPE [(CFG_DATA_UCHAR, 1)];
  row CFG_ITEM_WIFI_MAXASSOC [(CFG_DATA_UCHAR, 1)];
  row CFG_ITEM_WIFI_SSID [(CFG_DATA_STRING, 32)];
  row CFG_ITEM_WIFI_KEY [(CFG_DATA_STRING, 32)];
  row CFG_ITEM_ICALL [(CFG_DATA_STRING, 32)];
  row CFG_ITEM_BCALL [(CFG_DATA_STRING, 32)];
  row CFG_ITEM_WHITE_LIST [(CFG_DATA_STRING, 512)];
  row CFG_ITEM_SLEEP_TIME [(CFG_DATA_UINT, 4)];
  row CFG_ITEM_DSLEEP_TIME [(CFG_DATA_UINT, 4)];
  row CFG_ITEM_VTD [(CFG_DATA_UCHAR, 1)];
  row CFG_ITEM_ACC_THS [(CFG_DATA_USHORT, 2)];
  row CFG_ITEM_ICALL_F [(CFG_DATA_UCHAR, 1)];
  row CFG_ITEM_BCALL_F [(CFG_DATA_UCHAR, 1)];
  row CFG_ITEM_ECALL_F [(CFG_DATA_UCHAR, 1)];
  row CFG_ITEM_CAN_DEFAULT_BAUD_0 [(CFG_DATA_USHORT, 2)];
  row CFG_ITEM_CAN_DEFAULT_BAUD_1 [(CFG_DATA_USHORT, 2)];
  row CFG_ITEM_CAN_DEFAULT_BAUD_2 [(CFG_DATA_USHORT, 2)];
  row CFG_ITEM_CAN_DEFAULT_BAUD_3 [(CFG_DATA_USHORT, 2)];
  row CFG_ITEM_CAN_DEFAULT_BAUD_4 [(CFG_DATA_USHORT, 2)];
  row CFG_ITEM_LOG_ENABLE [(CFG_DATA_UCHAR, 1)];
  row CFG_ITEM_RTC_WAKEUP_TIME [(CFG_DATA_UINT, 4)];
  row CFG_ITEM_BAT_TYPE [(CFG_DATA_UCHAR, 1)];
  row CFG_ITEM_GB32960_VIN [(CFG_DATA_STRING, 18)];
  row CFG_ITEM_GB32960_URL [(CFG_DATA_STRING, 256)];
  row CFG_ITEM_GB32960_PORT [(CFG_DATA_USHORT, 2)];
  row CFG_ITEM_GB32960_INTERVAL [(CFG_DATA_USHORT, 2)];
  row CFG_ITEM_GB32960_REGINTV [(CFG_DATA_USHORT, 2)];
  row CFG_ITEM_GB32960_TIMEOUT [(CFG_DATA_USHORT, 2)];
  row CFG_ITEM_GB32960_REGSEQ [(CFG_DATA_UINT, 4)];
  row CFG_ITEM_DSU_AUTHKEY [(CFG_DATA_STRING, 256)];
  row CFG_ITEM_DSU_CANLOG_TIME [(CFG_DATA_USHORT, 2)];
  row CFG_ITEM_DSU_CANLOG_MODE [(CFG_DATA_UCHAR, 1)];
  row CFG_ITEM_DSU_SDHZ [(CFG_DATA_UCHAR, 1)];
  row CFG_ITEM_DSU_HOURFILE [(CFG_DATA_UCHAR, 1)];
  row CFG_ITEM_DSU_LOOPFILE [(CFG_DATA_UCHAR, 1)];
  row CFG_ITEM_FOTON_VIN [(CFG_DATA_STRING, 18)];
  row CFG_ITEM_FOTON_URL [(CFG_DATA_STRING, 256)];
  row CFG_ITEM_FOTON_PORT [(CFG_DATA_USHORT, 2)];
  row CFG_ITEM_FOTON_INTERVAL [(CFG_DATA_USHORT, 2)];
  row CFG_ITEM_FOTON_REGINTV [(CFG_DATA_USHORT, 2)];
  row CFG_ITEM_FOTON_TIMEOUT [(CFG_DATA_USHORT, 2)];
  row CFG_ITEM_FT_UDS_REPAIR_SHOP_CODE [(CFG_DATA_STRING, 10)];
  row CFG_ITEM_FT_UDS_AVN_SERIAL_NUMBER [(CFG_DATA_STRING, 16)];
  row CFG_ITEM_FT_UDS_VEHICLE_TYPE [(CFG_DATA_UCHAR, 1)];
  row CFG_ITEM_CAN2_AUTO_BAUD [(CFG_DATA_USHORT, 2)];
  row CFG_ITEM_FT_UDS_POWER [(CFG_DATA_UCHAR, 1)];
  row CFG_ITEM_FUELCELL [(CFG_DATA_UCHAR, 1)];
  row CFG_ITEM_PART_NUM [(CFG_DATA_STRING, 14)];
  row CFG_ITEM_FT_UDS_HW [(CFG_DATA_STRING, 14)];
  row CFG_ITEM_INTEST_HW [(CFG_DATA_STRING, 32)];
  row CFG_ITEM_FT_HBINTV [(CFG_DATA_USHORT, 2)];
  row CFG_ITEM_FT_REGISTER [(CFG_DATA_UCHAR, 1)];
  row CFG_ITEM_FT_TID [(CFG_DATA_STRING, 7)];
  row CFG_ITEM_FT_SIM [(CFG_DATA_STRING, 13)];
  row CFG_ITEM_FT_DTN [(CFG_DATA_STRING, 29)];
  row CFG_ITEM_FT_DEV_TYPE [(CFG_DATA_STRING, 10)];
  row CFG_ITEM_FT_DEV_SN [(CFG_DATA_STRING, 13)];
  row CFG_ITEM_FT_TYPE [(CFG_DATA_UCHAR, 1)];
  row CFG_ITEM_FT_PORT [(CFG_DATA_UCHAR, 1)];
  row CFG_ITEM_FTTSP_VIN [(CFG_DATA_STRING, 18)];
  row CFG_ITEM_FTTSP_URL [(CFG_DATA_STRING, 256)];
  row CFG_ITEM_FTTSP_PORT [(CFG_DATA_USHORT, 2)];
  row CFG_ITEM_FTTSP_INTERVAL [(CFG_DATA_USHORT, 2)];
  row CFG_ITEM_FTTSP_TUKEY [(CFG_DATA_STRING, 17)]
].

(** ** State *)

(** The numbers of the callbacks by item. *)
Abbreviation CFG_REG_ITEM := (Z * nat)%type.

(** A call of a callback with the arrays of the old and the new value and their length. *)
Inductive CFG_CALL := CfgChanged (cb : nat) (id : Z) (old_para new_para : list Z) (para_len : Z).

Record CFG := {
  cfg_para_buf : list Z; cfg_table : list CFG_ITEM_INFO; cfg_para_status : bool;
  cfg_regtbl : list CFG_REG_ITEM; cfg_calls : list CFG_CALL; files : FILES
}.

(** The variables before [cfg_init_para]. *)
Definition cfg_start (f : FILES) : CFG := {|
  cfg_para_buf := replicate (Z.to_nat CFG_PARA_BUF_LEN) 0; cfg_table := cfg_table_rows; cfg_para_status := true;
  cfg_regtbl := []; cfg_calls := []; files := f |}.

Definition on_files {A} (m : FM A) : ST CFG A := fun s =>
  '(a, f) ← m (files s); Some (a, {| s with files := f |}).

(** ** Initialisation *)

Definition cfg_para_check (type : CFG_DATA_TYPE) (n : Z) : Z :=
  match type with
  | CFG_DATA_UINT => if negb (n =? 4) then CFG_INVALID_PARAMETER else 0
  | CFG_DATA_USHORT => if negb (n =? 2) then CFG_INVALID_PARAMETER else 0
  | CFG_DATA_UCHAR => if negb (n =? 1) then CFG_INVALID_PARAMETER else 0
  | CFG_DATA_DOUBLE => if negb (n =? 8) then CFG_INVALID_PARAMETER else 0
  | CFG_DATA_STRING => if n <=? 1 then CFG_INVALID_PARAMETER else 0
  | CFG_DATA_INVALID => CFG_INVALID_PARAMETER
  end.

(** The size of a row, [None] if the check of a member fails. *)
Fixpoint item_size (m : list (CFG_DATA_TYPE * Z)) (size : Z) : option Z :=
  match m with
  | [] | (CFG_DATA_INVALID, _) :: _ => Some size
  | (type, n) :: m => if negb (cfg_para_check type n =? 0) then None else item_size m (s32 (size + n))
  end.

(** The rows with their lengths and offsets, and the error. *)
Fixpoint layout (rows : list CFG_ITEM_INFO) (offset : Z) : Z * list CFG_ITEM_INFO :=
  match rows with
  | [] => (0, [])
  | r :: rows =>
      match item_size (member r) 0 with
      | None => (CFG_CHECK_CFG_TABLE_FAILED, r :: rows)
      | Some size =>
          let '(ret, rows) := layout rows (s32 (offset + size)) in
          (ret, {| r with item_len := u32 size; item_offset := u32 offset |} :: rows)
      end
  end.

Definition cfg_init_para : ST CFG Z :=
  st_mod (fun s => {| s with cfg_para_buf := replicate (Z.to_nat CFG_PARA_BUF_LEN) 0; cfg_regtbl := [] |});;
  s ← st_get;
  let '(ret, rows) := layout (cfg_table s) 0 in
  st_mod (fun s => {| s with cfg_table := rows |});;
  if negb (ret =? 0) then mret ret
  else
    r ← st_lift (mem_get rows (len rows - 1));
    mret (if CFG_PARA_BUF_LEN <? u32 (item_offset r + item_len r) then CFG_PARA_OVERFLOW else 0).

(** ** Reading, setting, callbacks *)

Definition cfg_register (id : Z) (onchanged : option nat) : ST CFG Z :=
  match onchanged with
  | None => mret CFG_INVALID_PARAMETER
  | Some cb =>
      s ← st_get;
      if CFG_MAX_REG_ITEM_NUM <=? len (cfg_regtbl s) then mret CFG_TABLE_OVERFLOW
      else st_mod (fun s => {| s with cfg_regtbl := cfg_regtbl s ++ [(id, cb)] |});; mret 0
  end.

(** The result, the array and its length. *)
Definition cfg_get_para (id : Z) (data : option (list Z)) (n : option Z) : ST CFG (Z * option (list Z) * option Z) :=
  match data, n with
  | Some d, Some n0 =>
      if CFG_ITEM_ID_MAX <=? id then mret (CFG_INVALID_PARAMETER, data, n)
      else
        s ← st_get;
        r ← st_lift (mem_get (cfg_table s) id);
        if n0 <? item_len r then mret (CFG_INVALID_PARAMETER, data, n)
        else
          d ← st_lift (memcpy d 0 (cfg_para_buf s) (item_offset r) (item_len r));
          mret (0, Some d, Some (item_len r))
  | _, _ => mret (CFG_INVALID_PARAMETER, data, n)
  end.

(** [data] is the memory at the pointer. *)
Definition cfg_set_para_im (id : Z) (data : option (list Z)) (n : Z) : ST CFG Z :=
  match data with
  | None => mret CFG_INVALID_PARAMETER
  | Some d =>
      if CFG_ITEM_ID_MAX <=? id then mret CFG_INVALID_PARAMETER
      else
        s ← st_get;
        r ← st_lift (mem_get (cfg_table s) id);
        if negb (n =? item_len r) then mret CFG_INVALID_PARAMETER
        else
          b ← st_lift (memcpy (cfg_para_buf s) (item_offset r) d 0 n);
          st_mod (fun s => {| s with cfg_para_buf := b |});; mret 0
  end.

Definition zero_para : list Z := replicate (Z.to_nat CFG_MAX_PARA_LEN) 0.

Fixpoint cfg_notify_loop (l : list CFG_REG_ITEM) (id : Z) (old_para : list Z) (para_len : Z) : ST CFG Z :=
  match l with
  | [] => mret 0
  | (i, cb) :: l =>
      if i =? id then
        '(ret, newpara, new_para_len) ← cfg_get_para id (Some zero_para) (Some CFG_MAX_PARA_LEN);
        if negb (ret =? 0) || negb (bool_decide (new_para_len = Some para_len)) then mret ret
        else
          st_mod (fun s => {| s with cfg_calls := cfg_calls s ++ [CfgChanged cb id old_para (default [] newpara) para_len] |});;
          cfg_notify_loop l id old_para para_len
      else cfg_notify_loop l id old_para para_len
  end.

Definition cfg_notify_changed (id : Z) (old_para : list Z) (para_len : Z) : ST CFG Z :=
  s ← st_get; cfg_notify_loop (cfg_regtbl s) id old_para para_len.

Section cfg.
Context (fault : nat -> option nat).
Context (ls : FS -> String.string -> list FTSENT).
Context (behind : Z -> list Z) (left ver0 : list Z).

Definition cfg_save_para : ST CFG Z :=
  s ← st_get; on_files (rds_update_once fault ls RDS_SYS_CFG (Some (cfg_para_buf s))).

Definition cfg_set_by_id (id : Z) (data : option (list Z)) (n silent : Z) : ST CFG Z :=
  if CFG_ITEM_ID_MAX <=? id then mret CFG_INVALID_PARAMETER
  else
    '(ret, oldpara, paralen) ← cfg_get_para id (Some zero_para) (Some CFG_MAX_PARA_LEN);
    if negb (ret =? 0) || negb (bool_decide (paralen = Some n)) then mret CFG_INVALID_PARAMETER
    else
      ret ← cfg_set_para_im id data n;
      if negb (ret =? 0) then mret CFG_TABLE_UPDATE_PARA_FAILED
      else
        (if silent =? 0
         then cfg_save_para;; cfg_notify_changed id (default [] oldpara) n;; mret tt
         else mret tt);;
        mret 0.

Definition cfg_set_para (id : Z) (data : option (list Z)) (n : Z) : ST CFG Z :=
  cfg_set_by_id id data n CFG_SET_UNSILENT.

(** ** Defaults *)

(** A call of [cfg_set_default_para]: the item, the object, the string that [strcpy]
    copies into it, the length. *)
Record CFG_DEFAULT := { d_id : Z; d_obj : list Z; d_str : option (list Z); d_len : Z }.

Definition lit_str (s : String.string) : list Z := c_chars s ++ [0].
Definition d_int (id w v : Z) : CFG_DEFAULT :=
  {| d_id := id; d_obj := le_bytes (Z.to_nat w) v; d_str := None; d_len := w |}.
Definition d_lit (id : Z) (s : String.string) (n : Z) : CFG_DEFAULT :=
  {| d_id := id; d_obj := lit_str s; d_str := None; d_len := n |}.
Definition d_arr (id n : Z) (s : option (list Z)) : CFG_DEFAULT :=
  {| d_id := id; d_obj := replicate (Z.to_nat n) 0; d_str := s; d_len := n |}.

Definition default_paras : list CFG_DEFAULT := [
  d_int CFG_ITEM_CAN_DEFAULT_BAUD_0 2 0;
  d_int CFG_ITEM_CAN_DEFAULT_BAUD_1 2 0;
  d_int CFG_ITEM_CAN_DEFAULT_BAUD_2 2 0;
  d_int CFG_ITEM_CAN_DEFAULT_BAUD_3 2 0;
  d_int CFG_ITEM_CAN_DEFAULT_BAUD_4 2 0;
  d_int CFG_ITEM_FT_UDS_VEHICLE_TYPE 1 0xff;
  d_int CFG_ITEM_FT_UDS_POWER 1 UDS_12V_POWER;
  {| d_id := CFG_ITEM_DBC_PATH; d_obj := [0]; d_str := None; d_len := 256 |};
  d_int CFG_ITEM_SLEEP_MODE 1 3;
  d_lit CFG_ITEM_WAN_APN "ctnet" 32;
  d_arr CFG_ITEM_WAN_APN_AUTH 64 None;
  d_lit CFG_ITEM_LOCAL_APN "" 32;
  d_arr CFG_ITEM_LOC_APN_AUTH 64 None;
  d_int CFG_ITEM_WIFI_SET 1 0;
  d_int CFG_ITEM_DCOM_SET 1 1;
  d_int CFG_ITEM_NET_TYPE 1 0;
  d_int CFG_ITEM_WIFI_MAXASSOC 1 8;
  d_lit CFG_ITEM_WIFI_SSID DEFAULT_SSID 32;
  d_lit CFG_ITEM_WIFI_KEY DEFAULT_PASSWORD 32;
  d_lit CFG_ITEM_ICALL "95190738" 32;
  d_lit CFG_ITEM_BCALL "95190737" 32;
  d_lit CFG_ITEM_WHITE_LIST "95190737;95190738;01080287000;" 512;
  d_arr CFG_ITEM_DSU_AUTHKEY 256 (Some (lit_str "intestadmin"));
  d_int CFG_ITEM_DSU_CANLOG_TIME 2 30;
  d_int CFG_ITEM_DSU_CANLOG_MODE 1 0;
  d_int CFG_ITEM_DSU_SDHZ 1 1;
  d_int CFG_ITEM_DSU_HOURFILE 1 3;
  d_int CFG_ITEM_DSU_LOOPFILE 1 1;
  d_lit CFG_ITEM_GB32960_VIN "00000000000000000" 18;
  d_arr CFG_ITEM_GB32960_URL 256 None;
  d_int CFG_ITEM_GB32960_PORT 2 0;
  d_int CFG_ITEM_GB32960_REGINTV 2 0;
  d_int CFG_ITEM_GB32960_INTERVAL 2 10;
  d_int CFG_ITEM_GB32960_TIMEOUT 2 5;
  d_int CFG_ITEM_GB32960_REGSEQ 4 0;
  d_lit CFG_ITEM_FOTON_VIN "00000000000000000" 18;
  d_lit CFG_ITEM_FOTON_URL "211.94.119.48" 256;
  d_int CFG_ITEM_FOTON_PORT 2 39091;
  d_int CFG_ITEM_FOTON_REGINTV 2 30;
  d_int CFG_ITEM_FT_HBINTV 2 10;
  d_int CFG_ITEM_FOTON_INTERVAL 2 10;
  d_int CFG_ITEM_FOTON_TIMEOUT 2 5;
  d_int CFG_ITEM_FT_HBINTV 2 15;
  d_int CFG_ITEM_SLEEP_TIME 4 (7 * 24 * 60);
  d_int CFG_ITEM_DSLEEP_TIME 4 (14 * 24 * 60);
  d_int CFG_ITEM_VTD 1 0;
  d_int CFG_ITEM_ICALL_F 1 0;
  d_int CFG_ITEM_BCALL_F 1 0;
  d_int CFG_ITEM_ECALL_F 1 0;
  d_int CFG_ITEM_LOG_ENABLE 1 0;
  d_int CFG_ITEM_RTC_WAKEUP_TIME 4 0;
  d_int CFG_ITEM_BAT_TYPE 1 2;
  d_arr CFG_ITEM_FT_UDS_REPAIR_SHOP_CODE 10 None;
  d_arr CFG_ITEM_FT_UDS_AVN_SERIAL_NUMBER 16 None;
  d_int CFG_ITEM_FUELCELL 1 0;
  d_arr CFG_ITEM_PART_NUM 14 (Some (lit_str HIGH_MODEL_CODE));
  d_arr CFG_ITEM_FT_UDS_HW 14 (Some (lit_str HW_VERSION));
  d_arr CFG_ITEM_FT_DEV_TYPE 10 (Some (lit_str MODEL_NUM));
  d_int CFG_ITEM_FT_PORT 1 0;
  d_int CFG_ITEM_FT_REGISTER 1 0
].

(** The memory at the object, what is behind it included. *)
Definition d_memory (d : CFG_DEFAULT) : option (list Z) :=
  let m := d_obj d ++ behind (d_id d) in
  match d_str d with Some s => mem_write m 0 s | None => Some m end.

Fixpoint set_defaults (l : list CFG_DEFAULT) (type : Z) : ST CFG unit :=
  match l with
  | [] => mret tt
  | d :: l => m ← st_lift (d_memory d); cfg_set_by_id (d_id d) (Some m) (d_len d) type;; set_defaults l type
  end.

Definition cfg_set_default_para (type : Z) : ST CFG Z := set_defaults default_paras type;; mret 0.

Definition ft_tukey : list Z := [0x0a; 0x0b; 0x0c; 0x0d; 0x0e; 0x0f; 9; 8; 7; 6; 5; 4; 3; 2; 1; 0; 0].

Definition cfg_upgrade_new_para : ST CFG Z := cfg_set_by_id CFG_ITEM_FTTSP_TUKEY (Some ft_tukey) (len ft_tukey) 1;; mret 0.

(** ** Restart *)

(** [strcmp] of the version with COM_APP_MAIN_VER. *)
Definition same_version (ver : list Z) : bool :=
  bool_decide (take (Z.to_nat (len COM_APP_MAIN_VER + 1)) ver = COM_APP_MAIN_VER ++ [0]).

Definition cfg_restore_para : ST CFG Z :=
  ret ← on_files (rds_get fault RDS_SYS_CFG CFG_PARA_BUF_LEN);
  ver ← match ret with
        | inl _ =>
            st_mod (fun s => {| s with cfg_para_buf := left |});;
            cfg_set_default_para CFG_SET_SILENT;;
            cfg_save_para;;
            st_mod (fun s => {| s with cfg_para_status := false |});;
            mret ver0
        | inr d =>
            b ← st_lift (mem_write left 0 (rd_data d));
            st_mod (fun s => {| s with cfg_para_buf := b |});;
            mret (rd_ver d)
        end;
  (if same_version ver then mret 0 else cfg_upgrade_new_para);;
  mret 0.

(** The phases INIT_PHASE_INSIDE and INIT_PHASE_RESTORE of [cfg_init]; the phase
    INIT_PHASE_OUTSIDE only registers shell commands. *)
Definition cfg_init : ST CFG Z := cfg_init_para;; cfg_restore_para;; mret 0.

(** The shell command that removes all stored data; then the application is killed. *)
Definition cfg_set_default : ST CFG unit := on_files (rds_set_default fault).

End cfg.

Definition cfg_get_para_status (s : CFG) : bool := cfg_para_status s.
