(* ===== verification/CfgProps.v ===== *)
(** * Configuration: theorems

    The buffer with its table of offsets is a map from numbers to values
    ([cfg_refines]); a value that is set survives a loss of power ([cfg_survives]); the
    first start gives the defaults ([cfg_first_start]). *)

From stdpp Require Import gmap strings.
From S2P Require Import Prelude Md5 File Dir Rds Cfg.

Open Scope list_scope.
Open Scope Z_scope.

(** ** The layout *)

Definition cfg_rows : list CFG_ITEM_INFO := snd (layout cfg_table_rows 0).

Definition cfg_len (id : Z) : Z := match mem_get cfg_rows id with Some r => item_len r | None => 0 end.
Definition cfg_off (id : Z) : Z := match mem_get cfg_rows id with Some r => item_offset r | None => 0 end.

Definition valid_id (id : Z) : Prop := 0 <= id < CFG_ITEM_ID_MAX.

Definition all_ids : list Z := map Z.of_nat (seq 0 (Z.to_nat CFG_ITEM_ID_MAX)).

Lemma in_all_ids id : valid_id id -> In id all_ids.
Proof.
  unfold valid_id, all_ids. intros H. apply in_map_iff. exists (Z.to_nat id). split; [lia |].
  apply in_seq. lia.
Qed.

(** The rows are in the order of the enumeration, the items one behind the other. *)
Definition row_at (id : Z) : bool :=
  match mem_get cfg_rows id with
  | Some r => (itemid r =? id) && (0 <? item_len r) && (item_len r <=? CFG_MAX_PARA_LEN) &&
      (0 <=? item_offset r) && (item_offset r + item_len r <=? CFG_PARA_BUF_LEN)
  | None => false
  end.

Lemma rows_checked : forallb row_at all_ids = true /\
  forallb (fun i => forallb (fun j => (j <=? i) || (cfg_off i + cfg_len i <=? cfg_off j)) all_ids) all_ids = true.
Proof. split; vm_compute; reflexivity. Qed.

Lemma row_facts id : valid_id id -> exists r, mem_get cfg_rows id = Some r /\ itemid r = id /\
  item_len r = cfg_len id /\ item_offset r = cfg_off id.
Proof.
  intros H%in_all_ids. destruct rows_checked as [C _]. rewrite forallb_forall in C. specialize (C id H).
  unfold row_at in C. unfold cfg_len, cfg_off. destruct (mem_get cfg_rows id) as [r|]; [| done].
  rewrite !andb_true_iff, Z.eqb_eq in C. exists r. tauto.
Qed.

Lemma cfg_bounds id : valid_id id ->
  0 < cfg_len id <= CFG_MAX_PARA_LEN /\ 0 <= cfg_off id /\ cfg_off id + cfg_len id <= CFG_PARA_BUF_LEN.
Proof.
  intros H%in_all_ids. destruct rows_checked as [C _]. rewrite forallb_forall in C. specialize (C id H).
  unfold row_at in C. unfold cfg_len, cfg_off. destruct (mem_get cfg_rows id) as [r|]; [| done].
  rewrite !andb_true_iff, !Z.leb_le, Z.ltb_lt in C. tauto.
Qed.

Lemma cfg_disjoint i j : valid_id i -> valid_id j -> i < j -> cfg_off i + cfg_len i <= cfg_off j.
Proof.
  intros Hi%in_all_ids Hj%in_all_ids N. destruct rows_checked as [_ C]. rewrite forallb_forall in C.
  specialize (C i Hi). rewrite forallb_forall in C. specialize (C j Hj).
  apply orb_true_iff in C as [C%Z.leb_le | C%Z.leb_le]; lia.
Qed.

(** ** Values in the buffer *)

Definition value_in (b : list Z) (id : Z) : list Z := take (Z.to_nat (cfg_len id)) (drop (Z.to_nat (cfg_off id)) b).

Definition with_value (b : list Z) (id : Z) (v : list Z) : list Z :=
  take (Z.to_nat (cfg_off id)) b ++ v ++ drop (Z.to_nat (cfg_off id + cfg_len id)) b.

Definition buf_ok (b : list Z) : Prop := len b = CFG_PARA_BUF_LEN /\ Forall is_byte b.

Section values.
Context (b : list Z) (id : Z) (Hb : buf_ok b) (Hid : valid_id id).

Lemma value_in_len : len (value_in b id) = cfg_len id.
Proof using All.
  destruct Hb as [L _]. pose proof (cfg_bounds id Hid). unfold value_in. rewrite len_take, len_drop. lia.
Qed.

Lemma value_in_bytes : Forall is_byte (value_in b id).
Proof using Hb. apply Forall_take, Forall_drop, Hb. Qed.

Context (v : list Z) (Hv : len v = cfg_len id) (Hvb : Forall is_byte v).

Lemma with_value_ok : buf_ok (with_value b id v).
Proof using All.
  destruct Hb as [L B]. pose proof (cfg_bounds id Hid). split.
  - unfold with_value. rewrite !len_app, len_take, len_drop. lia.
  - apply Forall_app_2; [by apply Forall_take | apply Forall_app_2; [done | by apply Forall_drop]].
Qed.

Lemma with_value_write : mem_write b (cfg_off id) v = Some (with_value b id v).
Proof using Hb Hid Hv.
  destruct Hb as [L _]. pose proof (cfg_bounds id Hid). unfold with_value.
  rewrite mem_write_ok by lia. by rewrite Hv.
Qed.

Lemma value_with j : valid_id j ->
  value_in (with_value b id v) j = if j =? id then v else value_in b j.
Proof using Hb Hid Hv.
  intros Hj. destruct Hb as [L _]. pose proof (cfg_bounds id Hid). pose proof (cfg_bounds j Hj).
  pose proof with_value_write as W. pose proof (mem_write_len _ _ _ _ W).
  assert (value_in (with_value b id v) j = if j =? id then v else value_in b j) as E; [| exact E].
  apply list_eq. intros k. unfold value_in at 1.
  destruct (decide (Z.of_nat k < cfg_len j)) as [Hk | Hk].
  - rewrite lookup_take_lt, lookup_drop by lia. rewrite (mem_write_lookup _ _ _ _ _ W), Hv.
    destruct (Z.eqb_spec j id) as [-> | N].
    + rewrite (proj2 (Z.leb_le _ _)), (proj2 (Z.ltb_lt _ _)) by lia. cbn [andb]. f_equal. lia.
    + assert (cfg_off j + cfg_len j <= cfg_off id \/ cfg_off id + cfg_len id <= cfg_off j) as D.
      { destruct (decide (j < id)); [left | right]; apply cfg_disjoint; auto; lia. }
      unfold value_in. rewrite lookup_take_lt, lookup_drop by lia.
      destruct (Z.leb_spec (cfg_off id) (Z.of_nat (Z.to_nat (cfg_off j) + k))); [| done].
      by rewrite (proj2 (Z.ltb_ge _ _)) by lia.
  - rewrite lookup_take_ge by lia. symmetry. apply lookup_ge_None_2.
    destruct (Z.eqb_spec j id) as [-> | N]; [unfold len in *; lia |].
    unfold value_in. rewrite length_take. lia.
Qed.
End values.

(** ** The operations *)

Record cfg_ok (s : CFG) : Prop := {
  ok_table : cfg_table s = cfg_rows;
  ok_buf : buf_ok (cfg_para_buf s)
}.

Definition cfg_value (s : CFG) (id : Z) : list Z := value_in (cfg_para_buf s) id.

Definition set_buf (b : list Z) (s : CFG) : CFG := {| s with cfg_para_buf := b |}.

Lemma set_buf_ok b s : cfg_ok s -> buf_ok b -> cfg_ok (set_buf b s).
Proof. intros [T _] B. by split. Qed.

Lemma pad_len : len zero_para = CFG_MAX_PARA_LEN.
Proof. vm_compute. reflexivity. Qed.

(** A value in an array of zeros. *)
Definition pad (v : list Z) : list Z := v ++ drop (length v) zero_para.

Lemma id_max id : 0 <= id -> (CFG_ITEM_ID_MAX <=? id) = false <-> valid_id id.
Proof. unfold valid_id. intros. rewrite Z.leb_gt. lia. Qed.

Section ops.
Context (s : CFG) (id : Z) (Hs : cfg_ok s) (Hid : valid_id id).

Lemma get_para d n : (cfg_len id <= n -> cfg_len id <= len d) ->
  cfg_get_para id (Some d) (Some n) s =
  Some (if n <? cfg_len id then (CFG_INVALID_PARAMETER, Some d, Some n)
        else (0, Some (cfg_value s id ++ drop (Z.to_nat (cfg_len id)) d), Some (cfg_len id)), s).
Proof using All.
  intros Hd. destruct Hs as [T [L B]]. destruct (row_facts id Hid) as (r & E & _ & El & Eo).
  pose proof (cfg_bounds id Hid). unfold cfg_get_para.
  rewrite (proj2 (id_max id ltac:(destruct Hid; lia)) Hid). st_run. rewrite T, E. st_run. rewrite El, Eo.
  destruct (Z.ltb_spec n (cfg_len id)); [done |]. specialize (Hd ltac:(lia)). unfold memcpy. rewrite mem_read_ok by lia. cbn [mbind option_bind].
  fold (value_in (cfg_para_buf s) id). pose proof (value_in_len _ id (conj L B) Hid) as Lv.
  rewrite mem_write_ok by lia. cbn [st_lift]. st_run. by rewrite Lv.
Qed.

Lemma get_zero : cfg_get_para id (Some zero_para) (Some CFG_MAX_PARA_LEN) s =
  Some (0, Some (pad (cfg_value s id)), Some (cfg_len id), s).
Proof using All.
  pose proof (cfg_bounds id Hid). rewrite get_para by (rewrite pad_len; lia).
  rewrite (proj2 (Z.ltb_ge _ _)) by lia. unfold pad. destruct Hs as [_ B].
  pose proof (value_in_len _ id B Hid).
  by replace (Z.to_nat (cfg_len id)) with (length (cfg_value s id)) by (unfold len, cfg_value in *; lia).
Qed.

Lemma set_para_im d n : (n = cfg_len id -> n <= len d) ->
  cfg_set_para_im id (Some d) n s =
  Some (if n =? cfg_len id then (0, set_buf (with_value (cfg_para_buf s) id (take (Z.to_nat n) d)) s)
        else (CFG_INVALID_PARAMETER, s)).
Proof using All.
  intros Hd. destruct Hs as [T B]. destruct (row_facts id Hid) as (r & E & _ & El & Eo).
  pose proof (cfg_bounds id Hid). unfold cfg_set_para_im.
  rewrite (proj2 (id_max id ltac:(destruct Hid; lia)) Hid). st_run. rewrite T, E. st_run. rewrite El, Eo.
  destruct (Z.eqb_spec n (cfg_len id)) as [-> | N]; cbn [negb]; [| done].
  specialize (Hd eq_refl). unfold memcpy. rewrite mem_read_ok by lia. cbn [mbind option_bind].
  rewrite drop_0. rewrite with_value_write by (try done; rewrite len_take; lia). by st_run.
Qed.
End ops.

(** The state after an unsilent set: the files changed, the callbacks called. *)
Definition notified (s : CFG) (id : Z) (old new : list Z) (reg : list CFG_REG_ITEM) : list CFG_CALL :=
  map (fun e => CfgChanged e.2 id old (pad new) (cfg_len id)) (List.filter (fun e => e.1 =? id) reg).

Definition add_calls (l : list CFG_CALL) (s : CFG) : CFG := {| s with cfg_calls := cfg_calls s ++ l |}.
Definition set_files (f : FILES) (s : CFG) : CFG := {| s with files := f |}.
Definition mark_status (b : bool) (s : CFG) : CFG := {| s with cfg_para_status := b |}.

Lemma notify_ok id old reg : forall s, cfg_ok s -> valid_id id ->
  cfg_notify_loop reg id old (cfg_len id) s =
  Some (0, add_calls (notified s id old (cfg_value s id) reg) s).
Proof.
  induction reg as [|[i cb] reg IH]; intros s Hs Hid; cbn [cfg_notify_loop].
  { unfold add_calls, notified. cbn [List.filter map]. rewrite app_nil_r. by destruct s. }
  unfold notified. cbn [List.filter fst]. destruct (i =? id); [| by rewrite IH].
  rewrite (st_bind_run _ _ _ _ _ (get_zero _ _ Hs Hid)). cbv beta iota.
  rewrite Z.eqb_refl, bool_decide_true by done. cbn [negb orb]. st_run. rewrite IH; [| by destruct Hs | done].
  unfold add_calls, notified. cbn [map snd]. cbn -[List.filter pad cfg_value map]. rewrite <- app_assoc. done.
Qed.

Definition cfg_row : RDS_ITEM := {|
  rds_type := RDS_SYS_CFG; path_name := COM_APP_CUR_CFG_DIR; area_path := COM_DATA_CUR_CFG_DIR;
  backup_attr := RDS_BACKUP; file_name := "sys_cfg.dat" |}.

Lemma cfg_row_ok : rds_get_index RDS_SYS_CFG = Some cfg_row.
Proof. reflexivity. Qed.

Section files.
Context (fault : nat -> option nat) (ls : FS -> String.string -> list FTSENT).
Context (ls_below : forall f d, Forall (entry_below d) (ls f d)).

(** The buffer is written to the files. *)
Record written (s : CFG) (f : FILES) (l : list FS_STEP) : Prop := {
  wr_fs : fs f = do_steps l (fs (files s));
  wr_ok : Forall step_ok l;
  wr_updates : exists a, updates fault cfg_row (cfg_para_buf s) (fs (files s)) a l
}.

Lemma save_ok s : cfg_ok s -> bytes_ok (fs (files s)) ->
  exists a f l, cfg_save_para fault ls s = Some (a, set_files f s) /\ written s f l.
Proof using ls_below.
  intros [_ [L B]] Hf. assert (0 < len (cfg_para_buf s) < 2 ^ 32) as Hl by (rewrite L; split; reflexivity).
  destruct (emits_rds_update fault ls ls_below (fs (files s)) _ _ _ cfg_row_ok B Hl (files s) eq_refl Hf)
    as (a & f & l & E & _ & F & S & U).
  exists a, f, l. split; [| by split; [| | exists a]]. unfold cfg_save_para. st_run.
  unfold on_files. by rewrite E.
Qed.

(** What setting a value does. *)
Definition is_set (id silent : Z) (v : list Z) (s s' : CFG) : Prop :=
  let s1 := set_buf (with_value (cfg_para_buf s) id v) s in
  if silent =? 0 then
    exists f l, written s1 f l /\
      s' = add_calls (notified s id (pad (cfg_value s id)) v (cfg_regtbl s)) (set_files f s1)
  else s' = s1.

Section set.
Context (s : CFG) (id : Z) (Hs : cfg_ok s) (Hid : valid_id id).
Context (behind : Z -> list Z) (left ver0 : list Z).

Lemma set_wrong_length data n silent : n <> cfg_len id ->
  cfg_set_by_id fault ls id data n silent s = Some (CFG_INVALID_PARAMETER, s).
Proof using Hs Hid.
  intros N. unfold cfg_set_by_id. rewrite (proj2 (id_max id ltac:(destruct Hid; lia)) Hid).
  rewrite (st_bind_run _ _ _ _ _ (get_zero _ _ Hs Hid)). cbv beta iota.
  rewrite Z.eqb_refl, bool_decide_false by congruence. done.
Qed.

Lemma set_null silent :
  cfg_set_by_id fault ls id None (cfg_len id) silent s = Some (CFG_TABLE_UPDATE_PARA_FAILED, s).
Proof using Hs Hid.
  unfold cfg_set_by_id. rewrite (proj2 (id_max id ltac:(destruct Hid; lia)) Hid).
  rewrite (st_bind_run _ _ _ _ _ (get_zero _ _ Hs Hid)). cbv beta iota.
  rewrite Z.eqb_refl, bool_decide_true by done. cbn [negb orb]. by st_run.
Qed.

Lemma set_ok d silent : bytes_ok (fs (files s)) -> cfg_len id <= len d -> Forall is_byte d ->
  exists s', cfg_set_by_id fault ls id (Some d) (cfg_len id) silent s = Some (0, s') /\
    is_set id silent (take (Z.to_nat (cfg_len id)) d) s s'.
Proof using Hs Hid ls_below.
  intros Hf Hd Hb. set (v := take (Z.to_nat (cfg_len id)) d).
  set (s1 := set_buf (with_value (cfg_para_buf s) id v) s).
  pose proof (cfg_bounds id Hid). assert (len v = cfg_len id) as Hv by (unfold v; rewrite len_take; lia).
  assert (cfg_ok s1) as Hs1.
  { destruct Hs. apply set_buf_ok; [done |]. apply with_value_ok; try done. by apply Forall_take. }
  assert (cfg_value s1 id = v) as Ev.
  { destruct Hs. unfold s1, cfg_value. cbn [cfg_para_buf set_buf]. rewrite value_with by done. by rewrite Z.eqb_refl. }
  unfold cfg_set_by_id, is_set. rewrite (proj2 (id_max id ltac:(destruct Hid; lia)) Hid).
  rewrite (st_bind_run _ _ _ _ _ (get_zero _ _ Hs Hid)). cbv beta iota.
  rewrite Z.eqb_refl, bool_decide_true by done. cbn [negb orb].
  assert (cfg_set_para_im id (Some d) (cfg_len id) s = Some (0, s1)) as Es.
  { rewrite set_para_im by done. by rewrite Z.eqb_refl. }
  rewrite (st_bind_run _ _ _ _ _ Es), Z.eqb_refl. cbn [negb]. fold s1.
  destruct (silent =? 0); [| by exists s1].
  destruct (save_ok s1 Hs1 Hf) as (a & f & l & E & W).
  assert (cfg_ok (set_files f s1)) as Hs2 by by destruct Hs1.
  pose proof (notify_ok id (pad (cfg_value s id)) (cfg_regtbl s) _ Hs2 Hid) as N.
  eexists. split; [| exists f, l; split; [exact W | reflexivity]].
  rewrite !run_assoc. rewrite (st_bind_run _ _ _ _ _ E), run_assoc. unfold cfg_notify_changed.
  rewrite run_assoc, run_get. cbn [default]. rewrite (st_bind_run _ _ _ _ _ N).
  assert (cfg_value (set_files f s1) id = v) as -> by exact Ev. done.
Qed.
End set.
End files.

(** ** A map from numbers to values *)

Record CONF := { conf_val : Z -> list Z; conf_reg : list CFG_REG_ITEM }.

Inductive CFG_OP :=
  | OpRegister (id : Z) (cb : option nat)
  | OpGet (id n : Z)
  | OpSetIm (id : Z) (data : option (list Z)) (n : Z)
  | OpSet (id : Z) (data : option (list Z)) (n silent : Z).

Definition conf_set (c : CONF) (id : Z) (v : list Z) : CONF :=
  {| c with conf_val := fun j => if j =? id then v else conf_val c j |}.

(** The result, the value read, the calls of callbacks. *)
Definition spec_op (op : CFG_OP) (c : CONF) : Z * list Z * list CFG_CALL * CONF :=
  match op with
  | OpRegister _ None => (CFG_INVALID_PARAMETER, [], [], c)
  | OpRegister id (Some cb) =>
      if CFG_MAX_REG_ITEM_NUM <=? len (conf_reg c) then (CFG_TABLE_OVERFLOW, [], [], c)
      else (0, [], [], {| c with conf_reg := conf_reg c ++ [(id, cb)] |})
  | OpGet id n =>
      if (CFG_ITEM_ID_MAX <=? id) || (n <? cfg_len id) then (CFG_INVALID_PARAMETER, [], [], c)
      else (0, conf_val c id, [], c)
  | OpSetIm id data n =>
      if (CFG_ITEM_ID_MAX <=? id) || negb (n =? cfg_len id) then (CFG_INVALID_PARAMETER, [], [], c)
      else
        match data with
        | None => (CFG_INVALID_PARAMETER, [], [], c)
        | Some d => (0, [], [], conf_set c id (take (Z.to_nat n) d))
        end
  | OpSet id data n silent =>
      if (CFG_ITEM_ID_MAX <=? id) || negb (n =? cfg_len id) then (CFG_INVALID_PARAMETER, [], [], c)
      else
        match data with
        | None => (CFG_TABLE_UPDATE_PARA_FAILED, [], [], c)
        | Some d =>
            let v := take (Z.to_nat n) d in
            (0, [],
             if silent =? 0
             then map (fun e => CfgChanged e.2 id (pad (conf_val c id)) (pad v) n) (List.filter (fun e => e.1 =? id) (conf_reg c))
             else [],
             conf_set c id v)
        end
  end.

Fixpoint spec_ops (l : list CFG_OP) (c : CONF) : list (Z * list Z) * list CFG_CALL * CONF :=
  match l with
  | [] => ([], [], c)
  | op :: l =>
      let '(ret, v, calls, c) := spec_op op c in
      let '(outs, more, c) := spec_ops l c in
      ((ret, v) :: outs, calls ++ more, c)
  end.

Section runs.
Context (fault : nat -> option nat) (ls : FS -> String.string -> list FTSENT).

Definition run_op (op : CFG_OP) : ST CFG (Z * list Z) :=
  match op with
  | OpRegister id cb => ret ← cfg_register id cb; mret (ret, [])
  | OpGet id n =>
      '(ret, d, m) ← cfg_get_para id (Some (replicate (Z.to_nat n) 0)) (Some n);
      mret (ret, if ret =? 0 then take (Z.to_nat (default 0 m)) (default [] d) else [])
  | OpSetIm id data n => ret ← cfg_set_para_im id data n; mret (ret, [])
  | OpSet id data n silent => ret ← cfg_set_by_id fault ls id data n silent; mret (ret, [])
  end.

Fixpoint run_ops (l : list CFG_OP) : ST CFG (list (Z * list Z)) :=
  match l with [] => mret [] | op :: l => a ← run_op op; b ← run_ops l; mret (a :: b) end.
End runs.

(** Numbers and lengths are unsigned, [data] has at least the length that is announced. *)
Definition op_ok (op : CFG_OP) : Prop :=
  match op with
  | OpRegister _ _ => True
  | OpGet id n => 0 <= id /\ 0 <= n
  | OpSetIm id data n | OpSet id data n _ => 0 <= id /\ forall d, data = Some d -> n <= len d /\ Forall is_byte d
  end.

Record cfg_rep (s : CFG) (c : CONF) : Prop := {
  rep_ok : cfg_ok s;
  rep_val id : valid_id id -> cfg_value s id = conf_val c id;
  rep_reg : cfg_regtbl s = conf_reg c
}.

Lemma conf_rep_set s c id d : cfg_rep s c -> valid_id id -> cfg_len id <= len d -> Forall is_byte d ->
  let v := take (Z.to_nat (cfg_len id)) d in
  cfg_rep (set_buf (with_value (cfg_para_buf s) id v) s) (conf_set c id v).
Proof.
  intros [[T B] V R] Hid Hd Hb v. pose proof (cfg_bounds id Hid).
  assert (len v = cfg_len id) as Hv by (unfold v; rewrite len_take; lia).
  split; [apply set_buf_ok; [done | apply with_value_ok; try done; by apply Forall_take] | | exact R].
  intros j Hj. unfold cfg_value. cbn [cfg_para_buf set_buf conf_val conf_set]. rewrite value_with by done.
  destruct (j =? id); [done | by apply V].
Qed.

Lemma rep_after s c f l : cfg_rep s c -> cfg_rep (add_calls l (set_files f s)) c.
Proof. by intros [[T B] V R]. Qed.

Section refines.
Context (fault : nat -> option nat) (ls : FS -> String.string -> list FTSENT).
Context (ls_below : forall f d, Forall (entry_below d) (ls f d)).

Lemma max_cases id : 0 <= id -> (CFG_ITEM_ID_MAX <=? id) = true \/ (CFG_ITEM_ID_MAX <=? id) = false /\ valid_id id.
Proof. intros H. destruct (CFG_ITEM_ID_MAX <=? id) eqn:E; [by left | right]. split; [done |]. by apply id_max. Qed.

Lemma op_refines op s c : op_ok op -> cfg_rep s c -> bytes_ok (fs (files s)) ->
  let '(ret, v, calls, c') := spec_op op c in
  exists s', run_op fault ls op s = Some ((ret, v), s') /\ cfg_rep s' c' /\ bytes_ok (fs (files s')) /\
    cfg_calls s' = cfg_calls s ++ calls.
Proof using ls_below.
  intros Ho Hr Hf. pose proof (rep_ok _ _ Hr) as Hs.
  destruct op as [id [cb|] | id n | id data n | id data n silent]; cbn [spec_op run_op op_ok] in *.
  - unfold cfg_register. st_run. rewrite (rep_reg _ _ Hr). destruct (_ <=? _).
    + exists s. rewrite app_nil_r. by st_run.
    + eexists. st_run. split; [reflexivity |]. rewrite app_nil_r. split; [| done].
      destruct Hr as [[T B] V R]. split; [done | done |]. cbn. by rewrite R.
  - exists s. rewrite app_nil_r. done.
  - destruct Ho as [Hi Hn]. destruct (max_cases id Hi) as [E | [E Hid]]; rewrite E; cbn [orb].
    { exists s. unfold cfg_get_para. rewrite E, app_nil_r. done. }
    rewrite (st_bind_run _ _ _ _ _ (get_para s id Hs Hid (replicate (Z.to_nat n) 0) n ltac:(rewrite len_replicate; lia))).
    destruct (n <? cfg_len id); exists s; rewrite app_nil_r; [done |]. cbv beta iota. rewrite Z.eqb_refl.
    unfold default, Datatypes.id. rewrite <- (rep_val _ _ Hr id Hid). split; [| done].
    destruct Hs as [_ B]. pose proof (value_in_len _ id B Hid) as L. rewrite take_app_length'; [done |].
    unfold len, cfg_value in *. lia.
  - destruct Ho as [Hi Hd]. destruct (max_cases id Hi) as [E | [E Hid]]; rewrite E; cbn [orb].
    { exists s. rewrite app_nil_r. unfold cfg_set_para_im. rewrite E. by destruct data. }
    destruct data as [d|]; [| destruct (negb _); exists s; by rewrite app_nil_r].
    specialize (Hd d eq_refl) as [Hl Hb].
    pose proof (set_para_im s id Hs Hid d n (fun _ => Hl)) as Em.
    destruct (Z.eqb_spec n (cfg_len id)) as [-> | N]; cbn [negb]; rewrite (st_bind_run _ _ _ _ _ Em).
    + eexists. split; [reflexivity |]. rewrite app_nil_r. split; [by apply conf_rep_set | done].
    + exists s. by rewrite app_nil_r.
  - destruct Ho as [Hi Hd]. destruct (max_cases id Hi) as [E | [E Hid]]; rewrite E; cbn [orb].
    { exists s. rewrite app_nil_r. unfold cfg_set_by_id. by rewrite E. }
    destruct (Z.eqb_spec n (cfg_len id)) as [-> | N]; cbn [negb].
    2: { exists s. rewrite (st_bind_run _ _ _ _ _ (set_wrong_length fault ls s id Hs Hid data n silent N)).
         by rewrite app_nil_r. }
    destruct data as [d|].
    2: { exists s. rewrite (st_bind_run _ _ _ _ _ (set_null fault ls s id Hs Hid silent)). by rewrite app_nil_r. }
    specialize (Hd d eq_refl) as [Hl Hb].
    destruct (set_ok fault ls ls_below s id Hs Hid d silent Hf Hl Hb) as (s' & Es & I).
    exists s'. rewrite (st_bind_run _ _ _ _ _ Es). split; [done |].
    pose proof (conf_rep_set _ _ _ _ Hr Hid Hl Hb) as R. cbv zeta in R. unfold is_set in I.
    destruct (silent =? 0); [| subst s'; by rewrite app_nil_r].
    destruct I as (f & l & W & ->). split; [by apply rep_after |].
    split; [| cbn; by rewrite (rep_val _ _ Hr id Hid), (rep_reg _ _ Hr)].
    change (bytes_ok (fs f)). rewrite (wr_fs _ _ _ _ W). apply do_steps_bytes; [exact Hf | apply W].
Qed.
End refines.

(** ** Restart *)

Definition zero_buf : list Z := replicate (Z.to_nat CFG_PARA_BUF_LEN) 0.

Lemma zero_buf_ok : buf_ok zero_buf.
Proof.
  split; [exact (len_replicate CFG_PARA_BUF_LEN 0 ltac:(discriminate)) |].
  apply Forall_replicate. split; [done | reflexivity].
Qed.

Definition initialised (s : CFG) : CFG :=
  {| s with cfg_para_buf := zero_buf; cfg_regtbl := []; cfg_table := cfg_rows |}.

Lemma layout_rows : layout cfg_table_rows 0 = (0, cfg_rows).
Proof.
  unfold cfg_rows. assert (fst (layout cfg_table_rows 0) = 0) as H by (vm_compute; reflexivity).
  destruct (layout cfg_table_rows 0) as [a l]. cbn [fst snd] in *. by rewrite H.
Qed.

Lemma init_para_ok s : cfg_table s = cfg_table_rows -> cfg_init_para s = Some (0, initialised s).
Proof.
  intros T. unfold cfg_init_para. st_run. cbn [cfg_table]. rewrite T, layout_rows. st_run.
  rewrite Z.eqb_refl. cbn [negb].
  assert (valid_id (CFG_ITEM_ID_MAX - 1)) as Hi by by vm_compute.
  assert (len cfg_rows = CFG_ITEM_ID_MAX) as -> by (vm_compute; reflexivity).
  destruct (row_facts _ Hi) as (r & -> & _ & El & Eo). st_run. rewrite El, Eo.
  assert ((CFG_PARA_BUF_LEN <? u32 (cfg_off (CFG_ITEM_ID_MAX - 1) + cfg_len (CFG_ITEM_ID_MAX - 1))) = false) as ->
    by (vm_compute; reflexivity).
  done.
Qed.

Lemma initialised_ok s : cfg_ok (initialised s).
Proof. split; [done | apply zero_buf_ok]. Qed.

Section restart.
Context (fault : nat -> option nat) (ls : FS -> String.string -> list FTSENT).
Context (ls_below : forall f d, Forall (entry_below d) (ls f d)).
Context (behind : Z -> list Z) (left ver0 : list Z).
Context (Hleft : buf_ok left).

(** An upgrade resets the key. *)
Lemma upgrade_ok ver s : cfg_ok s -> bytes_ok (fs (files s)) ->
  exists b, (if same_version ver then mret 0 else cfg_upgrade_new_para fault ls) s = Some (0, set_buf b s) /\
    buf_ok b /\ forall id, valid_id id ->
      value_in b id = if negb (same_version ver) && (id =? CFG_ITEM_FTTSP_TUKEY) then ft_tukey else cfg_value s id.
Proof using ls_below.
  intros Hs Hf. destruct (same_version ver); cbn [negb andb].
  { exists (cfg_para_buf s). split; [by destruct s | split; [by destruct Hs | done]]. }
  assert (valid_id CFG_ITEM_FTTSP_TUKEY) as Hk by by vm_compute.
  assert (Forall is_byte ft_tukey) as Bk by (apply (bool_decide_unpack _); vm_compute; exact Logic.I).
  assert (len ft_tukey = cfg_len CFG_ITEM_FTTSP_TUKEY) as Lk by by vm_compute.
  destruct (set_ok fault ls ls_below s _ Hs Hk ft_tukey 1 Hf) as (s3 & E3 & I); [by rewrite Lk | done |].
  unfold is_set in I. change (1 =? 0) with false in I. cbv iota in I.
  rewrite take_ge in I by (unfold len in Lk; lia). subst s3.
  unfold cfg_upgrade_new_para. rewrite Lk, (st_bind_run _ _ _ _ _ E3).
  exists (with_value (cfg_para_buf s) CFG_ITEM_FTTSP_TUKEY ft_tukey). destruct Hs as [_ B].
  split; [done |]. split; [by apply with_value_ok |]. intros j Hj. by rewrite value_with.
Qed.

(** Reading a stored buffer; the key may then be reset by an upgrade. *)
Lemma restore_ok f data :
  bytes_ok (fs f) -> small (fs f) -> ~ faulty fault ->
  rds_lookup RDS_SYS_CFG (fs f) = Some data -> buf_ok data ->
  exists s', cfg_init fault ls behind left ver0 (cfg_start f) = Some (0, s') /\
    cfg_ok s' /\ cfg_para_status s' = true /\ cfg_calls s' = [] /\
    forall id, valid_id id -> id <> CFG_ITEM_FTTSP_TUKEY -> cfg_value s' id = value_in data id.
Proof using ls_below Hleft.
  intros Hb Hs NF Hl Hd. unfold cfg_init. rewrite (st_bind_run _ _ _ _ _ (init_para_ok (cfg_start f) eq_refl)).
  set (s1 := initialised _).
  destruct (emits_rds_get fault (fs f) RDS_SYS_CFG cfg_row CFG_PARA_BUF_LEN cfg_row_ok Hs ltac:(discriminate) f eq_refl Hb)
    as (a & f1 & l & E & _ & F & S & G).
  assert (forall v, rds_lookup RDS_SYS_CFG (fs f) = Some v -> len v <= CFG_PARA_BUF_LEN) as Hbuf.
  { intros v Hv. rewrite Hl in Hv. injection Hv as <-. destruct Hd. lia. }
  destruct (gets_clean fault _ _ _ _ cfg_row_ok a l l NF Hbuf G (torn_refl _)) as [_ C].
  rewrite Hl in C. destruct C as (x & -> & Ex & _ & _).
  assert (mem_write left 0 data = Some data) as W.
  { destruct Hleft as [L _], Hd as [Ld _]. rewrite mem_write_ok by lia. rewrite drop_ge by (unfold len in *; lia).
    by rewrite app_nil_r. }
  assert (on_files (rds_get fault RDS_SYS_CFG CFG_PARA_BUF_LEN) s1 = Some (inr x, set_files f1 s1)) as Eg.
  { unfold on_files. change (files s1) with f. by rewrite E. }
  set (s2 := set_buf data (set_files f1 s1)).
  assert (cfg_ok s2) as Hs2 by by split.
  destruct (upgrade_ok (rd_ver x) s2 Hs2) as (b & Eu & Hb2 & V).
  { change (bytes_ok (fs f1)). rewrite F. by apply do_steps_bytes. }
  exists (set_buf b s2). split; [| split; [by apply set_buf_ok | split; [done | split; [done |]]]].
  2: { intros j Hj N. unfold cfg_value. cbn [cfg_para_buf set_buf]. rewrite V by done.
       by rewrite (proj2 (Z.eqb_neq _ _) N), andb_false_r. }
  unfold cfg_restore_para. rewrite run_assoc, (st_bind_run _ _ _ _ _ Eg).
  cbv beta iota. rewrite Ex, W. st_run. fold s2. change (cfg_para_buf s1) with zero_buf.
  rewrite (st_bind_run _ _ _ _ _ Eu). done.
Qed.

(** The last default of an item, and its value. *)
Fixpoint last_default (l : list CFG_DEFAULT) (id : Z) : option CFG_DEFAULT :=
  match l with
  | [] => None
  | d :: l => match last_default l id with Some x => Some x | None => if d_id d =? id then Some d else None end
  end.

Definition default_value (d : CFG_DEFAULT) : list Z :=
  take (Z.to_nat (cfg_len (d_id d))) (default [] (d_memory behind d)).

Definition default_ok (d : CFG_DEFAULT) : Prop :=
  valid_id (d_id d) /\ d_len d = cfg_len (d_id d) /\
  exists m, d_memory behind d = Some m /\ cfg_len (d_id d) <= len m /\ Forall is_byte m.

Lemma set_defaults_ok l : forall s, cfg_ok s -> bytes_ok (fs (files s)) -> Forall default_ok l ->
  exists b, set_defaults fault ls behind l CFG_SET_SILENT s = Some (tt, set_buf b s) /\ buf_ok b /\
    forall id, valid_id id -> value_in b id =
      match last_default l id with Some d => default_value d | None => cfg_value s id end.
Proof using ls_below.
  induction l as [|d l IH]; intros s Hs Hf Hl; cbn [set_defaults last_default].
  { exists (cfg_para_buf s). split; [by destruct s | split; [by destruct Hs | done]]. }
  apply Forall_cons_1 in Hl as [(Hid & Hn & m & Em & Hm & Bm) Hl].
  destruct (set_ok fault ls ls_below s _ Hs Hid m CFG_SET_SILENT Hf Hm Bm) as (s1 & E1 & I).
  rewrite Em. st_run. rewrite Hn, (st_bind_run _ _ _ _ _ E1).
  unfold is_set in I. change (CFG_SET_SILENT =? 0) with false in I. cbv iota in I.
  pose proof (cfg_bounds _ Hid). set (v := take _ m) in *.
  assert (len v = cfg_len (d_id d)) as Hv by (unfold v; rewrite len_take; lia).
  assert (buf_ok (cfg_para_buf s)) as B by by destruct Hs.
  assert (cfg_ok s1) as Hs1.
  { subst s1. apply set_buf_ok; [done |]. apply with_value_ok; try done. by apply Forall_take. }
  destruct (IH s1 Hs1 ltac:(by subst s1) Hl) as (b & E & Hb & V).
  exists b. subst s1. split; [exact E | split; [done |]]. intros j Hj. rewrite V by done.
  destruct (last_default l j); [done |]. unfold cfg_value. cbn [cfg_para_buf set_buf].
  rewrite value_with by done. destruct (Z.eqb_spec j (d_id d)) as [-> | N].
  - rewrite Z.eqb_refl. unfold default_value. by rewrite Em.
  - by rewrite (proj2 (Z.eqb_neq _ _)) by congruence.
Qed.

Definition is_byteb (x : Z) : bool := (0 <=? x) && (x <? 256).

Lemma is_bytes l : forallb is_byteb l = true -> Forall is_byte l.
Proof using.
  intros H. apply List.Forall_forall. intros x Hx. rewrite forallb_forall in H. specialize (H x Hx).
  unfold is_byteb, is_byte in *. lia.
Qed.

(** The calls fit the table. *)
Lemma defaults_checked : forallb (fun d =>
  (0 <=? d_id d) && (d_id d <? CFG_ITEM_ID_MAX) && (d_len d =? cfg_len (d_id d)) && forallb is_byteb (d_obj d) &&
  match d_str d with Some s => (len s <=? CFG_MAX_PARA_LEN) && forallb is_byteb s | None => true end) default_paras = true.
Proof using. vm_compute. reflexivity. Qed.

Lemma defaults_ok : (forall id, CFG_MAX_PARA_LEN <= len (behind id) /\ Forall is_byte (behind id)) ->
  Forall default_ok default_paras.
Proof using.
  intros Hbh. apply List.Forall_forall. intros d Hd. pose proof defaults_checked as C.
  rewrite forallb_forall in C. specialize (C d Hd). rewrite !andb_true_iff, !Z.leb_le, Z.ltb_lt, Z.eqb_eq in C.
  destruct C as [[[[? ?] Hn] Ho%is_bytes] Hs]. assert (valid_id (d_id d)) as Hid by done.
  pose proof (cfg_bounds _ Hid). destruct (Hbh (d_id d)) as [Hl Hb]. pose proof (len_nonneg (d_obj d)).
  assert (Forall is_byte (d_obj d ++ behind (d_id d))) as Hm by by apply Forall_app_2.
  split; [done | split; [done |]]. unfold d_memory. destruct (d_str d) as [s|].
  - apply andb_true_iff in Hs as [Hs%Z.leb_le Bs%is_bytes].
    eexists. split; [apply mem_write_ok; [lia | rewrite len_app; lia] |]. change (take (Z.to_nat 0) ?x) with (@nil Z).
    cbn [app]. split; [rewrite len_app, len_drop, len_app; pose proof (len_nonneg s); lia |].
    apply Forall_app_2; [done | by apply Forall_drop].
  - eexists. split; [done |]. split; [rewrite len_app; lia | done].
Qed.

Lemma no_data f a l : rds_lookup RDS_SYS_CFG f = None -> gets fault cfg_row CFG_PARA_BUF_LEN f a l -> exists e, a = inl e /\ l = [].
Proof using.
  rewrite (lookup_row _ _ _ cfg_row_ok). destruct a as [e | x]; cbn [gets]; [intros _ [-> _]; by exists e |].
  destruct (value_at f (rds_get_full_path cfg_row RDS_PATH_MASTER)) eqn:Em; [done |].
  intros Eb (_ & [[_ H] | (H & _)]); congruence.
Qed.

(** The start without stored data. *)
Lemma first_start f :
  (forall id, CFG_MAX_PARA_LEN <= len (behind id) /\ Forall is_byte (behind id)) ->
  bytes_ok (fs f) -> small (fs f) -> rds_lookup RDS_SYS_CFG (fs f) = None ->
  exists s' b l, cfg_init fault ls behind left ver0 (cfg_start f) = Some (0, s') /\
    cfg_ok s' /\ cfg_para_status s' = false /\ cfg_calls s' = [] /\
    (exists a, updates fault cfg_row b (fs f) a l) /\ fs (files s') = do_steps l (fs f) /\ buf_ok b /\
    (forall id, valid_id id -> value_in b id =
      match last_default default_paras id with Some d => default_value d | None => value_in left id end) /\
    forall id, valid_id id -> cfg_value s' id =
      if negb (same_version ver0) && (id =? CFG_ITEM_FTTSP_TUKEY) then ft_tukey else value_in b id.
Proof using ls_below Hleft.
  intros Hbh Hb Hsm Hl. unfold cfg_init. rewrite (st_bind_run _ _ _ _ _ (init_para_ok (cfg_start f) eq_refl)).
  set (s1 := initialised _).
  destruct (emits_rds_get fault (fs f) RDS_SYS_CFG cfg_row CFG_PARA_BUF_LEN cfg_row_ok Hsm ltac:(discriminate) f eq_refl Hb)
    as (a & f1 & l & E & _ & F & S & G).
  destruct (no_data _ _ _ Hl G) as (e & -> & ->). cbn [do_steps fold_left] in F.
  assert (on_files (rds_get fault RDS_SYS_CFG CFG_PARA_BUF_LEN) s1 = Some (inl e, set_files f1 s1)) as Eg.
  { unfold on_files. change (files s1) with f. by rewrite E. }
  set (s2 := set_buf left (set_files f1 s1)).
  assert (cfg_ok s2) as Hs2 by by split.
  assert (bytes_ok (fs (files s2))) as Hf2 by (change (bytes_ok (fs f1)); by rewrite F).
  destruct (set_defaults_ok default_paras s2 Hs2 Hf2 (defaults_ok Hbh)) as (b & Ed & Hbuf & V).
  set (s3 := set_buf b s2) in *. assert (cfg_ok s3) as Hs3 by by split.
  destruct (save_ok fault ls ls_below s3 Hs3 Hf2) as (a3 & f3 & l3 & E3 & [W1 W2 [a4 W3]]).
  change (fs (files s3)) with (fs f1) in *. rewrite F in *.
  set (s4 := mark_status false (set_files f3 s3)).
  assert (cfg_ok s4) as Hs4 by by split.
  destruct (upgrade_ok ver0 s4 Hs4) as (b5 & E5 & Hb5 & V5).
  { change (bytes_ok (fs f3)). rewrite W1. by apply do_steps_bytes. }
  exists (set_buf b5 s4), b, l3. split.
  { unfold cfg_restore_para. rewrite run_assoc, (st_bind_run _ _ _ _ _ Eg). cbv beta iota. rewrite !run_assoc, run_mod.
    fold s2. unfold cfg_set_default_para. rewrite !run_assoc, (st_bind_run _ _ _ _ _ Ed), run_ret, run_assoc.
    rewrite (st_bind_run _ _ _ _ _ E3), run_assoc, run_mod, run_ret, run_assoc.
    fold s4. rewrite (st_bind_run _ _ _ _ _ E5). done. }
  split; [by apply set_buf_ok |]. split; [done |]. split; [done |]. split; [by exists a4 |]. split; [done |].
  split; [done |]. split; [exact V | exact V5].
Qed.
End restart.

(** ** Properties *)

(** C13: the configuration is a map from numbers to values with the registered callbacks:
    all sequences of calls of its interface are defined and give the results, the values
    and, in the order of registration, the notifications with the old and the new value
    that the map gives; a call that fails changes nothing, the failures of files do not
    matter. *)
Theorem cfg_refines fault ls ops s c :
  (forall f d, Forall (entry_below d) (ls f d)) ->
  Forall op_ok ops -> cfg_rep s c -> bytes_ok (fs (files s)) ->
  let '(outs, calls, c') := spec_ops ops c in
  exists s', run_ops fault ls ops s = Some (outs, s') /\ cfg_rep s' c' /\ cfg_calls s' = cfg_calls s ++ calls.
Proof.
  intros Hls Ho. revert s c. induction ops as [|op ops IH]; intros s c Hr Hf; cbn [spec_ops run_ops].
  { exists s. by rewrite app_nil_r. }
  apply Forall_cons_1 in Ho as [Ho1 Ho]. pose proof (op_refines fault ls Hls op s c Ho1 Hr Hf) as H.
  destruct (spec_op op c) as [[[ret v] calls] c1]. destruct H as (s1 & E1 & R1 & F1 & C1).
  specialize (IH Ho s1 c1 R1 F1). destruct (spec_ops ops c1) as [[outs more] c2].
  destruct IH as (s2 & E2 & R2 & C2). exists s2. rewrite (st_bind_run _ _ _ _ _ E1), (st_bind_run _ _ _ _ _ E2).
  split; [done |]. split; [done |]. by rewrite C2, C1, app_assoc.
Qed.

(** C11: [cfg_set_para] on a configuration that is stored sets the value and no other,
    whatever calls fail. If the stored master was intact before or the rename is not
    lost, after a loss of power at any point of the call a next start in which no call
    fails restores the configuration as it was stored before or as it is after the call;
    the one after the call if that was completed without failures. The key that an
    upgrade resets is excepted. *)
Theorem cfg_survives fault ls behind left ver0 s id d stored :
  (forall f d, Forall (entry_below d) (ls f d)) -> buf_ok left ->
  cfg_ok s -> valid_id id -> cfg_len id <= len d -> Forall is_byte d ->
  bytes_ok (fs (files s)) -> rds_lookup RDS_SYS_CFG (fs (files s)) = Some stored -> buf_ok stored ->
  exists s' l, cfg_set_para fault ls id (Some d) (cfg_len id) s = Some (0, s') /\
    fs (files s') = do_steps l (fs (files s)) /\
    (forall j, valid_id j -> cfg_value s' j = if j =? id then take (Z.to_nat (cfg_len id)) d else cfg_value s j) /\
    forall done fault', torn l done -> intact cfg_row (fs (files s)) \/ renamed cfg_row l -> ~ faulty fault' ->
      small (do_steps done (fs (files s))) ->
      exists s2 b, cfg_init fault' ls behind left ver0
          (cfg_start {| fs := do_steps done (fs (files s)); trace := []; tick := 0 |}) = Some (0, s2) /\
        cfg_para_status s2 = true /\ (b = stored \/ b = cfg_para_buf s') /\
        (~ faulty fault -> done = l -> b = cfg_para_buf s') /\
        forall j, valid_id j -> j <> CFG_ITEM_FTTSP_TUKEY -> cfg_value s2 j = value_in b j.
Proof.
  intros Hls Hleft Hs Hid Hd Hb Hf Hst Bst.
  destruct (set_ok fault ls Hls s id Hs Hid d CFG_SET_UNSILENT Hf Hd Hb) as (s' & E & I).
  unfold is_set in I. change (CFG_SET_UNSILENT =? 0) with true in I. cbv iota in I.
  destruct I as (f & l & [W1 W2 [a U]] & Es). exists s', l. subst s'.
  set (v := take (Z.to_nat (cfg_len id)) d) in *. pose proof (cfg_bounds id Hid).
  assert (len v = cfg_len id) as Hv by (unfold v; rewrite len_take; lia).
  assert (buf_ok (cfg_para_buf s)) as B by by destruct Hs.
  assert (buf_ok (with_value (cfg_para_buf s) id v)) as B' by (apply with_value_ok; try done; by apply Forall_take).
  split; [exact E |]. split; [exact W1 |]. split; [intros j Hj; by apply value_with |].
  intros dn fault' T Hin NF Hsm. change (files (set_buf _ s)) with (files s) in *.
  change (cfg_para_buf (set_buf ?b s)) with b in *. set (b := with_value _ _ _) in *.
  assert (0 < len b < 2 ^ 32) as Lb by (destruct B' as [-> _]; split; reflexivity).
  assert (exists b0, rds_lookup RDS_SYS_CFG (do_steps dn (fs (files s))) = Some b0 /\ (b0 = stored \/ b0 = b) /\
    (~ faulty fault -> dn = l -> b0 = b)) as (b0 & Hl & Hc & Hn).
  { destruct (updates_torn fault RDS_SYS_CFG cfg_row b _ cfg_row_ok Lb a l dn U T Hin) as [Eq | Eq];
      [exists stored; rewrite Hst in Eq | exists b]; (split; [exact Eq | split; [auto |]]); [| done].
    intros Nf ->. destruct (updates_done fault RDS_SYS_CFG cfg_row b _ cfg_row_ok Lb a l Nf U) as [Em _].
    rewrite (lookup_row _ _ _ cfg_row_ok), Em in Eq. congruence. }
  assert (buf_ok b0) as B0 by (destruct Hc as [-> | ->]; done).
  destruct (restore_ok fault' ls Hls behind left ver0 Hleft
    {| fs := do_steps dn (fs (files s)); trace := []; tick := 0 |} b0) as (s2 & E2 & _ & St & _ & V); try done.
  { apply do_steps_bytes; [done |]. by eapply torn_step_ok. }
  exists s2, b0. split; [exact E2 |]. split; [done |]. split; [exact Hc |]. by split.
Qed.

(** C14: the start without stored data is defined if memory can be read behind the
    objects of the defaults, whatever calls fail: an item with a default has the bytes of
    the last default and, where the object is shorter than the item, bytes from behind
    it; an item without a default keeps what the failed [rds_get] left in the buffer;
    no module is notified; without failures the whole is stored. *)
Theorem cfg_first_start fault ls behind left ver0 f :
  (forall f d, Forall (entry_below d) (ls f d)) -> buf_ok left ->
  (forall id, CFG_MAX_PARA_LEN <= len (behind id) /\ Forall is_byte (behind id)) ->
  bytes_ok (fs f) -> small (fs f) -> rds_lookup RDS_SYS_CFG (fs f) = None ->
  exists s' b, cfg_init fault ls behind left ver0 (cfg_start f) = Some (0, s') /\
    cfg_para_status s' = false /\ cfg_calls s' = [] /\
    (forall id, valid_id id -> value_in b id =
      match last_default default_paras id with Some d => default_value behind d | None => value_in left id end) /\
    (forall id, valid_id id -> cfg_value s' id =
      if negb (same_version ver0) && (id =? CFG_ITEM_FTTSP_TUKEY) then ft_tukey else value_in b id) /\
    (~ faulty fault -> rds_lookup RDS_SYS_CFG (fs (files s')) = Some b).
Proof.
  intros Hls Hleft Hbh Hf Hsm Hl.
  destruct (first_start fault ls Hls behind left ver0 Hleft f Hbh Hf Hsm Hl)
    as (s' & b & l & E & _ & St & C & (a & U) & F & Hb & V & V').
  exists s', b. split; [exact E |]. split; [done |]. split; [done |]. split; [exact V |]. split; [exact V' |].
  intros NF. rewrite F. assert (0 < len b < 2 ^ 32) as Lb by (destruct Hb as [-> _]; split; reflexivity).
  destruct (updates_done fault RDS_SYS_CFG cfg_row b _ cfg_row_ok Lb a l NF U) as [Em _].
  by rewrite (lookup_row _ _ _ cfg_row_ok), Em.
Qed.

(** ** Witnesses *)

Definition no_files : FILES := {| fs := ∅; trace := []; tick := 0 |}.
Definition empty_conf : CONF := {| conf_val := fun id => value_in zero_buf id; conf_reg := [] |}.

(** Two modules hear of the interval of the reports. *)
Lemma cfg_refines_witness : exists s',
  run_ops no_fault empty_ls
    [OpRegister CFG_ITEM_GB32960_INTERVAL (Some 1%nat); OpRegister CFG_ITEM_GB32960_INTERVAL (Some 2%nat);
     OpSet CFG_ITEM_GB32960_INTERVAL (Some [30; 0]) 2 CFG_SET_UNSILENT; OpSet CFG_ITEM_GB32960_INTERVAL (Some [30]) 1 0;
     OpGet CFG_ITEM_GB32960_INTERVAL 8; OpGet CFG_ITEM_GB32960_PORT 2] (initialised (cfg_start no_files)) =
  Some ([(0, []); (0, []); (0, []); (CFG_INVALID_PARAMETER, []); (0, [30; 0]); (0, [0; 0])], s') /\
  cfg_calls s' =
    [CfgChanged 1 CFG_ITEM_GB32960_INTERVAL (pad [0; 0]) (pad [30; 0]) 2;
     CfgChanged 2 CFG_ITEM_GB32960_INTERVAL (pad [0; 0]) (pad [30; 0]) 2].
Proof.
  set (ops := [OpRegister CFG_ITEM_GB32960_INTERVAL (Some 1%nat); OpRegister CFG_ITEM_GB32960_INTERVAL (Some 2%nat);
     OpSet CFG_ITEM_GB32960_INTERVAL (Some [30; 0]) 2 CFG_SET_UNSILENT; OpSet CFG_ITEM_GB32960_INTERVAL (Some [30]) 1 0;
     OpGet CFG_ITEM_GB32960_INTERVAL 8; OpGet CFG_ITEM_GB32960_PORT 2]).
  assert (Forall op_ok ops) as Ho.
  { repeat apply List.Forall_cons; try apply List.Forall_nil; cbn [op_ok]; try exact Logic.I;
      (split; [discriminate |]); try discriminate;
      intros d [= <-]; (split; [discriminate |]); by apply is_bytes. }
  pose proof (cfg_refines no_fault empty_ls ops (initialised (cfg_start no_files)) empty_conf
    (fun f d => List.Forall_nil _) Ho) as H.
  assert (spec_ops ops empty_conf = ([(0, []); (0, []); (0, []); (CFG_INVALID_PARAMETER, []); (0, [30; 0]); (0, [0; 0])],
    [CfgChanged 1 CFG_ITEM_GB32960_INTERVAL (pad [0; 0]) (pad [30; 0]) 2;
     CfgChanged 2 CFG_ITEM_GB32960_INTERVAL (pad [0; 0]) (pad [30; 0]) 2], snd (spec_ops ops empty_conf))) as Es.
  { vm_compute. reflexivity. }
  rewrite Es in H. destruct H as (s' & E & _ & C).
  - split; [apply initialised_ok | done | done].
  - intros p c Hc. discriminate.
  - exists s'. split; [exact E | exact C].
Defined.

Lemma rds_image_len data : len (rds_image data) = sizeof_hdr + (len data + 16).
Proof. unfold rds_image. by rewrite !len_app, rds_hdr_len, md5_len. Qed.

Definition stored_files : FILES :=
  {| fs := {[ rds_get_full_path cfg_row RDS_PATH_MASTER := rds_image zero_buf ]}; trace := []; tick := 0 |}.

(** The port of the server is set on a box that has stored zeros, the power is lost at
    once. *)
Lemma cfg_survives_witness : exists s' l,
  cfg_set_para no_fault empty_ls CFG_ITEM_GB32960_PORT (Some [80; 0]) 2 (initialised (cfg_start stored_files)) = Some (0, s') /\
  cfg_value s' CFG_ITEM_GB32960_PORT = [80; 0] /\
  exists s2, cfg_init no_fault empty_ls (fun _ => []) zero_buf zero_buf (cfg_start stored_files) = Some (0, s2) /\
    (cfg_value s2 CFG_ITEM_GB32960_PORT = [0; 0] \/ cfg_value s2 CFG_ITEM_GB32960_PORT = [80; 0]) /\ torn l [].
Proof.
  assert (forall p c, fs stored_files !! p = Some c -> c = rds_image zero_buf) as Hc.
  { intros p c H. change (fs stored_files) with ({[ rds_get_full_path cfg_row RDS_PATH_MASTER := rds_image zero_buf ]} : FS) in H.
    apply lookup_singleton_Some in H as [_ H]. exact (eq_sym H). }
  pose proof zero_buf_ok as [Lz Bz].
  assert (0 < len zero_buf < 2 ^ 32) as Ls by (rewrite Lz; split; reflexivity).
  assert (valid_id CFG_ITEM_GB32960_PORT /\ CFG_ITEM_GB32960_PORT <> CFG_ITEM_FTTSP_TUKEY) as [Hp Np].
  { split; [by vm_compute | discriminate]. }
  destruct (cfg_survives no_fault empty_ls (fun _ => []) zero_buf zero_buf (initialised (cfg_start stored_files))
    CFG_ITEM_GB32960_PORT [80; 0] zero_buf) as (s' & l & E & _ & V & R).
  - intros f d. constructor.
  - exact zero_buf_ok.
  - apply initialised_ok.
  - exact Hp.
  - discriminate.
  - by apply is_bytes.
  - intros p c H. rewrite (Hc _ _ H). unfold rds_image.
    apply Forall_app_2; [apply rds_hdr_bytes |]. apply Forall_app_2; [exact Bz | apply md5_bytes].
  - eapply lookup_master; [exact cfg_row_ok | apply lookup_singleton_eq | by apply rds_value_image].
  - exact zero_buf_ok.
  - destruct (R [] no_fault) as (s2 & b & E2 & _ & Hb & _ & V2).
    + constructor.
    + left. intros c H. rewrite (Hc _ _ H), rds_value_image by exact Ls. by eexists.
    + intros [n [k H]]. discriminate.
    + intros p c H. rewrite (Hc _ _ H), rds_image_len. by vm_compute.
    + pose proof (V CFG_ITEM_GB32960_PORT Hp) as Vp. rewrite Z.eqb_refl in Vp.
      exists s', l. split; [exact E |]. split; [exact Vp |]. exists s2. split; [exact E2 |].
      split; [| constructor]. rewrite (V2 _ Hp Np).
      destruct Hb as [-> | ->]; [left; vm_compute; reflexivity | right; exact Vp].
Defined.

Definition sevens (id : Z) : list Z := replicate (Z.to_nat CFG_MAX_PARA_LEN) 7.

(** A box that was never started: the name of the access point ends after its five
    letters, behind which are bytes of the memory. *)
Lemma cfg_first_start_witness : exists s',
  cfg_init no_fault empty_ls sevens zero_buf zero_buf (cfg_start no_files) = Some (0, s') /\
  take 8 (cfg_value s' CFG_ITEM_WAN_APN) = c_chars "ctnet" ++ [0; 7; 7] /\
  cfg_value s' CFG_ITEM_FTTSP_TUKEY = ft_tukey.
Proof.
  assert (valid_id CFG_ITEM_WAN_APN /\ valid_id CFG_ITEM_FTTSP_TUKEY) as [Hi Hk] by (split; by vm_compute).
  destruct (cfg_first_start no_fault empty_ls sevens zero_buf zero_buf no_files) as (s' & b & E & _ & _ & V & V' & _).
  - intros f d. constructor.
  - exact zero_buf_ok.
  - intros id. split; [by vm_compute |]. apply Forall_replicate. split; [done | reflexivity].
  - intros p c H. discriminate.
  - intros p c H. discriminate.
  - reflexivity.
  - exists s'. split; [exact E |]. split.
    + rewrite (V' _ Hi), (V _ Hi). vm_compute. reflexivity.
    + rewrite (V' _ Hk). vm_compute. reflexivity.
Defined.

(** Without memory behind the objects the defaults are undefined: 256 bytes are read from
    one. *)
Example cfg_defaults_read_past :
  cfg_set_default_para no_fault empty_ls (fun _ => []) CFG_SET_SILENT (initialised (cfg_start no_files)) = None.
Proof. vm_compute. reflexivity. Qed.
