(* ===== verification/Cstd.v ===== *)
(** * The C standard library, as far as the code uses it

    Doubles (the binary64 numbers of the Standard Library, round to nearest),
    strings and [sscanf].  The other functions of <string.h> on blocks are in
    [Prelude]. *)

From Stdlib Require Import SpecFloat.
From stdpp Require Import strings.
From S2P Require Import Prelude.

Open Scope string_scope.
Open Scope list_scope.
Open Scope Z_scope.

(** ** Doubles *)

Definition double : Type := spec_float.
Definition d_of_Z (z : Z) : double := binary_normalize 53 1024 z 0 false.
Definition d_add : double -> double -> double := SFadd 53 1024.
Definition d_sub : double -> double -> double := SFsub 53 1024.
Definition d_mul : double -> double -> double := SFmul 53 1024.
Definition d_div : double -> double -> double := SFdiv 53 1024.
Definition d_lt : double -> double -> bool := SFltb.
(** [a == b]; [a != b] is its negation, which holds for NaNs. *)
Definition d_eq : double -> double -> bool := SFeqb.
(** [0.5E-6] *)
Definition d_half_micro : double := S754_finite false 4722366482869645 (-73).

(** As a condition. *)
Definition d_true (x : double) : bool := match x with S754_zero _ => false | _ => true end.

(** Truncation. *)
Definition d_trunc (x : double) : option Z :=
  match x with
  | S754_zero _ => Some 0
  | S754_finite s m e =>
      let a := if 0 <=? e then Z.pos m * 2 ^ e else Z.pos m / 2 ^ (- e) in
      Some (if s then - a else a)
  | _ => None
  end.

Definition d_to (lo hi : Z) (x : double) : option Z :=
  z ← d_trunc x; if (lo <=? z) && (z <? hi) then Some z else None.
Definition d_to_u32 : double -> option Z := d_to 0 (2 ^ 32).
Definition d_to_u8 : double -> option Z := d_to 0 256.
Definition d_to_int : double -> option Z := d_to (- 2 ^ 31) (2 ^ 31).

(** The double next to [(-1)^s m 10^e]. *)
Definition d_of_decimal (s : bool) (m e : Z) : double :=
  if m =? 0 then S754_zero s
  else if 0 <=? e then binary_normalize 53 1024 ((if s then -1 else 1) * (m * 10 ^ e)) 0 s
  else let '(q, ex, l) := SFdiv_core_binary 53 1024 m 0 (10 ^ (- e)) 0 in binary_round_aux 53 1024 s q ex l.

(** ** Strings

    A string is the list of its characters without the final zero. *)

(** The string in a buffer. *)
Fixpoint c_str (l : list Z) : list Z :=
  match l with [] => [] | c :: l => if c =? 0 then [] else c :: c_str l end.

Definition is_space (c : Z) : bool := (c =? 32) || ((9 <=? c) && (c <=? 13)).
Definition isdigit (c : Z) : bool := (48 <=? c) && (c <=? 57).

Definition str_eqb (a b : list Z) : bool := bool_decide (a = b).

Fixpoint has_prefix (p l : list Z) : bool :=
  match p, l with
  | [], _ => true
  | a :: p, c :: l => (a =? c) && has_prefix p l
  | _, [] => false
  end.

(** [strstr(l, p) != NULL] *)
Fixpoint strstr (l p : list Z) : bool :=
  has_prefix p l || match l with [] => false | _ :: l => strstr l p end.

(** What is before and after the last [c]; [None] if there is none. *)
Fixpoint strrchr (l : list Z) (c : Z) : option (list Z * list Z) :=
  match l with
  | [] => None
  | x :: l =>
      match strrchr l c with
      | Some (a, b) => Some (x :: a, b)
      | None => if x =? c then Some ([], l) else None
      end
  end.

(** [strncpy(dst, src, n - 1)] and a zero at the end of [dst]. *)
Definition strncpy0 (src : list Z) (n : Z) : list Z := take (Z.to_nat (n - 1)) src.

(** [fgets] with a buffer of [n] bytes: the line and the rest of the file. *)
Fixpoint fgets (n : nat) (l : list Z) : list Z * list Z :=
  match n, l with
  | S (S _ as n'), c :: l =>
      if c =? 10 then ([c], l) else let '(a, b) := fgets n' l in (c :: a, b)
  | _, _ => ([], l)
  end.

(** ** [sscanf]

    A value that was converted: a number, a double, a string. *)
Inductive SCANNED := SvNum (z : Z) | SvDbl (d : double) | SvStr (s : list Z).

Fixpoint skip_space (l : list Z) : list Z :=
  match l with c :: r => if is_space c then skip_space r else l | [] => [] end.

Definition digit_of (base c : Z) : option Z :=
  let d := if (48 <=? c) && (c <=? 57) then c - 48
           else if (97 <=? c) && (c <=? 102) then c - 87
           else if (65 <=? c) && (c <=? 70) then c - 55 else 16 in
  if d <? base then Some d else None.

(** At most [w] digits, and what follows. *)
Fixpoint scan_digits (base : Z) (w : nat) (l : list Z) : list Z * list Z :=
  match w, l with
  | S w, c :: r =>
      match digit_of base c with
      | Some d => let '(ds, r) := scan_digits base w r in (d :: ds, r)
      | None => ([], l)
      end
  | _, _ => ([], l)
  end.

Definition digits_value (base : Z) (ds : list Z) : Z := fold_left (fun v d => v * base + d) ds 0.

(** Sign, prefix and digits of an integer, [w] characters at most. *)
Definition scan_sign (w : nat) (l : list Z) : Z * nat * list Z :=
  match w, l with
  | S w', c :: r => if c =? 45 then (-1, w', r) else if c =? 43 then (1, w', r) else (1, w, l)
  | _, _ => (1, w, l)
  end.

Definition scan_prefix (base : Z) (w : nat) (l : list Z) : list Z * nat * list Z :=
  match w, l with
  | S (S w'), z :: c :: r =>
      if (base =? 16) && (z =? 48) && ((c =? 120) || (c =? 88)) then ([0], w', r) else ([], w, l)
  | _, _ => ([], w, l)
  end.

Definition scan_integer (base : Z) (w : nat) (l : list Z) : option (Z * Z * list Z) :=
  let '(sign, w, l) := scan_sign w (skip_space l) in
  let '(ds0, w, l) := scan_prefix base w l in
  let '(ds, l) := scan_digits base w l in
  match ds0 ++ ds with [] => None | ds => Some (sign, digits_value base ds, l) end.

(** [strtoul] and [strtol] with [long]s of 32 bits: a number out of range is the
    nearest limit. *)
Definition to_ulong (sign v : Z) : Z := if v <? 2 ^ 32 then u32 (sign * v) else 2 ^ 32 - 1.
Definition to_long (sign v : Z) : Z := Z.max (- 2 ^ 31) (Z.min (2 ^ 31 - 1) (sign * v)).

(** *** Floating-point numbers

    The input is the longest prefix that is, or begins, a number; so a number
    that breaks off ([1e], [0x], [infi]) is no number.  *)
Definition lower (c : Z) : Z := if (65 <=? c) && (c <=? 90) then c + 32 else c.

(** The rest after the letters [p] in any case. *)
Fixpoint scan_word (p l : list Z) : option (list Z) :=
  match p, l with
  | [], _ => Some l
  | a :: p, c :: l => if lower c =? a then scan_word p l else None
  | _, [] => None
  end.

(** After [nan]: [(chars)] or nothing. *)
Fixpoint scan_nan_chars (l : list Z) : option (list Z) :=
  match l with
  | c :: l =>
      if c =? 41 then Some l
      else if isdigit c || (c =? 95) || ((97 <=? lower c) && (lower c <=? 122)) then scan_nan_chars l else None
  | [] => None
  end.

Definition scan_infnan (s : bool) (l : list Z) : option (double * list Z) :=
  match scan_word (c_chars "inf") l with
  | Some (c :: r) =>
      if lower c =? 105 then r ← scan_word (c_chars "nity") r; Some (S754_infinity s, r)
      else Some (S754_infinity s, c :: r)
  | Some [] => Some (S754_infinity s, [])
  | None =>
      r ← scan_word (c_chars "nan") l;
      match r with
      | c :: r' => if c =? 40 then r ← scan_nan_chars r'; Some (S754_nan, r) else Some (S754_nan, r)
      | [] => Some (S754_nan, [])
      end
  end.

(** [(mark) sign digits], [0] without it. *)
Definition scan_exponent (mark : Z) (l : list Z) : option (Z * list Z) :=
  match l with
  | c :: r =>
      if lower c =? mark then
        let '(sign, w, r) := scan_sign (length r) r in
        let '(ds, r) := scan_digits 10 w r in
        match ds with [] => None | _ => Some (sign * digits_value 10 ds, r) end
      else Some (0, l)
  | [] => Some (0, [])
  end.

(** Digits with a point and an exponent: mantissa, number of digits after the
    point, exponent. *)
Definition scan_mantissa (base mark : Z) (l : list Z) : option (Z * Z * Z * list Z) :=
  let '(ds1, l1) := scan_digits base (length l) l in
  let '(ds2, l2) := match l1 with
                    | c :: r => if c =? 46 then scan_digits base (length r) r else ([], l1)
                    | [] => ([], l1)
                    end in
  match ds1 ++ ds2 with
  | [] => None
  | ds => '(e, r) ← scan_exponent mark l2; Some (digits_value base ds, len ds2, e, r)
  end.

Definition is_hex_float (l : list Z) : bool :=
  match l with z :: x :: _ => (z =? 48) && (lower x =? 120) | _ => false end.

Definition scan_double (l : list Z) : option (double * list Z) :=
  let '(sign, _, l) := scan_sign (length l) (skip_space l) in
  let s := sign <? 0 in
  match l with
  | c :: _ =>
      if (lower c =? 105) || (lower c =? 110) then scan_infnan s l
      else if is_hex_float l then
        '(m, k, e, r) ← scan_mantissa 16 112 (drop 2 l); Some (binary_normalize 53 1024 (sign * m) (e - 4 * k) s, r)
      else
        '(m, k, e, r) ← scan_mantissa 10 101 l; Some (d_of_decimal s m (e - k), r)
  | [] => None
  end.

(** *** Strings *)

(** At most [w] characters that are no white space. *)
Fixpoint scan_chars (w : nat) (l : list Z) : list Z * list Z :=
  match w, l with
  | S w, c :: r => if is_space c then ([], l) else let '(a, r) := scan_chars w r in (c :: a, r)
  | _, _ => ([], l)
  end.

(** Up to the character [x]. *)
Fixpoint scan_until (x : Z) (l : list Z) : list Z * list Z :=
  match l with
  | c :: r => if c =? x then ([], l) else let '(a, r) := scan_until x r in (c :: a, r)
  | [] => ([], [])
  end.

(** *** Formats *)

(** The directives that the code uses: white space, literal characters, [%c],
    [%u] and [%lu], [%hu], [%x], [%d], [%s], [%[^x]] and [%lf]; with [*] and a
    width where the code has them. *)
Inductive CONV := CChar | CUlong (base : Z) | CUshort | CInt | CStr | CUntil (x : Z) | CDouble.
Inductive DIRECTIVE := DSpace | DLit (c : Z) | DConv (assign : bool) (width : option nat) (c : CONV).

Record SPEC := { sp_assign : bool; sp_width : option nat; sp_short : bool }.
Definition spec0 : SPEC := {| sp_assign := true; sp_width := None; sp_short := false |}.

(** [sp]: inside of a directive. *)
Fixpoint parse_fmt (sp : option SPEC) (fmt : list Z) : list DIRECTIVE :=
  match sp, fmt with
  | _, [] => []
  | None, f :: fmt =>
      if f =? 37 then parse_fmt (Some spec0) fmt else (if is_space f then DSpace else DLit f) :: parse_fmt None fmt
  | Some sp, f :: fmt =>
      let conv c := DConv (sp_assign sp) (sp_width sp) c in
      if f =? 42 then parse_fmt (Some {| sp with sp_assign := false |}) fmt                   (* * *)
      else if isdigit f then
        parse_fmt (Some {| sp with sp_width := Some (10 * default 0 (sp_width sp) + Z.to_nat (f - 48))%nat |}) fmt
      else if f =? 108 then parse_fmt (Some sp) fmt                                           (* l *)
      else if f =? 104 then parse_fmt (Some {| sp with sp_short := true |}) fmt               (* h *)
      else if f =? 99 then conv CChar :: parse_fmt None fmt                                   (* c *)
      else if f =? 117 then conv (if sp_short sp then CUshort else CUlong 10) :: parse_fmt None fmt    (* u *)
      else if f =? 120 then conv (CUlong 16) :: parse_fmt None fmt                            (* x *)
      else if f =? 100 then conv CInt :: parse_fmt None fmt                                   (* d *)
      else if f =? 115 then conv CStr :: parse_fmt None fmt                                   (* s *)
      else if f =? 102 then conv CDouble :: parse_fmt None fmt                                (* f *)
      else match fmt with
           | _ :: x :: _ :: fmt => conv (CUntil x) :: parse_fmt None fmt                      (* [^x] *)
           | _ => []
           end
  end.

Definition scan_conv (w : option nat) (c : CONV) (l : list Z) : option (SCANNED * list Z) :=
  let n := default (length l) w in
  match c with
  | CChar => match l with c :: r => Some (SvNum c, r) | [] => None end
  | CUlong base => '(s, v, r) ← scan_integer base n l; Some (SvNum (to_ulong s v), r)
  | CUshort => '(s, v, r) ← scan_integer 10 n l; Some (SvNum (u16 (to_ulong s v)), r)
  | CInt => '(s, v, r) ← scan_integer 10 n l; Some (SvNum (to_long s v), r)
  | CStr => let '(a, r) := scan_chars n (skip_space l) in match a with [] => None | _ => Some (SvStr a, r) end
  | CUntil x => let '(a, r) := scan_until x l in match a with [] => None | _ => Some (SvStr a, r) end
  | CDouble => '(d, r) ← scan_double l; Some (SvDbl d, r)
  end.

(** The values that are assigned, until the first directive that fails; their
    number is the result of the C function, when the first one succeeds. *)
Fixpoint scan (ds : list DIRECTIVE) (l : list Z) : list SCANNED :=
  match ds with
  | [] => []
  | DSpace :: ds => scan ds (skip_space l)
  | DLit f :: ds => match l with c :: l => if c =? f then scan ds l else [] | [] => [] end
  | DConv assign w c :: ds =>
      match scan_conv w c l with
      | Some (v, l) => if assign then v :: scan ds l else scan ds l
      | None => []
      end
  end.

Definition sscanf (fmt l : list Z) : list SCANNED := scan (parse_fmt None fmt) l.

Example scan_surfix : sscanf (c_chars "G%1x%3x") (c_chars "G8012 rest") = [SvNum 8; SvNum 18].
Proof. reflexivity. Qed.

Example scan_doubles :
  sscanf (c_chars "(%lf,%lf) [%lf") (c_chars "(0.1,-40) [1e-3") =
    [SvDbl (S754_finite false 7205759403792794 (-56)); SvDbl (S754_finite true 5629499534213120 (-47));
     SvDbl (S754_finite false 4611686018427388 (-62))].
Proof. vm_compute. reflexivity. Qed.

(** ** What [sscanf] gives

    What is left of the input is a suffix of it, and a value has the type of its
    directive. *)
Create HintDb scan.

#[local] Hint Extern 1 (_ `suffix_of` _) => reflexivity : scan.
#[local] Hint Resolve suffix_cons_r : scan.

Lemma suffix_Forall {A} (P : A -> Prop) l k : k `suffix_of` l -> Forall P l -> Forall P k.
Proof. intros [x ->]. by intros [_ ?]%Forall_app. Qed.

Lemma suffix_trans_cons {A} (c : A) r l : r `suffix_of` l -> r `suffix_of` c :: l.
Proof. apply suffix_cons_r. Qed.

Lemma skip_space_suffix l : skip_space l `suffix_of` l.
Proof. induction l as [|c l IH]; cbn; [done |]. destruct (is_space c); [by apply suffix_cons_r | done]. Qed.

Lemma scan_digits_suffix base w : forall l ds r, scan_digits base w l = (ds, r) -> r `suffix_of` l.
Proof.
  induction w as [|w IH]; intros [|c l] ds r; cbn; try (by intros [= _ <-]).
  destruct (digit_of base c); [| by intros [= _ <-]].
  destruct (scan_digits base w l) as [ds' r'] eqn:E. intros [= _ <-]. by eapply suffix_cons_r, IH.
Qed.

Lemma scan_sign_suffix w l sign w1 r : scan_sign w l = (sign, w1, r) -> r `suffix_of` l.
Proof. unfold scan_sign. intros. repeat case_match; simplify_eq; auto with scan. Qed.

Lemma scan_prefix_suffix base w l ds w1 r : scan_prefix base w l = (ds, w1, r) -> r `suffix_of` l.
Proof. unfold scan_prefix. intros. repeat case_match; simplify_eq; auto with scan. Qed.

Lemma scan_integer_suffix base w l s v r : scan_integer base w l = Some (s, v, r) -> r `suffix_of` l.
Proof.
  unfold scan_integer. destruct (scan_sign w (skip_space l)) as [[sign w1] l1] eqn:E1. apply scan_sign_suffix in E1.
  destruct (scan_prefix base w1 l1) as [[ds0 w2] l2] eqn:E2. apply scan_prefix_suffix in E2.
  destruct (scan_digits base w2 l2) as [ds l3] eqn:E3. apply scan_digits_suffix in E3.
  destruct (ds0 ++ ds); [done |]. intros [= _ _ <-].
  etransitivity; [done |]. etransitivity; [done |]. etransitivity; [done | apply skip_space_suffix].
Qed.

Lemma scan_word_suffix p : forall l r, scan_word p l = Some r -> r `suffix_of` l.
Proof.
  induction p as [|a p IH]; intros [|c l] r; cbn; try (by intros [= <-]).
  destruct (lower c =? a); [| done]. intros ?%IH. by apply suffix_cons_r.
Qed.

Lemma scan_nan_suffix l : forall r, scan_nan_chars l = Some r -> r `suffix_of` l.
Proof.
  induction l as [|c l IH]; intros r; cbn; [done |]. destruct (c =? 41); [intros [= <-]; auto with scan |].
  destruct (_ || _); [| done]. intros ?%IH. by apply suffix_cons_r.
Qed.

Lemma scan_infnan_suffix s l d r : scan_infnan s l = Some (d, r) -> r `suffix_of` l.
Proof.
  unfold scan_infnan. destruct (scan_word (c_chars "inf") l) as [[|c l1]|] eqn:E; [apply scan_word_suffix in E .. |].
  - intros [= _ <-]. done.
  - destruct (lower c =? 105).
    + destruct (scan_word _ l1) eqn:E2; [| done]. intros [= _ <-]. apply scan_word_suffix in E2.
      etransitivity; [by apply suffix_cons_r | done].
    + by intros [= _ <-].
  - clear E. destruct (scan_word (c_chars "nan") l) as [[|c l1]|] eqn:E; cbn [mbind option_bind]; [apply scan_word_suffix in E .. | done].
    + by intros [= _ <-].
    + destruct (c =? 40); [| by intros [= _ <-]].
      destruct (scan_nan_chars l1) eqn:E2; [| done]. intros [= _ <-]. apply scan_nan_suffix in E2.
      etransitivity; [by apply suffix_cons_r | done].
Qed.

Lemma scan_exponent_suffix mark l e r : scan_exponent mark l = Some (e, r) -> r `suffix_of` l.
Proof.
  destruct l as [|c l]; cbn; [by intros [= _ <-] |]. destruct (_ =? mark); [| by intros [= _ <-]].
  destruct (scan_sign _ l) as [[sign w] l1] eqn:E1. apply scan_sign_suffix in E1.
  destruct (scan_digits 10 w l1) as [[|d ds] l2] eqn:E2; [done |]. apply scan_digits_suffix in E2.
  intros [= _ <-]. apply suffix_cons_r. by etransitivity.
Qed.

Lemma scan_mantissa_suffix base mark l m k e r : scan_mantissa base mark l = Some (m, k, e, r) -> r `suffix_of` l.
Proof.
  unfold scan_mantissa. destruct (scan_digits base _ l) as [ds1 l1] eqn:E1. apply scan_digits_suffix in E1.
  destruct (match l1 with [] => _ | _ :: _ => _ end) as [ds2 l2] eqn:E2.
  assert (l2 `suffix_of` l1) as H2.
  { destruct l1 as [|c l1]; [by injection E2 as <- <- |]. destruct (c =? 46); [| by injection E2 as <- <-].
    apply suffix_cons_r. by eapply scan_digits_suffix. }
  destruct (ds1 ++ ds2); [done |]. destruct (scan_exponent mark l2) as [[e' r']|] eqn:E3; [| done].
  intros [= _ _ _ <-]. apply scan_exponent_suffix in E3. etransitivity; [done |]. by etransitivity.
Qed.

Lemma scan_double_suffix l d r : scan_double l = Some (d, r) -> r `suffix_of` l.
Proof.
  unfold scan_double. destruct (scan_sign _ (skip_space l)) as [[sign w] l1] eqn:E1. apply scan_sign_suffix in E1.
  intros H. transitivity l1; [| etransitivity; [done | apply skip_space_suffix]]. clear E1.
  destruct l1 as [|c l1]; [done |]. revert H. destruct (_ || _); [apply scan_infnan_suffix |]. destruct (is_hex_float _).
  - destruct (scan_mantissa 16 112 _) as [[[[m k] e] r']|] eqn:E; [| done]. intros [= _ <-].
    apply scan_mantissa_suffix in E. etransitivity; [done |]. exists (take 2 (c :: l1)). by rewrite take_drop.
  - destruct (scan_mantissa 10 101 _) as [[[[m k] e] r']|] eqn:E; [| done]. intros [= _ <-].
    by apply scan_mantissa_suffix in E.
Qed.

Lemma scan_chars_split w : forall l a r, scan_chars w l = (a, r) ->
  l = a ++ r /\ len a <= Z.of_nat w /\ Forall (fun c => is_space c = false) a.
Proof.
  induction w as [|w IH]; intros [|c l] a r; cbn; try (by intros [= <- <-]).
  destruct (is_space c) eqn:S; [intros [= <- <-]; split; [done |]; split; [rewrite len_nil; lia | constructor] |].
  destruct (scan_chars w l) as [a' r'] eqn:E. intros [= <- <-]. destruct (IH _ _ _ E) as (-> & Hl & Hs).
  split; [done |]. split; [rewrite len_cons; lia | by constructor].
Qed.

Lemma scan_until_split x l : forall a r, scan_until x l = (a, r) -> l = a ++ r.
Proof.
  induction l as [|c l IH]; intros a r; cbn; [by intros [= <- <-] |].
  destruct (c =? x); [by intros [= <- <-] |]. destruct (scan_until x l) as [a' r'] eqn:E.
  intros [= <- <-]. by rewrite (IH _ _ eq_refl).
Qed.

(** The values of a conversion of bytes. *)
Definition conv_ok (wc : option nat * CONV) (v : SCANNED) : Prop :=
  match wc.2, v with
  | CChar, SvNum z => is_byte z
  | CUlong _, SvNum z => is_u32 z
  | CUshort, SvNum z => is_u16 z
  | CInt, SvNum z => - 2 ^ 31 <= z < 2 ^ 31
  | CStr, SvStr s =>
      s <> [] /\ Forall (fun c => is_byte c /\ is_space c = false) s /\
      match wc.1 with Some n => len s <= Z.of_nat n | None => True end
  | CUntil _, SvStr s => Forall is_byte s
  | CDouble, SvDbl _ => True
  | _, _ => False
  end.

Lemma scan_conv_ok w c l v r : Forall is_byte l -> scan_conv w c l = Some (v, r) ->
  conv_ok (w, c) v /\ r `suffix_of` l.
Proof.
  intros Hl. unfold scan_conv, conv_ok. destruct c; cbn [fst snd].
  - destruct Hl as [|c l Hc Hl]; [done |]. intros [= <- <-]. split; [done | auto with scan].
  - destruct (scan_integer _ _ l) as [[[s z] r']|] eqn:E; [| done]. intros [= <- <-]. split; [| by eapply scan_integer_suffix].
    unfold to_ulong. destruct (_ <? _); [apply u32_range | unfold is_u32; lia].
  - destruct (scan_integer _ _ l) as [[[s z] r']|] eqn:E; [| done]. intros [= <- <-]. split; [| by eapply scan_integer_suffix].
    apply u16_range.
  - destruct (scan_integer _ _ l) as [[[s z] r']|] eqn:E; [| done]. intros [= <- <-]. split; [| by eapply scan_integer_suffix].
    unfold to_long. lia.
  - destruct (scan_chars _ (skip_space l)) as [a r'] eqn:E. apply scan_chars_split in E as (E & Hlen & Hs).
    destruct a as [|x a]; [done |]. intros [= <- <-].
    assert (Forall is_byte (x :: a)) as Hb.
    { apply (suffix_Forall _ _ _ (skip_space_suffix l)) in Hl. rewrite E in Hl. by apply Forall_app in Hl as [? _]. }
    split; [split; [done |]; split; [by apply Forall_and | by destruct w] |].
    transitivity (skip_space l); [rewrite E; by eexists | apply skip_space_suffix].
  - destruct (scan_until x l) as [a r'] eqn:E. apply scan_until_split in E as ->.
    apply Forall_app in Hl as [Ha _]. destruct a; [done |]. intros [= <- <-]. split; [done | by eexists].
  - destruct (scan_double l) as [[d r']|] eqn:E; [| done]. intros [= <- <-]. split; [done | by eapply scan_double_suffix].
Qed.

(** The conversions that are assigned. *)
Definition convs (ds : list DIRECTIVE) : list (option nat * CONV) :=
  omap (fun d => match d with DConv true w c => Some (w, c) | _ => None end) ds.

Lemma scan_typed ds : forall l, Forall is_byte l -> exists k, Forall2 conv_ok (take k (convs ds)) (scan ds l).
Proof.
  induction ds as [|[|f|assign w c] ds IH]; intros l Hl; cbn [scan].
  - by exists 0%nat.
  - apply IH. by eapply suffix_Forall, Hl; apply skip_space_suffix.
  - destruct Hl as [|c l Hc Hl]; [by exists 0%nat |]. destruct (_ =? _); [by apply IH | by exists 0%nat].
  - destruct (scan_conv w c l) as [[v r]|] eqn:E; [| by exists 0%nat].
    apply scan_conv_ok in E as [Hv Hr]; [| done]. destruct (IH r (suffix_Forall _ _ _ Hr Hl)) as [k Hk].
    destruct assign; [| by exists k]. exists (S k). by constructor.
Qed.

(** All directives were converted. *)
Lemma sscanf_all fmt l vs : Forall is_byte l -> sscanf fmt l = vs -> length vs = length (convs (parse_fmt None fmt)) ->
  Forall2 conv_ok (convs (parse_fmt None fmt)) vs.
Proof.
  intros Hl E Hn. destruct (scan_typed (parse_fmt None fmt) l Hl) as [k Hk]. fold (sscanf fmt l) in Hk. rewrite E in Hk.
  rewrite take_ge in Hk; [done |]. apply Forall2_length in Hk. rewrite length_take in Hk. lia.
Qed.

(** Strings consist of characters of the input. *)
Lemma scan_strs (P : Z -> Prop) ds : forall l, Forall P l ->
  Forall (fun v => match v with SvStr s => Forall P s | _ => True end) (scan ds l).
Proof.
  induction ds as [|[|f|assign w c] ds IH]; intros l Hl; cbn [scan]; [constructor | | |].
  - apply IH. by eapply suffix_Forall, Hl; apply skip_space_suffix.
  - destruct Hl as [|c l Hc Hl]; [constructor |]. destruct (_ =? _); [by apply IH | constructor].
  - destruct (scan_conv w c l) as [[v r]|] eqn:E; [| constructor].
    assert (r `suffix_of` l /\ match v with SvStr s => Forall P s | _ => True end) as [Hr Hv].
    { unfold scan_conv in E. destruct c.
      - destruct l as [|x l]; [done |]. injection E as <- <-. split; [auto with scan | done].
      - destruct (scan_integer _ _ l) as [[[s z] r']|] eqn:E'; [| done]. injection E as <- <-.
        split; [by eapply scan_integer_suffix | done].
      - destruct (scan_integer _ _ l) as [[[s z] r']|] eqn:E'; [| done]. injection E as <- <-.
        split; [by eapply scan_integer_suffix | done].
      - destruct (scan_integer _ _ l) as [[[s z] r']|] eqn:E'; [| done]. injection E as <- <-.
        split; [by eapply scan_integer_suffix | done].
      - destruct (scan_chars _ (skip_space l)) as [a r'] eqn:E'. apply scan_chars_split in E' as (E' & _ & _).
        destruct a as [|x a]; [done |]. injection E as <- <-. pose proof (skip_space_suffix l) as Hs.
        split; [transitivity (skip_space l); [rewrite E'; by eexists | done] |].
        apply (suffix_Forall _ _ _ Hs) in Hl. rewrite E' in Hl. by apply Forall_app in Hl as [? _].
      - destruct (scan_until x l) as [a r'] eqn:E'. apply scan_until_split in E' as ->.
        apply Forall_app in Hl as [Ha _]. destruct a; [done |]. injection E as <- <-. split; [by eexists | done].
      - destruct (scan_double l) as [[d r']|] eqn:E'; [| done]. injection E as <- <-. split; [by eapply scan_double_suffix | done]. }
    assert (Forall (fun v => match v with SvStr s => Forall P s | _ => True end) (scan ds r)) by (by eapply IH, suffix_Forall).
    destruct assign; [by constructor | done].
Qed.

Lemma sscanf_strs (P : Z -> Prop) fmt l : Forall P l ->
  Forall (fun v => match v with SvStr s => Forall P s | _ => True end) (sscanf fmt l).
Proof. apply scan_strs. Qed.
