(* ===== verification/Doubles.v ===== *)
(** * Doubles that are integers

    Sums, differences and comparisons of doubles are exact on the numbers from 0 to 2^53:
    [d_add_Z], [d_sub_Z], [d_ge_Z]. *)

From Stdlib Require Import SpecFloat.
From S2P Require Import Prelude Cstd.

Open Scope Z_scope.

(** ** Digits and shifts *)

Lemma digits2_log p : Z.pos (digits2_pos p) = Z.log2 (Z.pos p) + 1.
Proof.
  induction p as [p IH | p IH |]; cbn [digits2_pos]; [| | done]; rewrite Pos2Z.inj_succ, IH.
  - rewrite Pos2Z.inj_xI, Z.log2_succ_double; lia.
  - rewrite Pos2Z.inj_xO, Z.log2_double; lia.
Qed.

Lemma iter_xO m d : Z.pos (Pos.iter xO m d) = Z.pos m * 2 ^ Z.pos d.
Proof.
  induction d as [|d IH] using Pos.peano_ind; [cbn; lia |].
  rewrite Pos.iter_succ, Pos2Z.inj_xO, IH, Pos2Z.inj_succ, Z.pow_succ_r by lia. lia.
Qed.

Lemma iter_pos_iter {A} (f : A -> A) p : forall x, SpecFloat.iter_pos f p x = Pos.iter f x p.
Proof.
  induction p as [p IH | p IH |]; intros x; cbn; [| | done]; rewrite !IH; [| done].
  by rewrite <- !Pos.iter_swap.
Qed.

Definition exact (m : positive) : shr_record := {| shr_m := Z.pos m; shr_r := false; shr_s := false |}.

Lemma shr_exact m p : forall q, Z.pos q = Z.pos m * 2 ^ Z.pos p -> SpecFloat.iter_pos shr_1 p (exact q) = exact m.
Proof.
  intros q. rewrite iter_pos_iter. revert q. induction p as [|p IH] using Pos.peano_ind; intros q Hq.
  - assert (q = xO m) as -> by lia. done.
  - rewrite Pos2Z.inj_succ, Z.pow_succ_r in Hq by lia.
    destruct q as [q | q |]; [lia | | exfalso; pose proof (Z.pow_pos_nonneg 2 (Z.pos p)); nia].
    rewrite Pos.iter_succ_r. apply IH. lia.
Qed.

Lemma shr_fexp_exact q e m t :
  Z.log2 (Z.pos q) + 1 + e - 53 = t -> -1074 <= t -> e <= t -> Z.pos q = Z.pos m * 2 ^ (t - e) ->
  shr_fexp 53 1024 (Z.pos q) e loc_Exact = (exact m, t).
Proof.
  intros Ht Hmin He Hq. unfold shr_fexp, shr, shr_record_of_loc. cbn [Zdigits2]. rewrite digits2_log.
  unfold fexp, emin. replace (Z.max _ _ - e) with (t - e) by lia.
  destruct (t - e) as [|p|p] eqn:E; [| | lia].
  - assert (q = m) as -> by lia. by replace e with t by lia.
  - fold (exact q). rewrite (shr_exact m) by done. f_equal. lia.
Qed.

(** ** The normal form *)

Definition wid (n : Z) : Z := Z.log2 n + 1.
Definition norm (n : Z) : double := S754_finite false (Z.to_pos (n * 2 ^ (53 - wid n))) (wid n - 53).

Lemma wid_range n : 0 < n < 2 ^ 53 -> 1 <= wid n <= 53.
Proof.
  intros H. unfold wid. pose proof (Z.log2_nonneg n). pose proof (Z.log2_lt_pow2 n 53). lia.
Qed.

Lemma round_aux_exact q e m t :
  Z.log2 (Z.pos q) + 1 + e - 53 = t -> -1074 <= t <= 971 -> e <= t -> Z.pos q = Z.pos m * 2 ^ (t - e) ->
  Z.log2 (Z.pos m) = 52 -> binary_round_aux 53 1024 false (Z.pos q) e loc_Exact = S754_finite false m t.
Proof.
  intros Ht Hmin He Hq Hm. unfold binary_round_aux. rewrite (shr_fexp_exact q e m t) by (done || lia).
  cbn [exact shr_m loc_of_shr_record round_nearest_even].
  rewrite (shr_fexp_exact m t m t) by (done || lia || (rewrite Z.sub_diag; lia)). cbn [exact shr_m].
  destruct (Z.leb_spec t (1024 - 53)); [done | lia].
Qed.

Lemma normalize_exact n k : 0 < n < 2 ^ 53 -> 0 <= k -> binary_normalize 53 1024 (n * 2 ^ k) (- k) false = norm n.
Proof.
  intros Hn Hk. pose proof (wid_range n Hn) as Hw. set (t := wid n - 53).
  assert (0 < n * 2 ^ k) as Hpos by (pose proof (Z.pow_pos_nonneg 2 k); nia).
  assert (0 < n * 2 ^ (53 - wid n)) as Hmpos by (pose proof (Z.pow_pos_nonneg 2 (53 - wid n)); nia).
  assert (Z.pos (Z.to_pos (n * 2 ^ (53 - wid n))) = n * 2 ^ (53 - wid n)) as Hm by lia.
  unfold norm. set (m := Z.to_pos (n * 2 ^ (53 - wid n))) in *. fold t.
  assert (Z.log2 (Z.pos m) = 52) as Hlog by (rewrite Hm, Z.log2_mul_pow2 by lia; unfold wid; lia).
  destruct (n * 2 ^ k) as [|q0|] eqn:Hq0; [lia | | lia]. cbn [binary_normalize]. unfold binary_round, shl_align.
  assert (Z.log2 (Z.pos q0) = k + Z.log2 n) as Hlog0 by (rewrite <- Hq0, Z.log2_mul_pow2; lia).
  rewrite digits2_log, Hlog0. unfold fexp, emin.
  replace (Z.max _ _ - - k) with (t + k) by (unfold t, wid in *; lia).
  replace (Z.max _ _) with t by (unfold t, wid in *; lia).
  destruct (t + k) as [|p|p] eqn:E.
  1, 2: apply round_aux_exact; [unfold t, wid in *; lia | lia | lia | | done];
    rewrite <- Hq0, Hm, <- Z.mul_assoc, <- Z.pow_add_r by lia; do 2 f_equal; unfold t; lia.
  apply round_aux_exact; [| lia | lia | | done]; rewrite iter_xO, <- Hq0.
  - rewrite <- Z.mul_assoc, <- Z.pow_add_r, Z.log2_mul_pow2 by lia. unfold t, wid in *. lia.
  - rewrite Hm, <- !Z.mul_assoc, <- !Z.pow_add_r by lia. do 2 f_equal. unfold t in *. lia.
Qed.

Lemma d_of_Z_norm n : 0 < n < 2 ^ 53 -> d_of_Z n = norm n.
Proof. intros H. unfold d_of_Z. rewrite <- (normalize_exact n 0 H) by lia. by rewrite Z.mul_1_r. Qed.

Lemma d_of_Z_exp n : 0 < n < 2 ^ 53 -> exists m e, d_of_Z n = S754_finite false m e /\ e <= 0 /\ Z.pos m = n * 2 ^ (- e).
Proof.
  intros H. pose proof (wid_range n H). rewrite d_of_Z_norm by done. do 2 eexists. split; [reflexivity |]. split; [lia |].
  replace (- (wid n - 53)) with (53 - wid n) by lia. pose proof (Z.pow_pos_nonneg 2 (53 - wid n)).
  rewrite Z2Pos.id; nia.
Qed.

Lemma align_exact m e ez : ez <= e -> Z.pos (fst (shl_align m e ez)) = Z.pos m * 2 ^ (e - ez).
Proof.
  intros H. unfold shl_align. destruct (ez - e) as [|p|p] eqn:E; cbn [fst]; [| lia |].
  - replace (e - ez) with 0 by lia. lia.
  - rewrite iter_xO. do 2 f_equal. lia.
Qed.

(** ** Exact operations *)

Lemma aligned n m e ez : Z.pos m = n * 2 ^ (- e) -> e <= 0 -> ez <= e -> Z.pos (fst (shl_align m e ez)) = n * 2 ^ (- ez).
Proof.
  intros Hm He Hz. rewrite (align_exact m e ez Hz), Hm, <- Z.mul_assoc, <- Z.pow_add_r by lia. do 2 f_equal. lia.
Qed.

Lemma normalize_Z n k : 0 <= n < 2 ^ 53 -> 0 <= k -> binary_normalize 53 1024 (n * 2 ^ k) (- k) false = d_of_Z n.
Proof.
  intros Hn Hk. destruct (Z.eq_dec n 0) as [-> | Hn0]; [done |]. rewrite normalize_exact, d_of_Z_norm by lia. done.
Qed.

Lemma d_add_Z a b : 0 <= a -> 0 <= b -> a + b < 2 ^ 53 -> d_add (d_of_Z a) (d_of_Z b) = d_of_Z (a + b).
Proof.
  intros Ha Hb Hab. destruct (Z.eq_dec a 0) as [-> | Ha0]; [|destruct (Z.eq_dec b 0) as [-> | Hb0]].
  - rewrite Z.add_0_l. destruct (Z.eq_dec b 0) as [-> | Hb0]; [done |].
    destruct (d_of_Z_exp b) as (m & e & -> & _); [lia | done].
  - rewrite Z.add_0_r. destruct (d_of_Z_exp a) as (m & e & -> & _); [lia | done].
  - destruct (d_of_Z_exp a) as (m1 & e1 & -> & He1 & Hm1); [lia |].
    destruct (d_of_Z_exp b) as (m2 & e2 & -> & He2 & Hm2); [lia |].
    unfold d_add, SFadd. cbn [cond_Zopp]. rewrite (aligned a), (aligned b) by (done || lia).
    rewrite <- Z.mul_add_distr_r. rewrite <- (normalize_Z (a + b) (- Z.min e1 e2)) by lia. do 2 f_equal; lia.
Qed.

Lemma d_sub_Z a b : 0 <= b <= a -> a < 2 ^ 53 -> d_sub (d_of_Z a) (d_of_Z b) = d_of_Z (a - b).
Proof.
  intros Hb Ha. destruct (Z.eq_dec b 0) as [-> | Hb0].
  - rewrite Z.sub_0_r. destruct (Z.eq_dec a 0) as [-> | Ha0]; [done |].
    destruct (d_of_Z_exp a) as (m & e & -> & _); [lia | done].
  - destruct (d_of_Z_exp a) as (m1 & e1 & -> & He1 & Hm1); [lia |].
    destruct (d_of_Z_exp b) as (m2 & e2 & -> & He2 & Hm2); [lia |].
    unfold d_sub, SFsub. cbn [cond_Zopp]. rewrite (aligned a), (aligned b) by (done || lia).
    rewrite <- Z.mul_sub_distr_r. rewrite <- (normalize_Z (a - b) (- Z.min e1 e2)) by lia. do 2 f_equal; lia.
Qed.

Lemma d_compare_Z a b : 0 <= a < 2 ^ 53 -> 0 <= b < 2 ^ 53 -> SFcompare (d_of_Z a) (d_of_Z b) = Some (a ?= b).
Proof.
  intros Ha Hb. destruct (Z.eq_dec a 0) as [-> | Ha0]; [|destruct (Z.eq_dec b 0) as [-> | Hb0]].
  - destruct (Z.eq_dec b 0) as [-> | Hb0]; [done |].
    destruct (d_of_Z_exp b) as (m & e & -> & _); [lia |]. assert ((0 ?= b) = Lt) as -> by (apply Z.compare_lt_iff; lia). done.
  - destruct (d_of_Z_exp a) as (m & e & -> & _); [lia |]. assert ((a ?= 0) = Gt) as -> by (apply Z.compare_gt_iff; lia). done.
  - rewrite !d_of_Z_norm by lia. unfold norm. cbn [SFcompare]. f_equal.
    pose proof (wid_range a). pose proof (wid_range b).
    destruct (Z.compare_spec (wid a - 53) (wid b - 53)) as [E | E | E]; unfold wid in E.
    + change (Pos.compare_cont Eq) with Pos.compare. rewrite Pos2Z.inj_compare.
      replace (wid b) with (wid a) by (unfold wid; lia).
      pose proof (Z.pow_pos_nonneg 2 (53 - wid a)). rewrite !Z2Pos.id by nia. symmetry.
      apply Zmult_compare_compat_r. lia.
    + symmetry. apply Z.compare_lt_iff, Z.log2_lt_cancel. lia.
    + symmetry. apply Z.compare_gt_iff, Z.log2_lt_cancel. lia.
Qed.

Lemma d_le_Z a b : 0 <= a < 2 ^ 53 -> 0 <= b < 2 ^ 53 -> SFleb (d_of_Z a) (d_of_Z b) = (a <=? b).
Proof. intros Ha Hb. unfold SFleb. rewrite d_compare_Z by done. by rewrite Z.leb_compare. Qed.
