(* ===== verification/Gps.v ===== *)
(** * Satellite positioning (src/app/base/gps)

    gps_dev.c cuts the bytes of the receiver into sentences, gps_decode.c checks and
    decodes them (NMEA: time, position, speed, altitude), converts the time to local time,
    adds up the distance and resets the receiver when the position is lost for long.

    [DECODER] holds the variables of gps_decode.c, those of gps_dev.c are [RECEIVER].  Calls
    into other modules are logged.  From outside come the clock, whether the timer starts,
    the byte in front of the receive buffer ([before], the code reads it) and the double
    on the stack that is the direction when a sentence has none ([garbage]).  The receiver
    is the one of the modem (GNSS_TYPE is GNSS_4G_MODULE).

    [gps_recv_stream] compares the receiver with a scanner of the whole stream, and
    [gps_local_time] the conversion to local time with a calendar. *)

From Stdlib Require Import SpecFloat.
From stdpp Require Import strings.
From S2P Require Import Prelude Cstd Doubles.

Open Scope string_scope.
Open Scope list_scope.
Open Scope Z_scope.

(** ** Constants and state *)

Definition GPS_INIT_FAILED : Z := Z.lor (Z.shiftl 0x0900 16) 1.
Definition GPS_INVALID_MSG : Z := GPS_INIT_FAILED + 2.
Definition GPS_INVALID_CS : Z := GPS_INIT_FAILED + 3.
Definition GPS_GET_DISTANCE_FAILED : Z := GPS_INIT_FAILED + 6.
Definition GPS_INVALID_DISTANCE_LEN : Z := GPS_INIT_FAILED + 7.
Definition GPS_LOSS_LOCK_TIMEOUT : Z := 300000.
Definition GPS_MAX_CALLBACK : Z := 4.

Inductive GPS_FIX_STATUS := GPS_UNCONNECTED | GPS_UNFIX | GPS_FIX | GPS_ERROR.

Record GPS_DATA := {
  date : Z; time : double; longitude : double; is_east : Z; latitude : double; is_north : Z;
  direction : double; knots : double; kms : double; stateUsed : Z; msl : double
}.

Record RTCTIME := { rtc_year : Z; rtc_mon : Z; rtc_mday : Z; rtc_hour : Z; rtc_min : Z; rtc_sec : Z }.

(** A callback with the sentence, the clock of the box set, the distance stored, the
    receiver reset, the timer of the data started. *)
Inductive GPS_OUT :=
  | GpsDataIn (cb : nat) (s : list Z) | GpsSynTime (t : RTCTIME) | GpsSave (distance : Z) | GpsReset.

Record DECODER := {
  gps_r_distance : Z; gps_s_distance : Z; gps_snap : GPS_DATA; gps_time_not_change : bool;
  cur_date : Z; dist_i : Z; last_sec : Z; llt : Z; gps_fix_status : GPS_FIX_STATUS;
  gps_cb_lst : list nat; out : list GPS_OUT
}.

Record RECEIVER := {
  recv_buf : list Z; last_recv_cnt : Z; msg : list Z; timer_starts : nat; decoder : DECODER
}.

Definition d0 : double := S754_zero false.
Definition snap_zero : GPS_DATA := {|
  date := 0; time := d0; longitude := d0; is_east := 0; latitude := d0; is_north := 0; direction := d0; knots := d0;
  kms := d0; stateUsed := 0; msl := d0 |}.

Definition decoder_init : DECODER := {|
  gps_r_distance := 0; gps_s_distance := 0; gps_snap := snap_zero; gps_time_not_change := false; cur_date := 0;
  dist_i := 0; last_sec := 0xffff; llt := 0; gps_fix_status := GPS_UNCONNECTED; gps_cb_lst := []; out := [] |}.

Definition receiver_init : RECEIVER := {|
  recv_buf := replicate 1024 0; last_recv_cnt := 0; msg := replicate 512 0; timer_starts := 0; decoder := decoder_init |}.

(** [a >= b] *)
Definition d_ge (a b : double) : bool := SFleb b a.

Definition say (o : GPS_OUT) : ST DECODER unit := st_mod (fun s => {| s with out := out s ++ [o] |}).

(** ** Distance *)

(** A [long long]. *)
Definition long_long (z : Z) : option Z := if (- 2 ^ 63 <=? z) && (z <? 2 ^ 63) then Some z else None.

Definition gps_acc_distance (distance : Z) : ST DECODER unit :=
  s ← st_get;
  d ← st_lift (long_long (gps_r_distance s + distance));
  st_mod (fun s => {| s with gps_r_distance := d |}).

(** [gps_decode_save] stores it through [rds_update_once]. *)
Definition gps_save_distance : ST DECODER unit :=
  s ← st_get; say (GpsSave (gps_r_distance s));; st_mod (fun s => {| s with gps_s_distance := gps_r_distance s |}).

Definition gps_reset_distance : ST DECODER unit :=
  st_mod (fun s => {| s with gps_r_distance := 0; gps_s_distance := 0 |});; say (GpsSave 0).

Definition gps_get_distance (s : DECODER) : Z := gps_s_distance s.

(** [stored] is what [rds_get] gives: the distance and the length, or nothing. *)
Definition gps_decode_restore (stored : option (Z * Z)) : ST DECODER Z :=
  match stored with
  | None => gps_reset_distance;; mret GPS_GET_DISTANCE_FAILED
  | Some (v, n) =>
      if negb (n =? 8) then gps_reset_distance;; mret GPS_INVALID_DISTANCE_LEN
      else st_mod (fun s => {| s with gps_s_distance := v; gps_r_distance := v |});; mret 0
  end.

(** ** The snapshot *)

Definition set_snap (f : GPS_DATA -> GPS_DATA) : ST DECODER unit :=
  st_mod (fun s => {| s with gps_snap := f (gps_snap s) |}).

Definition gps_init_snap : ST DECODER unit := set_snap (fun _ => snap_zero).

Definition gps_update_snap_by_rmc (d : GPS_DATA) : ST DECODER unit := set_snap (fun s => {| s with
  time := time d; date := date d; latitude := latitude d; is_north := is_north d; longitude := longitude d;
  is_east := is_east d; knots := knots d; direction := direction d |}).

Definition gps_update_snap_by_gga (state : Z) (m : double) : ST DECODER unit :=
  set_snap (fun s => {| s with stateUsed := state; msl := m |}).

(** The speed goes through an [unsigned int]. *)
Definition gps_get_speed (s : DECODER) : option double := v ← d_to_u32 (kms (gps_snap s)); Some (d_of_Z v).

Definition gps_get_snap (s : DECODER) : GPS_DATA := gps_snap s.

Definition gps_get_fix_status (s : DECODER) : GPS_FIX_STATUS := gps_fix_status s.

Definition gps_set_fix_status (f : GPS_FIX_STATUS) : ST DECODER unit := st_mod (fun s => {| s with gps_fix_status := f |}).

(** ** Sentences

    A sentence is the string in the buffer. *)

Definition gps_checksum (s : list Z) : option Z :=
  if has_prefix (c_chars "$INACC") s then Some 0
  else if (len s <? 9) || negb (has_prefix (c_chars "$G") s) then Some GPS_INVALID_MSG
  else
    c ← mem_get s (len s - 3);
    if negb (c =? 42) then Some GPS_INVALID_MSG                                                 (* '*' *)
    else
      let cs := match sscanf (c_chars "%02x") (drop (Z.to_nat (len s - 2)) s) with [SvNum v] => v | _ => 0 end in
      let datacs := fold_left Z.lxor (take (Z.to_nat (len s - 4)) (drop 1 s)) 0 in
      Some (if negb (datacs =? Z.land cs 0xff) then GPS_INVALID_CS else 0).

(** The date [ddmmyy] and the time [hhmmss]. *)
Definition month_days (month year : Z) : Z :=
  if month =? 2 then
    if (year mod 4 =? 0) && negb (year mod 100 =? 0) || (year mod 400 =? 0) then 29 else 28
  else if (month =? 4) || (month =? 6) || (month =? 9) || (month =? 11) then 30 else 31.

Definition gps_utc2local (date : Z) (time : double) : Z * double :=
  let year := date mod 100 in
  let month := date mod 10000 / 100 in
  let day := date / 10000 in
  let local_time := d_add time (d_of_Z 80000) in
  if d_ge local_time (d_of_Z 240000) then
    let local_time := d_sub local_time (d_of_Z 240000) in
    let mday := month_days month year in
    let day := u32 (day + 1) in
    let month := u32 (month + day / (mday + 1)) in
    let day := day mod (mday + 1) in
    let day := if day =? 0 then 1 else day in
    let '(month, year) := if 13 <=? month then (1, u32 (year + 1)) else (month, year) in
    (u32 (day * 10000 + month * 100 + year), local_time)
  else (u32 (day * 10000 + month * 100 + year), local_time).

Definition gps_get_time_diff (now : double) : ST DECODER Z :=
  s ← st_get;
  n ← st_lift (d_to_u32 now);
  let cur_sec := n mod 100 in
  let time_diff :=
    if last_sec s =? 0xffff then 1
    else if cur_sec <? last_sec s then u32 (60 + cur_sec - last_sec s) else cur_sec - last_sec s in
  st_mod (fun s => {| s with last_sec := cur_sec |});;
  mret (if 20 <? time_diff then 1 else time_diff).

(** The fields of the two formats: without the direction it is what is on the stack. *)
Definition rmc_fields (garbage : double) (s : list Z) : option (GPS_DATA * Z * Z * Z) :=
  let data t lat lon kn dir d := {| snap_zero with
    time := t; latitude := lat; longitude := lon; knots := kn; direction := dir; date := u32 d |} in
  match sscanf (c_chars "RMC,%lf,%c,%lf,%c,%lf,%c,%lf,%lf,%d,%*s,%*s,%*s") (drop 3 s) with
  | [SvDbl t; SvNum st; SvDbl lat; SvNum ns; SvDbl lon; SvNum ew; SvDbl kn; SvDbl dir; SvNum d] =>
      Some (data t lat lon kn dir d, st, ns, ew)
  | _ =>
      match sscanf (c_chars "RMC,%lf,%c,%lf,%c,%lf,%c,%lf,,%d,%*s,%*s,%*s") (drop 3 s) with
      | [SvDbl t; SvNum st; SvDbl lat; SvNum ns; SvDbl lon; SvNum ew; SvDbl kn; SvNum d] =>
          Some (data t lat lon kn garbage d, st, ns, ew)
      | _ => None
      end
  end.

Definition set_rtc (snap : GPS_DATA) : ST DECODER unit :=
  st_mod (fun s => {| s with cur_date := date snap |});;
  t ← st_lift (d_to_u32 (time snap));
  say (GpsSynTime {| rtc_year := date snap mod 100 + 2000; rtc_mon := (date snap / 100) mod 100; rtc_mday := u8 (date snap / 10000);
                     rtc_hour := u8 (t / 10000); rtc_min := (t / 100) mod 100; rtc_sec := t mod 100 |}).

(** The end of the branch for valid data: speed and distance. *)
Definition rmc_move (snap : GPS_DATA) (time_diff : Z) : ST DECODER GPS_DATA :=
  if d_ge (knots snap) (d_div (d_of_Z 3000) (d_of_Z 1852)) then
    st_mod (fun s => {| s with dist_i := (dist_i s + 1) mod 60 |});;
    d ← st_lift (d_to_int (d_mul (d_mul (knots snap) (d_of_Z 1852)) (d_of_Z time_diff)));
    gps_acc_distance d;;
    s ← st_get;
    st_when (dist_i s =? 30) gps_save_distance;;
    mret {| snap with kms := d_mul (knots snap) (d_div (d_of_Z 1852) (d_of_Z 1000)) |}
  else mret {| snap with knots := d0; kms := d0; direction := d0 |}.

Definition gps_decode_rmc (garbage : double) (s : list Z) : ST DECODER Z :=
  st_mod (fun s => {| s with gps_time_not_change := false |});;
  match rmc_fields garbage s with
  | None => gps_init_snap;; mret GPS_INVALID_MSG
  | Some (snap, status, ns, ew) =>
      if negb (status =? 65) then gps_init_snap;; mret GPS_INVALID_MSG                            (* 'A' *)
      else
        let '(d, t) := gps_utc2local (date snap) (time snap) in
        let snap := {| snap with date := d; time := t |} in
        st ← st_get;
        st_when (negb (cur_date st =? d)) (set_rtc snap);;
        if d_eq t (time (gps_snap st)) then
          st_mod (fun s => {| s with gps_time_not_change := true |});; mret 0
        else
          let snap := {| snap with is_north := if ns =? 78 then 1 else 0; is_east := if ew =? 69 then 1 else 0 |} in
          time_diff ← gps_get_time_diff t;
          snap ← rmc_move snap time_diff;
          gps_update_snap_by_rmc snap;;
          mret 0
  end.

Definition gps_decode_gga (s : list Z) : ST DECODER unit :=
  st ← st_get;
  if gps_time_not_change st then mret tt
  else
    match sscanf (c_chars "GGA,%*f,%*f,%*c,%*f,%*c,%d,%d,%*f,%lf") (drop 3 s) with
    | [SvNum fs; SvNum state; SvDbl m] => st_when (negb (fs =? 0)) (gps_update_snap_by_gga (u32 state) m)
    | _ => mret tt
    end.

Definition gps_do_callback (s : list Z) : ST DECODER unit :=
  st_mod (fun d => {| d with out := out d ++ map (fun cb => GpsDataIn cb s) (gps_cb_lst d) |}).

Definition gps_reg_callback (cb : nat) : ST DECODER Z :=
  s ← st_get;
  if GPS_MAX_CALLBACK <=? len (gps_cb_lst s) then mret (-1)
  else st_mod (fun s => {| s with gps_cb_lst := gps_cb_lst s ++ [cb] |});; mret 0.

Definition gps_decode (garbage : double) (now : Z) (s : list Z) : ST DECODER Z :=
  c ← st_lift (gps_checksum s);
  if negb (c =? 0) then mret 0
  else
    gps_do_callback s;;
    if has_prefix (c_chars "$GPRMC") s || has_prefix (c_chars "$GNRMC") s then
      ret ← gps_decode_rmc garbage s;
      (if ret =? 0 then gps_set_fix_status GPS_FIX;; st_mod (fun s => {| s with llt := 0 |})
       else
         gps_set_fix_status GPS_UNFIX;;
         st ← st_get;
         if negb (llt st =? 0) then
           st_when (GPS_LOSS_LOCK_TIMEOUT <? u64 (now - llt st))
             (st_mod (fun s => {| s with llt := 0 |});; say GpsReset)
         else st_mod (fun s => {| s with llt := now |}));;
      mret ret
    else if has_prefix (c_chars "$GPGGA") s || has_prefix (c_chars "$GNGGA") s then gps_decode_gga s;; mret 0
    else mret 0.

(** ** The receiver *)

Definition on_decoder {A} (m : ST DECODER A) : ST RECEIVER A := fun r =>
  '(a, d) ← m (decoder r); Some (a, {| r with decoder := d |}).

(** The sentence of a buffer; [None] if it has no end. *)
Definition string_in (b : list Z) : option (list Z) := if bool_decide (0 ∈ b) then Some (c_str b) else None.

Section recv.
Context (garbage : double) (before : Z).

(** The loop from byte [i] on with [n] bytes left: the count [j], or nothing after the
    early return.  Clock and result of [tm_start] by sentence. *)
Fixpoint recv_loop (now : nat -> Z) (timer_ok : nat -> bool) (n : nat) (i j : Z) : ST RECEIVER (option Z) :=
  match n with
  | O => mret (Some j)
  | S n =>
      r ← st_get;
      prev ← (if i =? 0 then mret before else st_lift (mem_get (recv_buf r) (i - 1)));
      c ← st_lift (mem_get (recv_buf r) i);
      if (prev =? 13) && (c =? 10) then
        m ← st_lift (mem_set (msg r) (j - 1) 0);
        s ← st_lift (string_in m);
        on_decoder (gps_decode garbage (now (timer_starts r)) s);;
        st_mod (fun r => {| r with msg := m; timer_starts := S (timer_starts r) |});;
        if negb (timer_ok (timer_starts r)) then mret None
        else
          st_mod (fun r => {| r with msg := replicate 512 0 |});;
          recv_loop now timer_ok n (i + 1) 0
      else if negb (c =? 0) then
        m ← st_lift (mem_set (msg r) j c);
        st_mod (fun r => {| r with msg := m |});;
        recv_loop now timer_ok n (i + 1) (j + 1)
      else recv_loop now timer_ok n (i + 1) j
  end.

(** [data] is what [read] gives, [None] a failure. *)
Definition gps_dev_recv (now : nat -> Z) (timer_ok : nat -> bool) (data : option (list Z)) : ST RECEIVER unit :=
  match data with
  | None => mret tt
  | Some data =>
      r ← st_get;
      b ← st_lift (mem_write (recv_buf r) (last_recv_cnt r) data);
      st_mod (fun r => {| r with recv_buf := b |});;
      j ← recv_loop now timer_ok (Z.to_nat (len data + last_recv_cnt r)) 0 0;
      match j with
      | None => mret tt
      | Some j =>
          r ← st_get;
          b ← st_lift (if 0 <? j then memcpy (replicate 1024 0) 0 (msg r) 0 j else Some (replicate 1024 0));
          st_mod (fun r => {| r with last_recv_cnt := j; recv_buf := b |})
      end
  end.

(** The timer of the data: no sentence for four seconds. *)
Definition gps_dev_timeout : ST RECEIVER unit :=
  on_decoder (say GpsReset;; gps_set_fix_status GPS_ERROR);;
  st_mod (fun r => {| r with timer_starts := S (timer_starts r) |}).

End recv.

(** ** The stream of sentences *)

(** Byte by byte: a sentence ends with CR LF; what is left is the beginning of the next. *)
Fixpoint gps_scan (line l : list Z) : list (list Z) * list Z :=
  match l with
  | [] => ([], line)
  | c :: l =>
      if (List.last line 0 =? 13) && (c =? 10) then let '(ss, t) := gps_scan [] l in (removelast line :: ss, t)
      else gps_scan (line ++ [c]) l
  end.

Lemma gps_scan_app l1 : forall line l2, gps_scan line (l1 ++ l2) =
  ((gps_scan line l1).1 ++ (gps_scan (gps_scan line l1).2 l2).1, (gps_scan (gps_scan line l1).2 l2).2).
Proof.
  induction l1 as [|c l1 IH]; intros line l2; cbn [app gps_scan fst snd]; [by destruct (gps_scan line l2) |].
  destruct ((List.last line 0 =? 13) && (c =? 10)); [| apply IH].
  rewrite IH. by destruct (gps_scan [] l1).
Qed.

(** What is left is scanned again in the same way. *)
Lemma gps_scan_rest l : forall line, gps_scan [] line = ([], line) ->
  gps_scan [] (gps_scan line l).2 = ([], (gps_scan line l).2).
Proof.
  induction l as [|c l IH]; intros line H; cbn [gps_scan]; [done |].
  destruct ((List.last line 0 =? 13) && (c =? 10)) eqn:E.
  - specialize (IH [] eq_refl). by destruct (gps_scan [] l).
  - apply IH. rewrite gps_scan_app, H. cbn [fst snd gps_scan]. by rewrite E.
Qed.

(** Lines of at most 512 bytes. *)
Definition short (p : list (list Z) * list Z) : Prop := Forall (fun s => len s <= 511) p.1 /\ len p.2 <= 512.

Lemma last_is line x : x <> 0 -> List.last line 0 = x -> line = removelast line ++ [x].
Proof. intros Hx <-. apply app_removelast_last. by intros ->. Qed.

Lemma short_line l : forall line, short (gps_scan line l) -> len line <= 512.
Proof.
  induction l as [|c l IH]; intros line; cbn [gps_scan]; [by intros [_ ?] |].
  destruct ((List.last line 0 =? 13) && (c =? 10)) eqn:E.
  - destruct (gps_scan [] l) as [ss t]. intros [H _]. apply Forall_cons_iff in H as [H _]. cbn [fst snd] in H.
    apply andb_true_iff in E as [E%Z.eqb_eq _]. pose proof (last_is line 13 ltac:(done) E) as Hl.
    apply (f_equal len) in Hl. revert Hl. autorewrite with len. lia.
  - intros H%IH. revert H. autorewrite with len. lia.
Qed.

Lemma short_app line l1 l2 : short (gps_scan line (l1 ++ l2)) ->
  short (gps_scan line l1) /\ short (gps_scan (gps_scan line l1).2 l2).
Proof.
  rewrite gps_scan_app. unfold short. cbn [fst snd]. rewrite Forall_app. intros [[H1 H2] H3].
  split; [split; [done |] | done]. apply (short_line l2). by split.
Qed.

Lemma gps_scan_nonzero l : forall line, Forall (fun c => c <> 0) (line ++ l) -> Forall (fun c => c <> 0) (gps_scan line l).2.
Proof.
  induction l as [|c l IH]; intros line H; cbn [gps_scan]; [by rewrite app_nil_r in H |].
  destruct (_ && _).
  - apply Forall_app in H as [_ H]. apply Forall_cons_iff in H as [_ H]. specialize (IH [] H).
    by destruct (gps_scan [] l).
  - apply IH. by rewrite <- app_assoc.
Qed.

(** The sentences that are decoded, the first one being number [k]. *)
Fixpoint gps_decode_all (garbage : double) (now : nat -> Z) (k : nat) (ss : list (list Z)) (d : DECODER) : option DECODER :=
  match ss with
  | [] => Some d
  | s :: ss => '(_, d) ← gps_decode garbage (now k) s d; gps_decode_all garbage now (S k) ss d
  end.

Lemma gps_decode_all_app garbage now ss1 ss2 : forall k d,
  gps_decode_all garbage now k (ss1 ++ ss2) d =
    (gps_decode_all garbage now k ss1 d ≫= gps_decode_all garbage now (k + length ss1) ss2).
Proof.
  induction ss1 as [|s ss1 IH]; intros k d; cbn; [by rewrite Nat.add_0_r |].
  destruct (gps_decode garbage (now k) s d) as [[? d']|]; cbn; [| done].
  rewrite IH. by replace (S k + length ss1)%nat with (k + S (length ss1))%nat by lia.
Qed.

(** ** Buffers *)

Lemma mem_get_middle {A} (l k : list A) x : mem_get (l ++ x :: k) (len l) = Some x.
Proof. replace (len l) with (len l + 0) by lia. by rewrite mem_get_app_r. Qed.

Lemma mem_set_middle {A} (l k : list A) x y : mem_set (l ++ x :: k) (len l) y = Some (l ++ y :: k).
Proof.
  rewrite mem_set_ok by (autorewrite with len; pose proof (len_nonneg l); pose proof (len_nonneg k); lia).
  unfold len. rewrite Nat2Z.id, insert_app_r_alt by lia. by rewrite Nat.sub_diag.
Qed.

Lemma c_str_middle l k : Forall (fun c => c <> 0) l -> c_str (l ++ 0 :: k) = l.
Proof.
  induction 1 as [|c l Hc _ IH]; cbn; [done |]. destruct (Z.eqb_spec c 0); [done |]. by rewrite IH.
Qed.

Lemma string_in_middle l k : Forall (fun c => c <> 0) l -> string_in (l ++ 0 :: k) = Some l.
Proof.
  intros H. unfold string_in. rewrite bool_decide_eq_true_2, c_str_middle by
    (done || (apply elem_of_app; right; apply list_elem_of_here)). done.
Qed.

Lemma st_bind_none {S A B} (m : ST S A) (k : A -> ST S B) s : m s = None -> (m ≫= k) s = None.
Proof. unfold mbind, st_bind. by intros ->. Qed.

(** [line] at the beginning of a block of [n] zeros. *)
Definition padded (n : Z) (line : list Z) : list Z := line ++ replicate (Z.to_nat (n - len line)) 0.

Lemma write_padded n line data : len line + len data <= n ->
  mem_write (padded n line) (len line) data = Some (padded n (line ++ data)).
Proof.
  intros H. pose proof (len_nonneg line). pose proof (len_nonneg data). unfold padded.
  rewrite mem_write_ok by (autorewrite with len; rewrite ?len_replicate; lia).
  rewrite take_app_length', drop_app_ge, drop_replicate by (unfold len in *; lia).
  rewrite <- app_assoc. do 4 f_equal. autorewrite with len. unfold len in *. lia.
Qed.

Lemma memcpy_padded l m : len l <= 1024 -> memcpy (replicate 1024 0) 0 (l ++ m) 0 (len l) = Some (padded 1024 l).
Proof.
  intros H. pose proof (len_nonneg l). pose proof (len_nonneg m). unfold memcpy.
  rewrite mem_read_ok by (autorewrite with len; lia). rewrite drop_0, take_app_length' by (unfold len; lia).
  cbn [mbind option_bind]. apply (write_padded 1024 [] l). rewrite len_nil. lia.
Qed.

(** ** Receiving *)

Section stream.
Context (garbage : double) (before : Z) (now : nat -> Z).
Hypothesis before_no_cr : before <> 13.

#[local] Abbreviation timer_starts_ok := (fun _ : nat => true).
#[local] Abbreviation loop := (recv_loop garbage before now timer_starts_ok).

Lemma on_decoder_bind {A B} (m : ST DECODER A) (k : A -> ST RECEIVER B) r :
  (on_decoder m ≫= k) r =
    match m (decoder r) with Some (a, d) => k a {| r with decoder := d |} | None => None end.
Proof. unfold on_decoder, mbind. cbn. by destruct (m (decoder r)) as [[a d]|]. Qed.

(** The byte before position [i] and the byte there. *)
Lemma recv_loop_bytes n i j r pre c rest : recv_buf r = pre ++ c :: rest -> len pre = i ->
  loop (S n) i j r =
    (if (List.last pre before =? 13) && (c =? 10) then
       m ← st_lift (mem_set (msg r) (j - 1) 0);
       s ← st_lift (string_in m);
       on_decoder (gps_decode garbage (now (timer_starts r)) s);;
       st_mod (fun r => {| r with msg := m; timer_starts := S (timer_starts r) |});;
       st_mod (fun r => {| r with msg := replicate 512 0 |});;
       loop n (i + 1) 0
     else if negb (c =? 0) then
       m ← st_lift (mem_set (msg r) j c);
       st_mod (fun r => {| r with msg := m |});;
       loop n (i + 1) (j + 1)
     else loop n (i + 1) j) r.
Proof.
  intros Hb Hi. cbn [recv_loop]. rewrite run_get.
  assert ((if i =? 0 then mret before else st_lift (mem_get (recv_buf r) (i - 1)) : ST RECEIVER Z) =
          st_lift (Some (List.last pre before))) as ->.
  { destruct (Z.eqb_spec i 0) as [-> | Hi0].
    - destruct pre; [done |]. exfalso. revert Hi. autorewrite with len. pose proof (len_nonneg pre). lia.
    - destruct pre as [|x pre] using rev_ind; [by rewrite len_nil in Hi |]. clear IHpre.
      rewrite Hb, List.last_last, <- app_assoc. cbn [app].
      replace (i - 1) with (len pre) by (revert Hi; autorewrite with len; lia). by rewrite mem_get_middle. }
  rewrite run_lift. rewrite Hb at 1. rewrite <- Hi, mem_get_middle, run_lift. done.
Qed.

(** What the loop leaves: the rest of the line in front of [msg]. *)
Definition scanned (r : RECEIVER) (p : list (list Z) * list Z) (res : option (option Z * RECEIVER)) : Prop :=
  match gps_decode_all garbage now (timer_starts r) p.1 (decoder r) with
  | None => res = None
  | Some d => exists m, len (p.2 ++ m) = 512 /\
      res = Some (Some (len p.2), {| recv_buf := recv_buf r; last_recv_cnt := last_recv_cnt r; msg := p.2 ++ m;
                                     timer_starts := timer_starts r + length p.1; decoder := d |})
  end.

Lemma recv_loop_scan rest : forall pre line r post m,
  recv_buf r = pre ++ rest ++ post -> Forall (fun c => c <> 0) (line ++ rest) ->
  (List.last pre before =? 13) = (List.last line 0 =? 13) ->
  msg r = line ++ m -> len (msg r) = 512 -> short (gps_scan line rest) ->
  scanned r (gps_scan line rest) (loop (length rest) (len pre) (len line) r).
Proof.
  induction rest as [|c rest IH]; intros pre line r post m Hb Hnz Hcr Hm Hlm Hs.
  { cbn. exists m. rewrite <- Hm, Nat.add_0_r. split; [done |]. by destruct r. }
  pose proof (short_line _ _ Hs) as Hline. pose proof (len_nonneg line).
  apply Forall_app in Hnz as [Hnl Hnr]. apply Forall_cons_iff in Hnr as [Hc Hnr].
  cbn [length]. rewrite (recv_loop_bytes _ _ _ _ _ _ _ Hb eq_refl), Hcr. cbn [gps_scan] in Hs |- *.
  replace (len pre + 1) with (len (pre ++ [c])) by (by autorewrite with len).
  assert (recv_buf r = (pre ++ [c]) ++ rest ++ post) as Hb' by (by rewrite <- app_assoc).
  assert (List.last (pre ++ [c]) before = c) as Hl by apply List.last_last.
  destruct ((List.last line 0 =? 13) && (c =? 10)) eqn:E.
  - apply andb_true_iff in E as [E%Z.eqb_eq ->%Z.eqb_eq]. apply last_is in E; [| done].
    rewrite E in Hm, Hnl, Hline. apply Forall_app in Hnl as [Hnl _].
    replace (len line - 1) with (len (removelast line)) by (rewrite E at 2; autorewrite with len; lia).
    rewrite Hm, <- app_assoc. cbn [app]. rewrite mem_set_middle, run_lift, string_in_middle, run_lift by done.
    destruct (gps_scan [] rest) as [ss t] eqn:Es. unfold scanned. cbn [fst snd gps_decode_all].
    rewrite on_decoder_bind. destruct (gps_decode garbage (now (timer_starts r)) (removelast line) (decoder r)) as [[a d]|];
      cbn [mbind option_bind]; [| done]. st_run.
    pose (r' := {| recv_buf := recv_buf r; last_recv_cnt := last_recv_cnt r; msg := replicate 512 0;
                   timer_starts := S (timer_starts r); decoder := d |}).
    specialize (IH (pre ++ [10]) [] r' post (replicate 512 0) Hb'). rewrite Es, Hl in IH.
    destruct Hs as [Hs1 Hs2]. apply Forall_cons_iff in Hs1 as [_ Hs1].
    specialize (IH Hnr eq_refl eq_refl eq_refl (conj Hs1 Hs2)). unfold scanned in IH. cbn in IH |- *.
    destruct (gps_decode_all _ _ _ ss d); [| done]. destruct IH as (m' & ? & IH). exists m'. split; [done |].
    rewrite <- plus_n_Sm. exact IH.
  - destruct (Z.eqb_spec c 0); [done |]. cbn [negb]. pose proof (short_line _ _ Hs) as Hline'.
    assert (exists x m', m = x :: m') as (x & m' & ->).
    { destruct m as [|x m']; [| by eauto]. revert Hline' Hlm. rewrite Hm. autorewrite with len. lia. }
    rewrite Hm, mem_set_middle. st_run.
    replace (len line + 1) with (len (line ++ [c])) by (by autorewrite with len).
    match goal with |- scanned _ ?p (?f ?r2) => change (scanned r2 p (f r2)) end.
    apply (IH (pre ++ [c]) (line ++ [c]) _ post m'); cbn [recv_buf msg]; [done | | by rewrite Hl, List.last_last | | | done].
    + rewrite <- app_assoc. apply Forall_app. split; [done |]. by constructor.
    + by rewrite <- app_assoc.
    + rewrite <- Hlm, Hm. by autorewrite with len.
Qed.
(** Between two reads [t] is left of the stream. *)
Definition left_over (r : RECEIVER) (t : list Z) : Prop :=
  recv_buf r = padded 1024 t /\ last_recv_cnt r = len t /\ len (msg r) = 512.

Definition received (r : RECEIVER) (p : list (list Z) * list Z) (res : option (unit * RECEIVER)) : Prop :=
  match gps_decode_all garbage now (timer_starts r) p.1 (decoder r) with
  | None => res = None
  | Some d => exists r', res = Some (tt, r') /\ decoder r' = d /\ timer_starts r' = (timer_starts r + length p.1)%nat /\
      left_over r' p.2
  end.

Lemma gps_dev_recv_scan r t data : left_over r t -> gps_scan [] t = ([], t) ->
  Forall (fun c => c <> 0) (t ++ data) -> len t + len data <= 1024 -> short (gps_scan t data) ->
  received r (gps_scan t data) (gps_dev_recv garbage before now timer_starts_ok (Some data) r).
Proof using before_no_cr.
  intros (Hb & Hn & Hm) Ht Hnz Hlen Hs. unfold gps_dev_recv. st_run. rewrite Hb, Hn, write_padded by done. st_run.
  set (r1 := {| recv_buf := padded 1024 (t ++ data); last_recv_cnt := last_recv_cnt r; msg := msg r;
                timer_starts := timer_starts r; decoder := decoder r |}).
  assert (gps_scan [] (t ++ data) = gps_scan t data) as Hscan.
  { rewrite gps_scan_app, Ht. cbn [fst snd app]. by destruct (gps_scan t data). }
  pose proof (recv_loop_scan (t ++ data) [] [] r1 (replicate (Z.to_nat (1024 - len (t ++ data))) 0) (msg r)
                eq_refl Hnz) as Hloop.
  cbn [List.last] in Hloop. destruct (Z.eqb_spec before 13) as [|_]; [done |].
  specialize (Hloop eq_refl eq_refl Hm). rewrite Hscan in Hloop. specialize (Hloop Hs). unfold scanned, received in *.
  replace (Z.to_nat (len data + len t)) with (length (t ++ data)) by (rewrite length_app; unfold len; lia).
  cbn [timer_starts decoder r1] in Hloop. change (len (@nil Z)) with 0 in Hloop.
  destruct (gps_decode_all _ _ _ _ _) as [d|].
  - destruct Hloop as (m & Hlm & Hloop). rewrite (st_bind_run _ _ _ _ _ Hloop). cbv beta iota. st_run. cbn [msg].
    assert ((if 0 <? len (gps_scan t data).2 then memcpy (replicate 1024 0) 0 ((gps_scan t data).2 ++ m) 0 (len (gps_scan t data).2)
             else Some (replicate 1024 0)) = Some (padded 1024 (gps_scan t data).2)) as ->.
    { destruct (Z.ltb_spec 0 (len (gps_scan t data).2)) as [_ | E]; [apply memcpy_padded; destruct Hs; lia |].
      destruct (gps_scan t data).2 as [|x l]; [done |]. exfalso. revert E. autorewrite with len. pose proof (len_nonneg l). lia. }
    st_run. eexists. split; [reflexivity |]. by repeat split.
  - by apply st_bind_none.
Qed.

(** Reads that fail have no effect. *)
Fixpoint gps_reads (reads : list (option (list Z))) : ST RECEIVER unit :=
  match reads with
  | [] => mret tt
  | data :: reads => gps_dev_recv garbage before now timer_starts_ok data;; gps_reads reads
  end.

(** [read] gives what fits behind the rest [t] at most. *)
Fixpoint reads_fit (t : list Z) (reads : list (option (list Z))) : Prop :=
  match reads with
  | [] => True
  | None :: reads => reads_fit t reads
  | Some data :: reads => len t + len data <= 1024 /\ reads_fit (gps_scan t data).2 reads
  end.

Definition stream (reads : list (option (list Z))) : list Z := concat (omap id reads).

Lemma gps_reads_scan reads : forall r t, left_over r t -> gps_scan [] t = ([], t) ->
  Forall (fun c => c <> 0) (t ++ stream reads) -> reads_fit t reads -> short (gps_scan t (stream reads)) ->
  received r (gps_scan t (stream reads)) (gps_reads reads r).
Proof using before_no_cr.
  induction reads as [|[data|] reads IH]; intros r t Hr Ht Hnz Hfit Hs; cbn [gps_reads reads_fit] in *.
  - unfold received. cbn. exists r. by rewrite Nat.add_0_r.
  - change (stream (Some data :: reads)) with (data ++ stream reads) in *. destruct Hfit as [Hlen Hfit].
    destruct (short_app _ _ _ Hs) as [Hs1 Hs2]. rewrite app_assoc in Hnz. apply Forall_app in Hnz as [Hnz1 Hnz2].
    pose proof (gps_dev_recv_scan r t data Hr Ht Hnz1 Hlen Hs1) as H1. rewrite gps_scan_app.
    unfold received in *. cbn [fst snd]. rewrite gps_decode_all_app, length_app.
    destruct (gps_decode_all _ _ _ (gps_scan t data).1 _) as [d|]; cbn [mbind option_bind];
      [| by apply st_bind_none].
    destruct H1 as (r1 & H1 & <- & Hk & Hr1). rewrite (st_bind_run _ _ _ _ _ H1), <- Hk, Nat.add_assoc, <- Hk.
    apply IH; [done | by apply gps_scan_rest | | done | done].
    apply Forall_app. split; [by apply gps_scan_nonzero | by apply Forall_app in Hnz1 as [_ ?]].
  - exact (IH r t Hr Ht Hnz Hfit Hs).
Qed.
End stream.

(** C17: the sentences that are decoded are the lines of the stream, in order and with the clock
    of each one, for every way in which the stream is cut into reads, with any number of
    failing reads between them; in the end the receiver holds the beginning of the next
    line.  The stream has no zero bytes and no line of more than 512 bytes, the byte in
    front of the buffer is no carriage return, and the timer starts. *)
Theorem gps_recv_stream garbage before now reads :
  before <> 13 -> Forall (fun c => c <> 0) (stream reads) -> reads_fit [] reads -> short (gps_scan [] (stream reads)) ->
  match gps_decode_all garbage now 0 (gps_scan [] (stream reads)).1 decoder_init with
  | None => gps_reads garbage before now reads receiver_init = None
  | Some d => exists r, gps_reads garbage before now reads receiver_init = Some (tt, r) /\ decoder r = d /\
      timer_starts r = length (gps_scan [] (stream reads)).1 /\ left_over r (gps_scan [] (stream reads)).2
  end.
Proof.
  intros Hb Hnz Hfit Hs. apply (gps_reads_scan garbage before now Hb reads receiver_init []); done.
Qed.

(** A position in two sentences, the start of a third, cut into four reads. *)
Definition example_reads : list (option (list Z)) :=
  [Some (c_chars "$GPRMC,160105,A,3030.5,N,11420.25,E,10.5,90,28"); None;
   Some (c_chars "0224,,,A*5A" ++ [13]); Some (10 :: c_chars "$GPGGA,160105,3030.5,N,11420.25,E,1,08,0.9,35.5,M,0,M,,*69" ++ [13]);
   Some (10 :: c_chars "$GPR")].

Lemma gps_recv_stream_witness : exists r,
  gps_reads d0 0 (fun k => 1000 + Z.of_nat k) example_reads receiver_init = Some (tt, r) /\
  date (gps_snap (decoder r)) = 290224 /\ stateUsed (gps_snap (decoder r)) = 8 /\ gps_r_distance (decoder r) = 19446 /\
  left_over r (c_chars "$GPR").
Proof.
  assert (exists d, gps_decode_all d0 (fun k => 1000 + Z.of_nat k) 0 (gps_scan [] (stream example_reads)).1 decoder_init = Some d /\
    date (gps_snap d) = 290224 /\ stateUsed (gps_snap d) = 8 /\ gps_r_distance d = 19446) as (d & Hd & Q1 & Q2 & Q3).
  { eexists. split; [vm_compute; reflexivity |]. repeat split; vm_compute; reflexivity. }
  assert (Forall (fun c => c <> 0) (stream example_reads)) as H1.
  { apply (bool_decide_unpack _). vm_compute. exact Logic.I. }
  assert (reads_fit [] example_reads) as H2 by (vm_compute; repeat split; discriminate).
  assert (short (gps_scan [] (stream example_reads))) as H3 by (vm_compute; repeat constructor; discriminate).
  pose proof (gps_recv_stream d0 0 (fun k => 1000 + Z.of_nat k) example_reads ltac:(discriminate) H1 H2 H3) as H.
  rewrite Hd in H. destruct H as (r & Hr & <- & _ & Hl). exists r. split; [exact Hr |]. split; [exact Q1 |].
  split; [exact Q2 |]. split; [exact Q3 |].
  assert ((gps_scan [] (stream example_reads)).2 = c_chars "$GPR") as <- by (vm_compute; reflexivity). exact Hl.
Defined.

(** Without the conditions: a line that is too long, a line feed first, and a zero byte, with
    which the result depends on the reads. *)
Example gps_recv_long : gps_dev_recv d0 0 (fun _ => 0) (fun _ => true) (Some (replicate 513 65)) receiver_init = None.
Proof. vm_compute. reflexivity. Qed.

Example gps_recv_lf : gps_dev_recv d0 13 (fun _ => 0) (fun _ => true) (Some [10]) receiver_init = None.
Proof. vm_compute. reflexivity. Qed.

Example gps_recv_zero :
  (last_recv_cnt ∘ snd) <$> gps_reads d0 0 (fun _ => 0) [Some [65; 13; 0; 10]] receiver_init = Some 3 /\
  (last_recv_cnt ∘ snd) <$> gps_reads d0 0 (fun _ => 0) [Some [65; 13; 0]; Some [10]] receiver_init = Some 0.
Proof. split; vm_compute; reflexivity. Qed.

(** ** The speed

    [kms] of the snapshot is never written. *)
Definition kms_zero (s s' : DECODER) : Prop := kms (gps_snap s) = d0 -> kms (gps_snap s') = d0.

#[local] Instance kms_zero_preorder : PreOrder kms_zero.
Proof. unfold kms_zero. split; intros ?; eauto. Qed.

#[local] Hint Extern 1 (steps_by kms_zero (st_mod _)) => (steps_apply @steps_mod; intros ? ?; assumption || reflexivity) : steps.

Lemma gps_decode_kms garbage now s : steps_by kms_zero (gps_decode garbage now s).
Proof.
  unfold gps_decode, gps_do_callback, gps_decode_rmc, gps_decode_gga, set_rtc, gps_get_time_diff, rmc_move, gps_acc_distance,
    gps_save_distance, gps_init_snap, gps_update_snap_by_rmc, gps_update_snap_by_gga, set_snap, gps_set_fix_status, say.
  steps_tac.
Qed.

Lemma gps_speed_zero garbage now ss : forall k d d', kms (gps_snap d) = d0 ->
  gps_decode_all garbage now k ss d = Some d' -> gps_get_speed d' = Some d0.
Proof.
  induction ss as [|s ss IH]; intros k d d' Hd; cbn; [intros [= <-]; unfold gps_get_speed; by rewrite Hd |].
  destruct (gps_decode garbage (now k) s d) as [[? d1]|] eqn:E; [| done]. apply IH. exact (gps_decode_kms _ _ _ _ _ _ E Hd).
Qed.

(** ** Local time *)

(** The calendar of the years 2000 to 2099: lengths of the months, the number of a day. *)
Definition month_lengths (y : Z) : list Z := [31; if y mod 4 =? 0 then 29 else 28; 31; 30; 31; 30; 31; 31; 30; 31; 30; 31].
Definition month_length (y mo : Z) : Z := nth (Z.to_nat (mo - 1)) (month_lengths y) 0.
Definition day_number (y mo d : Z) : Z :=
  365 * y + (y + 3) / 4 + fold_right Z.add 0 (take (Z.to_nat (mo - 1)) (month_lengths y)) + d.

Definition valid_date (y mo d : Z) : bool :=
  (0 <=? y) && (y <? 100) && (1 <=? mo) && (mo <=? 12) && (1 <=? d) && (d <=? month_length y mo).
Definition valid_time (h mi s : Z) : bool :=
  (0 <=? h) && (h <? 24) && (0 <=? mi) && (mi <? 60) && (0 <=? s) && (s <? 60).

Definition ddmmyy (d mo y : Z) : Z := d * 10000 + mo * 100 + y.
Definition hhmmss (h mi s : Z) : Z := h * 10000 + mi * 100 + s.

(** All the numbers from [lo] on. *)
Definition all_z (lo : Z) (n : nat) (f : Z -> bool) : bool := forallb f (seqZ lo (Z.of_nat n)).

Lemma all_z_elim lo n f : all_z lo n f = true -> forall z, lo <= z < lo + Z.of_nat n -> f z = true.
Proof.
  intros H z Hz. unfold all_z in H. rewrite forallb_forall in H. apply H, list_elem_of_In, elem_of_seqZ. lia.
Qed.

(** The length of a month in the code, and the day after the last one of a month. *)
Definition month_ok (y mo : Z) : bool :=
  let n := month_length y mo in
  (month_days mo y =? n) && (28 <=? n) && (n <=? 31) &&
  (day_number y mo n + 1 =? if mo =? 12 then day_number (y + 1) 1 1 else day_number y (mo + 1) 1).

Lemma months_ok : all_z 0 100 (fun y => all_z 1 12 (month_ok y)) = true.
Proof. vm_compute. reflexivity. Qed.

Lemma month_facts y mo : 0 <= y < 100 -> 1 <= mo <= 12 ->
  month_days mo y = month_length y mo /\ 28 <= month_length y mo <= 31 /\
  day_number y mo (month_length y mo) + 1 = if mo =? 12 then day_number (y + 1) 1 1 else day_number y (mo + 1) 1.
Proof.
  intros Hy Hm. pose proof (all_z_elim _ _ _ months_ok y ltac:(lia)) as H.
  pose proof (all_z_elim _ _ _ H mo ltac:(lia)) as H1. unfold month_ok in H1. lia.
Qed.

(** On whole seconds. *)
Lemma gps_utc2local_Z date t : 0 <= t < 240000 -> gps_utc2local date (d_of_Z t) =
  if 160000 <=? t then ((gps_utc2local date (d_of_Z 160000)).1, d_of_Z (t - 160000))
  else ((gps_utc2local date (d_of_Z 0)).1, d_of_Z (t + 80000)).
Proof.
  intros Ht. unfold gps_utc2local, d_ge. rewrite !d_add_Z, !d_le_Z by lia.
  change (240000 <=? 160000 + 80000) with true. change (240000 <=? 0 + 80000) with false.
  destruct (Z.leb_spec 240000 (t + 80000)), (Z.leb_spec 160000 t); try lia; [| done].
  rewrite d_sub_Z by lia. replace (t + 80000 - 240000) with (t - 160000) by lia.
  cbv iota zeta. match goal with |- context [if ?b then (1, _) else _] => destruct b end; done.
Qed.

Lemma ddmmyy_fields d mo y : 0 <= y < 100 -> 1 <= mo <= 12 -> 1 <= d <= 31 ->
  ddmmyy d mo y mod 100 = y /\ ddmmyy d mo y mod 10000 / 100 = mo /\ ddmmyy d mo y / 10000 = d.
Proof. unfold ddmmyy. intros. repeat split; Z.to_euclidean_division_equations; lia. Qed.

Lemma same_date y mo d : 0 <= y < 100 -> 1 <= mo <= 12 -> 1 <= d <= 31 ->
  (gps_utc2local (ddmmyy d mo y) (d_of_Z 0)).1 = ddmmyy d mo y.
Proof.
  intros Hy Hm Hd. destruct (ddmmyy_fields d mo y) as (Ey & Em & Ed); [done.. |]. unfold gps_utc2local, d_ge.
  rewrite Ey, Em, Ed, d_add_Z, d_le_Z by lia. cbn [fst]. apply Z.mod_small. unfold ddmmyy. lia.
Qed.

Lemma next_date y mo d : 0 <= y < 100 -> 1 <= mo <= 12 -> 1 <= d <= month_length y mo ->
  (gps_utc2local (ddmmyy d mo y) (d_of_Z 160000)).1 =
    if d <? month_length y mo then ddmmyy (d + 1) mo y
    else if mo =? 12 then ddmmyy 1 1 (y + 1) else ddmmyy 1 (mo + 1) y.
Proof.
  intros Hy Hm Hd. destruct (month_facts y mo Hy Hm) as (El & Hl & _).
  destruct (ddmmyy_fields d mo y) as (Ey & Em & Ed); [lia.. |]. unfold gps_utc2local, d_ge.
  rewrite Ey, Em, Ed, d_add_Z, d_le_Z by lia. change (240000 <=? 160000 + 80000) with true. cbv iota zeta.
  rewrite El. set (n := month_length y mo) in *.
  assert (u32 (d + 1) = d + 1) as -> by (apply Z.mod_small; lia).
  destruct (Z.ltb_spec d n) as [Hdn | Hdn].
  - rewrite (Z.div_small (d + 1)), (Z.mod_small (d + 1)) by lia.
    assert (u32 (mo + 0) = mo) as -> by (unfold u32; rewrite Z.mod_small; lia).
    destruct (Z.eqb_spec (d + 1) 0); [lia |]. destruct (Z.leb_spec 13 mo); [lia |]. cbn [fst].
    apply Z.mod_small. unfold ddmmyy. lia.
  - assert (d = n) as -> by lia. rewrite Z.div_same, Z.mod_same by lia.
    assert (u32 (mo + 1) = mo + 1) as -> by (apply Z.mod_small; lia). cbn [Z.eqb].
    destruct (Z.leb_spec 13 (mo + 1)), (Z.eqb_spec mo 12); try lia; cbn [fst].
    + assert (u32 (y + 1) = y + 1) as -> by (apply Z.mod_small; lia). apply Z.mod_small. unfold ddmmyy. lia.
    + apply Z.mod_small. unfold ddmmyy. lia.
Qed.

(** C18: for every day of the years 2000 to 2099 and every whole second of it, except for the
    last eight hours of 2099, [gps_utc2local] gives a date and time of the calendar that
    are eight hours later. *)
Theorem gps_local_time y mo d h mi s :
  valid_date y mo d = true -> valid_time h mi s = true -> (y, mo, d) <> (99, 12, 31) \/ h < 16 ->
  exists y' mo' d' h',
    valid_date y' mo' d' = true /\ valid_time h' mi s = true /\
    gps_utc2local (ddmmyy d mo y) (d_of_Z (hhmmss h mi s)) = (ddmmyy d' mo' y', d_of_Z (hhmmss h' mi s)) /\
    24 * day_number y' mo' d' + h' = 24 * day_number y mo d + h + 8.
Proof.
  unfold valid_date, valid_time. intros Hd Ht Hlast. assert (0 <= y < 100 /\ 1 <= mo <= 12) as [Hy Hm] by lia.
  destruct (month_facts y mo Hy Hm) as (_ & Hl & Hn). rewrite gps_utc2local_Z by (unfold hhmmss; lia).
  destruct (Z.leb_spec 160000 (hhmmss h mi s)) as [Hh | Hh]; unfold hhmmss in Hh.
  - rewrite next_date by lia. replace (hhmmss h mi s - 160000) with (hhmmss (h - 16) mi s) by (unfold hhmmss; lia).
    destruct (Z.ltb_spec d (month_length y mo)) as [Hdn | Hdn].
    + exists y, mo, (d + 1), (h - 16). split; [lia |]. split; [lia |]. split; [done |]. unfold day_number. lia.
    + assert (d = month_length y mo) as -> by lia. destruct (Z.eqb_spec mo 12) as [-> | Hmo].
      * assert (y < 99). { destruct Hlast as [Hlast | ?]; [| lia]. destruct (Z.eq_dec y 99) as [-> |]; [by destruct Hlast | lia]. }
        exists (y + 1), 1, 1, (h - 16). change (month_length (y + 1) 1) with 31. split; [lia |]. split; [lia |]. split; [done | lia].
      * destruct (month_facts y (mo + 1) Hy ltac:(lia)) as (_ & Hl' & _).
        exists y, (mo + 1), 1, (h - 16). split; [lia |]. split; [lia |]. split; [done | lia].
  - rewrite same_date by lia. replace (hhmmss h mi s + 80000) with (hhmmss (h + 8) mi s) by (unfold hhmmss; lia).
    exists y, mo, d, (h + 8). split; [lia |]. split; [lia |]. split; [done | lia].
Qed.

(** Eight hours before the end of February 2024. *)
Lemma gps_local_time_witness : exists y' mo' d' h',
  valid_date y' mo' d' = true /\ valid_time h' 30 5 = true /\
  gps_utc2local (ddmmyy 29 2 24) (d_of_Z (hhmmss 17 30 5)) = (ddmmyy d' mo' y', d_of_Z (hhmmss h' 30 5)) /\
  24 * day_number y' mo' d' + h' = 24 * day_number 24 2 29 + 17 + 8.
Proof. apply (gps_local_time 24 2 29 17 30 5); [reflexivity | reflexivity | by left]. Defined.

(** The year 2100 does not fit into the date. *)
Example gps_local_2100 : (gps_utc2local (ddmmyy 31 12 99) (d_of_Z 160000)).1 = ddmmyy 1 2 0.
Proof. vm_compute. reflexivity. Qed.
