(* ===== verification/Dbc.v ===== *)
(** * The signal database of the CAN bus

    src/app/base/can/can_dbc.c: a database file (DBC) is parsed into messages and
    signals, and the data of the bus is decoded into the values of the signals.
    The other modules take part through callbacks ([DbcClient]) that see the
    events of [can_api.h], return the length of a suffix that they know, and set
    flags of signals.

    A pointer to a message or a signal is its index; a list of links is the list of
    the indices of its elements (the links are in [Clist]); an array with a counter
    is the list of its used elements.  [None] is undefined behaviour. *)

From stdpp Require Import strings.
From S2P Require Import Md5 Prelude Cstd.

Open Scope string_scope.
Open Scope list_scope.
Open Scope Z_scope.

(** ** Constants *)

Definition DBC_ECUNAME_LEN : Z := 16.
Definition DBC_SIGNAME_LEN : Z := 64.
Definition DBC_SIGUNIT_LEN : Z := 64.
Definition DBC_SUFFIX_LEN : Z := 16.
Definition DBC_KEYWORD_LEN : Z := 8.
Definition DBC_MAX_MESSAGE : Z := 256.
Definition DBC_MAX_SIGNAL : Z := 1024.
Definition DBC_MAX_LINESZ : Z := 4096.
Definition DBC_MAX_MATCHID : Z := 64.
Definition DBC_MAX_CALLBACK : Z := 16.
Definition DBC_FLAG_BCD : Z := 1.
Definition CAN_MAX_PORT : Z := 5.
Definition COM_APP_CUR_DBC_DIR : list Z := c_chars "/usrapp/current/data/dbc".

(** ** Data *)

Record dbc_sig_t := {
  sig_name : list Z; sig_unit : list Z; sig_ecu : list Z; sig_suffix : list Z;
  sig_order : Z; sig_sign : Z; sig_start : Z; sig_size : Z;
  sig_factor : double; sig_offset : double; sig_min : double; sig_max : double;
  sig_init : double; sig_lastv : double; sig_value : double;
  sig_flags : Z; sig_usrflags : Z; sig_port : Z; sig_midx : Z;
  sig_mi : list Z; sig_mv : list double }.

(** [memset(sig, 0, sizeof(dbc_sig_t))] *)
Definition dbc_sig_zero : dbc_sig_t :=
  let z := d_of_Z 0 in
  {| sig_name := []; sig_unit := []; sig_ecu := []; sig_suffix := []; sig_order := 0; sig_sign := 0; sig_start := 0;
     sig_size := 0; sig_factor := z; sig_offset := z; sig_min := z; sig_max := z; sig_init := z; sig_lastv := z;
     sig_value := z; sig_flags := 0; sig_usrflags := 0; sig_port := 0; sig_midx := 0; sig_mi := [0; 0; 0; 0];
     sig_mv := [z; z; z; z] |}.

Record dbc_msg_t := { msg_id : Z; msg_ecu : list Z; msg_siglst : list Z }.
Record dbc_data_t := { fpath : list Z; msglst : list dbc_msg_t; siglst : list dbc_sig_t; md5 : list Z }.

Definition dbc_data_zero : dbc_data_t := {| fpath := []; msglst := []; siglst := []; md5 := replicate 16 0 |}.

Inductive DBC_EVENT :=
  | DBC_EVENT_SURFIX (id : Z) (sfx : list Z) | DBC_EVENT_DEFINE (line : list Z) | DBC_EVENT_RELOAD (path : list Z)
  | DBC_EVENT_FINISHED (ret : Z) | DBC_EVENT_UPDATE (id uptime : Z) | DBC_EVENT_RESET (uptime : Z).

(** What the module asks from files and configuration while it loads. *)
Inductive DBC_FILE_OP := DirMakePath (path : list Z) (create_last : bool) | FileCopy (src dst : list Z).

Record DBC_ENV := {
  e_fopen : list Z -> option (list Z);    (* the content of a file that can be opened *)
  e_feof : bool;                          (* it was read to its end *)
  e_file_exists : list Z -> bool;
  e_file_comp : list Z -> list Z -> Z;
  e_cfg_get : option (list Z);            (* the configured path *)
  e_cfg_set : list Z -> Z
}.

(** The registered functions: [dbc_call f ev db c] is the call of [f] in the state
    [c] of the other modules, [db] the database in use: the result, the calls of
    [dbc_set_signal_flag] and the new state. *)
Class DbcClient (CB C : Type) :=
  dbc_call : CB -> DBC_EVENT -> option dbc_data_t -> C -> option (Z * list (Z * Z) * C).

(** The static variables.  [dbc_fx] records the changes of files. *)
Record DBC {CB C : Type} := {
  dbc_mem : list dbc_data_t; dbc_data : option Z; dbc_match_tbl : list (option Z);
  dbc_callback_lst : list CB; dbc_usrflags : Z; dbc_client : C; dbc_fx : list DBC_FILE_OP }.
Arguments DBC : clear implicits.

(** ** Match table *)

Definition match_tbl_zero : list (option Z) := replicate 64 None.

Definition match_tbl_set (tbl : list (option Z)) (id sig : Z) : option (Z * list (option Z)) :=
  if (id =? 0) || (DBC_MAX_MATCHID <? id) then Some (-1, tbl)
  else
    e ← mem_get tbl (id - 1);
    match e with
    | Some _ => Some (-1, tbl)
    | None => tbl ← mem_set tbl (id - 1) (Some sig); Some (0, tbl)
    end.

(** The inner loop of [dbc_match_tbl_adj]. *)
Fixpoint adj_mi (tbl : list (option Z)) (mi : list Z) : option (Z * list Z) :=
  match mi with
  | [] => Some (0, [])
  | m :: r =>
      if m =? 0 then Some (0, mi)
      else
        e ← mem_get tbl (m - 1);
        match e with
        | None => Some (-1, mi)
        | Some sig => '(ret, r) ← adj_mi tbl r; Some (ret, sig + 1 :: r)
        end
  end.

Fixpoint dbc_match_tbl_adj (tbl : list (option Z)) (sigs : list dbc_sig_t) : option (Z * list dbc_sig_t) :=
  match sigs with
  | [] => Some (0, [])
  | s :: r =>
      '(ret, mi) ← adj_mi tbl (sig_mi s);
      let s := {| s with sig_mi := mi |} in
      if ret =? 0 then '(ret, r) ← dbc_match_tbl_adj tbl r; Some (ret, s :: r) else Some (ret, s :: r)
  end.

Fixpoint match_loop (sigs : list dbc_sig_t) (mi : list Z) (mv : list double) : option bool :=
  match mi, mv with
  | m :: mi, v :: mv =>
      if m =? 0 then Some true
      else s ← mem_get sigs (m - 1); if d_eq v (sig_value s) then match_loop sigs mi mv else Some false
  | _, _ => Some true
  end.

Definition dbc_match_sig (dbc : dbc_data_t) (sig : dbc_sig_t) : option bool :=
  match_loop (siglst dbc) (sig_mi sig) (sig_mv sig).

Definition reset_sig (s : dbc_sig_t) : dbc_sig_t := {| s with sig_lastv := sig_init s; sig_value := sig_init s |}.
Definition dbc_reset_signal (dbc : dbc_data_t) : dbc_data_t := {| dbc with siglst := map reset_sig (siglst dbc) |}.

(** ** Messages and signals *)

Definition dbc_new_msg (dbc : dbc_data_t) : option Z * dbc_data_t :=
  if len (msglst dbc) <? DBC_MAX_MESSAGE then
    (Some (len (msglst dbc)), {| dbc with msglst := msglst dbc ++ [{| msg_id := 0; msg_ecu := []; msg_siglst := [] |}] |})
  else (None, dbc).

Definition dbc_new_sig (dbc : dbc_data_t) : option Z * dbc_data_t :=
  if len (siglst dbc) <? DBC_MAX_SIGNAL then
    (Some (len (siglst dbc)), {| dbc with siglst := siglst dbc ++ [dbc_sig_zero] |})
  else (None, dbc).

(** The index of the first element with a property, from [i] on. *)
Fixpoint find_from {A} (f : A -> bool) (i : Z) (l : list A) : option Z :=
  match l with [] => None | x :: l => if f x then Some i else find_from f (i + 1) l end.

Definition dbc_find_msg (dbc : dbc_data_t) (id : Z) : option Z := find_from (fun m => msg_id m =? id) 0 (msglst dbc).
Definition dbc_find_sig (dbc : dbc_data_t) (name : list Z) : option Z :=
  find_from (fun s => str_eqb (sig_name s) name) 0 (siglst dbc).

Definition put_sig (dbc : dbc_data_t) (i : Z) (s : dbc_sig_t) : option dbc_data_t :=
  l ← mem_set (siglst dbc) i s; Some {| dbc with siglst := l |}.
Definition put_msg (dbc : dbc_data_t) (i : Z) (m : dbc_msg_t) : option dbc_data_t :=
  l ← mem_set (msglst dbc) i m; Some {| dbc with msglst := l |}.

Definition fmt_getkwd : list Z := c_chars "%7s".
Definition fmt_getmsg : list Z := c_chars "%*s %lu %*[^:]: %*u %15s".
Definition fmt_getsig : list Z := c_chars "%*s %63s : %d|%d@%c%c (%lf,%lf) [%lf|%lf] %62s".
Definition fmt_getdef : list Z := c_chars "BA_ " ++ [34] ++ c_chars "SigDefault" ++ [34] ++ c_chars " %63s %lf".

Definition dbc_parse_msg (dbc : dbc_data_t) (line : list Z) : option (option Z * dbc_data_t) :=
  match sscanf fmt_getmsg line with
  | [SvNum id; SvStr ecu] =>
      if (0x7ff <? id) && (Z.land id 0x80000000 =? 0) then Some (None, dbc)
      else
        let '(msg, dbc) := match dbc_find_msg dbc id with Some i => (Some i, dbc) | None => dbc_new_msg dbc end in
        match msg with
        | None => Some (None, dbc)
        | Some i =>
            m ← mem_get (msglst dbc) i;
            if msg_id m =? 0 then dbc ← put_msg dbc i {| m with msg_id := id; msg_ecu := ecu |}; Some (Some i, dbc)
            else Some (Some i, dbc)
        end
  | _ => Some (None, dbc)
  end.

Definition dbc_sig_overflow (order start size : Z) : bool :=
  if (size <=? 0) || (64 <? size) || (start <? 0) || (64 <=? start) then true
  else if negb (order =? 48) && negb (order =? 49) then true
  else if (order =? 49) && (64 <? start + size) then true
  else if (order =? 48) && (64 <? Z.shiftr start 3 * 16 + 7 - start + size) then true
  else false.

(** The name and the suffix. *)
Definition dbc_get_sig_suffix (name : list Z) : list Z * option (list Z) :=
  match strrchr name 95 with
  | Some ((_ :: _) as a, b) => (a, Some b)
  | _ => (name, None)
  end.

(** ** Decoding *)

Definition REV16 (d : Z) : Z := Z.lor (Z.shiftr d 8) (u16 (Z.shiftl d 8)).
Definition REV32 (d : Z) : Z := Z.lor (REV16 (u16 (Z.shiftr d 16))) (u32 (Z.shiftl (REV16 (u16 d)) 16)).
Definition REV64 (d : Z) : Z := Z.lor (REV32 (u32 (Z.shiftr d 32))) (u64 (Z.shiftl (REV32 (u32 d)) 32)).

(** [x >> n], [x << n] on [uint64_t]. *)
Definition shr64 (x n : Z) : option Z := if (0 <=? n) && (n <? 64) then Some (Z.shiftr x n) else None.
Definition shl64 (x n : Z) : option Z := if (0 <=? n) && (n <? 64) then Some (u64 (Z.shiftl x n)) else None.

(** Conversion to [int64_t]. *)
Definition s64 (z : Z) : Z := (z + 2 ^ 63) mod 2 ^ 64 - 2 ^ 63.

(** [memcpy(&rawbit, canmsg->Data, 8)] *)
Definition le64 (l : list Z) : Z := fold_right (fun b v => Z.lor b (Z.shiftl v 8)) 0 l.

(** The bits of a signal, in the byte order of the signal. *)
Definition sig_field (sig : dbc_sig_t) (rawbit : Z) : option Z :=
  if sig_order sig =? 49 then
    x ← shr64 rawbit (sig_start sig); m ← shl64 1 (sig_size sig); Some (Z.land x (u64 (m - 1)))
  else
    let start := 57 - Z.land (sig_start sig) (Z.lnot 7) + Z.land (sig_start sig) 7 - sig_size sig in
    x ← shr64 (REV64 rawbit) start; m ← shl64 1 (sig_size sig); Some (Z.land x (u64 (m - 1))).

Definition sig_rawval (sig : dbc_sig_t) (rawbit : Z) : option Z :=
  x ← sig_field sig rawbit;
  let rawval := s64 x in
  if sig_sign sig =? 45 then
    m ← shl64 1 (sig_size sig - 1);
    if negb (Z.land (u64 rawval) m =? 0) then
      h ← shl64 (2 ^ 64 - 1) (sig_size sig); Some (s64 (Z.lor (u64 rawval) h))
    else Some rawval
  else Some rawval.

(** The value; outside of the limits it is the default. *)
Definition sig_decode (sig : dbc_sig_t) (rawval : Z) : double :=
  let value := d_add (d_mul (d_of_Z rawval) (sig_factor sig)) (sig_offset sig) in
  if d_lt (sig_min sig) (sig_max sig) && (d_lt value (sig_min sig) || d_lt (sig_max sig) value) then sig_init sig else value.

Record CAN_MSG := { cm_uptime : Z; cm_miscUptime : Z; cm_type : Z; cm_dlc : Z; cm_MsgID : Z; cm_Data : list Z }.
Definition cm_port (m : CAN_MSG) : Z := Z.land (Z.shiftr (cm_dlc m) 4) 15.
Definition RPORT (port : Z) : Z := port - 1.

Inductive CAN_EVENT :=
  | CAN_EVENT_DATAIN (msgs : list CAN_MSG) | CAN_EVENT_TIMEOUT (uptime : Z) | CAN_EVENT_ACTIVE
  | CAN_EVENT_SLEEP | CAN_EVENT_WAKEUP.

(** ** Operations on the static variables *)

Section dbc.
Context {CB C : Type} {client : DbcClient CB C}.
Abbreviation DBC := (DBC CB C).
Abbreviation M := (ST DBC).

(** The database that [dbc_data] points to. *)
Definition db_view (s : DBC) : option dbc_data_t := i ← dbc_data s; mem_get (dbc_mem s) i.

Definition put_db (i : Z) (db : dbc_data_t) : M unit :=
  s ← st_get; l ← st_lift (mem_set (dbc_mem s) i db); st_mod (fun s => {| s with dbc_mem := l |}).

(** [db] is stored at [dbc_data]. *)
Definition put_view (db : dbc_data_t) : M unit :=
  s ← st_get; match dbc_data s with Some i => put_db i db | None => mret tt end.

(** [f] applied to the signal [id] of the database in use. *)
Definition upd_signal (id : Z) (f : dbc_sig_t -> dbc_sig_t) : M unit :=
  if id <=? 0 then st_lift None    (* assert *)
  else
    s ← st_get;
    match db_view s with
    | Some db =>
        if id <=? len (siglst db) then
          sig ← st_lift (mem_get (siglst db) (id - 1)); db ← st_lift (put_sig db (id - 1) (f sig)); put_view db
        else mret tt
    | None => mret tt
    end.

Definition dbc_set_signal_flag (id flags : Z) : M unit :=
  upd_signal id (fun sig => {| sig with sig_usrflags := Z.lor (sig_usrflags sig) flags |}).
Definition dbc_clr_signal_flag (id flags : Z) : M unit :=
  upd_signal id (fun sig => {| sig with sig_usrflags := Z.land (sig_usrflags sig) (Z.lnot flags) |}).

Fixpoint set_flags (l : list (Z * Z)) : M unit :=
  match l with [] => mret tt | (id, flags) :: l => dbc_set_signal_flag id flags;; set_flags l end.

Definition call_cb (f : CB) (ev : DBC_EVENT) : M Z :=
  s ← st_get;
  '(ret, flags, c) ← st_lift (dbc_call f ev (db_view s) (dbc_client s));
  st_mod (fun s => {| s with dbc_client := c |});;
  set_flags flags;;
  mret ret.

(** [for (i = 0; i < DBC_MAX_CALLBACK && dbc_callback_lst[i]; i++)] *)
Fixpoint call_all (fs : list CB) (ev : DBC_EVENT) : M unit :=
  match fs with [] => mret tt | f :: fs => call_cb f ev;; call_all fs ev end.
Definition callbacks (ev : DBC_EVENT) : M unit := fs ← st_gets dbc_callback_lst; call_all fs ev.

Definition dbc_match_tbl_init : M unit := st_mod (fun s => {| s with dbc_match_tbl := match_tbl_zero |}).

Definition dbc_match_tbl_set (id sig : Z) : M Z :=
  s ← st_get; '(ret, tbl) ← st_lift (match_tbl_set (dbc_match_tbl s) id sig);
  st_mod (fun s => {| s with dbc_match_tbl := tbl |});; mret ret.

(** *** Suffixes *)

(** [p += n] *)
Definition advance (p : list Z) (n : Z) : option (list Z) := if n <=? len p then Some (drop (Z.to_nat n) p) else None.

(** [while ( *++p != 'I');] *)
Fixpoint to_index (p : list Z) : option (list Z) :=
  match p with c :: p => if c =? 73 then Some (c :: p) else to_index p | [] => None end.

(** [while (isdigit( *++p));] *)
Fixpoint skip_digits (p : list Z) : list Z :=
  match p with c :: r => if isdigit c then skip_digits r else p | [] => [] end.

(** The calls with [DBC_EVENT_SURFIX]: [ret] and [lastret]. *)
Fixpoint surfix_calls (fs : list CB) (ev : DBC_EVENT) (ret lastret : Z) : M (Z * Z) :=
  match fs with
  | [] => mret (ret, lastret)
  | f :: fs =>
      ret ← call_cb f ev;
      if 0 <? lastret then if (0 <? ret) && negb (lastret =? ret) then mret (ret, lastret) else surfix_calls fs ev ret lastret
      else surfix_calls fs ev ret ret
  end.

Definition set_mi (sig : dbc_sig_t) (mc : Z) (v : option Z) (d : double) : option dbc_sig_t :=
  mv ← mem_set (sig_mv sig) mc d;
  match v with
  | None => Some {| sig with sig_mv := mv |}
  | Some m => mi ← mem_set (sig_mi sig) mc m; Some {| sig with sig_mi := mi; sig_mv := mv |}
  end.

(** One round of [while ( *p)]: the rest of the suffix, or [None] after [break]. *)
Definition suffix_step (i : Z) (sig : dbc_sig_t) (p : list Z) (mc : Z) : M (dbc_sig_t * option (list Z * Z)) :=
  match p with
  | [] => st_lift None
  | c :: _ =>
    if c =? 64 then                                                  (* @ *)
      match sscanf (c_chars "@%u") p with
      | [SvNum port] =>
          let sig := {| sig with sig_port := port |} in
          if (port =? 0) || (CAN_MAX_PORT <? port) then mret (sig, None)
          else p ← st_lift (advance p 2); mret ({| sig with sig_port := port - 1 |}, Some (p, mc))
      | _ => mret (sig, None)
      end
    else if c =? 66 then                                             (* B *)
      p ← st_lift (advance p 1);
      mret ({| sig with sig_flags := Z.lor (sig_flags sig) DBC_FLAG_BCD |}, Some (p, mc))
    else if c =? 77 then                                             (* M *)
      if 4 <=? mc then mret (sig, None)
      else
        match sscanf (c_chars "M%lfI%u") p with
        | [SvDbl v; SvNum m] =>
            sig ← st_lift (set_mi sig mc (Some m) v);
            if (m =? 0) || (DBC_MAX_MATCHID <? m) then mret (sig, None)
            else p ← st_lift (to_index (drop 1 p)); mret (sig, Some (skip_digits (drop 1 p), mc + 1))
        | [SvDbl v] => sig ← st_lift (set_mi sig mc None v); mret (sig, None)
        | _ => mret (sig, None)
        end
    else if c =? 73 then                                             (* I *)
      match sscanf (c_chars "I%u") p with
      | [SvNum m] =>
          let sig := {| sig with sig_midx := m |} in
          ret ← dbc_match_tbl_set m i;
          if negb (ret =? 0) then mret (sig, None) else mret (sig, Some (skip_digits (drop 1 p), mc))
      | _ => mret (sig, None)
      end
    else
      fs ← st_gets dbc_callback_lst;
      '(ret, lastret) ← surfix_calls fs (DBC_EVENT_SURFIX (i + 1) p) 0 0;
      if (0 <? ret) && negb (lastret =? ret) then mret (sig, None)
      else p ← st_lift (advance p (if 0 <? ret then ret else 1)); mret (sig, Some (p, mc))
  end.

(** The signal and [*p]; every round takes a character at least. *)
Fixpoint suffix_loop (fuel : nat) (i : Z) (sig : dbc_sig_t) (p : list Z) (mc : Z) : M (dbc_sig_t * Z) :=
  match p, fuel with
  | [], _ => mret (sig, 0)
  | c :: _, O => st_lift None
  | c :: _, Datatypes.S fuel =>
      '(sig, next) ← suffix_step i sig p mc;
      match next with
      | Some (p, mc) => suffix_loop fuel i sig p mc
      | None => mret (sig, c)
      end
  end.

Definition dbc_parse_sig_suffix (i : Z) (sig : dbc_sig_t) (sfx : option (list Z)) : M (dbc_sig_t * Z) :=
  match sfx with
  | None => mret (sig, 0)
  | Some sfx => suffix_loop (length sfx) i {| sig with sig_suffix := strncpy0 sfx DBC_SUFFIX_LEN |} sfx 0
  end.

(** *** Lines *)

(** The end of the unit, in a buffer of [DBC_SIGUNIT_LEN]. *)
Definition close_unit (unit : list Z) : option (list Z) :=
  c ← mem_get unit (len unit - 1); if c =? 34 then Some unit else if len unit + 2 <=? DBC_SIGUNIT_LEN then Some (unit ++ [34]) else None.

(** The ten values of a line. *)
Record SIG_LINE := {
  sl_name : list Z; sl_start : Z; sl_size : Z; sl_order : Z; sl_sign : Z;
  sl_factor : double; sl_offset : double; sl_min : double; sl_max : double; sl_unit : list Z }.

Definition sig_line (vs : list SCANNED) : option SIG_LINE :=
  match vs with
  | [SvStr name; SvNum start; SvNum size; SvNum order; SvNum sign; SvDbl factor; SvDbl offset; SvDbl min; SvDbl max; SvStr unit] =>
      Some {| sl_name := name; sl_start := start; sl_size := size; sl_order := order; sl_sign := sign;
              sl_factor := factor; sl_offset := offset; sl_min := min; sl_max := max; sl_unit := unit |}
  | _ => None
  end.

Definition dbc_parse_sig (dbc : dbc_data_t) (msg : Z) (line : list Z) : M (option Z * dbc_data_t) :=
  match sig_line (sscanf fmt_getsig line) with
  | None => mret (None, dbc)
  | Some l =>
      if dbc_sig_overflow (sl_order l) (sl_start l) (sl_size l) then mret (None, dbc)
      else
        let '(name, sfx) := dbc_get_sig_suffix (sl_name l) in
        match dbc_find_sig dbc name with
        | Some _ => mret (None, dbc)
        | None =>
          let '(new, dbc) := dbc_new_sig dbc in
          match new with
          | None => mret (None, dbc)
          | Some i =>
              '(sig, ret) ← dbc_parse_sig_suffix i dbc_sig_zero sfx;
              if negb (ret =? 0) then dbc ← st_lift (put_sig dbc i sig); mret (None, dbc)
              else
                unit ← st_lift (close_unit (sl_unit l));
                m ← st_lift (mem_get (msglst dbc) msg);
                dbc ← st_lift (put_sig dbc i {| sig with
                  sig_name := name; sig_unit := unit; sig_ecu := msg_ecu m; sig_order := sl_order l; sig_sign := sl_sign l;
                  sig_start := u8 (sl_start l); sig_size := u8 (sl_size l); sig_factor := sl_factor l; sig_offset := sl_offset l;
                  sig_min := sl_min l; sig_max := sl_max l; sig_init := d_of_Z 0 |});
                dbc ← st_lift (put_msg dbc msg {| m with msg_siglst := msg_siglst m ++ [i] |});
                mret (Some i, dbc)
          end
        end
  end.

Definition baudlst : list Z := [50; 100; 125; 250; 500; 1000].

(** Conversion to [short]. *)
Definition s16 (z : Z) : Z := (z + 2 ^ 15) mod 2 ^ 16 - 2 ^ 15.

(** [sscanf(line, "BA_ \"name\" %hu", &tmp)] *)
Definition ba_ushort (name : list Z) (line : list Z) : option Z :=
  match sscanf (c_chars "BA_ " ++ [34] ++ name ++ [34] ++ c_chars " %hu") line with [SvNum v] => Some v | _ => None end.

(** One of the old settings of a baud rate. *)
Definition old_baud (name : list Z) (line : list Z) : option Z :=
  tmp ← ba_ushort name line; if tmp <? 6 then Some tmp else None.

Definition port_baud (line : list Z) : option (Z * Z) :=
  match sscanf (c_chars "BA_ " ++ [34] ++ c_chars "Baudrate%hu" ++ [34] ++ c_chars " %hu") line with
  | [SvNum port; SvNum tmp] => if (0 <? port) && (port <=? CAN_MAX_PORT) then Some (port, tmp) else None
  | _ => None
  end.

Definition dbc_parse_def (dbc : dbc_data_t) (line : list Z) (baud : list Z) : M (dbc_data_t * list Z) :=
  let set port v := baud ← st_lift (mem_set baud port v); mret (dbc, baud) in
  match old_baud (c_chars "HSBaudrate") line with
  | Some tmp => v ← st_lift (mem_get baudlst tmp); set 0 v
  | None =>
  match old_baud (c_chars "MSBaudrate") line with
  | Some tmp => v ← st_lift (mem_get baudlst tmp); set 1 v
  | None =>
  match old_baud (c_chars "LSBaudrate") line with
  | Some tmp => v ← st_lift (mem_get baudlst tmp); set 2 v
  | None =>
  match port_baud line with
  | Some (port, tmp) => set (port - 1) (s16 tmp)
  | None =>
  match sscanf fmt_getdef line with
  | [SvStr name; SvDbl defval] =>
      match dbc_find_sig dbc name with
      | Some i =>
          sig ← st_lift (mem_get (siglst dbc) i);
          dbc ← st_lift (put_sig dbc i {| sig with sig_init := defval |}); mret (dbc, baud)
      | None => mret (dbc, baud)
      end
  | _ => callbacks (DBC_EVENT_DEFINE line);; mret (dbc, baud)
  end end end end end.

(** *** Files *)

Definition log_fx (op : DBC_FILE_OP) : M unit := st_mod (fun s => {| s with dbc_fx := dbc_fx s ++ [op] |}).

Definition in_cur_dir (path : list Z) : bool := has_prefix COM_APP_CUR_DBC_DIR path.

(** [COM_APP_CUR_DBC_DIR] and the file name, in a buffer of 256 bytes. *)
Definition cur_dir_path (path : list Z) : option (list Z) :=
  let p := COM_APP_CUR_DBC_DIR ++ [47] ++ match strrchr path 47 with Some (_, b) => b | None => path end in
  if len p <? 256 then Some p else None.

(** The content of the file, and [*backup]. *)
Definition dbc_open_file (env : DBC_ENV) (path : list Z) : M (option (list Z) * bool) :=
  match e_fopen env path with
  | Some f => mret (Some f, false)
  | None =>
      if in_cur_dir path then mret (None, false)
      else
        newpath ← st_lift (cur_dir_path path);
        if negb (e_file_exists env newpath) then mret (None, false)
        else
          match e_fopen env newpath with
          | Some f => log_fx (DirMakePath path true);; log_fx (FileCopy newpath path);; mret (Some f, true)
          | None => mret (None, true)
          end
  end.

Definition dbc_backup_filepath (env : DBC_ENV) (path : list Z) : Z :=
  let save := e_cfg_set env (strncpy0 path 256) in
  match e_cfg_get env with
  | Some newpath => if str_eqb path newpath then 0 else save
  | None => save
  end.

Definition dbc_backup_file (env : DBC_ENV) (path : list Z) : M unit :=
  if in_cur_dir path then mret tt
  else
    newpath ← st_lift (cur_dir_path path);
    if negb (e_file_exists env newpath) then
      log_fx (DirMakePath COM_APP_CUR_DBC_DIR false);; log_fx (FileCopy path newpath)
    else st_when (negb (e_file_comp env newpath path =? 0)) (log_fx (FileCopy path newpath)).

(** *** Loading *)

Record LOAD := { ld_dbc : dbc_data_t; ld_msg : option Z; ld_num : Z; ld_md5 : MD5_CTX; ld_baud : list Z }.

(** The body of the loop over the lines; the result tells whether it goes on. *)
Definition load_line (linebuf : list Z) (ld : LOAD) : M (LOAD * bool) :=
  ctx ← st_lift (MD5Update (ld_md5 ld) linebuf (len linebuf));
  let ld := {| ld with ld_md5 := ctx; ld_num := ld_num ld + 1 |} in
  if (ld_num ld =? 1) && negb (strstr linebuf (c_chars "VERSION")) then mret (ld, false)
  else
    match sscanf fmt_getkwd linebuf with
    | [SvStr keywd] =>
        if str_eqb keywd (c_chars "BO_") then
          '(msg, dbc) ← st_lift (dbc_parse_msg (ld_dbc ld) linebuf);
          mret ({| ld with ld_dbc := dbc; ld_msg := msg |}, bool_decide (is_Some msg))
        else if str_eqb keywd (c_chars "SG_") then
          match ld_msg ld with
          | None => mret (ld, false)
          | Some msg =>
              '(sig, dbc) ← dbc_parse_sig (ld_dbc ld) msg linebuf;
              mret ({| ld with ld_dbc := dbc |}, bool_decide (is_Some sig))
          end
        else if str_eqb keywd (c_chars "BA_") then
          '(dbc, baud) ← dbc_parse_def (ld_dbc ld) linebuf (ld_baud ld);
          mret ({| ld with ld_dbc := dbc; ld_baud := baud |}, true)
        else mret (ld, true)
    | _ => mret (ld, true)
    end.

(** Every round reads a character at least. *)
Fixpoint load_lines (fuel : nat) (file : list Z) (ld : LOAD) : M (LOAD * bool) :=
  match fgets (Z.to_nat (DBC_MAX_LINESZ - 1)) file, fuel with
  | ([], _), _ => mret (ld, true)
  | (_, _), O => st_lift None
  | (linebuf, file), Datatypes.S fuel =>
      '(ld, ok) ← load_line (c_str linebuf) ld;
      if (ok : bool) then load_lines fuel file ld else mret (ld, false)
  end.

(** After the last line: the result and the database. *)
Definition load_finish (env : DBC_ENV) (path : list Z) (backup : bool) (ld : LOAD) : M (Z * dbc_data_t) :=
  let dbc := ld_dbc ld in
  if negb (e_feof env) then mret (-1, dbc)
  else
    tbl ← st_gets dbc_match_tbl;
    '(ret, sigs) ← st_lift (dbc_match_tbl_adj tbl (siglst dbc));
    let dbc := {| dbc with siglst := sigs |} in
    if negb (ret =? 0) then mret (-1, dbc)
    else if negb (dbc_backup_filepath env path =? 0) then mret (-1, dbc)
    else
      st_when (negb backup) (dbc_backup_file env path);;
      ctx ← st_lift (MD5Final (ld_md5 ld));
      let dbc := dbc_reset_signal dbc in
      mret (0, {| dbc with md5 := ctx_digest ctx; fpath := strncpy0 path 256 |}).

Definition next_mem (p : option Z) : Z := match p with None => 0 | Some i => 1 - i end.

(** The result and the baud rates. *)
Definition dbc_load_file (env : DBC_ENV) (path : list Z) (baud : list Z) : M (Z * list Z) :=
  if len path =? 0 then mret (-1, baud)
  else
    '(file, backup) ← dbc_open_file env path;
    match file with
    | None => mret (-1, baud)
    | Some file =>
        callbacks (DBC_EVENT_RELOAD path);;
        mem ← st_gets (fun s => next_mem (dbc_data s));
        dbc ← st_gets (fun s => mem_get (dbc_mem s) mem);
        dbc ← st_lift dbc;
        dbc_match_tbl_init;;
        let ld := {| ld_dbc := {| dbc with msglst := []; siglst := [] |}; ld_msg := None; ld_num := 0;
                     ld_md5 := MD5Init MD5_CTX_zero; ld_baud := baud |} in
        '(ld, ok) ← load_lines (length file) file ld;
        '(ret, dbc) ← (if (ok : bool) then load_finish env path backup ld else mret (-1, ld_dbc ld));
        put_db mem dbc;;
        (if ret =? 0 then st_mod (fun s => {| s with dbc_data := Some mem |}) else mret tt);;
        callbacks (DBC_EVENT_FINISHED (u32 ret));;
        mret (ret, ld_baud ld)
    end.

(** *** Data of the bus *)

(** The body of the loop over the signals of a message. *)
Definition signal_in (canmsg : CAN_MSG) (i : Z) : M unit :=
  s ← st_get;
  db ← st_lift (db_view s);
  sig ← st_lift (mem_get (siglst db) i);
  if negb (sig_port sig =? u32 (RPORT (cm_port canmsg))) then mret tt
  else
    m ← st_lift (dbc_match_sig db sig);
    if negb m then mret tt
    else
      rawval ← st_lift (sig_rawval sig (le64 (cm_Data canmsg)));
      let value := sig_decode sig rawval in
      if d_eq value (sig_value sig) then mret tt
      else
        db ← st_lift (put_sig db i {| sig with sig_lastv := sig_value sig; sig_value := value |});
        put_view db;;
        callbacks (DBC_EVENT_UPDATE (i + 1) (cm_uptime canmsg)).

Fixpoint signals_in (canmsg : CAN_MSG) (l : list Z) : M unit :=
  match l with [] => mret tt | i :: l => signal_in canmsg i;; signals_in canmsg l end.

Definition message_in (canmsg : CAN_MSG) : M unit :=
  if negb (cm_type canmsg =? 67) then mret tt
  else
    s ← st_get;
    db ← st_lift (db_view s);
    match dbc_find_msg db (cm_MsgID canmsg) with
    | None => mret tt
    | Some i => m ← st_lift (mem_get (msglst db) i); signals_in canmsg (msg_siglst m)
    end.

Fixpoint messages_in (l : list CAN_MSG) : M unit :=
  match l with [] => mret tt | m :: l => message_in m;; messages_in l end.

Definition dbc_reset (par1 : Z) : M unit :=
  s ← st_get; db ← st_lift (db_view s); put_view (dbc_reset_signal db);; callbacks (DBC_EVENT_RESET par1).

Definition dbc_can_callback (ev : CAN_EVENT) : M unit :=
  p ← st_gets dbc_data;
  match p with
  | None => mret tt
  | Some _ =>
      match ev with
      | CAN_EVENT_DATAIN msgs => messages_in msgs
      | CAN_EVENT_TIMEOUT uptime => dbc_reset uptime
      | CAN_EVENT_SLEEP => dbc_reset 0
      | CAN_EVENT_ACTIVE | CAN_EVENT_WAKEUP => mret tt
      end
  end.

(** *** Functions for the other modules *)

(** [INIT_PHASE_INSIDE]; the memory is that of static variables. *)
Definition dbc_init (c : C) : DBC :=
  {| dbc_mem := [dbc_data_zero; dbc_data_zero]; dbc_data := None; dbc_match_tbl := match_tbl_zero;
     dbc_callback_lst := []; dbc_usrflags := 0; dbc_client := c; dbc_fx := [] |}.

Definition dbc_register_callback (cb : CB) : M Z :=
  fs ← st_gets dbc_callback_lst;
  if DBC_MAX_CALLBACK <=? len fs then mret (-1) else st_mod (fun s => {| s with dbc_callback_lst := fs ++ [cb] |});; mret 0.

Definition dbc_request_flag : M Z :=
  f ← st_gets dbc_usrflags;
  let ret := u32 (f + 1) in st_mod (fun s => {| s with dbc_usrflags := Z.lor f ret |});; mret ret.

Definition dbc_is_load (s : DBC) : bool := bool_decide (is_Some (dbc_data s)).

Definition dbc_get_md5 (s : DBC) : option (list Z) := md5 <$> db_view s.
Definition dbc_get_fpath (s : DBC) (size : Z) : option (list Z) :=
  if 0 <? size then db ← db_view s; Some (strncpy0 (fpath db) size) else None.
Definition dbc_get_signal_cnt (s : DBC) : Z := match db_view s with Some db => len (siglst db) | None => -1 end.
Definition dbc_get_signal_id (s : DBC) (name : list Z) : Z :=
  match db_view s with
  | Some db => match dbc_find_sig db name with Some i => i + 1 | None => -1 end
  | None => -1
  end.

(** The signal [id], for the functions that begin with [assert(id > 0)]. *)
Definition sig_of_id (s : DBC) (id : Z) : option (option dbc_sig_t) :=
  if id <=? 0 then None
  else
    match db_view s with
    | Some db => if id <=? len (siglst db) then sig ← mem_get (siglst db) (id - 1); Some (Some sig) else Some None
    | None => Some None
    end.

Definition dbc_get_signal_name (s : DBC) (id size : Z) : option (option (list Z)) :=
  o ← sig_of_id s id; Some (if 0 <? size then (fun sig => strncpy0 (sig_name sig) size) <$> o else None).
Definition dbc_get_signal_ecu (s : DBC) (id size : Z) : option (option (list Z)) :=
  o ← sig_of_id s id; Some (if 0 <? size then (fun sig => strncpy0 (sig_ecu sig) size) <$> o else None).
Definition dbc_get_signal_unit (s : DBC) (id size : Z) : option (option (list Z)) :=
  o ← sig_of_id s id; Some (if 0 <? size then (fun sig => strncpy0 (sig_name sig) size) <$> o else None).
Definition dbc_get_signal_value (s : DBC) (id : Z) : option double :=
  o ← sig_of_id s id; Some (default (d_of_Z 0) (sig_value <$> o)).
Definition dbc_get_signal_lastval (s : DBC) (id : Z) : option double :=
  o ← sig_of_id s id; Some (default (d_of_Z 0) (sig_lastv <$> o)).
Definition dbc_get_signal_port (s : DBC) (id : Z) : option Z :=
  o ← sig_of_id s id; Some (default (-1) (sig_port <$> o)).
Definition dbc_copy_signal_from_id (s : DBC) (id : Z) : option (option dbc_sig_t) := sig_of_id s id.
(** The pointer to the signal [id - 1], or the null pointer. *)
Definition dbc_get_signal_from_id (s : DBC) (id : Z) : option dbc_sig_t :=
  if 0 <? id then mjoin (sig_of_id s id) else None.
Definition dbc_get_signal_from_name (s : DBC) (name : list Z) : option dbc_sig_t :=
  dbc_get_signal_from_id s (dbc_get_signal_id s name).
Definition dbc_copy_signal_from_name (s : DBC) (name : list Z) : option dbc_sig_t := dbc_get_signal_from_name s name.

Definition dbc_test_signal_flag (s : DBC) (id flags : Z) (conj : bool) : option bool :=
  o ← sig_of_id s id;
  Some (match o with
        | Some sig => if conj then Z.land (sig_usrflags sig) flags =? flags else negb (Z.land (sig_usrflags sig) flags =? 0)
        | None => false
        end).

End dbc.
