(* ===== verification/DbcBits.v ===== *)
(** * The bits of a signal

    [Dbc.sig_rawval] against the numbering of bits in database files: a byte holds
    the positions [8 k .. 8 k + 7] from its low bit on; an Intel signal goes up from
    its start, a Motorola signal goes down from its most significant bit and
    continues with the high bit of the next byte. *)

From S2P Require Import Prelude Cstd Dbc.

(** ** The reference *)

(** The bit at a position of the data. *)
Definition bit_at (data : list Z) (p : Z) : bool := Z.testbit (nth (Z.to_nat (p / 8)) data 0) (p mod 8).

Fixpoint up (n : nat) (p : Z) : list Z := match n with O => [] | S n => p :: up n (p + 1) end.
Fixpoint saw (n : nat) (p : Z) : list Z :=
  match n with O => [] | S n => p :: saw n (if p mod 8 =? 0 then p + 15 else p - 1) end.

(** The positions of a signal, from the least significant bit on. *)
Definition positions (order start size : Z) : list Z :=
  if order =? 49 then up (Z.to_nat size) start else rev (saw (Z.to_nat size) start).

Fixpoint bits_value (l : list bool) : Z := match l with [] => 0 | b :: l => Z.b2z b + 2 * bits_value l end.

(** Two's complement for signed signals. *)
Definition ref_rawval (order sign start size : Z) (data : list Z) : Z :=
  let bits := map (bit_at data) (positions order start size) in
  let v := bits_value bits in
  if (sign =? 45) && nth (Z.to_nat (size - 1)) bits false then v - 2 ^ size else v.

(** ** Bytes and words *)

Lemma lor_shl_add a b n : 0 <= n -> 0 <= b < 2 ^ n -> Z.lor b (Z.shiftl a n) = b + 2 ^ n * a.
Proof. intros. rewrite Z.lor_comm, lor_shiftl_add by done. lia. Qed.

Lemma le64_cons b l : is_byte b -> le64 (b :: l) = b + 256 * le64 l.
Proof. intros. cbn [le64 fold_right]. fold (le64 l). apply (lor_shl_add _ _ 8); [lia | done]. Qed.

Lemma le64_range l : Forall is_byte l -> 0 <= le64 l < 2 ^ (8 * len l).
Proof.
  induction 1 as [|b l Hb Hl IH]; [done |]. rewrite le64_cons, len_cons by done. unfold is_byte in Hb.
  rewrite Z.mul_add_distr_l, Z.pow_add_r by (pose proof (len_nonneg l); lia). change (2 ^ (8 * 1)) with 256. nia.
Qed.

Lemma testbit_low_high b l p : is_byte b -> 0 <= p ->
  Z.testbit (le64 (b :: l)) p = if p <? 8 then Z.testbit b p else Z.testbit (le64 l) (p - 8).
Proof.
  intros Hb Hp. cbn [le64 fold_right]. fold (le64 l). rewrite Z.lor_spec, Z.shiftl_spec by done.
  destruct (Z.ltb_spec p 8).
  - rewrite (Z.testbit_neg_r _ (p - 8)) by lia. apply orb_false_r.
  - rewrite <- (Z.mod_small b (2 ^ 8)) by (unfold is_byte in Hb; lia). by rewrite Z.mod_pow2_bits_high by lia.
Qed.

Lemma le64_bit l : Forall is_byte l -> forall p, 0 <= p -> Z.testbit (le64 l) p = bit_at l p.
Proof.
  unfold bit_at. induction 1 as [|b l Hb Hl IH]; intros p Hp.
  - cbn. rewrite !Z.bits_0. destruct (Z.to_nat (p / 8)); by rewrite Z.bits_0.
  - rewrite testbit_low_high by done. destruct (Z.ltb_spec p 8).
    + rewrite Z.div_small, Z.mod_small by lia. done.
    + rewrite IH by lia. replace p with (p - 8 + 1 * 8) at 3 4 by lia. rewrite Z.div_add, Z.mod_add by lia.
      rewrite Z2Nat.inj_add by (try apply Z.div_pos; lia). change (Z.to_nat 1) with 1%nat.
      by rewrite Nat.add_comm.
Qed.

(** The halves of a word are exchanged. *)
Lemma halves n x y : 0 <= n -> 0 <= x < 2 ^ n -> 0 <= y < 2 ^ n ->
  Z.shiftr (x + 2 ^ n * y) n = y /\ (x + 2 ^ n * y) mod 2 ^ n = x /\
  Z.shiftl (x + 2 ^ n * y) n mod 2 ^ (2 * n) = Z.shiftl x n.
Proof.
  intros Hn Hx Hy. assert (0 < 2 ^ n) as Hp by (apply Z.pow_pos_nonneg; lia). split; [| split].
  - rewrite Z.shiftr_div_pow2 by done. rewrite Z.mul_comm, Z.div_add, Z.div_small by lia. done.
  - rewrite Z.mul_comm, Z.mod_add, Z.mod_small by lia. done.
  - rewrite !Z.shiftl_mul_pow2 by done. replace (2 * n) with (n + n) by lia. rewrite Z.pow_add_r by done.
    rewrite Z.mul_mod_distr_r by lia. f_equal. rewrite Z.mul_comm, Z.mod_add, Z.mod_small by lia. done.
Qed.

Lemma REV16_bytes a b : is_byte a -> is_byte b -> REV16 (a + 2 ^ 8 * b) = b + 2 ^ 8 * a.
Proof.
  intros Ha Hb. unfold REV16, u16. destruct (halves 8 a b) as (-> & _ & E); [lia | done | done |].
  change (2 ^ 16) with (2 ^ (2 * 8)). rewrite E. by apply lor_shl_add.
Qed.

Lemma REV16_range x : is_u16 x -> is_u16 (REV16 x).
Proof.
  intros Hx. unfold is_u16 in Hx. rewrite (Z.div_mod x (2 ^ 8)) by lia. rewrite Z.add_comm.
  assert (is_byte (x mod 2 ^ 8)) by (apply Z.mod_pos_bound; lia).
  assert (is_byte (x / 2 ^ 8)) by (split; [apply Z.div_pos; lia | apply Z.div_lt_upper_bound; lia]).
  rewrite REV16_bytes by done. unfold is_byte, is_u16 in *. lia.
Qed.

Lemma REV32_halves x y : is_u16 x -> is_u16 y -> REV32 (x + 2 ^ 16 * y) = REV16 y + 2 ^ 16 * REV16 x.
Proof.
  intros Hx Hy. unfold REV32, u16 at 1 2, u32. destruct (halves 16 x y) as (-> & -> & _); [lia | done | done |].
  pose proof (REV16_range x Hx). pose proof (REV16_range y Hy). unfold is_u16 in *.
  rewrite (Z.mod_small y) by lia. rewrite Z.mod_small; [by apply lor_shl_add; lia |].
  rewrite Z.shiftl_mul_pow2 by lia. lia.
Qed.

Lemma REV32_range x : is_u32 x -> is_u32 (REV32 x).
Proof.
  intros Hx. unfold is_u32 in Hx. rewrite (Z.div_mod x (2 ^ 16)) by lia. rewrite Z.add_comm.
  assert (is_u16 (x mod 2 ^ 16)) by (apply Z.mod_pos_bound; lia).
  assert (is_u16 (x / 2 ^ 16)) by (split; [apply Z.div_pos; lia | apply Z.div_lt_upper_bound; lia]).
  rewrite REV32_halves by done. pose proof (REV16_range (x mod 2 ^ 16)). pose proof (REV16_range (x / 2 ^ 16)).
  unfold is_u16, is_u32 in *. lia.
Qed.

Lemma REV64_halves x y : is_u32 x -> is_u32 y -> REV64 (x + 2 ^ 32 * y) = REV32 y + 2 ^ 32 * REV32 x.
Proof.
  intros Hx Hy. unfold REV64, u32 at 1 2, u64. destruct (halves 32 x y) as (-> & -> & _); [lia | done | done |].
  pose proof (REV32_range x Hx). pose proof (REV32_range y Hy). unfold is_u32 in *.
  rewrite (Z.mod_small y) by lia. rewrite Z.mod_small; [by apply lor_shl_add; lia |].
  rewrite Z.shiftl_mul_pow2 by lia. lia.
Qed.

(** [REV64] reverses the bytes. *)
Lemma REV64_rev l : len l = 8 -> Forall is_byte l -> REV64 (le64 l) = le64 (rev l).
Proof.
  intros Hl Hb. do 8 (destruct l as [|? l]; [done |]). destruct l; [| unfold len in Hl; cbn in Hl; lia]. clear Hl.
  repeat match goal with H : Forall _ (_ :: _) |- _ => inversion_clear H end. cbn [rev app].
  rewrite !le64_cons by done. cbn [le64 fold_right]. unfold is_byte in *.
  match goal with |- REV64 (?a + 256 * (?b + 256 * (?c + 256 * (?d + 256 * (?e + 256 * (?f + 256 * (?g + 256 * (?h + _)))))))) = _ =>
    transitivity (REV64 (((a + 2 ^ 8 * b) + 2 ^ 16 * (c + 2 ^ 8 * d)) + 2 ^ 32 * ((e + 2 ^ 8 * f) + 2 ^ 16 * (g + 2 ^ 8 * h))));
      [f_equal; lia |] end.
  rewrite REV64_halves, !REV32_halves, !REV16_bytes by (unfold is_byte, is_u16, is_u32; lia). lia.
Qed.

(** ** The bits of a number *)

Lemma bits_value_range l : 0 <= bits_value l < 2 ^ len l.
Proof.
  induction l as [|b l IH]; [done |]. cbn [bits_value]. rewrite len_cons, Z.pow_add_r by (pose proof (len_nonneg l); lia).
  destruct b; cbn [Z.b2z]; lia.
Qed.

Lemma bits_value_testbit l : forall k, 0 <= k -> Z.testbit (bits_value l) k = nth (Z.to_nat k) l false.
Proof.
  induction l as [|b l IH]; intros k Hk; cbn [bits_value].
  - rewrite Z.bits_0. by destruct (Z.to_nat k).
  - rewrite Z.add_comm. destruct (Z.eq_dec k 0) as [-> | N].
    + rewrite Z.testbit_0_r. done.
    + replace k with (Z.succ (k - 1)) by lia. rewrite Z.testbit_succ_r, IH by lia.
      by replace (Z.to_nat (Z.succ (k - 1))) with (S (Z.to_nat (k - 1))) by lia.
Qed.

Lemma up_nth n : forall p k, (k < n)%nat -> nth k (up n p) 0 = p + Z.of_nat k.
Proof.
  induction n as [|n IH]; intros p k Hk; [lia |]. destruct k as [|k]; cbn [up nth]; [lia |].
  rewrite IH by lia. lia.
Qed.

Lemma up_length n p : length (up n p) = n.
Proof. revert p. induction n as [|n IH]; intros p; cbn [up length]; [done | by rewrite IH]. Qed.

Lemma saw_length n : forall p, length (saw n p) = n.
Proof. induction n as [|n IH]; intros p; cbn [saw length]; [done | by rewrite IH]. Qed.

(** The bits in the order of the bus, from the high bit of the first byte on. *)
Definition bus_index (p : Z) : Z := 8 * (p / 8) + 7 - p mod 8.

Lemma bus_index_inv p : bus_index (bus_index p) = p.
Proof. unfold bus_index. Z.to_euclidean_division_equations. lia. Qed.

Lemma bus_index_next p : bus_index (if p mod 8 =? 0 then p + 15 else p - 1) = bus_index p + 1.
Proof. unfold bus_index. destruct (Z.eqb_spec (p mod 8) 0); Z.to_euclidean_division_equations; lia. Qed.

Lemma saw_nth n : forall p k, (k < n)%nat -> bus_index (nth k (saw n p) 0) = bus_index p + Z.of_nat k.
Proof.
  induction n as [|n IH]; intros p k Hk; [lia |]. destruct k as [|k]; cbn [saw nth]; [lia |].
  rewrite IH by lia. rewrite bus_index_next. lia.
Qed.

(** The byte-reversed word. *)
Lemma rev_bit data q : len data = 8 -> Forall is_byte data -> 0 <= q < 64 ->
  Z.testbit (REV64 (le64 data)) q = bit_at data (bus_index (63 - q)).
Proof.
  intros Hl Hb Hq. rewrite REV64_rev, le64_bit by (try lia; try done; by apply Forall_rev).
  unfold bit_at. assert (length data = 8%nat) as L by (unfold len in Hl; lia).
  assert (0 <= q / 8 < 8) by (Z.to_euclidean_division_equations; lia).
  rewrite rev_nth by lia. rewrite L. unfold bus_index.
  f_equal; [f_equal |]; Z.to_euclidean_division_equations; lia.
Qed.

Lemma positions_nth order start size k : 0 <= k < size ->
  nth (Z.to_nat k) (positions order start size) 0 =
    if order =? 49 then start + k else bus_index (bus_index start + (size - 1 - k)).
Proof.
  intros Hk. unfold positions. destruct (order =? 49).
  - rewrite up_nth by lia. lia.
  - rewrite rev_nth by (rewrite saw_length; lia). rewrite saw_length.
    rewrite <- (bus_index_inv (nth _ _ _)), saw_nth by lia. f_equal. lia.
Qed.

Lemma positions_length order start size : length (positions order start size) = Z.to_nat size.
Proof. unfold positions. destruct (order =? 49); [apply up_length | by rewrite length_rev, saw_length]. Qed.

(** ** Extraction *)

Lemma land_mask x n : 0 <= n < 64 -> Z.land x (u64 (Z.shiftl 1 n - 1)) = x mod 2 ^ n.
Proof.
  intros Hn. rewrite Z.shiftl_1_l. assert (0 < 2 ^ n < 2 ^ 64) by (split; [apply Z.pow_pos_nonneg; lia | apply Z.pow_lt_mono_r; lia]).
  unfold u64. rewrite Z.mod_small by lia. rewrite Z.sub_1_r, <- Z.ones_equiv. apply Z.land_ones. lia.
Qed.

Lemma shl64_1 n : 0 <= n < 64 -> shl64 1 n = Some (2 ^ n).
Proof.
  intros Hn. unfold shl64, u64. rewrite Z.shiftl_1_l, Z.mod_small.
  - repeat (case_bool; cbn [andb]; try lia). done.
  - split; [apply Z.pow_nonneg; lia | apply Z.pow_lt_mono_r; lia].
Qed.

Lemma shl64_ones n : 0 <= n < 64 -> shl64 (2 ^ 64 - 1) n = Some (2 ^ 64 - 2 ^ n).
Proof.
  intros Hn. unfold shl64, u64. repeat (case_bool; cbn [andb]; try lia). f_equal. rewrite Z.shiftl_mul_pow2 by lia.
  assert (0 < 2 ^ n < 2 ^ 64) by (split; [apply Z.pow_pos_nonneg; lia | apply Z.pow_lt_mono_r; lia]).
  replace ((2 ^ 64 - 1) * 2 ^ n) with (2 ^ 64 - 2 ^ n + (2 ^ n - 1) * 2 ^ 64) by lia.
  rewrite Z.mod_add by lia. apply Z.mod_small. lia.
Qed.

(** The bits [q .. q + size - 1] of a word are those at the positions. *)
Lemma field_value word q order start size data : 0 <= q -> 0 <= size ->
  (forall k, 0 <= k < size -> Z.testbit word (q + k) = bit_at data (nth (Z.to_nat k) (positions order start size) 0)) ->
  Z.shiftr word q mod 2 ^ size = bits_value (map (bit_at data) (positions order start size)).
Proof.
  intros Hq Hs H. apply Z.bits_inj'. intros k Hk. rewrite bits_value_testbit by done.
  destruct (Z.lt_ge_cases k size) as [Hlt | Hge].
  - rewrite Z.mod_pow2_bits_low, Z.shiftr_spec, Z.add_comm, H by lia.
    rewrite (nth_indep _ _ (bit_at data 0)) by (rewrite length_map, positions_length; lia). by rewrite map_nth.
  - rewrite Z.mod_pow2_bits_high by lia. rewrite nth_overflow; [done |]. rewrite length_map, positions_length. lia.
Qed.

(** What [dbc_sig_overflow] accepts. *)
Lemma overflow_false order start size : dbc_sig_overflow order start size = false ->
  1 <= size <= 64 /\ 0 <= start < 64 /\
  (order = 49 /\ start + size <= 64 \/ order = 48 /\ bus_index start + size <= 64).
Proof.
  unfold dbc_sig_overflow, bus_index. rewrite Z.shiftr_div_pow2 by lia. change (2 ^ 3) with 8.
  intros H. repeat (case_bool; cbn [orb andb negb] in H; try done; try lia); Z.to_euclidean_division_equations; lia.
Qed.

Lemma motorola_start start size : 0 <= start ->
  57 - Z.land start (Z.lnot 7) + Z.land start 7 - size = 64 - bus_index start - size.
Proof.
  intros Hs. change 7 with (Z.ones 3) at 1 2. rewrite <- Z.ldiff_land, Z.ldiff_ones_r, Z.land_ones by lia.
  rewrite Z.shiftl_mul_pow2, Z.shiftr_div_pow2 by lia. unfold bus_index. change (2 ^ 3) with 8. lia.
Qed.

Lemma s64_small z : - 2 ^ 63 <= z < 2 ^ 63 -> s64 z = z.
Proof. intros. unfold s64. rewrite Z.mod_small; lia. Qed.

Lemma land_pow2 x n : 0 <= n -> (Z.land x (2 ^ n) =? 0) = negb (Z.testbit x n).
Proof.
  intros Hn. destruct (Z.testbit x n) eqn:T; cbn [negb].
  - apply Z.eqb_neq. intros E. apply (f_equal (fun z => Z.testbit z n)) in E.
    rewrite Z.land_spec, T, Z.pow2_bits_true, Z.bits_0 in E by done. done.
  - apply Z.eqb_eq. apply Z.bits_inj'. intros k Hk. rewrite Z.land_spec, Z.bits_0, Z.pow2_bits_eqb by done.
    destruct (Z.eqb_spec n k) as [<- |]; [by rewrite T | apply andb_false_r].
Qed.

(** The sign bit is copied to the left. *)
Lemma sign_extend v n : 1 <= n < 64 -> 0 <= v < 2 ^ n ->
  (m ← shl64 1 (n - 1);
   if negb (Z.land (u64 v) m =? 0) then h ← shl64 (2 ^ 64 - 1) n; Some (s64 (Z.lor (u64 v) h)) else Some v) =
  Some (if Z.testbit v (n - 1) then v - 2 ^ n else v).
Proof.
  intros Hn Hv. assert (2 ^ n <= 2 ^ 63) by (apply Z.pow_le_mono_r; lia).
  assert (u64 v = v) as -> by (apply Z.mod_small; lia).
  rewrite shl64_1 by lia. cbn [mbind option_bind]. rewrite land_pow2, negb_involutive by lia.
  destruct (Z.testbit v (n - 1)); [| done]. rewrite shl64_ones by lia. cbn [mbind option_bind]. f_equal.
  assert (2 ^ 64 - 2 ^ n = 2 ^ n * (2 ^ (64 - n) - 1)) as E.
  { rewrite Z.mul_sub_distr_l, <- Z.pow_add_r by lia. replace (n + (64 - n)) with 64 by lia. lia. }
  rewrite E, Z.mul_comm, <- Z.shiftl_mul_pow2, lor_shl_add, <- Z.mul_comm, Z.mul_comm, <- E by lia.
  unfold s64. replace (v + (2 ^ 64 - 2 ^ n) + 2 ^ 63) with (v - 2 ^ n + 2 ^ 63 + 1 * 2 ^ 64) by lia.
  rewrite Z.mod_add, Z.mod_small by lia. lia.
Qed.

Section rawval.
Context (sig : dbc_sig_t) (data : list Z).
Context (Hdata : len data = 8) (Hbytes : Forall is_byte data).
Context (Hok : dbc_sig_overflow (sig_order sig) (sig_start sig) (sig_size sig) = false).

Let bits := map (bit_at data) (positions (sig_order sig) (sig_start sig) (sig_size sig)).

(** The field, from the word of the byte order. *)
Lemma field_of : sig_size sig < 64 -> sig_field sig (le64 data) = Some (bits_value bits).
Proof using Hdata Hbytes Hok.
  intros H64. apply overflow_false in Hok as (Hs & Hst & Ho). unfold sig_field, shr64. cbv zeta. rewrite shl64_1 by lia.
  rewrite motorola_start by lia. subst bits. unfold bus_index in Ho |- *.
  destruct (Z.eqb_spec (sig_order sig) 49) as [E | E].
  - repeat (case_bool; cbn [andb]; try lia). cbn [mbind option_bind]. rewrite <- (Z.shiftl_1_l (sig_size sig)), land_mask by lia.
    f_equal. apply field_value; [lia | lia |]. intros k Hk. rewrite positions_nth, E by done. cbn. apply le64_bit; [done | lia].
  - destruct Ho as [[? ?] | [E' Hb]]; [done |].
    repeat (case_bool; cbn [andb]; try (Z.to_euclidean_division_equations; lia)). cbn [mbind option_bind].
    rewrite <- (Z.shiftl_1_l (sig_size sig)), land_mask by lia.
    f_equal. apply field_value; [lia | lia |]. intros k Hk. rewrite positions_nth, E' by done. cbn [Z.eqb Pos.eqb].
    rewrite rev_bit by (try done; Z.to_euclidean_division_equations; lia). do 2 f_equal. unfold bus_index. lia.
Qed.

Lemma rawval_bits : sig_size sig < 64 ->
  sig_rawval sig (le64 data) = Some (ref_rawval (sig_order sig) (sig_sign sig) (sig_start sig) (sig_size sig) data).
Proof using Hdata Hbytes Hok.
  intros H64. pose proof (field_of H64) as F. apply overflow_false in Hok as (Hs & Hst & Ho).
  pose proof (bits_value_range bits) as R.
  assert (len bits = sig_size sig) as L by (subst bits; unfold len; rewrite length_map, positions_length; lia).
  rewrite L in R. assert (2 ^ sig_size sig <= 2 ^ 63) by (apply Z.pow_le_mono_r; lia).
  unfold sig_rawval. rewrite F. cbn [mbind option_bind]. cbv zeta. rewrite s64_small by lia.
  unfold ref_rawval. fold bits. destruct (sig_sign sig =? 45); [| done]. cbn [andb].
  rewrite <- bits_value_testbit by lia. apply sign_extend; [lia | exact R].
Qed.

(** [1ULL << 64] *)
Lemma rawval_64 : sig_size sig = 64 -> sig_rawval sig (le64 data) = None.
Proof using.
  intros E. unfold sig_rawval, sig_field, shl64. rewrite E. cbn [Z.leb Z.ltb Z.compare Pos.compare Pos.compare_cont andb].
  destruct (sig_order sig =? 49); cbv zeta; by destruct (shr64 _ _).
Qed.

End rawval.

(** C19: The value of a signal that [dbc_sig_overflow] accepts is the number that its
    bits form in the numbering of database files, in both byte orders, in two's
    complement if it is signed; but a signal of 64 bits, which is accepted as well,
    shifts by the width of the type. *)
Theorem dbc_signal_bits sig data :
  len data = 8 -> Forall is_byte data ->
  dbc_sig_overflow (sig_order sig) (sig_start sig) (sig_size sig) = false ->
  sig_rawval sig (le64 data) =
    if sig_size sig =? 64 then None
    else Some (ref_rawval (sig_order sig) (sig_sign sig) (sig_start sig) (sig_size sig) data).
Proof.
  intros Hd Hb Ho. destruct (Z.eqb_spec (sig_size sig) 64) as [E | E]; [by apply rawval_64 |].
  apply rawval_bits; [done .. |]. apply overflow_false in Ho. lia.
Qed.

(** A signed Motorola signal of 12 bits over two bytes. *)
Lemma dbc_signal_bits_witness :
  sig_rawval {| sig_order := 48; sig_sign := 45; sig_start := 3; sig_size := 12; sig_name := []; sig_unit := []; sig_ecu := [];
    sig_suffix := []; sig_factor := d_of_Z 1; sig_offset := d_of_Z 0; sig_min := d_of_Z 0; sig_max := d_of_Z 0;
    sig_init := d_of_Z 0; sig_lastv := d_of_Z 0; sig_value := d_of_Z 0; sig_flags := 0; sig_usrflags := 0; sig_port := 0;
    sig_midx := 0; sig_mi := []; sig_mv := [] |} (le64 [0xff; 0xfe; 0; 0; 0; 0; 0; 0]) = Some (-2).
Proof.
  rewrite dbc_signal_bits; [reflexivity | reflexivity | repeat constructor; unfold is_byte; lia | reflexivity].
Defined.
