(* ===== verification/DbcLoad.v ===== *)
(** * Loading a signal database

    The well-formedness of a database, and that every file, whatever its bytes,
    is loaded into a well-formed database or is refused without a trace. *)

From stdpp Require Import strings.
From S2P Require Import Md5 Prelude Cstd Dbc.

Open Scope string_scope.
Open Scope list_scope.
Open Scope Z_scope.

(** ** Well-formed databases *)

(** The references of a signal to others: up to the first zero. *)
Fixpoint refs (mi : list Z) : list Z := match mi with m :: r => if m =? 0 then [] else m :: refs r | [] => [] end.

(** References to other signals are at most [k]: match indices during the load,
    numbers of signals afterwards. *)
Record sig_ok (k : Z) (s : dbc_sig_t) : Prop := {
  so_mi : len (sig_mi s) = 4 /\ Forall (fun m => 0 < m <= k) (refs (sig_mi s));
  so_mv : len (sig_mv s) = 4;
  so_port : 0 <= sig_port s < CAN_MAX_PORT;
  so_bits : dbc_sig_overflow (sig_order s) (sig_start s) (sig_size s) = false;
  so_name : len (sig_name s) < DBC_SIGNAME_LEN;
  so_unit : len (sig_unit s) < DBC_SIGUNIT_LEN;
  so_ecu : len (sig_ecu s) < DBC_ECUNAME_LEN;
  so_suffix : len (sig_suffix s) < DBC_SUFFIX_LEN
}.

(** Every signal is in the list of one message; names and identifiers are unique. *)
Record db_ok (k : Z) (db : dbc_data_t) : Prop := {
  do_msgs : len (msglst db) <= DBC_MAX_MESSAGE;
  do_sigs : len (siglst db) <= DBC_MAX_SIGNAL;
  do_sig : Forall (sig_ok k) (siglst db);
  do_ecu : Forall (fun m => len (msg_ecu m) < DBC_ECUNAME_LEN) (msglst db);
  do_links : concat (map msg_siglst (msglst db)) ≡ₚ seqZ 0 (len (siglst db));
  do_names : List.NoDup (map sig_name (siglst db));
  do_ids : List.NoDup (map msg_id (msglst db))
}.

(** The database in use: its references are signals. *)
Definition loaded_ok (db : dbc_data_t) : Prop := db_ok (len (siglst db)) db.

Lemma refs_range k mi : Forall (fun m => 0 <= m <= k) mi -> Forall (fun m => 0 < m <= k) (refs mi).
Proof. induction 1 as [|m r Hm Hr IH]; cbn; [constructor |]. destruct (Z.eqb_spec m 0); constructor; [lia | done]. Qed.

(** ** Searching *)

Lemma find_from_Some {A} (f : A -> bool) l : forall i j, find_from f i l = Some j ->
  i <= j < i + len l /\ exists x, l !! Z.to_nat (j - i) = Some x /\ f x = true.
Proof.
  induction l as [|x l IH]; intros i j; cbn [find_from]; [done |]. rewrite len_cons. pose proof (len_nonneg l).
  destruct (f x) eqn:E.
  - intros [= <-]. split; [lia |]. exists x. by rewrite Z.sub_diag.
  - intros (? & y & Hy & Hf)%IH. split; [lia |]. exists y. split; [| done].
    by replace (Z.to_nat (j - i)) with (S (Z.to_nat (j - (i + 1)))) by lia.
Qed.

Lemma find_from_None {A} (f : A -> bool) l : forall i, find_from f i l = None -> Forall (fun x => f x = false) l.
Proof.
  induction l as [|x l IH]; intros i; cbn [find_from]; [constructor |].
  destruct (f x) eqn:E; [done |]. intros ?%IH. by constructor.
Qed.

Lemma mem_get_idx {A} (l : list A) j x : l !! Z.to_nat (j - 0) = Some x -> 0 <= j -> mem_get l j = Some x.
Proof. intros H Hj. rewrite mem_get_lookup by done. by rewrite Z.sub_0_r in H. Qed.

Lemma dbc_find_msg_Some db id i : dbc_find_msg db id = Some i ->
  exists m, mem_get (msglst db) i = Some m /\ msg_id m = id.
Proof.
  intros (Hi & m & Hm & E%Z.eqb_eq)%find_from_Some. exists m. split; [apply mem_get_idx; [done | lia] | done].
Qed.

Lemma dbc_find_sig_Some db name i : dbc_find_sig db name = Some i ->
  exists s, mem_get (siglst db) i = Some s /\ sig_name s = name.
Proof.
  intros (Hi & s & Hs & E)%find_from_Some. exists s. split; [apply mem_get_idx; [done | lia] |]. by apply bool_decide_eq_true in E.
Qed.

Lemma dbc_find_msg_None db id : dbc_find_msg db id = None -> ~ In id (map msg_id (msglst db)).
Proof.
  intros H%find_from_None (m & E & Hm)%in_map_iff. rewrite List.Forall_forall in H. apply H in Hm. by apply Z.eqb_neq in Hm.
Qed.

Lemma dbc_find_sig_None db name : dbc_find_sig db name = None -> ~ In name (map sig_name (siglst db)).
Proof.
  intros H%find_from_None (s & E & Hs)%in_map_iff. rewrite List.Forall_forall in H. apply H in Hs.
  by apply bool_decide_eq_false in Hs.
Qed.

(** ** Storing *)

Lemma mem_get_snoc {A} (l : list A) x : mem_get (l ++ [x]) (len l) = Some x.
Proof. by rewrite <- (Z.add_0_r (len l)), mem_get_app_r. Qed.

Lemma mem_set_snoc {A} (l : list A) x y : mem_set (l ++ [x]) (len l) y = Some (l ++ [y]).
Proof.
  rewrite mem_set_ok by (rewrite len_app; change (len [x]) with 1; pose proof (len_nonneg l); lia).
  f_equal. unfold len. rewrite Nat2Z.id. by rewrite insert_app_r_alt, Nat.sub_diag by lia.
Qed.

Lemma map_insert {A B} (f : A -> B) (l : list A) i x : map f (<[i := x]> l) = <[i := f x]> (map f l).
Proof. apply list_fmap_insert. Qed.

(** A field that stays the same. *)
Lemma map_insert_id {A B} (f : A -> B) (l : list A) i x y : l !! i = Some x -> f y = f x -> map f (<[i := y]> l) = map f l.
Proof. intros Hx E. rewrite map_insert, E. apply list_insert_id. by rewrite list_lookup_fmap, Hx. Qed.

Lemma concat_snoc {A} (L : list (list A)) i l x : L !! i = Some l -> concat (<[i := l ++ [x]]> L) ≡ₚ x :: concat L.
Proof.
  intros H. rewrite insert_take_drop by (by eapply lookup_lt_Some). rewrite <- (take_drop_middle _ _ _ H) at 3.
  rewrite !concat_app. cbn [concat]. rewrite <- !app_assoc. cbn [app]. by rewrite Permutation_middle, (Permutation_middle l).
Qed.

Lemma seqZ_snoc n : 0 <= n -> seqZ 0 (n + 1) = seqZ 0 n ++ [n].
Proof. intros. rewrite seqZ_app by lia. by rewrite Z.add_0_l. Qed.

Lemma NoDup_snoc {A} (l : list A) x : ~ In x l -> List.NoDup l -> List.NoDup (l ++ [x]).
Proof. intros H1 H2. apply (Permutation_NoDup (l := x :: l)); [by rewrite Permutation_cons_append | by constructor]. Qed.

(** ** What the formats give *)

(** All conversions succeeded: the types of the values. *)
Ltac scanned E :=
  let H := fresh in
  match type of E with sscanf ?f ?l = ?vs =>
    pose proof (sscanf_all f l vs ltac:(assumption) E ltac:(reflexivity)) as H;
    let c := eval vm_compute in (convs (parse_fmt None f)) in
    change (convs (parse_fmt None f)) with c in H;
    repeat match goal with G : Forall2 _ (_ :: _) _ |- _ => inversion_clear G end;
    unfold conv_ok in *; cbn [fst snd] in *
  end.

(** ** Messages *)

Section messages.
Context (k : Z).

Lemma new_msg_ok db r db' id ecu : db_ok k db -> dbc_new_msg db = (r, db') ->
  ~ In id (map msg_id (msglst db)) -> len ecu < DBC_ECUNAME_LEN ->
  siglst db' = siglst db /\
  match r with
  | None => db' = db
  | Some i => 0 <= i /\ mem_get (msglst db') i = Some {| msg_id := 0; msg_ecu := []; msg_siglst := [] |} /\
      exists db'', put_msg db' i {| msg_id := id; msg_ecu := ecu; msg_siglst := [] |} = Some db'' /\
        db_ok k db'' /\ siglst db'' = siglst db /\ i < len (msglst db'')
  end.
Proof using.
  intros D. unfold dbc_new_msg. destruct (Z.ltb_spec (len (msglst db)) DBC_MAX_MESSAGE); [| by intros [= <- <-]].
  intros [= <- <-] Hid He. cbn [msglst siglst]. split; [done |]. split; [apply len_nonneg |]. split; [apply mem_get_snoc |].
  unfold put_msg. cbn [msglst]. rewrite mem_set_snoc. cbn [mbind option_bind]. eexists. split; [reflexivity |].
  split; [| split; [done | cbn [msglst]; rewrite len_app; change (len [_]) with 1; lia]].
  destruct D. split; cbn [msglst siglst]; try done.
  - rewrite len_app. change (len [_]) with 1. lia.
  - apply Forall_app. split; [done | by constructor].
  - rewrite map_app, concat_app. cbn. by rewrite app_nil_r.
  - rewrite map_app. by apply NoDup_snoc.
Qed.

Lemma parse_msg_ok db line : db_ok k db -> Forall is_byte line ->
  exists r db', dbc_parse_msg db line = Some (r, db') /\ siglst db' = siglst db /\
    match r with Some i => db_ok k db' /\ 0 <= i < len (msglst db') | None => True end.
Proof using.
  intros D Hl. unfold dbc_parse_msg. destruct (sscanf fmt_getmsg line) as [|[id| |] [|[| |ecu] []]] eqn:E; try by eexists _, _.
  scanned E. destruct (_ && _); [by eexists _, _ |]. destruct (dbc_find_msg db id) as [i|] eqn:Ef.
  - apply dbc_find_msg_Some in Ef as (m & Em & Eid). rewrite Em. cbn [mbind option_bind].
    apply mem_get_Some in Em as [Hi Em]. destruct (Z.eqb_spec (msg_id m) 0) as [Z0 |]; [| by eexists _, _].
    unfold put_msg. rewrite mem_set_ok by done. cbn [mbind option_bind]. eexists _, _. split; [reflexivity |].
    split; [done |]. cbn [msglst]. rewrite len_insert. split; [| done]. destruct D. split; cbn [msglst siglst]; try done.
    + by rewrite len_insert.
    + apply Forall_insert; [done |]. cbn. unfold DBC_ECUNAME_LEN. lia.
    + by erewrite map_insert_id.
    + rewrite (map_insert_id _ _ _ _ _ Em) by (cbn; lia). done.
  - destruct (dbc_new_msg db) as [[i|] db1] eqn:En;
      apply (new_msg_ok _ _ _ id ecu D) in En as [Es Hn]; [| by apply dbc_find_msg_None | unfold DBC_ECUNAME_LEN; lia
        | | by apply dbc_find_msg_None | unfold DBC_ECUNAME_LEN; lia]; [| by eexists _, _].
    destruct Hn as (Hi & -> & db2 & E2 & D2 & Es2 & Hlt). cbn [mbind option_bind msg_id msg_ecu msg_siglst].
    rewrite E2. cbn [mbind option_bind]. eexists _, _. split; [reflexivity |]. by rewrite Es2.
Qed.

End messages.

(** The characters of a string. *)
Definition is_char (c : Z) : Prop := 0 < c < 256.

Lemma chars_bytes l : Forall is_char l -> Forall is_byte l.
Proof. apply Forall_impl. unfold is_char, is_byte. lia. Qed.

(** ** The interface of the other modules *)

(** The events that the module sends. *)
Definition event_ok (ev : DBC_EVENT) : Prop :=
  match ev with
  | DBC_EVENT_SURFIX id sfx => 0 < id <= DBC_MAX_SIGNAL /\ Forall is_char sfx
  | DBC_EVENT_DEFINE line => Forall is_char line
  | DBC_EVENT_UPDATE id _ => 0 < id
  | _ => True
  end.

(** What a callback promises: it is defined, flags signals by their numbers, and
    returns at most the length of the suffix. *)
Class DbcClientOk (CB C : Type) {client : DbcClient CB C} := {
  client_ok : C -> Prop;
  dbc_call_ok f ev db c : event_ok ev -> client_ok c -> exists ret flags c',
    dbc_call f ev db c = Some (ret, flags, c') /\ client_ok c' /\ Forall (fun p => 0 < p.1) flags /\
    match ev with DBC_EVENT_SURFIX _ sfx => ret <= len sfx | _ => True end
}.

Section load.
Context {CB C : Type} {client : DbcClient CB C} {law : DbcClientOk CB C}.
Abbreviation DBC := (DBC CB C).
Abbreviation M := (ST DBC).

(** The databases without the flags that the other modules set. *)
Definition forget (s : dbc_sig_t) : dbc_sig_t := {| s with sig_usrflags := 0 |}.
Definition forget_db (db : dbc_data_t) : dbc_data_t := {| db with siglst := map forget (siglst db) |}.

(** All that the callbacks leave alone, the match table apart. *)
Definition obs (s : DBC) : list dbc_data_t * option Z * list CB * Z * list DBC_FILE_OP :=
  (map forget_db (dbc_mem s), dbc_data s, dbc_callback_lst s, dbc_usrflags s, dbc_fx s).

Definition tbl_ok (n : Z) (tbl : list (option Z)) : Prop :=
  len tbl = DBC_MAX_MATCHID /\ Forall (fun e => match e with Some i => 0 <= i < n | None => True end) tbl.

Record dbc_ok (s : DBC) : Prop := {
  ok_mem : len (dbc_mem s) = 2;
  ok_data : match dbc_data s with Some i => 0 <= i < 2 | None => True end;
  ok_view : match db_view s with Some db => loaded_ok db | None => True end;
  ok_client : client_ok (dbc_client s)
}.

Lemma forget_sig_ok k s : sig_ok k (forget s) <-> sig_ok k s.
Proof using. split; intros []; by split. Qed.

Lemma forget_db_ok k db : db_ok k (forget_db db) <-> db_ok k db.
Proof using.
  assert (map sig_name (map forget (siglst db)) = map sig_name (siglst db)) as En.
  { rewrite map_map. by apply map_ext. }
  assert (len (map forget (siglst db)) = len (siglst db)) as El by (unfold len; by rewrite length_map).
  assert (Forall (sig_ok k) (map forget (siglst db)) <-> Forall (sig_ok k) (siglst db)) as Es.
  { rewrite Forall_map. apply Forall_iff. intros. apply forget_sig_ok. }
  split; intros [H1 H2 H3 H4 H5 H6 H7]; cbn [forget_db siglst msglst] in *; rewrite ?En, ?El in *;
    split; cbn [forget_db siglst msglst]; rewrite ?En, ?El; tauto.
Qed.

Lemma forget_loaded db db' : forget_db db = forget_db db' -> loaded_ok db -> loaded_ok db'.
Proof using.
  unfold loaded_ok. intros E. assert (len (siglst db) = len (siglst db')) as El.
  { apply (f_equal (fun d => len (siglst d))) in E. cbn in E. unfold len in *. by rewrite !length_map in E. }
  rewrite <- El. intros H. apply forget_db_ok. rewrite <- E. by apply forget_db_ok.
Qed.

Lemma mem_get_map {A B} (f : A -> B) l i : mem_get (map f l) i = f <$> mem_get l i.
Proof using. unfold mem_get. destruct (0 <=? i); [apply list_lookup_fmap | done]. Qed.

(** The view depends on the observation up to the flags. *)
Lemma obs_view s s' : obs s' = obs s -> forget_db <$> db_view s' = forget_db <$> db_view s.
Proof using.
  unfold obs, db_view. intros [= Hm -> _ _ _]. destruct (dbc_data s) as [i|]; [| done]. cbn [mbind option_bind].
  by rewrite <- !mem_get_map, Hm.
Qed.

Lemma dbc_ok_obs s s' : dbc_ok s -> obs s' = obs s -> client_ok (dbc_client s') -> dbc_ok s'.
Proof using.
  intros [] E Hc. pose proof (obs_view _ _ E) as Ev. injection E as Em Ed _ _ _. split; [| by rewrite Ed | | done].
  - apply (f_equal length) in Em. rewrite !length_map in Em. unfold len in *. rewrite Em. done.
  - destruct (db_view s) as [db|], (db_view s') as [db'|]; try done. apply (inj Some) in Ev. eapply forget_loaded; [symmetry; exact Ev | done].
Qed.

(** ** Calls of the other modules *)

(** They see the same state, up to their flags. *)
Definition quiet (s s' : DBC) : Prop := dbc_ok s' /\ obs s' = obs s /\ dbc_match_tbl s' = dbc_match_tbl s.

Lemma quiet_trans s s1 s2 : quiet s s1 -> quiet s1 s2 -> quiet s s2.
Proof using. intros (? & ? & ?) (? & ? & ?). split; [done |]. split; congruence. Qed.

Lemma flags_forget sig f : forget {| sig with sig_usrflags := f |} = forget sig.
Proof using. done. Qed.

Lemma set_signal_flag_quiet id flags s : dbc_ok s -> 0 < id -> wp (dbc_set_signal_flag id flags) (fun _ => quiet s) s.
Proof using.
  intros Ok Hid. unfold dbc_set_signal_flag, upd_signal. destruct (Z.leb_spec id 0); [lia |]. apply wp_get.
  assert (quiet s s) as Q by done. destruct (db_view s) as [db|] eqn:Ev; [| by apply wp_ret].
  destruct (Z.leb_spec id (len (siglst db))) as [Hle |]; [| by apply wp_ret].
  destruct (mem_get_is_Some (siglst db) (id - 1)) as [sig Es]; [lia |]. eapply wp_lift; [exact Es |].
  unfold put_sig. rewrite mem_set_ok by lia. cbn [mbind option_bind]. eapply wp_lift; [reflexivity |].
  unfold put_view. apply wp_get. unfold db_view in Ev. destruct (dbc_data s) as [p|] eqn:Ed; [| by apply wp_ret].
  cbn [mbind option_bind] in Ev. apply mem_get_Some in Ev as [Hp Ev]. apply mem_get_Some in Es as [_ Es].
  unfold put_db. apply wp_get. rewrite mem_set_ok by done. eapply wp_lift; [reflexivity |].
  unfold wp, st_mod. lazymatch goal with |- quiet _ ?x => set (s' := x) end. assert (obs s' = obs s) as Eo.
  { subst s'. unfold obs. cbn [dbc_mem dbc_data dbc_callback_lst dbc_usrflags dbc_fx].
    rewrite (map_insert_id _ _ _ _ _ Ev); [done |]. unfold forget_db. cbn [siglst fpath msglst md5].
    by rewrite (map_insert_id _ _ _ _ _ Es). }
  split; [| split; [exact Eo | done]]. by eapply dbc_ok_obs; [| | apply Ok].
Qed.

Lemma set_flags_quiet l : forall s, dbc_ok s -> Forall (fun p => 0 < p.1) l -> wp (set_flags l) (fun _ => quiet s) s.
Proof using.
  induction l as [|[id flags] l IH]; intros s Ok Hl; cbn [set_flags]; [by apply wp_ret |].
  apply Forall_cons_1 in Hl as [Hid Hl]. eapply wp_seq; [by apply set_signal_flag_quiet |].
  intros ? s1 Q1. eapply wp_mono; [by apply IH; [apply Q1 |] |]. intros ? s2 Q2. exact (quiet_trans _ _ _ Q1 Q2).
Qed.

Lemma call_cb_quiet f ev s : dbc_ok s -> event_ok ev ->
  wp (call_cb f ev) (fun ret s' => quiet s s' /\ match ev with DBC_EVENT_SURFIX _ sfx => ret <= len sfx | _ => True end) s.
Proof using.
  intros Ok He. unfold call_cb. apply wp_get.
  destruct (dbc_call_ok f ev (db_view s) (dbc_client s) He (ok_client _ Ok)) as (ret & flags & c & E & Hc & Hf & Hr).
  eapply wp_lift; [exact E |]. apply wp_mod. eapply wp_seq.
  - apply set_flags_quiet; [| done]. by eapply dbc_ok_obs; [exact Ok | |].
  - intros ? s1 Q. apply wp_ret. split; [| done]. destruct Q as (? & Eo & Et). split; [done |]. by rewrite Eo, Et.
Qed.

Lemma callbacks_quiet ev s : dbc_ok s -> event_ok ev -> wp (callbacks ev) (fun _ => quiet s) s.
Proof using.
  intros Ok He. unfold callbacks. apply wp_gets. revert s Ok.
  assert (forall fs s, dbc_ok s -> wp (call_all fs ev) (fun _ => quiet s) s) as H; [| auto].
  induction fs as [|f fs IH]; intros s Ok; cbn [call_all]; [by apply wp_ret |].
  eapply wp_seq; [by apply call_cb_quiet |]. intros ? s1 [Q1 _].
  eapply wp_mono; [by apply IH, Q1 |]. intros ? s2 Q2. exact (quiet_trans _ _ _ Q1 Q2).
Qed.

Lemma surfix_calls_quiet id sfx fs : forall ret lastret s, dbc_ok s -> event_ok (DBC_EVENT_SURFIX id sfx) ->
  ret <= len sfx ->
  wp (surfix_calls fs (DBC_EVENT_SURFIX id sfx) ret lastret) (fun r s' => quiet s s' /\ r.1 <= len sfx) s.
Proof using.
  induction fs as [|f fs IH]; intros ret lastret s Ok He Hr; cbn [surfix_calls]; [by apply wp_ret |].
  eapply wp_seq; [by apply call_cb_quiet |]. intros r s1 [Q1 Hr1]. cbn in Hr1.
  assert (forall r' l', r' <= len sfx ->
    wp (surfix_calls fs (DBC_EVENT_SURFIX id sfx) r' l') (fun r s' => quiet s s' /\ r.1 <= len sfx) s1) as Next.
  { intros. eapply wp_mono; [apply IH; [apply Q1 | done | done] |]. intros ? s2 [Q2 ?]. split; [exact (quiet_trans _ _ _ Q1 Q2) | done]. }
  destruct (0 <? lastret); [destruct (_ && _) |]; [by apply wp_ret | by apply Next | by apply Next].
Qed.

(** ** Suffixes *)

(** A signal whose suffix is being read; [mc] references are set. *)
Record half_ok (sig : dbc_sig_t) (mc : Z) : Prop := {
  ha_mc : 0 <= mc <= 4;
  ha_mi : len (sig_mi sig) = 4 /\ Forall (fun m => 0 <= m <= DBC_MAX_MATCHID) (sig_mi sig);
  ha_mv : len (sig_mv sig) = 4;
  ha_port : 0 <= sig_port sig < CAN_MAX_PORT;
  ha_suffix : len (sig_suffix sig) < DBC_SUFFIX_LEN
}.

Lemma tbl_set_ok n tbl m i : tbl_ok n tbl -> 0 <= m -> 0 <= i < n ->
  exists ret tbl', match_tbl_set tbl m i = Some (ret, tbl') /\ tbl_ok n tbl'.
Proof using.
  intros [Hl Ht] Hm Hi. unfold match_tbl_set. destruct (Z.eqb_spec m 0); [by eexists _, _ |].
  destruct (Z.ltb_spec DBC_MAX_MATCHID m); [by eexists _, _ |]. cbn [orb].
  destruct (mem_get_is_Some tbl (m - 1)) as [[e|] E]; [lia | rewrite E; by eexists _, _ |]. rewrite E. cbn [mbind option_bind].
  rewrite mem_set_ok by lia. eexists _, _. split; [reflexivity |]. split; [by rewrite len_insert |].
  by apply Forall_insert.
Qed.

Lemma advance_ok p n : n <= len p -> advance p n = Some (drop (Z.to_nat n) p).
Proof using. intros. unfold advance. destruct (Z.leb_spec n (len p)); [done | lia]. Qed.

Lemma to_index_ok p : In 73 p -> exists q, to_index p = Some (73 :: q) /\ 73 :: q `suffix_of` p.
Proof using.
  induction p as [|c p IH]; [done |]. cbn [to_index]. destruct (Z.eqb_spec c 73) as [-> |]; [by exists p |].
  intros [? | H]; [done |]. destruct (IH H) as (q & E & Hq). exists q. split; [done | by apply suffix_cons_r].
Qed.

Lemma skip_digits_suffix p : skip_digits p `suffix_of` p.
Proof using. induction p as [|c p IH]; cbn; [done |]. destruct (isdigit c); [by apply suffix_cons_r | done]. Qed.

(** A match suffix has its [I]. *)
Lemma match_has_index p v m : sscanf (c_chars "M%lfI%u") p = [SvDbl v; SvNum m] -> In 73 (drop 1 p).
Proof using.
  unfold sscanf. let c := eval vm_compute in (parse_fmt None (c_chars "M%lfI%u")) in
  change (parse_fmt None (c_chars "M%lfI%u")) with c.
  destruct p as [|c p]; cbn [scan]; [done |]. destruct (_ =? _); [| done]. cbn [scan_conv].
  destruct (scan_double p) as [[d r]|] eqn:E; [| done]. cbn [mbind option_bind].
  apply scan_double_suffix in E as [x ->]. destruct r as [|c' r]; [done |].
  destruct (Z.eqb_spec c' 73) as [-> |]; [| done]. intros _. cbn. apply in_app_iff. right. by left.
Qed.

Lemma port_has_digit v r : sscanf (c_chars "@%u") (64 :: r) = [SvNum v] -> 1 <= len r.
Proof using. destruct r; [done |]. intros _. rewrite len_cons. pose proof (len_nonneg r). lia. Qed.

Lemma suffix_lt (p q : list Z) c : q `suffix_of` drop 1 (c :: p) -> (length q < length (c :: p))%nat.
Proof using. intros H%suffix_length. rewrite length_drop in H. cbn [length] in *. lia. Qed.

Lemma drop_lt (p : list Z) n c : 0 < n <= len (c :: p) -> (length (drop (Z.to_nat n) (c :: p)) < length (c :: p))%nat.
Proof using. intros Hn. rewrite length_drop. cbn [length]. unfold len in Hn. cbn in Hn. lia. Qed.

Lemma drop_chars n (p : list Z) : Forall is_char p -> Forall is_char (drop n p).
Proof using. apply Forall_drop. Qed.

(** What a round of the loop does. *)
Definition step_post (i : Z) (p : list Z) (s : DBC) (r : dbc_sig_t * option (list Z * Z)) (s' : DBC) : Prop :=
  dbc_ok s' /\ obs s' = obs s /\ tbl_ok (i + 1) (dbc_match_tbl s') /\
  match r.2 with
  | Some (p', mc') => half_ok r.1 mc' /\ Forall is_char p' /\ (length p' < length p)%nat
  | None => True
  end.

Lemma set_mi_ok sig mc m v : half_ok sig mc -> mc < 4 -> 0 <= m ->
  exists sig', set_mi sig mc (Some m) v = Some sig' /\ (m <= DBC_MAX_MATCHID -> half_ok sig' (mc + 1)).
Proof using.
  intros [Hc [Hl Hm] Hv Hp Hs] Hlt Hm0. unfold set_mi. rewrite !mem_set_ok by lia. cbn [mbind option_bind].
  eexists. split; [reflexivity |]. intros Hle.
  split; cbn [sig_mi sig_mv sig_port sig_suffix]; rewrite ?len_insert; try done; [lia |]. split; [done |].
  by apply Forall_insert.
Qed.

Lemma suffix_step_ok i sig p mc s : dbc_ok s -> tbl_ok (i + 1) (dbc_match_tbl s) -> 0 <= i < DBC_MAX_SIGNAL ->
  half_ok sig mc -> Forall is_char p -> p <> [] -> wp (suffix_step i sig p mc) (step_post i p s) s.
Proof using.
  intros Ok Ht Hi Hh Hb Hp. pose proof (chars_bytes _ Hb). destruct p as [|c p]; [done |]. unfold suffix_step. pose proof (len_nonneg p).
  destruct (Z.eqb_spec c 64) as [-> |].
  { destruct (sscanf _ _) as [|[port| |] []] eqn:E; try by apply wp_ret. pose proof (port_has_digit _ _ E).
    scanned E. destruct (_ || _) eqn:Eo; [by apply wp_ret |]. apply orb_false_iff in Eo as [Eo1%Z.eqb_neq Eo2%Z.ltb_ge].
    eapply wp_lift; [apply advance_ok; rewrite len_cons; lia |]. apply wp_ret. split; [done |]. split; [done |]. split; [done |].
    split; [| split; [by apply drop_chars | apply drop_lt; rewrite len_cons; lia]].
    destruct Hh. split; cbn; try done. unfold is_u32 in *. lia. }
  destruct (Z.eqb_spec c 66) as [-> |].
  { eapply wp_lift; [apply advance_ok; rewrite len_cons; lia |]. apply wp_ret. split; [done |]. split; [done |]. split; [done |].
    split; [by destruct Hh | split; [by apply drop_chars | apply drop_lt; rewrite len_cons; lia]]. }
  destruct (Z.eqb_spec c 77) as [-> |].
  { destruct (Z.leb_spec 4 mc) as [| Hmc]; [by apply wp_ret |]. pose proof (ha_mc _ _ Hh).
    destruct (sscanf _ _) as [|[|v|] [|[m| |] []]] eqn:E; try by apply wp_ret.
    - unfold set_mi. rewrite mem_set_ok by (rewrite (ha_mv _ _ Hh); lia). eapply wp_lift; [reflexivity |]. by apply wp_ret.
    - pose proof (match_has_index _ _ _ E) as (q & Eq & Hq)%to_index_ok. scanned E.
      destruct (set_mi_ok sig mc m v Hh Hmc) as (sig' & E' & Hs); [unfold is_u32 in *; lia |].
      eapply wp_lift; [exact E' |]. destruct (_ || _) eqn:Eo; [by apply wp_ret |].
      apply orb_false_iff in Eo as [Eo1%Z.eqb_neq Eo2%Z.ltb_ge].
      eapply wp_lift; [exact Eq |]. apply wp_ret. split; [done |]. split; [done |]. split; [done |]. cbn [fst snd].
      assert (skip_digits (drop 1 (73 :: q)) `suffix_of` drop 1 (77 :: p)) as Hsf.
      { etransitivity; [apply skip_digits_suffix |]. etransitivity; [| exact Hq]. cbn. by apply suffix_cons_r. }
      split; [by apply Hs | split; [| by apply suffix_lt]]. eapply suffix_Forall; [exact Hsf | by apply drop_chars]. }
  destruct (Z.eqb_spec c 73) as [-> |].
  { destruct (sscanf _ _) as [|[m| |] []] eqn:E; try by apply wp_ret. scanned E.
    unfold dbc_match_tbl_set. apply wp_bind, wp_get.
    destruct (tbl_set_ok _ _ m i Ht) as (ret & tbl & Et & Ht'); [unfold is_u32 in *; lia | lia |].
    eapply wp_lift; [exact Et |]. apply wp_mod, wp_ret. cbv beta.
    assert (dbc_ok {| s with dbc_match_tbl := tbl |}) as Ok' by (by eapply dbc_ok_obs; [| | apply Ok]).
    destruct (negb _); apply wp_ret; (split; [done |]; split; [done |]; split; [done |]); [done |]. cbn [fst snd].
    split; [by destruct Hh |]. pose proof (skip_digits_suffix (drop 1 (73 :: p))) as Hsf.
    split; [| by apply suffix_lt]. eapply suffix_Forall; [exact Hsf | by apply drop_chars]. }
  apply wp_gets. eapply wp_seq; [apply surfix_calls_quiet; [done | split; [lia | done] | rewrite len_cons; lia] |].
  intros [ret lastret] s1 [(Ok1 & Eo & Et) Hr]. cbn [fst] in Hr. rewrite len_cons in Hr. destruct (_ && _).
  { apply wp_ret. split; [done |]. split; [done |]. by rewrite Et. }
  assert (0 < (if 0 <? ret then ret else 1) <= len (c :: p)) as Hn by (rewrite len_cons; case_bool; lia).
  eapply wp_lift; [apply advance_ok, Hn |]. apply wp_ret. split; [done |]. split; [done |]. rewrite Et. split; [done |].
  split; [done | split; [by apply drop_chars | by apply drop_lt]].
Qed.

Lemma suffix_loop_ok fuel i : 0 <= i < DBC_MAX_SIGNAL -> forall sig p mc s, dbc_ok s -> tbl_ok (i + 1) (dbc_match_tbl s) ->
  half_ok sig mc -> Forall is_char p -> (length p <= fuel)%nat ->
  wp (suffix_loop fuel i sig p mc) (fun r s' => dbc_ok s' /\ obs s' = obs s /\ tbl_ok (i + 1) (dbc_match_tbl s') /\
    (r.2 = 0 -> exists mc, half_ok r.1 mc)) s.
Proof using.
  intros Hi. induction fuel as [|fuel IH]; intros sig p mc s Ok Ht Hh Hb Hf.
  - destruct p; [| cbn in Hf; lia]. apply wp_ret. split; [done |]. split; [done |]. split; [done |]. by exists mc.
  - destruct p as [|c p]; cbn [suffix_loop].
    { apply wp_ret. split; [done |]. split; [done |]. split; [done |]. by exists mc. }
    eapply wp_seq; [by apply suffix_step_ok |]. intros [sig' [[p' mc']|]] s1 (Ok1 & Eo & Ht1 & Hn); cbn [fst snd] in *.
    + destruct Hn as (Hh' & Hb' & Hl). eapply wp_mono; [apply IH; try done; cbn in Hl, Hf; lia |].
      intros r s2 (? & E2 & ?). split; [done |]. by rewrite E2.
    + apply wp_ret. split; [done |]. split; [done |]. split; [done |]. cbn. intros ->. inversion_clear Hb as [|? ? Hc]. unfold is_char in Hc. lia.
Qed.

(** ** Signals *)

Lemma strrchr_split l c : forall a b, strrchr l c = Some (a, b) -> l = a ++ c :: b.
Proof using.
  induction l as [|x l IH]; intros a b; cbn [strrchr]; [done |]. destruct (strrchr l c) as [[a' b']|].
  - intros [= <- <-]. by rewrite (IH _ _ eq_refl).
  - destruct (Z.eqb_spec x c) as [-> |]; [by intros [= <- <-] | done].
Qed.

Lemma sig_suffix_parts (P : Z -> Prop) name name' sfx : dbc_get_sig_suffix name = (name', sfx) -> Forall P name ->
  len name' <= len name /\ match sfx with Some x => Forall P x | None => True end.
Proof using.
  unfold dbc_get_sig_suffix. intros E H. destruct (strrchr name 95) as [[[|x a] b]|] eqn:Es; injection E as <- <-; [done | | done].
  apply strrchr_split in Es as ->. apply Forall_app in H as [_ H]. apply Forall_cons_1 in H as [_ H].
  split; [| done]. rewrite len_app, !len_cons. pose proof (len_nonneg b). lia.
Qed.

Lemma close_unit_ok unit : unit <> [] -> len unit <= 62 -> exists u, close_unit unit = Some u /\ len u < DBC_SIGUNIT_LEN.
Proof using.
  intros Hne Hl. unfold close_unit, DBC_SIGUNIT_LEN.
  assert (1 <= len unit) by (destruct unit; [done | rewrite len_cons; pose proof (len_nonneg unit); lia]).
  destruct (mem_get_is_Some unit (len unit - 1)) as [c ->]; [lia |]. cbn [mbind option_bind].
  destruct (c =? 34); [exists unit; split; [done | lia] |]. destruct (Z.leb_spec (len unit + 2) 64); [| lia].
  eexists. split; [reflexivity |]. rewrite len_app. change (len [34]) with 1. lia.
Qed.

Lemma new_sig_ok dbc r dbc' : dbc_new_sig dbc = (r, dbc') ->
  match r with
  | None => True
  | Some i => i = len (siglst dbc) /\ i < DBC_MAX_SIGNAL /\ siglst dbc' = siglst dbc ++ [dbc_sig_zero] /\ msglst dbc' = msglst dbc
  end.
Proof using. unfold dbc_new_sig. destruct (Z.ltb_spec (len (siglst dbc)) DBC_MAX_SIGNAL); by intros [= <- <-]. Qed.

(** A signal and its link. *)
Lemma add_sig_ok k dbc msg m sig : db_ok k dbc -> mem_get (msglst dbc) msg = Some m -> sig_ok k sig ->
  len (siglst dbc) < DBC_MAX_SIGNAL -> ~ In (sig_name sig) (map sig_name (siglst dbc)) ->
  forall p h, db_ok k {| fpath := p; md5 := h; siglst := siglst dbc ++ [sig];
    msglst := <[Z.to_nat msg := {| m with msg_siglst := msg_siglst m ++ [len (siglst dbc)] |}]> (msglst dbc) |}.
Proof using.
  intros D [Hm Em]%mem_get_Some Hs Hlt Hn p h. destruct D. split; cbn [siglst msglst].
  - by rewrite len_insert.
  - rewrite len_app. change (len [sig]) with 1. lia.
  - apply Forall_app. split; [done | by constructor].
  - apply Forall_insert; [done |]. cbn. exact (Forall_lookup_1 _ _ _ _ do_ecu0 Em).
  - rewrite map_insert. cbn [msg_siglst]. rewrite concat_snoc by (by rewrite list_lookup_fmap, Em).
    rewrite len_app. change (len [sig]) with 1. rewrite seqZ_snoc by apply len_nonneg.
    rewrite <- Permutation_cons_append. by constructor.
  - rewrite map_app. by apply NoDup_snoc.
  - by rewrite (map_insert_id _ _ _ _ _ Em).
Qed.

Definition zero_half : half_ok dbc_sig_zero 0.
Proof using. split; cbn; try done. split; [done |]. repeat constructor; done. Qed.

Lemma parse_suffix_ok i sfx s : 0 <= i < DBC_MAX_SIGNAL -> dbc_ok s -> tbl_ok (i + 1) (dbc_match_tbl s) ->
  match sfx with Some x => Forall is_char x | None => True end ->
  wp (dbc_parse_sig_suffix i dbc_sig_zero sfx) (fun r s' => dbc_ok s' /\ obs s' = obs s /\ tbl_ok (i + 1) (dbc_match_tbl s') /\
    (r.2 = 0 -> exists mc, half_ok r.1 mc)) s.
Proof using.
  intros Hi Ok Ht Hx. destruct sfx as [sfx|]; cbn [dbc_parse_sig_suffix].
  - apply suffix_loop_ok; try done. destruct zero_half. split; try done. cbn [sig_suffix]. unfold strncpy0, DBC_SUFFIX_LEN.
    rewrite len_take. lia.
  - apply wp_ret. split; [done |]. split; [done |]. split; [done |]. exists 0. apply zero_half.
Qed.

Lemma tbl_ok_mono n n' tbl : n <= n' -> tbl_ok n tbl -> tbl_ok n' tbl.
Proof using. intros Hn [Hl Ht]. split; [done |]. revert Ht. apply Forall_impl. intros [i|]; [lia | done]. Qed.

(** A line that fails may leave anything: the load ends. *)
Definition parsed_ok (s : DBC) (r : option Z * dbc_data_t) (s' : DBC) : Prop :=
  dbc_ok s' /\ obs s' = obs s /\
  (is_Some r.1 -> db_ok DBC_MAX_MATCHID r.2 /\ tbl_ok (len (siglst r.2)) (dbc_match_tbl s')).

Lemma parsed_none s db : dbc_ok s -> parsed_ok s (None, db) s.
Proof using. intros. split; [done |]. split; [done |]. by intros []. Qed.

Lemma sig_line_Some vs l : sig_line vs = Some l ->
  vs = [SvStr (sl_name l); SvNum (sl_start l); SvNum (sl_size l); SvNum (sl_order l); SvNum (sl_sign l); SvDbl (sl_factor l);
        SvDbl (sl_offset l); SvDbl (sl_min l); SvDbl (sl_max l); SvStr (sl_unit l)].
Proof using. unfold sig_line. intros E. repeat case_match; try discriminate E. by injection E as <-. Qed.

Lemma sig_line_typed line l : Forall is_byte line ->
  Forall (fun v => match v with SvStr s => Forall is_char s | _ => True end) (sscanf fmt_getsig line) ->
  sig_line (sscanf fmt_getsig line) = Some l ->
  Forall is_char (sl_name l) /\ len (sl_name l) <= 63 /\ sl_unit l <> [] /\ len (sl_unit l) <= 62.
Proof using.
  intros Hb Hs E%sig_line_Some. rewrite E in Hs. scanned E. apply Forall_cons_1 in Hs as [Hs _].
  repeat split; try done; tauto.
Qed.

Lemma parse_sig_ok dbc msg line s : dbc_ok s -> db_ok DBC_MAX_MATCHID dbc -> tbl_ok (len (siglst dbc)) (dbc_match_tbl s) ->
  0 <= msg < len (msglst dbc) -> Forall is_char line ->
  wp (dbc_parse_sig dbc msg line)
    (fun r s' => parsed_ok s r s' /\ (is_Some r.1 -> len (msglst r.2) = len (msglst dbc))) s.
Proof using.
  intros Ok D Ht Hmsg Hl. pose proof (chars_bytes _ Hl) as Hb. unfold dbc_parse_sig.
  assert (forall s1 db, dbc_ok s1 -> obs s1 = obs s ->
    parsed_ok s (None, db) s1 /\ (is_Some (None : option Z) -> len (msglst db) = len (msglst dbc))) as Refuse.
  { intros. split; [split; [done |]; split; [done |] |]; by intros []. }
  pose proof (sscanf_strs is_char fmt_getsig line Hl) as Hstr.
  destruct (sig_line (sscanf fmt_getsig line)) as [l|] eqn:E; [| by apply wp_ret, Refuse].
  destruct (sig_line_typed line l Hb Hstr E) as (Hname & Hnl & Hu1 & Hu2).
  destruct (dbc_sig_overflow (sl_order l) (sl_start l) (sl_size l)) eqn:Eo; [by apply wp_ret, Refuse |].
  destruct (dbc_get_sig_suffix (sl_name l)) as [name' sfx] eqn:Es. apply (sig_suffix_parts is_char) in Es as [Hln Hsfx]; [| done].
  destruct (dbc_find_sig dbc name') eqn:Ef; [by apply wp_ret, Refuse |]. apply dbc_find_sig_None in Ef.
  destruct (dbc_new_sig dbc) as [[i|] dbc1] eqn:En; [| by apply wp_ret, Refuse].
  apply new_sig_ok in En as (-> & Hlt & Esl & Eml). pose proof (len_nonneg (siglst dbc)).
  eapply wp_seq; [apply parse_suffix_ok; [lia | done | eapply tbl_ok_mono, Ht; lia | done] |].
  intros [sig ret] s1 (Ok1 & Eobs & Ht1 & Hh). cbn [fst snd] in Hh. destruct (Z.eqb_spec ret 0) as [-> |]; cbn [negb].
  2: { unfold put_sig. rewrite Esl, mem_set_snoc. eapply wp_lift; [reflexivity |]. by apply wp_ret, Refuse. }
  destruct (Hh eq_refl) as [mc Hh']. destruct (close_unit_ok (sl_unit l)) as (u & Eu & Hu); [done | done |].
  eapply wp_lift; [exact Eu |]. rewrite Eml. destruct (mem_get_is_Some (msglst dbc) msg Hmsg) as [m Em].
  eapply wp_lift; [exact Em |]. unfold put_sig. rewrite Esl, mem_set_snoc. eapply wp_lift; [reflexivity |].
  unfold put_msg. cbn [msglst]. rewrite Eml, mem_set_ok by done. eapply wp_lift; [reflexivity |]. apply wp_ret.
  split; [| intros _; cbn; by rewrite len_insert]. split; [done |]. split; [done |]. intros _. cbn [fst snd siglst]. split.
  - pose proof Eo as Hr. apply (add_sig_ok _ dbc); try done. destruct Hh'.
    apply mem_get_Some in Em as [_ Em]. pose proof (Forall_lookup_1 _ _ _ _ (do_ecu _ _ D) Em) as He.
    assert (u8 (sl_start l) = sl_start l /\ u8 (sl_size l) = sl_size l) as [-> ->].
    { unfold dbc_sig_overflow in Hr. destruct (_ || _) eqn:R in Hr; [done |].
      repeat (apply orb_false_iff in R as [R ?]). split; apply u8_small; unfold is_byte; lia. }
    split; cbn; try done; [split; [apply ha_mi0 | apply refs_range, ha_mi0] |]. unfold DBC_SIGNAME_LEN. lia.
  - rewrite len_app. change (len [_]) with 1. exact Ht1.
Qed.

(** ** Definitions *)

Lemma set_init_ok k dbc i sig v : db_ok k dbc -> mem_get (siglst dbc) i = Some sig ->
  exists dbc', put_sig dbc i {| sig with sig_init := v |} = Some dbc' /\ db_ok k dbc' /\
    len (siglst dbc') = len (siglst dbc) /\ msglst dbc' = msglst dbc.
Proof using.
  intros D [Hi Em]%mem_get_Some. unfold put_sig. rewrite mem_set_ok by done. cbn [mbind option_bind].
  eexists. split; [reflexivity |]. cbn [siglst msglst]. rewrite len_insert. split; [| done].
  pose proof (Forall_lookup_1 _ _ _ _ (do_sig _ _ D) Em) as Hs. destruct D. split; cbn [siglst msglst]; try done.
  - by rewrite len_insert.
  - apply Forall_insert; [done |]. by destruct Hs; split.
  - by rewrite len_insert.
  - by rewrite (map_insert_id _ _ _ _ _ Em).
Qed.

Lemma old_baud_range name line v : Forall is_byte line ->
  In name [c_chars "HSBaudrate"; c_chars "MSBaudrate"; c_chars "LSBaudrate"] ->
  old_baud name line = Some v -> exists b, mem_get baudlst v = Some b.
Proof using.
  intros Hb Hn. unfold old_baud. destruct (ba_ushort name line) as [tmp|] eqn:E; [| done]. cbn [mbind option_bind].
  destruct (Z.ltb_spec tmp 6); [| done]. intros [= <-]. apply mem_get_is_Some. change (len baudlst) with 6.
  enough (is_u16 tmp) by (unfold is_u16 in *; lia). unfold ba_ushort in E.
  repeat destruct Hn as [<- | Hn]; [.. | done];
    (destruct (sscanf _ line) as [|[z| |] []] eqn:Es; try discriminate E; injection E as ->; by scanned Es).
Qed.

Lemma port_baud_range line port tmp : port_baud line = Some (port, tmp) -> 0 <= port - 1 < CAN_MAX_PORT.
Proof using.
  unfold port_baud. destruct (sscanf _ line) as [|[z| |] [|[z'| |] []]]; try done.
  destruct (_ && _) eqn:E; [| done]. intros [= <- <-]. lia.
Qed.

Lemma parse_def_ok k dbc line baud s : dbc_ok s -> db_ok k dbc -> len baud = CAN_MAX_PORT -> Forall is_char line ->
  wp (dbc_parse_def dbc line baud) (fun r s' => quiet s s' /\ db_ok k r.1 /\ len r.2 = CAN_MAX_PORT /\
    len (siglst r.1) = len (siglst dbc) /\ msglst r.1 = msglst dbc) s.
Proof using.
  intros Ok D Hl Hc. pose proof (chars_bytes _ Hc) as Hb. unfold dbc_parse_def. cbv zeta.
  assert (quiet s s) as Q by done.
  assert (forall port v, 0 <= port < CAN_MAX_PORT -> wp (baud ← st_lift (mem_set baud port v); mret (dbc, baud))
    (fun r s' => quiet s s' /\ db_ok k r.1 /\ len r.2 = CAN_MAX_PORT /\
      len (siglst r.1) = len (siglst dbc) /\ msglst r.1 = msglst dbc) s) as Set_.
  { intros port v Hp. rewrite mem_set_ok by lia. eapply wp_lift; [reflexivity |]. apply wp_ret. cbn [fst snd].
    by rewrite len_insert. }
  destruct (old_baud (c_chars "HSBaudrate") line) as [v|] eqn:E1.
  { apply old_baud_range in E1 as [b E1]; [| done | by left]. eapply wp_lift; [exact E1 |]. by apply Set_. }
  destruct (old_baud (c_chars "MSBaudrate") line) as [v|] eqn:E2.
  { apply old_baud_range in E2 as [b E2]; [| done | by right; left]. eapply wp_lift; [exact E2 |]. by apply Set_. }
  destruct (old_baud (c_chars "LSBaudrate") line) as [v|] eqn:E3.
  { apply old_baud_range in E3 as [b E3]; [| done | by right; right; left]. eapply wp_lift; [exact E3 |]. by apply Set_. }
  destruct (port_baud line) as [[port tmp]|] eqn:E4; [by apply port_baud_range in E4; apply Set_ |].
  assert (wp (callbacks (DBC_EVENT_DEFINE line);; mret (dbc, baud))
    (fun r s' => quiet s s' /\ db_ok k r.1 /\ len r.2 = CAN_MAX_PORT /\
      len (siglst r.1) = len (siglst dbc) /\ msglst r.1 = msglst dbc) s) as Define.
  { eapply wp_seq; [by apply callbacks_quiet |]. intros ? s1 Q1. by apply wp_ret. }
  destruct (sscanf fmt_getdef line) as [|[| |name] [|[|v|] []]]; try exact Define.
  destruct (dbc_find_sig dbc name) as [i|] eqn:Ef; [| by apply wp_ret].
  apply dbc_find_sig_Some in Ef as (sig & Es & _). eapply wp_lift; [exact Es |].
  destruct (set_init_ok k dbc i sig v D Es) as (dbc' & E' & D' & El & Em). eapply wp_lift; [exact E' |]. by apply wp_ret.
Qed.

(** ** Lines *)

(** What has been read is [pre]. *)
Record load_ok (pre : list Z) (s : DBC) (ld : LOAD) : Prop := {
  lo_state : dbc_ok s;
  lo_db : db_ok DBC_MAX_MATCHID (ld_dbc ld);
  lo_msg : match ld_msg ld with Some i => 0 <= i < len (msglst (ld_dbc ld)) | None => True end;
  lo_md5 : rep (ld_md5 ld) pre;
  lo_pre : Forall is_byte pre;
  lo_baud : len (ld_baud ld) = CAN_MAX_PORT;
  lo_tbl : tbl_ok (len (siglst (ld_dbc ld))) (dbc_match_tbl s)
}.

Lemma load_line_ok pre line ld s : load_ok pre s ld -> Forall is_char line -> len line < 2 ^ 32 ->
  wp (load_line line ld) (fun r s' => dbc_ok s' /\ obs s' = obs s /\ len (ld_baud r.1) = CAN_MAX_PORT /\
    (r.2 = true -> load_ok (pre ++ line) s' r.1)) s.
Proof using.
  intros L Hc Hlen. pose proof (chars_bytes _ Hc) as Hb. unfold load_line. destruct L as [Ok D Hm R Hp Hbd Ht].
  destruct (update_run (ld_md5 ld) pre line (len line) R Hp Hb) as (ctx & Ec & R'); [pose proof (len_nonneg line); lia | done |].
  unfold len in R' at 1. rewrite Nat2Z.id, firstn_all in R'. eapply wp_lift; [exact Ec |]. cbv zeta.
  assert (Forall is_byte (pre ++ line)) as Hp' by (by apply Forall_app).
  set (ld1 := {| ld_dbc := ld_dbc ld; ld_msg := ld_msg ld; ld_num := ld_num ld + 1; ld_md5 := ctx; ld_baud := ld_baud ld |}).
  assert (load_ok (pre ++ line) s ld1) as L1 by (by split).
  assert (wp (mret (ld1, true) : M _) (fun r s' => dbc_ok s' /\ obs s' = obs s /\ len (ld_baud r.1) = CAN_MAX_PORT /\
    (r.2 = true -> load_ok (pre ++ line) s' r.1)) s) as Go by (by apply wp_ret).
  destruct (_ && _); [by apply wp_ret |].
  destruct (sscanf fmt_getkwd line) as [|[| |kw] []]; try exact Go.
  destruct (str_eqb kw _).
  { destruct (parse_msg_ok _ (ld_dbc ld1) line D Hb) as (r & db' & E & Es & Hr). eapply wp_lift; [exact E |]. apply wp_ret.
    cbn [fst snd ld_baud]. split; [done |]. split; [done |]. split; [done |].
    intros [i ->]%bool_decide_eq_true. destruct Hr as [D' Hi]. split; cbn; try done. by rewrite Es. }
  destruct (str_eqb kw _).
  { change (ld_msg ld1) with (ld_msg ld). destruct (ld_msg ld) as [msg|]; [| by apply wp_ret].
    eapply wp_seq; [by apply parse_sig_ok |]. intros [sig db'] s1 [(Ok1 & Eo & Hr) Hml]. apply wp_ret. cbn [fst snd ld_baud] in *.
    split; [done |]. split; [done |]. split; [done |]. intros Hsome%bool_decide_eq_true. destruct (Hr Hsome) as [D' Ht'].
    split; cbn; try done. by rewrite (Hml Hsome). }
  destruct (str_eqb kw _); [| exact Go].
  eapply wp_seq; [by apply (parse_def_ok DBC_MAX_MATCHID) |]. intros [db' baud] s1 ((Ok1 & Eo & Et) & D' & Hl & Esl & Eml). apply wp_ret.
  cbn [fst snd] in *. split; [done |]. split; [done |]. split; [done |]. intros _. split; cbn; try done; [by rewrite Eml |].
  by rewrite Et, Esl.
Qed.

(** *** Lines of a file *)

Lemma fgets_split n : forall l a b, fgets n l = (a, b) -> l = a ++ b /\ len a <= Z.of_nat n.
Proof using.
  induction n as [|n IH]; intros l a b; [by intros [= <- <-] |]. cbn [fgets]. destruct n as [|n]; [by intros [= <- <-] |].
  destruct l as [|c l]; [by intros [= <- <-] |]. destruct (c =? 10).
  - intros [= <- <-]. split; [done |]. change (len [c]) with 1. lia.
  - destruct (fgets (S n) l) as [a' b'] eqn:E. intros [= <- <-]. apply IH in E as [-> Hl]. split; [done |]. rewrite len_cons. lia.
Qed.

Lemma c_str_chars l : Forall is_byte l -> Forall is_char (c_str l).
Proof using.
  induction 1 as [|c l Hc Hl IH]; cbn; [constructor |]. destruct (Z.eqb_spec c 0); constructor; [| done].
  unfold is_byte, is_char in *. lia.
Qed.

Lemma c_str_len l : len (c_str l) <= len l.
Proof using. induction l as [|c l IH]; cbn; [done |]. destruct (c =? 0); rewrite ?len_cons; [rewrite len_nil; pose proof (len_nonneg l) |]; lia. Qed.

(** The characters that the digest covers: of every line, those before a zero. *)
Fixpoint lines_text (fuel : nat) (file : list Z) : list Z :=
  match fgets (Z.to_nat (DBC_MAX_LINESZ - 1)) file, fuel with
  | ([], _), _ | (_, _), O => []
  | (a, b), S fuel => c_str a ++ lines_text fuel b
  end.

Definition bufsize : nat := Z.to_nat (DBC_MAX_LINESZ - 1).

Lemma load_lines_ok fuel : forall file pre ld s, (length file <= fuel)%nat -> load_ok pre s ld -> Forall is_byte file ->
  wp (load_lines fuel file ld) (fun r s' => dbc_ok s' /\ obs s' = obs s /\ len (ld_baud r.1) = CAN_MAX_PORT /\
    (r.2 = true -> load_ok (pre ++ lines_text fuel file) s' r.1)) s.
Proof using.
  induction fuel as [|fuel IH]; intros file pre ld s Hf L Hb; cbn [load_lines lines_text]; fold bufsize;
    destruct (fgets bufsize file) as [line rest] eqn:E; pose proof (fgets_split _ _ _ _ E) as [Es Hlen].
  - destruct file; [| cbn in Hf; lia]. symmetry in Es. apply app_nil in Es as [-> ->]. apply wp_ret. rewrite app_nil_r.
    by destruct L.
  - destruct line as [|c line]; [apply wp_ret; rewrite app_nil_r; by destruct L |].
    rewrite Es in Hb. apply Forall_app in Hb as [Hb1 Hb2].
    eapply wp_seq; [apply load_line_ok; [exact L | by apply c_str_chars |] |].
    { pose proof (c_str_len (c :: line)). unfold bufsize, DBC_MAX_LINESZ in *. lia. }
    intros [ld1 []] s1 (Ok1 & Eo & Hbd & L1); cbn [fst snd] in *; [| by apply wp_ret].
    eapply wp_mono; [apply IH; [| by apply L1 | done] |].
    + rewrite Es in Hf. rewrite length_app in Hf. cbn in Hf. lia.
    + intros r s2 (? & E2 & ? & H). split; [done |]. split; [by rewrite E2 |]. split; [done |]. intros Hr. rewrite app_assoc. by apply H.
Qed.

(** ** The end of the load *)

Lemma adj_mi_ok n tbl mi : tbl_ok n tbl -> Forall (fun m => 0 < m <= DBC_MAX_MATCHID) (refs mi) ->
  exists ret mi', adj_mi tbl mi = Some (ret, mi') /\ len mi' = len mi /\
    (ret = 0 -> Forall (fun m => 0 < m <= n) (refs mi')).
Proof using.
  intros [Hl Ht]. induction mi as [|m mi IH]; cbn [adj_mi refs]; [intros _; eexists _, _; split; [done |]; split; [done | constructor] |].
  destruct (Z.eqb_spec m 0) as [-> | N].
  { intros _. eexists _, _. split; [done |]. split; [done |]. intros _. cbn. constructor. }
  intros [Hm Hr]%Forall_cons_1. destruct (mem_get_is_Some tbl (m - 1)) as [e E]; [lia |]. rewrite E. cbn [mbind option_bind].
  destruct e as [i|]; [| by eexists _, _].
  destruct (IH Hr) as (ret & mi' & -> & El & Hn). cbn [mbind option_bind]. eexists _, _. split; [done |].
  rewrite !len_cons, El. split; [done |]. intros Hret. cbn [refs].
  apply mem_get_Some in E as [_ E]. pose proof (Forall_lookup_1 _ _ _ _ Ht E) as Hi. cbn in Hi.
  destruct (Z.eqb_spec (i + 1) 0); [constructor |]. constructor; [lia | by apply Hn].
Qed.

Lemma match_tbl_adj_ok n tbl sigs : tbl_ok n tbl -> Forall (sig_ok DBC_MAX_MATCHID) sigs ->
  exists ret sigs', dbc_match_tbl_adj tbl sigs = Some (ret, sigs') /\
    (ret = 0 -> Forall (sig_ok n) sigs' /\ map sig_name sigs' = map sig_name sigs /\ len sigs' = len sigs).
Proof using.
  intros Ht. induction 1 as [|sig sigs Hs Hss IH]; cbn [dbc_match_tbl_adj]; [by eexists _, _ |].
  destruct (adj_mi_ok n tbl (sig_mi sig) Ht (proj2 (so_mi _ _ Hs))) as (ret & mi & -> & El & Hr). cbn [mbind option_bind].
  destruct (Z.eqb_spec ret 0) as [-> | N]; [| by eexists _, _].
  destruct IH as (ret & sigs' & -> & H). cbn [mbind option_bind]. eexists _, _. split; [done |]. intros [Hf [Hn Hl]]%H.
  cbn [map]. rewrite !len_cons, Hn, Hl. split; [| done]. constructor; [| done].
  destruct Hs. split; cbn; try done. rewrite El. split; [tauto | by apply Hr].
Qed.

(** What stays when files are written. *)
Definition shown (s : DBC) : list dbc_data_t * option Z * list CB * Z :=
  (map forget_db (dbc_mem s), dbc_data s, dbc_callback_lst s, dbc_usrflags s).

Definition kept (s s' : DBC) : Prop := dbc_ok s' /\ shown s' = shown s.

Lemma kept_trans s s1 s2 : kept s s1 -> kept s1 s2 -> kept s s2.
Proof using. intros [? ?] [? ?]. split; [done | congruence]. Qed.

Lemma obs_shown s s' : obs s' = obs s -> shown s' = shown s.
Proof using. unfold obs, shown. intros [= -> -> -> -> _]. done. Qed.

Lemma quiet_kept s s' : quiet s s' -> kept s s'.
Proof using. intros (? & ? & _). split; [done | by apply obs_shown]. Qed.

Lemma log_fx_kept op s : dbc_ok s -> wp (log_fx op) (fun _ => kept s) s.
Proof using. intros Ok. split; [| done]. by destruct Ok. Qed.

Lemma cur_dir_ok path : len path <= 230 -> exists p, cur_dir_path path = Some p.
Proof using.
  intros Hl. unfold cur_dir_path. cbv zeta. rewrite !len_app. change (len COM_APP_CUR_DBC_DIR) with 24. change (len [47]) with 1.
  destruct (strrchr path 47) as [[a b]|] eqn:E.
  - apply strrchr_split in E as ->. rewrite len_app, len_cons in Hl. pose proof (len_nonneg a).
    destruct (Z.ltb_spec (24 + (1 + len b)) 256); [by eexists | lia].
  - destruct (Z.ltb_spec (24 + (1 + len path)) 256); [by eexists | lia].
Qed.

Lemma open_file_ok env path s : dbc_ok s -> len path <= 230 ->
  wp (dbc_open_file env path) (fun r s' => kept s s' /\ match r.1 with Some f => exists p, e_fopen env p = Some f | None => True end) s.
Proof using.
  intros Ok Hl. unfold dbc_open_file. assert (kept s s) as K by done.
  destruct (e_fopen env path) as [f|] eqn:E; [apply wp_ret; split; [done | by exists path] |].
  destruct (in_cur_dir path); [by apply wp_ret |]. destruct (cur_dir_ok path Hl) as [p Ep].
  eapply wp_lift; [exact Ep |]. destruct (negb _); [by apply wp_ret |].
  destruct (e_fopen env p) as [f|] eqn:E2; [| by apply wp_ret].
  eapply wp_seq; [by apply log_fx_kept |]. intros ? s1 K1. eapply wp_seq; [apply log_fx_kept, K1 |]. intros ? s2 K2.
  apply wp_ret. split; [exact (kept_trans _ _ _ K1 K2) | by exists p].
Qed.

Lemma backup_file_ok env path s : dbc_ok s -> len path <= 230 -> wp (dbc_backup_file env path) (fun _ => kept s) s.
Proof using.
  intros Ok Hl. unfold dbc_backup_file. assert (kept s s) as K by done.
  destruct (in_cur_dir path); [by apply wp_ret |]. destruct (cur_dir_ok path Hl) as [p Ep].
  eapply wp_lift; [exact Ep |]. destruct (negb (e_file_exists _ _)).
  - eapply wp_seq; [by apply log_fx_kept |]. intros ? s1 K1. eapply wp_mono; [apply log_fx_kept, K1 |].
    intros ? s2 K2. exact (kept_trans _ _ _ K1 K2).
  - destruct (negb _); [by apply log_fx_kept | by apply wp_ret].
Qed.

(** A database that was just loaded. *)
Record fresh (path text : list Z) (db : dbc_data_t) : Prop := {
  fr_ok : loaded_ok db;
  fr_init : Forall (fun s => sig_value s = sig_init s /\ sig_lastv s = sig_init s) (siglst db);
  fr_md5 : md5 db = Md5.md5 text;
  fr_path : fpath db = take 255 path
}.

Lemma reset_ok k db : db_ok k db -> db_ok k (dbc_reset_signal db).
Proof using.
  intros D. assert (map sig_name (map reset_sig (siglst db)) = map sig_name (siglst db)) as En.
  { rewrite map_map. by apply map_ext. }
  assert (len (map reset_sig (siglst db)) = len (siglst db)) as El by (unfold len; by rewrite length_map).
  destruct D. split; cbn [dbc_reset_signal siglst msglst]; rewrite ?En, ?El; try done.
  apply Forall_map. eapply Forall_impl; [| exact do_sig0]. intros sig []. by split.
Qed.

Lemma load_finish_ok env path backup text ld s : load_ok text s ld -> len path <= 230 ->
  wp (load_finish env path backup ld) (fun r s' => kept s s' /\ (r.1 = 0 /\ fresh path text r.2 \/ r.1 = -1)) s.
Proof using.
  intros [Ok D _ R Hp _ Ht] Hl. unfold load_finish. cbv zeta. assert (kept s s) as K by done.
  destruct (negb (e_feof env)); [apply wp_ret; split; [done | by right] |]. apply wp_gets.
  destruct (match_tbl_adj_ok _ _ _ Ht (do_sig _ _ D)) as (ret & sigs & E & H). eapply wp_lift; [exact E |]. cbv beta iota zeta.
  destruct (Z.eqb_spec ret 0) as [Hz | N]; cbn [negb]; [| apply wp_ret; split; [done | by right]].
  destruct (H Hz) as (Hs & Hn & Hln). destruct (negb _); [apply wp_ret; split; [done | by right] |].
  eapply (wp_seq _ _ (fun _ => kept s)).
  { destruct (negb backup); [by apply backup_file_ok | by apply wp_ret]. }
  intros ? s1 K1. destruct (final_run (ld_md5 ld) text R Hp) as (ctx & Ec & Ed). eapply wp_lift; [exact Ec |]. apply wp_ret.
  split; [done |]. left. split; [done |]. cbn [fst snd].
  set (db := {| fpath := _; msglst := msglst (ld_dbc ld); siglst := sigs; md5 := _ |}).
  assert (loaded_ok db) as Ld.
  { unfold loaded_ok. subst db. cbn [siglst]. destruct D. split; cbn [siglst msglst]; rewrite ?Hn, ?Hln; done. }
  assert (len (siglst (dbc_reset_signal db)) = len (siglst db)) as El by (unfold len; cbn; by rewrite length_map).
  apply (reset_ok _ _) in Ld. split; cbn [siglst md5 fpath]; [| | done | done].
  - unfold loaded_ok. cbn [siglst]. unfold dbc_reset_signal in El |- *. cbn [siglst] in El |- *. rewrite El. by destruct Ld; split.
  - apply Forall_map, Forall_true. done.
Qed.

(** ** The load *)

Lemma empty_db_ok k p h : db_ok k {| fpath := p; msglst := []; siglst := []; md5 := h |}.
Proof using. split; cbn; try done; constructor. Qed.

Lemma view_kept s s' : kept s s' -> dbc_data s' = dbc_data s /\ forget_db <$> db_view s' = forget_db <$> db_view s.
Proof using.
  intros [_ E]. unfold shown in E. injection E as Em Ed _ _. split; [done |]. unfold db_view. rewrite Ed.
  destruct (dbc_data s) as [i|]; [| done]. cbn [mbind option_bind]. by rewrite <- !mem_get_map, Em.
Qed.

(** The database that is not in use. *)
Lemma next_mem_range s : dbc_ok s -> 0 <= next_mem (dbc_data s) < 2 /\ dbc_data s <> Some (next_mem (dbc_data s)).
Proof using.
  intros Ok. pose proof (ok_data _ Ok). destruct (dbc_data s) as [i|]; cbn [next_mem]; [| split; [lia | done]].
  split; [lia |]. intros [= E]. lia.
Qed.

Lemma put_db_ok i db s : dbc_ok s -> 0 <= i < 2 -> dbc_data s <> Some i ->
  wp (put_db i db) (fun _ s' => dbc_ok s' /\ dbc_data s' = dbc_data s /\ db_view s' = db_view s /\
    mem_get (dbc_mem s') i = Some db) s.
Proof using.
  intros Ok Hi N. unfold put_db. apply wp_get. pose proof (ok_mem _ Ok) as Hl. rewrite mem_set_ok by lia.
  eapply wp_lift; [reflexivity |]. unfold wp, st_mod. lazymatch goal with |- dbc_ok ?x /\ _ => set (s' := x) end.
  assert (db_view s' = db_view s) as Ev.
  { unfold db_view. subst s'. cbn [dbc_data dbc_mem]. pose proof (ok_data _ Ok).
    destruct (dbc_data s) as [j|]; [| done]. cbn [mbind option_bind]. rewrite !mem_get_lookup by lia.
    apply list_lookup_insert_ne. intros E. apply N. f_equal. lia. }
  split; [| split; [done | split; [done |]]].
  - pose proof (ok_view _ Ok). destruct Ok. split; [| done | by rewrite Ev | done]. subst s'. cbn [dbc_mem]. by rewrite len_insert.
  - subst s'. cbn [dbc_mem]. rewrite mem_get_lookup by lia. apply list_lookup_insert_eq. unfold len in Hl. lia.
Qed.

(** The result of a load, from the states before and after. *)
Definition loaded (env : DBC_ENV) (path : list Z) (s : DBC) (ret : Z) (s' : DBC) : Prop :=
  (ret = 0 /\ exists p file db, e_fopen env p = Some file /\
    fresh path (lines_text (length file) file) db /\ forget_db <$> db_view s' = Some (forget_db db)) \/
  (ret = -1 /\ dbc_data s' = dbc_data s /\ forget_db <$> db_view s' = forget_db <$> db_view s).

(** After the lines: the database is stored and, if all went well, put in use. *)
Lemma load_exit_ok env path s s1 ret db baud mem : dbc_ok s1 -> dbc_data s1 = dbc_data s ->
  forget_db <$> db_view s1 = forget_db <$> db_view s -> 0 <= mem < 2 -> dbc_data s1 <> Some mem ->
  ret = 0 /\ (exists p file, e_fopen env p = Some file /\ fresh path (lines_text (length file) file) db) \/ ret = -1 ->
  wp (put_db mem db;;
      (if ret =? 0 then st_mod (fun s => {| s with dbc_data := Some mem |}) else mret tt);;
      callbacks (DBC_EVENT_FINISHED (u32 ret));;
      mret (ret, baud) : M (Z * list Z)) (fun r s' => dbc_ok s' /\ r.2 = baud /\ loaded env path s r.1 s') s1.
Proof using.
  intros Ok1 Ed Ev Hm N Hret. eapply wp_seq; [by apply put_db_ok |]. intros ? s2 (Ok2 & Ed2 & Ev2 & Emem).
  destruct Hret as [[-> (p & file & Ef & Hfr)] | ->].
  - change (0 =? 0) with true. apply wp_mod. set (s3 := {| dbc_mem := dbc_mem s2; dbc_data := Some mem |}).
    assert (db_view s3 = Some db) as Ev3 by exact Emem.
    assert (dbc_ok s3) as Ok3. { destruct Ok2. split; [done | done | rewrite Ev3; apply Hfr | done]. }
    eapply wp_seq; [by apply callbacks_quiet |]. intros ? s4 Q4. apply wp_ret. split; [apply Q4 |]. split; [done |].
    left. split; [done |]. exists p, file, db. split; [done |]. split; [done |].
    destruct (view_kept _ _ (quiet_kept _ _ Q4)) as [_ ->]. by rewrite Ev3.
  - change (-1 =? 0) with false. apply wp_bind, wp_ret.
    eapply wp_seq; [by apply callbacks_quiet |]. intros ? s3 Q3. apply wp_ret. split; [apply Q3 |]. split; [done |].
    right. split; [done |]. destruct (view_kept _ _ (quiet_kept _ _ Q3)) as [-> ->]. by rewrite Ed2, Ev2.
Qed.

Lemma load_file_ok env path baud s : dbc_ok s -> len path <= 230 -> len baud = CAN_MAX_PORT ->
  (forall p f, e_fopen env p = Some f -> Forall is_byte f) ->
  wp (dbc_load_file env path baud)
    (fun r s' => dbc_ok s' /\ len r.2 = CAN_MAX_PORT /\ loaded env path s r.1 s') s.
Proof using.
  intros Ok Hl Hbd Hbytes. unfold dbc_load_file.
  assert (forall s1, kept s s1 -> dbc_ok s1 /\ len baud = CAN_MAX_PORT /\ loaded env path s (-1) s1) as Refuse.
  { intros s1 K. split; [apply K |]. split; [done |]. right. split; [done | by apply view_kept]. }
  destruct (len path =? 0); [by apply wp_ret, Refuse |].
  eapply wp_seq; [by apply open_file_ok |]. intros [[file|] backup] s1 [K1 Hf]; cbn [fst] in Hf; [| by apply wp_ret, Refuse].
  destruct Hf as [p Ef]. pose proof (Hbytes _ _ Ef) as Hfile.
  eapply wp_seq; [apply callbacks_quiet; [apply K1 | done] |]. intros ? s2 Q2.
  pose proof (kept_trans _ _ _ K1 (quiet_kept _ _ Q2)) as [Ok2 E2].
  apply wp_gets, wp_gets. destruct (next_mem_range s2 Ok2) as [Hm N].
  destruct (mem_get_is_Some (dbc_mem s2) (next_mem (dbc_data s2))) as [old Eold]; [rewrite (ok_mem _ Ok2); lia |].
  eapply wp_lift; [exact Eold |]. apply wp_mod. cbv zeta. set (s3 := {| dbc_mem := dbc_mem s2; dbc_match_tbl := match_tbl_zero |}).
  assert (dbc_ok s3) as Ok3 by (by destruct Ok2). set (ld0 := {| ld_msg := None; ld_num := 0; ld_baud := baud |}).
  assert (load_ok [] s3 ld0) as L0.
  { split; try done; [apply empty_db_ok | split; [done |]; by apply Forall_replicate]. }
  eapply wp_seq; [by apply load_lines_ok |]. intros [ld ok] s4 (Ok4 & Eo4 & Hb4 & L4); cbn [fst snd app] in *.
  assert (kept s3 s4) as K4 by (split; [done | by apply obs_shown]).
  eapply (wp_seq _ _ (fun r s5 => kept s4 s5 /\ (r.1 = 0 /\ fresh path (lines_text (length file) file) r.2 \/ r.1 = -1))).
  { destruct ok; [by apply load_finish_ok; [apply L4 |] |]. apply wp_ret. split; [done | by right]. }
  intros [ret db] s5 [K5 Hret]. cbn [fst snd] in Hret.
  assert (kept s s5) as K. { split; [apply K5 |]. rewrite (proj2 K5), (proj2 K4). exact E2. }
  destruct (view_kept _ _ K) as [Ed Ev]. eapply wp_mono.
  - apply (load_exit_ok env path s); [apply K | done | done | done | |].
    + rewrite Ed. destruct (view_kept s s2) as [<- _]; [by split | done].
    + destruct Hret as [[-> Hfr] | ->]; [left | by right]. split; [done |]. by exists p, file.
  - intros [r b] s6 (Ok6 & Eb & H). cbn [fst snd] in *. subst b. done.
Qed.

End load.

(** ** The text of a file *)

(** In a file without zeros every character counts. *)
Lemma c_str_id l : Forall is_char l -> c_str l = l.
Proof.
  induction 1 as [|c l Hc Hl IH]; cbn; [done |]. unfold is_char in Hc. destruct (Z.eqb_spec c 0); [lia | by rewrite IH].
Qed.

Lemma lines_text_file fuel : forall file, (length file <= fuel)%nat -> Forall is_char file -> lines_text fuel file = file.
Proof.
  induction fuel as [|fuel IH]; intros file Hf Hc; cbn [lines_text]; fold bufsize;
    destruct (fgets bufsize file) as [a b] eqn:E; pose proof (fgets_split _ _ _ _ E) as [Es _].
  - destruct file; [| cbn in Hf; lia]. symmetry in Es. apply app_nil in Es as [-> ->]. done.
  - destruct a as [|c a].
    + replace bufsize with (S (S (Z.to_nat (DBC_MAX_LINESZ - 3)))) in E by (unfold bufsize, DBC_MAX_LINESZ; lia).
      destruct file as [|x file]; [done |]. exfalso. revert E. generalize (Z.to_nat (DBC_MAX_LINESZ - 3)). intros n.
      change (fgets (S (S n)) (x :: file)) with (if x =? 10 then ([x], file) else let '(a, b) := fgets (S n) file in (x :: a, b)).
      destruct (x =? 10); [done |]. by destruct (fgets (S n) file).
    + rewrite Es in Hc, Hf |- *. apply Forall_app in Hc as [Hc1 Hc2]. rewrite c_str_id by done. f_equal. apply IH; [| done].
      rewrite length_app in Hf. cbn in Hf. lia.
Qed.
