(* ===== verification/DbcData.v ===== *)
(** * Decoding the bus

    The messages of the bus change the values of the signals as a function of
    their own says ([ref_message]): the bits are those of [DbcBits], a multiplexed
    signal follows the values that its references have at its turn, and the
    callbacks have no part in it.  In all runs a value is the default of its signal
    or within its limits. *)

From stdpp Require Import strings.
From S2P Require Import Md5 Prelude Cstd Dbc DbcBits DbcLoad.

Open Scope string_scope.
Open Scope list_scope.
Open Scope Z_scope.

(** ** The reference *)

Definition ref_match (sigs : list dbc_sig_t) (g : dbc_sig_t) : bool :=
  forallb (fun mv => match mem_get sigs (mv.1 - 1) with Some h => d_eq mv.2 (sig_value h) | None => false end)
    (zip (refs (sig_mi g)) (sig_mv g)).

(** The value that the data gives to a signal. *)
Definition ref_value (g : dbc_sig_t) (data : list Z) : double :=
  sig_decode g (ref_rawval (sig_order g) (sig_sign g) (sig_start g) (sig_size g) data).

Definition new_value (g : dbc_sig_t) (v : double) : dbc_sig_t :=
  if d_eq v (sig_value g) then g else {| g with sig_lastv := sig_value g; sig_value := v |}.

Definition ref_signal (canmsg : CAN_MSG) (sigs : list dbc_sig_t) (i : Z) : list dbc_sig_t :=
  match mem_get sigs i with
  | Some g =>
      if (sig_port g =? u32 (RPORT (cm_port canmsg))) && ref_match sigs g
      then <[Z.to_nat i := new_value g (ref_value g (cm_Data canmsg))]> sigs else sigs
  | None => sigs
  end.

Definition with_sigs (db : dbc_data_t) (l : list dbc_sig_t) : dbc_data_t := {| db with siglst := l |}.

Definition ref_message (db : dbc_data_t) (canmsg : CAN_MSG) : dbc_data_t :=
  if cm_type canmsg =? 67 then
    match find (fun m => msg_id m =? cm_MsgID canmsg) (msglst db) with
    | Some m => with_sigs db (fold_left (ref_signal canmsg) (msg_siglst m) (siglst db))
    | None => db
    end
  else db.

(** ** Matching *)

Lemma match_loop_ref sigs mi mv : Forall (fun m => 0 < m <= len sigs) (refs mi) ->
  match_loop sigs mi mv =
    Some (forallb (fun mv => match mem_get sigs (mv.1 - 1) with Some h => d_eq mv.2 (sig_value h) | None => false end)
            (zip (refs mi) mv)).
Proof.
  revert mv. induction mi as [|m mi IH]; intros mv; cbn [refs match_loop]; [by destruct mv |].
  destruct mv as [|v mv]; [by destruct (m =? 0) |]. destruct (m =? 0); [done |].
  intros [Hm Hr]%Forall_cons_1. cbn [zip zip_with forallb fst snd]. destruct (mem_get_is_Some sigs (m - 1)) as [h ->]; [lia |].
  cbn [mbind option_bind]. destruct (d_eq v (sig_value h)); [by apply IH | done].
Qed.

Lemma find_from_find {A} (f : A -> bool) l : forall i,
  match find_from f i l with Some j => find f l = l !! Z.to_nat (j - i) | None => find f l = None end.
Proof.
  induction l as [|x l IH]; intros i; cbn [find_from find]; [done |]. destruct (f x); [by rewrite Z.sub_diag |].
  specialize (IH (i + 1)). destruct (find_from f (i + 1) l) as [j|] eqn:E; [| done].
  apply find_from_Some in E as [Hj _]. rewrite IH. by replace (Z.to_nat (j - i)) with (S (Z.to_nat (j - (i + 1)))) by lia.
Qed.

(** Flags do not matter. *)
Lemma ref_match_forget sigs g : ref_match (map forget sigs) (forget g) = ref_match sigs g.
Proof.
  unfold ref_match. cbn [forget sig_mi sig_mv]. induction (zip _ _) as [|[m v] l IH]; [done |].
  cbn [forallb fst snd]. rewrite IH, mem_get_map. by destruct (mem_get sigs (m - 1)).
Qed.

Lemma new_value_forget g v : new_value (forget g) v = forget (new_value g v).
Proof. unfold new_value. cbn [forget sig_value]. by destruct (d_eq _ _). Qed.

(** ** Databases without signals of 64 bits *)

Definition no64 (db : dbc_data_t) : Prop := Forall (fun g => sig_size g < 64) (siglst db).

Record msg_ok (m : CAN_MSG) : Prop := { mo_data : len (cm_Data m) = 8; mo_bytes : Forall is_byte (cm_Data m) }.

Section data.
Context {CB C : Type} {client : DbcClient CB C} {law : DbcClientOk CB C}.
Abbreviation DBC := (DBC CB C).
Abbreviation M := (ST DBC).

(** The state [s] has a database that is [db] up to the flags. *)
Record at_db (db : dbc_data_t) (s : DBC) : Prop := {
  at_ok : dbc_ok s;
  at_64 : no64 db;
  at_view : forget_db <$> db_view s = Some (forget_db db)
}.

Lemma forget_no64 db db' : forget_db db = forget_db db' -> no64 db -> no64 db'.
Proof using.
  intros E. assert (map sig_size (siglst db) = map sig_size (siglst db')) as Em.
  { transitivity (map sig_size (siglst (forget_db db))); [cbn; rewrite map_map; by apply map_ext |].
    rewrite E. cbn. rewrite map_map. by apply map_ext. }
  unfold no64. rewrite <- !(Forall_map sig_size (fun n => n < 64)). by rewrite Em.
Qed.

Lemma quiet_at db s s' : at_db db s -> quiet s s' -> at_db db s'.
Proof using.
  intros [Ok H Ev] Q. split; [apply Q | done |]. by destruct (view_kept _ _ (quiet_kept _ _ Q)) as [_ ->].
Qed.

Lemma at_db_inv db s : at_db db s -> exists v, db_view s = Some v /\ forget_db v = forget_db db /\ loaded_ok v /\ no64 v.
Proof using.
  intros [Ok H Ev]. destruct (db_view s) as [v|] eqn:E; [| done]. apply (inj Some) in Ev. exists v.
  split; [done |]. split; [done |]. split; [pose proof (ok_view _ Ok) as V; by rewrite E in V |]. by eapply forget_no64.
Qed.

Lemma put_view_ok db s v : dbc_ok s -> db_view s = Some v -> loaded_ok db ->
  wp (put_view db) (fun _ s' => dbc_ok s' /\ db_view s' = Some db) s.
Proof using.
  intros Ok Ev L. unfold put_view. apply wp_get. unfold db_view in Ev. pose proof (ok_data _ Ok) as Hd.
  destruct (dbc_data s) as [p|] eqn:Ed; [| done]. unfold put_db. apply wp_get. pose proof (ok_mem _ Ok) as Hm.
  rewrite mem_set_ok by lia. eapply wp_lift; [reflexivity |]. unfold wp, st_mod.
  lazymatch goal with |- dbc_ok ?x /\ _ => set (s' := x) end.
  assert (db_view s' = Some db) as Ev'.
  { unfold db_view. subst s'. cbn [dbc_data dbc_mem]. rewrite Ed. cbn [mbind option_bind]. rewrite mem_get_lookup by lia.
    apply list_lookup_insert_eq. unfold len in Hm. lia. }
  split; [| done]. destruct Ok. split; [subst s'; cbn [dbc_mem]; by rewrite len_insert | done | by rewrite Ev' | done].
Qed.

(** ** One signal *)

Lemma new_value_ok k db i g v : db_ok k db -> mem_get (siglst db) i = Some g ->
  db_ok k {| db with siglst := <[Z.to_nat i := new_value g v]> (siglst db) |}.
Proof using.
  intros D [Hi Em]%mem_get_Some. pose proof (Forall_lookup_1 _ _ _ _ (do_sig _ _ D) Em) as Hs.
  assert (sig_ok k (new_value g v) /\ sig_name (new_value g v) = sig_name g) as [Hs' En].
  { unfold new_value. destruct (d_eq _ _); [done |]. split; [by destruct Hs; split | done]. }
  destruct D. split; cbn [siglst msglst]; rewrite ?len_insert; try done.
  - by apply Forall_insert.
  - by rewrite (map_insert_id _ _ _ _ _ Em).
Qed.

Lemma signal_in_ok canmsg i db s : msg_ok canmsg -> at_db db s -> 0 <= i < len (siglst db) ->
  wp (signal_in canmsg i) (fun _ => at_db (with_sigs db (ref_signal canmsg (siglst db) i))) s.
Proof using.
  intros Hm A Hi. destruct (at_db_inv _ _ A) as (v & Ev & Ef & L & N).
  assert (map forget (siglst v) = map forget (siglst db)) as Es by (by apply (f_equal siglst) in Ef).
  assert (len (siglst v) = len (siglst db)) as El.
  { apply (f_equal length) in Es. rewrite !length_map in Es. unfold len. by rewrite Es. }
  destruct (mem_get_is_Some (siglst db) i Hi) as [g Eg]. destruct (mem_get_is_Some (siglst v) i) as [h Eh]; [lia |].
  assert (forget h = forget g) as Eq.
  { pose proof (mem_get_map forget (siglst v) i) as E1. pose proof (mem_get_map forget (siglst db) i) as E2.
    rewrite Es, E2, Eg, Eh in E1. symmetry. by apply (inj Some) in E1. }
  unfold signal_in. apply wp_get. eapply wp_lift; [exact Ev |]. eapply wp_lift; [exact Eh |].
  unfold ref_signal. rewrite Eg.
  assert (sig_port h = sig_port g) as Ep by exact (f_equal sig_port Eq). rewrite Ep.
  assert (wp (mret tt : M unit) (fun _ => at_db (with_sigs db (siglst db))) s) as Skip by (apply wp_ret; by destruct A).
  destruct (Z.eqb_spec (sig_port g) (u32 (RPORT (cm_port canmsg)))) as [_ | _]; cbn [negb andb]; [| exact Skip].
  apply mem_get_Some in Eh as [Hih Eh']. pose proof (Forall_lookup_1 _ _ _ _ (do_sig _ _ L) Eh') as Hs.
  unfold dbc_match_sig. rewrite match_loop_ref by apply (so_mi _ _ Hs). eapply wp_lift; [reflexivity |].
  change (forallb _ _) with (ref_match (siglst v) h). rewrite <- (ref_match_forget (siglst v)), Es, Eq, ref_match_forget.
  destruct (ref_match (siglst db) g); cbn [negb]; [| exact Skip].
  pose proof (Forall_lookup_1 _ _ _ _ N Eh') as H64. cbn in H64.
  rewrite (rawval_bits h (cm_Data canmsg)) by (try apply Hm; try done; apply Hs). eapply wp_lift; [reflexivity |]. cbv zeta.
  change (sig_decode h _) with (ref_value h (cm_Data canmsg)).
  assert (ref_value h (cm_Data canmsg) = ref_value g (cm_Data canmsg)) as ->
    by exact (f_equal (fun x => ref_value x (cm_Data canmsg)) Eq).
  set (w := ref_value g (cm_Data canmsg)). assert (sig_value h = sig_value g) as Evh by exact (f_equal sig_value Eq).
  destruct (d_eq w (sig_value h)) eqn:Ew.
  { unfold new_value. rewrite <- Evh, Ew, list_insert_id; [exact Skip |]. apply mem_get_Some in Eg. apply Eg. }
  rewrite <- Ep. lazymatch goal with |- context [put_sig v i ?x] => assert (x = new_value h w) as -> by (unfold new_value; by rewrite Ew) end.
  unfold put_sig. rewrite mem_set_ok by done. eapply wp_lift; [reflexivity |].
  eapply wp_seq; [eapply put_view_ok; [apply A | exact Ev |] |].
  { unfold loaded_ok. cbn [siglst]. rewrite len_insert. apply new_value_ok; [exact L |]. by rewrite mem_get_lookup by lia. }
  intros ? s1 [Ok1 Ev1]. eapply wp_mono; [apply callbacks_quiet; [done | cbn; lia] |]. intros ? s2 Q2.
  eapply quiet_at; [| exact Q2]. split; [done | |].
  - apply Forall_insert; [apply A |]. apply mem_get_Some in Eg as [_ Eg]. pose proof (Forall_lookup_1 _ _ _ _ (at_64 _ _ A) Eg).
    unfold new_value. by destruct (d_eq w (sig_value g)).
  - rewrite Ev1. cbn [fmap option_fmap option_map]. f_equal. unfold forget_db. cbn [with_sigs siglst fpath msglst md5].
    rewrite !map_insert, Es, <- !new_value_forget, Eq.
    pose proof (f_equal fpath Ef) as E1. pose proof (f_equal msglst Ef) as E2. pose proof (f_equal md5 Ef) as E3. cbn in E1, E2, E3.
    by rewrite E1, E2, E3.
Qed.

Lemma ref_signal_len canmsg sigs i : len (ref_signal canmsg sigs i) = len sigs.
Proof using. unfold ref_signal. destruct (mem_get sigs i); [| done]. destruct (_ && _); [apply len_insert | done]. Qed.

Lemma signals_in_ok canmsg l : msg_ok canmsg -> forall db s, at_db db s -> Forall (fun i => 0 <= i < len (siglst db)) l ->
  wp (signals_in canmsg l) (fun _ => at_db (with_sigs db (fold_left (ref_signal canmsg) l (siglst db)))) s.
Proof using.
  intros Hm. induction l as [|i l IH]; intros db s A Hl; cbn [signals_in fold_left]; [apply wp_ret; by destruct A |].
  apply Forall_cons_1 in Hl as [Hi Hl]. eapply wp_seq; [by apply signal_in_ok |]. intros ? s1 A1.
  apply (IH _ _ A1). cbn [with_sigs siglst]. by rewrite ref_signal_len.
Qed.

(** The links of a message are signals. *)
Lemma links_range k db i m : db_ok k db -> mem_get (msglst db) i = Some m ->
  Forall (fun j => 0 <= j < len (siglst db)) (msg_siglst m).
Proof using.
  intros D [_ Em]%mem_get_Some. apply List.Forall_forall. intros j Hj.
  assert (In j (concat (map msg_siglst (msglst db)))) as H.
  { apply in_concat. exists (msg_siglst m). split; [| done]. apply in_map. apply list_elem_of_In. by eapply list_elem_of_lookup_2. }
  apply list_elem_of_In in H. rewrite (do_links _ _ D) in H. apply elem_of_seqZ in H. lia.
Qed.

Lemma message_in_ok canmsg db s : msg_ok canmsg -> at_db db s -> wp (message_in canmsg) (fun _ => at_db (ref_message db canmsg)) s.
Proof using.
  intros Hm A. destruct (at_db_inv _ _ A) as (v & Ev & Ef & L & N). unfold message_in, ref_message.
  destruct (cm_type canmsg =? 67); cbn [negb]; [| by apply wp_ret]. apply wp_get. eapply wp_lift; [exact Ev |].
  assert (msglst v = msglst db) as Eml by exact (f_equal msglst Ef).
  assert (len (siglst v) = len (siglst db)) as El.
  { apply (f_equal (fun d => length (siglst d))) in Ef. cbn in Ef. rewrite !length_map in Ef. unfold len. by rewrite Ef. }
  unfold dbc_find_msg. rewrite Eml. pose proof (find_from_find (fun m => msg_id m =? cm_MsgID canmsg) (msglst db) 0) as Hf.
  destruct (find_from _ 0 (msglst db)) as [i|] eqn:E; [| rewrite Hf; by apply wp_ret].
  apply find_from_Some in E as (Hi & m & Em & _). rewrite Hf, Em. rewrite Z.sub_0_r in Em.
  assert (mem_get (msglst db) i = Some m) as Emm by (by rewrite mem_get_lookup by lia).
  eapply wp_lift; [exact Emm |]. apply signals_in_ok; [done | exact A |].
  rewrite <- El. eapply (links_range _ v i); [exact L |]. by rewrite Eml.
Qed.

Lemma messages_in_ok msgs : Forall msg_ok msgs -> forall db s, at_db db s ->
  wp (messages_in msgs) (fun _ => at_db (fold_left ref_message msgs db)) s.
Proof using.
  induction 1 as [|m msgs Hm _ IH]; intros db s A; cbn [messages_in fold_left]; [by apply wp_ret |].
  eapply wp_seq; [by apply message_in_ok |]. intros ? s1 A1. by apply IH.
Qed.

Lemma reset_at par1 db s : at_db db s -> wp (dbc_reset par1) (fun _ => at_db (dbc_reset_signal db)) s.
Proof using.
  intros A. destruct (at_db_inv _ _ A) as (v & Ev & Ef & L & N). unfold dbc_reset. apply wp_get. eapply wp_lift; [exact Ev |].
  eapply wp_seq; [eapply put_view_ok; [apply A | exact Ev |] |].
  { unfold loaded_ok. replace (len (siglst (dbc_reset_signal v))) with (len (siglst v)) by (unfold len; cbn; by rewrite length_map).
    by apply reset_ok. }
  intros ? s1 [Ok1 Ev1]. eapply wp_mono; [by apply callbacks_quiet |]. intros ? s2 Q2. eapply quiet_at; [| exact Q2].
  split; [done | |].
  - unfold no64. cbn. apply Forall_map. apply A.
  - rewrite Ev1. cbn [fmap option_fmap option_map]. f_equal. unfold forget_db in Ef |- *. injection Ef as E1 E2 Es E3.
    cbn [dbc_reset_signal siglst fpath msglst md5]. rewrite E1, E2, E3. f_equal.
    assert (forall l, map forget (map reset_sig l) = map reset_sig (map forget l)) as Hc by (intros l; by rewrite !map_map).
    by rewrite !Hc, Es.
Qed.

(** The reference of an event. *)
Definition ref_event (db : dbc_data_t) (ev : CAN_EVENT) : dbc_data_t :=
  match ev with
  | CAN_EVENT_DATAIN msgs => fold_left ref_message msgs db
  | CAN_EVENT_TIMEOUT _ | CAN_EVENT_SLEEP => dbc_reset_signal db
  | CAN_EVENT_ACTIVE | CAN_EVENT_WAKEUP => db
  end.

Definition ev_ok (ev : CAN_EVENT) : Prop := match ev with CAN_EVENT_DATAIN msgs => Forall msg_ok msgs | _ => True end.

Lemma can_callback_ok ev db s : ev_ok ev -> at_db db s -> wp (dbc_can_callback ev) (fun _ => at_db (ref_event db ev)) s.
Proof using.
  intros He A. unfold dbc_can_callback. apply wp_gets. destruct (at_db_inv _ _ A) as (v & Ev & _).
  unfold db_view in Ev. destruct (dbc_data s); [| done].
  destruct ev; cbn [ref_event]; [by apply messages_in_ok | by apply reset_at | by apply wp_ret | by apply reset_at | by apply wp_ret].
Qed.

(** ** Limits *)

(** The default, or not outside of the limits, if there are any. *)
Definition in_limits (g : dbc_sig_t) : Prop :=
  sig_value g = sig_init g \/
  d_lt (sig_min g) (sig_max g) && (d_lt (sig_value g) (sig_min g) || d_lt (sig_max g) (sig_value g)) = false.

Definition limits_ok (db : dbc_data_t) : Prop := Forall in_limits (siglst db).

Lemma decode_in_limits g raw : in_limits (new_value g (sig_decode g raw)) \/ new_value g (sig_decode g raw) = g.
Proof using.
  unfold new_value. destruct (d_eq _ _); [by right |]. left. unfold in_limits. cbn [sig_value sig_init sig_min sig_max].
  unfold sig_decode. lazymatch goal with |- context [if ?c then _ else _] => destruct c eqn:E end; [by left | by right].
Qed.

Lemma ref_signal_limits canmsg sigs i : Forall in_limits sigs -> Forall in_limits (ref_signal canmsg sigs i).
Proof using.
  intros H. unfold ref_signal. destruct (mem_get sigs i) as [g|] eqn:E; [| done]. destruct (_ && _); [| done].
  apply Forall_insert; [done |]. apply mem_get_Some in E as [_ E]. pose proof (Forall_lookup_1 _ _ _ _ H E) as Hg.
  unfold ref_value. by destruct (decode_in_limits g (ref_rawval (sig_order g) (sig_sign g) (sig_start g) (sig_size g) (cm_Data canmsg))) as [? | ->].
Qed.

Lemma ref_message_limits canmsg db : limits_ok db -> limits_ok (ref_message db canmsg).
Proof using.
  intros H. unfold ref_message. destruct (_ =? _); [| done]. destruct (find _ _) as [m|]; [| done].
  unfold limits_ok. cbn [with_sigs siglst]. generalize (msg_siglst m). intros l. revert H. unfold limits_ok. generalize (siglst db).
  induction l as [|i l IH]; intros sigs H; cbn [fold_left]; [done |]. by apply IH, ref_signal_limits.
Qed.

Lemma ref_event_limits ev db : limits_ok db -> limits_ok (ref_event db ev).
Proof using.
  intros H. destruct ev as [msgs| | | |]; cbn [ref_event]; try done.
  - revert db H. induction msgs as [|m msgs IH]; intros db H; cbn [fold_left]; [done |]. by apply IH, ref_message_limits.
  - apply Forall_map, Forall_true. intros. by left.
  - apply Forall_map, Forall_true. intros. by left.
Qed.

Lemma forget_limits db db' : forget_db db = forget_db db' -> limits_ok db -> limits_ok db'.
Proof using.
  intros E. unfold limits_ok. intros H. apply (f_equal siglst) in E. cbn in E.
  assert (Forall in_limits (map forget (siglst db))) as Hf by (apply Forall_map; exact H).
  rewrite E in Hf. rewrite (Forall_map forget) in Hf. exact Hf.
Qed.

(** ** Runs *)

Inductive DBC_ACTION :=
  | ActLoad (env : DBC_ENV) (path baud : list Z) | ActCan (ev : CAN_EVENT) | ActFlag (id flags : Z).

Definition act_ok (a : DBC_ACTION) : Prop :=
  match a with
  | ActLoad env path baud =>
      len path <= 230 /\ len baud = CAN_MAX_PORT /\ forall p f, e_fopen env p = Some f -> Forall is_byte f
  | ActCan ev => ev_ok ev
  | ActFlag id _ => 0 < id
  end.

Definition run_action (a : DBC_ACTION) : M unit :=
  match a with
  | ActLoad env path baud => _ ← dbc_load_file env path baud; mret tt
  | ActCan ev => dbc_can_callback ev
  | ActFlag id flags => dbc_set_signal_flag id flags
  end.

Fixpoint run_actions (l : list DBC_ACTION) : M unit :=
  match l with [] => mret tt | a :: l => run_action a;; run_actions l end.

Definition good (s : DBC) : Prop := dbc_ok s /\ match db_view s with Some db => limits_ok db | None => True end.

Lemma view_good s s' : dbc_ok s' -> forget_db <$> db_view s' = forget_db <$> db_view s -> good s -> good s'.
Proof using.
  intros Ok' E [Ok H]. split; [done |]. destruct (db_view s) as [db|], (db_view s') as [db'|]; try done.
  apply (inj Some) in E. by eapply forget_limits.
Qed.

Lemma action_good a s : act_ok a -> good s -> match db_view s with Some db => no64 db | None => True end ->
  wp (run_action a) (fun _ => good) s.
Proof using.
  intros Ha G N. destruct a as [env path baud | ev | id flags]; cbn [run_action act_ok] in *.
  - destruct Ha as (Hl & Hb & Hf). eapply wp_seq; [by apply load_file_ok; [apply G | | |] |].
    intros [ret b] s1 (Ok1 & _ & H). apply wp_ret. destruct H as [(_ & p & file & db & _ & Hfr & E) | (_ & _ & E)].
    + split; [done |]. destruct (db_view s1) as [db'|]; [| done]. apply (inj Some) in E.
      eapply forget_limits; [symmetry; exact E |]. eapply Forall_impl; [| exact (fr_init _ _ _ Hfr)]. intros g [? _]. by left.
    + by eapply view_good.
  - destruct (db_view s) as [db|] eqn:Ev.
    + assert (at_db db s) as A by (split; [apply G | done | by rewrite Ev]).
      eapply wp_mono; [by apply can_callback_ok |]. intros ? s1 A1. destruct (at_db_inv _ _ A1) as (v & Ev1 & Ef & _).
      split; [apply A1 |]. rewrite Ev1. eapply forget_limits; [symmetry; exact Ef |]. apply ref_event_limits.
      destruct G as [_ G]. by rewrite Ev in G.
    + unfold dbc_can_callback. apply wp_gets. unfold db_view in Ev. destruct (dbc_data s) as [p|] eqn:Ed; [| by apply wp_ret].
      exfalso. cbn [mbind option_bind] in Ev. destruct G as [Ok _]. pose proof (ok_data _ Ok) as Hd. rewrite Ed in Hd.
      pose proof (ok_mem _ Ok). destruct (mem_get_is_Some (dbc_mem s) p) as [x Ex]; [lia | congruence].
  - eapply wp_mono; [by apply set_signal_flag_quiet; [apply G |] |]. intros ? s1 Q.
    eapply view_good; [apply Q | apply (view_kept _ _ (quiet_kept _ _ Q)) | done].
Qed.

Lemma runs_good acts : forall s, Forall act_ok acts -> good s ->
  (exists s', run_actions acts s = Some (tt, s') /\ good s') \/
  (exists pre rest s' db, acts = pre ++ rest /\ run_actions pre s = Some (tt, s') /\ good s' /\
     db_view s' = Some db /\ ~ no64 db).
Proof using.
  induction acts as [|a acts IH]; intros s Ha G; [left; by exists s |]. apply Forall_cons_1 in Ha as [Ha Hacts].
  assert ({match db_view s with Some db => no64 db | None => True end} +
          {~ match db_view s with Some db => no64 db | None => True end}) as [N | N].
  { destruct (db_view s); [| by left]. unfold no64. apply (decide _). }
  - destruct (wp_elim _ _ _ (action_good a s Ha G N)) as ([] & s1 & E & G1).
    destruct (IH s1 Hacts G1) as [(s' & E' & G') | (pre & rest & s' & db & -> & E' & G' & H)].
    + left. exists s'. split; [| done]. cbn [run_actions]. by rewrite (st_bind_run _ _ _ _ _ E).
    + right. exists (a :: pre), rest, s', db. split; [done |]. split; [| done]. cbn [run_actions]. by rewrite (st_bind_run _ _ _ _ _ E).
  - right. exists [], (a :: acts), s. destruct (db_view s) as [db|]; [| done]. by exists db.
Qed.

(** The other modules have registered their callbacks. *)
Definition registered (cbs : list CB) (s : DBC) : DBC := {| s with dbc_callback_lst := cbs |}.

Lemma events_ok evs : Forall ev_ok evs -> forall db s, at_db db s ->
  wp (run_actions (map ActCan evs)) (fun _ => at_db (fold_left ref_event evs db)) s.
Proof using.
  induction 1 as [|ev evs He _ IH]; intros db s A; cbn [map run_actions fold_left]; [by apply wp_ret |].
  eapply wp_seq; [by apply can_callback_ok |]. intros ? s1 A1. by apply IH.
Qed.

End data.

(** ** Theorems *)

(** C22: Loading a file, whatever its bytes, whatever the files and the configuration
    answer, is defined for all modules that keep to the interface: it ends with a
    well-formed database in use, whose values are the defaults and whose digest is
    the MD5 of the file (of a file without zeros), or with the result [-1] and the
    database as before, but for the flags of the signals. *)
Theorem dbc_load_total {CB C} {client : DbcClient CB C} {law : DbcClientOk CB C} env path baud (s : DBC CB C) :
  dbc_ok s -> len path <= 230 -> len baud = CAN_MAX_PORT ->
  (forall p f, e_fopen env p = Some f -> Forall is_byte f) ->
  exists ret baud' s', dbc_load_file env path baud s = Some ((ret, baud'), s') /\ dbc_ok s' /\ len baud' = CAN_MAX_PORT /\
    ((ret = 0 /\ exists p file db, e_fopen env p = Some file /\ forget_db <$> db_view s' = Some (forget_db db) /\
        loaded_ok db /\ fpath db = take 255 path /\
        Forall (fun g => sig_value g = sig_init g /\ sig_lastv g = sig_init g) (siglst db) /\
        (Forall is_char file -> md5 db = Md5.md5 file)) \/
     (ret = -1 /\ dbc_data s' = dbc_data s /\ forget_db <$> db_view s' = forget_db <$> db_view s)).
Proof.
  intros Ok Hl Hb Hf. destruct (wp_elim _ _ _ (load_file_ok env path baud s Ok Hl Hb Hf)) as ([ret b] & s' & E & Ok' & Hb' & H).
  exists ret, b, s'. split; [exact E |]. split; [exact Ok' |]. split; [exact Hb' |].
  destruct H as [(Hr & p & file & db & Ef & [H1 H2 H3 H4] & Ev) | H]; [left | right; exact H].
  split; [exact Hr |]. exists p, file, db. do 5 (split; [assumption |]). intros Hc. by rewrite lines_text_file in H3.
Qed.

(** C21: The events of the bus change the database as the reference says, whatever the
    callbacks do: the bits of a signal, scaled and limited, at the turn of the signal
    in its message, if the port and the referred signals match. *)
Theorem dbc_values_refine {CB C} {client : DbcClient CB C} {law : DbcClientOk CB C} evs (s : DBC CB C) db :
  dbc_ok s -> db_view s = Some db -> Forall (fun g => sig_size g < 64) (siglst db) -> Forall ev_ok evs ->
  exists s' db', run_actions (map ActCan evs) s = Some (tt, s') /\ dbc_ok s' /\ db_view s' = Some db' /\
    forget_db db' = forget_db (fold_left ref_event evs db).
Proof.
  intros Ok Ev N He. assert (at_db db s) as A by (split; [done | done | by rewrite Ev]).
  destruct (wp_elim _ _ _ (events_ok evs He db s A)) as ([] & s' & E & A').
  destruct (at_db_inv _ _ A') as (v & Ev' & Ef & _). exists s', v. split; [done |]. split; [apply A' |]. done.
Qed.


(** ** Examples *)

Section demo.

#[local] Instance demo_client : DbcClient unit unit := fun _ _ _ c => Some (0, [], c).
#[local] Instance demo_law : DbcClientOk unit unit.
Proof.
  refine {| client_ok := fun _ => True |}. intros f [] db c _ _; exists 0, [], c; do 3 (split; [done || constructor |]);
    try done; apply len_nonneg.
Defined.

Definition nl : list Z := [10].
Definition quote : list Z := [34].

(** An Intel signal of 16 bits, a Motorola multiplexor and a signal that follows it. *)
Definition demo_file : list Z :=
  c_chars "VERSION 1" ++ nl ++ c_chars "BO_ 291 Motor: 8 ECU1" ++ nl ++
  c_chars " SG_ speed_@1 : 0|16@1+ (0.5,-40) [-40|6000] " ++ quote ++ c_chars "km/h" ++ quote ++ c_chars " X" ++ nl ++
  c_chars " SG_ mux_I3 : 23|8@0- (1,0) [0|0] " ++ quote ++ quote ++ c_chars " X" ++ nl ++
  c_chars " SG_ part_M5I3 : 31|8@0- (1,0) [0|0] " ++ quote ++ quote ++ c_chars " X" ++ nl ++
  c_chars "BA_ " ++ quote ++ c_chars "HSBaudrate" ++ quote ++ c_chars " 4" ++ nl.

Definition demo_env : DBC_ENV := {|
  e_fopen := fun _ => Some demo_file; e_feof := true; e_file_exists := fun _ => true; e_file_comp := fun _ _ => 0;
  e_cfg_get := None; e_cfg_set := fun _ => 0 |}.
Definition demo_path : list Z := c_chars "/usrdata/demo.dbc".
Definition demo_start : DBC unit unit := registered [tt] (dbc_init tt).

Lemma demo_start_ok : dbc_ok demo_start.
Proof. by split. Qed.

Lemma demo_bytes : Forall is_char demo_file.
Proof.
  assert (forallb (fun c => (0 <? c) && (c <? 256)) demo_file = true) as H by (vm_compute; reflexivity).
  apply List.Forall_forall. rewrite forallb_forall in H. intros c Hc%H. unfold is_char. lia.
Qed.

Lemma demo_files_ok p f : e_fopen demo_env p = Some f -> Forall is_byte f.
Proof. intros [= <-]. apply chars_bytes, demo_bytes. Qed.

Lemma dbc_load_total_witness : exists s' db,
  dbc_load_file demo_env demo_path [-1; -1; -1; -1; -1] demo_start = Some ((0, [500; -1; -1; -1; -1]), s') /\
  loaded_ok db /\ forget_db <$> db_view s' = Some (forget_db db) /\ md5 db = Md5.md5 demo_file.
Proof.
  destruct (dbc_load_total demo_env demo_path [-1; -1; -1; -1; -1] demo_start demo_start_ok ltac:(vm_compute; discriminate)
    ltac:(reflexivity) demo_files_ok) as (ret & b & s' & E & _ & _ & H).
  assert (fst <$> dbc_load_file demo_env demo_path [-1; -1; -1; -1; -1] demo_start = Some (0, [500; -1; -1; -1; -1])) as E0
    by (vm_compute; reflexivity).
  rewrite E in E0. injection E0 as -> ->. destruct H as [(_ & p & file & db & Ef & Ev & L & _ & _ & Hm) | [Hr _]]; [| discriminate Hr].
  apply (inj Some) in Ef. subst file. exists s', db. split; [exact E |]. split; [exact L |]. split; [exact Ev |]. exact (Hm demo_bytes).
Defined.

(** The state after the load. *)
Definition demo_loaded : DBC unit unit :=
  match dbc_load_file demo_env demo_path [-1; -1; -1; -1; -1] demo_start with Some (_, s) => s | None => demo_start end.
Definition demo_db : dbc_data_t := default dbc_data_zero (db_view demo_loaded).

Lemma demo_loaded_ok : dbc_ok demo_loaded.
Proof.
  destruct (wp_elim _ _ _ (load_file_ok demo_env demo_path [-1; -1; -1; -1; -1] demo_start demo_start_ok
    ltac:(vm_compute; discriminate) ltac:(reflexivity) demo_files_ok)) as (r & s' & E & Ok & _).
  unfold demo_loaded. by rewrite E.
Qed.

(** [speed] is [0x0102 * 0.5 - 40 = 89], [mux] is [5], so that [part] is [-2]. *)
Definition demo_msg (mux : Z) : CAN_MSG := {|
  cm_uptime := 7; cm_miscUptime := 0; cm_type := 67; cm_dlc := 24; cm_MsgID := 291; cm_Data := [2; 1; mux; 254; 0; 0; 0; 0] |}.

Lemma demo_msg_ok mux : is_byte mux -> msg_ok (demo_msg mux).
Proof.
  intros. split; [done |]. cbn [cm_Data demo_msg]. repeat (apply List.Forall_cons; [unfold is_byte in *; lia |]). apply List.Forall_nil.
Qed.

Lemma dbc_values_refine_witness : exists s' db',
  run_actions (map ActCan [CAN_EVENT_DATAIN [demo_msg 4; demo_msg 5]]) demo_loaded = Some (tt, s') /\ db_view s' = Some db' /\
  map sig_value (siglst db') = [d_of_Z 89; d_of_Z 5; d_of_Z (-2)].
Proof.
  destruct (dbc_values_refine [CAN_EVENT_DATAIN [demo_msg 4; demo_msg 5]] demo_loaded demo_db demo_loaded_ok) as (s' & db' & E & _ & Ev & H).
  - vm_compute. reflexivity.
  - assert (forallb (fun g => sig_size g <? 64) (siglst demo_db) = true) as H by (vm_compute; reflexivity).
    apply List.Forall_forall. rewrite forallb_forall in H. intros g Hg%H. lia.
  - apply List.Forall_cons; [| apply List.Forall_nil].
    do 2 (apply List.Forall_cons; [apply demo_msg_ok; unfold is_byte; lia |]). apply List.Forall_nil.
  - exists s', db'. split; [exact E |]. split; [exact Ev |].
    transitivity (map sig_value (siglst (forget_db db'))); [cbn; rewrite map_map; reflexivity |].
    rewrite H. vm_compute. reflexivity.
Defined.

Definition demo_acts : list DBC_ACTION :=
  [ActLoad demo_env demo_path [-1; -1; -1; -1; -1]; ActCan (CAN_EVENT_DATAIN [demo_msg 5]); ActFlag 2 1;
   ActCan (CAN_EVENT_TIMEOUT 9)].

(** After each of the actions there is no signal of 64 bits. *)
Definition small_signals (k : nat) : bool :=
  match run_actions (take k demo_acts) demo_start with
  | Some (_, s) => match db_view s with Some db => forallb (fun g => sig_size g <? 64) (siglst db) | None => true end
  | None => true
  end.

Lemma demo_small k : small_signals k = true.
Proof. do 5 (destruct k as [|k]; [vm_compute; reflexivity |]). vm_compute. reflexivity. Qed.


End demo.

(** ** A suffix that is read again *)

(** The result of the last callback decides how far the suffix advances, so that a
    suffix of five characters that only the first callback knows is read character by
    character by the parser: here its hexadecimal digit [B] marks the signal as BCD. *)
Section reread.

#[local] Instance two_clients : DbcClient bool unit := fun first ev _ c =>
  match ev with DBC_EVENT_SURFIX _ (71 :: _) => Some (if first : bool then 5 else 0, [], c) | _ => Some (0, [], c) end.

Definition suffix_flags (cbs : list bool) : option Z :=
  (fun r => sig_flags r.1.1) <$> dbc_parse_sig_suffix 0 dbc_sig_zero (Some (c_chars "G80B2")) (registered cbs (dbc_init tt)).

Example dbc_suffix_reread : suffix_flags [true] = Some 0 /\ suffix_flags [true; false] = Some DBC_FLAG_BCD.
Proof. split; vm_compute; reflexivity. Qed.

End reread.
