(* ===== verification/Can.v ===== *)
(** * The thread of the CAN bus

    src/app/base/can/can_main.c: the messages of the second processor
    go into a ring per port, to the signal database and to the callbacks of the
    other modules; timeout, sleep and wakeup of the bus; baud rates.

    The database is the part [can_dbc] of the state; the calls of the callbacks in
    [can_cb_lst], frames, timers and configuration are recorded in [can_out]. *)

From stdpp Require Import strings.
From S2P Require Import Md5 Prelude Cstd Dbc.

Open Scope string_scope.
Open Scope list_scope.
Open Scope Z_scope.

(** ** Data *)

Definition CAN_BUS_TIMEOUT : Z := 120000.
Definition CAN_MAX_RAWSIZE : Z := 10.
Definition CAN_MAX_CALLBACK : Z := 16.
(** The requests to the thread. *)
Inductive CAN_THREAD_MSG :=
  | CAN_MSG_TIMEOUT | CAN_MSG_SETDBC (env : DBC_ENV) (dbcpath : list Z) | CAN_MSG_SET_BAUD (port baud : Z)
  | CAN_MSG_SET_DEFAULT_BAUD (port baud : Z) | CAN_MSG_STAT | CAN_MSG_SYNC_BAUD (baudlist : list Z)
  | CAN_MSG_SYNC_DEFAULT_BAUD (baudlist : list Z) | CAN_MSG_STOP | CAN_MSG_RUN
  | PM_MSG_SLEEP | PM_MSG_EMERGENCY | PM_MSG_OFF | PM_MSG_RUNNING | MPU_MID_MID_PWDG.

Inductive CAN_OUT :=
  | OutEvent (ev : CAN_EVENT) | OutTimerStart (ms : Z) | OutTimerStop | OutClose | OutFeed
  | OutSyncBaud (l : list Z) | OutSyncDefaultBaud (l : list Z) | OutCfgDefaultBaud (port baud : Z)
  | OutSetDefaultBaud (port baud : Z).

(** [can_stat_t] and the static variables. *)
Record CAN {CB C : Type} := {
  can_canfd : option unit; can_st_sleep : bool; can_active : bool; can_rawpos : list Z; can_rawmsg : list (list CAN_MSG);
  can_st_uptime : Z; can_stop : bool;
  can_baud : list Z; can_default_baud : list Z; can_sleep : bool; can_basetime : Z; can_uptime : list Z; can_sum : Z;
  can_dbc : DBC CB C; can_out : list CAN_OUT }.
Arguments CAN : clear implicits.

Definition can_msg_zero : CAN_MSG :=
  {| cm_uptime := 0; cm_miscUptime := 0; cm_type := 0; cm_dlc := 0; cm_MsgID := 0; cm_Data := replicate 8 0 |}.
Definition rawmsg_zero : list (list CAN_MSG) := replicate 5 (replicate 10 can_msg_zero).

(** [msg->data32[0]] *)
Definition data32_0 (m : CAN_MSG) : Z := le64 (take 4 (cm_Data m)).

Section can.
Context {CB C : Type} {client : DbcClient CB C}.
Abbreviation CAN := (CAN CB C).
Abbreviation M := (ST CAN).

Definition out (o : CAN_OUT) : M unit := st_mod (fun s => {| s with can_out := can_out s ++ [o] |}).

Definition on_dbc {A} (m : ST (DBC CB C) A) : M A :=
  s ← st_get; '(a, d) ← st_lift (m (can_dbc s)); st_mod (fun s => {| s with can_dbc := d |});; mret a.

Definition can_do_callback (ev : CAN_EVENT) : M unit := on_dbc (dbc_can_callback ev);; out (OutEvent ev).

(** ** Silence, sleep and wakeup *)

Definition can_do_timeout : M unit :=
  s ← st_get;
  st_when (can_active s) (st_mod (fun s => {| s with can_active := false; can_rawmsg := rawmsg_zero |}));;
  s ← st_get;
  st_when (negb (can_st_sleep s)) (can_do_callback (CAN_EVENT_TIMEOUT (can_st_uptime s))).

Definition can_do_sleep : M unit :=
  s ← st_get;
  if can_st_sleep s then mret tt
  else
    st_when (can_active s)
      (out OutTimerStop;; st_mod (fun s => {| s with can_active := false; can_rawmsg := rawmsg_zero |}));;
    s ← st_get;
    st_when (bool_decide (is_Some (can_canfd s))) (out OutClose;; st_mod (fun s => {| s with can_canfd := None |}));;
    can_do_callback CAN_EVENT_SLEEP;;
    st_mod (fun s => {| s with can_st_sleep := true; can_sleep := true |}).

Definition can_do_wakeup : M unit :=
  s ← st_get;
  if can_st_sleep s then
    can_do_callback CAN_EVENT_WAKEUP;;
    st_mod (fun s => {| s with can_st_sleep := false; can_sleep := false |})
  else mret tt.

(** ** Data *)

(** The body of the loop of [can_putraw]; [now] is [tm_get_time()]. *)
Definition putraw_one (now : Z) (msg : CAN_MSG) (rawcnt : Z) : M Z :=
  if negb (cm_type msg =? 67) then mret rawcnt
  else if (cm_port msg <? 1) || (CAN_MAX_PORT <? cm_port msg) then mret rawcnt
  else
    let p := RPORT (cm_port msg) in
    s ← st_get;
    row ← st_lift (mem_get (can_rawmsg s) p);
    pos ← st_lift (mem_get (can_rawpos s) p);
    row ← st_lift (mem_set row pos msg);
    rawmsg ← st_lift (mem_set (can_rawmsg s) p row);
    rawpos ← st_lift (mem_set (can_rawpos s) p ((pos + 1) mod CAN_MAX_RAWSIZE));
    uptime ← st_lift (mem_set (can_uptime s) p (u32 now));
    st_mod (fun s => {| s with can_rawmsg := rawmsg; can_rawpos := rawpos; can_sum := u32 (can_sum s + 1); can_uptime := uptime |});;
    mret (rawcnt + 1).

Fixpoint can_putraw (now : Z) (msgs : list CAN_MSG) (rawcnt : Z) : M Z :=
  match msgs with [] => mret rawcnt | m :: msgs => c ← putraw_one now m rawcnt; can_putraw now msgs c end.

(** The loop of [can_do_datain]; [pend] are the messages from [first] on.  The
    result is what is left there. *)
Fixpoint datain_loop (msgs pend : list CAN_MSG) : M (list CAN_MSG) :=
  match msgs with
  | [] => mret pend
  | m :: msgs =>
      if cm_type m =? 84 then
        st_mod (fun s => {| s with can_basetime := data32_0 m; can_st_uptime := cm_uptime m |});;
        stop ← st_gets can_stop;
        can_do_callback (CAN_EVENT_DATAIN (if (stop : bool) then [m] else pend ++ [m]));;
        datain_loop msgs []
      else datain_loop msgs (pend ++ [m])
  end.

Definition can_do_datain (now : Z) (msgs : list CAN_MSG) : M unit :=
  stop ← st_gets can_stop;
  rawcnt ← (if (stop : bool) then mret 0 else can_putraw now msgs 0);
  st_when (0 <? rawcnt)
    (out (OutTimerStart CAN_BUS_TIMEOUT);;
     active ← st_gets can_active;
     st_when (negb active) (st_mod (fun s => {| s with can_active := true |});; can_do_callback CAN_EVENT_ACTIVE));;
  pend ← datain_loop msgs [];
  stop ← st_gets can_stop;
  if (stop : bool) then mret tt
  else
    match mem_get pend (len pend - 1) with
    | None => mret tt
    | Some m => st_mod (fun s => {| s with can_st_uptime := cm_uptime m |});; can_do_callback (CAN_EVENT_DATAIN pend)
    end.

(** [opened]: the channel can be opened; [msgs]: what is read, in whole messages. *)
Definition can_do_receive (opened : bool) (now : Z) (msgs : list CAN_MSG) : M unit :=
  fd ← st_gets can_canfd;
  match fd with
  | Some _ => match msgs with [] => mret tt | _ => can_do_datain now msgs end
  | None =>
      if (opened : bool) then
        st_mod (fun s => {| s with can_canfd := Some tt |});; out (OutTimerStart CAN_BUS_TIMEOUT);;
        match msgs with [] => mret tt | _ => can_do_datain now msgs end
      else mret tt
  end.

(** ** Baud rates *)

(** The message to the own thread, if the parameters are right. *)
Definition can_set_default_baud (port baud : Z) : M unit :=
  if (port <? 0) || (CAN_MAX_PORT <=? port) || (baud <? 0) then mret tt else out (OutSetDefaultBaud port baud).

Definition change_baud (i : Z) (b : Z) : M unit :=
  s ← st_get;
  d ← st_lift (mem_get (can_default_baud s) i);
  let v := if 0 <=? b then b else -1 in
  let w := if 0 <=? b then b else 0 in
  l ← st_lift (mem_set (can_baud s) i v);
  st_mod (fun s => {| s with can_baud := l |});;
  if d =? w then mret tt
  else
    l ← st_lift (mem_set (can_default_baud s) i w);
    st_mod (fun s => {| s with can_default_baud := l |});;
    can_set_default_baud i w.

Fixpoint change_bauds (i : Z) (l : list Z) : M unit :=
  match l with [] => mret tt | b :: l => change_baud i b;; change_bauds (i + 1) l end.

Definition can_do_change_dbc (env : DBC_ENV) (path : list Z) : M unit :=
  '(ret, baud) ← on_dbc (dbc_load_file env path (replicate 5 (-1)));
  if negb (ret =? 0) then mret tt else change_bauds 0 baud.

(** ** The thread *)

Definition can_msg_proc (m : CAN_THREAD_MSG) : M unit :=
  match m with
  | CAN_MSG_SYNC_BAUD l =>
      s ← st_get; if bool_decide (can_baud s = l) then mret tt else out (OutSyncBaud (can_baud s))
  | CAN_MSG_SYNC_DEFAULT_BAUD l =>
      s ← st_get; if bool_decide (can_default_baud s = l) then mret tt else out (OutSyncDefaultBaud (can_default_baud s))
  | CAN_MSG_SET_BAUD port baud =>
      s ← st_get; l ← st_lift (mem_set (can_baud s) port baud); st_mod (fun s => {| s with can_baud := l |})
  | CAN_MSG_SET_DEFAULT_BAUD port baud =>
      s ← st_get; l ← st_lift (mem_set (can_default_baud s) port baud);
      st_mod (fun s => {| s with can_default_baud := l |});; out (OutCfgDefaultBaud port baud)
  | PM_MSG_SLEEP | PM_MSG_EMERGENCY | PM_MSG_OFF => can_do_sleep
  | PM_MSG_RUNNING => can_do_wakeup
  | CAN_MSG_TIMEOUT => can_do_timeout
  | CAN_MSG_SETDBC env path => can_do_change_dbc env path
  | CAN_MSG_STAT => mret tt
  | CAN_MSG_STOP => st_mod (fun s => {| s with can_stop := true |})
  | CAN_MSG_RUN => st_mod (fun s => {| s with can_stop := false |})
  | MPU_MID_MID_PWDG => out OutFeed
  end.

(** The two halves of the body of the loop of [can_main]: a message of the pipe, and
    what the channel gives. *)
Inductive CAN_STEP :=
  | StepMsg (m : CAN_THREAD_MSG) | StepData (opened : bool) (now : Z) (msgs : list CAN_MSG).

Definition can_step (st : CAN_STEP) : M unit :=
  match st with
  | StepMsg m => can_msg_proc m
  | StepData opened now msgs =>
      sleep ← st_gets can_st_sleep;
      if (sleep : bool) then mret tt else can_do_receive opened now msgs
  end.

Fixpoint can_steps (l : list CAN_STEP) : M unit :=
  match l with [] => mret tt | st :: l => can_step st;; can_steps l end.

(** The rounds of the loop: a message, if [tcom_recv_msg] gives one, then data. *)
Definition round_steps (r : option CAN_THREAD_MSG * (bool * Z * list CAN_MSG)) : list CAN_STEP :=
  let '(m, (opened, now, msgs)) := r in
  match m with Some m => [StepMsg m] | None => [] end ++ [StepData opened now msgs].

Definition can_main (rounds : list (option CAN_THREAD_MSG * (bool * Z * list CAN_MSG))) : M unit :=
  can_steps (concat (map round_steps rounds)).

(** The messages that [can_do_dumpsta] lists for a port, from [pos] on, oldest first. *)
Fixpoint dump_loop (j : nat) (row : list CAN_MSG) (pos : Z) : option (list CAN_MSG) :=
  match j with
  | O => Some []
  | S j =>
      msg ← mem_get row pos;
      l ← dump_loop j row ((pos + 1) mod CAN_MAX_RAWSIZE);
      Some (if negb (Z.land (cm_MsgID msg) 0x7fffffff =? 0) then msg :: l else l)
  end.

Definition can_do_dumpsta (s : CAN) (i : Z) : option (list CAN_MSG) :=
  row ← mem_get (can_rawmsg s) i; pos ← mem_get (can_rawpos s) i; dump_loop 10 row pos.

(** ** Functions for the other threads *)

Definition can_init (dbc : DBC CB C) (defaults : list Z) : CAN := {|
  can_canfd := None; can_st_sleep := false; can_active := false; can_rawpos := replicate 5 0; can_rawmsg := rawmsg_zero;
  can_st_uptime := 0; can_stop := false; can_baud := replicate 5 (-1); can_default_baud := defaults; can_sleep := false;
  can_basetime := 0xffffffff; can_uptime := replicate 5 0; can_sum := 0; can_dbc := dbc; can_out := [] |}.

Definition can_sleep_handler (s : CAN) : bool := can_sleep s.
Definition can_get_baud (s : CAN) (port : Z) : option Z :=
  if (port <? 0) || (CAN_MAX_PORT <=? port) then Some (-1) else mem_get (can_baud s) port.
Definition can_get_uptime (s : CAN) (port : Z) : option Z :=
  if (port <? 0) || (CAN_MAX_PORT <=? port) then Some 0 else mem_get (can_uptime s) port.
Definition can_time_ready (s : CAN) : bool := negb (can_basetime s =? 0xffffffff).
Definition get_can2_config_baud (s : CAN) : option Z := mem_get (can_baud s) 1.
Definition can_baud_reset : M unit :=
  st_mod (fun s => {| s with can_default_baud := replicate 5 0; can_baud := replicate 5 (-1) |}).
(** The message to the thread, or [-1]. *)
Definition can_set_baud (port baud : Z) : option CAN_THREAD_MSG :=
  if (port <? 0) || (CAN_MAX_PORT <=? port) || (baud <? 0) then None else Some (CAN_MSG_SET_BAUD port baud).
(** The seconds for [localtime], or [None] for the time of the system. *)
Definition can_get_time (s : CAN) (uptime : Z) : option Z :=
  if can_basetime s =? 0xffffffff then None else Some (u32 (can_basetime s + uptime / 100)).

End can.
