(* ===== verification/CanBus.v ===== *)
(** * The thread of the CAN bus: theorems

    What the modules hear of the bus in all runs of the thread, and what becomes of
    the data that the channel gives: batches for the callbacks, the last ten messages
    of a port for the status, the values of the database. *)

From stdpp Require Import strings.
From S2P Require Import Md5 Prelude Cstd Dbc DbcBits DbcLoad DbcData Can.

Open Scope string_scope.
Open Scope list_scope.
Open Scope Z_scope.

(** ** The rings *)

Definition lastn {A} (n : nat) (l : list A) : list A := drop (length l - n) l.

Lemma lastn_lastn {A} n (l k : list A) : lastn n (lastn n l ++ k) = lastn n (l ++ k).
Proof.
  unfold lastn. destruct (decide (length l <= n)%nat).
  - by replace (length l - n)%nat with 0%nat by lia.
  - rewrite length_app, length_drop, length_app.
    rewrite <- (drop_app_le l k (length l - n)) by lia. rewrite drop_drop. f_equal. lia.
Qed.

(** A ring from its position on, the oldest first. *)
Definition ring_view {A} (row : list A) (pos : Z) : list A := drop (Z.to_nat pos) row ++ take (Z.to_nat pos) row.

Ltac ten_cases pos H :=
  let E := fresh in
  assert (pos = 0 \/ pos = 1 \/ pos = 2 \/ pos = 3 \/ pos = 4 \/ pos = 5 \/ pos = 6 \/ pos = 7 \/ pos = 8 \/ pos = 9) as E by (clear -H; lia);
  clear H; repeat (destruct E as [-> | E]; [reflexivity |]); subst pos; reflexivity.

Lemma ten_entries {A} (row : list A) : len row = 10 -> exists a b c d e f g h i j, row = [a; b; c; d; e; f; g; h; i; j].
Proof.
  intros H. unfold len in H. do 10 (destruct row as [|? row]; [cbn in H; lia |]).
  destruct row; [by repeat eexists | cbn in H; lia].
Qed.

Lemma ring_put {A} (row : list A) pos m : len row = 10 -> 0 <= pos < 10 ->
  ring_view (<[Z.to_nat pos := m]> row) ((pos + 1) mod CAN_MAX_RAWSIZE) = lastn 10 (ring_view row pos ++ [m]).
Proof. intros (a & b & c & d & e & f & g & h & i & j & ->)%ten_entries H. ten_cases pos H. Qed.

Fixpoint ring_reads {A} (j : nat) (row : list A) (pos : Z) : option (list A) :=
  match j with
  | O => Some []
  | S j => m ← mem_get row pos; l ← ring_reads j row ((pos + 1) mod CAN_MAX_RAWSIZE); Some (m :: l)
  end.

Lemma ring_reads_view {A} (row : list A) pos : len row = 10 -> 0 <= pos < 10 -> ring_reads 10 row pos = Some (ring_view row pos).
Proof. intros (a & b & c & d & e & f & g & h & i & j & ->)%ten_entries H. ten_cases pos H. Qed.

(** The messages that the status lists. *)
Definition listed (m : CAN_MSG) : bool := negb (Z.land (cm_MsgID m) 0x7fffffff =? 0).

Lemma dump_reads j row : forall pos, dump_loop j row pos = List.filter listed <$> ring_reads j row pos.
Proof.
  induction j as [|j IH]; intros pos; cbn [dump_loop ring_reads]; [done |]. destruct (mem_get row pos) as [m|]; [| done].
  cbn [mbind option_bind]. rewrite IH. by destruct (ring_reads j row _).
Qed.

(** ** Batches *)

Definition is_T (m : CAN_MSG) : bool := cm_type m =? 84.

(** A data message of a port that exists. *)
Definition is_data (m : CAN_MSG) : bool := (cm_type m =? 67) && (1 <=? cm_port m) && (cm_port m <=? CAN_MAX_PORT).

Fixpoint cut_at_T (msgs pend : list CAN_MSG) : list (list CAN_MSG) * list CAN_MSG :=
  match msgs with
  | [] => ([], pend)
  | m :: msgs =>
      if is_T m then let '(b, rest) := cut_at_T msgs [] in ((pend ++ [m]) :: b, rest) else cut_at_T msgs (pend ++ [m])
  end.

Lemma cut_concat msgs : forall pend, concat (cut_at_T msgs pend).1 ++ (cut_at_T msgs pend).2 = pend ++ msgs.
Proof.
  induction msgs as [|m msgs IH]; intros pend; cbn [cut_at_T]; [by rewrite app_nil_r |].
  destruct (is_T m).
  - specialize (IH []). destruct (cut_at_T msgs []) as [b rest]. cbn [fst snd concat] in *. by rewrite <- !app_assoc, IH.
  - by rewrite IH, <- app_assoc.
Qed.

(** A batch has one message of the time, its last, or none. *)
Definition closed (b : list CAN_MSG) : Prop := exists l m, b = l ++ [m] /\ is_T m = true /\ Forall (fun m => is_T m = false) l.

Lemma cut_closed msgs : forall pend, Forall (fun m => is_T m = false) pend ->
  Forall closed (cut_at_T msgs pend).1 /\ Forall (fun m => is_T m = false) (cut_at_T msgs pend).2.
Proof.
  induction msgs as [|m msgs IH]; intros pend Hp; cbn [cut_at_T]; [by split |]. destruct (is_T m) eqn:Em.
  - destruct (IH [] (List.Forall_nil _)) as [H1 H2]. destruct (cut_at_T msgs []) as [b rest]. cbn [fst snd] in *.
    split; [| done]. apply Forall_cons_2; [by exists pend, m | done].
  - apply IH. apply Forall_app_2; [done | by apply Forall_singleton].
Qed.

(** ** The trace *)

(** What a module hears, and the timer: asleep, active, timer started.  [None] is a
    trace that must not be. *)
Definition BUS : Type := bool * bool * bool.

Definition bus_step (b : option BUS) (o : CAN_OUT) : option BUS :=
  '(asleep, active, armed) ← b;
  match o with
  | OutTimerStart _ => if (asleep : bool) then None else Some (asleep, active, true)
  | OutTimerStop => if (asleep : bool) then None else Some (asleep, active, false)
  | OutEvent CAN_EVENT_ACTIVE => if negb asleep && negb active && armed then Some (asleep, true, armed) else None
  | OutEvent (CAN_EVENT_DATAIN msgs) => match msgs with [] => None | _ => if (asleep : bool) then None else b end
  | OutEvent (CAN_EVENT_TIMEOUT _) => if (asleep : bool) then None else Some (asleep, false, false)
  | OutEvent CAN_EVENT_SLEEP => if (asleep : bool) then None else Some (true, false, armed)
  | OutEvent CAN_EVENT_WAKEUP => if (asleep : bool) then Some (false, false, armed) else None
  | OutClose => if (asleep : bool) then None else b
  | _ => b
  end.

Definition bus_trace (l : list CAN_OUT) : option BUS := fold_left bus_step l (Some (false, false, false)).

Lemma bus_trace_app l k : bus_trace (l ++ k) = fold_left bus_step k (bus_trace l).
Proof. apply fold_left_app. Qed.

#[local] Arguments bus_trace : simpl never.

Lemma bus_batches bs active armed : Forall (fun b => b <> []) bs ->
  fold_left bus_step (map (fun b => OutEvent (CAN_EVENT_DATAIN b)) bs) (Some (false, active, armed)) = Some (false, active, armed).
Proof. induction 1 as [|b bs Hb _ IH]; [done |]. destruct b; [done |]. exact IH. Qed.

Section bus.
Context {CB C : Type} {client : DbcClient CB C} {law : DbcClientOk CB C}.
Abbreviation CAN := (CAN CB C).
Abbreviation M := (ST CAN).

Record rings_ok (rows : list (list CAN_MSG)) (poss upts : list Z) : Prop := {
  ro_rows : len rows = 5;
  ro_ten : Forall (fun row => len row = 10) rows;
  ro_poss : len poss = 5;
  ro_range : Forall (fun p => 0 <= p < 10) poss;
  ro_upts : len upts = 5
}.

Definition ring_of (rows : list (list CAN_MSG)) (poss : list Z) (p : Z) : option (list CAN_MSG) :=
  row ← mem_get rows p; pos ← mem_get poss p; Some (ring_view row pos).

Lemma rings_get rows poss upts p : rings_ok rows poss upts -> 0 <= p < 5 -> exists row pos,
  mem_get rows p = Some row /\ mem_get poss p = Some pos /\ len row = 10 /\ 0 <= pos < 10.
Proof using.
  intros [H1 H2 H3 H4 _] Hp. destruct (mem_get_is_Some rows p) as [row Er]; [lia |].
  destruct (mem_get_is_Some poss p) as [pos Ep]; [lia |]. exists row, pos. split; [done |]. split; [done |].
  apply mem_get_Some in Er as [_ Er], Ep as [_ Ep].
  split; [exact (Forall_lookup_1 _ _ _ _ H2 Er) | exact (Forall_lookup_1 _ _ _ _ H4 Ep)].
Qed.

Lemma mem_get_insert {A} (l : list A) i j x : 0 <= i < len l -> 0 <= j ->
  mem_get (<[Z.to_nat i := x]> l) j = if i =? j then Some x else mem_get l j.
Proof using.
  intros Hi Hj. rewrite !mem_get_lookup by lia. destruct (Z.eqb_spec i j) as [-> | Hn].
  - apply list_lookup_insert_eq. unfold len in Hi. lia.
  - apply list_lookup_insert_ne. lia.
Qed.

Definition for_port (p : Z) (m : CAN_MSG) : bool := is_data m && (RPORT (cm_port m) =? p).

(** The rest of the state does not change in [can_putraw]. *)
Definition raw_state (s : CAN) rows poss upts sum : CAN :=
  {| s with can_rawmsg := rows; can_rawpos := poss; can_uptime := upts; can_sum := sum |}.

Lemma ring_view_len {A} (row : list A) pos : len row = 10 -> 0 <= pos < 10 -> length (ring_view row pos) = 10%nat.
Proof using. intros H Hp. unfold ring_view, len in *. rewrite length_app, length_drop, length_take. lia. Qed.

Lemma putraw_one_ok now msg c (s : CAN) : rings_ok (can_rawmsg s) (can_rawpos s) (can_uptime s) ->
  wp (putraw_one now msg c) (fun c' s' => c' = c + Z.b2z (is_data msg) /\ exists rows poss upts sum,
    s' = raw_state s rows poss upts sum /\ rings_ok rows poss upts /\
    forall p, 0 <= p < 5 -> exists v, ring_of (can_rawmsg s) (can_rawpos s) p = Some v /\ length v = 10%nat /\
      ring_of rows poss p = Some (lastn 10 (v ++ List.filter (for_port p) [msg]))) s.
Proof using.
  intros Ok. unfold putraw_one.
  assert (is_data msg = false -> wp (mret c : M Z) (fun c' s' => c' = c + Z.b2z (is_data msg) /\ exists rows poss upts sum,
    s' = raw_state s rows poss upts sum /\ rings_ok rows poss upts /\
    forall p, 0 <= p < 5 -> exists v, ring_of (can_rawmsg s) (can_rawpos s) p = Some v /\ length v = 10%nat /\
      ring_of rows poss p = Some (lastn 10 (v ++ List.filter (for_port p) [msg]))) s) as Skip.
  { intros E. apply wp_ret. rewrite E. split; [cbn; lia |]. exists (can_rawmsg s), (can_rawpos s), (can_uptime s), (can_sum s).
    split; [by destruct s |]. split; [done |]. intros p Hp. destruct (rings_get _ _ _ p Ok Hp) as (row & pos & Er & Ep & Hl & Hr).
    unfold ring_of. rewrite Er, Ep. cbn [mbind option_bind]. eexists. split; [reflexivity |].
    pose proof (ring_view_len _ _ Hl Hr) as Hv. split; [done |]. cbn [List.filter]. unfold for_port. rewrite E. cbn [andb].
    rewrite app_nil_r. unfold lastn. by rewrite Hv. }
  destruct (cm_type msg =? 67) eqn:Et; cbn [negb]; [| apply Skip; unfold is_data; by rewrite Et].
  destruct ((cm_port msg <? 1) || (CAN_MAX_PORT <? cm_port msg)) eqn:Ep.
  { apply Skip. unfold is_data. rewrite Et. unfold CAN_MAX_PORT in *. cbn [andb]. lia. }
  assert (is_data msg = true) as Ed by (unfold is_data; rewrite Et; unfold CAN_MAX_PORT in *; cbn [andb]; lia).
  set (q := RPORT (cm_port msg)). assert (0 <= q < 5) as Hq by (subst q; unfold RPORT, CAN_MAX_PORT in *; lia).
  cbv zeta. apply wp_get. destruct (rings_get _ _ _ q Ok Hq) as (row & pos & Er & Epos & Hl & Hr).
  destruct Ok as [H1 H2 H3 H4 H5] eqn:EOk.
  eapply wp_lift; [exact Er |]. eapply wp_lift; [exact Epos |].
  eapply wp_lift; [apply mem_set_ok; lia |]. eapply wp_lift; [apply mem_set_ok; lia |].
  eapply wp_lift; [apply mem_set_ok; lia |]. eapply wp_lift; [apply mem_set_ok; lia |].
  apply wp_mod, wp_ret. rewrite Ed. split; [done |]. do 4 eexists. split; [reflexivity |]. split.
  { split; rewrite ?len_insert; try done; apply Forall_insert; try done; [by rewrite len_insert | by apply Z.mod_pos_bound]. }
  intros p Hp. destruct (rings_get _ _ _ p Ok Hp) as (row' & pos' & Er' & Ep' & Hl' & Hr').
  unfold ring_of. rewrite Er', Ep', !mem_get_insert by lia. cbn [mbind option_bind]. eexists. split; [reflexivity |].
  split; [by apply ring_view_len |]. cbn [List.filter]. unfold for_port. rewrite Ed. fold q. destruct (Z.eqb_spec q p) as [-> | Hn]; cbn [andb mbind option_bind].
  - rewrite Er in Er'. rewrite Epos in Ep'. injection Er' as <-. injection Ep' as <-. f_equal. by apply ring_put.
  - rewrite Er', Ep'. cbn [mbind option_bind]. rewrite app_nil_r. unfold lastn. by rewrite ring_view_len.
Qed.

(** The rings of a state after the data [msgs] came. *)
Definition rings_after (s : CAN) (msgs : list CAN_MSG) (s' : CAN) : Prop := exists rows poss upts sum,
  s' = raw_state s rows poss upts sum /\ rings_ok rows poss upts /\
  forall p, 0 <= p < 5 -> exists v, ring_of (can_rawmsg s) (can_rawpos s) p = Some v /\ length v = 10%nat /\
    ring_of rows poss p = Some (lastn 10 (v ++ List.filter (for_port p) msgs)).

Lemma rings_after_nil (s : CAN) : rings_ok (can_rawmsg s) (can_rawpos s) (can_uptime s) -> rings_after s [] s.
Proof using.
  intros Ok. exists (can_rawmsg s), (can_rawpos s), (can_uptime s), (can_sum s). split; [by destruct s |]. split; [done |].
  intros p Hp. destruct (rings_get _ _ _ p Ok Hp) as (row & pos & Er & Ep & Hl & Hr). unfold ring_of. rewrite Er, Ep.
  cbn [mbind option_bind]. eexists. split; [reflexivity |]. pose proof (ring_view_len _ _ Hl Hr) as Hv. split; [done |].
  cbn [List.filter]. rewrite app_nil_r. unfold lastn. by rewrite Hv.
Qed.

Lemma rings_after_app (s : CAN) l s1 k s2 : rings_after s l s1 -> rings_after s1 k s2 -> rings_after s (l ++ k) s2.
Proof using.
  intros (rows & poss & upts & sum & -> & Ok & H) (rows2 & poss2 & upts2 & sum2 & -> & Ok2 & H2).
  exists rows2, poss2, upts2, sum2. split; [done |]. split; [done |]. intros p Hp. destruct (H p Hp) as (v & E1 & Hv & E2).
  destruct (H2 p Hp) as (v2 & E3 & _ & E4). cbn [raw_state can_rawmsg can_rawpos] in E3. rewrite E2 in E3. injection E3 as <-.
  exists v. split; [done |]. split; [done |]. by rewrite E4, lastn_lastn, List.filter_app, app_assoc.
Qed.

Lemma rings_after_ok (s : CAN) l s' : rings_after s l s' -> rings_ok (can_rawmsg s') (can_rawpos s') (can_uptime s').
Proof using. by intros (? & ? & ? & ? & -> & Ok & _). Qed.

Definition data_count (msgs : list CAN_MSG) : Z := len (List.filter is_data msgs).

Lemma putraw_ok now msgs : forall c (s : CAN), rings_ok (can_rawmsg s) (can_rawpos s) (can_uptime s) ->
  wp (can_putraw now msgs c) (fun c' s' => c' = c + data_count msgs /\ rings_after s msgs s') s.
Proof using.
  induction msgs as [|m msgs IH]; intros c s Ok; cbn [can_putraw].
  - apply wp_ret. split; [unfold data_count, len; cbn [List.filter length Z.of_nat]; lia | by apply rings_after_nil].
  - eapply wp_seq; [by apply putraw_one_ok |]. intros c1 s1 [-> H1]. eapply wp_mono; [apply IH, (rings_after_ok s [m] s1 H1) |].
    intros c2 s2 [-> H2]. split; [| exact (rings_after_app s [m] s1 msgs s2 H1 H2)].
    unfold data_count. cbn [List.filter]. destruct (is_data m); cbn [Z.b2z]; autorewrite with len; lia.
Qed.

(** ** The database *)

(** The database in use is [o] up to flags; no signal has 64 bits. *)
Definition bus_db (o : option dbc_data_t) (d : DBC CB C) : Prop :=
  match o with Some db => at_db db d | None => dbc_ok d /\ db_view d = None end.

Definition ref_db (o : option dbc_data_t) (ev : CAN_EVENT) : option dbc_data_t :=
  match o with Some db => Some (ref_event db ev) | None => None end.

Lemma bus_db_ok o d : bus_db o d -> dbc_ok d.
Proof using. destruct o; intros H; apply H. Qed.

Lemma bus_callback ev o d : ev_ok ev -> bus_db o d -> wp (dbc_can_callback ev) (fun _ => bus_db (ref_db o ev)) d.
Proof using law.
  intros He B. destruct o as [db|]; [by apply can_callback_ok |]. destruct B as [Ok Ev].
  unfold dbc_can_callback. apply wp_gets. unfold db_view in Ev. destruct (dbc_data d) as [p|] eqn:Ed; [| apply wp_ret; split; [done |]; unfold db_view; by rewrite Ed].
  exfalso. cbn [mbind option_bind] in Ev. pose proof (ok_data _ Ok) as Hd. rewrite Ed in Hd. pose proof (ok_mem _ Ok).
  destruct (mem_get_is_Some (dbc_mem d) p) as [x Ex]; [lia | congruence].
Qed.

Definition with_event (s : CAN) (d : DBC CB C) (evs : list CAN_EVENT) : CAN :=
  {| s with can_dbc := d; can_out := can_out s ++ map OutEvent evs |}.

Lemma on_dbc_ok {A} (m : ST (DBC CB C) A) Q (s : CAN) : wp m Q (can_dbc s) ->
  wp (on_dbc m) (fun a s' => exists d, Q a d /\ s' = {| s with can_dbc := d |}) s.
Proof using.
  intros (a & d & E & H)%wp_elim. unfold on_dbc. apply wp_get. eapply wp_lift; [exact E |]. cbv beta iota zeta.
  apply wp_mod, wp_ret. by exists d.
Qed.

Lemma do_callback_ok ev o (s : CAN) : ev_ok ev -> bus_db o (can_dbc s) ->
  wp (can_do_callback ev) (fun _ s' => exists d, bus_db (ref_db o ev) d /\ s' = with_event s d [ev]) s.
Proof using law.
  intros He B. unfold can_do_callback. eapply wp_seq; [by apply on_dbc_ok, bus_callback |]. intros ? s1 (d & Bd & ->).
  unfold wp, out, st_mod. by exists d.
Qed.

(** ** The batches *)

Definition batches (stop : bool) (msgs : list CAN_MSG) : list (list CAN_MSG) :=
  if stop then map (fun m => [m]) (List.filter is_T msgs) else (cut_at_T msgs []).1.

Definition base_after (msgs : list CAN_MSG) (b : Z) : Z := fold_left (fun b m => if is_T m then data32_0 m else b) msgs b.

Definition datain (bs : list (list CAN_MSG)) : list CAN_EVENT := map CAN_EVENT_DATAIN bs.

Definition with_time (s : CAN) (base upt : Z) : CAN := {| s with can_basetime := base; can_st_uptime := upt |}.

Lemma with_later (s : CAN) b u d1 e1 d2 e2 b2 u2 :
  with_time (with_event (with_event (with_time s b u) d1 e1) d2 e2) b2 u2 = with_time (with_event s d2 (e1 ++ e2)) b2 u2.
Proof using. unfold with_time, with_event. cbn. by rewrite map_app, app_assoc. Qed.

(** What [datain_loop] and the rest of [can_do_datain] change. *)
Definition heard (o : option dbc_data_t) (s : CAN) (bs : list (list CAN_MSG)) (base : Z) (s' : CAN) : Prop := exists d upt,
  bus_db (fold_left ref_db (datain bs) o) d /\
  s' = with_time (with_event s d (datain bs)) base upt.

Lemma cut_ok msgs : forall pend, Forall msg_ok pend -> Forall msg_ok msgs ->
  Forall (Forall msg_ok) (cut_at_T msgs pend).1 /\ Forall msg_ok (cut_at_T msgs pend).2.
Proof using.
  intros pend Hp Hm. pose proof (cut_concat msgs pend) as E.
  assert (Forall msg_ok (concat (cut_at_T msgs pend).1 ++ (cut_at_T msgs pend).2)) as H by (rewrite E; by apply Forall_app_2).
  apply Forall_app in H as [H1 H2]. split; [by apply List.Forall_concat | done].
Qed.

Lemma datain_loop_ok msgs : forall pend o (s : CAN), Forall msg_ok pend -> Forall msg_ok msgs -> bus_db o (can_dbc s) ->
  wp (datain_loop msgs pend)
    (fun rest s' => rest = (cut_at_T msgs pend).2 /\
       heard o s (if can_stop s then map (fun m => [m]) (List.filter is_T msgs) else (cut_at_T msgs pend).1)
         (base_after msgs (can_basetime s)) s') s.
Proof using law.
  induction msgs as [|m msgs IH]; intros pend o s Hp Hm B.
  - apply wp_ret. split; [done |]. exists (can_dbc s), (can_st_uptime s). cbn [datain_loop cut_at_T List.filter map fst].
    replace (if can_stop s then [] else []) with (@nil (list CAN_MSG)) by (by destruct (can_stop s)). split; [done |].
    unfold with_time, with_event. cbn [datain map]. rewrite app_nil_r. by destruct s.
  - apply Forall_cons_1 in Hm as [Hm1 Hm]. cbn [datain_loop]. change (cm_type m =? 84) with (is_T m).
    cbn [cut_at_T List.filter base_after fold_left].
    destruct (is_T m); [| apply IH; [apply Forall_app_2; [done | by apply Forall_singleton] | done | done]].
    apply wp_mod. apply wp_gets. change (can_stop _) with (can_stop s).
    lazymatch goal with |- wp _ _ ?x => change x with (with_time s (data32_0 m) (cm_uptime m)) end.
    set (b := if can_stop s then [m] else pend ++ [m]).
    eapply wp_seq; [apply (do_callback_ok _ o) |].
    { subst b. cbn [ev_ok]. destruct (can_stop s); [by apply Forall_singleton |]. apply Forall_app_2; [done | by apply Forall_singleton]. }
    { done. }
    intros ? s2 (d & Bd & ->). eapply wp_mono; [apply (IH [] (ref_db o (CAN_EVENT_DATAIN b))); [constructor | done | exact Bd] |].
    intros rest s3 (-> & d' & upt & Bd' & ->). destruct (cut_at_T msgs []) as [bs rest] eqn:Ec.
    split; [done |]. exists d', upt. rewrite with_later. subst b. cbn [with_event with_time can_stop can_basetime fst] in *.
    by destruct (can_stop s).
Qed.

(** All batches of a reading: cut after the messages of the time; only these if stopped. *)
Definition batches_of (stop : bool) (msgs : list CAN_MSG) : list (list CAN_MSG) :=
  if stop then map (fun m => [m]) (List.filter is_T msgs)
  else (cut_at_T msgs []).1 ++ match (cut_at_T msgs []).2 with [] => [] | rest => [rest] end.

Definition data_start (s : CAN) (msgs : list CAN_MSG) : list CAN_OUT :=
  if negb (can_stop s) && (0 <? data_count msgs)
  then OutTimerStart CAN_BUS_TIMEOUT :: (if can_active s then [] else [OutEvent CAN_EVENT_ACTIVE]) else [].

(** The parts that a reading leaves alone. *)
Definition settings (s : CAN) := (can_canfd s, can_st_sleep s, can_stop s, can_baud s, can_default_baud s, can_sleep s).

Record data_in (o : option dbc_data_t) (s : CAN) (msgs : list CAN_MSG) (s' : CAN) : Prop := {
  di_out : can_out s' = can_out s ++ data_start s msgs ++ map OutEvent (datain (batches_of (can_stop s) msgs));
  di_db : bus_db (fold_left ref_db (datain (batches_of (can_stop s) msgs)) o) (can_dbc s');
  di_base : can_basetime s' = base_after msgs (can_basetime s);
  di_active : can_active s' = can_active s || (negb (can_stop s) && (0 <? data_count msgs));
  di_rings : rings_ok (can_rawmsg s') (can_rawpos s') (can_uptime s');
  di_view p : 0 <= p < 5 -> exists v, ring_of (can_rawmsg s) (can_rawpos s) p = Some v /\ length v = 10%nat /\
    ring_of (can_rawmsg s') (can_rawpos s') p =
      Some (lastn 10 (v ++ (if can_stop s then [] else List.filter (for_port p) msgs)));
  di_rest : settings s' = settings s
}.

Lemma ref_db_active o : ref_db o CAN_EVENT_ACTIVE = o.
Proof using. by destruct o. Qed.

(** The announcement that the bus is active. *)
Lemma activity_ok (s : CAN) b o : bus_db o (can_dbc s) ->
  wp (st_when b
       (out (OutTimerStart CAN_BUS_TIMEOUT);; active ← st_gets can_active;
        st_when (negb active) (st_mod (fun s => {| s with can_active := true |});; can_do_callback CAN_EVENT_ACTIVE)) : M unit)
    (fun _ s' => exists d, bus_db o d /\ s' = {| s with can_active := can_active s || b; can_dbc := d;
       can_out := can_out s ++ if b then OutTimerStart CAN_BUS_TIMEOUT :: (if can_active s then [] else [OutEvent CAN_EVENT_ACTIVE]) else [] |}) s.
Proof using law.
  intros B. destruct b; cbn [st_when].
  - unfold out. apply wp_mod, wp_gets. cbn [can_active]. destruct (can_active s) eqn:Ea; cbn [negb st_when].
    + apply wp_ret. exists (can_dbc s). split; [done |]. destruct s; cbn in *; by subst.
    + apply wp_mod. eapply wp_mono; [by apply (do_callback_ok _ o) |]. intros ? s1 (d & Bd & ->).
      exists d. split; [by rewrite ref_db_active in Bd |]. unfold with_event. cbn. by rewrite <- app_assoc.
  - apply wp_ret. exists (can_dbc s). split; [done |]. rewrite app_nil_r, orb_false_r. by destruct s.
Qed.

(** The messages after the last of the time. *)
Lemma rest_ok pend o (s : CAN) : Forall msg_ok pend -> bus_db o (can_dbc s) ->
  wp (stop ← st_gets can_stop;
      if (stop : bool) then mret tt
      else match mem_get pend (len pend - 1) with
           | None => mret tt
           | Some m => st_mod (fun s => {| s with can_st_uptime := cm_uptime m |});; can_do_callback (CAN_EVENT_DATAIN pend)
           end : M unit)
    (fun _ => heard o s (if can_stop s then [] else match pend with [] => [] | _ => [pend] end) (can_basetime s)) s.
Proof using law.
  intros Hp B. apply wp_gets.
  assert (wp (mret tt : M unit) (fun _ => heard o s [] (can_basetime s)) s) as Skip.
  { apply wp_ret. exists (can_dbc s), (can_st_uptime s). split; [done |]. unfold with_time, with_event. cbn [datain map].
    rewrite app_nil_r. by destruct s. }
  destruct (can_stop s); [exact Skip |]. destruct pend as [|m pend]; [exact Skip |].
  destruct (mem_get_is_Some (m :: pend) (len (m :: pend) - 1)) as [x ->]; [unfold len; cbn [length]; lia |].
  apply wp_mod. eapply wp_mono; [by apply (do_callback_ok (CAN_EVENT_DATAIN (m :: pend)) o) |].
  intros ? s1 (d & Bd & ->). by exists d, (cm_uptime x).
Qed.

Lemma batches_split stop msgs : datain (batches_of stop msgs) =
  datain (if stop then map (fun m => [m]) (List.filter is_T msgs) else (cut_at_T msgs []).1) ++
  datain (if stop then [] else match (cut_at_T msgs []).2 with [] => [] | _ => [(cut_at_T msgs []).2] end).
Proof using.
  unfold batches_of, datain. rewrite <- map_app. f_equal. destruct stop; [by rewrite app_nil_r |].
  f_equal. by destruct (cut_at_T msgs []).2.
Qed.

Lemma do_datain_ok now msgs o (s : CAN) : rings_ok (can_rawmsg s) (can_rawpos s) (can_uptime s) -> Forall msg_ok msgs ->
  bus_db o (can_dbc s) -> wp (can_do_datain now msgs) (fun _ => data_in o s msgs) s.
Proof using law.
  intros Ok Hm B. unfold can_do_datain. apply wp_gets.
  assert (wp (if can_stop s then mret 0 else can_putraw now msgs 0 : M Z)
    (fun c s' => (0 <? c) = negb (can_stop s) && (0 <? data_count msgs) /\
       rings_after s (if can_stop s then [] else msgs) s') s) as Put.
  { destruct (can_stop s); [apply wp_ret; split; [done | by apply rings_after_nil] |].
    eapply wp_mono; [by apply putraw_ok |]. intros c s' [-> H]. by split. }
  eapply wp_seq; [exact Put |]. intros c s1 [Ec (rows & poss & upts & sum & E1 & Ok1 & Hv)]. rewrite Ec.
  assert (can_dbc s1 = can_dbc s /\ can_out s1 = can_out s /\ can_active s1 = can_active s /\ can_stop s1 = can_stop s) as (F1 & F2 & F3 & F4)
    by (by rewrite E1).
  eapply wp_seq; [apply (activity_ok _ _ o); by rewrite F1 |]. intros ? s2 (d2 & B2 & E2).
  assert (can_dbc s2 = d2 /\ can_stop s2 = can_stop s /\ can_basetime s2 = can_basetime s) as (G1 & G2 & G3)
    by (rewrite E2; cbn [can_dbc can_stop can_basetime]; by rewrite E1).
  eapply wp_seq; [apply (datain_loop_ok msgs [] o); [constructor | done | by rewrite G1] |].
  intros rest s3 (-> & d3 & upt3 & B3 & E3). rewrite G2 in B3. rewrite G2, G3 in E3.
  assert (can_dbc s3 = d3 /\ can_stop s3 = can_stop s /\ can_basetime s3 = base_after msgs (can_basetime s)) as (H1 & H2 & H3)
    by (rewrite E3; by split).
  eapply wp_mono; [apply rest_ok; [apply cut_ok; [constructor | done] | rewrite H1; exact B3] |].
  intros ? s4 (d4 & upt4 & B4 & E4). rewrite H2 in B4. rewrite H2, H3 in E4.
  pose proof (batches_split (can_stop s) msgs) as Eb.
  assert (can_rawmsg s4 = rows /\ can_rawpos s4 = poss /\ can_uptime s4 = upts) as (R1 & R2 & R3).
  { rewrite E4. cbn [with_time with_event can_rawmsg can_rawpos can_uptime]. rewrite E3.
    cbn [with_time with_event can_rawmsg can_rawpos can_uptime]. rewrite E2. cbn [can_rawmsg can_rawpos can_uptime]. by rewrite E1. }
  split.
  - rewrite E4. cbn [with_time with_event can_out]. rewrite E3. cbn [with_time with_event can_out]. rewrite E2. cbn [can_out].
    rewrite F2, F3. unfold data_start. by rewrite Eb, map_app, <- !app_assoc.
  - rewrite E4. cbn [with_time with_event can_dbc]. by rewrite Eb, fold_left_app.
  - by rewrite E4.
  - rewrite E4. cbn [with_time with_event can_active]. rewrite E3. cbn [with_time with_event can_active]. rewrite E2. cbn [can_active]. by rewrite F3.
  - by rewrite R1, R2, R3.
  - intros p Hp. destruct (Hv p Hp) as (v & D1 & D2 & D3). exists v. split; [done |]. split; [done |].
    rewrite R1, R2, D3. by destruct (can_stop s).
  - unfold settings. rewrite E4. cbn [with_time with_event can_canfd can_st_sleep can_stop can_baud can_default_baud can_sleep]. rewrite E3.
    cbn [with_time with_event can_canfd can_st_sleep can_stop can_baud can_default_baud can_sleep]. rewrite E2.
    cbn [can_canfd can_st_sleep can_stop can_baud can_default_baud can_sleep]. by rewrite E1.
Qed.

(** ** The thread *)

Record thread_ok (s : CAN) : Prop := {
  th_rings : rings_ok (can_rawmsg s) (can_rawpos s) (can_uptime s);
  th_baud : len (can_baud s) = CAN_MAX_PORT;
  th_default : len (can_default_baud s) = CAN_MAX_PORT;
  th_sleep : can_sleep s = can_st_sleep s;
  th_idle : can_st_sleep s = true -> can_active s = false;
  th_trace : exists armed, bus_trace (can_out s) = Some (can_st_sleep s, can_active s, armed) /\ (can_active s = true -> armed = true);
  th_dbc : dbc_ok (can_dbc s)
}.

Definition silent (o : CAN_OUT) : bool :=
  match o with OutFeed | OutSyncBaud _ | OutSyncDefaultBaud _ | OutCfgDefaultBaud _ _ | OutSetDefaultBaud _ _ => true | _ => false end.

Lemma silent_trace l : forallb silent l = true -> forall b, fold_left bus_step l b = b.
Proof using.
  induction l as [|o l IH]; intros H b; [done |]. cbn [forallb] in H. apply andb_prop in H as [Ho Hl].
  cbn [fold_left]. rewrite <- (IH Hl b) at 2. f_equal. destruct b as [[[] ?]|]; destruct o; done.
Qed.

(** A step that no module hears. *)
Record calm (s s' : CAN) : Prop := {
  ca_same : (can_st_sleep s', can_active s', can_sleep s', can_rawpos s', can_uptime s') =
            (can_st_sleep s, can_active s, can_sleep s, can_rawpos s, can_uptime s);
  ca_raw : can_rawmsg s' = can_rawmsg s;
  ca_baud : len (can_baud s') = len (can_baud s) /\ len (can_default_baud s') = len (can_default_baud s);
  ca_out : exists l, can_out s' = can_out s ++ l /\ forallb silent l = true;
  ca_dbc : dbc_ok (can_dbc s')
}.

Lemma calm_trans s s1 s2 : calm s s1 -> calm s1 s2 -> calm s s2.
Proof using.
  intros [E1 R1 [B1 D1] (l1 & O1 & S1) _] [E2 R2 [B2 D2] (l2 & O2 & S2) ?]. split; [congruence | congruence | split; congruence | | done].
  exists (l1 ++ l2). split; [by rewrite O2, O1, app_assoc |]. by rewrite forallb_app, S1.
Qed.

Lemma calm_refl s : dbc_ok (can_dbc s) -> calm s s.
Proof using. split; try done. exists []. by rewrite app_nil_r. Qed.

Lemma calm_ok s s' : thread_ok s -> calm s s' -> thread_ok s'.
Proof using.
  intros [] [E R [B D] (l & O & S) Ok]. injection E as E1 E2 E3 E4 E5. split; rewrite ?R, ?E1, ?E2, ?E3, ?E4, ?E5, ?B, ?D; try done.
  rewrite O, bus_trace_app, silent_trace; done.
Qed.

Lemma out_calm o s : silent o = true -> dbc_ok (can_dbc s) -> wp (out o : M unit) (fun _ => calm s) s.
Proof using. intros Ho Ok. unfold wp, out, st_mod. split; try done. exists [o]. cbn [forallb]. by rewrite Ho. Qed.

Lemma bind_calm {A B} (m : ST CAN A) (k : A -> ST CAN B) s : wp m (fun _ => calm s) s ->
  (forall a s1, calm s s1 -> wp (k a) (fun _ => calm s1) s1) -> wp (m ≫= k) (fun _ => calm s) s.
Proof using.
  intros Hm Hk. eapply wp_seq; [exact Hm |]. intros a s1 C1. eapply wp_mono; [by apply Hk |].
  intros ? s2 C2. exact (calm_trans _ _ _ C1 C2).
Qed.

Lemma set_baud_calm s l : len l = len (can_baud s) -> dbc_ok (can_dbc s) -> calm s {| s with can_baud := l |}.
Proof using. split; try done. exists []. by rewrite app_nil_r. Qed.

Lemma set_default_calm s l : len l = len (can_default_baud s) -> dbc_ok (can_dbc s) -> calm s {| s with can_default_baud := l |}.
Proof using. split; try done. exists []. by rewrite app_nil_r. Qed.

Lemma default_baud_calm port baud s : dbc_ok (can_dbc s) -> wp (can_set_default_baud port baud : M unit) (fun _ => calm s) s.
Proof using. intros Ok. unfold can_set_default_baud. destruct (_ || _); [by apply wp_ret, calm_refl | by apply out_calm]. Qed.

Lemma change_baud_calm i b s : dbc_ok (can_dbc s) -> 0 <= i < len (can_baud s) -> 0 <= i < len (can_default_baud s) ->
  wp (change_baud i b : M unit) (fun _ => calm s) s.
Proof using.
  intros Ok H1 H2. unfold change_baud. apply wp_get. destruct (mem_get_is_Some (can_default_baud s) i H2) as [d Ed].
  eapply wp_lift; [exact Ed |]. cbv zeta. eapply wp_lift; [by apply mem_set_ok |]. apply wp_mod.
  lazymatch goal with |- wp _ _ ?x => set (s1 := x) end.
  assert (calm s s1) as C1 by (apply set_baud_calm; [apply len_insert | done]).
  eapply wp_mono with (P := fun _ => calm s1); [| intros ? s2 C2; exact (calm_trans _ _ _ C1 C2)].
  destruct (_ =? _); [by apply wp_ret, calm_refl |]. eapply wp_lift; [by apply mem_set_ok |]. apply wp_mod.
  lazymatch goal with |- wp _ _ ?x => set (s2 := x) end.
  assert (calm s1 s2) as C2 by (apply (set_default_calm s1); [apply len_insert | done]).
  eapply wp_mono; [by apply (default_baud_calm _ _ s2) |]. intros ? s3 C3. exact (calm_trans _ _ _ C2 C3).
Qed.

Lemma change_bauds_calm l : forall i s, dbc_ok (can_dbc s) -> 0 <= i -> i + len l <= len (can_baud s) ->
  i + len l <= len (can_default_baud s) -> wp (change_bauds i l : M unit) (fun _ => calm s) s.
Proof using.
  induction l as [|b l IH]; intros i s Ok Hi H1 H2; cbn [change_bauds]; [by apply wp_ret, calm_refl |].
  pose proof (len_nonneg l). rewrite len_cons in *. apply bind_calm; [apply change_baud_calm; [done | lia | lia] |].
  intros [] s1 [_ _ [B D] _ Ok1]. apply IH; rewrite ?B, ?D; (done || lia).
Qed.

Lemma change_dbc_calm env path s : dbc_ok (can_dbc s) -> len (can_baud s) = CAN_MAX_PORT -> len (can_default_baud s) = CAN_MAX_PORT ->
  len path <= 230 -> (forall p f, e_fopen env p = Some f -> Forall is_byte f) ->
  wp (can_do_change_dbc env path : M unit) (fun _ => calm s) s.
Proof using law.
  intros Ok B D Hl Hf. unfold can_do_change_dbc.
  eapply wp_seq; [apply on_dbc_ok, load_file_ok; [done | done | done | exact Hf] |].
  intros [ret bd] s1 (d & (Okd & Hb & _) & ->). cbv beta iota. cbn [snd] in Hb.
  assert (calm s {| s with can_dbc := d |}) as C1 by (split; try done; exists []; by rewrite app_nil_r).
  destruct (ret =? 0); cbn [negb]; [| by apply wp_ret].
  eapply wp_mono; [apply change_bauds_calm; [done | done | |]; cbn [can_baud can_default_baud]; lia |].
  intros ? s2 C2. exact (calm_trans _ _ _ C1 C2).
Qed.

Definition step_ok (st : CAN_STEP) : Prop :=
  match st with
  | StepMsg (CAN_MSG_SETDBC env path) => len path <= 230 /\ forall p f, e_fopen env p = Some f -> Forall is_byte f
  | StepMsg (CAN_MSG_SET_BAUD port _) | StepMsg (CAN_MSG_SET_DEFAULT_BAUD port _) => 0 <= port < CAN_MAX_PORT
  | StepMsg _ => True
  | StepData _ _ msgs => Forall msg_ok msgs
  end.

Definition no64_db (d : DBC CB C) : Prop := match db_view d with Some db => no64 db | None => True end.

Lemma bus_db_of d : dbc_ok d -> no64_db d -> exists o, bus_db o d.
Proof using.
  intros Ok N. unfold no64_db in N. destruct (db_view d) as [db|] eqn:E; [exists (Some db) | by exists None].
  split; [done | done | by rewrite E].
Qed.

Lemma zero_rings (s : CAN) : rings_ok (can_rawmsg s) (can_rawpos s) (can_uptime s) -> rings_ok rawmsg_zero (can_rawpos s) (can_uptime s).
Proof using. intros []. split; try done. repeat constructor. Qed.

Lemma timeout_ok s : thread_ok s -> no64_db (can_dbc s) -> wp (can_do_timeout : M unit) (fun _ => thread_ok) s.
Proof using law.
  intros T N. destruct (bus_db_of _ (th_dbc _ T) N) as [o B]. unfold can_do_timeout. apply wp_get.
  destruct T as [Tr Tb Td Ts Ti (armed & Tt & Ta) Tok].
  set (s1 := {| s with can_active := false; can_rawmsg := if can_active s then rawmsg_zero else can_rawmsg s |}).
  eapply (wp_seq _ _ (fun _ s' => s' = s1)).
  { subst s1. destruct (can_active s) eqn:Ea; cbn [st_when]; [done |]. apply wp_ret. destruct s; cbn in *; by subst. }
  intros ? ? ->. apply wp_get. change (can_st_sleep s1) with (can_st_sleep s).
  destruct (can_st_sleep s) eqn:Es; cbn [negb st_when].
  - apply wp_ret. subst s1. rewrite (Ti eq_refl). split; cbn; rewrite ?Es; try done. rewrite (Ti eq_refl) in Tt. by exists armed.
  - eapply wp_mono; [by apply (do_callback_ok (CAN_EVENT_TIMEOUT (can_st_uptime s1)) o) |]. intros ? s2 (d & Bd & ->).
    split; cbn; rewrite ?Es; try done.
    + destruct (can_active s); [by apply zero_rings | done].
    + exists false. split; [by rewrite bus_trace_app, Tt | done].
    + by eapply bus_db_ok.
Qed.

Lemma wakeup_ok s : thread_ok s -> no64_db (can_dbc s) -> wp (can_do_wakeup : M unit) (fun _ => thread_ok) s.
Proof using law.
  intros T N. destruct (bus_db_of _ (th_dbc _ T) N) as [o B]. unfold can_do_wakeup. apply wp_get.
  destruct (can_st_sleep s) eqn:Es; [| by apply wp_ret]. destruct T as [Tr Tb Td Ts Ti (armed & Tt & Ta) Tok].
  eapply wp_seq; [by apply (do_callback_ok CAN_EVENT_WAKEUP o) |]. intros ? s1 (d & Bd & ->). unfold wp, st_mod.
  specialize (Ti Es). split; cbn; try done; [| by eapply bus_db_ok].
  exists armed. split; [| by rewrite Ti]. rewrite bus_trace_app, Tt, Es, Ti. done.
Qed.

Lemma sleep_ok s : thread_ok s -> no64_db (can_dbc s) -> wp (can_do_sleep : M unit) (fun _ => thread_ok) s.
Proof using law.
  intros T N. destruct (bus_db_of _ (th_dbc _ T) N) as [o B]. unfold can_do_sleep. apply wp_get.
  destruct (can_st_sleep s) eqn:Es; [by apply wp_ret |]. destruct T as [Tr Tb Td Ts Ti (armed & Tt & Ta) Tok].
  set (s1 := {| s with can_active := false; can_rawmsg := if can_active s then rawmsg_zero else can_rawmsg s;
                       can_out := can_out s ++ if can_active s then [OutTimerStop] else [] |}).
  eapply (wp_seq _ _ (fun _ s' => s' = s1)).
  { subst s1. destruct (can_active s) eqn:Ea; cbn [st_when]; [done |]. apply wp_ret. rewrite app_nil_r. destruct s; cbn in *; by subst. }
  intros ? ? ->. apply wp_get.
  set (s2 := {| s1 with can_canfd := None; can_out := can_out s1 ++ if bool_decide (is_Some (can_canfd s)) then [OutClose] else [] |}).
  eapply (wp_seq _ _ (fun _ s' => s' = s2)).
  { subst s2. change (can_canfd s1) with (can_canfd s). destruct (can_canfd s) as [[]|] eqn:Ef; cbn [st_when]; [done |].
    apply wp_ret. rewrite app_nil_r. subst s1. destruct s; cbn in *; by subst. }
  intros ? ? ->. eapply wp_seq; [by apply (do_callback_ok CAN_EVENT_SLEEP o) |]. intros ? s3 (d & Bd & ->). unfold wp, st_mod.
  split; cbn; try done; [destruct (can_active s); [by apply zero_rings | done] | | by eapply bus_db_ok].
  rewrite !bus_trace_app, Tt, Es. destruct (can_active s), (bool_decide _); cbn; (eexists; split; [reflexivity | done]).
Qed.

Lemma batches_nonempty stop msgs : Forall (fun b => b <> []) (batches_of stop msgs).
Proof using.
  unfold batches_of. destruct stop; [apply Forall_map, Forall_true; done |]. apply Forall_app_2.
  - eapply Forall_impl; [| apply (cut_closed msgs []); constructor]. intros b (l & m & -> & _) E. by destruct l.
  - destruct (cut_at_T msgs []).2; [constructor | by apply Forall_singleton].
Qed.

Lemma heard_batches bs active armed : Forall (fun b => b <> []) bs ->
  fold_left bus_step (map OutEvent (datain bs)) (Some (false, active, armed)) = Some (false, active, armed).
Proof using. intros H. unfold datain. rewrite map_map. by apply bus_batches. Qed.

Lemma data_ok now msgs s : thread_ok s -> no64_db (can_dbc s) -> can_st_sleep s = false -> Forall msg_ok msgs ->
  wp (can_do_datain now msgs : M unit) (fun _ => thread_ok) s.
Proof using law.
  intros T N Es Hm. destruct (bus_db_of _ (th_dbc _ T) N) as [o B].
  eapply wp_mono; [by apply (do_datain_ok now msgs o); [apply T | |] |]. intros ? s' [Do Dd Db Da Dr _ Ds].
  destruct T as [Tr Tb Td Ts Ti (armed & Tt & Ta) Tok]. injection Ds as E1 E2 E3 E4 E5 E6.
  split; rewrite ?E2, ?E4, ?E5, ?E6; try done; [by rewrite Es | | by eapply bus_db_ok].
  rewrite Do, !bus_trace_app, fold_left_app, Tt, Da, Es. unfold data_start.
  pose proof (batches_nonempty (can_stop s) msgs) as Hb.
  destruct (negb (can_stop s) && (0 <? data_count msgs)); [| exists armed; cbn [fold_left]; rewrite orb_false_r; by rewrite heard_batches].
  exists true. rewrite orb_true_r. split; [| done]. destruct (can_active s); cbn; by rewrite heard_batches.
Qed.

Lemma receive_ok opened now msgs s : thread_ok s -> no64_db (can_dbc s) -> can_st_sleep s = false -> Forall msg_ok msgs ->
  wp (can_do_receive opened now msgs : M unit) (fun _ => thread_ok) s.
Proof using law.
  intros T N Es Hm. unfold can_do_receive. apply wp_gets. destruct (can_canfd s) as [[]|].
  - destruct msgs; [by apply wp_ret | by apply data_ok].
  - destruct opened; [| by apply wp_ret]. apply wp_mod. unfold out. apply wp_mod.
    lazymatch goal with |- wp _ _ ?x => set (s1 := x) end.
    assert (thread_ok s1) as T1.
    { destruct T as [Tr Tb Td Ts Ti (armed & Tt & Ta) Tok]. split; cbn; try done. exists true. split; [| done].
      by rewrite bus_trace_app, Tt, Es. }
    destruct msgs; [by apply wp_ret | by apply data_ok].
Qed.

Lemma step_thread_ok st s : step_ok st -> thread_ok s -> no64_db (can_dbc s) -> wp (can_step st : M unit) (fun _ => thread_ok) s.
Proof using law.
  intros Hs T N.
  assert (forall m : M unit, wp m (fun _ => calm s) s -> wp m (fun _ => thread_ok) s) as Calm.
  { intros m Hm. eapply wp_mono; [exact Hm |]. intros ? s' H. by eapply calm_ok. }
  pose proof (th_dbc _ T) as Ok. pose proof (th_baud _ T) as Tb. pose proof (th_default _ T) as Td.
  destruct st as [m | opened now msgs]; cbn [can_step step_ok] in *.
  2:{ apply wp_gets. destruct (can_st_sleep s) eqn:Es; [by apply wp_ret | by apply receive_ok]. }
  destruct m; cbn [can_msg_proc]; try (by apply sleep_ok); try (by apply wp_ret).
  - by apply timeout_ok.
  - destruct Hs. by apply Calm, change_dbc_calm.
  - apply Calm. apply wp_get. eapply wp_lift; [apply mem_set_ok; lia |]. unfold wp, st_mod. apply set_baud_calm; [apply len_insert | done].
  - apply Calm. apply wp_get. eapply wp_lift; [apply mem_set_ok; lia |].
    apply bind_calm; [unfold wp, st_mod; apply set_default_calm; [apply len_insert | done] |].
    intros [] s1 C1. apply out_calm; [done | apply C1].
  - apply Calm. apply wp_get. case_bool_decide; [by apply wp_ret, calm_refl | by apply out_calm].
  - apply Calm. apply wp_get. case_bool_decide; [by apply wp_ret, calm_refl | by apply out_calm].
  - apply Calm. unfold wp, st_mod. split; try done. exists []. by rewrite app_nil_r.
  - apply Calm. unfold wp, st_mod. split; try done. exists []. by rewrite app_nil_r.
  - by apply wakeup_ok.
  - apply Calm. by apply out_calm.
Qed.

Lemma steps_thread_ok l : forall s, Forall step_ok l -> thread_ok s ->
  (exists s', can_steps l s = Some (tt, s') /\ thread_ok s') \/
  (exists pre rest s' db, l = pre ++ rest /\ can_steps pre s = Some (tt, s') /\ thread_ok s' /\
     db_view (can_dbc s') = Some db /\ ~ no64 db).
Proof using law.
  induction l as [|st l IH]; intros s Hl T; [left; by exists s |]. apply Forall_cons_1 in Hl as [Hst Hl].
  assert ({no64_db (can_dbc s)} + {~ no64_db (can_dbc s)}) as [N | N].
  { unfold no64_db. destruct (db_view (can_dbc s)); [| by left]. unfold no64. apply (decide _). }
  - destruct (wp_elim _ _ _ (step_thread_ok st s Hst T N)) as ([] & s1 & E & T1).
    destruct (IH s1 Hl T1) as [(s' & E' & T') | (pre & rest & s' & db & -> & E' & T' & H)].
    + left. exists s'. split; [| done]. cbn [can_steps]. by rewrite (st_bind_run _ _ _ _ _ E).
    + right. exists (st :: pre), rest, s', db. split; [done |]. split; [| done]. cbn [can_steps]. by rewrite (st_bind_run _ _ _ _ _ E).
  - right. exists [], (st :: l), s. unfold no64_db in N. destruct (db_view (can_dbc s)) as [db|]; [| done]. by exists db.
Qed.

Lemma init_thread_ok dbc defaults : dbc_ok dbc -> len defaults = CAN_MAX_PORT -> thread_ok (can_init dbc defaults).
Proof using.
  intros Ok Hd. split; try done; [| by exists false]. split; try done; repeat constructor; done.
Qed.

(** ** Batches and the status *)

Definition batch (b : list CAN_MSG) : Prop := exists l m, b = l ++ [m] /\ Forall (fun m => is_T m = false) l.

Lemma quiet_batch l : Forall (fun m => is_T m = false) l -> l <> [] -> batch l.
Proof using.
  intros H Hn. destruct (exists_last Hn) as (k & m & ->). exists k, m. split; [done |]. by apply Forall_app in H as [H _].
Qed.

Lemma batches_cut msgs : let bs := batches_of false msgs in
  concat bs = msgs /\ Forall batch bs /\ Forall closed (removelast bs).
Proof using.
  unfold batches_of. pose proof (cut_concat msgs []) as E. destruct (cut_closed msgs [] (List.Forall_nil _)) as [H1 H2].
  destruct (cut_at_T msgs []) as [bs rest]. cbn [fst snd] in *.
  assert (Forall batch bs) as Hb by (eapply Forall_impl; [| exact H1]; intros b (l & m & -> & _ & Hl); by exists l, m).
  destruct rest as [|m rest].
  - rewrite app_nil_r in E |- *. split; [done |]. split; [done |].
    destruct bs as [|b bs]; [constructor |]. rewrite (app_removelast_last b (l := b :: bs)) in H1 by done.
    by apply Forall_app in H1 as [H1 _].
  - rewrite concat_app. cbn [concat]. rewrite app_nil_r, E. split; [done |]. rewrite removelast_last. split; [| done].
    apply Forall_app_2; [done |]. apply Forall_singleton. by apply quiet_batch.
Qed.

Lemma dump_view (s : CAN) p : rings_ok (can_rawmsg s) (can_rawpos s) (can_uptime s) -> 0 <= p < 5 ->
  can_do_dumpsta s p = List.filter listed <$> ring_of (can_rawmsg s) (can_rawpos s) p.
Proof using.
  intros Ok Hp. destruct (rings_get _ _ _ p Ok Hp) as (row & pos & Er & Ep & Hl & Hr).
  unfold can_do_dumpsta, ring_of. rewrite Er, Ep. cbn [mbind option_bind]. by rewrite dump_reads, ring_reads_view.
Qed.

Lemma ref_db_batches bs db : fold_left ref_db (datain bs) (Some db) = Some (fold_left ref_message (concat bs) db).
Proof using.
  revert db. induction bs as [|b bs IH]; intros db; [done |]. cbn [datain map fold_left ref_db ref_event concat].
  rewrite fold_left_app. apply IH.
Qed.

End bus.

(** ** Theorems *)

(** C23: What a reading of the channel becomes: the modules get exactly its messages, in
    order, in batches that end with the messages of the time (these alone, if the data
    is stopped); the database changes as the reference says for them; a port lists its
    last ten messages; a silent bus is announced as active and its timer started. *)
Theorem can_data_delivered {CB C} {client : DbcClient CB C} {law : DbcClientOk CB C} now msgs (s : CAN CB C) db :
  thread_ok s -> db_view (can_dbc s) = Some db -> Forall (fun g => sig_size g < 64) (siglst db) -> Forall msg_ok msgs ->
  exists s' db' bs, can_do_datain now msgs s = Some (tt, s') /\
    can_out s' = can_out s ++ data_start s msgs ++ map (fun b => OutEvent (CAN_EVENT_DATAIN b)) bs /\
    (if can_stop s then bs = map (fun m => [m]) (List.filter is_T msgs)
     else concat bs = msgs /\ Forall batch bs /\ Forall closed (removelast bs)) /\
    db_view (can_dbc s') = Some db' /\ forget_db db' = forget_db (fold_left ref_message (concat bs) db) /\
    can_basetime s' = base_after msgs (can_basetime s) /\
    forall p, 0 <= p < CAN_MAX_PORT -> exists old, length old = 10%nat /\
      can_do_dumpsta s p = Some (List.filter listed old) /\
      can_do_dumpsta s' p =
        Some (List.filter listed (lastn 10 (old ++ if can_stop s then [] else List.filter (for_port p) msgs))).
Proof.
  intros T Ev N Hm. pose proof (th_rings _ T) as Tr.
  assert (bus_db (Some db) (can_dbc s)) as B by (split; [apply T | exact N | by rewrite Ev]).
  destruct (wp_elim _ _ _ (do_datain_ok now msgs (Some db) s Tr Hm B)) as ([] & s' & E & [Do Dd Db _ Dr Dv _]).
  rewrite ref_db_batches in Dd. destruct (at_db_inv _ _ Dd) as (db' & Ev' & Ef & _).
  exists s', db', (batches_of (can_stop s) msgs). split; [exact E |].
  split; [rewrite Do; unfold datain; by rewrite map_map |].
  split; [destruct (can_stop s); [reflexivity | apply batches_cut] |].
  split; [exact Ev' |]. split; [exact Ef |]. split; [exact Db |]. intros p Hp.
  destruct (Dv p Hp) as (v & E1 & Hv & E2). exists v. split; [exact Hv |]. by rewrite !dump_view, E1, E2.
Qed.


(** ** Examples *)

Section demo.

#[local] Existing Instance demo_client.
#[local] Existing Instance demo_law.

Definition time_msg : CAN_MSG := {|
  cm_uptime := 8; cm_miscUptime := 0; cm_type := 84; cm_dlc := 0; cm_MsgID := 0; cm_Data := [1; 2; 3; 4; 0; 0; 0; 0] |}.

Lemma time_msg_ok : msg_ok time_msg.
Proof.
  split; [done |]. cbn [cm_Data time_msg]. repeat (apply List.Forall_cons; [unfold is_byte; lia |]). apply List.Forall_nil.
Qed.

Definition demo_read : list CAN_MSG := [demo_msg 4; time_msg; demo_msg 5].
Lemma demo_read_ok : Forall msg_ok demo_read.
Proof.
  do 3 (apply List.Forall_cons; [first [exact time_msg_ok | apply demo_msg_ok; unfold is_byte; lia] |]). apply List.Forall_nil.
Qed.

Definition demo_bus : CAN unit unit := can_init demo_loaded [500; 0; 0; 0; 0].

Lemma can_data_delivered_witness : exists s' db',
  can_do_datain 3 demo_read demo_bus = Some (tt, s') /\
  can_out s' = [OutTimerStart CAN_BUS_TIMEOUT; OutEvent CAN_EVENT_ACTIVE; OutEvent (CAN_EVENT_DATAIN [demo_msg 4; time_msg]);
                OutEvent (CAN_EVENT_DATAIN [demo_msg 5])] /\
  db_view (can_dbc s') = Some db' /\ map sig_value (siglst db') = [d_of_Z 89; d_of_Z 5; d_of_Z (-2)] /\
  can_basetime s' = 0x04030201 /\ can_do_dumpsta s' 0 = Some [demo_msg 4; demo_msg 5].
Proof.
  assert (Forall (fun g => sig_size g < 64) (siglst demo_db)) as N.
  { assert (forallb (fun g => sig_size g <? 64) (siglst demo_db) = true) as H by (vm_compute; reflexivity).
    apply List.Forall_forall. rewrite forallb_forall in H. intros g Hg%H. lia. }
  destruct (can_data_delivered 3 demo_read demo_bus demo_db (init_thread_ok demo_loaded [500; 0; 0; 0; 0] demo_loaded_ok eq_refl)
    ltac:(vm_compute; reflexivity) N demo_read_ok) as (s' & db' & bs & E & Eo & [Ec [_ Hb]] & Ev & Ef & Et & _).
  assert ((fun r => (can_out r.2, can_do_dumpsta r.2 0)) <$> can_do_datain 3 demo_read demo_bus =
    Some ([OutTimerStart CAN_BUS_TIMEOUT; OutEvent CAN_EVENT_ACTIVE; OutEvent (CAN_EVENT_DATAIN [demo_msg 4; time_msg]);
           OutEvent (CAN_EVENT_DATAIN [demo_msg 5])], Some [demo_msg 4; demo_msg 5])) as E0 by (vm_compute; reflexivity).
  rewrite E in E0. apply (inj Some) in E0. cbn [fst snd] in E0. apply (inj2 pair) in E0 as [E1 E2].
  exists s', db'. split; [exact E |]. split; [exact E1 |]. split; [exact Ev |].
  split; [| split; [rewrite Et; vm_compute; reflexivity | exact E2]].
  transitivity (map sig_value (siglst (forget_db db'))); [cbn; rewrite map_map; reflexivity |].
  rewrite Ef, Ec. vm_compute. reflexivity.
Defined.

Definition demo_rounds : list (option CAN_THREAD_MSG * (bool * Z * list CAN_MSG)) :=
  [(Some (CAN_MSG_SETDBC demo_env demo_path), (true, 1, [])); (None, (true, 2, demo_read)); (Some PM_MSG_SLEEP, (true, 3, demo_read));
   (Some PM_MSG_RUNNING, (true, 4, demo_read)); (Some CAN_MSG_TIMEOUT, (true, 5, []))].

Definition demo_first : CAN unit unit := can_init demo_start [0; 0; 0; 0; 0].

(** After each of the steps there is no signal of 64 bits. *)
Definition small_steps (k : nat) : bool :=
  match can_steps (take k (concat (map round_steps demo_rounds))) demo_first with
  | Some (_, s) => match db_view (can_dbc s) with Some db => forallb (fun g => sig_size g <? 64) (siglst db) | None => true end
  | None => true
  end.

Lemma demo_small_steps k : small_steps k = true.
Proof. do 10 (destruct k as [|k]; [vm_compute; reflexivity |]). vm_compute. reflexivity. Qed.


End demo.
