(* ===== verification/GbData.v ===== *)
(** * GB/T 32960 reports

    The vehicle data of src/app/interface/gb32960/gb32960_data.c: the table of
    signals that the signal database fills in ([gb_info_t]), and the encoders of a
    report.  Signal values are C doubles, those of [Cstd].  [None] is undefined
    behaviour: an index outside of an array, a null signal, a division by zero or
    a double that the integer type cannot hold. *)

From Stdlib Require Import SpecFloat.
From stdpp Require Import strings.
From S2P Require Import Prelude Cstd.

Open Scope string_scope.
Open Scope list_scope.
Open Scope Z_scope.

(** ** Constants *)

Definition GB_MAX_PACK_CELL : Z := 800.
Definition GB_MAX_PACK_TEMP : Z := 800.
Definition GB_MAX_FUEL_TEMP : Z := 200.
Definition GB_MAX_FUEL_INFO : Z := 16.
Definition GB_MAX_VEHI_INFO : Z := 16.
Definition GB_MAX_WARN_INFO : Z := 32.
Definition GB_MAX_MOTOR_INFO : Z := 8.
Definition GB_MAX_ENGIN_INFO : Z := 4.
Definition GB_MAX_EXTR_INFO : Z := 16.
Definition GB_MAX_MOTOR : Z := 4.

Definition GB_VEHITYPE_ELECT : Z := 0x01.
Definition GB_VEHITYPE_HYBIRD : Z := 0x02.
Definition GB_VEHITYPE_GASFUEL : Z := 0x03.

Definition GB_VINF_STATE : Z := 0x00.
Definition GB_VINF_CHARGE : Z := 0x01.
Definition GB_VINF_SPEED : Z := 0x02.
Definition GB_VINF_ODO : Z := 0x03.
Definition GB_VINF_VOLTAGE : Z := 0x04.
Definition GB_VINF_CURRENT : Z := 0x05.
Definition GB_VINF_SOC : Z := 0x06.
Definition GB_VINF_DCDC : Z := 0x07.
Definition GB_VINF_SHIFT : Z := 0x08.
Definition GB_VINF_INSULAT : Z := 0x09.
Definition GB_VINF_ACCPAD : Z := 0x0a.
Definition GB_VINF_BRKPAD : Z := 0x0b.
Definition GB_VINF_DRVIND : Z := 0x0c.
Definition GB_VINF_BRKIND : Z := 0x0d.
Definition GB_VINF_VEHIMODE : Z := 0x0e.

Definition GB_MINF_STATE : Z := 0x00.
Definition GB_MINF_MCUTMP : Z := 0x01.
Definition GB_MINF_SPEED : Z := 0x02.
Definition GB_MINF_TORQUE : Z := 0x03.
Definition GB_MINF_MOTTMP : Z := 0x04.
Definition GB_MINF_VOLTAGE : Z := 0x05.
Definition GB_MINF_CURRENT : Z := 0x06.

Definition GB_FCINF_VOLTAGE : Z := 0x00.
Definition GB_FCINF_CURRENT : Z := 0x01.
Definition GB_FCINF_RATE : Z := 0x02.
Definition GB_FCINF_MAXTEMP : Z := 0x03.
Definition GB_FCINF_MAXTEMPID : Z := 0x04.
Definition GB_FCINF_MAXCCTT : Z := 0x05.
Definition GB_FCINF_MAXCCTTID : Z := 0x06.
Definition GB_FCINF_MAXPRES : Z := 0x07.
Definition GB_FCINF_MAXPRESID : Z := 0x08.
Definition GB_FCINF_HVDCDC : Z := 0x09.
Definition GB_FCINF_MAX : Z := GB_FCINF_HVDCDC + 1.
Definition GB_FCINF_TEMPTAB : Z := 0x100.

Definition GB_EINF_STATE : Z := 0x00.
Definition GB_EINF_SPEED : Z := 0x01.
Definition GB_EINF_FUELRATE : Z := 0x02.

Definition GB_XINF_MAXVCID : Z := 0x01.
Definition GB_XINF_MAXV : Z := 0x02.
Definition GB_XINF_MINVCID : Z := 0x04.
Definition GB_XINF_MINV : Z := 0x05.
Definition GB_XINF_MAXTCID : Z := 0x07.
Definition GB_XINF_MAXT : Z := 0x08.
Definition GB_XINF_MINTCID : Z := 0x0a.
Definition GB_XINF_MINT : Z := 0x0b.

Definition GB_DATA_VEHIINFO : Z := 0x01.
Definition GB_DATA_MOTORINFO : Z := 0x02.
Definition GB_DATA_ENGINEINFO : Z := 0x04.
Definition GB_DATA_LOCATION : Z := 0x05.
Definition GB_DATA_EXTREMA : Z := 0x06.
Definition GB_DATA_WARNNING : Z := 0x07.
Definition GB_DATA_BATTVOLT : Z := 0x08.
Definition GB_DATA_BATTTEMP : Z := 0x09.
Definition GB_DATA_FUELCELL : Z := 0x0A.
Definition GB_DATA_VIRTUAL : Z := 0x0B.

(** ** Data *)

(** A signal is a positive number, [0] is none. *)
Record gb_batt_t := { voltage : Z; current : Z; cell : list Z; temp : list Z; cell_cnt : Z; temp_cnt : Z }.

Record gb_motor_t := { motor_info : list Z; motor_state_tbl : list Z }.

Record gb_vehi_t := {
  vehi_info : list Z; vehi_state_tbl : list Z; mode_tbl : list Z; shift_tbl : list Z;
  charge_tbl : list Z; dcdc_tbl : list Z; vehi_type : Z
}.

Record gb_fuelcell_t := { fuel_info : list Z; fuel_temp : list Z; fuel_temp_cnt : Z; hvdcdc : list Z }.

Record gb_engin_t := { engin_info : list Z; engin_state_tbl : list Z }.

Record gb_info_t := {
  vehi : gb_vehi_t; motor : list gb_motor_t; motor_cnt : Z; fuelcell : gb_fuelcell_t;
  engin : gb_engin_t; batt : gb_batt_t; warn : list (list Z); extr : list Z;
  warntrig : bool; warntest : bool
}.

(** [memset] of a [gb_info_t] *)
Definition zeros (n : Z) : list Z := replicate (Z.to_nat n) 0.
Definition gb_info_zero : gb_info_t := {|
  vehi := {| vehi_info := zeros GB_MAX_VEHI_INFO; vehi_state_tbl := zeros 256; mode_tbl := zeros 256;
             shift_tbl := zeros 256; charge_tbl := zeros 256; dcdc_tbl := zeros 256; vehi_type := 0 |};
  motor := replicate (Z.to_nat GB_MAX_MOTOR) {| motor_info := zeros GB_MAX_MOTOR_INFO; motor_state_tbl := zeros 256 |};
  motor_cnt := 0;
  fuelcell := {| fuel_info := zeros GB_MAX_FUEL_INFO; fuel_temp := zeros GB_MAX_FUEL_TEMP; fuel_temp_cnt := 0; hvdcdc := zeros 8 |};
  engin := {| engin_info := zeros GB_MAX_ENGIN_INFO; engin_state_tbl := zeros 256 |};
  batt := {| voltage := 0; current := 0; cell := zeros GB_MAX_PACK_CELL; temp := zeros GB_MAX_PACK_TEMP; cell_cnt := 0; temp_cnt := 0 |};
  warn := replicate 4 (zeros GB_MAX_WARN_INFO); extr := zeros GB_MAX_EXTR_INFO;
  warntrig := false; warntest := false |}.

Definition RDUP_DIV (v d : Z) : Z := u32 (u32 (v + d) - 1) / d.
Definition GROUP_SIZE (inf : gb_info_t) : Z := RDUP_DIV (cell_cnt (batt inf)) 200.

(** What the other modules give during one report: the values of the signals
    (none is a null pointer), [can_get_time], [gps_get_fix_status] and
    [gps_get_snap], and the parameter that switches the fuel cell on. *)
Record RTCTIME := { year : Z; mon : Z; mday : Z; hour : Z; min : Z; sec : Z }.
Record GPS_DATA := { longitude : double; latitude : double; is_east : bool; is_north : bool }.
Record DATA_ENV := {
  sig_value : Z -> option double; can_time : Z -> RTCTIME;
  gps_fix : Z; gps_snap : GPS_DATA; fuelcell_para : option Z
}.

(** The static variables of the encoders. *)
Record SAVER := { start : Z; packnum : Z; longitudeBak : Z; latitudeBak : Z }.
Definition saver0 : SAVER := {| start := 0; packnum := 0; longitudeBak := 0; latitudeBak := 0 |}.

Definition be16 (v : Z) : list Z := [u8 (Z.shiftr v 8); u8 v].
Definition be32 (v : Z) : list Z := [u8 (Z.shiftr v 24); u8 (Z.shiftr v 16); u8 (Z.shiftr v 8); u8 v].

(** ** Encoders

    [buf[len++] = x] appends the byte [x]; the functions return what they wrote. *)

Section encoders.
Context (env : DATA_ENV).

(** [id ? f(dbc_get_signal_from_id(id)->value) : dflt], assigned to a [uint32_t] *)
Definition sig_u32 (id : Z) (f : double -> double) (dflt : Z) : option Z :=
  if id =? 0 then Some dflt else v ← sig_value env id; d_to_u32 (f v).

(** A state through its table. *)
Definition sig_state (id : Z) (tbl : list Z) (dflt : Z) : option Z :=
  if id =? 0 then Some dflt
  else
    v ← sig_value env id; tmp ← d_to_u32 v; b ← mem_get tbl tmp;
    Some (if b =? 0 then 0xff else b).

(** [sig > 0] *)
Definition sig_pos (id : Z) : option bool := v ← sig_value env id; Some (d_lt (d_of_Z 0) v).

Definition times10 (v : double) : double := d_mul v (d_of_Z 10).
Definition times10_plus (n : Z) (v : double) : double := d_add (d_mul v (d_of_Z 10)) (d_of_Z n).
Definition plus (n : Z) (v : double) : double := d_add v (d_of_Z n).
Definition MIN_d (v : double) (n : Z) : double := if d_lt v (d_of_Z n) then v else d_of_Z n.
Definition same_d (v : double) : double := v.

(** One of the two indicators, or the pad. *)
Definition indicator (ind pad bit tmp : Z) : option Z :=
  if negb (ind =? 0) then b ← sig_pos ind; Some (if (b : bool) then Z.lor tmp bit else tmp)
  else if negb (pad =? 0) then b ← sig_pos pad; Some (if (b : bool) then Z.lor tmp bit else tmp)
  else Some tmp.

Definition shift_code (sft : Z) : Z :=
  if (49 <=? sft) && (sft <=? 54) then sft - 48
  else if sft =? 82 then 13 else if sft =? 68 then 14 else if sft =? 80 then 15 else 0.

Definition save_shift (v : gb_vehi_t) (i : Z) : option Z :=
  if i =? 0 then Some 0xff
  else
    value ← sig_value env i; tmp ← d_to_u32 value; sft ← mem_get (shift_tbl v) tmp;
    drv ← mem_get (vehi_info v) GB_VINF_DRVIND; acc ← mem_get (vehi_info v) GB_VINF_ACCPAD;
    tmp ← indicator drv acc 0x20 (shift_code sft);
    brk ← mem_get (vehi_info v) GB_VINF_BRKIND; pad ← mem_get (vehi_info v) GB_VINF_BRKPAD;
    indicator brk pad 0x10 tmp.

Definition gb_data_save_vehi (gbinf : gb_info_t) : option (list Z) :=
  let info i := mem_get (vehi_info (vehi gbinf)) i in
  i ← info GB_VINF_STATE; st ← sig_state i (vehi_state_tbl (vehi gbinf)) 0xff;
  i ← info GB_VINF_CHARGE; chg ← sig_state i (charge_tbl (vehi gbinf)) 0xff;
  i ← info GB_VINF_VEHIMODE; mode ← sig_state i (mode_tbl (vehi gbinf)) (vehi_type (vehi gbinf));
  i ← info GB_VINF_SPEED; speed ← sig_u32 i times10 0xffff;
  i ← info GB_VINF_ODO; odo ← sig_u32 i times10 0xffffffff;
  i ← info GB_VINF_VOLTAGE; volt ← sig_u32 i times10 0xffff;
  i ← info GB_VINF_CURRENT; cur ← sig_u32 i (times10_plus 10000) 0xffff;
  i ← info GB_VINF_SOC; soc ← sig_u32 i same_d 0xff;
  i ← info GB_VINF_DCDC; dcdc ← sig_state i (dcdc_tbl (vehi gbinf)) 0xff;
  i ← info GB_VINF_SHIFT; shift ← save_shift (vehi gbinf) i;
  i ← info GB_VINF_INSULAT; insul ← sig_u32 i (fun v => MIN_d v 60000) 0xffff;
  i ← info GB_VINF_ACCPAD; acc ← sig_u32 i same_d 0xff;
  i ← info GB_VINF_BRKPAD; brk ← sig_u32 i same_d 0xff;
  Some ([GB_DATA_VEHIINFO; u8 st; u8 chg; u8 mode] ++ be16 speed ++ be32 odo ++ be16 volt ++ be16 cur
        ++ [u8 soc; u8 dcdc; u8 shift] ++ be16 insul ++ [u8 acc; u8 brk]).

(** The bytes of [n] elements from [i] on. *)
Fixpoint each (n : nat) (i : Z) (f : Z -> option (list Z)) : option (list Z) :=
  match n with
  | O => Some []
  | S n => a ← f i; l ← each n (i + 1) f; Some (a ++ l)
  end.

Definition times1000 (v : double) : double := d_mul v (d_of_Z 1000).

Definition save_one_cell (gbinf : gb_info_t) (i : Z) : option (list Z) :=
  id ← mem_get (cell (batt gbinf)) i; tmp ← sig_u32 id times1000 0xffff; Some (be16 tmp).

Definition gb_data_save_cell (gbinf : gb_info_t) : ST SAVER (list Z) :=
  v ← st_lift (sig_u32 (voltage (batt gbinf)) times10 0xffff);
  c ← st_lift (sig_u32 (current (batt gbinf)) (times10_plus 10000) 0xffff);
  s ← st_gets start;
  let cnt := cell_cnt (batt gbinf) in
  let cells := Z.min (u32 (cnt - s)) 200 in
  l ← st_lift (each (Z.to_nat cells) s (save_one_cell gbinf));
  if cnt =? 0 then st_lift None
  else
    st_mod (fun st => {| st with start := u32 (s + cells) mod cnt |});;
    mret ([GB_DATA_BATTVOLT; 1; 1] ++ be16 v ++ be16 c ++ be16 cnt ++ be16 (s + 1) ++ [u8 cells] ++ l).

Definition save_one_temp (gbinf : gb_info_t) (i : Z) : option (list Z) :=
  id ← mem_get (temp (batt gbinf)) i;
  if id =? 0 then Some [0xff] else v ← sig_value env id; b ← d_to_u8 (plus 40 v); Some [b].

Definition gb_data_save_temp (gbinf : gb_info_t) : option (list Z) :=
  let cnt := temp_cnt (batt gbinf) in
  l ← each (Z.to_nat cnt) 0 (save_one_temp gbinf);
  Some ([GB_DATA_BATTTEMP; 1; 1] ++ be16 cnt ++ l).

Definition save_one_motor (gbinf : gb_info_t) (i : Z) : option (list Z) :=
  m ← mem_get (motor gbinf) i;
  let info j := mem_get (motor_info m) j in
  j ← info GB_MINF_STATE; st ← sig_state j (motor_state_tbl m) 0xff;
  j ← info GB_MINF_MCUTMP; mcu ← sig_u32 j (plus 40) 0xff;
  j ← info GB_MINF_SPEED; speed ← sig_u32 j (plus 20000) 0xffff;
  j ← info GB_MINF_TORQUE; torque ← sig_u32 j (times10_plus 20000) 0xffff;
  j ← info GB_MINF_MOTTMP; tmp ← sig_u32 j (plus 40) 0xff;
  j ← info GB_MINF_VOLTAGE; volt ← sig_u32 j times10 0xffff;
  j ← info GB_MINF_CURRENT; cur ← sig_u32 j (times10_plus 10000) 0xffff;
  Some ([u8 (i + 1); u8 st; u8 mcu] ++ be16 speed ++ be16 torque ++ [u8 tmp] ++ be16 volt ++ be16 cur).

Definition gb_data_save_motor (gbinf : gb_info_t) : option (list Z) :=
  l ← each (Z.to_nat (motor_cnt gbinf)) 0 (save_one_motor gbinf);
  Some ([GB_DATA_MOTORINFO; u8 (motor_cnt gbinf)] ++ l).

Definition times100 (v : double) : double := d_mul v (d_of_Z 100).

Definition save_one_fuel_temp (gbinf : gb_info_t) (i : Z) : option (list Z) :=
  id ← mem_get (fuel_temp (fuelcell gbinf)) i; tmp ← sig_u32 id (plus 40) 0xff; Some [u8 tmp].

Definition gb_data_save_fuelcell (gbinf : gb_info_t) : option (list Z) :=
  let info i := mem_get (fuel_info (fuelcell gbinf)) i in
  let cnt := fuel_temp_cnt (fuelcell gbinf) in
  i ← info GB_FCINF_VOLTAGE; volt ← sig_u32 i times10 0xffff;
  i ← info GB_FCINF_CURRENT; cur ← sig_u32 i times10 0xffff;
  i ← info GB_FCINF_RATE; rate ← sig_u32 i times100 0xffff;
  temps ← each (Z.to_nat cnt) 0 (save_one_fuel_temp gbinf);
  i ← info GB_FCINF_MAXTEMP; maxtemp ← sig_u32 i (times10_plus 400) 0xffff;
  i ← info GB_FCINF_MAXTEMPID; maxtempid ← sig_u32 i same_d 0xff;
  i ← info GB_FCINF_MAXCCTT; maxcctt ← sig_u32 i times10 0xffff;
  i ← info GB_FCINF_MAXCCTTID; maxccttid ← sig_u32 i same_d 0xff;
  i ← info GB_FCINF_MAXPRES; maxpres ← sig_u32 i times10 0xffff;
  i ← info GB_FCINF_MAXPRESID; maxpresid ← sig_u32 i same_d 0xff;
  i ← info GB_FCINF_HVDCDC; hv ← sig_state i (hvdcdc (fuelcell gbinf)) 0xff;
  Some ([0x03] ++ be16 volt ++ be16 cur ++ be16 rate ++ be16 cnt ++ temps ++ be16 maxtemp ++ [u8 maxtempid]
        ++ be16 maxcctt ++ [u8 maxccttid] ++ be16 maxpres ++ [u8 maxpresid] ++ [u8 hv]).

(** ** Extrema *)

(** The extremum so far: number (from [1]) and value. *)
Record EXTR := { x_id : Z; x_val : double }.

(** One element of the loops: values over [limit] are skipped. *)
Definition extr_step (limit : Z) (i : Z) (value : double) (mn mx : EXTR) : EXTR * EXTR :=
  let over v := d_lt (d_of_Z limit) v in
  if over value then (mn, mx)
  else
    (if over (x_val mn) || d_lt value (x_val mn) then {| x_id := u32 (i + 1); x_val := value |} else mn,
     if over (x_val mx) || d_lt (x_val mx) value then {| x_id := u32 (i + 1); x_val := value |} else mx).

Fixpoint extr_loop (limit : Z) (ids : list Z) (n : nat) (i : Z) (mn mx : EXTR) : option (EXTR * EXTR) :=
  match n with
  | O => Some (mn, mx)
  | S n =>
      id ← mem_get ids i; value ← sig_value env id;
      let '(mn, mx) := extr_step limit i value mn mx in
      extr_loop limit ids n (i + 1) mn mx
  end.

Definition extr_scan (limit : Z) (ids : list Z) (cnt : Z) : option (EXTR * EXTR) :=
  v ← (if 0 <? cnt then id ← mem_get ids 0; sig_value env id else Some (d_of_Z 0));
  extr_loop limit ids (Z.to_nat cnt) 0 {| x_id := 1; x_val := v |} {| x_id := 1; x_val := v |}.

(** A signal of its own for the extremum. *)
Definition extr_override (gbinf : gb_info_t) (idx vidx : Z) (x : EXTR) : option EXTR :=
  a ← mem_get (extr gbinf) idx;
  id ← (if a =? 0 then Some (x_id x) else v ← sig_value env a; d_to_u32 v);
  b ← mem_get (extr gbinf) vidx;
  v ← (if b =? 0 then Some (x_val x) else sig_value env b);
  Some {| x_id := id; x_val := v |}.

(** The number and the value in the pack [n]. *)
Definition extr_cell (n : Z) (x : EXTR) : option (list Z) :=
  if u32 (u32 (n + 1) * 200) <? x_id x then Some ([200] ++ be16 0xffff)
  else if u32 (n * 200) <? x_id x then
    v ← d_to_u32 (times1000 (x_val x)); Some ([u8 (x_id x - n * 200)] ++ be16 v)
  else Some ([0] ++ be16 0xffff).

Definition gb_data_save_extr (gbinf : gb_info_t) : ST SAVER (list Z) :=
  '(minv, maxv) ← st_lift (extr_scan 15 (cell (batt gbinf)) (cell_cnt (batt gbinf)));
  '(mint, maxt) ← st_lift (extr_scan 210 (temp (batt gbinf)) (temp_cnt (batt gbinf)));
  maxv ← st_lift (extr_override gbinf GB_XINF_MAXVCID GB_XINF_MAXV maxv);
  maxt ← st_lift (extr_override gbinf GB_XINF_MAXTCID GB_XINF_MAXT maxt);
  minv ← st_lift (extr_override gbinf GB_XINF_MINVCID GB_XINF_MINV minv);
  mint ← st_lift (extr_override gbinf GB_XINF_MINTCID GB_XINF_MINT mint);
  n ← st_gets packnum;
  mx ← st_lift (extr_cell n maxv);
  mn ← st_lift (extr_cell n minv);
  tx ← st_lift (d_to_u8 (plus 40 (x_val maxt)));
  tn ← st_lift (d_to_u8 (plus 40 (x_val mint)));
  if GROUP_SIZE gbinf =? 0 then st_lift None
  else
    st_mod (fun st => {| st with packnum := u32 (n + 1) mod GROUP_SIZE gbinf |});;
    mret ([GB_DATA_EXTREMA; 1] ++ mx ++ [1] ++ mn ++ [1; u8 (x_id maxt); tx; 1; u8 (x_id mint); tn]).

(** ** Warnings *)

Definition sig_on (id : Z) : option bool := v ← sig_value env id; Some (d_true v).

(** The warning [j] of the level [i]; level 3 holds second signals. *)
Definition warn_active (gbinf : gb_info_t) (i j : Z) : option bool :=
  row ← mem_get (warn gbinf) i; id ← mem_get row j;
  if id =? 0 then Some false
  else
    a ← sig_on id;
    if (a : bool) then Some true
    else
      row3 ← mem_get (warn gbinf) 3; id3 ← mem_get row3 j;
      if id3 =? 0 then Some false else sig_on id3.

Fixpoint warn_loop (gbinf : gb_info_t) (n : nat) (i j bits lvl : Z) : option (Z * Z) :=
  match n with
  | O => Some (bits, lvl)
  | S n =>
      a ← warn_active gbinf i j;
      if (a : bool) then warn_loop gbinf n i (j + 1) (Z.lor bits (Z.shiftl 1 j)) (i + 1)
      else warn_loop gbinf n i (j + 1) bits lvl
  end.

Definition gb_data_save_warn (gbinf : gb_info_t) : option (list Z) :=
  '(bits, lvl) ← warn_loop gbinf 32 0 0 0 0;
  '(bits, lvl) ← warn_loop gbinf 32 1 0 bits lvl;
  '(bits, lvl) ← warn_loop gbinf 32 2 0 bits lvl;
  let '(bits, lvl) := if warntest gbinf then (Z.lor bits 1, 3) else (bits, lvl) in
  Some ([GB_DATA_WARNNING; u8 lvl] ++ be32 bits ++ [0; 0; 0; 0]).

Definition gb_data_save_engin (gbinf : gb_info_t) : option (list Z) :=
  let info i := mem_get (engin_info (engin gbinf)) i in
  i ← info GB_EINF_STATE; st ← sig_state i (engin_state_tbl (engin gbinf)) 0xff;
  i ← info GB_EINF_SPEED; speed ← sig_u32 i same_d 0xffff;
  i ← info GB_EINF_FUELRATE; rate ← sig_u32 i times100 0xffff;
  Some ([GB_DATA_ENGINEINFO; u8 st] ++ be16 speed ++ be16 rate).

(** ** Location *)

Definition gb_data_gpsconv (dddmm : double) : option Z :=
  deg ← d_to_int (d_div dddmm (d_of_Z 100));
  dm ← (if (- 2 ^ 31 <=? deg * 100) && (deg * 100 <? 2 ^ 31) then Some (deg * 100) else None);
  let m := d_sub dddmm (d_of_Z dm) in
  d_to_u32 (d_mul (d_add (d_add (d_of_Z deg) (d_div m (d_of_Z 60))) d_half_micro) (d_of_Z 1000000)).

Definition gb_data_save_gps : ST SAVER (list Z) :=
  status ←
    (if gps_fix env =? 2 then
       lon ← st_lift (gb_data_gpsconv (longitude (gps_snap env)));
       st_mod (fun st => {| st with longitudeBak := lon |});;
       lat ← st_lift (gb_data_gpsconv (latitude (gps_snap env)));
       st_mod (fun st => {| st with latitudeBak := lat |});;
       mret (Z.lor (if is_north (gps_snap env) then 0 else 0x02) (if is_east (gps_snap env) then 0 else 0x04))
     else mret 0x01 : ST SAVER Z);
  lon ← st_gets longitudeBak; lat ← st_gets latitudeBak;
  mret ([GB_DATA_LOCATION; status] ++ be32 lon ++ be32 lat).

(** ** The report *)

Definition save_electric (gbinf : gb_info_t) : ST SAVER (list Z) :=
  m ← st_lift (gb_data_save_motor gbinf);
  f ← st_lift (match fuelcell_para env with
               | Some p => if p =? 0 then Some [] else gb_data_save_fuelcell gbinf
               | None => Some []
               end);
  c ← gb_data_save_cell gbinf;
  t ← st_lift (gb_data_save_temp gbinf);
  x ← gb_data_save_extr gbinf;
  mret (m ++ f ++ c ++ t ++ x).

Definition gb_data_save_all (gbinf : gb_info_t) (uptime : Z) : ST SAVER (list Z) :=
  let t := can_time env uptime in
  let head := [u8 (year t - 2000); u8 (mon t); u8 (mday t); u8 (hour t); u8 (min t); u8 (sec t)] in
  let ty := vehi_type (vehi gbinf) in
  v ← st_lift (gb_data_save_vehi gbinf);
  e ← (if (ty =? GB_VEHITYPE_ELECT) || (ty =? GB_VEHITYPE_HYBIRD) then save_electric gbinf else mret [] : ST SAVER (list Z));
  g ← st_lift (if (ty =? GB_VEHITYPE_GASFUEL) || (ty =? GB_VEHITYPE_HYBIRD) then gb_data_save_engin gbinf else Some []);
  p ← gb_data_save_gps;
  w ← st_lift (gb_data_save_warn gbinf);
  mret (head ++ v ++ e ++ g ++ p ++ w).

End encoders.

(** ** The database of signals *)

Definition set_vehi (f : gb_vehi_t -> gb_vehi_t) (g : gb_info_t) : gb_info_t := {| g with vehi := f (vehi g) |}.
Definition set_fuelcell (f : gb_fuelcell_t -> gb_fuelcell_t) (g : gb_info_t) : gb_info_t := {| g with fuelcell := f (fuelcell g) |}.
Definition set_engin (f : gb_engin_t -> gb_engin_t) (g : gb_info_t) : gb_info_t := {| g with engin := f (engin g) |}.
Definition set_batt (f : gb_batt_t -> gb_batt_t) (g : gb_info_t) : gb_info_t := {| g with batt := f (batt g) |}.
Definition set_motor (i : Z) (f : gb_motor_t -> option gb_motor_t) (g : gb_info_t) : option gb_info_t :=
  m ← mem_get (motor g) i; m ← f m; l ← mem_set (motor g) i m; Some {| g with motor := l |}.

(** [BA_ "name" fmt] *)
Definition ba (name fmt : String.string) : list Z :=
  c_chars "BA_ " ++ [34] ++ c_chars name ++ [34] ++ c_chars fmt.

(** [n] values were converted. *)
Definition conv1 (l : list SCANNED) : option Z := match l with [SvNum a] => Some a | _ => None end.
Definition conv2 (l : list SCANNED) : option (Z * Z) := match l with [SvNum a; SvNum b] => Some (a, b) | _ => None end.
Definition conv3 (l : list SCANNED) : option (Z * Z * Z) := match l with [SvNum a; SvNum b; SvNum c] => Some (a, b, c) | _ => None end.

Definition gb_data_parse_define (g : gb_info_t) (str : list Z) : option gb_info_t :=
  match conv1 (sscanf (ba "IN_VEHITYPE" " %2x") str) with
  | Some vtype =>     (* the third alternative of the condition is a constant *)
      Some (set_vehi (fun v => {| v with vehi_type := u8 vtype |}) g)
  | None =>
  match conv2 (sscanf (ba "IN_ENGINESTATE_%2x" " %2x") str) with
  | Some (index, state) =>
      t ← mem_set (engin_state_tbl (engin g)) index (u8 state); Some (set_engin (fun e => {| e with engin_state_tbl := t |}) g)
  | None =>
  match conv2 (sscanf (ba "IN_VEHISTATE_%2x" " %2x") str) with
  | Some (index, state) =>
      t ← mem_set (vehi_state_tbl (vehi g)) index (u8 state); Some (set_vehi (fun v => {| v with vehi_state_tbl := t |}) g)
  | None =>
  match conv2 (sscanf (ba "IN_VEHIMODE_%2x" " %2x") str) with
  | Some (index, state) =>
      t ← mem_set (mode_tbl (vehi g)) index (u8 state); Some (set_vehi (fun v => {| v with mode_tbl := t |}) g)
  | None =>
  match conv2 (sscanf (ba "IN_CHGSTATE_%2x" " %2x") str) with
  | Some (index, state) =>
      t ← mem_set (charge_tbl (vehi g)) index (u8 state); Some (set_vehi (fun v => {| v with charge_tbl := t |}) g)
  | None =>
  match conv2 (sscanf (ba "IN_DCDCSTATE_%2x" " %2x") str) with
  | Some (index, state) =>
      t ← mem_set (dcdc_tbl (vehi g)) index (u8 state); Some (set_vehi (fun v => {| v with dcdc_tbl := t |}) g)
  | None =>
  match conv2 (sscanf (ba "IN_HVDCDCSTATE_%2x" " %2x") str) with
  | Some (index, state) =>
      t ← mem_set (hvdcdc (fuelcell g)) index (u8 state); Some (set_fuelcell (fun f => {| f with hvdcdc := t |}) g)
  | None =>
  match conv2 (sscanf (ba "IN_SHIFT_%2x" " %c") str) with
  | Some (index, shift) =>
      t ← mem_set (shift_tbl (vehi g)) index (u8 shift); Some (set_vehi (fun v => {| v with shift_tbl := t |}) g)
  | None =>
  match conv3 (sscanf (ba "IN_MOTSTATE%u_%2x" " %2x") str) with
  | Some (mot, index, state) =>
      if mot <? GB_MAX_MOTOR then
        set_motor mot (fun m => t ← mem_set (motor_state_tbl m) index (u8 state); Some {| m with motor_state_tbl := t |}) g
      else Some g
  | None => Some g
  end end end end end end end end end.

(** The branches of [gb_data_parse_surfix]; [None] is a write outside of an
    array. *)
Definition surfix_vehi (g : gb_info_t) (sigid idx : Z) : option gb_info_t :=
  if GB_MAX_VEHI_INFO <=? idx then Some g
  else l ← mem_set (vehi_info (vehi g)) idx sigid; Some (set_vehi (fun v => {| v with vehi_info := l |}) g).

Definition surfix_motor (g : gb_info_t) (sigid idx : Z) : option gb_info_t :=
  let hi := Z.shiftr idx 8 in let lo := Z.land idx 0xff in
  if GB_MAX_MOTOR <=? hi then Some g
  else if GB_MAX_MOTOR_INFO <=? lo then Some g
  else
    g ← set_motor hi (fun m => l ← mem_set (motor_info m) lo sigid; Some {| m with motor_info := l |}) g;
    Some (if motor_cnt g <? hi + 1 then {| g with motor_cnt := hi + 1 |} else g).

Definition surfix_fuel (g : gb_info_t) (sigid idx : Z) : option gb_info_t :=
  if GB_FCINF_TEMPTAB <=? idx then
    l ← mem_set (fuel_temp (fuelcell g)) (idx - GB_FCINF_TEMPTAB) sigid;
    Some (set_fuelcell (fun f => {| f with fuel_temp_cnt := fuel_temp_cnt f + 1; fuel_temp := l |}) g)
  else if GB_FCINF_MAX <=? Z.land idx 0xf then Some g
  else l ← mem_set (fuel_info (fuelcell g)) (Z.land idx 0xf) sigid; Some (set_fuelcell (fun f => {| f with fuel_info := l |}) g).

Definition surfix_engin (g : gb_info_t) (sigid idx : Z) : option gb_info_t :=
  if GB_MAX_ENGIN_INFO <=? idx then Some g
  else l ← mem_set (engin_info (engin g)) idx sigid; Some (set_engin (fun e => {| e with engin_info := l |}) g).

Definition surfix_extr (g : gb_info_t) (sigid idx : Z) : option gb_info_t :=
  if GB_MAX_EXTR_INFO <=? idx then Some g
  else l ← mem_set (extr g) idx sigid; Some {| g with extr := l |}.

Definition surfix_warn (g : gb_info_t) (sigid idx : Z) : option gb_info_t :=
  let hi := Z.shiftr idx 8 in let lo := Z.land idx 0xff in
  if 4 <=? hi then Some g
  else if GB_MAX_WARN_INFO <=? lo then Some g
  else row ← mem_get (warn g) hi; row ← mem_set row lo sigid; l ← mem_set (warn g) hi row; Some {| g with warn := l |}.

Definition surfix_battvolt (g : gb_info_t) (sigid idx : Z) : option gb_info_t :=
  let lo := Z.land idx 0x3ff in
  if 1 <=? Z.shiftr idx 10 then Some g
  else if lo =? 0x3fe then Some (set_batt (fun b => {| b with voltage := sigid |}) g)
  else if lo =? 0x3ff then Some (set_batt (fun b => {| b with current := sigid |}) g)
  else if GB_MAX_PACK_CELL <=? lo then Some g
  else
    c ← mem_get (cell (batt g)) lo;
    if c =? 0 then
      l ← mem_set (cell (batt g)) lo sigid;
      Some (set_batt (fun b => {| b with cell := l; cell_cnt := u32 (cell_cnt b + 1) |}) g)
    else Some g.

Definition surfix_batttemp (g : gb_info_t) (sigid idx : Z) : option gb_info_t :=
  let lo := Z.land idx 0xff in
  if 1 <=? Z.shiftr idx 8 then Some g
  else if GB_MAX_PACK_TEMP <=? lo then Some g
  else
    c ← mem_get (temp (batt g)) lo;
    if c =? 0 then
      l ← mem_set (temp (batt g)) lo sigid;
      Some (set_batt (fun b => {| b with temp := l; temp_cnt := u32 (temp_cnt b + 1) |}) g)
    else Some g.

(** The length of the suffix, [0] if it is not one of this module. *)
Definition gb_data_parse_surfix (g : gb_info_t) (sigid : Z) (sfx : list Z) : option (Z * gb_info_t) :=
  if sigid <=? 0 then None    (* assert *)
  else match conv2 (sscanf (c_chars "G%1x%3x") sfx) with
  | Some (ty, idx) =>
      g ← (if ty =? GB_DATA_VEHIINFO then surfix_vehi g sigid idx
           else if ty =? GB_DATA_MOTORINFO then surfix_motor g sigid idx
           else if ty =? GB_DATA_FUELCELL then surfix_fuel g sigid idx
           else if ty =? GB_DATA_ENGINEINFO then surfix_engin g sigid idx
           else if ty =? GB_DATA_EXTREMA then surfix_extr g sigid idx
           else if ty =? GB_DATA_WARNNING then surfix_warn g sigid idx
           else if ty =? GB_DATA_BATTVOLT then surfix_battvolt g sigid idx
           else if ty =? GB_DATA_BATTTEMP then surfix_batttemp g sigid idx
           else Some g);
      Some (5, g)
  | None => Some (0, g)
  end.

(** ** Well-formed tables *)

Definition id_ok (sigcnt id : Z) : Prop := 0 <= id <= sigcnt.
Definition arr (P : Z -> Prop) (n : Z) (l : list Z) : Prop := len l = n /\ Forall P l.

Section wf.
Context (sigcnt : Z).

Record motor_ok (m : gb_motor_t) : Prop := {
  mo_info : arr (id_ok sigcnt) GB_MAX_MOTOR_INFO (motor_info m);
  mo_tbl : arr is_byte 256 (motor_state_tbl m)
}.

Record vehi_ok (v : gb_vehi_t) : Prop := {
  ve_info : arr (id_ok sigcnt) GB_MAX_VEHI_INFO (vehi_info v);
  ve_state : arr is_byte 256 (vehi_state_tbl v);
  ve_mode : arr is_byte 256 (mode_tbl v);
  ve_shift : arr is_byte 256 (shift_tbl v);
  ve_charge : arr is_byte 256 (charge_tbl v);
  ve_dcdc : arr is_byte 256 (dcdc_tbl v);
  ve_type : is_byte (vehi_type v)
}.

Record fuel_ok (f : gb_fuelcell_t) : Prop := {
  fu_info : arr (id_ok sigcnt) GB_MAX_FUEL_INFO (fuel_info f);
  fu_temp : arr (id_ok sigcnt) GB_MAX_FUEL_TEMP (fuel_temp f);
  fu_cnt : 0 <= fuel_temp_cnt f;
  fu_hv : arr is_byte 8 (hvdcdc f)
}.

Record engin_ok (e : gb_engin_t) : Prop := {
  en_info : arr (id_ok sigcnt) GB_MAX_ENGIN_INFO (engin_info e);
  en_tbl : arr is_byte 256 (engin_state_tbl e)
}.

(** The numbers of defined elements bound the counters. *)
Definition defined (l : list Z) : Z := len (filter (fun id => id <> 0) l).

Record batt_ok (b : gb_batt_t) : Prop := {
  ba_volt : id_ok sigcnt (voltage b);
  ba_cur : id_ok sigcnt (current b);
  ba_cell : arr (id_ok sigcnt) GB_MAX_PACK_CELL (cell b);
  ba_temp : arr (id_ok sigcnt) GB_MAX_PACK_TEMP (temp b);
  ba_cells : cell_cnt b = defined (cell b);
  ba_temps : temp_cnt b = defined (temp b);
  ba_high : forall i, 256 <= i -> forall id, mem_get (temp b) i = Some id -> id = 0
}.

Record gb_info_ok (g : gb_info_t) : Prop := {
  ok_vehi : vehi_ok (vehi g);
  ok_motor : len (motor g) = GB_MAX_MOTOR /\ Forall motor_ok (motor g);
  ok_motor_cnt : 0 <= motor_cnt g <= GB_MAX_MOTOR;
  ok_fuel : fuel_ok (fuelcell g);
  ok_engin : engin_ok (engin g);
  ok_batt : batt_ok (batt g);
  ok_warn : len (warn g) = 4 /\ Forall (arr (id_ok sigcnt) GB_MAX_WARN_INFO) (warn g);
  ok_extr : arr (id_ok sigcnt) GB_MAX_EXTR_INFO (extr g)
}.

End wf.

Create HintDb gb.

Lemma mem_set_out {A} (l : list A) i v : len l <= i -> mem_set l i v = None.
Proof.
  intros Hi. destruct (mem_set l i v) eqn:E; [| done]. unfold mem_set in E. destruct (_ && _) eqn:B; [| done].
  unfold len in *. lia.
Qed.

Lemma arr_set P n l i v : arr P n l -> 0 <= i < n -> P v -> exists l', mem_set l i v = Some l' /\ arr P n l'.
Proof.
  intros [Hl HP] Hi Hv. destruct (mem_set l i v) as [l'|] eqn:E.
  - exists l'. split; [done |]. split; [by rewrite (mem_set_len _ _ _ _ E) |].
    rewrite mem_set_ok in E by lia. injection E as <-. by apply Forall_insert.
  - rewrite mem_set_ok in E by lia. done.
Qed.

Lemma arr_get P n l i : arr P n l -> 0 <= i < n -> exists v, mem_get l i = Some v /\ P v.
Proof.
  intros [Hl HP] Hi. destruct (mem_get l i) as [v|] eqn:E.
  - exists v. split; [done |]. apply mem_get_Some in E as [_ E]. by eapply Forall_lookup_1.
  - exfalso. assert (is_Some (mem_get l i)) as [? ?] by (apply mem_get_is_Some; lia). congruence.
Qed.

Lemma arr_zeros (P : Z -> Prop) n : 0 <= n -> P 0 -> arr P n (zeros n).
Proof. intros Hn HP. split; [by apply len_replicate | by apply Forall_replicate]. Qed.

(** ** What [sscanf] gives *)

Definition unsigned_fmt (fmt : list Z) : bool :=
  forallb (fun wc => match wc.2 with CInt => false | _ => true end) (convs (parse_fmt None fmt)).

Lemma sscanf_u32 fmt l : Forall is_byte l -> unsigned_fmt fmt = true ->
  Forall (fun v => match v with SvNum z => is_u32 z | _ => True end) (sscanf fmt l).
Proof.
  intros Hl Hf. destruct (scan_typed (parse_fmt None fmt) l Hl) as [k Hk]. fold (sscanf fmt l) in Hk.
  unfold unsigned_fmt in Hf. rewrite forallb_forall in Hf.
  eapply Forall2_Forall_r; [exact Hk |]. apply Forall_take, List.Forall_forall. intros [w c] Hc v Hv.
  specialize (Hf (w, c) Hc). cbn in Hf, Hv.
  destruct v; [| done ..]. unfold conv_ok, is_byte, is_u16, is_u32 in *. destruct c; cbn in *; try done; lia.
Qed.

Lemma conv2_u32 fmt l a b : Forall is_byte l -> unsigned_fmt fmt = true ->
  conv2 (sscanf fmt l) = Some (a, b) -> is_u32 a /\ is_u32 b.
Proof.
  intros Hl Hf. pose proof (sscanf_u32 fmt l Hl Hf) as H. destruct (sscanf fmt l) as [|[x| |] [|[y| |] []]]; intros [= <- <-].
  by apply Forall_cons_1 in H as [? [? _]%Forall_cons_1].
Qed.

Lemma conv3_u32 fmt l a b c : Forall is_byte l -> unsigned_fmt fmt = true ->
  conv3 (sscanf fmt l) = Some (a, b, c) -> is_u32 a /\ is_u32 b /\ is_u32 c.
Proof.
  intros Hl Hf. pose proof (sscanf_u32 fmt l Hl Hf) as H.
  destruct (sscanf fmt l) as [|[x| |] [|[y| |] [|[z| |] []]]]; intros [= <- <- <-].
  by apply Forall_cons_1 in H as [? [? [? _]%Forall_cons_1]%Forall_cons_1].
Qed.

(** ** The parsers keep the table well formed *)

Lemma defined_app l k : defined (l ++ k) = defined l + defined k.
Proof. unfold defined. by rewrite list.filter_app, len_app. Qed.

Lemma defined_le l : 0 <= defined l <= len l.
Proof. unfold defined, len. pose proof (list.length_filter (fun id => id <> 0) l). lia. Qed.

Lemma defined_set l i v l' : mem_get l i = Some 0 -> v <> 0 -> mem_set l i v = Some l' -> defined l' = defined l + 1.
Proof.
  intros [Hi Hl]%mem_get_Some Hv. rewrite mem_set_ok by done. intros [= <-].
  rewrite insert_take_drop by (apply lookup_lt_Some in Hl; lia).
  rewrite <- (take_drop_middle _ _ _ Hl) at 3.
  rewrite !defined_app. unfold defined at 2 4. rewrite !list.filter_cons, decide_True, decide_False by auto.
  rewrite len_cons. lia.
Qed.

Lemma defined_zero l : Forall (fun id => id = 0) l -> defined l = 0.
Proof.
  unfold defined. induction 1 as [|x l -> _ IH]; [done |].
  by rewrite list.filter_cons_False by auto.
Qed.

Lemma defined_high l n : 0 <= n -> (forall i, n <= i -> forall id, mem_get l i = Some id -> id = 0) -> defined l <= n.
Proof.
  intros Hn H. rewrite <- (take_drop (Z.to_nat n) l), defined_app.
  pose proof (defined_le (take (Z.to_nat n) l)). rewrite len_take in *.
  assert (defined (drop (Z.to_nat n) l) = 0) as ->; [| lia].
  apply defined_zero, Forall_lookup. intros i x Hx. rewrite lookup_drop in Hx.
  apply (H (n + Z.of_nat i)); [lia |]. rewrite mem_get_lookup by lia. rewrite <- Hx. f_equal. lia.
Qed.

Section parse.
Context (sigcnt : Z).

Abbreviation gok := (gb_info_ok sigcnt).

Lemma gb_info_zero_ok : 0 <= sigcnt -> gok gb_info_zero.
Proof.
  intros Hs. assert (id_ok sigcnt 0) by (unfold id_ok; lia). assert (is_byte 0) by (unfold is_byte; lia).
  assert (forall n, 0 <= n -> arr (id_ok sigcnt) n (zeros n)) as Ai by (intros; by apply arr_zeros).
  assert (forall n, 0 <= n -> arr is_byte n (zeros n)) as Ab by (intros; by apply arr_zeros).
  split; cbn; [| | by unfold GB_MAX_MOTOR | | | | | by apply Ai].
  - split; cbn; [by apply Ai | by apply Ab .. | done].
  - split; [done |]. apply Forall_replicate. split; [by apply Ai | by apply Ab].
  - split; cbn; [by apply Ai | by apply Ai | done | by apply Ab].
  - split; [by apply Ai | by apply Ab].
  - split; cbn; [done | done | by apply Ai | by apply Ai | done | done |].
    intros i _ id [_ Hid]%mem_get_Some. by apply lookup_replicate in Hid as [-> _].
  - split; [done |]. apply (Forall_replicate _ 4). by apply Ai.
Qed.

(** A table was replaced by a well-formed one: each record is rebuilt from its
    fields. *)
Ltac rebuild G :=
  let H := fresh in pose proof G as H; destruct H; split; cbn;
  repeat match goal with
  | H : vehi_ok _ ?v |- vehi_ok _ _ => destruct H; split; cbn
  | H : fuel_ok _ ?v |- fuel_ok _ _ => destruct H; split; cbn
  | H : engin_ok _ ?v |- engin_ok _ _ => destruct H; split; cbn
  end; try done.

Lemma set_motor_ok g i f : gok g -> 0 <= i < GB_MAX_MOTOR ->
  (forall m, motor_ok sigcnt m -> exists m', f m = Some m' /\ motor_ok sigcnt m') ->
  exists g', set_motor i f g = Some g' /\ gok g' /\ motor_cnt g' = motor_cnt g.
Proof.
  intros G Hi Hf. pose proof (ok_motor _ _ G) as [Hl HP]. unfold set_motor.
  destruct (mem_get_is_Some (motor g) i ltac:(lia)) as [m Em]. rewrite Em. cbn [mbind option_bind].
  apply mem_get_Some in Em as [_ Em]. destruct (Hf m (Forall_lookup_1 _ _ _ _ HP Em)) as (m' & -> & Hm).
  cbn [mbind option_bind]. rewrite mem_set_ok by lia. cbn [mbind option_bind]. eexists. split; [done |].
  split; [| done]. rebuild G. split; [by rewrite len_insert | by apply Forall_insert].
Qed.

Context (g : gb_info_t) (G : gok g).

Definition keeps_ok (o : option gb_info_t) : Prop := exists g', o = Some g' /\ gok g'.

Lemma keeps_same : keeps_ok (Some g).
Proof using G. by exists g. Qed.

(** Replace an element of a well-formed array. *)
Ltac set_arr H :=
  match goal with |- keeps_ok (mem_set ?l ?i ?v ≫= _) =>
    let l' := fresh "l" in let E := fresh "E" in let A := fresh "A" in
    destruct (arr_set _ _ l i v H) as (l' & E & A); [try lia | try done | rewrite E; cbn [mbind option_bind]]
  end.

Context (sigid : Z) (Hsig : 0 < sigid <= sigcnt).

Lemma sig_id_ok : id_ok sigcnt sigid.
Proof using Hsig. unfold id_ok. lia. Qed.

#[local] Hint Resolve keeps_same sig_id_ok : core.

Lemma surfix_vehi_ok idx : 0 <= idx -> keeps_ok (surfix_vehi g sigid idx).
Proof using G Hsig.
  intros Hi. unfold surfix_vehi. destruct (Z.leb_spec GB_MAX_VEHI_INFO idx); [auto |].
  set_arr (ve_info _ _ (ok_vehi _ _ G)). eexists. split; [done |]. rebuild G.
Qed.

Lemma surfix_engin_ok idx : 0 <= idx -> keeps_ok (surfix_engin g sigid idx).
Proof using G Hsig.
  intros Hi. unfold surfix_engin. destruct (Z.leb_spec GB_MAX_ENGIN_INFO idx); [auto |].
  set_arr (en_info _ _ (ok_engin _ _ G)). eexists. split; [done |]. rebuild G.
Qed.

Lemma surfix_extr_ok idx : 0 <= idx -> keeps_ok (surfix_extr g sigid idx).
Proof using G Hsig.
  intros Hi. unfold surfix_extr. destruct (Z.leb_spec GB_MAX_EXTR_INFO idx); [auto |].
  set_arr (ok_extr _ _ G). eexists. split; [done |]. rebuild G.
Qed.

Lemma land_range x m : 0 <= m -> 0 <= Z.land x m <= m.
Proof.
  intros Hm. split; [apply Z.land_nonneg; auto |]. apply Z.ldiff_le; [done |].
  apply Z.bits_inj'. intros n Hn. rewrite Z.ldiff_spec, Z.land_spec, Z.bits_0. destruct (Z.testbit x n), (Z.testbit m n); done.
Qed.

Lemma surfix_motor_ok idx : 0 <= idx -> keeps_ok (surfix_motor g sigid idx).
Proof using G Hsig.
  intros Hi. unfold surfix_motor. pose proof (Z.shiftr_nonneg idx 8). pose proof (land_range idx 0xff ltac:(lia)).
  destruct (Z.leb_spec GB_MAX_MOTOR (Z.shiftr idx 8)); [auto |].
  destruct (Z.leb_spec GB_MAX_MOTOR_INFO (Z.land idx 0xff)); [auto |].
  destruct (set_motor_ok g (Z.shiftr idx 8) (fun m => l ← mem_set (motor_info m) (Z.land idx 0xff) sigid;
    Some {| m with motor_info := l |}) G ltac:(lia)) as (g' & -> & G' & E).
  - intros m [Hm Ht]. destruct (arr_set _ _ _ (Z.land idx 0xff) sigid Hm) as (l' & -> & A); [lia | auto |].
    eexists. by split.
  - cbn [mbind option_bind]. eexists. split; [done |]. destruct (Z.ltb_spec (motor_cnt g') (Z.shiftr idx 8 + 1)); [| done].
    rebuild G'. lia.
Qed.

Lemma surfix_warn_ok idx : 0 <= idx -> keeps_ok (surfix_warn g sigid idx).
Proof using G Hsig.
  intros Hi. unfold surfix_warn. pose proof (Z.shiftr_nonneg idx 8). pose proof (land_range idx 0xff ltac:(lia)).
  destruct (Z.leb_spec 4 (Z.shiftr idx 8)); [auto |].
  destruct (Z.leb_spec GB_MAX_WARN_INFO (Z.land idx 0xff)); [auto |].
  pose proof (ok_warn _ _ G) as [Hl HP].
  destruct (mem_get_is_Some (warn g) (Z.shiftr idx 8) ltac:(lia)) as [row Er]. rewrite Er. cbn [mbind option_bind].
  apply mem_get_Some in Er as [_ Er]. pose proof (Forall_lookup_1 _ _ _ _ HP Er) as Hr.
  set_arr Hr. rewrite mem_set_ok by lia. cbn [mbind option_bind].
  eexists. split; [done |]. rebuild G. split; [by rewrite len_insert | by apply Forall_insert].
Qed.

Lemma surfix_fuel_ok idx : 0 <= idx < 456 -> keeps_ok (surfix_fuel g sigid idx).
Proof using G Hsig.
  intros Hi. unfold surfix_fuel. destruct (Z.leb_spec GB_FCINF_TEMPTAB idx) as [Ht | Ht]; unfold GB_FCINF_TEMPTAB in *.
  - set_arr (fu_temp _ _ (ok_fuel _ _ G)); [unfold GB_MAX_FUEL_TEMP; lia |].
    eexists. split; [done |]. rebuild G. lia.
  - pose proof (land_range idx 0xf ltac:(lia)). destruct (Z.leb_spec GB_FCINF_MAX (Z.land idx 0xf)); [auto |].
    set_arr (fu_info _ _ (ok_fuel _ _ G)); [unfold GB_FCINF_MAX, GB_FCINF_HVDCDC, GB_MAX_FUEL_INFO in *; lia |].
    eexists. split; [done |]. rebuild G.
Qed.

Lemma set_batt_ok b : batt_ok sigcnt b -> gok (set_batt (fun _ => b) g).
Proof using G. intros B. rebuild G. Qed.

Lemma surfix_battvolt_ok idx : 0 <= idx -> keeps_ok (surfix_battvolt g sigid idx).
Proof using G Hsig.
  intros Hi. pose proof (ok_batt _ _ G) as B. unfold surfix_battvolt. pose proof (land_range idx 0x3ff ltac:(lia)).
  destruct (1 <=? _); [auto |].
  destruct (_ =? 0x3fe); [eexists; split; [done |]; apply set_batt_ok; destruct B; by split |].
  destruct (_ =? 0x3ff); [eexists; split; [done |]; apply set_batt_ok; destruct B; by split |].
  destruct (Z.leb_spec GB_MAX_PACK_CELL (Z.land idx 0x3ff)); [auto |].
  destruct (arr_get _ _ _ (Z.land idx 0x3ff) (ba_cell _ _ B)) as (c & Ec & _); [lia |].
  rewrite Ec. cbn [mbind option_bind]. destruct (Z.eqb_spec c 0) as [-> | _]; [| auto].
  set_arr (ba_cell _ _ B). eexists. split; [done |]. apply set_batt_ok.
  pose proof (defined_le l). pose proof (defined_set _ _ sigid _ Ec ltac:(lia) E). pose proof (proj1 A).
  destruct B; split; cbn; try done. rewrite ba_cells0, u32_small; unfold is_u32, GB_MAX_PACK_CELL in *; lia.
Qed.

Lemma surfix_batttemp_ok idx : 0 <= idx -> keeps_ok (surfix_batttemp g sigid idx).
Proof using G Hsig.
  intros Hi. pose proof (ok_batt _ _ G) as B. unfold surfix_batttemp. pose proof (land_range idx 0xff ltac:(lia)).
  destruct (1 <=? _); [auto |].
  destruct (Z.leb_spec GB_MAX_PACK_TEMP (Z.land idx 0xff)); [auto |].
  destruct (arr_get _ _ _ (Z.land idx 0xff) (ba_temp _ _ B)) as (c & Ec & _); [unfold GB_MAX_PACK_TEMP; lia |].
  rewrite Ec. cbn [mbind option_bind]. destruct (Z.eqb_spec c 0) as [-> | _]; [| auto].
  set_arr (ba_temp _ _ B). eexists. split; [done |]. apply set_batt_ok.
  pose proof (defined_le l). pose proof (defined_set _ _ sigid _ Ec ltac:(lia) E). pose proof (proj1 A).
  destruct B; split; cbn; try done.
  - rewrite ba_temps0, u32_small; unfold is_u32, GB_MAX_PACK_TEMP in *; lia.
  - intros i Hi' id Hid. rewrite mem_set_ok in E by (rewrite (proj1 ba_temp0); unfold GB_MAX_PACK_TEMP; lia).
    injection E as <-. rewrite mem_get_lookup, list_lookup_insert_ne in Hid by lia.
    apply (ba_high0 i); [done |]. by rewrite mem_get_lookup by lia.
Qed.

End parse.

(** The events of the signal database between a reload and its end. *)
Inductive DBC_LINE := DbcDefine (str : list Z) | DbcSurfix (sigid : Z) (sfx : list Z).

Definition dbc_line (g : gb_info_t) (e : DBC_LINE) : option gb_info_t :=
  match e with
  | DbcDefine str => gb_data_parse_define g str
  | DbcSurfix sigid sfx => '(_, g) ← gb_data_parse_surfix g sigid sfx; Some g
  end.

Fixpoint dbc_lines (g : gb_info_t) (es : list DBC_LINE) : option gb_info_t :=
  match es with [] => Some g | e :: es => g ← dbc_line g e; dbc_lines g es end.

(** Definitions whose index is outside of its table. *)
Definition table_formats : list (list Z * Z) :=
  [(ba "IN_ENGINESTATE_%2x" " %2x", 256); (ba "IN_VEHISTATE_%2x" " %2x", 256); (ba "IN_VEHIMODE_%2x" " %2x", 256);
   (ba "IN_CHGSTATE_%2x" " %2x", 256); (ba "IN_DCDCSTATE_%2x" " %2x", 256); (ba "IN_HVDCDCSTATE_%2x" " %2x", 8);
   (ba "IN_SHIFT_%2x" " %c", 256)].

Definition line_overflows (e : DBC_LINE) : Prop :=
  match e with
  | DbcDefine str =>
      (exists fmt n index v, In (fmt, n) table_formats /\ conv2 (sscanf fmt str) = Some (index, v) /\ n <= index) \/
      (exists m index v, conv3 (sscanf (ba "IN_MOTSTATE%u_%2x" " %2x") str) = Some (m, index, v) /\ 256 <= index)
  | DbcSurfix _ sfx => exists idx, conv2 (sscanf (c_chars "G%1x%3x") sfx) = Some (GB_DATA_FUELCELL, idx) /\ 456 <= idx
  end.

Definition line_ok (sigcnt : Z) (e : DBC_LINE) : Prop :=
  match e with
  | DbcDefine str => Forall is_byte str
  | DbcSurfix sigid sfx => 0 < sigid <= sigcnt /\ Forall is_byte sfx
  end.

Section lines.
Context (sigcnt : Z).

(** A line leaves a well-formed table, or stops with an index that overflows. *)
Definition parsed (e : DBC_LINE) (o : option gb_info_t) : Prop :=
  match o with Some g => gb_info_ok sigcnt g | None => line_overflows e end.

Lemma keeps_parsed e o : keeps_ok sigcnt o -> parsed e o.
Proof. by intros (g & -> & G). Qed.

Lemma surfix_overflows g sigid sfx idx : gb_info_ok sigcnt g -> 0 < sigid ->
  conv2 (sscanf (c_chars "G%1x%3x") sfx) = Some (GB_DATA_FUELCELL, idx) -> 456 <= idx ->
  dbc_line g (DbcSurfix sigid sfx) = None.
Proof.
  intros G Hs E Hi. cbn [dbc_line]. unfold gb_data_parse_surfix. rewrite (proj2 (Z.leb_gt sigid 0)), E by done.
  replace (surfix_fuel g sigid idx) with (@None gb_info_t); [done |]. unfold surfix_fuel, GB_FCINF_TEMPTAB.
  rewrite (proj2 (Z.leb_le 256 idx)) by lia. rewrite mem_set_out; [done |].
  rewrite (proj1 (fu_temp _ _ (ok_fuel _ _ G))). unfold GB_MAX_FUEL_TEMP. lia.
Qed.

Lemma surfix_run g sigid sfx : gb_info_ok sigcnt g -> line_ok sigcnt (DbcSurfix sigid sfx) ->
  parsed (DbcSurfix sigid sfx) (dbc_line g (DbcSurfix sigid sfx)).
Proof.
  intros G [Hsig Hb].
  destruct (conv2 (sscanf (c_chars "G%1x%3x") sfx)) as [[ty idx]|] eqn:E.
  2: { cbn [dbc_line]. unfold gb_data_parse_surfix. rewrite E. by destruct (Z.leb_spec sigid 0); [lia |]. }
  pose proof (conv2_u32 _ _ _ _ Hb (eq_refl : unsigned_fmt (c_chars "G%1x%3x") = true) E) as [_ Hi]. unfold is_u32 in Hi.
  destruct (decide (ty = GB_DATA_FUELCELL /\ 456 <= idx)) as [[-> Hbig] | N].
  { rewrite (surfix_overflows g sigid sfx idx) by (done || lia). by exists idx. }
  apply keeps_parsed. cbn [dbc_line]. unfold gb_data_parse_surfix. rewrite E.
  destruct (Z.leb_spec sigid 0); [lia |].
  match goal with |- context [?o ≫= (fun g0 => Some (5, g0))] =>
    enough (keeps_ok sigcnt o) as (g' & -> & G') by (by exists g') end.
  repeat match goal with |- context [if ?b then _ else _] => destruct b eqn:? end;
    eauto using surfix_vehi_ok, surfix_motor_ok, surfix_engin_ok, surfix_extr_ok, surfix_warn_ok,
      surfix_battvolt_ok, surfix_batttemp_ok, keeps_same with lia.
  apply surfix_fuel_ok; [done | done |]. lia.
Qed.

Lemma table_unsigned fmt n : In (fmt, n) table_formats -> unsigned_fmt fmt = true.
Proof.
  assert (forallb (fun p => unsigned_fmt p.1) table_formats = true) as H by reflexivity.
  rewrite forallb_forall in H. apply (H (fmt, n)).
Qed.

(** A table of the definitions. *)
Lemma table_ok str fmt n index v t (k : list Z -> gb_info_t) :
  Forall is_byte str -> In (fmt, n) table_formats -> conv2 (sscanf fmt str) = Some (index, v) ->
  arr is_byte n t -> (forall t', arr is_byte n t' -> gb_info_ok sigcnt (k t')) -> forall w, is_byte w ->
  parsed (DbcDefine str) (t' ← mem_set t index w; Some (k t')).
Proof.
  intros Hb Hin Hs Ht Hk w Hw. pose proof (conv2_u32 _ _ _ _ Hb (table_unsigned _ _ Hin) Hs) as [Hi _]. unfold is_u32 in Hi.
  destruct (Z.ltb_spec index n) as [Hlt | Hge].
  2: { rewrite mem_set_out by (rewrite (proj1 Ht); lia). left. by exists fmt, n, index, v. }
  apply keeps_parsed. destruct (arr_set _ _ _ index w Ht) as (t' & -> & A); [lia | done |].
  eexists. split; [done | by apply Hk].
Qed.

Ltac rebuild G :=
  let H := fresh in pose proof G as H; destruct H; split; cbn;
  repeat match goal with
  | H : vehi_ok _ ?v |- vehi_ok _ _ => destruct H; split; cbn
  | H : fuel_ok _ ?v |- fuel_ok _ _ => destruct H; split; cbn
  | H : engin_ok _ ?v |- engin_ok _ _ => destruct H; split; cbn
  end; try done.

Lemma u8_byte z : is_byte (u8 z).
Proof. apply u8_range. Qed.

(** One table of [gb_data_parse_define]. *)
Ltac define_tbl G Hb H :=
  match goal with |- parsed _ match conv2 (sscanf ?f ?s) with _ => _ end =>
    let E := fresh "Hc" in
    destruct (conv2 (sscanf f s)) as [[? ?]|] eqn:E;
    [eapply (table_ok s f); [exact Hb | cbn [table_formats In]; tauto | exact E | exact H | intros ? ?; rebuild G | apply u8_byte] |]
  end.

Lemma define_run g str : gb_info_ok sigcnt g -> line_ok sigcnt (DbcDefine str) ->
  parsed (DbcDefine str) (dbc_line g (DbcDefine str)).
Proof.
  intros G Hb. cbn [line_ok dbc_line] in *. unfold gb_data_parse_define.
  pose proof (keeps_same sigcnt g G) as K. pose proof (u8_byte) as B8.
  destruct (conv1 _) as [v|]; [apply keeps_parsed; eexists; split; [done |]; rebuild G |].
  define_tbl G Hb (en_tbl _ _ (ok_engin _ _ G)).
  define_tbl G Hb (ve_state _ _ (ok_vehi _ _ G)).
  define_tbl G Hb (ve_mode _ _ (ok_vehi _ _ G)).
  define_tbl G Hb (ve_charge _ _ (ok_vehi _ _ G)).
  define_tbl G Hb (ve_dcdc _ _ (ok_vehi _ _ G)).
  define_tbl G Hb (fu_hv _ _ (ok_fuel _ _ G)).
  define_tbl G Hb (ve_shift _ _ (ok_vehi _ _ G)).
  destruct (conv3 _) as [[[mot index] state]|] eqn:E; [| done].
  pose proof (conv3_u32 _ _ _ _ _ Hb (eq_refl : unsigned_fmt (ba "IN_MOTSTATE%u_%2x" " %2x") = true) E) as (Hm & Hi & _). unfold is_u32 in *.
  destruct (Z.ltb_spec mot GB_MAX_MOTOR); [| done].
  destruct (Z.ltb_spec index 256).
  2: { destruct (set_motor _ _ _) as [g'|] eqn:Eg; [| right; by exists mot, index, state].
       unfold set_motor in Eg. destruct (mem_get (motor g) mot) as [m|] eqn:Em; [| done]. cbn [mbind option_bind] in Eg.
       rewrite mem_set_out in Eg; [done |]. apply mem_get_Some in Em as [_ Em].
       destruct (Forall_lookup_1 _ _ _ _ (proj2 (ok_motor _ _ G)) Em) as [_ [Hl _]]. lia. }
  apply keeps_parsed.
  destruct (set_motor_ok sigcnt g mot (fun m => t ← mem_set (motor_state_tbl m) index (u8 state);
    Some {| m with motor_state_tbl := t |}) G ltac:(lia)) as (g' & E' & G' & _); [| by exists g'].
  intros m [Hinfo Ht]. destruct (arr_set _ _ _ index (u8 state) Ht) as (t' & -> & A); [lia | apply u8_byte |].
  eexists. by split.
Qed.

Lemma lines_run es : forall g, gb_info_ok sigcnt g -> Forall (line_ok sigcnt) es ->
  match dbc_lines g es with Some g' => gb_info_ok sigcnt g' | None => Exists line_overflows es end.
Proof.
  induction es as [|e es IH]; intros g G Hes; cbn [dbc_lines]; [done |].
  apply Forall_cons_1 in Hes as [He Hes].
  assert (parsed e (dbc_line g e)) as H by (destruct e; [by apply define_run | by apply surfix_run]).
  unfold parsed in H. destruct (dbc_line g e) as [g'|]; cbn [mbind option_bind]; [| by apply Exists_cons_hd].
  specialize (IH g' H Hes). destruct (dbc_lines g' es); [done | by apply Exists_cons_tl].
Qed.

End lines.

(** ** Length of a report *)

(** A result that satisfies [P]. *)
Definition gives {A} (P : A -> Prop) (o : option A) : Prop := exists a, o = Some a /\ P a.

Lemma gives_some {A} (P : A -> Prop) a : P a -> gives P (Some a).
Proof. by exists a. Qed.
Lemma gives_bind {A B} (P : A -> Prop) (Q : B -> Prop) o (k : A -> option B) :
  gives P o -> (forall a, P a -> gives Q (k a)) -> gives Q (o ≫= k).
Proof. intros (a & -> & Ha) Hk. by apply Hk. Qed.

Definition bytes (n : Z) (l : list Z) : Prop := len l = n /\ Forall is_byte l.

Lemma bytes_nil : bytes 0 [].
Proof. by split. Qed.
Lemma bytes_cons n x l : is_byte x -> bytes n l -> bytes (1 + n) (x :: l).
Proof. intros Hx [Hn Hl]. split; [rewrite len_cons; lia | by constructor]. Qed.
Lemma bytes_app n m k l : bytes n k -> bytes m l -> bytes (n + m) (k ++ l).
Proof. intros [Hn Hk] [Hm Hl]. split; [rewrite len_app; lia | by apply Forall_app]. Qed.
Lemma bytes_eq n m l : bytes m l -> m = n -> bytes n l.
Proof. by intros ? <-. Qed.
Lemma bytes_be16 v : bytes 2 (be16 v).
Proof. split; [done |]. repeat constructor; apply u8_byte. Qed.
Lemma bytes_be32 v : bytes 4 (be32 v).
Proof. split; [done |]. repeat constructor; apply u8_byte. Qed.

Ltac byte_tac :=
  match goal with
  | |- is_byte (u8 _) => apply u8_byte
  | |- is_byte ?x => first [is_var x; assumption | split; by vm_compute]
  end.
Ltac bytes_step :=
  match goal with
  | |- bytes _ [] => apply bytes_nil
  | |- bytes _ (be16 _) => apply bytes_be16
  | |- bytes _ (be32 _) => apply bytes_be32
  | |- bytes _ (_ ++ _) => eapply bytes_app
  | |- bytes _ (_ :: _) => eapply bytes_cons; [byte_tac |]
  | |- bytes _ ?l => is_var l; eassumption
  end.
Ltac bytes_tac := eapply bytes_eq; [repeat bytes_step | try lia].

(** Values that every conversion of the encoders can hold. *)
Definition conversions : list (double -> double) :=
  [same_d; times10; times10_plus 10000; times10_plus 20000; times10_plus 400; plus 40; plus 20000;
   times100; times1000; fun v => MIN_d v 60000].

Record tame (v : double) : Prop := {
  tame_u32 f : In f conversions -> is_Some (d_to_u32 (f v));
  tame_u8 : gives is_byte (d_to_u8 (plus 40 v))
}.

(** The signals that index tables of 256 bytes. *)
Definition state_ids (g : gb_info_t) : list (option Z) :=
  map (mem_get (vehi_info (vehi g))) [GB_VINF_STATE; GB_VINF_CHARGE; GB_VINF_VEHIMODE; GB_VINF_DCDC; GB_VINF_SHIFT]
  ++ map (fun m => mem_get (motor_info m) GB_MINF_STATE) (motor g) ++ [mem_get (engin_info (engin g)) GB_EINF_STATE].

Record env_ok (sigcnt : Z) (g : gb_info_t) (env : DATA_ENV) : Prop := {
  eo_sig id : 0 < id <= sigcnt -> gives tame (sig_value env id);
  eo_state id v z : In (Some id) (state_ids g) -> sig_value env id = Some v -> d_to_u32 v = Some z -> z < 256;
  eo_hv id v z : mem_get (fuel_info (fuelcell g)) GB_FCINF_HVDCDC = Some id ->
    sig_value env id = Some v -> d_to_u32 v = Some z -> z < 8;
  eo_gps : gps_fix env = 2 -> is_Some (gb_data_gpsconv (longitude (gps_snap env))) /\ is_Some (gb_data_gpsconv (latitude (gps_snap env)))
}.

(** What [DBC_EVENT_FINISHED] checks: the elements are numbered without gaps. *)
Definition dense (l : list Z) (n : Z) : Prop := forall i, 0 <= i < n -> exists id, mem_get l i = Some id /\ id <> 0.

Lemma d_to_range lo hi x z : d_to lo hi x = Some z -> lo <= z < hi.
Proof.
  unfold d_to. destruct (d_trunc x) as [t|]; cbn [mbind option_bind]; [| done].
  destruct (Z.leb_spec lo t), (Z.ltb_spec t hi); cbn; intros [= <-]; lia.
Qed.

Section reports.
Context (sigcnt : Z) (g : gb_info_t) (env : DATA_ENV).
Context (G : gb_info_ok sigcnt g) (E : env_ok sigcnt g env).

Lemma gives_get P n l i : arr P n l -> 0 <= i < n -> gives (fun v => mem_get l i = Some v /\ P v) (mem_get l i).
Proof using. intros A Hi. destruct (arr_get _ _ _ _ A Hi) as (v & Ev & Hv). exists v. auto. Qed.

Lemma gives_u32 id f d : id_ok sigcnt id -> In f conversions -> gives (fun _ => True) (sig_u32 env id f d).
Proof using E.
  intros Hid Hf. unfold sig_u32. destruct (Z.eqb_spec id 0); [by apply gives_some |].
  eapply gives_bind; [apply (eo_sig _ _ _ E); unfold id_ok in *; lia |]. intros v Hv.
  destruct (tame_u32 _ Hv f Hf) as [z ->]. by exists z.
Qed.

Lemma gives_state id tbl n d : id_ok sigcnt id -> arr is_byte n tbl -> is_byte d ->
  (forall v z, sig_value env id = Some v -> d_to_u32 v = Some z -> z < n) ->
  gives is_byte (sig_state env id tbl d).
Proof using E.
  intros Hid Ht Hd Hv. unfold sig_state. destruct (Z.eqb_spec id 0); [by apply gives_some |].
  destruct (eo_sig _ _ _ E id ltac:(unfold id_ok in *; lia)) as (v & Ev & T). rewrite Ev. cbn [mbind option_bind].
  destruct (tame_u32 _ T same_d ltac:(by left)) as [z Ez]. change (same_d v) with v in Ez. rewrite Ez. cbn [mbind option_bind].
  pose proof (d_to_range _ _ _ _ Ez). destruct (arr_get _ _ _ z Ht) as (b & -> & Hb); [specialize (Hv v z Ev Ez); lia |].
  cbn [mbind option_bind]. apply gives_some. by destruct (b =? 0).
Qed.

Lemma gives_pos id : id <> 0 -> id_ok sigcnt id -> gives (fun _ => True) (sig_pos env id).
Proof using E.
  intros N Hid. unfold sig_pos. eapply gives_bind; [apply (eo_sig _ _ _ E); unfold id_ok in *; lia |].
  intros v _. by apply gives_some.
Qed.

Lemma gives_indicator ind pad bit t : id_ok sigcnt ind -> id_ok sigcnt pad -> gives (fun _ => True) (indicator env ind pad bit t).
Proof using E.
  intros Hi Hp. unfold indicator.
  destruct (Z.eqb_spec ind 0); cbn [negb].
  - destruct (Z.eqb_spec pad 0); cbn [negb]; [by apply gives_some |].
    eapply gives_bind; [by apply gives_pos |]. intros [] _; by apply gives_some.
  - eapply gives_bind; [by apply gives_pos |]. intros [] _; by apply gives_some.
Qed.

Lemma state_bound id v z : In (Some id) (state_ids g) -> sig_value env id = Some v -> d_to_u32 v = Some z -> z < 256.
Proof using E. apply (eo_state _ _ _ E). Qed.

Ltac get A :=
  eapply gives_bind; [apply (gives_get _ _ _ _ A); done |]; intros ? [? ?].
Ltac conv := eapply gives_bind; [apply gives_u32; [done | cbn [conversions In]; tauto] |]; intros ? _.

(** An element that selects a conversion, or the index of a table. *)
Ltac get_conv A := get A; conv.

Lemma vehi_state i id tbl d : mem_get (vehi_info (vehi g)) i = Some id -> id_ok sigcnt id ->
  In i [GB_VINF_STATE; GB_VINF_CHARGE; GB_VINF_VEHIMODE; GB_VINF_DCDC; GB_VINF_SHIFT] ->
  arr is_byte 256 tbl -> is_byte d -> gives is_byte (sig_state env id tbl d).
Proof using E.
  intros Hi Hid Hin Ht Hd. eapply gives_state; [done | exact Ht | done |].
  intros v z. apply state_bound. unfold state_ids. apply in_or_app. left.
  rewrite <- Hi. by apply (in_map (mem_get (vehi_info (vehi g)))).
Qed.

Ltac get_state A := get A; eapply gives_bind;
  [eapply vehi_state; [eassumption | done | cbn [In]; tauto | apply (ok_vehi _ _ G) | first [apply (ok_vehi _ _ G) | done]] |];
  intros ? ?.

Lemma save_shift_ok id : mem_get (vehi_info (vehi g)) GB_VINF_SHIFT = Some id -> id_ok sigcnt id ->
  gives (fun _ => True) (save_shift env (vehi g) id).
Proof using G E.
  intros Hi Hid. pose proof (ve_info _ _ (ok_vehi _ _ G)) as A. unfold save_shift.
  destruct (Z.eqb_spec id 0); [by apply gives_some |].
  destruct (eo_sig _ _ _ E id ltac:(unfold id_ok in *; lia)) as (v & Ev & T). rewrite Ev. cbn [mbind option_bind].
  destruct (tame_u32 _ T same_d ltac:(by left)) as [z Ez]. change (same_d v) with v in Ez. rewrite Ez. cbn [mbind option_bind].
  pose proof (d_to_range _ _ _ _ Ez).
  assert (z < 256) by (eapply state_bound; [unfold state_ids; rewrite <- Hi; apply in_or_app; left; cbn; tauto | done | done]).
  destruct (arr_get _ _ _ z (ve_shift _ _ (ok_vehi _ _ G))) as (b & -> & _); [lia |]. cbn [mbind option_bind].
  get A. get A. eapply gives_bind; [by apply gives_indicator |]. intros ? _.
  get A. get A. by apply gives_indicator.
Qed.

Lemma save_vehi_ok : gives (bytes 21) (gb_data_save_vehi env g).
Proof using G E.
  pose proof (ve_info _ _ (ok_vehi _ _ G)) as A. unfold gb_data_save_vehi.
  get_state A. get_state A. get_state A.
  get_conv A. get_conv A. get_conv A. get_conv A. get_conv A. get_state A.
  get A. eapply gives_bind; [by apply save_shift_ok |]. intros ? _.
  get_conv A. get_conv A. get_conv A. apply gives_some. bytes_tac.
Qed.

Lemma each_ok m (f : Z -> option (list Z)) n : forall i,
  (forall j, i <= j < i + Z.of_nat n -> gives (bytes m) (f j)) -> gives (bytes (Z.of_nat n * m)) (each n i f).
Proof using.
  induction n as [|n IH]; intros i H; cbn [each]; [apply gives_some, bytes_nil |].
  eapply gives_bind; [apply H; lia |]. intros a Ha.
  eapply gives_bind; [apply IH; intros j Hj; apply H; lia |]. intros l Hl.
  apply gives_some. eapply bytes_eq; [by apply bytes_app | lia].
Qed.

Lemma each_ok_Z m (f : Z -> option (list Z)) n i : 0 <= n ->
  (forall j, i <= j < i + n -> gives (bytes m) (f j)) -> gives (bytes (n * m)) (each (Z.to_nat n) i f).
Proof using. intros Hn H. rewrite <- (Z2Nat.id n) at 1 by done. apply each_ok. by rewrite Z2Nat.id. Qed.

Lemma save_one_motor_ok i : 0 <= i < GB_MAX_MOTOR -> gives (bytes 12) (save_one_motor env g i).
Proof using G E.
  intros Hi. destruct (ok_motor _ _ G) as [Hl HP]. unfold save_one_motor.
  destruct (mem_get_is_Some (motor g) i ltac:(lia)) as [m Em]. rewrite Em. cbn [mbind option_bind].
  apply mem_get_Some in Em as [_ Em]. destruct (Forall_lookup_1 _ _ _ _ HP Em) as [A T].
  get A. eapply gives_bind.
  { eapply gives_state; [done | exact T | done |]. intros v z. apply state_bound. unfold state_ids.
    apply in_or_app. right. apply in_or_app. left. apply in_map_iff. exists m. split; [done |].
    by apply list_elem_of_In, list_elem_of_lookup_2 with (Z.to_nat i). }
  intros ? ?. get_conv A. get_conv A. get_conv A. get_conv A. get_conv A. get_conv A. apply gives_some. bytes_tac.
Qed.

Lemma save_motor_ok : gives (bytes (2 + 12 * motor_cnt g)) (gb_data_save_motor env g).
Proof using G E.
  pose proof (ok_motor_cnt _ _ G). unfold gb_data_save_motor.
  eapply gives_bind; [apply (each_ok_Z 12); [lia |]; intros j Hj; apply save_one_motor_ok; lia |].
  intros l Hl. apply gives_some. cbn [app]. bytes_tac.
Qed.

Lemma save_fuelcell_ok : fuel_temp_cnt (fuelcell g) <= GB_MAX_FUEL_TEMP ->
  gives (bytes (19 + fuel_temp_cnt (fuelcell g))) (gb_data_save_fuelcell env g).
Proof using G E.
  intros Hc. pose proof (ok_fuel _ _ G) as F. pose proof (fu_info _ _ F) as A. pose proof (fu_cnt _ _ F) as Hc0.
  unfold gb_data_save_fuelcell. get_conv A. get_conv A. get_conv A.
  eapply gives_bind.
  { apply (each_ok_Z 1); [lia |]. intros j Hj. unfold save_one_fuel_temp.
    pose proof (fu_temp _ _ F) as T. eapply gives_bind; [apply (gives_get _ _ _ _ T); lia |]. intros id [_ Hid].
    conv. apply gives_some. bytes_tac. }
  intros temps Ht. get_conv A. get_conv A. get_conv A. get_conv A. get_conv A. get_conv A.
  get A. eapply gives_bind.
  { eapply gives_state; [done | exact (fu_hv _ _ F) | done |]. intros v z. by eapply (eo_hv _ _ _ E). }
  intros ? ?. apply gives_some. bytes_tac.
Qed.

Lemma save_engin_ok : gives (bytes 6) (gb_data_save_engin env g).
Proof using G E.
  pose proof (en_info _ _ (ok_engin _ _ G)) as A. unfold gb_data_save_engin.
  get A. eapply gives_bind.
  { eapply gives_state; [done | exact (en_tbl _ _ (ok_engin _ _ G)) | done |]. intros v z. apply state_bound. unfold state_ids.
    apply in_or_app. right. apply in_or_app. right. by left. }
  intros ? ?. get_conv A. get_conv A. apply gives_some. bytes_tac.
Qed.

Lemma temp_cnt_range : 0 <= temp_cnt (batt g) <= 256.
Proof using G.
  pose proof (ok_batt _ _ G) as B. rewrite (ba_temps _ _ B). split; [apply defined_le |].
  apply defined_high; [lia | apply B].
Qed.

Lemma cell_cnt_range : 0 <= cell_cnt (batt g) <= 800.
Proof using G.
  pose proof (ok_batt _ _ G) as B. rewrite (ba_cells _ _ B). pose proof (defined_le (cell (batt g))).
  rewrite (proj1 (ba_cell _ _ B)) in *. done.
Qed.

Lemma save_temp_ok : gives (bytes (5 + temp_cnt (batt g))) (gb_data_save_temp env g).
Proof using G E.
  pose proof temp_cnt_range. unfold gb_data_save_temp.
  eapply gives_bind.
  { apply (each_ok_Z 1); [lia |]. intros j Hj. unfold save_one_temp.
    eapply gives_bind; [apply (gives_get _ _ _ _ (ba_temp _ _ (ok_batt _ _ G))); unfold GB_MAX_PACK_TEMP; lia |].
    intros id [_ Hid]. destruct (Z.eqb_spec id 0); [apply gives_some; bytes_tac |].
    eapply gives_bind; [apply (eo_sig _ _ _ E); unfold id_ok in *; lia |]. intros v Hv.
    eapply gives_bind; [apply Hv |]. intros b Hb. apply gives_some. bytes_tac. }
  intros l Hl. apply gives_some. bytes_tac.
Qed.

Lemma save_one_cell_ok i : 0 <= i < 800 -> gives (bytes 2) (save_one_cell env g i).
Proof using G E.
  intros Hi. unfold save_one_cell.
  eapply gives_bind; [apply (gives_get _ _ _ _ (ba_cell _ _ (ok_batt _ _ G))); unfold GB_MAX_PACK_CELL; lia |].
  intros id [_ Hid]. conv. apply gives_some. bytes_tac.
Qed.

(** The state of the encoders before the report [k] of a group. *)
Definition group_at (k : Z) (st : SAVER) : Prop := start st = 200 * k /\ packnum st = k.

Lemma group_size : GROUP_SIZE g = (cell_cnt (batt g) + 199) / 200.
Proof using G.
  pose proof cell_cnt_range. unfold GROUP_SIZE, RDUP_DIV.
  rewrite (u32_small (_ + 200)), u32_small by (unfold is_u32; lia). f_equal. lia.
Qed.

Lemma group_bounds k : 0 <= k < GROUP_SIZE g -> 200 * k < cell_cnt (batt g) /\ k < 4.
Proof using G.
  rewrite group_size. pose proof cell_cnt_range. intros Hk.
  pose proof (Z.mul_div_le (cell_cnt (batt g) + 199) 200 ltac:(lia)).
  assert ((cell_cnt (batt g) + 199) / 200 < 5) by (apply Z.div_lt_upper_bound; lia). lia.
Qed.

(** The number after the last report is the first again. *)
Lemma next_group k : 0 <= k < GROUP_SIZE g -> exists k', k' = u32 (k + 1) mod GROUP_SIZE g /\
  0 <= k' < GROUP_SIZE g /\
  u32 (200 * k + Z.min (cell_cnt (batt g) - 200 * k) 200) mod cell_cnt (batt g) = 200 * k'.
Proof using G.
  intros Hk. pose proof (group_bounds k Hk) as [Hlt H4]. pose proof cell_cnt_range. rewrite group_size in *.
  eexists. split; [done |]. split; [apply Z.mod_pos_bound; lia |]. rewrite !u32_small; unfold is_u32; [| lia..].
  set (c := cell_cnt (batt g)) in *. destruct (Z.eq_dec (k + 1) ((c + 199) / 200)) as [El | Nl].
  - rewrite El, Z.mod_same by lia.
    assert (c - 200 * k <= 200).
    { pose proof (Z.mul_succ_div_gt (c + 199) 200 ltac:(lia)). lia. }
    rewrite Z.min_l by lia. replace (200 * k + (c - 200 * k)) with c by lia. rewrite Z.mod_same by lia. lia.
  - rewrite (Z.mod_small (k + 1)) by lia.
    assert (200 * (k + 1) < c).
    { pose proof (Z.mul_div_le (c + 199) 200 ltac:(lia)). lia. }
    rewrite Z.min_r by lia. rewrite Z.mod_small by lia. lia.
Qed.

Definition cells_at (k : Z) : Z := Z.min (cell_cnt (batt g) - 200 * k) 200.

Lemma save_cell_run k st : 0 <= k < GROUP_SIZE g -> start st = 200 * k ->
  exists head l, bytes 12 head /\ each (Z.to_nat (cells_at k)) (200 * k) (save_one_cell env g) = Some l /\
    bytes (2 * cells_at k) l /\
    gb_data_save_cell env g st = Some (head ++ l, {| st with start := 200 * (u32 (k + 1) mod GROUP_SIZE g) |}).
Proof using G E.
  intros Hk Hs. pose proof (group_bounds k Hk) as [Hlt H4]. pose proof cell_cnt_range as Hc.
  destruct (next_group k Hk) as (k' & -> & Hk' & Hn).
  pose proof (ba_volt _ _ (ok_batt _ _ G)) as Hv. pose proof (ba_cur _ _ (ok_batt _ _ G)) as Hcu.
  destruct (gives_u32 (voltage (batt g)) times10 0xffff Hv) as (v & Ev & _); [cbn; tauto |].
  destruct (gives_u32 (current (batt g)) (times10_plus 10000) 0xffff Hcu) as (c & Ec & _); [cbn; tauto |].
  destruct (each_ok_Z 2 (save_one_cell env g) (cells_at k) (200 * k)) as (l & El & Hl).
  { unfold cells_at. lia. }
  { intros j Hj. apply save_one_cell_ok. unfold cells_at in *. lia. }
  exists ([GB_DATA_BATTVOLT; 1; 1] ++ be16 v ++ be16 c ++ be16 (cell_cnt (batt g)) ++ be16 (200 * k + 1) ++ [u8 (cells_at k)]), l.
  split; [bytes_tac |]. split; [done |]. split; [by eapply bytes_eq; [| rewrite Z.mul_comm] |].
  unfold gb_data_save_cell. rewrite Ev, Ec. st_run. rewrite Hs, u32_small by (unfold is_u32; lia).
  fold (cells_at k). rewrite El. st_run. rewrite (proj2 (Z.eqb_neq _ 0)) by lia. st_run.
  fold (cells_at k) in Hn. rewrite Hn. by rewrite <- !app_assoc.
Qed.

(** Extrema are values of signals, or [0]. *)
Definition extr_ok (x : EXTR) : Prop := tame (x_val x).

Lemma extr_loop_ok limit ids n : forall i mn mx,
  (forall j, i <= j < i + Z.of_nat n -> exists id, mem_get ids j = Some id /\ 0 < id <= sigcnt) ->
  extr_ok mn -> extr_ok mx ->
  gives (fun r => extr_ok (fst r) /\ extr_ok (snd r)) (extr_loop env limit ids n i mn mx).
Proof using E.
  induction n as [|n IH]; intros i mn mx Hids Hmn Hmx; cbn [extr_loop]; [by apply gives_some |].
  destruct (Hids i ltac:(lia)) as (id & -> & Hid). cbn [mbind option_bind].
  eapply gives_bind; [by apply (eo_sig _ _ _ E) |]. intros v Hv. unfold extr_step.
  destruct (d_lt _ v); [apply IH; [| done | done]; intros j Hj; apply Hids; lia |].
  apply IH; [intros j Hj; apply Hids; lia | by destruct (_ || _) ..].
Qed.

Lemma tame_zero : tame (d_of_Z 0).
Proof using.
  split; [| eexists; split; [by vm_compute | by split]].
  intros f Hf. assert (forallb (fun f => match d_to_u32 (f (d_of_Z 0)) with Some _ => true | None => false end) conversions = true) as H by by vm_compute.
  rewrite forallb_forall in H. specialize (H f Hf). by destruct (d_to_u32 _).
Qed.

Lemma extr_scan_ok limit ids cnt : arr (id_ok sigcnt) 800 ids -> 0 <= cnt <= 800 -> dense ids cnt ->
  gives (fun r => extr_ok (fst r) /\ extr_ok (snd r)) (extr_scan env limit ids cnt).
Proof using E.
  intros A Hc D. unfold extr_scan.
  assert (forall j, 0 <= j < cnt -> exists id, mem_get ids j = Some id /\ 0 < id <= sigcnt) as Hids.
  { intros j Hj. destruct (D j Hj) as (id & Eid & N). exists id. split; [done |].
    destruct (arr_get _ _ _ j A) as (id' & E' & Hid); [lia |]. unfold id_ok in Hid.
    assert (id' = id) by congruence. lia. }
  eapply (gives_bind tame).
  - destruct (Z.ltb_spec 0 cnt); [| apply gives_some, tame_zero].
    destruct (Hids 0 ltac:(lia)) as (id & -> & Hid). by apply (eo_sig _ _ _ E).
  - intros v Hv. apply extr_loop_ok; [| done | done]. intros j Hj. apply Hids. lia.
Qed.

Lemma extr_override_ok idx vidx x : 0 <= idx < 16 -> 0 <= vidx < 16 -> extr_ok x ->
  gives extr_ok (extr_override env g idx vidx x).
Proof using G E.
  intros Hi Hv Hx. unfold extr_override.
  eapply gives_bind; [apply (gives_get _ _ _ _ (ok_extr _ _ G)); done |]. intros a [_ Ha].
  eapply (gives_bind (fun _ => True)).
  { destruct (Z.eqb_spec a 0); [by apply gives_some |].
    eapply gives_bind; [apply (eo_sig _ _ _ E); unfold id_ok in *; lia |]. intros v T.
    destruct (tame_u32 _ T same_d ltac:(by left)) as [z Ez]. by exists z. }
  intros id _. eapply gives_bind; [apply (gives_get _ _ _ _ (ok_extr _ _ G)); done |]. intros b [_ Hb].
  eapply (gives_bind tame).
  { destruct (Z.eqb_spec b 0); [by apply gives_some |]. apply (eo_sig _ _ _ E). unfold id_ok in *. lia. }
  intros v T. by apply gives_some.
Qed.

Lemma extr_cell_ok k x : extr_ok x -> gives (bytes 3) (extr_cell k x).
Proof using.
  intros T. unfold extr_cell. destruct (_ <? x_id x); [apply gives_some; bytes_tac |].
  destruct (_ <? x_id x); [| apply gives_some; bytes_tac].
  destruct (tame_u32 _ T times1000 ltac:(cbn; tauto)) as [z ->]. cbn [mbind option_bind]. apply gives_some. bytes_tac.
Qed.

Context (Dc : dense (cell (batt g)) (cell_cnt (batt g))) (Dt : dense (temp (batt g)) (temp_cnt (batt g))).

Lemma save_extr_run k st : 0 <= k < GROUP_SIZE g -> packnum st = k ->
  exists l, bytes 15 l /\
    gb_data_save_extr env g st = Some (l, {| st with packnum := u32 (k + 1) mod GROUP_SIZE g |}).
Proof using G E Dc Dt.
  intros Hk Hp. pose proof cell_cnt_range. pose proof temp_cnt_range. unfold gb_data_save_extr.
  destruct (extr_scan_ok 15 (cell (batt g)) (cell_cnt (batt g))) as ([minv maxv] & Ev & Hminv & Hmaxv);
    [apply (ba_cell _ _ (ok_batt _ _ G)) | done | done |].
  destruct (extr_scan_ok 210 (temp (batt g)) (temp_cnt (batt g))) as ([mint maxt] & Et & Hmint & Hmaxt);
    [apply (ba_temp _ _ (ok_batt _ _ G)) | lia | done |].
  rewrite Ev, Et. st_run. cbn [fst snd] in *.
  destruct (extr_override_ok GB_XINF_MAXVCID GB_XINF_MAXV maxv) as (maxv' & -> & Hmaxv'); [done.. |]. st_run.
  destruct (extr_override_ok GB_XINF_MAXTCID GB_XINF_MAXT maxt) as (maxt' & -> & Hmaxt'); [done.. |]. st_run.
  destruct (extr_override_ok GB_XINF_MINVCID GB_XINF_MINV minv) as (minv' & -> & Hminv'); [done.. |]. st_run.
  destruct (extr_override_ok GB_XINF_MINTCID GB_XINF_MINT mint) as (mint' & -> & Hmint'); [done.. |]. st_run.
  rewrite Hp. destruct (extr_cell_ok k maxv' Hmaxv') as (mx & -> & Hmx). st_run.
  destruct (extr_cell_ok k minv' Hminv') as (mn & -> & Hmn). st_run.
  destruct (tame_u8 _ Hmaxt') as (tx & -> & Htx). st_run.
  destruct (tame_u8 _ Hmint') as (tn & -> & Htn). st_run.
  rewrite (proj2 (Z.eqb_neq (GROUP_SIZE g) 0)) by lia. st_run.
  eexists. split; [| reflexivity]. bytes_tac.
Qed.

Lemma warn_active_ok i j : 0 <= i < 4 -> 0 <= j < 32 -> gives (fun _ => True) (warn_active env g i j).
Proof using G E.
  intros Hi Hj. destruct (ok_warn _ _ G) as [Hl HP].
  assert (forall i, 0 <= i < 4 -> exists row, mem_get (warn g) i = Some row /\ arr (id_ok sigcnt) 32 row) as Hrow.
  { intros i' Hi'. destruct (mem_get_is_Some (warn g) i' ltac:(lia)) as [row Er]. exists row. split; [done |].
    apply mem_get_Some in Er as [_ Er]. apply (Forall_lookup_1 _ _ _ _ HP Er). }
  assert (forall id, id <> 0 -> id_ok sigcnt id -> gives (fun _ => True) (sig_on env id)) as Hon.
  { intros id N Hid. unfold sig_on. eapply gives_bind; [apply (eo_sig _ _ _ E); unfold id_ok in *; lia |].
    intros v _. by apply gives_some. }
  unfold warn_active. destruct (Hrow i Hi) as (row & -> & A). cbn [mbind option_bind].
  get A. destruct (Z.eqb_spec a 0); [by apply gives_some |].
  eapply gives_bind; [by apply Hon |]. intros [] _; [by apply gives_some |].
  destruct (Hrow 3 ltac:(lia)) as (row3 & -> & A3). cbn [mbind option_bind].
  get A3. destruct (Z.eqb_spec a0 0); [by apply gives_some | by apply Hon].
Qed.

Lemma warn_loop_ok i n : forall j bits lvl, 0 <= i < 4 -> 0 <= j -> j + Z.of_nat n <= 32 ->
  gives (fun _ => True) (warn_loop env g n i j bits lvl).
Proof using G E.
  induction n as [|n IH]; intros j bits lvl Hi Hj Hn; cbn [warn_loop]; [by apply gives_some |].
  eapply gives_bind; [apply warn_active_ok; lia |]. intros [] _; apply IH; lia.
Qed.

Lemma save_warn_ok : gives (bytes 10) (gb_data_save_warn env g).
Proof using G E.
  unfold gb_data_save_warn.
  eapply gives_bind; [apply warn_loop_ok; lia |]. intros [b l] _.
  eapply gives_bind; [apply warn_loop_ok; lia |]. intros [b1 l1] _.
  eapply gives_bind; [apply warn_loop_ok; lia |]. intros [b2 l2] _.
  destruct (warntest g); apply gives_some; bytes_tac.
Qed.

Lemma save_gps_run st : exists l lon lat, bytes 10 l /\
  gb_data_save_gps env st = Some (l, {| st with longitudeBak := lon; latitudeBak := lat |}).
Proof using E.
  unfold gb_data_save_gps. destruct (Z.eqb_spec (gps_fix env) 2) as [Hf | _].
  - destruct (eo_gps _ _ _ E Hf) as [[lon ->] [lat ->]]. st_run. exists (GB_DATA_LOCATION
      :: Z.lor (if is_north (gps_snap env) then 0 else 2) (if is_east (gps_snap env) then 0 else 4) :: be32 lon ++ be32 lat), lon, lat.
    split; [| done]. eapply bytes_eq; [| apply Z.add_assoc with (n := 1) (m := 1) (p := 8)].
    apply bytes_cons; [byte_tac |]. apply (bytes_cons 8); [by destruct (is_north _), (is_east _); split |]. bytes_tac.
  - st_run. eexists _, (longitudeBak st), (latitudeBak st). split; [| by destruct st]. bytes_tac.
Qed.

Definition electric : bool := (vehi_type (vehi g) =? GB_VEHITYPE_ELECT) || (vehi_type (vehi g) =? GB_VEHITYPE_HYBIRD).
Definition combustion : bool := (vehi_type (vehi g) =? GB_VEHITYPE_GASFUEL) || (vehi_type (vehi g) =? GB_VEHITYPE_HYBIRD).
Definition with_fuel : bool := match fuelcell_para env with Some p => negb (p =? 0) | None => false end.

(** The length of the report [k] of a group. *)
Definition report_len (k : Z) : Z :=
  47 + (if electric then 34 + 12 * motor_cnt g + 2 * cells_at k + temp_cnt (batt g)
          + (if with_fuel then 19 + fuel_temp_cnt (fuelcell g) else 0) else 0)
     + (if combustion then 6 else 0).

Context (Hf : fuel_temp_cnt (fuelcell g) <= GB_MAX_FUEL_TEMP).

Definition next_k (k : Z) : Z := u32 (k + 1) mod GROUP_SIZE g.

Lemma save_electric_run k st : 0 <= k < GROUP_SIZE g -> group_at k st ->
  exists l st', save_electric env g st = Some (l, st') /\
    bytes (34 + 12 * motor_cnt g + 2 * cells_at k + temp_cnt (batt g)
          + (if with_fuel then 19 + fuel_temp_cnt (fuelcell g) else 0)) l /\ group_at (next_k k) st'.
Proof using G E Dc Dt Hf.
  intros Hk [Hs Hp]. unfold save_electric. destruct save_motor_ok as (m & -> & Hm). st_run.
  assert (gives (bytes (if with_fuel then 19 + fuel_temp_cnt (fuelcell g) else 0))
    (match fuelcell_para env with Some p => if p =? 0 then Some [] else gb_data_save_fuelcell env g | None => Some [] end)) as (f & Ef & Hfu).
  { unfold with_fuel. destruct (fuelcell_para env) as [p|]; [| apply gives_some, bytes_nil].
    destruct (p =? 0); cbn [negb]; [apply gives_some, bytes_nil | by apply save_fuelcell_ok]. }
  rewrite Ef. st_run.
  destruct (save_cell_run k st Hk Hs) as (head & l & Hh & _ & Hl & Ec). st_call Ec.
  destruct save_temp_ok as (t & -> & Ht). st_run.
  destruct (save_extr_run k {| st with start := 200 * (u32 (k + 1) mod GROUP_SIZE g) |} Hk Hp) as (x & Hx & Ex). st_call Ex.
  eexists _, _. split; [reflexivity |]. split; [bytes_tac | by split].
Qed.

(** What one report is and how it leaves the encoders. *)
Lemma save_all_run k uptime st : 0 <= k < GROUP_SIZE g -> group_at k st ->
  exists l st', gb_data_save_all env g uptime st = Some (l, st') /\ bytes (report_len k) l /\
    group_at (if electric then next_k k else k) st'.
Proof using G E Dc Dt Hf.
  intros Hk Hst. unfold gb_data_save_all. destruct save_vehi_ok as (v & -> & Hv). st_run. fold electric combustion.
  assert (exists e st1, (if electric then save_electric env g else mret []) st = Some (e, st1) /\
    bytes (if electric then 34 + 12 * motor_cnt g + 2 * cells_at k + temp_cnt (batt g)
          + (if with_fuel then 19 + fuel_temp_cnt (fuelcell g) else 0) else 0) e /\
    group_at (if electric then next_k k else k) st1) as (e & st1 & Ee & He & Hst1).
  { destruct electric; [by apply save_electric_run |]. exists [], st. split; [done |]. by split; [apply bytes_nil |]. }
  st_call Ee.
  assert (gives (bytes (if combustion then 6 else 0)) (if combustion then gb_data_save_engin env g else Some [])) as (c & -> & Hc).
  { destruct combustion; [apply save_engin_ok | apply gives_some, bytes_nil]. }
  st_run. destruct (save_gps_run st1) as (p & lon & lat & Hp & Ep). st_call Ep.
  destruct save_warn_ok as (w & -> & Hw). st_run.
  eexists _, _. split; [reflexivity |]. split; [unfold report_len; bytes_tac | by destruct Hst1].
Qed.

Lemma report_len_fits k : 0 <= k < GROUP_SIZE g -> 0 <= report_len k <= 1010.
Proof using G Hf.
  intros Hk. pose proof (group_bounds k Hk) as [Hlt _]. pose proof temp_cnt_range. pose proof (ok_motor_cnt _ _ G).
  pose proof (fu_cnt _ _ (ok_fuel _ _ G)). unfold GB_MAX_MOTOR, GB_MAX_FUEL_TEMP in *.
  unfold report_len, cells_at. destruct electric, combustion, with_fuel; lia.
Qed.

End reports.

(** ** Consecutive reports of a group *)

(** The cells of [n] packs in a row. *)
Fixpoint save_cells (env : DATA_ENV) (g : gb_info_t) (n : nat) : ST SAVER (list (list Z)) :=
  match n with
  | O => mret []
  | S n => l ← gb_data_save_cell env g; ls ← save_cells env g n; mret (l :: ls)
  end.

Definition cell_bodies (ls : list (list Z)) : list Z := concat (map (drop 12) ls).

Lemma each_app f n m : forall i,
  each (n + m) i f = (a ← each n i f; b ← each m (i + Z.of_nat n) f; Some (a ++ b)).
Proof.
  induction n as [|n IH]; intros i.
  - cbn [each Nat.add mbind option_bind]. rewrite Z.add_0_r. by destruct (each m i f).
  - cbn [each Nat.add]. rewrite IH. replace (i + Z.of_nat (S n)) with (i + 1 + Z.of_nat n) by lia.
    destruct (f i); cbn [mbind option_bind]; [| done]. destruct (each n (i + 1) f); cbn [mbind option_bind]; [| done].
    destruct (each m _ f); cbn [mbind option_bind]; [| done]. by rewrite app_assoc.
Qed.

Section groups.
Context (sigcnt : Z) (g : gb_info_t) (env : DATA_ENV).
Context (G : gb_info_ok sigcnt g) (E : env_ok sigcnt g env).

Abbreviation cnt := (cell_cnt (batt g)).

(** The last packs of a group, from the pack [k] on. *)
Lemma save_cells_from n : forall k st, 0 <= k -> k + Z.of_nat n = GROUP_SIZE g -> (0 < n)%nat -> start st = 200 * k ->
  exists ls st', save_cells env g n st = Some (ls, st') /\ length ls = n /\ start st' = 0 /\
    each (Z.to_nat (cnt - 200 * k)) (200 * k) (save_one_cell env g) = Some (cell_bodies ls).
Proof using G E.
  induction n as [|n IH]; intros k st Hk Hn Hpos Hs; [lia |].
  destruct (save_cell_run sigcnt g env G E k st ltac:(lia) Hs) as (head & l & Hh & El & Hl & Er).
  pose proof (group_bounds sigcnt g G k ltac:(lia)) as [Hlt _]. pose proof (cell_cnt_range sigcnt g G).
  destruct (next_group sigcnt g G k ltac:(lia)) as (k' & Ek' & Hk' & _).
  pose proof (group_size sigcnt g G) as Gs. cbn [save_cells]. st_call Er.
  assert (drop 12 (head ++ l) = l) as Ed by (apply drop_app_length'; destruct Hh; unfold len in *; lia).
  assert (k' = if decide (n = O) then 0 else k + 1) as Ek.
  { rewrite Ek', u32_small by (unfold is_u32; lia). destruct (decide _) as [-> | N].
    - replace (k + 1) with (GROUP_SIZE g) by lia. apply Z.mod_same. lia.
    - apply Z.mod_small. lia. }
  rewrite <- Ek'. destruct n as [|n].
  - cbn [save_cells]. st_run. eexists _, _. split; [reflexivity |]. split; [done |]. split; [cbn [start]; rewrite Ek; done |].
    unfold cell_bodies. cbn [map concat]. rewrite Ed, app_nil_r, <- El. f_equal. unfold cells_at.
    pose proof (Z.mul_succ_div_gt (cnt + 199) 200 ltac:(lia)). lia.
  - cbn [decide] in Ek. destruct (IH (k + 1) {| st with start := 200 * k' |}) as (ls & st' & Els & Hlen & Hst & Eb);
      [lia | lia | lia | by rewrite Ek |].
    st_call Els. eexists _, _. split; [reflexivity |]. split; [cbn; lia |]. split; [done |].
    unfold cell_bodies in *. cbn [map concat]. rewrite Ed.
    assert (cells_at g k = 200) as Hc.
    { unfold cells_at. pose proof (Z.mul_div_le (cnt + 199) 200 ltac:(lia)). lia. }
    rewrite Hc in El. replace (Z.to_nat (cnt - 200 * k)) with (Z.to_nat 200 + Z.to_nat (cnt - 200 * (k + 1)))%nat
      by (pose proof (Z.mul_div_le (cnt + 199) 200 ltac:(lia)); lia).
    rewrite each_app, El. cbn [mbind option_bind].
    replace (200 * k + Z.of_nat (Z.to_nat 200)) with (200 * (k + 1)) by lia. rewrite Eb. done.
Qed.

(** ** Warnings *)

Definition active (i j : Z) : Prop := warn_active env g i j = Some true.

(** What the loop over one level adds. *)
Lemma warn_loop_spec i n : forall j bits lvl, 0 <= i < 4 -> 0 <= j -> j + Z.of_nat n <= 32 ->
  exists bits' lvl', warn_loop env g n i j bits lvl = Some (bits', lvl') /\
    (forall m, 0 <= m -> Z.testbit bits' m = true <-> Z.testbit bits m = true \/ (j <= m < j + Z.of_nat n /\ active i m)) /\
    ((lvl' = lvl /\ forall m, j <= m < j + Z.of_nat n -> ~ active i m) \/
     (lvl' = i + 1 /\ exists m, j <= m < j + Z.of_nat n /\ active i m)).
Proof using G E.
  induction n as [|n IH]; intros j bits lvl Hi Hj Hn; cbn [warn_loop].
  { exists bits, lvl. split; [done |]. split; [intros m Hm; split; [by left | intros [? | [? _]]; [done | lia]] |].
    left. split; [done |]. intros; lia. }
  destruct (warn_active_ok sigcnt g env G E i j Hi ltac:(lia)) as (a & Ea & _). rewrite Ea. cbn [mbind option_bind].
  destruct a.
  - destruct (IH (j + 1) (Z.lor bits (Z.shiftl 1 j)) (i + 1)) as (b' & l' & -> & Hb & Hl); [done | lia | lia |].
    exists b', l'. split; [done |]. split.
    + intros m Hm. rewrite Hb by done. rewrite Z.lor_spec, Z.shiftl_1_l, Z.pow2_bits_eqb, orb_true_iff, Z.eqb_eq by lia.
      split; [intros [[? | <-] | [? ?]] | intros [? | [? ?]]]; try tauto.
      * right. split; [lia | done].
      * right. split; [lia | done].
      * destruct (Z.eq_dec j m); [tauto |]. right. split; [lia | done].
    + right. assert (exists m, j <= m < j + Z.of_nat (S n) /\ active i m) as H by (exists j; split; [lia | done]).
      destruct Hl as [[-> _] | [-> _]]; done.
  - assert (~ active i j) as Na by (unfold active; congruence).
    destruct (IH (j + 1) bits lvl) as (b' & l' & -> & Hb & Hl); [done | lia | lia |].
    exists b', l'. split; [done |]. split.
    + intros m Hm. rewrite Hb by done. split; [intros [? | [? ?]]; [by left | right; split; [lia | done]] |].
      intros [? | [? Ha]]; [by left |]. right. split; [| done]. destruct (Z.eq_dec j m) as [<- | ?]; [done | lia].
    + destruct Hl as [[-> H] | [-> (m & ? & ?)]]; [left | right]; (split; [done |]).
      * intros m Hm. destruct (Z.eq_dec m j) as [-> | ?]; [done | apply H; lia].
      * exists m. split; [lia | done].
Qed.

(** One level of the warnings. *)
Definition level_spec (i bits lvl : Z) (r : Z * Z) : Prop :=
  (forall m, 0 <= m -> Z.testbit (fst r) m = true <-> Z.testbit bits m = true \/ (0 <= m < 32 /\ active i m)) /\
  ((snd r = lvl /\ forall m, 0 <= m < 32 -> ~ active i m) \/ (snd r = i + 1 /\ exists m, 0 <= m < 32 /\ active i m)).

Lemma warn_level_ok i bits lvl : 0 <= i < 4 -> gives (level_spec i bits lvl) (warn_loop env g 32 i 0 bits lvl).
Proof using G E.
  intros Hi. destruct (warn_loop_spec i 32 0 bits lvl Hi ltac:(lia) ltac:(lia)) as (b & l & Eq & Hb & Hl).
  exists (b, l). by split.
Qed.

End groups.

(** Bit [j] is set if a warning [j] of some level is active; the level is the
    highest of the active warnings. *)
Definition warn_spec (g : gb_info_t) (env : DATA_ENV) (bits lvl : Z) : Prop :=
  (forall j, 0 <= j < 32 -> Z.testbit bits j = true <-> exists i, 0 <= i < 3 /\ active g env i j) /\
  ((lvl = 0 /\ forall i j, 0 <= i < 3 -> 0 <= j < 32 -> ~ active g env i j) \/
   (1 <= lvl <= 3 /\ (exists j, 0 <= j < 32 /\ active g env (lvl - 1) j) /\
    forall i j, 0 <= i < 3 -> 0 <= j < 32 -> active g env i j -> i < lvl)).

(** The table at [DBC_EVENT_RELOAD]. *)
Definition dbc_reload : gb_info_t := set_vehi (fun v => {| v with vehi_type := GB_VEHITYPE_ELECT |}) gb_info_zero.

(** The first undefined element below [cnt], as [DBC_EVENT_FINISHED] looks for it. *)
Fixpoint first_gap (ids : list Z) (n : nat) (i cnt : Z) : option Z :=
  match n with
  | O => Some i
  | S n =>
      if i <? cnt then id ← mem_get ids i; if id =? 0 then Some i else first_gap ids n (i + 1) cnt else Some i
  end.

(** Whether a table is accepted. *)
Definition dbc_accept (g : gb_info_t) : option bool :=
  let b := batt g in
  i ← first_gap (cell b) (Z.to_nat (cell_cnt b)) 0 (cell_cnt b);
  if i <? cell_cnt b then Some false
  else j ← first_gap (temp b) (Z.to_nat (temp_cnt b)) 0 (temp_cnt b); Some (negb (j <? temp_cnt b)).

Lemma first_gap_spec ids n cnt : forall i j, 0 <= i -> i + Z.of_nat n = cnt -> first_gap ids n i cnt = Some j -> cnt <= j ->
  forall m, i <= m < cnt -> exists id, mem_get ids m = Some id /\ id <> 0.
Proof.
  induction n as [|n IH]; intros i j Hi Hn; cbn [first_gap]; [lia |].
  rewrite (proj2 (Z.ltb_lt i cnt)) by lia. destruct (mem_get ids i) as [id|] eqn:Ei; cbn [mbind option_bind]; [| done].
  destruct (Z.eqb_spec id 0) as [-> | N]; [intros [= <-]; lia |].
  intros Hj Hc m Hm. destruct (Z.eq_dec m i) as [-> | ?]; [by exists id |]. eapply (IH (i + 1)); [lia | lia | done | done | lia].
Qed.

Lemma accept_dense sigcnt g : gb_info_ok sigcnt g -> dbc_accept g = Some true ->
  dense (cell (batt g)) (cell_cnt (batt g)) /\ dense (temp (batt g)) (temp_cnt (batt g)).
Proof.
  intros G. pose proof (cell_cnt_range sigcnt g G). pose proof (temp_cnt_range sigcnt g G). unfold dbc_accept.
  destruct (first_gap (cell _) _ _ _) as [i|] eqn:E1; cbn [mbind option_bind]; [| done].
  destruct (Z.ltb_spec i (cell_cnt (batt g))); [done |].
  destruct (first_gap (temp _) _ _ _) as [j|] eqn:E2; cbn [mbind option_bind]; [| done].
  destruct (Z.ltb_spec j (temp_cnt (batt g))); [done |]. intros _.
  split; intros m Hm.
  - by apply (first_gap_spec (cell (batt g)) (Z.to_nat (cell_cnt (batt g))) (cell_cnt (batt g)) 0 i ltac:(lia) ltac:(lia) E1).
  - by apply (first_gap_spec (temp (batt g)) (Z.to_nat (temp_cnt (batt g))) (temp_cnt (batt g)) 0 j ltac:(lia) ltac:(lia) E2).
Qed.

Lemma dbc_reload_ok sigcnt : 0 <= sigcnt -> gb_info_ok sigcnt dbc_reload.
Proof. intros Hs. pose proof (gb_info_zero_ok sigcnt Hs) as G. destruct G as [[] ?]. by split. Qed.

(** ** Theorems *)

(** C35: any sequence of lines of a signal database fills the table of signals
    within its arrays and leaves it well formed (sizes, valid signals, counters
    that count the defined elements), unless some line defines an index outside of
    its table; such a line for a fuel cell temperature does write out of bounds. *)
Theorem gb_dbc_well_formed sigcnt es : 0 <= sigcnt -> Forall (line_ok sigcnt) es ->
  match dbc_lines dbc_reload es with Some g => gb_info_ok sigcnt g | None => Exists line_overflows es end /\
  (forall g sigid sfx idx, gb_info_ok sigcnt g -> 0 < sigid -> conv2 (sscanf (c_chars "G%1x%3x") sfx) = Some (GB_DATA_FUELCELL, idx) ->
    456 <= idx -> dbc_line g (DbcSurfix sigid sfx) = None).
Proof.
  intros Hs Hes. split; [by apply lines_run, Hes; apply dbc_reload_ok |].
  intros *. apply surfix_overflows.
Qed.

(** C29: For an accepted table with at most 200 fuel cell temperatures (acceptance does
    not imply it) and signals that the conversions can hold, with the encoders at report
    [k] of the group: the report is encoded without undefined behaviour, has the
    computed length, at most 1010 bytes, and so fits the 1024 bytes of its buffer, and
    leaves the encoders at the next report of the group. *)
Theorem gb_report_fits sigcnt es g env k uptime st :
  0 <= sigcnt -> Forall (line_ok sigcnt) es -> dbc_lines dbc_reload es = Some g -> dbc_accept g = Some true ->
  fuel_temp_cnt (fuelcell g) <= GB_MAX_FUEL_TEMP -> env_ok sigcnt g env ->
  0 <= k < GROUP_SIZE g -> group_at k st ->
  exists l st', gb_data_save_all env g uptime st = Some (l, st') /\
    bytes (report_len g env k) l /\ len l <= 1010 /\ group_at (if electric g then next_k g k else k) st'.
Proof.
  intros Hs Hes Hg Ha Hf E Hk Hst.
  pose proof (lines_run sigcnt es dbc_reload (dbc_reload_ok sigcnt Hs) Hes) as G. rewrite Hg in G.
  destruct (accept_dense sigcnt g G Ha) as [Dc Dt].
  destruct (save_all_run sigcnt g env G E Dc Dt Hf k uptime st Hk Hst) as (l & st' & El & Hl & Hst').
  pose proof (report_len_fits sigcnt g env G Hf k Hk). exists l, st'. split; [done |]. split; [done |]. split; [destruct Hl; lia | done].
Qed.

(** The reports of a group carry every battery cell exactly once, in order, up
    to 200 in each, and the next group starts with the first cell again. *)
Theorem gb_group_covers_cells sigcnt es g env st :
  0 <= sigcnt -> Forall (line_ok sigcnt) es -> dbc_lines dbc_reload es = Some g -> env_ok sigcnt g env ->
  0 < cell_cnt (batt g) -> start st = 0 ->
  exists ls st', save_cells env g (Z.to_nat (GROUP_SIZE g)) st = Some (ls, st') /\ start st' = 0 /\
    len ls = (cell_cnt (batt g) + 199) / 200 /\
    each (Z.to_nat (cell_cnt (batt g))) 0 (save_one_cell env g) = Some (cell_bodies ls).
Proof.
  intros Hs Hes Hg E Hc Hst.
  pose proof (lines_run sigcnt es dbc_reload (dbc_reload_ok sigcnt Hs) Hes) as G. rewrite Hg in G.
  pose proof (group_size sigcnt g G) as Gs. assert (0 < GROUP_SIZE g) by (rewrite Gs; apply Z.div_str_pos; lia).
  destruct (save_cells_from sigcnt g env G E (Z.to_nat (GROUP_SIZE g)) 0 st) as (ls & st' & El & Hlen & Hst' & Eb); try lia.
  exists ls, st'. rewrite Z.sub_0_r in Eb. split; [done |]. split; [done |]. split; [unfold len; lia | done].
Qed.

(** The warning field has bit [j] set exactly if a warning [j] of some level is
    active (its own signal, or the second signal of the same number), and the
    highest level of the active warnings, [0] without any. *)
Theorem gb_warn_field sigcnt g env : gb_info_ok sigcnt g -> env_ok sigcnt g env -> warntest g = false ->
  exists bits lvl, gb_data_save_warn env g = Some ([GB_DATA_WARNNING; u8 lvl] ++ be32 bits ++ [0; 0; 0; 0]) /\
    warn_spec g env bits lvl.
Proof.
  intros G E Ht.
  enough (gives (fun l => exists bits lvl, l = [GB_DATA_WARNNING; u8 lvl] ++ be32 bits ++ [0; 0; 0; 0] /\ warn_spec g env bits lvl)
    (gb_data_save_warn env g)) as (l & El & bits & lvl & -> & H) by (exists bits, lvl; by split).
  unfold gb_data_save_warn.
  eapply gives_bind; [by apply (warn_level_ok sigcnt _ _ G E 0 0 0) |]. intros [b0 l0] (Hb0 & Hl0).
  eapply gives_bind; [by apply (warn_level_ok sigcnt _ _ G E 1 b0 l0) |]. intros [b1 l1] (Hb1 & Hl1).
  eapply gives_bind; [by apply (warn_level_ok sigcnt _ _ G E 2 b1 l1) |]. intros [b2 l2] (Hb2 & Hl2).
  rewrite Ht. apply gives_some. exists b2, l2. split; [done |]. cbn [fst snd] in *.
  assert (forall i, 0 <= i < 3 -> i = 0 \/ i = 1 \/ i = 2) as H3 by lia.
  split.
  - intros j Hj. rewrite Hb2, Hb1, Hb0, Z.testbit_0_l by lia. split.
    + intros [[[? | [_ ?]] | [_ ?]] | [_ ?]]; [done | by exists 0 | by exists 1 | by exists 2].
    + intros (i & [-> | [-> | ->]]%H3 & Ha); [left; left; right | left; right | right]; (split; [lia | done]).
  - destruct Hl2 as [[-> N2] | [-> (m & Hm & Ha)]].
    2: { right. split; [lia |]. split; [by exists m |]. intros i j Hi _ _. lia. }
    destruct Hl1 as [[-> N1] | [-> (m & Hm & Ha)]].
    2: { right. split; [lia |]. split; [by exists m |]. intros i j [-> | [-> | ->]]%H3 Hj Hij; [lia | lia |]. by destruct (N2 j). }
    destruct Hl0 as [[-> N0] | [-> (m & Hm & Ha)]].
    2: { right. split; [lia |]. split; [by exists m |]. intros i j [-> | [-> | ->]]%H3 Hj Hij; [lia | by destruct (N1 j) | by destruct (N2 j)]. }
    left. split; [done |]. intros i j [-> | [-> | ->]]%H3 Hj; [by apply N0 | by apply N1 | by apply N2].
Qed.

(** ** A small database *)

Definition demo_lines : list DBC_LINE :=
  [DbcSurfix 1 (c_chars "G8000"); DbcSurfix 2 (c_chars "G8001"); DbcSurfix 3 (c_chars "G9000");
   DbcSurfix 4 (c_chars "G1002"); DbcSurfix 5 (c_chars "G2001"); DbcSurfix 6 (c_chars "G7203");
   DbcSurfix 7 (c_chars "GA100"); DbcDefine (ba "IN_VEHITYPE" " 02")].

Definition demo_info : gb_info_t := default gb_info_zero (dbc_lines dbc_reload demo_lines).

Lemma demo_parse : dbc_lines dbc_reload demo_lines = Some demo_info.
Proof. vm_compute. reflexivity. Qed.

(** Every signal is [5.0]. *)
Definition demo_env : DATA_ENV := {|
  sig_value := fun _ => Some (d_of_Z 5);
  can_time := fun _ => {| year := 2019; mon := 6; mday := 1; hour := 12; min := 30; sec := 15 |};
  gps_fix := 2; gps_snap := {| longitude := d_of_Z 12127; latitude := d_of_Z 3114; is_east := true; is_north := true |};
  fuelcell_para := Some 1 |}.

Lemma demo_tame : tame (d_of_Z 5).
Proof.
  split; [| eexists; split; [vm_compute; reflexivity | split; vm_compute; congruence]].
  assert (forallb (fun f => match d_to_u32 (f (d_of_Z 5)) with Some _ => true | None => false end) conversions = true) as H by (vm_compute; reflexivity).
  intros f Hf. rewrite forallb_forall in H. specialize (H f Hf). by destruct (d_to_u32 _).
Qed.

Lemma demo_env_ok sigcnt g : env_ok sigcnt g demo_env.
Proof.
  assert (forall z, d_to_u32 (d_of_Z 5) = Some z -> z = 5) as H5 by (vm_compute; congruence).
  split; cbn [sig_value demo_env].
  - intros id _. exists (d_of_Z 5). split; [done | exact demo_tame].
  - intros id v z _ [= <-] ->%H5. done.
  - intros id v z _ [= <-] ->%H5. done.
  - intros _. split; vm_compute; eauto.
Qed.

Lemma demo_lines_ok : Forall (line_ok 7) demo_lines.
Proof.
  assert (forall l, forallb (fun c => (0 <=? c) && (c <? 256)) l = true -> Forall is_byte l) as Hb.
  { intros l H. apply Forall_forall. intros x Hx. rewrite forallb_forall in H.
    specialize (H x Hx). unfold is_byte. lia. }
  repeat constructor; cbn [line_ok]; try lia; apply Hb; vm_compute; reflexivity.
Qed.

Lemma gb_dbc_well_formed_witness : gb_info_ok 7 demo_info /\ cell_cnt (batt demo_info) = 2 /\
  dbc_line dbc_reload (DbcSurfix 1 (c_chars "GA1c8")) = None.
Proof.
  destruct (gb_dbc_well_formed 7 demo_lines ltac:(lia) demo_lines_ok) as [H1 H2]. rewrite demo_parse in H1. split; [exact H1 |].
  split; [vm_compute; reflexivity |].
  apply (H2 dbc_reload 1 (c_chars "GA1c8") 456); [apply dbc_reload_ok; lia | lia | vm_compute; reflexivity | lia].
Defined.

Lemma gb_report_fits_witness : exists l st', gb_data_save_all demo_env demo_info 0 saver0 = Some (l, st') /\ len l = 124.
Proof.
  destruct (gb_report_fits 7 demo_lines demo_info demo_env 0 0 saver0) as (l & st' & E & [Hl _] & _).
  - lia.
  - apply demo_lines_ok.
  - apply demo_parse.
  - vm_compute. reflexivity.
  - vm_compute. congruence.
  - apply demo_env_ok.
  - vm_compute. split; congruence.
  - split; vm_compute; reflexivity.
  - exists l, st'. split; [exact E |]. rewrite Hl. vm_compute. reflexivity.
Defined.

Lemma gb_group_covers_cells_witness : exists ls st', save_cells demo_env demo_info 1 saver0 = Some (ls, st') /\
  cell_bodies ls = [19; 136; 19; 136].
Proof.
  destruct (gb_group_covers_cells 7 demo_lines demo_info demo_env saver0) as (ls & st' & E & _ & _ & Eb).
  - lia.
  - apply demo_lines_ok.
  - apply demo_parse.
  - apply demo_env_ok.
  - vm_compute. reflexivity.
  - vm_compute. reflexivity.
  - exists ls, st'. split; [exact E |].
    assert (each (Z.to_nat (cell_cnt (batt demo_info))) 0 (save_one_cell demo_env demo_info) = Some [19; 136; 19; 136]) as H
      by (vm_compute; reflexivity).
    rewrite H in Eb. injection Eb as Eb. symmetry. exact Eb.
Defined.

Lemma gb_warn_field_witness : exists bits lvl, gb_data_save_warn demo_env demo_info = Some ([GB_DATA_WARNNING; u8 lvl] ++ be32 bits ++ [0; 0; 0; 0]).
Proof.
  destruct (gb_warn_field 7 demo_info demo_env) as (bits & lvl & E & _).
  - pose proof (lines_run 7 demo_lines dbc_reload (dbc_reload_ok 7 ltac:(lia)) demo_lines_ok) as G. rewrite demo_parse in G. exact G.
  - apply demo_env_ok.
  - vm_compute. reflexivity.
  - by exists bits, lvl.
Defined.
