(* ===== verification/GbQueue.v ===== *)
(** * GB/T 32960 report queues

    The buffers of src/app/interface/gb32960/gb32960_data.c: 2000 report packs in
    four lists (free, new, delayed, being sent), the ring of the last thirty
    seconds that is flushed after a serious warning, and the callbacks of the CAN
    thread that fill them.  The lists are linked in one memory with the operations
    of [Clist].  [None] is undefined behaviour, or the endless loop that the code
    enters when no buffer is left. *)

From stdpp Require Import gmap.
From S2P Require Import Prelude Clist Cstd GbData.

Definition GB_RPTTYPE_REALTM : Z := 0x02.
Definition GB_RPTTYPE_DELAY : Z := 0x03.
Definition GB_MAX_REPORT : Z := 2000.

(** ** State *)

(** [gb_pack_t]; its [link] is in the memory of the links, and the address of the
    link stands for the pack ([list_entry]). *)
Record gb_pack_t := { pdata : list Z; plen : Z; pseq : Z; ptype : Z; plist : Z }.

(** Addresses of the links. *)
Definition gb_realtm_lst : Z := 1.
Definition gb_delay_lst : Z := 2.
Definition gb_trans_lst : Z := 3.
Definition gb_free_lst : Z := 4.
Definition tmplst : Z := 5.                       (* of gb_data_flush_error *)
Definition gb_datamem (i : Z) : Z := 16 + i.
Definition gb_errmem (i : Z) : Z := 16 + GB_MAX_REPORT + i.
Definition GB_MAX_ERROR : Z := (GB_MAX_PACK_CELL + 199) / 200 * 30.

(** The static variables; [gb_errlst_head] is [0] for the null pointer. *)
Record GB := {
  links : LINKS; packs : gmap Z gb_pack_t; gb_errlst_head : Z; gb_emerg : bool; gb_pendflag : bool;
  saver : SAVER;
  ticks : Z; times : Z; triger : bool;            (* of gb_data_periodic *)
  gb_inf : option gb_info_t; gb_rld : option gb_info_t; gb_datintv : Z;
  flagged : list Z;                               (* signals that carry gb_warnflag *)
  canact : bool; counter : Z                      (* of gb_data_can_cb *)
}.

Abbreviation GM := (ST GB).

(** ** Access *)

Definition on_links (f : LINKS -> option LINKS) : GM unit :=
  s ← st_get; h ← st_lift (f (links s)); st_mod (fun s => {| s with links := h |}).

Definition take_first (l : Z) : GM (option Z) :=
  s ← st_get; '(r, h) ← st_lift (list_get_first (links s) l); st_mod (fun s => {| s with links := h |});; mret r.

Definition take_last (l : Z) : GM (option Z) :=
  s ← st_get; '(r, h) ← st_lift (list_get_last (links s) l); st_mod (fun s => {| s with links := h |});; mret r.

Definition add_tail (l node : Z) : GM unit := on_links (fun h => list_insert_before h l node).
Definition add_head (l node : Z) : GM unit := on_links (fun h => list_insert_after h l node).
Definition is_empty (l : Z) : GM bool := s ← st_get; st_lift (list_empty (links s) l).
Definition next_of (p : Z) : GM Z := s ← st_get; st_lift (get_next (links s) p).
Definition prev_of (p : Z) : GM Z := s ← st_get; st_lift (get_prev (links s) p).

Definition pack (p : Z) : GM gb_pack_t := s ← st_get; st_lift (packs s !! p).
Definition set_pack (p : Z) (v : gb_pack_t) : GM unit := st_mod (fun s => {| s with packs := <[p := v]> (packs s) |}).
Definition mod_pack (p : Z) (f : gb_pack_t -> gb_pack_t) : GM unit := v ← pack p; set_pack p (f v).
Definition set_head (p : Z) : GM unit := st_mod (fun s => {| s with gb_errlst_head := p |}).

(** ** Filling the queues *)

(** [rpt->len = gb_data_save_all(gbinf, rpt->data, uptime)] *)
Definition save_into (env : DATA_ENV) (gbinf : gb_info_t) (uptime p : Z) : GM unit :=
  s ← st_get;
  '(l, sv) ← st_lift (gb_data_save_all env gbinf uptime (saver s));
  st_mod (fun s => {| s with saver := sv |});;
  v ← pack p;
  d ← st_lift (mem_write (pdata v) 0 l);
  set_pack p {| v with pdata := d; plen := len l |}.

(** A free buffer, else the oldest report; without any the code loops forever. *)
Definition get_buffer : GM Z :=
  n ← take_first gb_free_lst;
  match n with
  | Some n => mret n
  | None =>
      n ← take_first gb_delay_lst;
      match n with
      | Some n => mret n
      | None => n ← take_first gb_realtm_lst; st_lift n
      end
  end.

Definition mark_realtm (i : Z) (v : gb_pack_t) : gb_pack_t :=
  {| v with pseq := i + 1; plist := gb_realtm_lst; ptype := GB_RPTTYPE_REALTM |}.

Definition save_realtm_one (env : DATA_ENV) (gbinf : gb_info_t) (uptime i : Z) : GM unit :=
  node ← get_buffer;
  save_into env gbinf uptime node;;
  mod_pack node (mark_realtm i);;
  add_tail gb_realtm_lst node.

Definition gb_data_save_realtm (env : DATA_ENV) (gbinf : gb_info_t) (uptime : Z) : GM unit :=
  st_for (Z.to_nat (GROUP_SIZE gbinf)) 0 (save_realtm_one env gbinf uptime).

Definition save_error_one (env : DATA_ENV) (gbinf : gb_info_t) (uptime i : Z) : GM unit :=
  p ← st_gets gb_errlst_head;
  save_into env gbinf uptime p;;
  mod_pack p (fun v => {| v with pseq := i + 1 |});;
  n ← next_of p; set_head n.

Definition gb_data_save_error (env : DATA_ENV) (gbinf : gb_info_t) (uptime : Z) : GM unit :=
  st_for (Z.to_nat (GROUP_SIZE gbinf)) 0 (save_error_one env gbinf uptime).

(** ** Flushing *)

(** The loop of [gb_data_flush_error]: the newest recorded report goes to the
    front of the temporary list; [false] if there is none. *)
Definition flush_error_one : GM bool :=
  head ← st_gets gb_errlst_head;
  p ← prev_of head; err ← pack p;
  if plen err =? 0 then mret false
  else
    node ← get_buffer;
    set_head p;;
    _ ← pack node;
    s ← st_get; link ← st_lift (links s !! p);
    st_mod (fun s => {| s with links := <[node := link]> (links s) |});;    (* memcpy *)
    set_pack node err;;
    mod_pack p (fun v => {| v with plen := 0 |});;
    mod_pack node (fun v => {| v with plist := gb_delay_lst; ptype := GB_RPTTYPE_DELAY |});;
    add_head tmplst node;;
    mret true.

Fixpoint flush_error_loop (fuel : nat) : GM unit :=
  match fuel with
  | O => st_lift None
  | S fuel => more ← flush_error_one; if (more : bool) then flush_error_loop fuel else mret tt
  end.

(** Append the temporary list to the delayed reports. *)
Definition splice (l t : Z) (h : LINKS) : option LINKS :=
  tn ← get_next h t; lp ← get_prev h l; h ← set_prev h tn lp;
  lp ← get_prev h l; tn ← get_next h t; h ← set_next h lp tn;
  tp ← get_prev h t; h ← set_next h tp l;
  tp ← get_prev h t; set_prev h l tp.

Definition flush_error_append : GM unit :=
  e ← is_empty tmplst;
  if (e : bool) then mret tt else on_links (splice gb_delay_lst tmplst).

Definition gb_data_flush_error : GM unit :=
  on_links (fun h => list_init h tmplst);;
  head ← st_gets gb_errlst_head;
  if head =? 0 then mret tt
  else
    flush_error_loop (S (Z.to_nat GB_MAX_ERROR));;
    flush_error_append.

Fixpoint flush_sending_loop (fuel : nat) : GM unit :=
  match fuel with
  | O => st_lift None
  | S fuel =>
      node ← take_last gb_trans_lst;
      match node with
      | None => mret tt
      | Some n => v ← pack n; add_head (plist v) n;; flush_sending_loop fuel
      end
  end.

Definition gb_data_flush_sending : GM unit := flush_sending_loop (S (Z.to_nat GB_MAX_REPORT)).

Fixpoint flush_realtm_loop (fuel : nat) : GM unit :=
  match fuel with
  | O => st_lift None
  | S fuel =>
      node ← take_first gb_realtm_lst;
      match node with
      | None => mret tt
      | Some n =>
          mod_pack n (fun v => {| v with plist := gb_delay_lst; ptype := GB_RPTTYPE_DELAY |});;
          add_tail gb_delay_lst n;;
          flush_realtm_loop fuel
      end
  end.

Definition gb_data_flush_realtm : GM unit := flush_realtm_loop (S (Z.to_nat GB_MAX_REPORT)).

(** ** Clearing *)

Definition gb_data_clear_report : GM unit :=
  on_links (fun h => list_init h gb_realtm_lst);;
  on_links (fun h => list_init h gb_delay_lst);;
  on_links (fun h => list_init h gb_trans_lst);;
  on_links (fun h => list_init h gb_free_lst);;
  st_for (Z.to_nat GB_MAX_REPORT) 0 (fun i => add_tail gb_free_lst (gb_datamem i)).

Fixpoint clear_error_loop (fuel : nat) (node : Z) : GM unit :=
  match fuel with
  | O => st_lift None
  | S fuel =>
      mod_pack node (fun v => {| v with plen := 0 |});;
      n ← next_of node; head ← st_gets gb_errlst_head;
      if n =? head then mret tt else clear_error_loop fuel n
  end.

Definition gb_data_clear_error : GM unit :=
  head ← st_gets gb_errlst_head;
  if head =? 0 then mret tt else clear_error_loop (Z.to_nat GB_MAX_ERROR) head.

(** ** Sending *)

Definition gb_data_put_back (p : Z) : GM unit := v ← pack p; add_head (plist v) p.
Definition gb_data_put_send (p : Z) : GM unit := add_tail gb_trans_lst p.

Definition gb_data_ack_pack : GM unit :=
  n ← take_first gb_trans_lst;
  match n with Some n => add_tail gb_free_lst n | None => mret tt end.

Definition gb_data_emergence (set : bool) : GM unit := st_mod (fun s => {| s with gb_emerg := set |}).

Definition gb_data_get_pack : GM (option Z) :=
  n ← take_first gb_realtm_lst;
  match n with
  | Some n => mret (Some n)
  | None => e ← st_gets gb_emerg; if (e : bool) then take_last gb_delay_lst else take_first gb_delay_lst
  end.

Definition gb_data_nosending : GM bool := is_empty gb_trans_lst.
Definition gb_data_noreport : GM bool :=
  a ← is_empty gb_realtm_lst; if (a : bool) then is_empty gb_delay_lst else mret false.

Definition gb_data_set_pendflag (flag : bool) : GM unit := st_mod (fun s => {| s with gb_pendflag := flag |}).

(** ** The callbacks of the CAN thread *)

(** The end of [DBC_EVENT_FINISHED]: the ring of error packs. *)
Definition init_error_ring (gbinf : gb_info_t) : GM unit :=
  if 0 <? GROUP_SIZE gbinf then
    set_head (gb_errmem 0);;
    on_links (fun h => list_init h (gb_errmem 0));;
    st_for (Z.to_nat (GROUP_SIZE gbinf * 30 - 1)) 1 (fun i =>
      mod_pack (gb_errmem i) (fun v => {| v with plen := 0; ptype := GB_RPTTYPE_DELAY; plist := gb_delay_lst |});;
      add_tail (gb_errmem 0) (gb_errmem i))
  else set_head 0.

Definition dbc_finished (gbinf : gb_info_t) : GM unit := init_error_ring gbinf;; gb_data_clear_report.

(** The ticks are seconds; [warntrig] is a field of the table. *)
Definition gb_data_periodic (env : DATA_ENV) (gbinf : gb_info_t) (intv uptime : Z) : GM unit :=
  st_when (warntrig gbinf)
    (st_mod (fun s => {| s with gb_inf := Some {| gbinf with warntrig := false |}; times := 31 |});;
     p ← st_gets gb_pendflag;
     if (p : bool) then gb_data_flush_realtm;; gb_data_flush_error
     else st_mod (fun s => {| s with triger := true |}));;
  st_mod (fun s => {| s with ticks := ticks s + 1 |});;
  t ← st_gets times;
  period ← (if t =? 0 then gb_data_save_error env gbinf uptime;; mret intv
            else st_mod (fun s => {| s with times := t - 1 |});;
                 mret (if t - 1 =? 0 then intv else 1) : GM Z);
  k ← st_gets ticks;
  st_when (period <=? k)
    (st_mod (fun s => {| s with ticks := 0 |});;
     gb_data_save_realtm env gbinf uptime;;
     f ← st_gets triger;
     st_when f (st_mod (fun s => {| s with triger := false |});; gb_data_flush_error)).

Inductive CAN_EVENT :=
| CAN_EVENT_DATAIN (msgs : list (Z * Z * DATA_ENV))     (* type and time of each message, the signals then *)
| CAN_EVENT_TIMEOUT | CAN_EVENT_ACTIVE | CAN_EVENT_SLEEP | CAN_EVENT_OTHER.

Fixpoint can_datain (msgs : list (Z * Z * DATA_ENV)) : GM unit :=
  match msgs with
  | [] => mret tt
  | (type, uptime, env) :: msgs =>
      s ← st_get;
      match canact s, gb_inf s with
      | true, Some inf =>
          (if type =? 84 then
             st_mod (fun s => {| s with counter := counter s + 1 |});;
             st_when (counter s + 1 =? 100)
               (st_mod (fun s => {| s with counter := 0 |});; gb_data_periodic env inf (gb_datintv s) uptime)
           else mret tt);;
          can_datain msgs
      | _, _ => mret tt
      end
  end.

Definition gb_data_can_cb (event : CAN_EVENT) : GM Z :=
  match event with
  | CAN_EVENT_ACTIVE => st_mod (fun s => {| s with canact := true |})
  | CAN_EVENT_SLEEP | CAN_EVENT_TIMEOUT => st_mod (fun s => {| s with canact := false |});; gb_data_clear_error
  | CAN_EVENT_DATAIN msgs => can_datain msgs
  | CAN_EVENT_OTHER => mret tt
  end;;
  mret 0.

Inductive DBC_EVENT :=
| DBC_EVENT_RELOAD | DBC_EVENT_FINISHED (arg1 : Z) | DBC_EVENT_DEFINE (str : list Z)
| DBC_EVENT_SURFIX (sigid : Z) (sfx : list Z) | DBC_EVENT_UPDATE (sigid : Z) (lastv value : double) | DBC_EVENT_RESET.

Definition gb_data_dbc_cb (event : DBC_EVENT) : GM Z :=
  match event with
  | DBC_EVENT_RELOAD => st_mod (fun s => {| s with gb_rld := Some dbc_reload |});; mret 0
  | DBC_EVENT_FINISHED arg1 =>
      rld ← st_gets gb_rld;
      match rld with
      | Some g =>
          if arg1 =? 0 then
            ok ← st_lift (dbc_accept g);
            if (ok : bool) then
              row ← st_lift (mem_get (warn g) 2);
              st_mod (fun s => {| s with gb_inf := Some g; flagged := filter (fun id => id <> 0) row |});;
              dbc_finished g;;
              st_mod (fun s => {| s with gb_rld := None |});; mret 0
            else mret 0                              (* the [break] skips the reset of gb_rld *)
          else st_mod (fun s => {| s with gb_rld := None |});; mret 0
      | None => mret 0
      end
  | DBC_EVENT_DEFINE str =>
      rld ← st_gets gb_rld;
      match rld with
      | Some g => g ← st_lift (gb_data_parse_define g str); st_mod (fun s => {| s with gb_rld := Some g |});; mret 0
      | None => mret 0
      end
  | DBC_EVENT_SURFIX sigid sfx =>
      rld ← st_gets gb_rld;
      match rld with
      | Some g => '(r, g) ← st_lift (gb_data_parse_surfix g sigid sfx); st_mod (fun s => {| s with gb_rld := Some g |});; mret r
      | None => mret 0
      end
  | DBC_EVENT_UPDATE sigid lastv value =>
      s ← st_get;
      match gb_inf s with
      | Some g =>
          st_when (existsb (Z.eqb sigid) (flagged s) && negb (d_true lastv) && d_true value)
            (st_mod (fun s => {| s with gb_inf := Some {| g with warntrig := true |} |}));;
          mret 0
      | None => mret 0
      end
  | DBC_EVENT_RESET => mret 0
  end.

(** ** Sequences *)

(** What the lists hold: the addresses of the packs.  [q_tmp] is the temporary list
    while an error flush runs, [q_err] the ring from its head on. *)
Record QUEUES := {
  q_realtm : list Z; q_delay : list Z; q_trans : list Z; q_free : list Z;
  q_tmp : option (list Z); q_err : list Z
}.

Definition list_of (q : QUEUES) (l : Z) : option (list Z) :=
  if l =? gb_realtm_lst then Some (q_realtm q)
  else if l =? gb_delay_lst then Some (q_delay q)
  else if l =? gb_trans_lst then Some (q_trans q)
  else if l =? gb_free_lst then Some (q_free q)
  else if l =? tmplst then q_tmp q
  else match q_err q with e :: r => if l =? e then Some r else None | [] => None end.

Definition set_list (l : Z) (xs : list Z) (q : QUEUES) : QUEUES :=
  if l =? gb_realtm_lst then {| q with q_realtm := xs |}
  else if l =? gb_delay_lst then {| q with q_delay := xs |}
  else if l =? gb_trans_lst then {| q with q_trans := xs |}
  else if l =? gb_free_lst then {| q with q_free := xs |}
  else {| q with q_tmp := Some xs |}.

(** The buffers in some list. *)
Definition bufs (q : QUEUES) : list Z := q_realtm q ++ q_delay q ++ q_trans q ++ q_free q ++ default [] (q_tmp q).

Definition is_buf (x : Z) : Prop := 16 <= x < 16 + GB_MAX_REPORT.
Definition is_err (x : Z) : Prop := 16 + GB_MAX_REPORT <= x < 16 + GB_MAX_REPORT + GB_MAX_ERROR.
Definition sentinel (l : Z) : Prop := 1 <= l <= 5.

Record rep (s : GB) (q : QUEUES) : Prop := {
  rep_lists : exists m, lists_ok (links s) m /\ forall l, m !! l = list_of q l;
  rep_head : gb_errlst_head s = hd 0 (q_err q);
  rep_links x : sentinel x \/ is_buf x \/ is_err x -> is_Some (links s !! x);
  rep_packs x : is_buf x \/ is_err x -> exists v, packs s !! x = Some v /\ len (pdata v) = 1024;
  rep_err : Forall is_err (q_err q);
  rep_bufs : Forall is_buf (bufs q)
}.

Definition with_links (s : GB) (h : LINKS) : GB := {| s with links := h |}.

Ltac ranges := unfold sentinel, is_buf, is_err, gb_realtm_lst, gb_delay_lst, gb_trans_lst, gb_free_lst, tmplst,
  gb_datamem, gb_errmem, GB_MAX_ERROR, GB_MAX_PACK_CELL, GB_MAX_REPORT in *.

Lemma sentinel_cases l : sentinel l -> l = gb_realtm_lst \/ l = gb_delay_lst \/ l = gb_trans_lst \/ l = gb_free_lst \/ l = tmplst.
Proof. ranges. lia. Qed.

Lemma set_list_lookup q l xs (m : LISTS) : sentinel l -> Forall is_err (q_err q) ->
  (forall k, m !! k = list_of q k) -> forall k, <[l := xs]> m !! k = list_of (set_list l xs q) k.
Proof.
  intros Hl He Hm k. destruct (decide (k = l)) as [-> | N].
  - rewrite lookup_insert_eq. apply sentinel_cases in Hl. by destruct Hl as [-> | [-> | [-> | [-> | ->]]]].
  - rewrite lookup_insert_ne, Hm by done. unfold list_of, set_list.
    apply sentinel_cases in Hl. destruct Hl as [-> | [-> | [-> | [-> | ->]]]]; cbn;
      repeat match goal with |- context [?a =? ?b] => destruct (Z.eqb_spec a b) end; done.
Qed.

(** A buffer that is in no list is linked nowhere. *)
Lemma buf_unlinked q (m : LISTS) x : (forall k, m !! k = list_of q k) -> Forall is_err (q_err q) ->
  is_buf x -> ~ In x (bufs q) -> unlinked m x.
Proof.
  intros Hm He Hx Hin l xs Hl. rewrite Hm in Hl. unfold list_of in Hl. unfold bufs in Hin. rewrite !in_app_iff in Hin.
  repeat match goal with H : context [?a =? ?b] |- _ => destruct (Z.eqb_spec a b); simplify_eq end;
    try (intros [Hy | Hy]; [ranges; lia | tauto]).
  - rewrite Hl in Hin. intros [Hy | Hy]; [ranges; lia | cbn in Hin; tauto].
  - destruct (q_err q) as [|e r]; [done |]. destruct (Z.eqb_spec l e); simplify_eq.
    intros Hy. rewrite Forall_forall in He. specialize (He x Hy). ranges. lia.
Qed.

Lemma dom_is_Some (h h' : LINKS) x : dom h' = dom h -> is_Some (h !! x) -> is_Some (h' !! x).
Proof. apply dom_mem. Qed.

(** ** The primitives on the sequences *)

Lemma set_list_err l xs q : q_err (set_list l xs q) = q_err q.
Proof. unfold set_list. by repeat destruct (_ =? _). Qed.

Lemma Forall_bufs (P : Z -> Prop) q : Forall P (bufs q) <->
  Forall P (q_realtm q) /\ Forall P (q_delay q) /\ Forall P (q_trans q) /\ Forall P (q_free q) /\ Forall P (default [] (q_tmp q)).
Proof. unfold bufs. by rewrite !Forall_app. Qed.

Lemma set_list_bufs l xs q : Forall is_buf xs -> Forall is_buf (bufs q) -> Forall is_buf (bufs (set_list l xs q)).
Proof.
  rewrite !Forall_bufs. intros Hx (H1 & H2 & H3 & H4 & H5). unfold set_list. by repeat destruct (_ =? _).
Qed.

Lemma list_of_bufs q l xs : sentinel l -> list_of q l = Some xs -> incl xs (bufs q).
Proof.
  intros Hl E x Hx. unfold bufs. rewrite !in_app_iff.
  apply sentinel_cases in Hl. destruct Hl as [-> | [-> | [-> | [-> | ->]]]]; cbn in E; [simplify_eq; tauto .. |].
  rewrite E. cbn. tauto.
Qed.

Section primitives.
Context (s : GB) (q : QUEUES) (R : rep s q).

Lemma rep_set l xs h' m : (forall k, m !! k = list_of q k) -> sentinel l -> dom h' = dom (links s) ->
  lists_ok h' (<[l := xs]> m) -> Forall is_buf xs -> rep (with_links s h') (set_list l xs q).
Proof using R.
  intros Hm Hl Hd L Hx. destruct R as [_ Hh Hk Hp He Hb]. split; cbn [links gb_errlst_head packs with_links].
  - exists (<[l := xs]> m). split; [done | by apply set_list_lookup].
  - by rewrite set_list_err.
  - intros x Hxx. eapply dom_is_Some; [done | by apply Hk].
  - done.
  - by rewrite set_list_err.
  - by apply set_list_bufs.
Qed.

Context (l : Z) (Hl : sentinel l) (xs : list Z) (Hxs : list_of q l = Some xs).

Lemma list_bufs : Forall is_buf xs.
Proof using R Hl Hxs.
  apply Forall_forall. intros x Hx. pose proof (rep_bufs _ _ R) as H. rewrite Forall_forall in H.
  apply H. by apply (list_of_bufs q l xs).
Qed.

Lemma take_first_run : exists h', take_first l s = Some (hd_error xs, with_links s h') /\
  rep (with_links s h') (set_list l (tl xs) q).
Proof using R Hl Hxs.
  pose proof list_bufs as Hb. destruct (rep_lists _ _ R) as (m & L & Hm).
  destruct (lists_get_first _ _ L l xs) as (h' & E & Hd & L'); [by rewrite Hm |].
  exists h'. split; [unfold take_first; st_run; by rewrite E |]. eapply rep_set; eauto.
  destruct Hb; [constructor | done].
Qed.

Lemma take_last_run : exists h', take_last l s = Some (hd_error (rev xs), with_links s h') /\
  rep (with_links s h') (set_list l (removelast xs) q).
Proof using R Hl Hxs.
  pose proof list_bufs as Hb. destruct (rep_lists _ _ R) as (m & L & Hm).
  destruct (lists_get_last _ _ L l xs) as (h' & E & Hd & L'); [by rewrite Hm |].
  exists h'. split; [unfold take_last; st_run; by rewrite E |]. eapply rep_set; eauto.
  destruct xs as [|x ys _] using rev_ind; [constructor |]. rewrite removelast_last. by apply Forall_app in Hb as [? _].
Qed.

Lemma add_tail_run x : is_buf x -> ~ In x (bufs q) ->
  exists h', add_tail l x s = Some (tt, with_links s h') /\ rep (with_links s h') (set_list l (xs ++ [x]) q).
Proof using R Hl Hxs.
  intros Hx Hin. pose proof list_bufs as Hb. destruct (rep_lists _ _ R) as (m & L & Hm).
  destruct (lists_add_tail _ _ L l xs x) as (h' & E & Hd & L');
    [by rewrite Hm | apply (rep_links _ _ R); auto | eapply buf_unlinked; eauto; apply R |].
  exists h'. split; [unfold add_tail, on_links; st_run; by rewrite E |]. eapply rep_set; eauto.
  apply Forall_app. split; [done |]. by apply Forall_singleton.
Qed.

Lemma add_head_run x : is_buf x -> ~ In x (bufs q) ->
  exists h', add_head l x s = Some (tt, with_links s h') /\ rep (with_links s h') (set_list l (x :: xs) q).
Proof using R Hl Hxs.
  intros Hx Hin. pose proof list_bufs as Hb. destruct (rep_lists _ _ R) as (m & L & Hm).
  destruct (lists_add_head _ _ L l xs x) as (h' & E & Hd & L');
    [by rewrite Hm | apply (rep_links _ _ R); auto | eapply buf_unlinked; eauto; apply R |].
  exists h'. split; [unfold add_head, on_links; st_run; by rewrite E |]. eapply rep_set; eauto.
Qed.

Lemma is_empty_run : is_empty l s = Some (match xs with [] => true | _ => false end, s).
Proof using R Hl Hxs.
  destruct (rep_lists _ _ R) as (m & L & Hm). unfold is_empty. st_run.
  by rewrite (lists_empty _ _ L l xs) by (by rewrite Hm).
Qed.

End primitives.

(** Changes outside of the links. *)
Lemma rep_same s s' q : rep s q -> links s' = links s -> gb_errlst_head s' = gb_errlst_head s ->
  (forall x, is_buf x \/ is_err x -> exists v, packs s' !! x = Some v /\ len (pdata v) = 1024) -> rep s' q.
Proof. intros [] El Eh Hp. split; rewrite ?El, ?Eh; done. Qed.

(** ** Operations on the sequences *)

Definition spec_get_buffer (q : QUEUES) : option (Z * QUEUES) :=
  match q_free q, q_delay q, q_realtm q with
  | n :: r, _, _ => Some (n, {| q with q_free := r |})
  | [], n :: r, _ => Some (n, {| q with q_delay := r |})
  | [], [], n :: r => Some (n, {| q with q_realtm := r |})
  | [], [], [] => None
  end.

Definition spec_get_pack (emerg : bool) (q : QUEUES) : option Z * QUEUES :=
  match q_realtm q with
  | n :: r => (Some n, {| q with q_realtm := r |})
  | [] => if emerg then (hd_error (rev (q_delay q)), {| q with q_delay := removelast (q_delay q) |})
          else (hd_error (q_delay q), {| q with q_delay := tl (q_delay q) |})
  end.

Lemma set_nil q l : list_of q l = Some [] -> sentinel l -> set_list l [] q = q.
Proof.
  intros E Hl. apply sentinel_cases in Hl. destruct q. destruct Hl as [-> | [-> | [-> | [-> | ->]]]]; cbn in *; by simplify_eq.
Qed.

Lemma sen_realtm : sentinel gb_realtm_lst. Proof. ranges; lia. Qed.
Lemma sen_delay : sentinel gb_delay_lst. Proof. ranges; lia. Qed.
Lemma sen_trans : sentinel gb_trans_lst. Proof. ranges; lia. Qed.
Lemma sen_free : sentinel gb_free_lst. Proof. ranges; lia. Qed.
Lemma sen_tmp : sentinel tmplst. Proof. ranges; lia. Qed.
#[local] Hint Resolve sen_realtm sen_delay sen_trans sen_free sen_tmp : core.

(** Nothing was taken. *)
Ltac none_taken H := match type of H with rep _ (set_list ?l _ ?q) => rewrite (set_nil q l) in H by done end.

Lemma get_buffer_run s q : rep s q ->
  match spec_get_buffer q with
  | Some (n, q') => exists h', get_buffer s = Some (n, with_links s h') /\ rep (with_links s h') q'
  | None => get_buffer s = None
  end.
Proof.
  destruct q as [rt dl tr fr tm er]. intros R. unfold spec_get_buffer, get_buffer. cbn [q_free q_delay q_realtm].
  destruct (take_first_run s _ R gb_free_lst sen_free fr eq_refl) as (h1 & E1 & R1). st_call E1.
  destruct fr as [|n r]; cbn [hd_error tl] in *; [| st_run; eauto]. none_taken R1.
  destruct (take_first_run _ _ R1 gb_delay_lst sen_delay dl eq_refl) as (h2 & E2 & R2). st_call E2.
  destruct dl as [|n r]; cbn [hd_error tl] in *; [| st_run; eauto]. none_taken R2.
  destruct (take_first_run _ _ R2 gb_realtm_lst sen_realtm rt eq_refl) as (h3 & E3 & R3). st_call E3.
  destruct rt as [|n r]; cbn [hd_error tl] in *; [done |]. st_run. eauto.
Qed.

Lemma get_pack_run s q : rep s q ->
  exists h', gb_data_get_pack s = Some (fst (spec_get_pack (gb_emerg s) q), with_links s h') /\
    rep (with_links s h') (snd (spec_get_pack (gb_emerg s) q)).
Proof.
  destruct q as [rt dl tr fr tm er]. intros R. unfold spec_get_pack, gb_data_get_pack. cbn [q_delay q_realtm].
  destruct (take_first_run s _ R gb_realtm_lst sen_realtm rt eq_refl) as (h1 & E1 & R1). st_call E1.
  destruct rt as [|n r]; cbn [hd_error tl fst snd] in *; [| st_run; eauto]. none_taken R1.
  st_run. change (gb_emerg (with_links s h1)) with (gb_emerg s). destruct (gb_emerg s); cbn [fst snd].
  - destruct (take_last_run _ _ R1 gb_delay_lst sen_delay dl eq_refl) as (h2 & E2 & R2). by exists h2.
  - destruct (take_first_run _ _ R1 gb_delay_lst sen_delay dl eq_refl) as (h2 & E2 & R2). by exists h2.
Qed.

(** ** Buffers are neither lost nor doubled *)

Definition all_bufs : list Z := gb_datamem <$> seqZ 0 GB_MAX_REPORT.

(** Every buffer is in one list, or in [taken]. *)
Definition conserved (q : QUEUES) (taken : list Z) : Prop := Permutation (bufs q ++ taken) all_bufs.

Lemma all_bufs_nodup : List.NoDup all_bufs.
Proof.
  apply NoDup_ListNoDup. unfold all_bufs. apply NoDup_fmap_2_strong; [intros x y _ _; unfold gb_datamem; lia | apply NoDup_seqZ].
Qed.

Lemma all_bufs_in x : In x all_bufs <-> is_buf x.
Proof.
  unfold all_bufs. rewrite <- list_elem_of_In, list_elem_of_fmap. ranges. split.
  - intros (y & -> & Hy). apply elem_of_seqZ in Hy. lia.
  - intros Hx. exists (x - 16). split; [lia | apply elem_of_seqZ; lia].
Qed.

Lemma conserved_nodup q taken : conserved q taken -> List.NoDup (bufs q ++ taken).
Proof. intros H. eapply Permutation_NoDup; [symmetry; exact H | apply all_bufs_nodup]. Qed.

Lemma conserved_taken q x taken : conserved q (x :: taken) -> is_buf x /\ ~ In x (bufs q).
Proof.
  intros H. split.
  - apply all_bufs_in. eapply Permutation_in; [exact H |]. apply in_or_app. right. by left.
  - apply conserved_nodup, NoDup_remove_2 in H. intros Hx. apply H. apply in_or_app. by left.
Qed.

Lemma conserved_iff q q' taken taken' : Permutation (bufs q ++ taken) (bufs q' ++ taken') ->
  conserved q taken -> conserved q' taken'.
Proof. intros H1 H2. unfold conserved in *. by rewrite <- H1. Qed.

Ltac perm_tac :=
  unfold bufs; cbn [q_realtm q_delay q_trans q_free q_tmp default set_list Z.eqb Pos.eqb gb_realtm_lst gb_delay_lst gb_trans_lst gb_free_lst tmplst];
  rewrite <- ?app_assoc; cbn [app]; solve_Permutation.

Lemma get_buffer_perm q n q' : spec_get_buffer q = Some (n, q') -> Permutation (bufs q) (n :: bufs q').
Proof.
  destruct q as [rt dl tr fr tm er]. unfold spec_get_buffer. cbn [q_free q_delay q_realtm].
  destruct fr as [|x fr]; [destruct dl as [|x dl]; [destruct rt as [|x rt]; [done |] |] |]; intros [= <- <-];
    unfold bufs; cbn; rewrite <- ?Permutation_middle; done.
Qed.

(** ** Saving reports *)

(** A table and signals that can be encoded. *)
Record encodable (sigcnt : Z) (inf : gb_info_t) (env : DATA_ENV) : Prop := {
  en_ok : gb_info_ok sigcnt inf;
  en_env : env_ok sigcnt inf env;
  en_cells : dense (cell (batt inf)) (cell_cnt (batt inf));
  en_temps : dense (temp (batt inf)) (temp_cnt (batt inf));
  en_fuel : fuel_temp_cnt (fuelcell inf) <= GB_MAX_FUEL_TEMP
}.

(** The number of a report in its group, after [i] reports. *)
Definition nth_k (inf : gb_info_t) (i : Z) : Z := if electric inf then i mod GROUP_SIZE inf else 0.

(** The reports written by [n] calls, and the encoders after them. *)
Fixpoint encode_n (env : DATA_ENV) (inf : gb_info_t) (uptime : Z) (n : nat) (sv : SAVER) : option (list (list Z) * SAVER) :=
  match n with
  | O => Some ([], sv)
  | S n => '(l, sv) ← gb_data_save_all env inf uptime sv; '(ls, sv) ← encode_n env inf uptime n sv; Some (l :: ls, sv)
  end.

Definition put_report (l : list Z) (v : gb_pack_t) : gb_pack_t :=
  {| v with pdata := l ++ drop (length l) (pdata v); plen := len l |}.

Definition with_pack (s : GB) (sv : SAVER) (p : Z) (v : gb_pack_t) : GB :=
  {| s with saver := sv; packs := <[p := v]> (packs s) |}.

Lemma rep_with_pack s q sv p v : rep s q -> len (pdata v) = 1024 -> rep (with_pack s sv p v) q.
Proof.
  intros R Hv. eapply rep_same; [done | done | done |]. intros x Hx. cbn [packs with_pack].
  destruct (decide (x = p)) as [-> | N].
  - rewrite lookup_insert_eq. by exists v.
  - rewrite lookup_insert_ne by done. by apply (rep_packs _ _ R).
Qed.

Lemma put_report_len l v : len l <= 1024 -> len (pdata v) = 1024 -> len (pdata (put_report l v)) = 1024.
Proof. intros Hl Hv. cbn. rewrite len_app, len_drop. unfold len in *. lia. Qed.

Section save.
Context (sigcnt : Z) (inf : gb_info_t) (env : DATA_ENV) (uptime : Z) (EN : encodable sigcnt inf env).

Lemma encode_one i sv : 0 <= i -> 0 < GROUP_SIZE inf -> group_at (nth_k inf i) sv ->
  exists l sv', gb_data_save_all env inf uptime sv = Some (l, sv') /\ 0 < len l <= 1010 /\ Forall is_byte l /\
    group_at (nth_k inf (i + 1)) sv'.
Proof using EN.
  destruct EN as [G E Dc Dt Hf]. intros Hi Hg Hsv.
  assert (0 <= nth_k inf i < GROUP_SIZE inf) as Hk.
  { unfold nth_k. destruct (electric inf); [apply Z.mod_pos_bound |]; lia. }
  destruct (save_all_run sigcnt inf env G E Dc Dt Hf (nth_k inf i) uptime sv Hk Hsv) as (l & sv' & El & [Hl Hb] & Hn).
  pose proof (report_len_fits sigcnt inf env G Hf _ Hk). exists l, sv'. split; [done |]. split; [split; [| lia] |].
  { rewrite Hl. unfold report_len, cells_at. pose proof (group_bounds sigcnt inf G _ Hk).
    pose proof (ok_motor_cnt _ _ G). pose proof (temp_cnt_range sigcnt inf G). pose proof (fu_cnt _ _ (ok_fuel _ _ G)).
    destruct (electric inf), (combustion inf), (with_fuel env); lia. }
  split; [done |]. unfold nth_k in *. destruct (electric inf); [| done]. unfold next_k in Hn.
  pose proof (group_bounds sigcnt inf G _ Hk). rewrite u32_small in Hn by (unfold is_u32; lia).
  by rewrite Zplus_mod_idemp_l in Hn.
Qed.

Lemma save_into_run s q p i : rep s q -> is_buf p \/ is_err p ->
  0 <= i -> 0 < GROUP_SIZE inf -> group_at (nth_k inf i) (saver s) ->
  exists l sv v, gb_data_save_all env inf uptime (saver s) = Some (l, sv) /\ packs s !! p = Some v /\
    group_at (nth_k inf (i + 1)) sv /\ 0 < len l <= 1010 /\ len (pdata v) = 1024 /\
    save_into env inf uptime p s = Some (tt, with_pack s sv p (put_report l v)).
Proof using EN.
  intros R Hp Hi Hg Hsv. destruct (encode_one i (saver s) Hi Hg Hsv) as (l & sv & El & Hl & _ & Hn).
  destruct (rep_packs _ _ R p Hp) as (v & Ev & Hv). exists l, sv, v. do 5 (split; [done |]).
  unfold save_into. st_run. rewrite El. st_run. unfold pack. st_run. cbn [packs]. rewrite Ev. st_run.
  rewrite mem_write_ok by lia. st_run. unfold set_pack, with_pack, put_report. cbn.
  do 3 f_equal. f_equal. rewrite Z.add_0_l. unfold len. by rewrite Nat2Z.id.
Qed.

End save.

(** The variables that the queue operations leave alone. *)
Definition statics (s : GB) :=
  (gb_emerg s, gb_pendflag s, (ticks s, times s, triger s), (gb_inf s, gb_rld s, gb_datintv s, flagged s), (canact s, counter s)).

(** The pack [v] holds the report [l]. *)
Record holds (v : gb_pack_t) (l : list Z) (type lst : Z) : Prop := {
  ho_len : plen v = len l;
  ho_data : take (length l) (pdata v) = l;
  ho_type : ptype v = type;
  ho_list : plist v = lst
}.

Lemma put_report_data l v : take (length l) (pdata (put_report l v)) = l.
Proof. cbn. by rewrite take_app_length. Qed.

Lemma pack_run s p v : packs s !! p = Some v -> pack p s = Some (v, s).
Proof. intros E. unfold pack. st_run. by rewrite E. Qed.

Lemma mod_pack_run s p f v : packs s !! p = Some v ->
  mod_pack p f s = Some (tt, {| s with packs := <[p := f v]> (packs s) |}).
Proof. intros E. unfold mod_pack. by st_call (pack_run s p v E). Qed.

Lemma group_at_fn (i j : Z) sv : i = j -> group_at i sv -> group_at j sv.
Proof. by intros ->. Qed.

Section realtm.
Context (sigcnt : Z) (inf : gb_info_t) (env : DATA_ENV) (uptime : Z) (EN : encodable sigcnt inf env).
Context (Hg : 0 < GROUP_SIZE inf).

Lemma save_realtm_one_run s q taken i n q1 :
  rep s q -> conserved q taken -> spec_get_buffer q = Some (n, q1) -> 0 <= i -> group_at (nth_k inf i) (saver s) ->
  exists s' l sv v, save_realtm_one env inf uptime i s = Some (tt, s') /\
    gb_data_save_all env inf uptime (saver s) = Some (l, sv) /\ saver s' = sv /\ statics s' = statics s /\
    packs s' = <[n := v]> (packs s) /\ holds v l GB_RPTTYPE_REALTM gb_realtm_lst /\ pseq v = i + 1 /\
    group_at (nth_k inf (i + 1)) sv /\
    rep s' (set_list gb_realtm_lst (q_realtm q1 ++ [n]) q1) /\ conserved (set_list gb_realtm_lst (q_realtm q1 ++ [n]) q1) taken.
Proof using EN Hg.
  intros R C Eq Hi Hsv. pose proof (get_buffer_run s q R) as Hb. rewrite Eq in Hb. destruct Hb as (h & Eb & Rb).
  pose proof (get_buffer_perm _ _ _ Eq) as P.
  assert (conserved q1 (n :: taken)) as C1 by (eapply conserved_iff; [| exact C]; rewrite P; apply Permutation_middle).
  destruct (conserved_taken _ _ _ C1) as [Hn Hnin].
  unfold save_realtm_one. st_call Eb.
  destruct (save_into_run sigcnt inf env uptime EN (with_links s h) q1 n i Rb (or_introl Hn) Hi Hg Hsv)
    as (l & sv & v & El & Ev & Hk & Hl & Hv & Es). st_call Es.
  set (s1 := with_pack _ _ _ _) in *. pose proof (put_report_len l v ltac:(lia) Hv) as Hv1.
  assert (packs s1 !! n = Some (put_report l v)) as E1 by apply lookup_insert_eq.
  st_call (mod_pack_run s1 n (mark_realtm i) _ E1). set (v2 := mark_realtm i (put_report l v)).
  assert (rep {| s1 with packs := <[n := v2]> (packs s1) |} q1) as R2.
  { apply (rep_with_pack s1 q1 sv n v2); [by apply rep_with_pack | exact Hv1]. }
  destruct (add_tail_run _ q1 R2 gb_realtm_lst sen_realtm (q_realtm q1) eq_refl n Hn Hnin) as (h2 & Ea & R3).
  eexists _, l, sv, v2. split; [exact Ea |]. split; [exact El |]. split; [done |]. split; [done |].
  split; [apply insert_insert_eq |]. split; [split; [done | apply put_report_data | done | done] |]. split; [done |].
  split; [done |]. split; [exact R3 |].
  eapply conserved_iff; [| exact C1]. destruct q1 as [rt dl tr fr tm er]. perm_tac.
Qed.

(** A buffer that may be taken. *)
Definition avail (q : QUEUES) : Prop := q_free q ++ q_delay q ++ q_realtm q <> [].

Lemma avail_some q : avail q -> exists n q1, spec_get_buffer q = Some (n, q1).
Proof using.
  destruct q as [rt dl tr fr tm er]. unfold avail, spec_get_buffer. cbn [q_free q_delay q_realtm].
  destruct fr, dl, rt; cbn; intros H; try done; eauto.
Qed.

Lemma avail_none q : ~ avail q -> spec_get_buffer q = None.
Proof using.
  destruct q as [rt dl tr fr tm er]. unfold avail, spec_get_buffer. cbn [q_free q_delay q_realtm].
  destruct fr, dl, rt; cbn; intros H; try done; by destruct H.
Qed.

(** The sequences after [n] reports. *)
Fixpoint spec_save (n : nat) (q : QUEUES) : QUEUES :=
  match n with
  | O => q
  | S n =>
      match spec_get_buffer q with
      | Some (x, q1) => spec_save n (set_list gb_realtm_lst (q_realtm q1 ++ [x]) q1)
      | None => q
      end
  end.

Lemma save_realtm_run n : forall s q taken i,
  rep s q -> conserved q taken -> avail q -> 0 <= i -> group_at (nth_k inf i) (saver s) ->
  exists s', st_for n i (save_realtm_one env inf uptime) s = Some (tt, s') /\
    rep s' (spec_save n q) /\ conserved (spec_save n q) taken /\ statics s' = statics s /\
    group_at (nth_k inf (i + Z.of_nat n)) (saver s').
Proof using EN Hg.
  induction n as [|n IH]; intros s q taken i R C A Hi Hsv; cbn [st_for spec_save].
  { exists s. rewrite Z.add_0_r. by st_run. }
  destruct (avail_some q A) as (x & q1 & Eq). rewrite Eq.
  destruct (save_realtm_one_run s q taken i x q1 R C Eq Hi Hsv) as (s1 & l & sv & v & E1 & _ & Esv & Est & _ & _ & _ & Hk & R1 & C1).
  st_call E1. destruct (IH s1 _ taken (i + 1) R1 C1) as (s2 & E2 & R2 & C2 & Est2 & Hk2); [| lia | by rewrite Esv |].
  { unfold avail. destruct q1 as [rt dl tr fr tm er]. cbn. destruct fr, dl, rt; done. }
  exists s2. split; [done |]. split; [done |]. split; [done |]. split; [congruence |].
  eapply group_at_fn; [| exact Hk2]. f_equal. lia.
Qed.

(** With enough free buffers nothing is discarded. *)
Lemma save_realtm_content n : forall s q taken i,
  rep s q -> conserved q taken -> (n <= length (q_free q))%nat -> 0 <= i -> group_at (nth_k inf i) (saver s) ->
  exists s' ls sv, st_for n i (save_realtm_one env inf uptime) s = Some (tt, s') /\
    encode_n env inf uptime n (saver s) = Some (ls, sv) /\ saver s' = sv /\ statics s' = statics s /\
    rep s' {| q with q_realtm := q_realtm q ++ take n (q_free q); q_free := drop n (q_free q) |} /\
    conserved {| q with q_realtm := q_realtm q ++ take n (q_free q); q_free := drop n (q_free q) |} taken /\
    Forall2 (fun x l => exists v, packs s' !! x = Some v /\ holds v l GB_RPTTYPE_REALTM gb_realtm_lst) (take n (q_free q)) ls /\
    (forall y, ~ In y (take n (q_free q)) -> packs s' !! y = packs s !! y).
Proof using EN Hg.
  induction n as [|n IH]; intros s [rt dl tr fr tm er] taken i R C Hn Hi Hsv; cbn [st_for encode_n q_free q_realtm] in *.
  { exists s, [], (saver s). rewrite take_0, drop_0, app_nil_r. do 6 (split; [done |]). by split; [apply Forall2_nil |]. }
  destruct fr as [|x fr]; [cbn in Hn; lia |].
  destruct (save_realtm_one_run s _ taken i x _ R C eq_refl Hi Hsv) as (s1 & l & sv & v & E1 & El & Esv & Est & Ep & Hh & _ & Hk & R1 & C1).
  cbn [q_realtm q_delay q_trans q_free q_tmp q_err set_list Z.eqb Pos.eqb gb_realtm_lst] in R1, C1.
  destruct (IH s1 _ taken (i + 1) R1 C1) as (s2 & ls & sv2 & E2 & Els & Esv2 & Est2 & R2 & C2 & F2 & Hy2);
    [cbn in *; lia | lia | by rewrite Esv |]. cbn [q_realtm q_delay q_trans q_free q_tmp q_err] in *.
  exists s2, (l :: ls), sv2. st_call E1. split; [done |]. rewrite El. cbn [mbind option_bind].
  rewrite <- Esv, Els. cbn [mbind option_bind take drop]. split; [done |]. split; [done |]. split; [congruence |].
  rewrite <- app_assoc in R2, C2. split; [exact R2 |]. split; [exact C2 |].
  assert (~ In x (take n fr)) as Hx.
  { apply conserved_nodup in C. unfold bufs in C. cbn in C. rewrite <- !app_assoc in C.
    apply NoDup_app_remove_l, NoDup_app_remove_l, NoDup_app_remove_l, NoDup_cons_iff in C as [C _].
    intros Hin. apply C. rewrite <- (take_drop n fr), !in_app_iff.
    tauto. }
  split.
  - constructor; [| done]. exists v. split; [| done]. by rewrite Hy2, Ep, lookup_insert_eq by done.
  - intros y Hy. rewrite Hy2, Ep by (intros ?; apply Hy; by right). apply lookup_insert_ne. intros ->. apply Hy. by left.
Qed.

End realtm.

(** ** The temporary list *)

Lemma chain_last_next h a xs b : chain h a xs b -> get_next h (List.last xs a) = Some b.
Proof.
  destruct xs as [|x ys _] using rev_ind; [by intros [? _] |]. rewrite last_last.
  intros [_ Hc]%chain_app. by destruct Hc.
Qed.

Lemma splice_run h l t xs y ys : chain h l xs l -> chain h t (y :: ys) t -> List.NoDup (l :: xs ++ t :: y :: ys) ->
  exists h', splice l t h = Some h' /\ dom h' = dom h /\
    (forall w, get_next h' w = if w =? List.last ys y then Some l else if w =? List.last xs l then Some y else get_next h w) /\
    (forall w, get_prev h' w = if w =? l then Some (List.last ys y) else if w =? y then Some (List.last xs l) else get_prev h w).
Proof.
  intros Hl Ht ND. unfold splice.
  pose proof (chain_next _ _ _ _ Ht) as En. pose proof (chain_prev _ _ _ _ Hl) as Ep. pose proof (chain_prev _ _ _ _ Ht) as Ez.
  cbn [hd] in En. rewrite last_cons in Ez.
  assert (forall w, In w (l :: xs) -> ~ In w (t :: y :: ys)) as D.
  { intros w Hw Hw'. change (l :: xs ++ t :: y :: ys) with ((l :: xs) ++ t :: y :: ys) in ND.
    apply in_split in Hw' as (a & b & Eab). rewrite Eab, app_assoc in ND. apply NoDup_remove_2 in ND.
    apply ND. rewrite !in_app_iff. tauto. }
  assert (y <> l) as Nyl by (intros ->; apply (D l); cbn; tauto).
  assert (t <> y) as Nty.
  { rewrite app_comm_cons in ND. apply NoDup_app_remove_l, NoDup_cons_iff in ND as [H _]. intros ->. apply H. by left. }
  assert (t <> List.last xs l) as Ntp by (intros ->; apply (D (List.last xs l)); [apply last_in | by left]).
  assert (t <> l) as Ntl by (intros ->; apply (D l); cbn; tauto).
  assert (forall w, In w (l :: xs) -> is_Some (h !! w)) as M1.
  { intros w Hw. eapply chain_mem; [exact Hl |]. destruct Hw as [-> | Hw]; [by left | right; apply in_or_app; by left]. }
  assert (forall w, In w (t :: y :: ys) -> is_Some (h !! w)) as M2.
  { intros w Hw. eapply chain_mem; [exact Ht |]. destruct Hw as [-> | Hw]; [by left | right; apply in_or_app; by left]. }
  pose proof (M1 _ (last_in xs l)) as Mp. pose proof (M1 l ltac:(by left)) as Ml.
  pose proof (M2 y ltac:(cbn; tauto)) as My. assert (is_Some (h !! List.last ys y)) as Mz by (apply M2; right; apply last_in).
  rewrite En, Ep. cbn [mbind option_bind].
  set_step. get_value. rewrite (eqb_ne l y), Ep, En by congruence. cbn [mbind option_bind].
  set_step. get_value. rewrite (eqb_ne t y), Ez by congruence. cbn [mbind option_bind].
  set_step. get_value. rewrite (eqb_ne t y), Ez by congruence. cbn [mbind option_bind].
  set_step. split; [congruence |]. split; intros w; get_value; done.
Qed.

Lemma ring_splice h l t xs y ys : ring h l xs -> ring h t (y :: ys) -> List.NoDup (l :: xs ++ t :: y :: ys) ->
  exists h', splice l t h = Some h' /\ dom h' = dom h /\ ring h' l (xs ++ y :: ys) /\ only h h' (l :: xs ++ y :: ys).
Proof.
  intros [Hl _] [Ht _] ND. destruct (splice_run h l t xs y ys Hl Ht ND) as (h' & E & Hd & Hn & Hp).
  exists h'. split; [done |]. split; [done |].
  assert (List.NoDup (l :: xs ++ y :: ys)) as ND'.
  { rewrite app_comm_cons in *. by apply NoDup_remove_1 in ND. }
  assert (forall w, In w (l :: xs) -> ~ In w (y :: ys)) as D.
  { intros w Hw Hw'. rewrite app_comm_cons in ND'. apply in_split in Hw' as (a & b & Eab). rewrite Eab, app_assoc in ND'.
    apply NoDup_remove_2 in ND'. apply ND'. rewrite !in_app_iff. tauto. }
  pose proof (last_in xs l) as Lx. pose proof (last_in ys y) as Ly. split.
  - split; [| done]. apply chain_app. split.
    + apply (chain_redirect h _ _ _ l); [done | by rewrite app_comm_cons in ND'; apply NoDup_app_remove_r in ND' | | | |].
      * rewrite Hn, eqb_ne, Z.eqb_refl; [done |]. intros Eq. apply (D _ Lx). by rewrite Eq.
      * rewrite Hp, eqb_ne, Z.eqb_refl; [done |]. intros ->. apply (D l); cbn; tauto.
      * intros w Hw Nw. rewrite Hn, !eqb_ne; [done | done |]. intros ->. by apply (D _ Hw).
      * intros w Hw. rewrite Hp, !eqb_ne; [done | |].
        -- intros ->. apply (D y); [by right | by left].
        -- intros ->. rewrite app_comm_cons in ND'. apply NoDup_app_remove_r, NoDup_cons_iff in ND' as [? _]. done.
    + destruct Ht as [_ Ht]. apply (chain_redirect h _ _ _ t); [done | by apply NoDup_cons_iff in ND' as [_ ND']; apply NoDup_app_remove_l in ND' | | | |].
      * by rewrite Hn, Z.eqb_refl.
      * by rewrite Hp, Z.eqb_refl.
      * intros w Hw Nw. rewrite Hn, !eqb_ne; [done | intros ->; by apply (D _ Lx) | done].
      * intros w Hw. rewrite Hp, !eqb_ne; [done | |].
        -- intros ->. apply NoDup_cons_iff in ND' as [_ ND']. by apply NoDup_app_remove_l, NoDup_cons_iff in ND' as [? _].
        -- intros ->. apply (D l); cbn; tauto.
  - apply only_of; [done | |]; intros w Hw; [rewrite Hn | rewrite Hp]; rewrite !eqb_ne; try done; intros ->; apply Hw;
      rewrite app_comm_cons, in_app_iff; cbn in *; tauto.
Qed.

Lemma lists_splice h m l t xs y ys : lists_ok h m -> m !! l = Some xs -> m !! t = Some (y :: ys) -> l <> t ->
  becomes h (splice l t h) (<[l := xs ++ y :: ys]> (base.delete t m)).
Proof.
  intros L Hl Ht N. pose proof (lo_ring _ _ L _ _ Hl) as Rl. pose proof (lo_ring _ _ L _ _ Ht) as Rt.
  assert (List.NoDup (l :: xs ++ t :: y :: ys)) as ND.
  { rewrite app_comm_cons. apply NoDup_app; [apply Rl | apply Rt |]. intros w Hw Hw'. apply N. by eapply (lo_disj _ _ L). }
  destruct (ring_splice _ _ _ _ _ _ Rl Rt ND) as (h' & E & Hd & R & Ho). exists h'. split; [done |]. split; [done |].
  assert (base.delete t m !! l = Some xs) as Hl' by (by rewrite lookup_delete_ne by congruence).
  assert (forall w, In w (l :: xs ++ y :: ys) -> own (base.delete t m) l w) as O.
  { intros w [Hw | [Hw | Hw]%in_app_or].
    - eapply own_node; [exact Hl' | by left].
    - eapply own_node; [exact Hl' | by right].
    - right. intros k zs [Nk Hk]%lookup_delete_Some Hin. apply Nk. eapply (lo_disj _ _ L t k); eauto. by right. }
  eapply update_ok; [by apply lists_delete_key | left; by eauto | exact Ho | exact O | exact R | exact O].
Qed.

Lemma rep_drop_tmp s q : rep s q -> rep s {| q with q_tmp := None |}.
Proof.
  intros [(m & L & Hm) Hh Hk Hp He Hb]. split; try done.
  - exists (base.delete tmplst m). split; [by apply lists_delete_key |]. intros k.
    destruct (decide (k = tmplst)) as [-> | N]; [by rewrite lookup_delete_eq |]. rewrite lookup_delete_ne, Hm by done.
    unfold list_of. cbn. by rewrite (eqb_ne k tmplst).
  - rewrite Forall_bufs in *. destruct Hb as (B1 & B2 & B3 & B4 & _). by repeat (split; [done |]); apply Forall_nil_2.
Qed.

Lemma append_run s q t : rep s q -> q_tmp q = Some t ->
  exists h', flush_error_append s = Some (tt, with_links s h') /\
    rep (with_links s h') {| q with q_delay := q_delay q ++ t; q_tmp := None |}.
Proof.
  intros R Et. unfold flush_error_append. st_call (is_empty_run s q R tmplst sen_tmp t Et). destruct t as [|y ys].
  - exists (links s). split; [by destruct s |]. rewrite app_nil_r. destruct q, s. by apply rep_drop_tmp in R.
  - destruct R as [(m & L & Hm) Hh Hk Hp He Hb].
    destruct (lists_splice _ m gb_delay_lst tmplst (q_delay q) y ys L) as (h' & E & Hd & L');
      [by rewrite Hm | by rewrite Hm | done |].
    exists h'. split; [unfold on_links; st_run; by rewrite E |]. split; cbn [links gb_errlst_head packs with_links q_err]; try done.
    + eexists. split; [exact L' |]. intros k. destruct (decide (k = gb_delay_lst)) as [-> | N1]; [by rewrite lookup_insert_eq |].
      rewrite lookup_insert_ne by done. destruct (decide (k = tmplst)) as [-> | N2]; [by rewrite lookup_delete_eq |].
      rewrite lookup_delete_ne, Hm by done. unfold list_of. cbn. by rewrite (eqb_ne k gb_delay_lst), (eqb_ne k tmplst).
    + intros x Hx. eapply dom_is_Some; [done | by apply Hk].
    + rewrite Forall_bufs in *. rewrite Et in Hb. destruct Hb as (B1 & B2 & B3 & B4 & B5). cbn in *.
      split; [done |]. split; [by apply Forall_app |]. by repeat (split; [done |]); apply Forall_nil_2.
Qed.

Lemma init_tmp_run s q : rep s q -> exists h', on_links (fun h => list_init h tmplst) s = Some (tt, with_links s h') /\
  rep (with_links s h') {| q with q_tmp := Some [] |}.
Proof.
  intros R. destruct (rep_lists _ _ R) as (m & L & Hm).
  destruct (lists_init _ m L tmplst) as (h' & E & Hd & L').
  - apply (rep_links _ _ R). left. apply sen_tmp.
  - destruct (q_tmp q) as [t|] eqn:Et; [left; rewrite Hm; by exists t | right].
    intros l xs Hl Hin. rewrite Hm in Hl. pose proof (rep_bufs _ _ R) as Hb. pose proof (rep_err _ _ R) as He.
    assert (forall ys, Forall is_buf ys -> ~ In tmplst ys) as Nb.
    { intros ys Hys Hy. rewrite Forall_forall in Hys. specialize (Hys _ Hy). ranges. lia. }
    rewrite Forall_bufs in Hb. destruct Hb as (B1 & B2 & B3 & B4 & B5). unfold list_of in Hl.
    repeat match goal with H : context [?a =? ?b] |- _ => destruct (Z.eqb_spec a b); simplify_eq end;
      try (destruct Hin as [Hin | Hin]; [ranges; lia | by eapply Nb in Hin]).
    destruct (q_err q) as [|e r]; [done |]. destruct (Z.eqb_spec l e); simplify_eq.
    rewrite Forall_forall in He. specialize (He _ Hin). ranges. lia.
  - exists h'. split; [unfold on_links; st_run; by rewrite E |].
    pose proof (rep_set s q R tmplst [] h' m Hm sen_tmp Hd L' ltac:(constructor)) as H. exact H.
Qed.

(** ** The ring of errors *)

Definition with_head (s : GB) (p : Z) : GB := {| s with gb_errlst_head := p |}.

Lemma ring_of s q e r : rep s q -> q_err q = e :: r -> ring (links s) e r /\ is_err e.
Proof.
  intros R Eq. pose proof (rep_err _ _ R) as He. rewrite Eq in He. apply Forall_cons_1 in He as [He _]. split; [| done].
  destruct (rep_lists _ _ R) as (m & L & Hm). apply L. rewrite Hm. unfold list_of. rewrite Eq.
  repeat match goal with |- context [?a =? ?b] => destruct (Z.eqb_spec a b); [ranges; lia |] end.
  by rewrite Z.eqb_refl.
Qed.

(** The ring entered at another of its packs. *)
Lemma rep_reenter s q e r e' r' : rep s q -> q_err q = e :: r ->
  (forall h m, lists_ok h m -> m !! e = Some r -> lists_ok h (<[e' := r']> (base.delete e m))) ->
  (forall x, In x (e' :: r') -> In x (e :: r)) ->
  rep (with_head s e') {| q with q_err := e' :: r' |}.
Proof.
  intros R Eq Hl Hin. destruct (ring_of s q e r R Eq) as [_ He].
  destruct R as [(m & L & Hm) Hh Hk Hp Herr Hb]. rewrite Eq in Herr.
  assert (is_err e') as He'.
  { rewrite Forall_forall in Herr. apply Herr, Hin. by left. }
  split; cbn [links gb_errlst_head packs with_head q_err]; try done.
  - exists (<[e' := r']> (base.delete e m)). split.
    { apply Hl; [done |]. rewrite Hm. unfold list_of. rewrite Eq.
      repeat match goal with |- context [?a =? ?b] => destruct (Z.eqb_spec a b); [ranges; lia |] end. by rewrite Z.eqb_refl. }
    intros k. unfold list_of. cbn. destruct (decide (k = e')) as [-> | N].
    + rewrite lookup_insert_eq.
      repeat match goal with |- context [?a =? ?b] => destruct (Z.eqb_spec a b); [ranges; lia |] end. by rewrite Z.eqb_refl.
    + rewrite lookup_insert_ne, (eqb_ne k e') by done. destruct (decide (k = e)) as [-> | N'].
      * rewrite lookup_delete_eq.
        repeat match goal with |- context [?a =? ?b] => destruct (Z.eqb_spec a b); [ranges; lia |] end. done.
      * rewrite lookup_delete_ne, Hm by done. unfold list_of. rewrite Eq. by rewrite (eqb_ne k e).
  - apply Forall_forall. intros x Hx. rewrite Forall_forall in Herr. by apply Herr, Hin.
Qed.

Lemma rep_ring_next s q e B : rep s q -> q_err q = e :: B ->
  next_of e s = Some (hd e B, s) /\ rep (with_head s (hd e B)) {| q with q_err := B ++ [e] |}.
Proof.
  intros R Eq. destruct (ring_of s q e B R Eq) as [[Hc ND] _]. split.
  { unfold next_of. st_run. by rewrite (chain_next _ _ _ _ Hc). }
  destruct B as [|b B]; cbn [hd app].
  - assert (with_head s e = s) as -> by (destruct s; cbn in *; pose proof (rep_head _ _ R) as H; rewrite Eq in H; cbn in H; by subst).
    assert ({| q with q_err := [e] |} = q) as -> by (destruct q; cbn in *; by subst). done.
  - eapply rep_reenter; [done | done | |].
    + intros h m L Hm. by apply lists_rotate.
    + intros x. cbn. rewrite in_app_iff. cbn. tauto.
Qed.

Lemma rep_ring_prev s q A p : rep s q -> q_err q = A ++ [p] ->
  prev_of (gb_errlst_head s) s = Some (p, s) /\ rep (with_head s p) {| q with q_err := p :: A |}.
Proof.
  intros R Eq. rewrite (rep_head _ _ R), Eq. destruct A as [|e A]; cbn [hd app] in *.
  - destruct (ring_of s q p [] R Eq) as [[Hc ND] _]. split.
    { unfold prev_of. st_run. by rewrite (chain_prev _ _ _ _ Hc). }
    assert (with_head s p = s) as -> by (destruct s; cbn in *; pose proof (rep_head _ _ R) as H; rewrite Eq in H; cbn in H; by subst).
    assert ({| q with q_err := [p] |} = q) as -> by (destruct q; cbn in *; by subst). done.
  - destruct (ring_of s q e (A ++ [p]) R Eq) as [[Hc ND] _]. split.
    { unfold prev_of. st_run. by rewrite (chain_prev _ _ _ _ Hc), last_last. }
    eapply rep_reenter; [done | done | |].
    + intros h m L Hm. by apply lists_rotate_back.
    + intros x. cbn. rewrite in_app_iff. cbn. tauto.
Qed.

Lemma err_nodup s q : rep s q -> List.NoDup (q_err q).
Proof.
  intros R. destruct (q_err q) as [|e r] eqn:Eq; [constructor |]. by destruct (ring_of s q e r R Eq) as [[_ ND] _].
Qed.

(** ** Flushing the ring *)

Definition mark_delay (v : gb_pack_t) : gb_pack_t := {| v with plist := gb_delay_lst; ptype := GB_RPTTYPE_DELAY |}.
Definition clear_len (v : gb_pack_t) : gb_pack_t := {| v with plen := 0 |}.

Lemma set_head_run s p : set_head p s = Some (tt, with_head s p).
Proof. done. Qed.

Lemma set_pack_run s p v : set_pack p v s = Some (tt, with_pack s (saver s) p v).
Proof. done. Qed.

Lemma flush_one_stop s q A p v : rep s q -> q_err q = A ++ [p] -> packs s !! p = Some v -> plen v = 0 ->
  flush_error_one s = Some (false, s).
Proof.
  intros R Eq Ev Hv. destruct (rep_ring_prev s q A p R Eq) as [E _]. unfold flush_error_one. st_run. st_call E.
  st_call (pack_run s p v Ev). by rewrite Hv.
Qed.

Lemma flush_one_run s q taken A p v t n q1 :
  rep s q -> conserved q taken -> q_err q = A ++ [p] -> q_tmp q = Some t -> packs s !! p = Some v -> plen v <> 0 ->
  spec_get_buffer q = Some (n, q1) ->
  exists s', flush_error_one s = Some (true, s') /\ saver s' = saver s /\ statics s' = statics s /\
    packs s' = <[n := mark_delay v]> (<[p := clear_len v]> (packs s)) /\
    rep s' {| q1 with q_tmp := Some (n :: t); q_err := p :: A |} /\
    conserved {| q1 with q_tmp := Some (n :: t); q_err := p :: A |} taken.
Proof.
  intros R C Eq Et Ev Hv Eb. destruct (rep_ring_prev s q A p R Eq) as [E _].
  pose proof (get_buffer_run s q R) as Hb. rewrite Eb in Hb. destruct Hb as (h & Eg & R1).
  pose proof (get_buffer_perm _ _ _ Eb) as P.
  assert (conserved q1 (n :: taken)) as C1 by (eapply conserved_iff; [| exact C]; rewrite P; apply Permutation_middle).
  destruct (conserved_taken _ _ _ C1) as [Hn Hnin].
  assert (q_err q1 = A ++ [p] /\ q_tmp q1 = Some t) as [Eq1 Et1].
  { destruct q as [rt dl tr fr tm er]. unfold spec_get_buffer in Eb. cbn in *. by destruct fr, dl, rt; simplify_eq. }
  assert (is_err p) as Hp by (pose proof (rep_err _ _ R) as H; rewrite Eq in H; by apply Forall_app in H as [_ [? _]%Forall_cons_1]).
  assert (n <> p) as Nnp by (intros ->; ranges; lia).
  destruct (rep_packs _ _ R n ltac:(by left)) as (vn & Evn & Hvn).
  destruct (rep_packs _ _ R p ltac:(by right)) as (vp & Evp & Hvp). rewrite Ev in Evp. injection Evp as <-.
  unfold flush_error_one. st_run. st_call E. st_call (pack_run s p v Ev). rewrite (proj2 (Z.eqb_neq _ _) Hv).
  st_call Eg. st_call (set_head_run (with_links s h) p). set (s2 := with_head (with_links s h) p).
  destruct (rep_ring_prev _ q1 A p R1 Eq1) as [_ R2]. fold s2 in R2.
  assert (packs s2 !! n = Some vn) as E2 by exact Evn. st_call (pack_run s2 n vn E2).
  destruct (rep_links _ _ R2 p ltac:(by right; right)) as [link El]. rewrite El. st_run.
  assert (rep (with_links s2 (<[n := link]> (links s2))) {| q1 with q_err := p :: A |}) as R3.
  { destruct (rep_lists _ _ R2) as (m & L & Hm).
    destruct (lists_frame _ m L n link) as [Hd L']; [| by apply (rep_links _ _ R2); right; left |].
    { eapply buf_unlinked; [exact Hm | by apply (rep_err _ _ R2) | done | exact Hnin]. }
    destruct R2 as [_ Hh Hk Hpk He Hbf]. split; try done; [by exists m |].
    intros x Hx. eapply dom_is_Some; [exact Hd | by apply Hk]. }
  set (s3 := with_links s2 _) in *. change {| s2 with links := <[n:=link]> (links s2) |} with s3.
  st_call (set_pack_run s3 n v). set (s4 := with_pack s3 (saver s3) n v).
  assert (rep s4 {| q1 with q_err := p :: A |}) as R4 by (apply rep_with_pack; done).
  assert (packs s4 !! p = Some v) as E4 by (cbn [s4 packs with_pack]; by rewrite lookup_insert_ne by congruence).
  st_call (mod_pack_run s4 p clear_len v E4). set (s5 := with_pack s4 (saver s4) p (clear_len v)).
  assert (rep s5 {| q1 with q_err := p :: A |}) as R5 by (apply rep_with_pack; done).
  change {| s4 with packs := <[p:=clear_len v]> (packs s4) |} with s5.
  assert (packs s5 !! n = Some v) as E5.
  { cbn [s5 s4 packs with_pack]. by rewrite lookup_insert_ne, lookup_insert_eq by done. }
  st_call (mod_pack_run s5 n mark_delay v E5). set (s6 := with_pack s5 (saver s5) n (mark_delay v)).
  assert (rep s6 {| q1 with q_err := p :: A |}) as R6 by (apply rep_with_pack; done).
  change {| s5 with packs := <[n:=mark_delay v]> (packs s5) |} with s6.
  destruct (add_head_run s6 _ R6 tmplst sen_tmp t Et1 n Hn Hnin) as (h7 & E7 & R7). st_call E7.
  eexists. split; [reflexivity |]. split; [done |]. split; [done |]. split.
  { cbn [s6 s5 s4 s3 s2 packs with_pack with_links with_head].
    rewrite (insert_insert_ne _ p n) by done. by rewrite !insert_insert_eq. }
  split; [exact R7 |]. eapply conserved_iff; [| exact C1]. destruct q1 as [rt dl tr fr tm er]. cbn in Et1. subst tm. perm_tac.
Qed.

(** Buffers for [n] reports, in the order they are taken. *)
Fixpoint spec_take (n : nat) (q : QUEUES) : option (list Z * QUEUES) :=
  match n with
  | O => Some ([], q)
  | S n => '(x, q) ← spec_get_buffer q; '(xs, q) ← spec_take n q; Some (x :: xs, q)
  end.

Lemma get_buffer_with q n q1 t e : spec_get_buffer q = Some (n, q1) ->
  spec_get_buffer {| q with q_tmp := t; q_err := e |} = Some (n, {| q1 with q_tmp := t; q_err := e |}).
Proof.
  destruct q as [rt dl tr fr tm er]. unfold spec_get_buffer. cbn [q_free q_delay q_realtm].
  by destruct fr, dl, rt; intros [= <- <-].
Qed.

Lemma spec_take_with n : forall q t e xs q1, spec_take n q = Some (xs, q1) ->
  spec_take n {| q with q_tmp := t; q_err := e |} = Some (xs, {| q1 with q_tmp := t; q_err := e |}).
Proof.
  induction n as [|n IH]; intros q t e xs q1; cbn [spec_take].
  - by intros [= <- <-].
  - destruct (spec_get_buffer q) as [[x q2]|] eqn:E; cbn [mbind option_bind]; [| done].
    rewrite (get_buffer_with _ _ _ t e E). cbn [mbind option_bind].
    destruct (spec_take n q2) as [[ys q3]|] eqn:E2; cbn [mbind option_bind]; [| done].
    rewrite (IH _ t e _ _ E2). cbn [mbind option_bind]. by intros [= <- <-].
Qed.

Lemma get_buffer_keeps q n q1 : spec_get_buffer q = Some (n, q1) -> q_tmp q1 = q_tmp q /\ q_err q1 = q_err q /\ q_trans q1 = q_trans q.
Proof.
  destruct q as [rt dl tr fr tm er]. unfold spec_get_buffer. cbn [q_free q_delay q_realtm].
  by destruct fr, dl, rt; intros [= <- <-].
Qed.

(** The recorded reports [B] at the end of the ring go to the temporary list. *)
Lemma flush_loop_run B : forall s q taken A t fuel ns q1,
  rep s q -> conserved q taken -> q_err q = A ++ B -> A ++ B <> [] -> q_tmp q = Some t ->
  spec_take (length B) q = Some (ns, q1) ->
  Forall (fun b => exists v, packs s !! b = Some v /\ plen v <> 0) B ->
  (forall A' a, A = A' ++ [a] -> exists v, packs s !! a = Some v /\ plen v = 0) ->
  (length B < fuel)%nat ->
  exists s', flush_error_loop fuel s = Some (tt, s') /\ saver s' = saver s /\ statics s' = statics s /\
    rep s' {| q1 with q_tmp := Some (rev ns ++ t); q_err := B ++ A |} /\
    conserved {| q1 with q_tmp := Some (rev ns ++ t); q_err := B ++ A |} taken /\
    Forall2 (fun n b => exists v, packs s !! b = Some v /\ packs s' !! n = Some (mark_delay v)) (rev ns) B /\
    Forall (fun b => exists v, packs s' !! b = Some v /\ plen v = 0) B /\
    (forall y, ~ In y ns -> ~ In y B -> packs s' !! y = packs s !! y).
Proof.
  induction B as [|b B IH] using rev_ind; intros s q taken A t fuel ns q1 R C Eq Nn Et Tk HB HA Hf.
  - rewrite app_nil_r in *. cbn [length spec_take] in Tk. injection Tk as <- <-.
    destruct fuel as [|fuel]; [cbn in Hf; lia |]. cbn [flush_error_loop app rev].
    destruct A as [|a A _] using rev_ind; [done |]. destruct (HA A a eq_refl) as (v & Ev & Hv).
    st_call (flush_one_stop s q A a v R Eq Ev Hv). exists s. split; [done |].
    assert ({| q with q_tmp := Some t; q_err := A ++ [a] |} = q) as -> by (destruct q; cbn in *; by subst).
    do 4 (split; [done |]). split; [apply Forall2_nil |]. split; [apply Forall_nil_2 | done].
  - destruct fuel as [|fuel]; [lia |]. rewrite length_app, Nat.add_comm in Tk, Hf. cbn [length Nat.add spec_take] in Tk, Hf.
    destruct (spec_get_buffer q) as [[n q2]|] eqn:Eg; cbn [mbind option_bind] in Tk; [| done].
    destruct (spec_take (length B) q2) as [[xs q3]|] eqn:Ek; cbn [mbind option_bind] in Tk; [| done].
    injection Tk as <- <-. apply Forall_app in HB as [HB (v & Ev & Hv)%Forall_singleton]. rewrite app_assoc in Eq.
    destruct (flush_one_run s q taken (A ++ B) b v t n q2 R C Eq Et Ev Hv Eg) as (s1 & E1 & Esv & Est & Ep & R1 & C1).
    pose proof (err_nodup s q R) as ND. rewrite Eq in ND. apply NoDup_remove_2 in ND. rewrite app_nil_r, in_app_iff in ND.
    assert (is_buf n /\ Forall is_err (A ++ B)) as [Hn Her].
    { split; [| pose proof (rep_err _ _ R) as H; rewrite Eq in H; by apply Forall_app in H as [? _]].
      pose proof (rep_bufs _ _ R1) as H. rewrite Forall_bufs in H. destruct H as (_ & _ & _ & _ & H). cbn in H. by apply Forall_cons_1 in H as [? _]. }
    rewrite Forall_forall in Her.
    assert (forall y, is_err y -> y <> b -> packs s1 !! y = packs s !! y) as Hsame.
    { intros y Hy Ny. rewrite Ep, !lookup_insert_ne; [done | congruence | intros ->; ranges; lia]. }
    assert (packs s1 !! b = Some (clear_len v)) as Eb.
    { rewrite Ep, lookup_insert_ne, lookup_insert_eq; [done |]. intros ->.
      pose proof (rep_err _ _ R) as H. rewrite Eq in H. apply Forall_app in H as [_ [H _]%Forall_cons_1]. ranges; lia. }
    destruct (IH s1 {| q2 with q_tmp := Some (n :: t); q_err := b :: A ++ B |} taken (b :: A) (n :: t) fuel xs
      {| q3 with q_tmp := Some (n :: t); q_err := b :: A ++ B |} R1 C1) as (s2 & E2 & Esv2 & Est2 & R2 & C2 & F2 & Z2 & Hy2);
      [done | done | done | by apply spec_take_with | | | lia |].
    { rewrite Forall_forall in HB |- *. intros y Hy. destruct (HB y Hy) as (w & Ew & Hw). exists w. split; [| done].
      rewrite Hsame; [done | apply Her, in_or_app; by right | intros ->; tauto]. }
    { intros A' a EA. destruct A as [|a' A'' _] using rev_ind.
      - destruct A' as [|? []]; simplify_eq/=. by exists (clear_len v).
      - rewrite app_comm_cons in EA. apply app_inj_tail in EA as [_ ->]. destruct (HA A'' a eq_refl) as (w & Ew & Hw).
        exists w. split; [| done]. rewrite Hsame; [done | apply Her; rewrite !in_app_iff; cbn; tauto |].
        intros ->. apply ND. rewrite !in_app_iff. cbn. tauto. }
    cbn [q_tmp q_err q_realtm q_delay q_trans q_free] in R2, C2.
    assert (Forall is_buf (rev xs ++ n :: t)) as Hbx.
    { pose proof (rep_bufs _ _ R2) as H. rewrite Forall_bufs in H. by destruct H as (_ & _ & _ & _ & H). }
    assert (~ In n (rev xs ++ t)) as Nx.
    { apply NoDup_remove_2. apply conserved_nodup in C2. unfold bufs in C2. cbn in C2.
      apply NoDup_app_remove_r in C2. by do 4 apply NoDup_app_remove_l in C2. }
    rewrite in_app_iff, <- in_rev in Nx.
    assert (forall y, is_err y -> ~ In y (n :: xs)) as Nerr.
    { intros y Hy Hin. rewrite Forall_forall in Hbx. specialize (Hbx y). rewrite in_app_iff, <- in_rev in Hbx.
      specialize (Hbx ltac:(cbn in *; tauto)). ranges; lia. }
    assert (is_err b) as Hb by (pose proof (rep_err _ _ R) as H; rewrite Eq in H; by apply Forall_app in H as [_ [? _]%Forall_cons_1]).
    exists s2. cbn [flush_error_loop rev]. st_call E1. split; [done |]. split; [congruence |]. split; [congruence |].
    rewrite <- !app_assoc. split; [exact R2 |]. split; [exact C2 |]. split; [| split].
    + apply Forall2_app.
      * eapply Forall2_impl_in; [exact F2 |]. intros x y _ Hy (w & Ew & Ex). exists w. split; [| exact Ex].
        rewrite <- Hsame; [exact Ew | apply Her, in_or_app; by right | intros ->; tauto].
      * constructor; [| by constructor]. exists v. split; [done |].
        rewrite Hy2, Ep by first [tauto | intros Hin; apply (Nerr n); [apply Her, in_or_app; by right | by left]].
        apply lookup_insert_eq.
    + apply Forall_app. split; [exact Z2 |]. apply Forall_singleton. exists (clear_len v). split; [| done].
      rewrite Hy2; [exact Eb | intros Hin; apply (Nerr b Hb); by right | tauto].
    + intros y Hy HyB. rewrite in_app_iff in HyB. rewrite Hy2, Ep by (cbn in *; tauto).
      rewrite !lookup_insert_ne; [done | intros ->; cbn in *; tauto | intros ->; apply Hy; by left].
Qed.

(** ** The recorder *)

(** The last [n] elements. *)
Definition lastn {A} (n : nat) (l : list A) : list A := drop (length l - n) l.

Lemma lastn_app {A} n (l k : list A) : lastn n (lastn n l ++ k) = lastn n (l ++ k).
Proof.
  unfold lastn. rewrite !length_app, length_drop.
  destruct (decide (n <= length l)%nat).
  - rewrite !drop_app, drop_drop, length_drop. f_equal; f_equal; lia.
  - replace (length l - n)%nat with O by lia. rewrite drop_0. f_equal. lia.
Qed.

Lemma lastn_length {A} n (l : list A) : length (lastn n l) = Nat.min n (length l).
Proof. unfold lastn. rewrite length_drop. lia. Qed.

Lemma lastn_all {A} n (l : list A) : (length l <= n)%nat -> lastn n l = l.
Proof. intros H. unfold lastn. by replace (length l - n)%nat with O by lia. Qed.

(** A pack of the ring holds the report [l]. *)
Definition has (pk : gmap Z gb_pack_t) (b : Z) (l : list Z) : Prop :=
  exists v, pk !! b = Some v /\ plen v = len l /\ take (length l) (pdata v) = l /\ l <> [].

Definition zero (pk : gmap Z gb_pack_t) (b : Z) : Prop := exists v, pk !! b = Some v /\ plen v = 0.

(** The ring ends with the reports [xs], oldest first; the rest is empty. *)
Definition recorded (pk : gmap Z gb_pack_t) (L : list Z) (xs : list (list Z)) : Prop :=
  exists A B, L = A ++ B /\ Forall (zero pk) A /\ Forall2 (has pk) B xs.

Lemma Forall_other (P : gmap Z gb_pack_t -> Z -> Prop) pk e v l :
  (forall b, b <> e -> P pk b -> P (<[e := v]> pk) b) -> ~ In e l -> Forall (P pk) l -> Forall (P (<[e := v]> pk)) l.
Proof.
  intros H He Hl. rewrite Forall_forall in *. intros b Hb. apply H; [intros ->; done | by apply Hl].
Qed.

Lemma has_other pk e v b l : b <> e -> has pk b l -> has (<[e := v]> pk) b l.
Proof. intros N (w & Ew & H). exists w. by rewrite lookup_insert_ne by congruence. Qed.

Lemma zero_other pk e v b : b <> e -> zero pk b -> zero (<[e := v]> pk) b.
Proof. intros N (w & Ew & H). exists w. by rewrite lookup_insert_ne by congruence. Qed.

Lemma recorded_length pk L xs : recorded pk L xs -> (length xs <= length L)%nat.
Proof. intros (A & B & -> & _ & F). rewrite length_app, (Forall2_length F). lia. Qed.

Lemma recorded_step pk e R xs v l : recorded pk (e :: R) xs -> List.NoDup (e :: R) ->
  plen v = len l -> take (length l) (pdata v) = l -> l <> [] ->
  recorded (<[e := v]> pk) (R ++ [e]) (lastn (length (e :: R)) (xs ++ [l])).
Proof.
  intros (A & B & EL & HA & HB) ND Hl Hd Nn. apply NoDup_cons_iff in ND as [Ne _].
  assert (has (<[e := v]> pk) e l) as He by (exists v; by rewrite lookup_insert_eq).
  destruct A as [|a A]; cbn [app] in EL.
  - subst B. inversion_clear HB as [|? x ? xs' _ HR]. exists [], (R ++ [e]). split; [done |]. split; [apply Forall_nil_2 |].
    assert (lastn (length (e :: R)) ((x :: xs') ++ [l]) = xs' ++ [l]) as ->.
    { unfold lastn. rewrite length_app. cbn [length]. rewrite (Forall2_length HR).
      replace (S (length xs') + 1 - S (length xs'))%nat with 1%nat by lia. done. }
    apply Forall2_app; [| by constructor]. eapply Forall2_impl_in; [exact HR |].
    intros b y Hb _. apply has_other. by intros ->.
  - injection EL as <- ->. apply Forall_cons_1 in HA as [_ HA]. exists A, (B ++ [e]). split; [by rewrite app_assoc |].
    rewrite in_app_iff in Ne. split; [apply Forall_other; [by apply zero_other | tauto | done] |].
    rewrite lastn_all by (cbn; rewrite !length_app, (Forall2_length HB); cbn; lia).
    apply Forall2_app; [| by constructor]. eapply Forall2_impl_in; [exact HB |].
    intros b y Hb _. apply has_other. intros ->. tauto.
Qed.

Section errors.
Context (sigcnt : Z) (inf : gb_info_t) (env : DATA_ENV) (uptime : Z) (EN : encodable sigcnt inf env).
Context (Hg : 0 < GROUP_SIZE inf).

Lemma save_error_one_run s q i e B : rep s q -> q_err q = e :: B -> 0 <= i -> group_at (nth_k inf i) (saver s) ->
  exists s' l sv v, save_error_one env inf uptime i s = Some (tt, s') /\
    gb_data_save_all env inf uptime (saver s) = Some (l, sv) /\ saver s' = sv /\ statics s' = statics s /\
    packs s' = <[e := v]> (packs s) /\ plen v = len l /\ take (length l) (pdata v) = l /\ l <> [] /\
    group_at (nth_k inf (i + 1)) sv /\ rep s' {| q with q_err := B ++ [e] |}.
Proof using EN Hg.
  intros R Eq Hi Hsv. destruct (ring_of s q e B R Eq) as [_ He].
  destruct (save_into_run sigcnt inf env uptime EN s q e i R (or_intror He) Hi Hg Hsv)
    as (l & sv & v & El & Ev & Hk & Hl & Hv & Es).
  unfold save_error_one. st_run. pose proof (rep_head _ _ R) as Hh. rewrite Eq in Hh. cbn in Hh. rewrite Hh. st_call Es.
  set (s1 := with_pack _ _ _ _) in *. pose proof (put_report_len l v ltac:(lia) Hv) as Hv1.
  set (f := fun v => {| v with pseq := i + 1 |}).
  assert (packs s1 !! e = Some (put_report l v)) as E1 by apply lookup_insert_eq.
  st_call (mod_pack_run s1 e f _ E1). set (s2 := with_pack s1 sv e (f (put_report l v))).
  change {| s1 with packs := <[e := f (put_report l v)]> (packs s1) |} with s2.
  assert (rep s2 q) as R2 by (apply rep_with_pack; [by apply rep_with_pack | exact Hv1]).
  destruct (rep_ring_next s2 q e B R2 Eq) as [En R3]. st_call En. rewrite set_head_run.
  eexists _, l, sv, (f (put_report l v)). split; [reflexivity |]. split; [exact El |]. split; [done |]. split; [done |].
  split; [apply insert_insert_eq |]. split; [done |]. split; [apply put_report_data |]. split; [| by split].
  intros ->. unfold len in Hl. cbn in Hl. lia.
Qed.

Lemma save_error_run n : forall s q i xs, rep s q -> q_err q <> [] -> recorded (packs s) (q_err q) xs ->
  0 <= i -> group_at (nth_k inf i) (saver s) ->
  exists s' ls sv L, st_for n i (save_error_one env inf uptime) s = Some (tt, s') /\
    encode_n env inf uptime n (saver s) = Some (ls, sv) /\ saver s' = sv /\ statics s' = statics s /\
    group_at (nth_k inf (i + Z.of_nat n)) sv /\
    rep s' {| q with q_err := L |} /\ length L = length (q_err q) /\
    recorded (packs s') L (lastn (length L) (xs ++ ls)) /\
    (forall y, is_buf y -> packs s' !! y = packs s !! y).
Proof using EN Hg.
  induction n as [|n IH]; intros s q i xs R Nn Hrec Hi Hsv; cbn [st_for encode_n].
  - exists s, [], (saver s), (q_err q). rewrite Z.add_0_r, app_nil_r, lastn_all by (by eapply recorded_length).
    assert ({| q with q_err := q_err q |} = q) as -> by (by destruct q). by do 8 (split; [done |]).
  - destruct (q_err q) as [|e B] eqn:Eq; [done |].
    destruct (save_error_one_run s q i e B R Eq Hi Hsv) as (s1 & l & sv & v & E1 & El & Esv & Est & Ep & Hl & Hd & Nl & Hk & R1).
    pose proof (err_nodup s q R) as ND. rewrite Eq in ND.
    pose proof (recorded_step _ _ _ _ v l Hrec ND Hl Hd Nl) as Hrec1. rewrite <- Ep in Hrec1.
    destruct (IH s1 _ (i + 1) _ R1 ltac:(cbn; by destruct B) Hrec1) as (s2 & ls & sv2 & L & E2 & Els & Esv2 & Est2 & Hk2 & R2 & HL & Hrec2 & Hy2);
      [lia | by rewrite Esv |]. cbn [q_err q_realtm q_delay q_trans q_free q_tmp] in *.
    exists s2, (l :: ls), sv2, L. st_call E1. split; [done |]. rewrite El. cbn [mbind option_bind].
    rewrite <- Esv, Els. cbn [mbind option_bind]. split; [done |]. split; [done |]. split; [congruence |].
    split; [eapply group_at_fn; [| exact Hk2]; f_equal; lia |]. split; [exact R2 |].
    assert (length L = length (e :: B)) as HL' by (rewrite HL, length_app; cbn; lia). split; [done |]. split.
    + rewrite <- HL', lastn_app, <- app_assoc in Hrec2. exact Hrec2.
    + intros y Hy. rewrite Hy2, Ep by done. apply lookup_insert_ne. intros ->.
      destruct (ring_of s q y B R Eq) as [_ He]. ranges; lia.
Qed.

End errors.

(** The flush with enough free buffers. *)
Lemma spec_take_free k : forall q, (k <= length (q_free q))%nat ->
  spec_take k q = Some (take k (q_free q), {| q with q_free := drop k (q_free q) |}).
Proof.
  induction k as [|k IH]; intros [rt dl tr fr tm er] Hk; cbn [q_free spec_take] in *; [by rewrite take_0, drop_0 |].
  destruct fr as [|x fr]; [cbn in Hk; lia |]. cbn [spec_get_buffer q_free q_delay q_realtm mbind option_bind].
  rewrite IH by (cbn in *; lia). by cbn [mbind option_bind].
Qed.

Lemma holds_delay v l : plen v = len l -> take (length l) (pdata v) = l -> holds (mark_delay v) l GB_RPTTYPE_DELAY gb_delay_lst.
Proof. by split. Qed.

Lemma flush_error_run s q taken xs : rep s q -> conserved q taken -> q_tmp q = None -> q_err q <> [] ->
  recorded (packs s) (q_err q) xs -> (length xs <= length (q_free q))%nat -> (length (q_err q) <= Z.to_nat GB_MAX_ERROR)%nat ->
  exists (s' : GB) (L : list Z), gb_data_flush_error s = Some (tt, s') /\ saver s' = saver s /\ statics s' = statics s /\
    let ns := rev (take (length xs) (q_free q)) in
    let q' := {| q with q_delay := q_delay q ++ ns; q_free := drop (length xs) (q_free q); q_tmp := None; q_err := L |} in
    rep s' q' /\ conserved q' taken /\ length L = length (q_err q) /\ Forall (zero (packs s')) L /\
    Forall2 (fun n l => exists v, packs s' !! n = Some v /\ holds v l GB_RPTTYPE_DELAY gb_delay_lst) ns xs.
Proof.
  intros R C Et Nn (A & B & EL & HA & HB) Hx HL. destruct (init_tmp_run s q R) as (h & Ei & R1).
  assert (gb_errlst_head (with_links s h) <> 0) as Nh.
  { cbn [gb_errlst_head with_links]. rewrite (rep_head _ _ R). destruct (q_err q) as [|e r] eqn:Eq; [done |]. destruct (ring_of s q e r R Eq) as [_ He]. cbn. ranges; lia. }
  unfold gb_data_flush_error. st_call Ei. rewrite (proj2 (Z.eqb_neq _ _) Nh).
  pose proof (Forall2_length HB) as HlB.
  destruct (flush_loop_run B (with_links s h) {| q with q_tmp := Some [] |} taken A [] (S (Z.to_nat GB_MAX_ERROR))
    (take (length B) (q_free q)) {| q with q_tmp := Some []; q_free := drop (length B) (q_free q) |} R1)
    as (s2 & E2 & Esv & Est & R2 & C2 & F2 & Z2 & Hy2).
  { eapply conserved_iff; [| exact C]. destruct q. cbn in Et. subst. by perm_tac. }
  { done. }
  { by rewrite <- EL. }
  { done. }
  { by rewrite spec_take_free by (cbn; lia). }
  { apply Forall_forall. intros b Hb. apply list_elem_of_In, list_elem_of_lookup_1 in Hb as [i Hi].
    destruct (Forall2_lookup_l _ _ _ _ _ HB Hi) as (l & _ & v & Ev & Hv & _ & Nl). exists v. split; [exact Ev |].
    rewrite Hv. intros E0. apply Nl. by apply len_le_0; lia. }
  { intros A' a ->. apply Forall_app in HA as [_ [H _]%Forall_cons_1]. exact H. }
  { rewrite EL, length_app in HL. lia. }
  cbn [q_realtm q_delay q_trans q_free q_tmp q_err] in R2, C2. st_call E2.
  rewrite app_nil_r in R2, C2. destruct (append_run s2 _ _ R2 eq_refl) as (h3 & E3 & R3).
  exists (with_links s2 h3), (B ++ A). split; [exact E3 |]. split; [exact Esv |]. split; [exact Est |]. cbn zeta.
  rewrite <- HlB. cbn [q_realtm q_delay q_trans q_free q_tmp q_err] in R3. split; [exact R3 |].
  split. { eapply conserved_iff; [| exact C2]. by perm_tac. }
  split; [rewrite EL, !length_app; lia |]. split.
  - apply Forall_app. split; [exact Z2 |]. apply Forall_forall. intros a Ha. rewrite Forall_forall in HA.
    destruct (HA a Ha) as (v & Ev & Hv). exists v. split; [| done]. cbn [packs with_links]. rewrite Hy2; [exact Ev | |].
    + intros Hin. pose proof (rep_bufs _ _ R) as Hb. rewrite Forall_bufs in Hb. destruct Hb as (_ & _ & _ & Hb & _).
      assert (is_buf a) by (rewrite Forall_forall in Hb; apply Hb; rewrite <- (take_drop (length B) (q_free q)); apply in_or_app; by left).
      pose proof (rep_err _ _ R) as He. rewrite EL, Forall_forall in He. specialize (He a ltac:(apply in_or_app; by left)). ranges; lia.
    + intros Hin. pose proof (err_nodup s q R) as ND. rewrite EL in ND. apply in_split in Hin as (b1 & b2 & ->).
      rewrite app_assoc in ND. apply NoDup_remove_2 in ND. apply ND. rewrite !in_app_iff. tauto.
  - cbn [packs with_links]. revert F2 HB. generalize (rev (take (length B) (q_free q))). clear. intros ns F2 HB.
    revert xs HB. induction F2 as [|n b ns B (v & Ev & En) _ IH]; intros xs HB; inversion_clear HB as [|? l ? xs' (w & Ew & Hl & Hd & _) HB'];
      constructor; [| by apply IH].
    exists (mark_delay v). split; [done |]. assert (w = v) as -> by (cbn in Ev; congruence). by apply holds_delay.
Qed.

(** ** Starting *)

(** The memory of the links and of the packs is there. *)
Definition mem_ok (s : GB) : Prop :=
  (forall x, sentinel x \/ is_buf x \/ is_err x -> is_Some (links s !! x)) /\
  (forall x, is_buf x \/ is_err x -> exists v, packs s !! x = Some v /\ len (pdata v) = 1024).

(** [n] nodes are appended to the list [l]. *)
Lemma add_all_run l f n : forall s m xs i,
  lists_ok (links s) m -> m !! l = Some xs ->
  (forall j, i <= j < i + Z.of_nat n -> is_Some (links s !! f j)) ->
  (forall j, i <= j < i + Z.of_nat n -> unlinked m (f j)) ->
  (forall j k, i <= j < i + Z.of_nat n -> i <= k < i + Z.of_nat n -> f j = f k -> j = k) ->
  exists h', st_for n i (fun i => add_tail l (f i)) s = Some (tt, with_links s h') /\ dom h' = dom (links s) /\
    lists_ok h' (<[l := xs ++ (f <$> seqZ i (Z.of_nat n))]> m).
Proof.
  induction n as [|n IH]; intros s m xs i L Hl Hm U Inj; cbn [st_for].
  - exists (links s). split; [by destruct s |]. split; [done |]. cbn. rewrite app_nil_r. by rewrite insert_id.
  - destruct (lists_add_tail _ _ L l xs (f i) Hl) as (h1 & E1 & Hd & L1); [apply Hm; lia | apply U; lia |].
    assert (add_tail l (f i) s = Some (tt, with_links s h1)) as Ea by (unfold add_tail, on_links; st_run; by rewrite E1).
    st_call Ea. destruct (IH (with_links s h1) _ (xs ++ [f i]) (i + 1) L1) as (h2 & E2 & Hd2 & L2).
    + by rewrite lookup_insert_eq.
    + intros j Hj. eapply dom_is_Some; [exact Hd | apply Hm; lia].
    + intros j Hj k ys Hk Hin. destruct (decide (k = l)) as [-> | N].
      * rewrite lookup_insert_eq in Hk. injection Hk as <-. apply (U j ltac:(lia) l xs Hl).
        rewrite app_comm_cons, in_app_iff in Hin. destruct Hin as [Hin | [Hin | []]]; [done |].
        apply Inj in Hin; lia.
      * rewrite lookup_insert_ne in Hk by congruence. by apply (U j ltac:(lia) k ys Hk).
    + intros j k Hj Hk. apply Inj; lia.
    + exists h2. split; [exact E2 |]. split; [cbn in *; congruence |].
      rewrite insert_insert_eq, <- app_assoc in L2. rewrite seqZ_cons by lia.
      rewrite fmap_cons. replace (Z.pred (Z.of_nat (S n))) with (Z.of_nat n) by lia.
      replace (Z.succ i) with (i + 1) by lia. exact L2.
Qed.

(** The lists after [gb_data_clear_report]; [err] is the ring. *)
Definition fresh (err : list Z) : QUEUES :=
  {| q_realtm := []; q_delay := []; q_trans := []; q_free := all_bufs; q_tmp := None; q_err := err |}.

(** The lists hold nothing but the ring [err]. *)
Definition based (err : list Z) (m : LISTS) : Prop :=
  forall k ys, m !! k = Some ys -> (sentinel k /\ ys = []) \/ err = k :: ys.

Lemma based_unlinked err m x : based err m -> Forall is_err err -> is_buf x -> unlinked m x.
Proof.
  intros B He Hx k ys Hk Hin. destruct (B k ys Hk) as [[Hs ->] | E].
  - destruct Hin as [<- | []]. ranges; lia.
  - rewrite <- E in Hin. rewrite Forall_forall in He. specialize (He _ Hin). ranges; lia.
Qed.

(** [list_init] of one of the lists. *)
Lemma init_step s err m l : lists_ok (links s) m -> is_Some (links s !! l) -> based err m -> Forall is_err err -> sentinel l ->
  exists h', on_links (fun h => list_init h l) s = Some (tt, with_links s h') /\ dom h' = dom (links s) /\
    lists_ok h' (<[l := []]> m) /\ based err (<[l := []]> m).
Proof.
  intros L Hm B He Hl. assert (is_Some (m !! l) \/ unlinked m l) as Hu.
  { destruct (m !! l) eqn:E; [by left |]. right. intros k ys Hk Hin. destruct (B k ys Hk) as [[Hs ->] | E'].
    - destruct Hin as [<- | []]. congruence.
    - rewrite <- E' in Hin. rewrite Forall_forall in He. specialize (He _ Hin). ranges; lia. }
  destruct (lists_init _ m L l Hm Hu) as (h' & E & Hd & L'). exists h'.
  split; [unfold on_links; st_run; by rewrite E |]. split; [done |]. split; [done |].
  intros k ys [[<- <-] | [_ Hk]]%lookup_insert_Some; [by left | by apply B].
Qed.

(** Whatever the lists were, the buffers are all free afterwards; the ring remains. *)
Lemma clear_report_run s err m : mem_ok s -> lists_ok (links s) m -> gb_errlst_head s = hd 0 err -> Forall is_err err ->
  (forall k, m !! k = match err with e :: r => if k =? e then Some r else None | [] => None end) ->
  exists h', gb_data_clear_report s = Some (tt, with_links s h') /\ rep (with_links s h') (fresh err).
Proof.
  intros [Hml Hmp] L Hh He Hm.
  assert (based err m) as B.
  { intros k ys Hk. rewrite Hm in Hk. destruct err as [|e r]; [done |]. destruct (Z.eqb_spec k e); simplify_eq; by right. }
  assert (forall (h : LINKS) l, dom h = dom (links s) -> sentinel l -> is_Some (h !! l)) as Hs.
  { intros h l Hd Hl. eapply dom_is_Some; [exact Hd | apply Hml; by left]. }
  unfold gb_data_clear_report.
  destruct (init_step s err m gb_realtm_lst L) as (h1 & E1 & Hd1 & L1 & B1); eauto using sen_realtm. st_call E1.
  destruct (init_step (with_links s h1) err _ gb_delay_lst L1) as (h2 & E2 & Hd2 & L2 & B2); eauto using sen_delay. st_call E2.
  cbn [links with_links] in *. rewrite Hd1 in Hd2.
  destruct (init_step (with_links s h2) err _ gb_trans_lst L2) as (h3 & E3 & Hd3 & L3 & B3); eauto using sen_trans. st_call E3.
  cbn [links with_links] in *. rewrite Hd2 in Hd3.
  destruct (init_step (with_links s h3) err _ gb_free_lst L3) as (h4 & E4 & Hd4 & L4 & B4); eauto using sen_free. st_call E4.
  cbn [links with_links] in *. rewrite Hd3 in Hd4.
  destruct (add_all_run gb_free_lst gb_datamem (Z.to_nat GB_MAX_REPORT) (with_links s h4) _ [] 0 L4) as (h5 & E5 & Hd5 & L5).
  { by rewrite lookup_insert_eq. }
  { intros j Hj. eapply dom_is_Some; [exact Hd4 |]. apply Hml. right. left. ranges. lia. }
  { intros j Hj. eapply based_unlinked; [exact B4 | done | ranges; lia]. }
  { intros j k _ _. unfold gb_datamem. lia. }
  exists h5. split; [exact E5 |]. cbn [links with_links] in Hd5.
  split; cbn [links gb_errlst_head packs with_links q_err fresh]; try done.
  - eexists. split; [exact L5 |]. intros k. unfold list_of, fresh. cbn [q_realtm q_delay q_trans q_free q_tmp q_err].
    rewrite !lookup_insert, Hm. repeat case_decide; subst; try done.
    repeat match goal with |- context [if ?a =? ?b then _ else _] => destruct (Z.eqb_spec a b); try congruence; try done end.
    destruct err as [|e0 r]; [done |]. inversion He as [|? ? He0]; subst.
    destruct (Z.eqb_spec tmplst e0); [subst; ranges; lia | done].
  - intros x Hx. eapply dom_is_Some; [| by apply Hml]. congruence.
  - rewrite Forall_bufs. cbn [q_realtm q_delay q_trans q_free q_tmp default fresh]. repeat split; try apply Forall_nil_2.
    apply Forall_forall. intros x Hx. by apply all_bufs_in.
Qed.

(** The ring of the error packs, [n] packs from [gb_errmem[0]] on. *)
Definition err_ring (n : Z) : list Z := gb_errmem <$> seqZ 0 n.

Definition reset_error (v : gb_pack_t) : gb_pack_t := {| v with plen := 0; ptype := GB_RPTTYPE_DELAY; plist := gb_delay_lst |}.

Lemma mem_ok_pack s sv p v : mem_ok s -> len (pdata v) = 1024 -> mem_ok (with_pack s sv p v).
Proof.
  intros [Hl Hp] Hv. split; [exact Hl |]. intros x Hx. cbn [packs with_pack].
  destruct (decide (x = p)) as [-> | N]; [rewrite lookup_insert_eq; by exists v | rewrite lookup_insert_ne by done; by apply Hp].
Qed.

Lemma mem_ok_links s h : mem_ok s -> dom h = dom (links s) -> mem_ok (with_links s h).
Proof. intros [Hl Hp] Hd. split; [| exact Hp]. intros x Hx. eapply dom_is_Some; [exact Hd | by apply Hl]. Qed.

Lemma err_fresh i xs j : xs = gb_errmem <$> seqZ 1 (i - 1) -> i <= j ->
  unlinked (<[gb_errmem 0 := xs]> (∅ : LISTS)) (gb_errmem j) \/ j <= 0.
Proof.
  intros -> Hj. destruct (decide (j <= 0)); [by right | left]. intros k ys [[<- <-] | [_ Hk]]%lookup_insert_Some; [| done].
  intros [Hy | Hy]; [unfold gb_errmem in Hy; lia |]. apply list_elem_of_In, list_elem_of_fmap in Hy as (z & Ez & Hz).
  apply elem_of_seqZ in Hz. unfold gb_errmem in Ez. lia.
Qed.

Lemma ring_fill n : forall s i, mem_ok s -> lists_ok (links s) (<[gb_errmem 0 := gb_errmem <$> seqZ 1 (i - 1)]> ∅) ->
  1 <= i -> i + Z.of_nat n <= GB_MAX_ERROR ->
  exists s', st_for n i (fun i => mod_pack (gb_errmem i) reset_error;; add_tail (gb_errmem 0) (gb_errmem i)) s = Some (tt, s') /\
    mem_ok s' /\ lists_ok (links s') (<[gb_errmem 0 := gb_errmem <$> seqZ 1 (i + Z.of_nat n - 1)]> ∅) /\
    gb_errlst_head s' = gb_errlst_head s /\ saver s' = saver s /\ statics s' = statics s /\
    (forall j, i <= j < i + Z.of_nat n -> zero (packs s') (gb_errmem j)) /\
    (forall y, (forall j, i <= j < i + Z.of_nat n -> y <> gb_errmem j) -> packs s' !! y = packs s !! y).
Proof.
  induction n as [|n IH]; intros s i M L Hi Hn; cbn [st_for].
  { exists s. rewrite Z.add_0_r. split; [done |]. repeat (split; [first [done | intros; lia] |]). done. }
  assert (is_err (gb_errmem i)) as He by (ranges; lia).
  destruct (proj2 M (gb_errmem i) ltac:(by right)) as (v & Ev & Hv).
  set (s1 := with_pack s (saver s) (gb_errmem i) (reset_error v)).
  assert (mem_ok s1) as M1 by by apply mem_ok_pack.
  destruct (lists_add_tail (links s1) _ L (gb_errmem 0) (gb_errmem <$> seqZ 1 (i - 1)) (gb_errmem i)) as (h & Eh & Hd & L1).
  { by rewrite lookup_insert_eq. } { apply M1. by right; right. }
  { destruct (err_fresh i _ i eq_refl) as [H | H]; [lia | exact H | lia]. }
  assert ((mod_pack (gb_errmem i) reset_error;; add_tail (gb_errmem 0) (gb_errmem i)) s = Some (tt, with_links s1 h)) as Ea.
  { st_call (mod_pack_run s (gb_errmem i) reset_error v Ev). change {| s with packs := <[gb_errmem i := reset_error v]> (packs s) |} with s1.
    unfold add_tail, on_links. st_run. by rewrite Eh. }
  st_call Ea. rewrite insert_insert_eq in L1.
  assert ((gb_errmem <$> seqZ 1 (i - 1)) ++ [gb_errmem i] = gb_errmem <$> seqZ 1 (i + 1 - 1)) as Eq.
  { replace (i + 1 - 1) with (i - 1 + 1) by lia. rewrite seqZ_app, fmap_app by lia. f_equal. change (seqZ (1 + (i - 1)) 1) with [Z.of_nat 0 + (1 + (i - 1))]. cbn [fmap list_fmap]. do 2 f_equal. lia. }
  rewrite Eq in L1. destruct (IH (with_links s1 h) (i + 1) (mem_ok_links s1 h M1 Hd) L1) as (s2 & E2 & M2 & L2 & Hh & Hs & Ht & Hz & Hy); [lia | lia |].
  exists s2. split; [exact E2 |]. split; [exact M2 |]. split; [by replace (i + Z.of_nat (S n) - 1) with (i + 1 + Z.of_nat n - 1) by lia |].
  split; [done |]. split; [done |]. split; [done |]. split.
  - intros j Hj. destruct (decide (j = i)) as [-> | N]; [| apply Hz; lia]. exists (reset_error v). split; [| done].
    rewrite Hy by (intros j Hj'; unfold gb_errmem; lia). apply lookup_insert_eq.
  - intros y Hy'. rewrite Hy by (intros j Hj'; apply Hy'; lia). cbn [packs with_links s1 with_pack].
    apply lookup_insert_ne. intros E. apply (Hy' i); [lia | done].
Qed.

Lemma group_max sigcnt inf : gb_info_ok sigcnt inf -> 0 <= GROUP_SIZE inf /\ GROUP_SIZE inf * 30 <= GB_MAX_ERROR.
Proof.
  intros G. rewrite (group_size sigcnt inf G). pose proof (cell_cnt_range sigcnt inf G) as H.
  split; [apply Z.div_pos; lia |]. change GB_MAX_ERROR with ((800 + 199) / 200 * 30).
  pose proof (Z.div_le_mono (cell_cnt (batt inf) + 199) (800 + 199) 200 ltac:(lia) ltac:(lia)). lia.
Qed.

Lemma err_ring_cons n : 0 < n -> err_ring n = gb_errmem 0 :: (gb_errmem <$> seqZ 1 (n - 1)).
Proof. intros Hn. unfold err_ring. rewrite seqZ_cons by done. by rewrite fmap_cons, <- Z.sub_1_r. Qed.

Lemma err_ring_is_err n : n <= GB_MAX_ERROR -> Forall is_err (err_ring n).
Proof.
  intros Hn. apply Forall_forall. intros x Hx. apply list_elem_of_In, list_elem_of_fmap in Hx as (z & -> & Hz).
  apply elem_of_seqZ in Hz. unfold is_err, gb_errmem. lia.
Qed.

(** The ring of [n] error packs. *)
Lemma init_error_ring_run sigcnt inf s : mem_ok s -> gb_info_ok sigcnt inf ->
  let n := GROUP_SIZE inf * 30 in
  exists s' m, init_error_ring inf s = Some (tt, s') /\ mem_ok s' /\ lists_ok (links s') m /\
    gb_errlst_head s' = hd 0 (err_ring n) /\ saver s' = saver s /\ statics s' = statics s /\
    (forall k, m !! k = match err_ring n with e :: r => if k =? e then Some r else None | [] => None end) /\
    (zero (packs s) (gb_errmem 0) -> Forall (zero (packs s')) (err_ring n)).
Proof.
  intros M G n. destruct (group_max sigcnt inf G) as [Hg1 Hg2]. fold n in Hg2. unfold init_error_ring.
  destruct (Z.ltb_spec 0 (GROUP_SIZE inf)) as [Hg | Hg].
  - st_call (set_head_run s (gb_errmem 0)). set (s0 := with_head s (gb_errmem 0)). assert (mem_ok s0) as M0 by exact M.
    destruct (lists_init (links s0) ∅ (lists_ok_empty _) (gb_errmem 0)) as (h & Eh & Hd & L).
    { apply M0. right; right. ranges; lia. } { right. intros k ys Hk. by rewrite lookup_empty in Hk. }
    assert (on_links (fun h => list_init h (gb_errmem 0)) s0 = Some (tt, with_links s0 h)) as Ei by (unfold on_links; st_run; by rewrite Eh).
    st_call Ei. destruct (ring_fill (Z.to_nat (n - 1)) (with_links s0 h) 1 (mem_ok_links s0 h M0 Hd) L)
      as (s1 & E1 & M1 & L1 & Hh & Hs & Ht & Hz & Hy); [lia | lia |].
    rewrite Z2Nat.id in L1, Hz, Hy by lia. replace (1 + (n - 1) - 1) with (n - 1) in L1 by lia.
    rewrite err_ring_cons by lia. eexists s1, _. split; [exact E1 |]. split; [done |]. split; [exact L1 |].
    split; [done |]. split; [done |]. split; [done |]. split.
    + intros k. destruct (Z.eqb_spec k (gb_errmem 0)) as [-> | N]; [by rewrite lookup_insert_eq | by rewrite lookup_insert_ne].
    + intros Z0. constructor.
      * unfold zero. rewrite Hy; [exact Z0 |]. intros j Hj. unfold gb_errmem. lia.
      * apply Forall_forall. intros x Hx. apply list_elem_of_In, list_elem_of_fmap in Hx as (z & -> & Hz').
        apply elem_of_seqZ in Hz'. apply Hz. lia.
  - assert (n = 0) as -> by lia. exists (with_head s 0), ∅. split; [apply set_head_run |]. split; [exact M |].
    split; [apply lists_ok_empty |]. by repeat (split; [done |]).
Qed.

(** A new table is accepted: all buffers are free, and the ring is empty. *)
Lemma dbc_finished_run sigcnt inf s : mem_ok s -> gb_info_ok sigcnt inf ->
  let n := GROUP_SIZE inf * 30 in
  exists s', dbc_finished inf s = Some (tt, s') /\ rep s' (fresh (err_ring n)) /\
    saver s' = saver s /\ statics s' = statics s /\
    (zero (packs s) (gb_errmem 0) -> Forall (zero (packs s')) (err_ring n)).
Proof.
  intros M G n. destruct (init_error_ring_run sigcnt inf s M G) as (s1 & m & E1 & M1 & L1 & Hh & Hs & Ht & Hm & Hz).
  unfold dbc_finished. st_call E1.
  destruct (clear_report_run s1 _ _ M1 L1 Hh) as (h2 & E2 & R2); [apply err_ring_is_err; by apply (group_max sigcnt) | exact Hm |].
  exists (with_links s1 h2). by repeat (split; [done |]).
Qed.
