(* ===== verification/GbSteps.v ===== *)
(** * Histories of the GB/T 32960 report queues

    Sequences of calls of the operations of [GbQueue], by the CAN thread that fills
    the queues and by the protocol thread that empties them: the recorder of the
    last thirty seconds, reports that were sent and never acknowledged, and the
    interleavings of the two threads at the granularity of their locks. *)

From stdpp Require Import gmap.
From S2P Require Import Prelude Clist Cstd GbData GbQueue.

(** ** Histories *)

(** One second of records after the other. *)
Fixpoint record_all (inf : gb_info_t) (evs : list (DATA_ENV * Z)) : GM unit :=
  match evs with
  | [] => mret tt
  | (env, uptime) :: evs => gb_data_save_error env inf uptime;; record_all inf evs
  end.

(** The reports they make. *)
Fixpoint encode_all (inf : gb_info_t) (evs : list (DATA_ENV * Z)) (sv : SAVER) : option (list (list Z) * SAVER) :=
  match evs with
  | [] => Some ([], sv)
  | (env, uptime) :: evs =>
      '(ls, sv) ← encode_n env inf uptime (Z.to_nat (GROUP_SIZE inf)) sv;
      '(ks, sv) ← encode_all inf evs sv; Some (ls ++ ks, sv)
  end.

(** What the protocol thread does with the queues. *)
Inductive SEND := SendNext | SendAcked.

Definition send_op (op : SEND) : GM unit :=
  match op with
  | SendNext => p ← gb_data_get_pack; match p with Some p => gb_data_put_send p | None => mret tt end
  | SendAcked => gb_data_ack_pack
  end.

Fixpoint send_ops (ops : list SEND) : GM unit :=
  match ops with [] => mret tt | op :: ops => send_op op;; send_ops ops end.

(** How many reports were acknowledged, of [m] to be sent and [f] under way. *)
Fixpoint acked (m f : nat) (ops : list SEND) : nat :=
  match ops, m, f with
  | [], _, _ => O
  | SendNext :: ops, O, f => acked O f ops
  | SendNext :: ops, S m, f => acked m (S f) ops
  | SendAcked :: ops, m, O => acked m O ops
  | SendAcked :: ops, m, S f => S (acked m f ops)
  end.

(** ** The recorder *)

Section record.
Context (sigcnt : Z) (inf : gb_info_t) (G : gb_info_ok sigcnt inf) (Hg : 0 < GROUP_SIZE inf).

Lemma nth_k_group : nth_k inf (GROUP_SIZE inf) = nth_k inf 0.
Proof using Hg. unfold nth_k. destruct (electric inf); [| done]. by rewrite Z.mod_same, Zmod_0_l by lia. Qed.

Lemma nth_k_0 : nth_k inf 0 = 0.
Proof using. unfold nth_k. by destruct (electric inf); rewrite ?Zmod_0_l. Qed.

Lemma group_at_0 sv : group_at (nth_k inf (0 + Z.of_nat (Z.to_nat (GROUP_SIZE inf)))) sv -> group_at 0 sv.
Proof using Hg. apply group_at_fn. rewrite Z.add_0_l, Z2Nat.id by lia. by rewrite nth_k_group, nth_k_0. Qed.

Lemma record_all_run evs : forall s q xs,
  Forall (fun ev => encodable sigcnt inf (fst ev)) evs -> rep s q -> q_err q <> [] -> recorded (packs s) (q_err q) xs ->
  group_at 0 (saver s) ->
  exists s' ls sv L, record_all inf evs s = Some (tt, s') /\ encode_all inf evs (saver s) = Some (ls, sv) /\
    statics s' = statics s /\ group_at 0 sv /\ rep s' {| q with q_err := L |} /\ length L = length (q_err q) /\
    recorded (packs s') L (lastn (length L) (xs ++ ls)).
Proof using Hg.
  induction evs as [|[env up] evs IH]; intros s q xs He R Nn Hrec Hsv; cbn [record_all encode_all].
  - exists s, [], (saver s), (q_err q). rewrite app_nil_r, lastn_all by (by eapply recorded_length).
    assert ({| q with q_err := q_err q |} = q) as -> by (by destruct q). by repeat (split; [done |]).
  - inversion_clear He as [|? ? E1 Es].
    destruct (save_error_run sigcnt inf env up E1 Hg (Z.to_nat (GROUP_SIZE inf)) s q 0 xs R Nn Hrec ltac:(lia))
      as (s1 & ls & sv & L & Er & El & Esv & Est & Hk & R1 & HL & Hrec1 & _); [by rewrite nth_k_0 |].
    assert (L <> []) as NL by (intros ->; by destruct (q_err q)).
    rewrite <- Esv in Hk. destruct (IH s1 {| q with q_err := L |} _ Es R1 NL Hrec1 (group_at_0 _ Hk))
      as (s2 & ks & sv2 & L2 & Er2 & El2 & Est2 & Hk2 & R2 & HL2 & Hrec2).
    exists s2, (ls ++ ks), sv2, L2. unfold gb_data_save_error. st_call Er. split; [exact Er2 |].
    rewrite El. cbn [mbind option_bind]. rewrite <- Esv, El2. split; [done |]. split; [congruence |]. split; [done |].
    split; [exact R2 |]. cbn [q_err] in HL2. split; [congruence |].
    rewrite HL2, lastn_app, <- app_assoc in Hrec2. by rewrite HL2.
Qed.

End record.

(** C28: The recorder: after the database is loaded, whatever number of seconds is
    recorded with [gb_data_save_error], [gb_data_flush_error] appends exactly the
    reports of the last thirty seconds to the delayed ones, in the order in which
    they were made and marked as delayed, and leaves the recorder empty. *)
Theorem gb_error_recorder sigcnt inf evs s :
  mem_ok s -> zero (packs s) (gb_errmem 0) -> gb_info_ok sigcnt inf -> 0 < GROUP_SIZE inf ->
  Forall (fun ev => encodable sigcnt inf (fst ev)) evs -> group_at 0 (saver s) ->
  exists s' reports sv q,
    (dbc_finished inf;; record_all inf evs;; gb_data_flush_error) s = Some (tt, s') /\
    encode_all inf evs (saver s) = Some (reports, sv) /\ rep s' q /\ conserved q [] /\
    q_realtm q = [] /\ q_trans q = [] /\ length (q_err q) = Z.to_nat (GROUP_SIZE inf * 30) /\ Forall (zero (packs s')) (q_err q) /\
    Forall2 (fun n l => exists v, packs s' !! n = Some v /\ holds v l GB_RPTTYPE_DELAY gb_delay_lst)
      (q_delay q) (lastn (Z.to_nat (GROUP_SIZE inf * 30)) reports).
Proof.
  intros M Z0 G Hg He Hsv. destruct (dbc_finished_run sigcnt inf s M G) as (s0 & E0 & R0 & Hs0 & _ & Hz). specialize (Hz Z0).
  destruct (group_max sigcnt inf G) as [_ Hm]. set (n := GROUP_SIZE inf * 30) in *.
  assert (length (err_ring n) = Z.to_nat n) as Hr by (unfold err_ring; by rewrite length_fmap, length_seqZ).
  assert (err_ring n <> []) as Nn by (intros E; rewrite E in Hr; cbn in Hr; lia).
  assert (recorded (packs s0) (err_ring n) []) as Hrec by (exists (err_ring n), []; by rewrite app_nil_r).
  destruct (record_all_run sigcnt inf Hg evs s0 _ [] He R0 Nn Hrec ltac:(by rewrite Hs0)) as (s1 & ls & sv & L & E1 & El & _ & _ & R1 & HL & Hrec1).
  cbn [q_err fresh app] in *. rewrite HL, Hr in Hrec1.
  assert (Z.to_nat GB_MAX_ERROR <= length all_bufs)%nat as Ha by (apply Nat.leb_le; vm_compute; reflexivity).
  destruct (flush_error_run s1 _ [] (lastn (Z.to_nat n) ls) R1) as (s2 & L2 & E2 & _ & _ & R2 & C2 & HL2 & Hz2 & F2).
  { unfold conserved, bufs. cbn. by rewrite !app_nil_r. } { done. } { cbn. intros ->. cbn in HL. lia. } { exact Hrec1. }
  { rewrite lastn_length. cbn [q_free fresh]. lia. } { cbn [q_err]. lia. }
  st_call E0. st_call E1. rewrite E2. eexists s2, ls, sv, _. split; [done |]. rewrite <- Hs0. split; [exact El |].
  split; [exact R2 |]. split; [exact C2 |]. split; [done |]. split; [done |]. split; [cbn in *; lia |]. split; [exact Hz2 |]. exact F2.
Qed.

(** The memory before the first database: everything is zero. *)
Definition pack0 : gb_pack_t := {| pdata := zeros 1024; plen := 0; pseq := 0; ptype := 0; plist := 0 |}.
Definition addresses : gset Z := list_to_set (seqZ 1 (16 + GB_MAX_REPORT + GB_MAX_ERROR)).
Definition gb0 : GB := {|
  links := gset_to_gmap {| prev := 0; next := 0 |} addresses; packs := gset_to_gmap pack0 addresses;
  gb_errlst_head := 0; gb_emerg := false; gb_pendflag := false; saver := saver0; ticks := 0; times := 0; triger := false;
  gb_inf := None; gb_rld := None; gb_datintv := 10; flagged := []; canact := false; counter := 0 |}.

Lemma addresses_in x : sentinel x \/ is_buf x \/ is_err x -> x ∈ addresses.
Proof.
  intros H. apply elem_of_list_to_set, elem_of_seqZ. assert (GB_MAX_ERROR = 120) by reflexivity.
  unfold sentinel, is_buf, is_err, GB_MAX_REPORT in *. lia.
Qed.

Lemma gb0_mem_ok : mem_ok gb0.
Proof.
  split; intros x Hx; cbn [links packs gb0].
  - exists {| prev := 0; next := 0 |}. apply lookup_gset_to_gmap_Some. split; [by apply addresses_in | done].
  - exists pack0. split; [apply lookup_gset_to_gmap_Some; split; [apply addresses_in; by right | done] | reflexivity].
Qed.

Lemma demo_info_ok : gb_info_ok 7 demo_info.
Proof.
  pose proof (lines_run 7 demo_lines dbc_reload (dbc_reload_ok 7 ltac:(lia)) demo_lines_ok) as G. by rewrite demo_parse in G.
Qed.

Lemma dense_list l n : (forall i, (i < Z.to_nat n)%nat -> match mem_get l (Z.of_nat i) with Some id => id <> 0 | None => False end) -> dense l n.
Proof.
  intros H i Hi. specialize (H (Z.to_nat i) ltac:(lia)). rewrite Z2Nat.id in H by lia. destruct (mem_get l i) as [id|]; [by exists id | done].
Qed.

Lemma demo_encodable : encodable 7 demo_info demo_env.
Proof.
  split; [apply demo_info_ok | apply demo_env_ok | | | vm_compute; congruence].
  all: apply dense_list; intros [|[|[|i]]] Hi; vm_compute in Hi |- *; try congruence; lia.
Qed.

Lemma gb_error_recorder_witness : exists s' q,
  (dbc_finished demo_info;; record_all demo_info [(demo_env, 1); (demo_env, 2)];; gb_data_flush_error) gb0 = Some (tt, s') /\
  rep s' q /\ length (q_delay q) = 2%nat.
Proof.
  destruct (gb_error_recorder 7 demo_info [(demo_env, 1); (demo_env, 2)] gb0) as (s' & reports & sv & q & E & Er & R & _ & _ & _ & _ & _ & F).
  - apply gb0_mem_ok.
  - exists pack0. split; [apply lookup_gset_to_gmap_Some; split; [apply elem_of_list_to_set, elem_of_seqZ; vm_compute; by split | done] | reflexivity].
  - apply demo_info_ok.
  - vm_compute. reflexivity.
  - constructor; [apply demo_encodable | constructor; [apply demo_encodable | constructor]].
  - split; reflexivity.
  - exists s', q. split; [exact E |]. split; [exact R |].
    assert (length (lastn (Z.to_nat (GROUP_SIZE demo_info * 30)) reports) = 2%nat) as HL.
    { assert (exists r v, encode_all demo_info [(demo_env, 1); (demo_env, 2)] saver0 = Some (r, v) /\ length r = 2%nat) as (r & v & E2 & H2)
        by (eexists _, _; split; [vm_compute; reflexivity | reflexivity]).
      cbn [saver gb0] in Er. rewrite E2 in Er. injection Er as <- _. rewrite lastn_length, H2. vm_compute. reflexivity. }
    rewrite <- HL. exact (Forall2_length F).
Defined.

(** ** Who owns a pack *)

(** [plist] of the pack [x] is the list [l]. *)
Definition own (pk : gmap Z gb_pack_t) (l x : Z) : Prop := exists v, pk !! x = Some v /\ plist v = l.
Definition home (pk : gmap Z gb_pack_t) (x : Z) : Prop := own pk gb_realtm_lst x \/ own pk gb_delay_lst x.

(** Every pack is in the list it names, or was taken from it; [hand] is in no list. *)
Record owned (pk : gmap Z gb_pack_t) (q : QUEUES) (hand : list Z) : Prop := {
  ow_realtm : Forall (own pk gb_realtm_lst) (q_realtm q);
  ow_delay : Forall (own pk gb_delay_lst) (q_delay q);
  ow_tmp : Forall (own pk gb_delay_lst) (default [] (q_tmp q));
  ow_sent : Forall (home pk) (q_trans q ++ hand)
}.

Record good (s : GB) (q : QUEUES) (hand lost : list Z) : Prop := {
  go_rep : rep s q;
  go_bufs : conserved q (hand ++ lost);
  go_own : owned (packs s) q hand
}.

(** The packs that [owned] is about. *)
Definition used (q : QUEUES) (hand : list Z) : list Z := q_realtm q ++ q_delay q ++ q_trans q ++ default [] (q_tmp q) ++ hand.

Lemma owned_frame pk pk' q hand : (forall x, In x (used q hand) -> pk' !! x = pk !! x) -> owned pk q hand -> owned pk' q hand.
Proof.
  unfold used. intros H [H1 H2 H3 H4]. assert (forall l x, In x (used q hand) -> own pk l x -> own pk' l x) as Ho.
  { intros l x Hx (v & Ev & Hv). exists v. rewrite H; done. }
  unfold used in Ho. rewrite Forall_forall in *. split; apply Forall_forall; intros x Hx.
  - apply Ho; [rewrite !in_app_iff; tauto | by apply H1].
  - apply Ho; [rewrite !in_app_iff; tauto | by apply H2].
  - apply Ho; [rewrite !in_app_iff; tauto | by apply H3].
  - destruct (H4 x Hx) as [? | ?]; [left | right]; (apply Ho; [rewrite in_app_iff in Hx; rewrite !in_app_iff; tauto | done]).
Qed.

(** A pack outside of the used ones may be overwritten. *)
Lemma owned_insert pk q hand n v : ~ In n (used q hand) -> owned pk q hand -> owned (<[n := v]> pk) q hand.
Proof. intros Hn. apply owned_frame. intros x Hx. apply lookup_insert_ne. by intros ->. Qed.

Lemma used_taken q hand lost n : conserved q (n :: hand ++ lost) -> ~ In n (used q hand).
Proof.
  intros C%conserved_nodup. apply NoDup_remove_2 in C. intros H. apply C. unfold used, bufs in *. rewrite !in_app_iff in *. tauto.
Qed.

Lemma used_err s q hand lost n : good s q hand lost -> is_err n -> ~ In n (used q hand).
Proof.
  intros [R C _] Hn Hin. assert (In n all_bufs) as Hb.
  { eapply Permutation_in; [exact C |]. unfold used, bufs in *. rewrite !in_app_iff in *. tauto. }
  apply all_bufs_in in Hb. ranges; lia.
Qed.

Lemma good_links s q hand lost h q' hand' lost' : good s q hand lost -> rep (with_links s h) q' ->
  Permutation (bufs q ++ hand ++ lost) (bufs q' ++ hand' ++ lost') -> (owned (packs s) q hand -> owned (packs s) q' hand') ->
  good (with_links s h) q' hand' lost'.
Proof. intros [R C O] R' P Ho. split; [done | by eapply conserved_iff | by apply Ho]. Qed.

Lemma good_same s q hand lost h : good s q hand lost -> rep (with_links s h) q -> good (with_links s h) q hand lost.
Proof. intros H R. by eapply good_links. Qed.

Lemma buf_count q xs taken : conserved q taken -> incl xs (bufs q) -> List.NoDup xs -> (length xs <= Z.to_nat GB_MAX_REPORT)%nat.
Proof.
  intros C I N. replace (Z.to_nat GB_MAX_REPORT) with (length all_bufs) by (unfold all_bufs; by rewrite length_fmap, length_seqZ).
  apply NoDup_incl_length; [done |]. intros x Hx. eapply Permutation_in; [exact C |]. apply in_or_app. left. by apply I.
Qed.

(** ** Sending *)

Definition to_send (q : QUEUES) : list Z := q_realtm q ++ q_delay q.

Lemma get_pack_good s q hand lost : good s q hand lost ->
  exists h', gb_data_get_pack s = Some (fst (spec_get_pack (gb_emerg s) q), with_links s h') /\
    let q' := snd (spec_get_pack (gb_emerg s) q) in
    match fst (spec_get_pack (gb_emerg s) q) with
    | Some n => good (with_links s h') q' (n :: hand) lost
    | None => q' = q /\ good (with_links s h') q hand lost
    end.
Proof.
  intros H. destruct (get_pack_run s q (go_rep _ _ _ _ H)) as (h & E & R). exists h. split; [exact E |].
  destruct q as [rt dl tr fr tm er]. unfold spec_get_pack in *. cbn [q_realtm q_delay fst snd] in *.
  destruct rt as [|n rt]; cbn [fst snd] in *.
  - destruct (gb_emerg s).
    + destruct dl as [|n dl _] using rev_ind; cbn [fst snd] in *.
      { split; [done |]. by apply good_same. }
      rewrite rev_app_distr, removelast_last in *. cbn [rev app hd_error] in *.
      eapply good_links; [exact H | exact R | perm_tac |]. intros [H1 H2 H3 H4]. cbn in *.
      apply Forall_app in H2 as [H2 H5]. split; cbn; try done. rewrite Forall_app in *. destruct H4 as [H4 H6].
      split; [done |]. constructor; [| done]. right. by inversion_clear H5.
    + destruct dl as [|n dl]; cbn [fst snd hd_error tl] in *; [split; [done |]; by apply good_same |].
      eapply good_links; [exact H | exact R | perm_tac |]. intros [H1 H2 H3 H4]. cbn in *. inversion_clear H2.
      split; cbn; try done. rewrite Forall_app in *. destruct H4 as [H4 H6]. split; [done |]. constructor; [by right | done].
  - eapply good_links; [exact H | exact R | perm_tac |]. intros [H1 H2 H3 H4]. cbn in *. inversion_clear H1.
    split; cbn; try done. rewrite Forall_app in *. destruct H4 as [H4 H6]. split; [done |]. constructor; [by left | done].
Qed.

Lemma hand_free q x hand lost : conserved q ((x :: hand) ++ lost) -> is_buf x /\ ~ In x (bufs q).
Proof. apply conserved_taken. Qed.

Lemma put_send_good s q x hand lost : good s q (x :: hand) lost ->
  exists h', gb_data_put_send x s = Some (tt, with_links s h') /\
    good (with_links s h') {| q with q_trans := q_trans q ++ [x] |} hand lost.
Proof.
  intros H. destruct (hand_free _ _ _ _ (go_bufs _ _ _ _ H)) as [Hx Hn].
  destruct (add_tail_run s q (go_rep _ _ _ _ H) gb_trans_lst sen_trans (q_trans q) eq_refl x Hx Hn) as (h & E & R).
  exists h. split; [exact E |]. destruct q as [rt dl tr fr tm er]. eapply good_links; [exact H | exact R | by perm_tac |].
  intros [H1 H2 H3 H4]. split; try done. cbn in *. by rewrite <- app_assoc.
Qed.

Lemma ack_good s q hand lost : good s q hand lost ->
  exists h', gb_data_ack_pack s = Some (tt, with_links s h') /\
    good (with_links s h') {| q with q_trans := tl (q_trans q); q_free := q_free q ++ take 1 (q_trans q) |} hand lost.
Proof.
  intros H. destruct (take_first_run s q (go_rep _ _ _ _ H) gb_trans_lst sen_trans (q_trans q) eq_refl) as (h & E & R).
  unfold gb_data_ack_pack. st_call E. destruct q as [rt dl tr fr tm er]. cbn [q_trans q_free q_realtm q_delay q_tmp q_err] in *.
  destruct tr as [|x tr]; cbn [hd_error tl take] in *.
  - exists h. split; [done |]. rewrite app_nil_r. by apply good_same.
  - assert (conserved {| q_realtm := rt; q_delay := dl; q_trans := tr; q_free := fr; q_tmp := tm; q_err := er |} ((x :: hand) ++ lost)) as C.
    { eapply conserved_iff; [| apply (go_bufs _ _ _ _ H)]. perm_tac. }
    destruct (hand_free _ _ _ _ C) as [Hx Hn].
    destruct (add_tail_run _ _ R gb_free_lst sen_free fr eq_refl x Hx Hn) as (h2 & E2 & R2).
    exists h2. split; [exact E2 |]. rewrite take_0. eapply (good_links s); [exact H | exact R2 | by perm_tac |].
    intros [H1 H2 H3 H4]. cbn in *. inversion_clear H4. by split.
Qed.

(** ** Reports that were sent and not acknowledged *)

Definition listed (pk : gmap Z gb_pack_t) (x : Z) : Z := from_option plist 0 (pk !! x).
Definition from (pk : gmap Z gb_pack_t) (l : Z) (xs : list Z) : list Z := filter (fun x => listed pk x = l) xs.

Lemma own_listed pk l x : own pk l x -> listed pk x = l.
Proof. intros (v & Ev & Hv). unfold listed. by rewrite Ev. Qed.

Lemma from_all pk l xs : Forall (own pk l) xs -> from pk l xs = xs.
Proof. induction 1 as [|x xs Hx _ IH]; [done |]. unfold from in *. rewrite list.filter_cons_True; [by rewrite IH | by apply own_listed]. Qed.

Lemma from_none pk l l' xs : Forall (own pk l') xs -> l' <> l -> from pk l xs = [].
Proof.
  intros H N. induction H as [|x xs Hx _ IH]; [done |]. unfold from in *. rewrite list.filter_cons_False; [done |].
  by rewrite (own_listed _ _ _ Hx).
Qed.

Lemma from_self pk l x : own pk l x -> from pk l [x] = [x].
Proof. intros H. apply from_all. by constructor. Qed.

Lemma from_other pk l l' x : own pk l' x -> l' <> l -> from pk l [x] = [].
Proof. intros H. apply from_none. by constructor. Qed.

(** The sequences when all packs of [xs] went back. *)
Definition sent_back (pk : gmap Z gb_pack_t) (xs : list Z) (q : QUEUES) : QUEUES :=
  {| q with q_realtm := from pk gb_realtm_lst xs ++ q_realtm q; q_delay := from pk gb_delay_lst xs ++ q_delay q; q_trans := [] |}.

Lemma put_back_good s q x hand lost : good s q (x :: hand) lost ->
  exists h', gb_data_put_back x s = Some (tt, with_links s h') /\
    good (with_links s h') {| q with q_realtm := from (packs s) gb_realtm_lst [x] ++ q_realtm q; q_delay := from (packs s) gb_delay_lst [x] ++ q_delay q |} hand lost.
Proof.
  intros H. destruct (hand_free _ _ _ _ (go_bufs _ _ _ _ H)) as [Hx Hn]. unfold gb_data_put_back.
  pose proof (ow_sent _ _ _ (go_own _ _ _ _ H)) as Ho. apply Forall_app in Ho as [_ Ho]. inversion_clear Ho as [|? ? Hh _].
  assert (owned (packs s) q hand) as O.
  { destruct (go_own _ _ _ _ H) as [H1 H2 H3 H4]. split; try done. rewrite Forall_app in *. destruct H4 as [? H4]. by inversion_clear H4. }
  assert (home (packs s) x) as Hx' by exact Hh.
  destruct Hh as [Hh | Hh]; pose proof Hh as (v & Ev & Hv); st_call (pack_run s x v Ev); rewrite Hv.
  - destruct (add_head_run s q (go_rep _ _ _ _ H) gb_realtm_lst sen_realtm (q_realtm q) eq_refl x Hx Hn) as (h & E & R).
    exists h. split; [exact E |]. rewrite (from_self _ _ _ Hh), (from_other _ gb_delay_lst _ _ Hh) by done.
    destruct q as [rt dl tr fr tm er]. eapply good_links; [exact H | exact R | perm_tac |]. intros _.
    destruct O as [H1 H2 H3 H4]. split; cbn in *; try done. by constructor.
  - destruct (add_head_run s q (go_rep _ _ _ _ H) gb_delay_lst sen_delay (q_delay q) eq_refl x Hx Hn) as (h & E & R).
    exists h. split; [exact E |]. rewrite (from_self _ _ _ Hh), (from_other _ gb_realtm_lst _ _ Hh) by done.
    destruct q as [rt dl tr fr tm er]. eapply good_links; [exact H | exact R | perm_tac |]. intros _.
    destruct O as [H1 H2 H3 H4]. split; cbn in *; try done. by constructor.
Qed.

Lemma put_back_then {A} x (k : GM A) s : (v ← pack x; add_head (plist v) x;; k) s = (gb_data_put_back x;; k) s.
Proof. unfold gb_data_put_back. by rewrite run_assoc. Qed.

Lemma from_app pk l xs ys : from pk l (xs ++ ys) = from pk l xs ++ from pk l ys.
Proof. apply list.filter_app. Qed.

Lemma flush_sending_good xs : forall s q hand lost fuel, good s q hand lost -> q_trans q = xs -> (length xs < fuel)%nat ->
  exists h', flush_sending_loop fuel s = Some (tt, with_links s h') /\ good (with_links s h') (sent_back (packs s) xs q) hand lost.
Proof.
  induction xs as [|x xs IH] using rev_ind; intros s q hand lost [|fuel] H Et Hf; try lia; cbn [flush_sending_loop].
  all: destruct (take_last_run s q (go_rep _ _ _ _ H) gb_trans_lst sen_trans (q_trans q) eq_refl) as (h & E & R); rewrite Et in *; st_call E.
  - exists h. split; [done |]. destruct q. cbn in Et. subst. by apply good_same.
  - rewrite rev_app_distr, removelast_last in *. cbn [rev app hd_error].
    assert (good (with_links s h) (set_list gb_trans_lst xs q) (x :: hand) lost) as H1.
    { destruct q as [rt dl tr fr tm er]. cbn in Et. subst tr. eapply good_links; [exact H | exact R | perm_tac |].
      intros [O1 O2 O3 O4]. split; try done. cbn in *. by rewrite <- app_assoc in O4. }
    destruct (put_back_good _ _ _ _ _ H1) as (h2 & E2 & H2).
    rewrite put_back_then. st_call E2. rewrite length_app in Hf. cbn in Hf.
    destruct (IH _ _ hand lost fuel H2) as (h3 & E3 & H3); [by destruct q | lia |].
    exists h3. split; [exact E3 |]. unfold sent_back in *. rewrite !from_app, <- !app_assoc. by destruct q.
Qed.

(** After [n] reports were taken and [k] of them acknowledged. *)
Definition sent_at (q : QUEUES) (k n : nat) : QUEUES :=
  {| q with q_realtm := drop n (q_realtm q); q_delay := drop (n - length (q_realtm q)) (q_delay q);
     q_trans := drop k (take n (to_send q)); q_free := q_free q ++ take k (to_send q) |}.

Definition with_unsent (q : QUEUES) (rt dl : list Z) : QUEUES := {| q with q_realtm := rt; q_delay := dl |}.
Definition with_sent (q : QUEUES) (tr fr : list Z) : QUEUES := {| q with q_trans := tr; q_free := fr |}.

Lemma next_to_send q k n : spec_get_pack false (sent_at q k n) =
  (to_send q !! n, with_unsent (sent_at q k n) (drop (S n) (q_realtm q)) (drop (S n - length (q_realtm q)) (q_delay q))).
Proof.
  unfold spec_get_pack, with_unsent, sent_at, to_send. cbn [q_realtm q_delay q_trans q_free q_tmp q_err].
  destruct (decide (n < length (q_realtm q))%nat) as [Hn | Hn].
  - destruct (lookup_lt_is_Some_2 _ _ Hn) as [x Ex]. rewrite (drop_S _ _ _ Ex), lookup_app_l, Ex by done.
    by replace (S n - length (q_realtm q))%nat with (n - length (q_realtm q))%nat by lia.
  - rewrite (drop_ge (q_realtm q) n), (drop_ge (q_realtm q) (S n)), lookup_app_r by lia.
    replace (S n - length (q_realtm q))%nat with (S (n - length (q_realtm q))) by lia.
    generalize (n - length (q_realtm q))%nat as i. intros i. f_equal.
    + rewrite <- (Nat.add_0_r i) at 2. rewrite <- lookup_drop. by destruct (drop i (q_delay q)).
    + f_equal. rewrite <- Nat.add_1_r, <- drop_drop. by destruct (drop i (q_delay q)).
Qed.

Lemma sent_at_next q k n x : (k <= n)%nat -> to_send q !! n = Some x ->
  with_sent (with_unsent q (drop (S n) (q_realtm q)) (drop (S n - length (q_realtm q)) (q_delay q)))
    (q_trans (sent_at q k n) ++ [x]) (q_free (sent_at q k n)) = sent_at q k (S n).
Proof.
  intros Hk Hx. unfold with_sent, with_unsent, sent_at. cbn [q_trans q_free q_realtm q_delay q_tmp q_err]. f_equal. rewrite (take_S_r _ _ _ Hx), drop_app_le; [done |].
  rewrite length_take. apply lookup_lt_Some in Hx. lia.
Qed.

Lemma sent_at_ack q k n : (k <= n <= length (to_send q))%nat ->
  with_sent (sent_at q k n) (tl (q_trans (sent_at q k n))) (q_free (sent_at q k n) ++ take 1 (q_trans (sent_at q k n))) =
  if decide (k < n)%nat then sent_at q (S k) n else sent_at q k n.
Proof.
  intros Hk. unfold with_sent, sent_at. cbn [q_trans q_free q_realtm q_delay q_tmp q_err]. destruct (decide (k < n)%nat) as [N | N].
  - destruct (lookup_lt_is_Some_2 (to_send q) k) as [x Ex]; [lia |].
    assert (take n (to_send q) !! k = Some x) as Et by by rewrite lookup_take_lt.
    rewrite (drop_S _ _ _ Et). cbn [tl take]. rewrite (take_S_r _ _ _ Ex), app_assoc. by rewrite take_0.
  - rewrite (drop_ge (take n (to_send q))) by (rewrite length_take; lia). cbn [tl take]. by rewrite app_nil_r.
Qed.

Lemma send_ops_run q hand lost ops : forall s k n, gb_emerg s = false -> good s (sent_at q k n) hand lost ->
  (k <= n <= length (to_send q))%nat ->
  exists h n', let k' := (k + acked (length (to_send q) - n) (n - k) ops)%nat in
    send_ops ops s = Some (tt, with_links s h) /\ good (with_links s h) (sent_at q k' n') hand lost /\ (k' <= n' <= length (to_send q))%nat.
Proof.
  induction ops as [|op ops IH]; intros s k n Em H Hk; cbn [send_ops acked].
  { exists (links s), n. rewrite Nat.add_0_r. split; [by destruct s |]. split; [by destruct s | done]. }
  destruct op; cbn [send_op].
  - destruct (get_pack_good s _ hand lost H) as (h1 & E1 & H1). rewrite Em, next_to_send in *. cbn [fst snd] in *.
    destruct (to_send q !! n) as [x|] eqn:Ex.
    + destruct (put_send_good _ _ x hand lost H1) as (h2 & E2 & H2). pose proof (lookup_lt_Some _ _ _ Ex) as Hn.
      pose proof (sent_at_next q k n x ltac:(lia) Ex) as Eq.
      change (good (with_links s h2) (with_sent (with_unsent q (drop (S n) (q_realtm q)) (drop (S n - length (q_realtm q)) (q_delay q)))
        (q_trans (sent_at q k n) ++ [x]) (q_free (sent_at q k n))) hand lost) in H2. rewrite Eq in H2.
      destruct (IH (with_links s h2) k (S n) Em H2 ltac:(lia)) as (h3 & n' & E3 & H3 & Hk3).
      exists h3, n'. replace (length (to_send q) - n)%nat with (S (length (to_send q) - S n)) by lia.
      replace (S n - k)%nat with (S (n - k)) in * by lia. split; [| done]. st_run. st_call E1. st_call E2. exact E3.
    + destruct H1 as [Eq H1]. apply lookup_ge_None in Ex.
      destruct (IH (with_links s h1) k n Em H1 Hk) as (h3 & n' & E3 & H3 & Hk3).
      exists h3, n'. replace (length (to_send q) - n)%nat with O in * by lia. split; [| done]. st_run. st_call E1. exact E3.
  - destruct (ack_good s _ hand lost H) as (h1 & E1 & H1). fold (with_sent (sent_at q k n) (tl (q_trans (sent_at q k n))) (q_free (sent_at q k n) ++ take 1 (q_trans (sent_at q k n)))) in H1.
    rewrite sent_at_ack in H1 by done. st_call E1.
    destruct (decide (k < n)%nat) as [N | N].
    + destruct (IH (with_links s h1) (S k) n Em H1 ltac:(lia)) as (h3 & n' & E3 & H3 & Hk3). exists h3, n'.
      replace (n - k)%nat with (S (n - S k)) by lia. rewrite Nat.add_succ_r. destruct (length (to_send q) - n)%nat; by split.
    + destruct (IH (with_links s h1) k n Em H1 ltac:(lia)) as (h3 & n' & E3 & H3 & Hk3). exists h3, n'.
      replace (n - k)%nat with O in * by lia. destruct (length (to_send q) - n)%nat; by split.
Qed.

Lemma sent_back_at pk q hand k n : owned pk q hand -> (k <= n)%nat ->
  let q' := sent_back pk (q_trans (sent_at q k n)) (sent_at q k n) in
  q_realtm q' = drop k (q_realtm q) /\ q_delay q' = drop (k - length (q_realtm q)) (q_delay q).
Proof.
  intros [H1 H2 _ _] Hk. intros q'. unfold q', sent_back, sent_at, to_send. cbn [q_realtm q_delay q_trans q_free q_tmp q_err]. rewrite take_app, drop_app, !from_app, length_take.
  rewrite (from_all _ gb_realtm_lst (drop k (take n (q_realtm q)))) by (by apply Forall_drop, Forall_take).
  rewrite (from_none _ gb_delay_lst gb_realtm_lst) by (done || by apply Forall_drop, Forall_take).
  rewrite (from_none _ gb_realtm_lst gb_delay_lst) by (done || by apply Forall_drop, Forall_take).
  rewrite (from_all _ gb_delay_lst) by (by apply Forall_drop, Forall_take). rewrite app_nil_r, drop_take_drop by done.
  split; [done |]. cbn. destruct (decide (n <= length (q_realtm q))%nat).
  - replace (n - length (q_realtm q))%nat with O by lia. rewrite take_0, drop_nil. by replace (k - length (q_realtm q))%nat with O by lia.
  - rewrite Nat.min_r by lia. apply drop_take_drop. lia.
Qed.

(** A report is forgotten only when it is acknowledged: whatever the protocol
    thread sends and gets acknowledged, after [gb_data_flush_sending] the reports
    that were not acknowledged are again at the front of the lists they came from,
    in their old order and with their old contents, and exactly the acknowledged
    packs are free. *)
Theorem gb_unsent_restored q ops lost s :
  good s q [] lost -> q_trans q = [] -> gb_emerg s = false ->
  let k := acked (length (to_send q)) 0 ops in
  exists h, (send_ops ops;; gb_data_flush_sending) s = Some (tt, with_links s h) /\
    rep (with_links s h) {| q with q_realtm := drop k (q_realtm q); q_delay := drop (k - length (q_realtm q)) (q_delay q);
                            q_free := q_free q ++ take k (to_send q) |}.
Proof.
  intros H Et Em k. assert (sent_at q 0 0 = q) as E0.
  { destruct q as [rt dl tr fr tm er]. cbn in Et. subst. unfold sent_at. cbn [q_realtm q_delay q_free q_trans]. by rewrite Nat.sub_0_l, !take_0, !drop_0, app_nil_r. }
  destruct (send_ops_run q [] lost ops s 0 0 Em ltac:(by rewrite E0) ltac:(lia)) as (h & n & E & H1 & Hk).
  rewrite !Nat.sub_0_r in *. fold k in H1, Hk. cbn [Nat.add] in *.
  destruct (flush_sending_good _ _ _ [] lost (S (Z.to_nat GB_MAX_REPORT)) H1 eq_refl) as (h2 & E2 & [R2 _ _]).
  { apply Nat.lt_succ_r. eapply buf_count; [apply (go_bufs _ _ _ _ H1) | by apply (list_of_bufs _ gb_trans_lst); [apply sen_trans |] |].
    pose proof (conserved_nodup _ _ (go_bufs _ _ _ _ H1)) as ND. unfold bufs in ND. rewrite <- !app_assoc in ND.
    apply NoDup_app_remove_l, NoDup_app_remove_l, NoDup_app_remove_r in ND. exact ND. }
  exists h2. st_call E. split; [exact E2 |]. destruct (sent_back_at (packs s) q [] k n (go_own _ _ _ _ H) ltac:(lia)) as [Er Ed].
  cbn [packs with_links] in R2. remember (sent_back _ _ _) as q2 eqn:Eq2. assert (q2 = {| q with q_realtm := drop k (q_realtm q); q_delay := drop (k - length (q_realtm q)) (q_delay q);
                            q_free := q_free q ++ take k (to_send q) |}) as <-; [| exact R2].
  destruct q2. cbn in Er, Ed. subst. unfold sent_back, sent_at in Eq2. cbn in Eq2. injection Eq2 as -> -> -> -> -> ->. by rewrite Et.
Qed.

(** ** The operations of the CAN thread *)

Lemma hand_used q hand lost n q1 : conserved q (hand ++ lost) -> spec_get_buffer q = Some (n, q1) ->
  conserved q1 (n :: hand ++ lost) /\ (forall pk, owned pk q hand -> owned pk q1 hand) /\ ~ In n (used q1 hand).
Proof.
  intros C E. assert (conserved q1 (n :: hand ++ lost)) as C1.
  { eapply conserved_iff; [| exact C]. rewrite (get_buffer_perm _ _ _ E). apply Permutation_middle. }
  split; [done |]. split; [| by eapply used_taken].
  intros pk [H1 H2 H3 H4]. destruct q as [rt dl tr fr tm er]. unfold spec_get_buffer in E. cbn in *.
  destruct fr as [|x fr]; [destruct dl as [|x dl]; [destruct rt as [|x rt]; [done |] |] |]; injection E as <- <-; split; cbn; try done.
  - by inversion_clear H1.
  - by inversion_clear H2.
Qed.

Section can.
Context (sigcnt : Z) (inf : gb_info_t) (env : DATA_ENV) (uptime : Z) (EN : encodable sigcnt inf env).

Lemma save_realtm_good n : forall s q hand lost i, 0 < GROUP_SIZE inf ->
  good s q hand lost -> avail q -> 0 <= i -> group_at (nth_k inf i) (saver s) ->
  exists s' q', st_for n i (save_realtm_one env inf uptime) s = Some (tt, s') /\
    good s' q' hand lost /\ statics s' = statics s /\ group_at (nth_k inf (i + Z.of_nat n)) (saver s') /\
    q_tmp q' = q_tmp q /\ q_err q' = q_err q /\ q_trans q' = q_trans q.
Proof using EN.
  induction n as [|n IH]; intros s q hand lost i Hg [R C O] A Hi Hsv; cbn [st_for].
  { exists s, q. rewrite Z.add_0_r. by st_run. }
  destruct (avail_some q A) as (x & q1 & Eq). destruct (hand_used _ _ _ _ _ C Eq) as (C0 & Ho & Hx).
  destruct (get_buffer_keeps _ _ _ Eq) as (Et & Ee & Er).
  destruct (save_realtm_one_run sigcnt inf env uptime EN Hg s q (hand ++ lost) i x q1 R C Eq Hi Hsv)
    as (s1 & l & sv & v & E1 & _ & Esv & Est & Ep & [_ _ _ Hv] & _ & Hk & R1 & C1).
  assert (owned (packs s1) (set_list gb_realtm_lst (q_realtm q1 ++ [x]) q1) hand) as O1.
  { rewrite Ep. destruct (owned_insert (packs s) q1 hand x v Hx (Ho _ O)) as [H1 H2 H3 H4]. split; cbn; try done.
    apply Forall_app. split; [done |]. constructor; [| done]. exists v. split; [apply lookup_insert_eq | done]. }
  st_call E1. destruct (IH s1 _ hand lost (i + 1) Hg (Build_good _ _ _ _ R1 C1 O1)) as (s2 & q2 & E2 & G2 & Est2 & Hk2 & Et2 & Ee2 & Er2);
    [| lia | by rewrite Esv |].
  { unfold avail. destruct q1 as [rt dl tr fr tm er]. cbn. destruct fr, dl, rt; done. }
  exists s2, q2. split; [done |]. split; [done |]. split; [congruence |].
  split; [eapply group_at_fn; [| exact Hk2]; f_equal; lia |]. cbn in Et2, Ee2, Er2. repeat split; congruence.
Qed.

Lemma save_error_good n : forall s q hand lost i, 0 < GROUP_SIZE inf ->
  good s q hand lost -> q_err q <> [] -> 0 <= i -> group_at (nth_k inf i) (saver s) ->
  exists s' L, st_for n i (save_error_one env inf uptime) s = Some (tt, s') /\
    good s' {| q with q_err := L |} hand lost /\ statics s' = statics s /\ group_at (nth_k inf (i + Z.of_nat n)) (saver s') /\
    length L = length (q_err q).
Proof using EN.
  induction n as [|n IH]; intros s q hand lost i Hg G Nn Hi Hsv; cbn [st_for].
  { exists s, (q_err q). rewrite Z.add_0_r. assert ({| q with q_err := q_err q |} = q) as -> by (by destruct q). by st_run. }
  destruct (q_err q) as [|e B] eqn:Eq; [done |].
  destruct (save_error_one_run sigcnt inf env uptime EN Hg s q i e B (go_rep _ _ _ _ G) Eq Hi Hsv)
    as (s1 & l & sv & v & E1 & _ & Esv & Est & Ep & _ & _ & _ & Hk & R1).
  assert (good s1 {| q with q_err := B ++ [e] |} hand lost) as G1.
  { split; [done | apply (go_bufs _ _ _ _ G) |]. rewrite Ep. apply owned_insert.
    - destruct (ring_of s q e B (go_rep _ _ _ _ G) Eq) as [_ He]. exact (used_err _ _ _ _ _ G He).
    - destruct (go_own _ _ _ _ G). by split. }
  st_call E1. destruct (IH s1 _ hand lost (i + 1) Hg G1) as (s2 & L & E2 & G2 & Est2 & Hk2 & HL); [by destruct B | lia | by rewrite Esv |].
  exists s2, L. split; [done |]. split; [exact G2 |]. split; [congruence |].
  split; [eapply group_at_fn; [| exact Hk2]; f_equal; lia |]. rewrite HL. cbn. rewrite length_app. cbn. lia.
Qed.

End can.

(** One round of the loop of [gb_data_flush_error]. *)
Lemma flush_one_good s q hand lost t : good s q hand lost -> q_err q <> [] -> q_tmp q = Some t -> avail q ->
  exists s' q' more, flush_error_one s = Some (more, s') /\ good s' q' hand lost /\ statics s' = statics s /\ saver s' = saver s /\
    is_Some (q_tmp q') /\ length (q_err q') = length (q_err q) /\ q_trans q' = q_trans q.
Proof.
  intros G Nn Et A. destruct (q_err q) as [|? ? _] eqn:Eq using rev_ind; [done |].
  pose proof (go_rep _ _ _ _ G) as R. pose proof (rep_err _ _ R) as He. rewrite Eq in He.
  apply Forall_app in He as [_ He]. inversion_clear He as [|? ? Hp _].
  destruct (rep_packs _ _ R x ltac:(by right)) as (v & Ev & _). destruct (decide (plen v = 0)) as [Hv | Hv].
  - exists s, q, false. split; [by eapply flush_one_stop |]. rewrite Et, Eq. by eauto 10.
  - destruct (avail_some q A) as (n & q1 & Eb). destruct (hand_used _ _ _ _ _ (go_bufs _ _ _ _ G) Eb) as (C1 & Ho & Hn).
    destruct (flush_one_run s q (hand ++ lost) l x v t n q1 R (go_bufs _ _ _ _ G) Eq Et Ev Hv Eb)
      as (s1 & E1 & Esv & Est & Ep & R1 & C2).
    eexists s1, _, true. split; [exact E1 |]. split; [split; [exact R1 | exact C2 |] |].
    + rewrite Ep. assert (~ In x (used q1 hand)) as Hx.
      { intros Hin. assert (In x all_bufs) as Hb; [| apply all_bufs_in in Hb; ranges; lia].
        eapply Permutation_in; [exact C1 |]. unfold used, bufs in *. rewrite !in_app_iff in *. cbn. rewrite in_app_iff. tauto. }
      destruct (owned_insert _ q1 hand n (mark_delay v) Hn (owned_insert _ q1 hand x (clear_len v) Hx (Ho _ (go_own _ _ _ _ G)))) as [H1 H2 H3 H4].
      destruct (get_buffer_keeps _ _ _ Eb) as (Et1 & _ & _). rewrite Et1, Et in H3. cbn in H3. split; cbn; try done.
      constructor; [| done]. exists (mark_delay v). split; [apply lookup_insert_eq | done].
    + cbn. split; [done |]. split; [done |]. split; [by eexists |]. split; [rewrite length_app; cbn; lia |].
      by destruct (get_buffer_keeps _ _ _ Eb) as (_ & _ & ->).
Qed.

Lemma append_good s q hand lost t : good s q hand lost -> q_tmp q = Some t ->
  exists h, flush_error_append s = Some (tt, with_links s h) /\
    good (with_links s h) {| q with q_delay := q_delay q ++ t; q_tmp := None |} hand lost.
Proof.
  intros G Et. destruct (append_run s q t (go_rep _ _ _ _ G) Et) as (h & E & R). exists h. split; [done |].
  destruct q as [rt dl tr fr tm er]. cbn in Et. subst tm. eapply good_links; [exact G | exact R | perm_tac |].
  intros [H1 H2 H3 H4]. split; cbn in *; try done. by apply Forall_app.
Qed.

Lemma flush_realtm_good xs : forall s q hand lost fuel, good s q hand lost -> q_realtm q = xs -> (length xs < fuel)%nat ->
  exists s', flush_realtm_loop fuel s = Some (tt, s') /\ statics s' = statics s /\ saver s' = saver s /\
    good s' {| q with q_realtm := []; q_delay := q_delay q ++ xs |} hand lost.
Proof.
  induction xs as [|x xs IH]; intros s q hand lost [|fuel] G Er Hf; try (cbn in Hf; lia); cbn [flush_realtm_loop].
  all: destruct (take_first_run s q (go_rep _ _ _ _ G) gb_realtm_lst sen_realtm (q_realtm q) eq_refl) as (h & E & R); rewrite Er in *; st_call E.
  - exists (with_links s h). rewrite app_nil_r. destruct q as [rt dl tr fr tm er]. cbn in Er. subst. by split; [| split; [| split; [| apply good_same]]].
  - cbn [hd_error tl] in *. destruct q as [rt dl tr fr tm er]. cbn in Er. subst rt. cbn [q_delay].
    set (q1 := {| q_realtm := xs; q_delay := dl; q_trans := tr; q_free := fr; q_tmp := tm; q_err := er |}) in *.
    change (set_list gb_realtm_lst xs _) with q1 in R.
    assert (conserved q1 (x :: hand ++ lost)) as C1 by (eapply conserved_iff; [| apply (go_bufs _ _ _ _ G)]; perm_tac).
    destruct (conserved_taken _ _ _ C1) as [Hx Hn]. pose proof (used_taken _ _ _ _ C1) as Hu.
    destruct (rep_packs _ _ R x ltac:(by left)) as (v & Ev & Hv). set (s1 := with_pack (with_links s h) (saver s) x (mark_delay v)).
    assert (mod_pack x mark_delay (with_links s h) = Some (tt, s1)) as Em by (by rewrite (mod_pack_run _ x mark_delay v Ev)). st_call Em.
    assert (rep s1 q1) as R1 by (by apply rep_with_pack).
    destruct (add_tail_run s1 q1 R1 gb_delay_lst sen_delay dl eq_refl x Hx Hn) as (h2 & E2 & R2). st_call E2.
    assert (good (with_links s1 h2) (set_list gb_delay_lst (dl ++ [x]) q1) hand lost) as G2.
    { split; [done | eapply conserved_iff; [| exact C1]; perm_tac |]. cbn [packs with_links s1 with_pack].
      assert (owned (packs s) q1 hand) as O1.
      { destruct (go_own _ _ _ _ G) as [H1 H2 H3 H4]. cbn in *. inversion_clear H1. by split. }
      destruct (owned_insert _ q1 hand x (mark_delay v) Hu O1) as [H1 H2 H3 H4]. split; cbn in *; try done.
      apply Forall_app. split; [done |]. constructor; [| done]. exists (mark_delay v). split; [apply lookup_insert_eq | done]. }
    destruct (IH _ _ hand lost fuel G2) as (s3 & E3 & Est3 & Esv3 & G3); [done | cbn in Hf; lia |].
    exists s3. split; [exact E3 |]. split; [done |]. split; [done |]. cbn [set_list q_delay q_realtm Z.eqb Pos.eqb gb_realtm_lst gb_delay_lst] in G3. rewrite <- app_assoc in G3. exact G3.
Qed.

Lemma err_next s q A e C : rep s q -> q_err q = A ++ e :: C -> next_of e s = Some (hd (gb_errlst_head s) C, s).
Proof.
  intros R Eq. rewrite (rep_head _ _ R), Eq. unfold next_of. st_run. destruct A as [|a A]; cbn [app hd] in *.
  - destruct (ring_of s q e C R Eq) as [[Hc _] _]. by rewrite (chain_next _ _ _ _ Hc).
  - destruct (ring_of s q a (A ++ e :: C) R Eq) as [[Hc _] _]. apply chain_app in Hc as [_ Hc]. by rewrite (chain_next _ _ _ _ Hc).
Qed.

Lemma clear_error_run C : forall s q hand lost A e fuel, good s q hand lost -> q_err q = A ++ e :: C -> (length C < fuel)%nat ->
  exists s', clear_error_loop fuel e s = Some (tt, s') /\ good s' q hand lost /\ statics s' = statics s /\ saver s' = saver s /\
    Forall (zero (packs s')) (e :: C) /\ (forall y, ~ In y (e :: C) -> packs s' !! y = packs s !! y).
Proof.
  induction C as [|c C IH]; intros s q hand lost A e [|fuel] G Eq Hf; try (cbn in Hf; lia); cbn [clear_error_loop];
    pose proof (go_rep _ _ _ _ G) as R;
    assert (is_err e) as He by (pose proof (rep_err _ _ R) as He; rewrite Eq in He; apply Forall_app in He as [_ He]; by inversion_clear He);
    destruct (rep_packs _ _ R e ltac:(by right)) as (v & Ev & Hv);
    set (s1 := with_pack s (saver s) e (clear_len v));
    assert (mod_pack e clear_len s = Some (tt, s1)) as Em by (by rewrite (mod_pack_run _ e clear_len v Ev));
    assert (good s1 q hand lost) as G1
      by (split; [by apply rep_with_pack | apply (go_bufs _ _ _ _ G) |
                  apply owned_insert; [exact (used_err _ _ _ _ _ G He) | apply (go_own _ _ _ _ G)]]);
    assert (zero (packs s1) e) as Z1 by (exists (clear_len v); split; [apply lookup_insert_eq | done]);
    st_call Em; st_call (err_next _ _ _ _ _ (go_rep _ _ _ _ G1) Eq); cbn [hd].
  - rewrite Z.eqb_refl. exists s1. do 4 (split; [done |]). split; [by constructor |].
    intros y Hy. apply lookup_insert_ne. intros ->. apply Hy. by left.
  - pose proof (err_nodup s q R) as ND. rewrite Eq in ND. rewrite (proj2 (Z.eqb_neq c _)).
    + destruct (IH s1 q hand lost (A ++ [e]) c fuel G1) as (s2 & E2 & G2 & Est & Esv & Hz & Hy);
        [by rewrite <- app_assoc | cbn in Hf; lia |].
      exists s2. do 4 (split; [done |]). split.
      * constructor; [| done]. unfold zero. rewrite Hy; [exact Z1 |]. by apply NoDup_app_remove_l, NoDup_cons_iff in ND as [ND _].
      * intros y Hn. rewrite Hy by (intros ?; apply Hn; by right). apply lookup_insert_ne. intros ->. apply Hn. by left.
    + rewrite (rep_head _ _ (go_rep _ _ _ _ G1)), Eq. intros E. destruct A as [|a A]; cbn [hd app] in E; subst c.
      * apply NoDup_cons_iff in ND as [ND _]. apply ND. by left.
      * cbn in ND. apply NoDup_cons_iff in ND as [ND _]. apply ND. rewrite in_app_iff. right. right. by left.
Qed.

(** All recorded reports are dropped. *)
Lemma clear_error_good s q hand lost : good s q hand lost -> (length (q_err q) <= Z.to_nat GB_MAX_ERROR)%nat ->
  exists s', gb_data_clear_error s = Some (tt, s') /\ good s' q hand lost /\ statics s' = statics s /\ saver s' = saver s /\
    Forall (zero (packs s')) (q_err q) /\ (forall y, is_buf y -> packs s' !! y = packs s !! y).
Proof.
  intros G Hl. pose proof (go_rep _ _ _ _ G) as R. unfold gb_data_clear_error. st_run. rewrite (rep_head _ _ R).
  destruct (q_err q) as [|e C] eqn:Eq; cbn [hd].
  - exists s. by repeat (split; [done |]).
  - destruct (ring_of s q e C R Eq) as [_ He]. rewrite (proj2 (Z.eqb_neq e 0)) by (ranges; lia).
    destruct (clear_error_run C s q hand lost [] e (Z.to_nat GB_MAX_ERROR) G Eq) as (s' & E & G' & Est & Esv & Hz & Hy); [cbn in Hl; lia |].
    exists s'. do 5 (split; [done |]). intros y Hb. apply Hy. intros Hin. pose proof (rep_err _ _ R) as Herr.
    rewrite Eq, Forall_forall in Herr. specialize (Herr y Hin). ranges; lia.
Qed.

(** ** The two threads *)

(** The steps between two locks.  [SaveRealtm], [SaveError], [Flush...] and [Loaded]
    are the CAN thread, the others the protocol thread; [FlushRealtm] is both. *)
Inductive ACTION :=
| SaveRealtm (env : DATA_ENV) (uptime : Z) | SaveError (env : DATA_ENV) (uptime : Z)
| FlushStart | FlushOne | FlushAppend | FlushRealtm | Loaded (inf : gb_info_t)
| GetPack | PutBack | PutSend | LosePack | AckPack | FlushSending | FirstLogin | Emergence (set : bool).

(** [c_hand] is the pack of [gb_do_report], [c_lost] those that it dropped, and
    [c_flush] the error flush that runs: [true] in its loop. *)
Record THREADS := { c_gb : GB; c_inf : gb_info_t; c_hand : option Z; c_lost : list Z; c_flush : option bool }.

Definition hand (c : THREADS) : list Z := match c_hand c with Some p => [p] | None => [] end.

(** One step of a thread; [None] is undefined behaviour or the endless loop. *)
Definition exec (a : ACTION) (c : THREADS) : option THREADS :=
  let run (m : GM unit) := '(_, s) ← m (c_gb c); Some {| c with c_gb := s |} in
  match a with
  | SaveRealtm env up => run (gb_data_save_realtm env (c_inf c) up)
  | SaveError env up => run (gb_data_save_error env (c_inf c) up)
  | FlushStart =>
      '(_, s) ← on_links (fun h => list_init h tmplst) (c_gb c);
      Some {| c with c_gb := s; c_flush := if gb_errlst_head s =? 0 then None else Some true |}
  | FlushOne => '(more, s) ← flush_error_one (c_gb c); Some {| c with c_gb := s; c_flush := Some more |}
  | FlushAppend => '(_, s) ← flush_error_append (c_gb c); Some {| c with c_gb := s; c_flush := None |}
  | FlushRealtm => run gb_data_flush_realtm
  | Loaded inf => '(_, s) ← dbc_finished inf (c_gb c); Some {| c with c_gb := s; c_inf := inf; c_lost := [] |}
  | GetPack => '(p, s) ← gb_data_get_pack (c_gb c); Some {| c with c_gb := s; c_hand := p |}
  | PutBack => p ← c_hand c; '(_, s) ← gb_data_put_back p (c_gb c); Some {| c with c_gb := s; c_hand := None |}
  | PutSend => p ← c_hand c; '(_, s) ← gb_data_put_send p (c_gb c); Some {| c with c_gb := s; c_hand := None |}
  | LosePack => p ← c_hand c; Some {| c with c_hand := None; c_lost := p :: c_lost c |}
  | AckPack => run gb_data_ack_pack
  | FlushSending => run gb_data_flush_sending
  | FirstLogin => '(_, s) ← (gb_data_clear_report;; gb_data_clear_error) (c_gb c); Some {| c with c_gb := s; c_lost := [] |}
  | Emergence b => run (gb_data_emergence b)
  end.

(** When a thread may take the step: the order within each thread, a database that
    was accepted, and values of the signals that the conversions can hold. *)
Definition enabled (sigcnt : Z) (a : ACTION) (c : THREADS) : Prop :=
  match a with
  | SaveRealtm env _ | SaveError env _ => c_flush c = None /\ encodable sigcnt (c_inf c) env
  | FlushStart => c_flush c = None
  | FlushOne => c_flush c = Some true
  | FlushAppend => c_flush c = Some false
  | Loaded inf => c_flush c = None /\ gb_info_ok sigcnt inf
  | GetPack => c_hand c = None
  | PutBack | PutSend | LosePack => is_Some (c_hand c)
  | FirstLogin => c_hand c = None
  | FlushRealtm | AckPack | FlushSending | Emergence _ => True
  end.

(** One thread clears the queues while the other one holds a pack or runs an error
    flush.  Nothing in the code excludes it. *)
Definition collides (a : ACTION) (c : THREADS) : bool :=
  match a with
  | Loaded _ => bool_decide (is_Some (c_hand c))
  | FirstLogin => bool_decide (is_Some (c_flush c))
  | _ => false
  end.

(** The states reached after a first database was loaded; [hit] tells whether a step
    collided. *)
Inductive reach (sigcnt : Z) : bool -> THREADS -> Prop :=
| reach_loaded s inf s' : mem_ok s -> gb_info_ok sigcnt inf -> group_at 0 (saver s) ->
    dbc_finished inf s = Some (tt, s') ->
    reach sigcnt false {| c_gb := s'; c_inf := inf; c_hand := None; c_lost := []; c_flush := None |}
| reach_step hit c a c' : reach sigcnt hit c -> enabled sigcnt a c -> exec a c = Some c' ->
    reach sigcnt (hit || collides a c) c'.

Lemma reach_quiet sigcnt a c c' : reach sigcnt false c -> enabled sigcnt a c -> collides a c = false -> exec a c = Some c' ->
  reach sigcnt false c'.
Proof. intros H En Hc Ex. rewrite <- Hc. by apply (reach_step sigcnt false c a c'). Qed.

(** *** The invariant *)

Record inv (sigcnt : Z) (c : THREADS) (q : QUEUES) : Prop := {
  in_good : good (c_gb c) q (hand c) (c_lost c);
  in_inf : gb_info_ok sigcnt (c_inf c);
  in_group : group_at 0 (saver (c_gb c));
  in_ring : length (q_err q) = Z.to_nat (GROUP_SIZE (c_inf c) * 30);
  in_flush : match c_flush c with None => q_tmp q = None | Some _ => is_Some (q_tmp q) /\ 0 < GROUP_SIZE (c_inf c) end
}.

Lemma rep_mem_ok s q : rep s q -> mem_ok s.
Proof. intros R. split; [apply (rep_links _ _ R) | apply (rep_packs _ _ R)]. Qed.

Lemma conserved_fresh err : conserved (fresh err) ([] ++ []).
Proof. unfold conserved, bufs. cbn. by rewrite !app_nil_r. Qed.

Lemma good_fresh s err : rep s (fresh err) -> good s (fresh err) [] [].
Proof. intros R. split; [done | apply conserved_fresh | by split]. Qed.

Lemma fresh_inv sigcnt s inf hnd lost : mem_ok s -> gb_info_ok sigcnt inf -> group_at 0 (saver s) -> hnd = None -> lost = [] ->
  exists s', dbc_finished inf s = Some (tt, s') /\
    inv sigcnt {| c_gb := s'; c_inf := inf; c_hand := hnd; c_lost := lost; c_flush := None |} (fresh (err_ring (GROUP_SIZE inf * 30))).
Proof.
  intros M G Hg -> ->. destruct (dbc_finished_run sigcnt inf s M G) as (s' & E & R & Es & _). exists s'. split; [done |].
  split; cbn; try done; [by apply good_fresh | by rewrite Es |]. unfold err_ring. by rewrite length_fmap, length_seqZ.
Qed.

Lemma clear_report_good s q hand lost : good s q hand lost ->
  exists h, gb_data_clear_report s = Some (tt, with_links s h) /\ good (with_links s h) (fresh (q_err q)) [] [].
Proof.
  intros [R _ _]. pose proof R as [(m & L & Hm) Hh Hk Hp He Hb].
  destruct (clear_report_run s (q_err q) (base.delete tmplst (base.delete gb_free_lst (base.delete gb_trans_lst (base.delete gb_delay_lst (base.delete gb_realtm_lst m))))))
    as (h & E & R'); [by eapply rep_mem_ok | by repeat apply lists_delete_key | done | done | |].
  - intros k. destruct (decide (sentinel k)) as [Hs | Hs].
    + assert (match q_err q with e :: r => if k =? e then Some r else None | [] => None end = None) as ->.
      { destruct (q_err q) as [|e r]; [done |]. inversion_clear He as [|? ? H _]. rewrite (eqb_ne k e); [done |]. intros ->. ranges; lia. }
      apply sentinel_cases in Hs. rewrite !lookup_delete. repeat case_decide; try done. by destruct Hs as [-> | [-> | [-> | [-> | ->]]]].
    + rewrite !lookup_delete_ne, Hm by (intros <-; apply Hs; auto using sen_realtm, sen_delay, sen_trans, sen_free, sen_tmp).
      unfold list_of. by rewrite !(eqb_ne k) by (intros ->; apply Hs; auto using sen_realtm, sen_delay, sen_trans, sen_free, sen_tmp).
  - exists h. split; [done |]. by apply good_fresh.
Qed.

Lemma no_buffer_realtm n inf env uptime s q i : rep s q -> ~ avail q -> st_for (S n) i (save_realtm_one env inf uptime) s = None.
Proof.
  intros R A. cbn [st_for]. pose proof (get_buffer_run s q R) as Hb. rewrite (avail_none q A) in Hb.
  unfold save_realtm_one, mbind, st_bind. cbn. by rewrite Hb.
Qed.

Lemma no_buffer_flush s q A p v : rep s q -> ~ avail q -> q_err q = A ++ [p] -> packs s !! p = Some v -> plen v <> 0 -> flush_error_one s = None.
Proof.
  intros R Av Eq Ev Hv. destruct (rep_ring_prev s q A p R Eq) as [E _]. unfold flush_error_one. st_run. st_call E.
  st_call (pack_run s p v Ev). rewrite (proj2 (Z.eqb_neq _ _) Hv). pose proof (get_buffer_run s q R) as Hb.
  rewrite (avail_none q Av) in Hb. unfold mbind, st_bind. cbn. by rewrite Hb.
Qed.

Lemma avail_dec q : avail q \/ ~ avail q.
Proof. unfold avail. destruct (q_free q ++ q_delay q ++ q_realtm q); [right; by intros H | by left]. Qed.

(** What a step does with the packs that are not acknowledged. *)
Definition trans_moved (a : ACTION) (q q' : QUEUES) : Prop :=
  match a with
  | AckPack => q_trans q' = tl (q_trans q)
  | PutSend => exists p, q_trans q' = q_trans q ++ [p]
  | FlushSending | FirstLogin | Loaded _ => q_trans q' = []
  | _ => q_trans q' = q_trans q
  end.

Section exec.
Context (sigcnt : Z) (c : THREADS) (q : QUEUES) (I : inv sigcnt c q).

(** The step ends well, or it needs a buffer and there is none. *)
Definition done_or_stuck (a : ACTION) : Prop :=
  (exists c' q', exec a c = Some c' /\ inv sigcnt c' q' /\ trans_moved a q q') \/ (exec a c = None /\ ~ avail q).

Lemma run_inv s' q' : good s' q' (hand c) (c_lost c) -> group_at 0 (saver s') -> length (q_err q') = length (q_err q) ->
  q_tmp q' = q_tmp q -> inv sigcnt {| c with c_gb := s' |} q'.
Proof using I.
  intros G Hg He Ht. pose proof I as [_ Gi _ Hr Hf]. split; cbn; try done; [congruence |]. rewrite Ht. exact Hf.
Qed.

Lemma ring_nonempty : 0 < GROUP_SIZE (c_inf c) -> q_err q <> [] /\ (length (q_err q) <= Z.to_nat GB_MAX_ERROR)%nat.
Proof using I.
  intros Hg. pose proof (in_ring _ _ _ I) as Hr. destruct (group_max _ _ (in_inf _ _ _ I)) as [_ Hm].
  split; [intros E; rewrite E in Hr; cbn in Hr; lia | lia].
Qed.

Lemma exec_save_realtm env up : encodable sigcnt (c_inf c) env -> done_or_stuck (SaveRealtm env up).
Proof using I.
  intros EN. pose proof I as [G Gi Hg Hr Hf]. destruct (group_max _ _ Gi) as [Hg0 _].
  unfold done_or_stuck, exec, gb_data_save_realtm. destruct (Z.to_nat (GROUP_SIZE (c_inf c))) as [|n] eqn:En.
  - left. cbn. eexists _, q. split; [done |]. split; [by apply run_inv | done].
  - destruct (avail_dec q) as [A | A]; [left | right; by rewrite (no_buffer_realtm n (c_inf c) env up _ q 0 (go_rep _ _ _ _ G) A)].
    destruct (save_realtm_good sigcnt (c_inf c) env up EN (S n) (c_gb c) q _ _ 0 ltac:(lia) G A ltac:(lia)) as (s' & q' & E & G' & _ & Hk & Et & Ee & Er).
    { by rewrite nth_k_0. }
    exists {| c with c_gb := s' |}, q'. rewrite E. split; [done |]. split; [| done]. apply run_inv; [done | | congruence | done].
    rewrite <- En in Hk. by apply (group_at_0 (c_inf c)); [lia |].
Qed.

Lemma exec_save_error env up : encodable sigcnt (c_inf c) env -> done_or_stuck (SaveError env up).
Proof using I.
  intros EN. left. pose proof I as [G Gi Hg Hr Hf]. unfold exec, gb_data_save_error.
  destruct (Z.to_nat (GROUP_SIZE (c_inf c))) as [|n] eqn:En.
  - cbn. eexists _, q. split; [done |]. split; [by apply run_inv | done].
  - destruct (ring_nonempty ltac:(lia)) as [Nn _].
    destruct (save_error_good sigcnt (c_inf c) env up EN (S n) (c_gb c) q _ _ 0 ltac:(lia) G Nn ltac:(lia)) as (s' & L & E & G' & _ & Hk & HL).
    { by rewrite nth_k_0. }
    exists {| c with c_gb := s' |}, {| q with q_err := L |}. rewrite E. split; [done |]. split; [| done]. apply run_inv; [done | | done | done].
    rewrite <- En in Hk. by apply (group_at_0 (c_inf c)); [lia |].
Qed.

Lemma exec_flush_start : c_flush c = None -> done_or_stuck FlushStart.
Proof using I.
  intros Ef. left. pose proof I as [G Gi Hg Hr Hf]. pose proof G as [R C O]. unfold exec. rewrite Ef in Hf.
  destruct (init_tmp_run _ q R) as (h & E & R1). rewrite E. cbn [mbind option_bind].
  assert (good (with_links (c_gb c) h) {| q with q_tmp := Some [] |} (hand c) (c_lost c)) as G1.
  { split; [done | | by destruct O]. eapply conserved_iff; [| exact C]. destruct q. cbn in Hf. subst. done. }
  cbn [gb_errlst_head with_links]. destruct (Z.eqb_spec (gb_errlst_head (c_gb c)) 0) as [E0 | E0].
  - eexists _, q. split; [done |]. split; [| done]. split; cbn; try done. apply rep_drop_tmp in R1.
    assert ({| q with q_tmp := None |} = q) as Eq by (destruct q; cbn in *; by subst).
    split; [cbn in R1; by rewrite Eq in R1 | done | done].
  - eexists _, {| q with q_tmp := Some [] |}. split; [done |]. split; [| done]. split; cbn; try done. split; [by eexists |].
    rewrite (rep_head _ _ R) in E0. destruct (q_err q); [done |]. cbn in Hr. lia.
Qed.

Lemma exec_flush_one : c_flush c = Some true -> done_or_stuck FlushOne.
Proof using I.
  intros Ef. pose proof I as [G Gi Hg Hr Hf]. unfold done_or_stuck, exec. rewrite Ef in Hf. destruct Hf as [[t Et] Hp].
  destruct (ring_nonempty Hp) as [Nn _]. destruct (avail_dec q) as [A | A].
  - left. destruct (flush_one_good _ q _ _ t G Nn Et A) as (s' & q' & more & E & G' & _ & Es & Ht & He & Er). rewrite E.
    eexists _, q'. split; [done |]. split; [| done]. split; cbn; try done; [by rewrite Es | congruence].
  - destruct (q_err q) as [|p L _] eqn:Eq using rev_ind; [done |]. pose proof (go_rep _ _ _ _ G) as R.
    pose proof (rep_err _ _ R) as He. rewrite Eq in He. apply Forall_app in He as [_ He]. inversion_clear He as [|? ? Hpe _].
    destruct (rep_packs _ _ R p ltac:(by right)) as (v & Ev & _). destruct (decide (plen v = 0)) as [Hv | Hv].
    + left. rewrite (flush_one_stop _ q L p v R Eq Ev Hv). eexists _, q. split; [done |]. split; [| done].
      split; cbn; try done. by rewrite Eq.
    + right. by rewrite (no_buffer_flush _ q L p v R A Eq Ev Hv).
Qed.

Lemma exec_flush_append : c_flush c = Some false -> done_or_stuck FlushAppend.
Proof using I.
  intros Ef. left. pose proof I as [G Gi Hg Hr Hf]. unfold exec. rewrite Ef in Hf. destruct Hf as [[t Et] _].
  destruct (append_good _ q _ _ t G Et) as (h & E & G'). rewrite E. eexists _, _. split; [done |]. split; [by split | done].
Qed.

Lemma exec_flush_realtm : done_or_stuck FlushRealtm.
Proof using I.
  left. pose proof I as [G Gi Hg Hr Hf]. unfold exec, gb_data_flush_realtm.
  destruct (flush_realtm_good (q_realtm q) (c_gb c) q _ _ (S (Z.to_nat GB_MAX_REPORT)) G eq_refl) as (s' & E & _ & Es & G').
  { apply Nat.lt_succ_r. eapply buf_count; [apply (go_bufs _ _ _ _ G) | by apply (list_of_bufs _ gb_realtm_lst); [apply sen_realtm |] |].
    pose proof (conserved_nodup _ _ (go_bufs _ _ _ _ G)) as ND. unfold bufs in ND. rewrite <- !app_assoc in ND. by apply NoDup_app_remove_r in ND. }
  eexists _, _. rewrite E. split; [done |]. split; [apply run_inv; [exact G' | by rewrite Es | done | done] | done].
Qed.

Lemma exec_loaded inf : c_flush c = None -> c_hand c = None -> gb_info_ok sigcnt inf -> done_or_stuck (Loaded inf).
Proof using I.
  intros Ef Eh Gn. left. pose proof I as [G Gi Hg Hr Hf]. unfold exec.
  destruct (fresh_inv sigcnt (c_gb c) inf None [] (rep_mem_ok _ _ (go_rep _ _ _ _ G)) Gn Hg eq_refl eq_refl) as (s' & E & I').
  rewrite E. eexists _, _. split; [done |]. rewrite Ef, Eh. split; [exact I' | done].
Qed.

Lemma hand_inv s' q' p lost : good s' q' (match p with Some p => [p] | None => [] end) lost -> saver s' = saver (c_gb c) ->
  length (q_err q') = length (q_err q) -> q_tmp q' = q_tmp q ->
  inv sigcnt {| c_gb := s'; c_inf := c_inf c; c_hand := p; c_lost := lost; c_flush := c_flush c |} q'.
Proof using I.
  intros G Es He Ht. pose proof I as [_ Gi Hg Hr Hf]. split; cbn; try done; [by rewrite Es | congruence |]. rewrite Ht. exact Hf.
Qed.

Lemma get_pack_keeps b : q_err (snd (spec_get_pack b q)) = q_err q /\ q_tmp (snd (spec_get_pack b q)) = q_tmp q /\
  q_trans (snd (spec_get_pack b q)) = q_trans q.
Proof using I. destruct q as [rt dl tr fr tm er]. unfold spec_get_pack. cbn [q_realtm]. by destruct rt, b. Qed.

Lemma exec_get_pack : c_hand c = None -> done_or_stuck GetPack.
Proof using I.
  intros Eh. left. pose proof I as [G Gi Hg Hr Hf]. unfold exec. unfold hand in G. rewrite Eh in G.
  destruct (get_pack_good _ q _ _ G) as (h & E & G'). rewrite E.
  destruct (get_pack_keeps (gb_emerg (c_gb c))) as (Ee & Et & Er). destruct (spec_get_pack _ q) as [[p|] q']; cbn [fst snd] in *.
  - eexists _, q'. split; [done |]. split; [| exact Er]. apply hand_inv; [exact G' | done | congruence | congruence].
  - destruct G' as [-> G']. eexists _, q. split; [done |]. split; [| done]. apply hand_inv; [exact G' | done | congruence | congruence].
Qed.

Lemma exec_hand p : c_hand c = Some p -> done_or_stuck PutBack /\ done_or_stuck PutSend /\ done_or_stuck LosePack.
Proof using I.
  intros Eh. pose proof I as [G Gi Hg Hr Hf]. unfold done_or_stuck, exec. unfold hand in G. rewrite Eh in G |- *.
  split; [| split]; left; cbn [mbind option_bind].
  - destruct (put_back_good _ q p _ _ G) as (h & E & G'). rewrite E. eexists _, _. split; [done |]. split; [by apply hand_inv | done].
  - destruct (put_send_good _ q p _ _ G) as (h & E & G'). rewrite E. eexists _, _. split; [done |]. split; [by apply hand_inv | by eexists].
  - eexists _, q. split; [done |]. split; [| done]. apply hand_inv; try done. destruct G as [R C O]. split; try done.
    destruct O as [H1 H2 H3 H4]. split; try done. rewrite app_nil_r. by apply Forall_app in H4 as [H4 _].
Qed.

Lemma exec_ack : done_or_stuck AckPack.
Proof using I.
  left. pose proof I as [G Gi Hg Hr Hf]. unfold exec. destruct (ack_good _ q _ _ G) as (h & E & G'). rewrite E.
  eexists _, _. split; [done |]. split; [by apply run_inv | done].
Qed.

Lemma exec_flush_sending : done_or_stuck FlushSending.
Proof using I.
  left. pose proof I as [G Gi Hg Hr Hf]. unfold exec, gb_data_flush_sending.
  destruct (flush_sending_good (q_trans q) _ q _ _ (S (Z.to_nat GB_MAX_REPORT)) G eq_refl) as (h & E & G').
  { apply Nat.lt_succ_r. eapply buf_count; [apply (go_bufs _ _ _ _ G) | by apply (list_of_bufs _ gb_trans_lst); [apply sen_trans |] |].
    pose proof (conserved_nodup _ _ (go_bufs _ _ _ _ G)) as ND. unfold bufs in ND. rewrite <- !app_assoc in ND.
    by apply NoDup_app_remove_l, NoDup_app_remove_l, NoDup_app_remove_r in ND. }
  rewrite E. eexists _, _. split; [done |]. split; [by apply run_inv | done].
Qed.

Lemma exec_first_login : c_flush c = None -> c_hand c = None -> done_or_stuck FirstLogin.
Proof using I.
  intros Ef Eh. left. pose proof I as [G Gi Hg Hr Hf]. unfold exec. destruct (clear_report_good _ q _ _ G) as (h & E & G1).
  destruct (group_max _ _ Gi) as [_ Hm].
  destruct (clear_error_good _ _ _ _ G1) as (s2 & E2 & G2 & _ & Es & _); [cbn [q_err fresh]; lia |].
  st_call E. rewrite E2. eexists _, _. split; [done |]. rewrite Eh, Ef. split; [split; cbn; [exact G2 | done | by rewrite Es | done | done] | done].
Qed.

Lemma exec_emergence b : done_or_stuck (Emergence b).
Proof using I.
  left. pose proof I as [G Gi Hg Hr Hf]. eexists _, q. split; [done |]. split; [| done]. apply run_inv; try done.
  destruct G as [R C O]. split; try done. eapply rep_same; [exact R | done | done | apply (rep_packs _ _ R)].
Qed.

Lemma exec_inv a : enabled sigcnt a c -> collides a c = false -> done_or_stuck a.
Proof using I.
  destruct a; cbn [enabled collides];
    lazymatch goal with |- _ -> false = false -> _ => intros En _; revert En | _ => idtac end.
  - intros [_ H]. by apply exec_save_realtm.
  - intros [_ H]. by apply exec_save_error.
  - apply exec_flush_start.
  - apply exec_flush_one.
  - apply exec_flush_append.
  - intros _. apply exec_flush_realtm.
  - intros [H1 H2] H3%bool_decide_eq_false. apply exec_loaded; [done | by apply eq_None_not_Some | done].
  - apply exec_get_pack.
  - intros [p Hp]. by apply (exec_hand p).
  - intros [p Hp]. by apply (exec_hand p).
  - intros [p Hp]. by apply (exec_hand p).
  - intros _. apply exec_ack.
  - intros _. apply exec_flush_sending.
  - intros H1 H2%bool_decide_eq_false. apply exec_first_login; [by apply eq_None_not_Some | done].
  - intros _. apply exec_emergence.
Qed.

(** A step is defined even when it collides. *)
Lemma exec_defined a : enabled sigcnt a c -> is_Some (exec a c) \/ ~ avail q.
Proof using I.
  intros En. destruct (collides a c) eqn:Hc.
  - left. pose proof I as [G Gi Hg Hr Hf]. destruct a as [| | | | | |inf | | | | | | | |]; try done; unfold exec.
    + destruct (dbc_finished_run sigcnt inf (c_gb c) (rep_mem_ok _ _ (go_rep _ _ _ _ G)) (proj2 En)) as (s' & E & _).
      rewrite E. by eexists.
    + destruct (clear_report_good _ q _ _ G) as (h & E & G1). destruct (group_max _ _ Gi) as [_ Hm].
      destruct (clear_error_good _ _ _ _ G1) as (s2 & E2 & _); [cbn [q_err fresh]; lia |].
      st_call E. rewrite E2. by eexists.
  - destruct (exec_inv a En Hc) as [(c' & _ & E & _) | [_ A]]; [left; rewrite E; by eexists | by right].
Qed.
End exec.

Lemma reach_inv sigcnt c : reach sigcnt false c -> exists q, inv sigcnt c q.
Proof.
  intros H. remember false as hit eqn:Hh. revert Hh.
  induction H as [s inf s' M G Hg E | hit c a c' _ IH En Ex]; intros Hh;
    [| apply orb_false_iff in Hh as [-> Hc]; destruct (IH eq_refl) as [q I]].
  - destruct (fresh_inv sigcnt s inf None [] M G Hg eq_refl eq_refl) as (s2 & E2 & I). rewrite E in E2. injection E2 as <-. by eexists.
  - destruct (exec_inv sigcnt c q I a En Hc) as [(c2 & q2 & E2 & I2 & _) | [E2 _]]; rewrite Ex in E2; [injection E2 as <-; by exists q2 | done].
Qed.

(** C27: The queues survive every interleaving of the two threads in which no thread
    clears them (a database is loaded, the first login) while the other one holds a
    pack or runs an error flush: the four lists, the temporary list of a running
    error flush and the ring are well-formed lists of distinct packs, every one of
    the 2000 packs is in exactly one place (a list, the hands of the protocol
    thread, or dropped by it), and every report waits in the list that its pack
    names.  Databases are accepted ones, the values of the signals are such that
    the conversions can hold them.  [gb_queues_collision] shows that the condition
    is needed. *)
Theorem gb_queues_conserved sigcnt c : reach sigcnt false c ->
  exists q, rep (c_gb c) q /\ Permutation (bufs q ++ hand c ++ c_lost c) all_bufs /\ List.NoDup (bufs q ++ hand c ++ c_lost c) /\
    owned (packs (c_gb c)) q (hand c) /\ length (q_err q) = Z.to_nat (GROUP_SIZE (c_inf c) * 30) /\ List.NoDup (q_err q).
Proof.
  intros [q [[R C O] _ _ Hr _]]%reach_inv. exists q. split; [done |]. split; [exact C |]. split; [by apply conserved_nodup |].
  split; [done |]. split; [done |]. by eapply err_nodup.
Qed.

(** C36: After an interleaving without such a collision, every next step of either
    thread (a collision included) is defined, so it neither follows a bad link nor
    runs into the endless loop, or no pack is free or unsent: all 2000 are in
    flight.  Databases and values are those of the previous theorem. *)
Theorem gb_queues_progress sigcnt c a : reach sigcnt false c -> enabled sigcnt a c ->
  is_Some (exec a c) \/
  exists q, rep (c_gb c) q /\ q_free q = [] /\ q_delay q = [] /\ q_realtm q = [] /\
    (length (q_trans q) + length (default [] (q_tmp q)) + length (hand c) + length (c_lost c) = Z.to_nat GB_MAX_REPORT)%nat.
Proof.
  intros [q I]%reach_inv En. destruct (exec_defined sigcnt c q I a En) as [E | A]; [by left | right].
  exists q. pose proof I as [[R C _] _ _ _ _]. split; [done |]. apply avail_none in A.
  destruct q as [rt dl tr fr tm er]. unfold spec_get_buffer in A. cbn in A.
  destruct fr; [| done]. destruct dl; [| done]. destruct rt; [| done]. do 3 (split; [done |]).
  unfold conserved in C. apply Permutation_length in C. unfold all_bufs in C. rewrite length_fmap, length_seqZ in C.
  unfold bufs in C. cbn in C. rewrite <- C, !length_app. cbn. lia.
Qed.

(** ** A run of both threads *)

Fixpoint exec_all (l : list ACTION) (c : THREADS) : option THREADS :=
  match l with [] => Some c | a :: l => c ← exec a c; exec_all l c end.

Definition demo_start (s : GB) : THREADS := {| c_gb := s; c_inf := demo_info; c_hand := None; c_lost := []; c_flush := None |}.

Lemma demo_loaded : exists s, dbc_finished demo_info gb0 = Some (tt, s) /\ reach 7 false (demo_start s).
Proof.
  destruct (dbc_finished_run 7 demo_info gb0 gb0_mem_ok demo_info_ok) as (s & E & _). exists s. split; [done |].
  eapply reach_loaded; [apply gb0_mem_ok | apply demo_info_ok | | exact E]. by split.
Qed.

(** A report is made and taken to be sent while an error flush runs. *)
Definition demo_run : list ACTION := [SaveRealtm demo_env 1; FlushStart; GetPack].

Lemma exec_all_cons a l c c' : exec_all (a :: l) c = Some c' -> exists c1, exec a c = Some c1 /\ exec_all l c1 = Some c'.
Proof. cbn [exec_all]. destruct (exec a c) as [c1|]; [| done]. intros H. by exists c1. Qed.

Lemma exec_run_flush env up c c' : exec (SaveRealtm env up) c = Some c' -> c_flush c' = c_flush c /\ c_hand c' = c_hand c.
Proof. cbn [exec]. destruct (gb_data_save_realtm _ _ _ _) as [[? ?]|]; [| done]. by intros [= <-]. Qed.

Lemma exec_start_hand c c' : exec FlushStart c = Some c' -> c_hand c' = c_hand c.
Proof. cbn [exec]. destruct (on_links _ _) as [[? ?]|]; [| done]. by intros [= <-]. Qed.

Definition flag_eqb (a b : option bool) : bool := match a, b with Some x, Some y => eqb x y | None, None => true | _, _ => false end.

Lemma flag_eqb_eq a b : flag_eqb a b = true -> a = b.
Proof. by destruct a as [[]|], b as [[]|]. Qed.

Definition demo_ok (r : option (unit * GB)) : bool :=
  match r with
  | Some (_, s) =>
      match exec_all demo_run (demo_start s) with
      | Some c => flag_eqb (c_flush c) (Some true) && match c_hand c with Some p => p =? 16 | None => false end
      | None => false
      end
  | None => false
  end.

Lemma demo_ok_inv s : demo_ok (Some (tt, s)) = true ->
  exists c, exec_all demo_run (demo_start s) = Some c /\ c_flush c = Some true /\ is_Some (c_hand c).
Proof.
  unfold demo_ok. generalize (exec_all demo_run (demo_start s)). intros [c|]; [| done].
  intros [H1 H2]%andb_true_iff. exists c. split; [done |]. split; [by apply flag_eqb_eq |].
  destruct (c_hand c); [by eexists | done].
Qed.

Lemma demo_ok_true : demo_ok (dbc_finished demo_info gb0) = true.
Proof. vm_compute. reflexivity. Qed.

Lemma demo_steps : exists c, reach 7 false c /\ c_flush c = Some true /\ is_Some (c_hand c).
Proof.
  pose proof demo_ok_true as H. destruct demo_loaded as (s & E & Hs). rewrite E in H.
  apply demo_ok_inv in H as (c3 & E3 & H1 & H2). unfold demo_run in E3.
  apply exec_all_cons in E3 as (c1 & E1 & E3). apply exec_all_cons in E3 as (c2 & E2 & E3).
  apply exec_all_cons in E3 as (c4 & E4 & [= ->]).
  pose proof (exec_run_flush _ _ _ _ E1) as [F1 G1]. pose proof (exec_start_hand _ _ E2) as G2.
  assert (reach 7 false c1) as R1 by (eapply (reach_quiet 7 (SaveRealtm demo_env 1)); [exact Hs | split; [done | apply demo_encodable] | done | exact E1]).
  assert (reach 7 false c2) as R2 by (eapply (reach_quiet 7 FlushStart); [exact R1 | exact F1 | done | exact E2]).
  exists c3. split; [eapply (reach_quiet 7 GetPack); [exact R2 | cbn [enabled]; by rewrite G2, G1 | done | exact E4] |]. by split.
Qed.

Lemma gb_queues_conserved_witness : exists c q, rep (c_gb c) q /\ c_flush c = Some true /\ length (hand c) = 1%nat /\
  Permutation (bufs q ++ hand c ++ c_lost c) all_bufs.
Proof.
  destruct demo_steps as (c & H & Hf & [p Hp]). destruct (gb_queues_conserved 7 c H) as (q & R & P & _).
  exists c, q. split; [exact R |]. split; [exact Hf |]. split; [unfold hand; rewrite Hp; reflexivity | exact P].
Defined.

Lemma gb_queues_progress_witness : exists c, c_flush c = Some true /\
  (is_Some (exec FlushOne c) \/ exists q, rep (c_gb c) q /\ q_free q = []).
Proof.
  destruct demo_steps as (c & H & Hf & _). exists c. split; [exact Hf |].
  destruct (gb_queues_progress 7 c FlushOne H Hf) as [H1 | (q & R & Hq & _)]; [left; exact H1 | right; exists q; split; [exact R | exact Hq]].
Defined.

(** *** A collision *)

(** A database is loaded while a pack is being sent. *)
Definition collision_run : list ACTION := [SaveRealtm demo_env 1; GetPack; Loaded demo_info; PutSend].

(** The first pack follows the heads of two lists. *)
Definition linked_twice (c : THREADS) : bool :=
  bool_decide (get_next (links (c_gb c)) gb_free_lst = Some 16) && bool_decide (get_next (links (c_gb c)) gb_trans_lst = Some 16).

Definition collision_ok (r : option (unit * GB)) : bool :=
  match r with
  | Some (_, s) => match exec_all collision_run (demo_start s) with Some c => linked_twice c | None => false end
  | None => false
  end.

Lemma collision_ok_true : collision_ok (dbc_finished demo_info gb0) = true.
Proof. vm_compute. reflexivity. Qed.

Lemma collision_ok_inv s : collision_ok (Some (tt, s)) = true ->
  exists c, exec_all collision_run (demo_start s) = Some c /\ linked_twice c = true.
Proof. unfold collision_ok. generalize (exec_all collision_run (demo_start s)). intros [c|]; [by exists c | done]. Qed.

Lemma exec_get_flush c c' : exec GetPack c = Some c' -> c_flush c' = c_flush c.
Proof. cbn [exec]. destruct (gb_data_get_pack _) as [[? ?]|]; [| done]. by intros [= <-]. Qed.

Lemma exec_loaded_hand inf c c' : exec (Loaded inf) c = Some c' -> c_hand c' = c_hand c.
Proof. cbn [exec]. destruct (dbc_finished _ _) as [[? ?]|]; [| done]. by intros [= <-]. Qed.

Lemma exec_put_hand c c' : exec PutSend c = Some c' -> is_Some (c_hand c).
Proof. cbn [exec]. destruct (c_hand c); [by eexists | done]. Qed.

(** Only one head has [x] after it. *)
Lemma one_head s q x : rep s q -> get_next (links s) gb_free_lst = Some x -> get_next (links s) gb_trans_lst = Some x -> False.
Proof.
  intros [(m & L & Hm) _ _ _ _ _] H1 H2.
  assert (forall l xs, m !! l = Some xs -> get_next (links s) l = Some x -> get_prev (links s) x = Some l) as Hp.
  { intros l xs El Hn. pose proof (ring_chain _ _ _ (lo_ring _ _ L _ _ El)) as Hc. destruct xs as [|y xs]; cbn [chain] in Hc.
    - destruct Hc as [Hc ?]. congruence.
    - destruct Hc as [[Hc ?] _]. congruence. }
  pose proof (Hp gb_free_lst (q_free q) ltac:(by rewrite Hm) H1). pose proof (Hp gb_trans_lst (q_trans q) ltac:(by rewrite Hm) H2). unfold gb_free_lst, gb_trans_lst in *. congruence.
Qed.

(** With a collision the lists are not well formed: a pack is free and waits for its
    acknowledgement. *)
Lemma gb_queues_collision : exists c, reach 7 true c /\
  get_next (links (c_gb c)) gb_free_lst = Some 16 /\ get_next (links (c_gb c)) gb_trans_lst = Some 16 /\ ~ exists q, rep (c_gb c) q.
Proof.
  pose proof collision_ok_true as H. destruct demo_loaded as (s & E & Hs). rewrite E in H.
  apply collision_ok_inv in H as (c4 & E4 & [H1%bool_decide_eq_true H2%bool_decide_eq_true]%andb_true_iff). unfold collision_run in E4.
  apply exec_all_cons in E4 as (c1 & E1 & E4). apply exec_all_cons in E4 as (c2 & E2 & E4).
  apply exec_all_cons in E4 as (c3 & E3 & E4). apply exec_all_cons in E4 as (c5 & E5 & [= ->]).
  pose proof (exec_run_flush _ _ _ _ E1) as [F1 G1]. pose proof (exec_get_flush _ _ E2) as F2.
  pose proof (exec_loaded_hand _ _ _ E3) as G3. pose proof (exec_put_hand _ _ E5) as G4.
  assert (reach 7 false c1) as R1 by (eapply (reach_quiet 7 (SaveRealtm demo_env 1)); [exact Hs | split; [done | apply demo_encodable] | done | exact E1]).
  assert (reach 7 false c2) as R2 by (eapply (reach_quiet 7 GetPack); [exact R1 | exact G1 | done | exact E2]).
  assert (reach 7 true c3) as R3.
  { assert (collides (Loaded demo_info) c2 = true) as Hc by (apply bool_decide_eq_true; by rewrite <- G3).
    rewrite <- (orb_true_r false), <- Hc. apply (reach_step 7 false c2); [exact R2 | split; [by rewrite F2, F1 | apply demo_info_ok] | exact E3]. }
  exists c4. split; [apply (reach_step 7 true c3 PutSend); [exact R3 | exact G4 | exact E5] |]. do 2 (split; [done |]).
  intros [q R]. exact (one_head _ q 16 R H1 H2).
Qed.

(** Two reports wait, the first is sent and acknowledged, the second only sent. *)
Lemma gb_unsent_restored_witness : exists s q h, length (q_realtm q) = 2%nat /\
  (send_ops [SendNext; SendNext; SendAcked];; gb_data_flush_sending) s = Some (tt, with_links s h) /\
  rep (with_links s h) {| q with q_realtm := drop 1 (q_realtm q); q_delay := q_delay q; q_free := q_free q ++ take 1 (to_send q) |}.
Proof.
  destruct (dbc_finished_run 7 demo_info gb0 gb0_mem_ok demo_info_ok) as (s0 & E0 & R0 & Es & Est & _).
  set (n := GROUP_SIZE demo_info * 30) in *.
  assert (length all_bufs = 2000%nat) as HA by (vm_compute; reflexivity).
  destruct (save_realtm_content 7 demo_info demo_env 1 demo_encodable ltac:(vm_compute; reflexivity) 2 s0 _ [] 0 R0 (conserved_fresh _))
    as (s1 & ls & sv & E1 & _ & _ & Est1 & R1 & C1 & F1 & _).
  { cbn [q_free fresh]. rewrite HA. lia. } { lia. } { rewrite Es. split; reflexivity. }
  set (f := fresh (err_ring n)) in *. set (q := {| f with q_realtm := q_realtm f ++ take 2 (q_free f); q_free := drop 2 (q_free f) |}) in *.
  assert (length (q_realtm q) = 2%nat) as HL by (change (length (take 2 all_bufs) = 2%nat); by rewrite length_take, HA).
  assert (good s1 q [] []) as G1.
  { split; [exact R1 | exact C1 |]. split; [| apply Forall_nil_2 ..]. change (Forall (own (packs s1) gb_realtm_lst) (take 2 (q_free f))).
    eapply Forall2_Forall_l; [exact F1 | apply Forall_forall]. intros l _ x (v & Ev & [_ _ _ Hv]). exists v. split; [exact Ev | exact Hv]. }
  assert (gb_emerg s1 = false) as Em.
  { assert (gb_emerg s0 = gb_emerg gb0) as H0 by (unfold statics in Est; congruence).
    assert (gb_emerg s1 = gb_emerg s0) as H1 by (unfold statics in Est1; congruence). by rewrite H1, H0. }
  destruct (gb_unsent_restored q [SendNext; SendNext; SendAcked] [] s1 G1 eq_refl Em) as (h & E & R).
  exists s1, q, h. split; [exact HL |]. split; [exact E |].
  assert (acked (length (to_send q)) 0 [SendNext; SendNext; SendAcked] = 1%nat) as Ea.
  { unfold to_send. rewrite length_app, HL. reflexivity. }
  rewrite Ea, HL in R. exact R.
Defined.
