(* ===== verification/Sock.v ===== *)
(** * Sockets

    One entry of the table of src/app/base/sock/sock.c: the states of a connection
    and, for a synchronised TCP socket, the list of messages that were given to the
    kernel and are not acknowledged by the peer.  The results of the system calls
    are arguments; [None] is undefined behaviour. *)

From stdpp Require Import gmap.
From S2P Require Import Prelude Clist.

Definition SOCK_MAX_SYNC : Z := 40.
Definition SOCK_SEND_TIMEOUT : Z := 3000.
Definition SOCK_ACK_TIMEOUT : Z := 15000.

Inductive sock_stat_t := SOCK_STAT_UNUSED | SOCK_STAT_CLOSED | SOCK_STAT_OPENED | SOCK_STAT_INPROG.
Inductive sock_type_t := SOCK_TYPE_INVAL | SOCK_TYPE_TCP | SOCK_TYPE_UDP | SOCK_TYPE_SYNCTCP.

#[export] Instance sock_stat_eq_dec : EqDecision sock_stat_t.
Proof. solve_decision. Defined.
#[export] Instance sock_type_eq_dec : EqDecision sock_type_t.
Proof. solve_decision. Defined.

(** ** State *)

(** The addresses of the list heads and of the links in [sync_mem]. *)
Definition sync_free : Z := 1.
Definition sync_back : Z := 2.
Definition sync_used : Z := 3.
Definition sync_node (i : Z) : Z := 8 + i.

(** [sync_t]; [m_sync] is the callback, [0] for the null pointer. *)
Record sync_t := { m_len : Z; m_sync : Z; m_owner : Z }.

(** [sock_t]; [tid] tells whether there is a thread, [out] holds the bytes that the
    kernel accepted on this connection. *)
Record SOCK := {
  type : sock_type_t; stat : sock_stat_t;
  chcktime : Z; linktime : Z; sendtime : Z; connect_failtimes : Z;
  sockfd : Z; url : list Z; port : Z; sendsz : Z; tid : bool;
  sync_links : LINKS; sync_mem : gmap Z sync_t;
  out : list Z
}.

Abbreviation SM := (ST SOCK).

(** [int] arithmetic. *)
Definition int (z : Z) : option Z := if (- 2 ^ 31 <=? z) && (z <? 2 ^ 31) then Some z else None.

Definition on_sync (f : LINKS -> option LINKS) : SM unit :=
  s ← st_get; h ← st_lift (f (sync_links s)); st_mod (fun s => {| s with sync_links := h |}).
Definition sync_empty (l : Z) : SM bool := s ← st_get; st_lift (list_empty (sync_links s) l).
Definition sync_first (l : Z) : SM (option Z) :=
  s ← st_get; '(r, h) ← st_lift (list_get_first (sync_links s) l); st_mod (fun s => {| s with sync_links := h |});; mret r.
Definition sync_entry (x : Z) : SM sync_t := s ← st_get; st_lift (sync_mem s !! x).
Definition set_entry (x : Z) (v : sync_t) : SM unit := st_mod (fun s => {| s with sync_mem := <[x := v]> (sync_mem s) |}).
Definition set_stat (v : sock_stat_t) : SM unit := st_mod (fun s => {| s with stat := v |}).

(** ** Operations *)

Definition sock_status : SM sock_stat_t := st_gets stat.

(** [err] is what [getsockopt] gives, if it succeeds. *)
Definition sock_error (err : option Z) : SM Z :=
  s ← st_get;
  if decide (stat s = SOCK_STAT_UNUSED) then mret (-1)
  else mret (match err with Some e => e | None => -1 end).

(** [outq] is the number of bytes that are not acknowledged, if [ioctl] succeeds;
    the second result is the function that is called at the end. *)
Definition sock_sync (outq : option Z) : SM (Z * Z) :=
  s ← st_get;
  if negb (bool_decide (stat s = SOCK_STAT_OPENED)) then mret (-1, 0)
  else if negb (bool_decide (type s = SOCK_TYPE_SYNCTCP)) then mret (0, 0)
  else
    match outq with
    | None => mret (-1, 0)
    | Some unacksz =>
        e ← sync_empty sync_used;
        if (e : bool) then mret (0, 0)
        else
          x ← st_lift (get_next (sync_links s) sync_used);
          v ← sync_entry x; d ← st_lift (int (sendsz s - unacksz));
          if m_len v <=? d then
            n ← st_lift (int (sendsz s - m_len v));
            st_mod (fun s => {| s with sendsz := n |});;
            on_sync (fun h => list_delete h x);;
            on_sync (fun h => list_insert_before h (m_owner v) x);;
            mret (0, m_sync v)
          else mret (0, 0)
    end.

Definition sock_bufsz (buffsz outq : option Z) : SM Z :=
  s ← st_get;
  if negb (bool_decide (stat s = SOCK_STAT_OPENED)) then mret (-1)
  else
    match buffsz, outq with
    | Some b, Some u => st_lift (int (b - u))
    | _, _ => mret (-1)
    end.

(** The loop of [send]: each result is the number of bytes that were accepted, [0]
    to try again, or negative for an error; the list ends when the time is over. *)
Fixpoint send_loop (sends : list Z) (buf : list Z) (len wrl : Z) : SM (option Z) :=
  if len - wrl <=? 0 then mret (Some wrl)
  else
    match sends with
    | [] => mret (Some wrl)
    | res :: sends =>
        if res <? 0 then mret None
        else
          st_mod (fun s => {| s with out := out s ++ take (Z.to_nat res) (drop (Z.to_nat wrl) buf) |});;
          send_loop sends buf len (wrl + res)
    end.

(** An entry for a message: a reserved one only without a callback. *)
Definition sync_take (sync : Z) : SM (option Z) :=
  node ← (if negb (sync =? 0) then mret None else sync_first sync_back);
  match node with Some x => mret (Some x) | None => sync_first sync_free end.

Definition sync_push (x len sync : Z) : SM unit :=
  s ← st_get; n ← st_lift (int (sendsz s + len));
  st_mod (fun s => {| s with sendsz := n |});;
  v ← sync_entry x;
  set_entry x {| v with m_len := len; m_sync := sync |};;
  on_sync (fun h => list_insert_before h sync_used x).

(** No entry is left. *)
Definition sync_full (sync : Z) : SM bool :=
  s ← st_get;
  if bool_decide (type s = SOCK_TYPE_SYNCTCP) then
    f ← sync_empty sync_free;
    if (f : bool) then (if negb (sync =? 0) then mret true else sync_empty sync_back) else mret false
  else mret false.

(** [sync] is the callback; [now] the time. *)
Definition sock_send (sends : list Z) (now : Z) (buf : list Z) (len sync : Z) : SM Z :=
  s ← st_get;
  if negb (bool_decide (stat s = SOCK_STAT_OPENED)) then mret (-1)
  else
    full ← sync_full sync;
    if (full : bool) then mret (if SOCK_ACK_TIMEOUT <? u64 (now - sendtime s) then -1 else 0)
    else
      r ← send_loop sends buf len 0;
      match r with
      | None => mret (-1)
      | Some wrl =>
          if negb (wrl =? len) then mret (-1)
          else
            st_when (bool_decide (type s = SOCK_TYPE_SYNCTCP))
              (node ← sync_take sync;
               x ← st_lift node;                       (* the null pointer is used *)
               sync_push x len sync);;
            st_mod (fun s => {| s with sendtime := now |});;
            mret len
      end.

(** [res]: the bytes that [recv] gives, or [None] for an error; [again] tells
    whether the error is EINTR or EAGAIN. *)
Definition sock_recv (res : option (list Z)) (again : bool) : SM (Z * list Z) :=
  s ← st_get;
  if negb (bool_decide (stat s = SOCK_STAT_OPENED)) then mret (-1, [])
  else
    match res with
    | Some [] => mret (-1, [])
    | Some l => mret (len l, l)
    | None => mret (if again then 0 else -1, [])
    end.

(** ** Opening and closing *)

Definition sock_finish (fd : Z) (st : sock_stat_t) (now : Z) : SM unit :=
  set_stat st;;
  st_when (bool_decide (st = SOCK_STAT_OPENED))
    (st_mod (fun s => {| s with chcktime := now; sendtime := 0; sockfd := fd; connect_failtimes := 0 |}));;
  s ← st_get;
  n ← st_lift (if decide (st = SOCK_STAT_CLOSED) then int (connect_failtimes s + 1) else Some (connect_failtimes s));
  st_mod (fun s => {| s with connect_failtimes := n; tid := false |}).

(** The nodes from [i] on get the list [l]. *)
Definition cleanup_nodes (n : nat) (i l : Z) : SM unit :=
  st_for n i (fun i =>
    v ← sync_entry (sync_node i);
    set_entry (sync_node i) {| v with m_owner := l |};;
    on_sync (fun h => list_insert_before h l (sync_node i))).

Definition SOCK_MAX_URLLEN : Z := 256.

Definition sock_cleanup (u : list Z) (p : Z) : SM unit :=
  st_mod (fun s => {| s with url := take (Z.to_nat (SOCK_MAX_URLLEN - 1)) u; port := p; tid := false; sockfd := -1; out := [] |});;
  s ← st_get;
  st_when (bool_decide (type s = SOCK_TYPE_SYNCTCP))
    (st_mod (fun s => {| s with sendsz := 0 |});;
     on_sync (fun h => list_init h sync_free);;
     on_sync (fun h => list_init h sync_back);;
     on_sync (fun h => list_init h sync_used);;
     let back := SOCK_MAX_SYNC / 10 in
     cleanup_nodes (Z.to_nat back) 0 sync_back;;
     cleanup_nodes (Z.to_nat (SOCK_MAX_SYNC - back)) back sync_free).

(** [created] is the result of [pthread_create], 0 or a positive error.  Only a
    negative one is taken as a failure, so after an error the socket is in progress
    without a thread. *)
Definition sock_open (created : Z) (u : list Z) (p : Z) : SM Z :=
  s ← st_get;
  match stat s with
  | SOCK_STAT_CLOSED =>
      sock_cleanup u p;;
      if created <? 0 then set_stat SOCK_STAT_CLOSED;; mret (-1)
      else st_mod (fun s => {| s with tid := true; stat := SOCK_STAT_INPROG |});; mret 0
  | _ => mret (-1)
  end.

Definition sock_close (now : Z) : SM Z :=
  s ← st_get;
  st_when (bool_decide (stat s = SOCK_STAT_OPENED))
    (st_mod (fun s => {| s with tid := false; linktime := u64 (linktime s + (now - chcktime s)); stat := SOCK_STAT_CLOSED; sockfd := -1 |}));;
  mret 0.

(** ** The list of unacknowledged messages *)

(** A message that was accepted: its length, its callback, and whether it took one
    of the reserved entries. *)
Record ENTRY := { e_len : Z; e_cb : Z; e_back : bool }.

(** What a synchronised socket promises: [hist] are all messages of the connection,
    of which the first [ndone] were acknowledged; [last] is the time of the last. *)
Record SYNCQ := { hist : list ENTRY; ndone : nat; last : Z }.

Definition flight (q : SYNCQ) : list ENTRY := drop (ndone q) (hist q).
Definition bytes (l : list ENTRY) : Z := foldr (fun e n => e_len e + n) 0 l.
Definition in_use (b : bool) (l : list ENTRY) : nat := length (filter (fun e => e_back e = b) l).

Definition NUM_BACK : nat := 4.
Definition NUM_FREE : nat := 36.

(** The number of bytes that the loop of [send] gets rid of. *)
Fixpoint sent (sends : list Z) (len wrl : Z) : option Z :=
  if len - wrl <=? 0 then Some wrl
  else match sends with
       | [] => Some wrl
       | res :: sends => if res <? 0 then None else sent sends len (wrl + res)
       end.

(** A message is accepted while an entry is free; those without a callback may use
    the reserved ones. *)
Definition room (cb : Z) (l : list ENTRY) : option bool :=
  if (cb =? 0) && (in_use true l <? NUM_BACK)%nat then Some true
  else if (in_use false l <? NUM_FREE)%nat then Some false else None.

Definition spec_send (sends : list Z) (now ln cb : Z) (q : SYNCQ) : Z * SYNCQ :=
  match room cb (flight q) with
  | None => (if SOCK_ACK_TIMEOUT <? u64 (now - last q) then -1 else 0, q)
  | Some b =>
      if bool_decide (sent sends ln 0 = Some ln) then
        (ln, {| hist := hist q ++ [{| e_len := ln; e_cb := cb; e_back := b |}]; ndone := ndone q; last := now |})
      else (-1, q)
  end.

(** The peer has acknowledged all but the last [unacksz] bytes of [hist]: at most one
    message is completed, in order, when all its bytes are acknowledged. *)
Definition spec_sync (unacksz : Z) (q : SYNCQ) : (Z * Z) * SYNCQ :=
  match flight q with
  | e :: _ =>
      if bytes (take (S (ndone q)) (hist q)) <=? bytes (hist q) - unacksz
      then ((0, e_cb e), {| q with ndone := S (ndone q) |})
      else ((0, 0), q)
  | [] => ((0, 0), q)
  end.

Inductive SOCK_EVENT :=
| EvSend (sends : list Z) (now : Z) (buf : list Z) (ln cb : Z)
| EvSync (unacksz : Z).

(** Result and callback of a call. *)
Definition sock_step (ev : SOCK_EVENT) : SM (Z * Z) :=
  match ev with
  | EvSend sends now buf ln cb => r ← sock_send sends now buf ln cb; mret (r, 0)
  | EvSync u => sock_sync (Some u)
  end.

Definition spec_step (ev : SOCK_EVENT) (q : SYNCQ) : (Z * Z) * SYNCQ :=
  match ev with
  | EvSend sends now _ ln cb => let '(r, q) := spec_send sends now ln cb q in ((r, 0), q)
  | EvSync u => spec_sync u q
  end.

Fixpoint sock_run (evs : list SOCK_EVENT) : SM (list (Z * Z)) :=
  match evs with [] => mret [] | ev :: evs => r ← sock_step ev; l ← sock_run evs; mret (r :: l) end.

Fixpoint spec_run (evs : list SOCK_EVENT) (q : SYNCQ) : list (Z * Z) * SYNCQ :=
  match evs with
  | [] => ([], q)
  | ev :: evs => let '(r, q) := spec_step ev q in let '(l, q) := spec_run evs q in (r :: l, q)
  end.

(** Sizes that do not overflow [int]. *)
Definition ev_ok (ev : SOCK_EVENT) : Prop :=
  match ev with EvSend _ _ _ ln _ => 0 <= ln <= 2 ^ 20 | EvSync u => 0 <= u < 2 ^ 30 end.

(** ** Representation *)

Definition lists3 (fr bk us : list Z) : LISTS := <[sync_free := fr]> (<[sync_back := bk]> {[sync_used := us]}).
Definition all_nodes : list Z := sync_node <$> seqZ 0 SOCK_MAX_SYNC.

Lemma lists3_free fr bk us xs : <[sync_free := xs]> (lists3 fr bk us) = lists3 xs bk us.
Proof. apply insert_insert_eq. Qed.
Lemma lists3_back fr bk us xs : <[sync_back := xs]> (lists3 fr bk us) = lists3 fr xs us.
Proof. unfold lists3. rewrite (insert_insert_ne _ sync_back sync_free) by done. by rewrite insert_insert_eq. Qed.
Lemma lists3_used fr bk us xs : <[sync_used := xs]> (lists3 fr bk us) = lists3 fr bk xs.
Proof.
  unfold lists3. rewrite (insert_insert_ne _ sync_used sync_free), (insert_insert_ne _ sync_used sync_back) by done.
  by rewrite insert_singleton_eq.
Qed.

Lemma lists3_lookup fr bk us l xs : lists3 fr bk us !! l = Some xs <->
  (l = sync_free /\ xs = fr) \/ (l = sync_back /\ xs = bk) \/ (l = sync_used /\ xs = us).
Proof.
  unfold lists3. rewrite !lookup_insert_Some, lookup_singleton_Some. unfold sync_free, sync_back, sync_used. split.
  - intros [[<- <-] | [_ [[<- <-] | [_ [<- <-]]]]]; auto.
  - intros [[-> ->] | [[-> ->] | [-> ->]]]; [by left | right; split; [done | by left] |].
    right. split; [done |]. right. by split.
Qed.

Lemma all_nodes_in x : In x all_nodes <-> 8 <= x < 48.
Proof.
  unfold all_nodes, sync_node, SOCK_MAX_SYNC. rewrite <- list_elem_of_In, list_elem_of_fmap. split.
  - intros (y & -> & Hy). apply elem_of_seqZ in Hy. lia.
  - intros Hx. exists (x - 8). split; [lia | apply elem_of_seqZ; lia].
Qed.

Lemma all_nodes_nodup : List.NoDup all_nodes.
Proof. apply NoDup_ListNoDup. unfold all_nodes. apply NoDup_fmap_2_strong; [unfold sync_node; intros; lia | apply NoDup_seqZ]. Qed.

Record nodes_ok (s : SOCK) (fr bk us : list Z) : Prop := {
  no_lists : lists_ok (sync_links s) (lists3 fr bk us);
  no_links x : 1 <= x <= 3 \/ 8 <= x < 48 -> is_Some (sync_links s !! x);
  no_perm : Permutation (fr ++ bk ++ us) all_nodes
}.

Definition owner_is (s : SOCK) (l x : Z) : Prop := exists v, sync_mem s !! x = Some v /\ m_owner v = l.
Definition holds_entry (s : SOCK) (x : Z) (e : ENTRY) : Prop :=
  sync_mem s !! x = Some {| m_len := e_len e; m_sync := e_cb e; m_owner := if e_back e then sync_back else sync_free |}.

Record refines (s : SOCK) (q : SYNCQ) (fr bk us : list Z) : Prop := {
  rf_stat : stat s = SOCK_STAT_OPENED;
  rf_type : type s = SOCK_TYPE_SYNCTCP;
  rf_nodes : nodes_ok s fr bk us;
  rf_free : Forall (owner_is s sync_free) fr;
  rf_back : Forall (owner_is s sync_back) bk;
  rf_used : Forall2 (holds_entry s) us (flight q);
  rf_nfree : (length fr + in_use false (flight q) = NUM_FREE)%nat;
  rf_nback : (length bk + in_use true (flight q) = NUM_BACK)%nat;
  rf_size : sendsz s = bytes (flight q);
  rf_lens : Forall (fun e => 0 <= e_len e <= 2 ^ 20) (hist q);
  rf_done : (ndone q <= length (hist q))%nat;
  rf_last : sendtime s = last q
}.

Lemma entry_bytes_app l k : bytes (l ++ k) = bytes l + bytes k.
Proof. unfold bytes. induction l as [|e l IH]; cbn [foldr app]; [done | rewrite IH; lia]. Qed.

Lemma bytes_range l : Forall (fun e => 0 <= e_len e <= 2 ^ 20) l -> 0 <= bytes l <= Z.of_nat (length l) * 2 ^ 20.
Proof.
  unfold bytes. induction 1 as [|e l He _ IH]; cbn [foldr length]; [lia |]. rewrite Nat2Z.inj_succ. lia.
Qed.

Lemma in_use_app b l k : in_use b (l ++ k) = (in_use b l + in_use b k)%nat.
Proof. unfold in_use. by rewrite list.filter_app, length_app. Qed.

Lemma in_use_cons b e l : in_use b (e :: l) = ((if bool_decide (e_back e = b) then 1 else 0) + in_use b l)%nat.
Proof. unfold in_use. rewrite list.filter_cons. case_bool_decide; case_decide; try done. Qed.

Lemma in_use_all l : (in_use true l + in_use false l)%nat = length l.
Proof.
  induction l as [|e l IH]; [done |]. rewrite !in_use_cons. cbn [length]. destruct (e_back e); repeat case_bool_decide; done || lia.
Qed.

Lemma int_some z : - 2 ^ 31 <= z < 2 ^ 31 -> int z = Some z.
Proof. intros H. unfold int. destruct (Z.leb_spec (- 2 ^ 31) z), (Z.ltb_spec z (2 ^ 31)); cbn; try lia. done. Qed.

Lemma flight_cons q e l : flight q = e :: l ->
  hist q !! ndone q = Some e /\ drop (S (ndone q)) (hist q) = l /\
  bytes (take (S (ndone q)) (hist q)) = bytes (hist q) - bytes (flight q) + e_len e.
Proof.
  unfold flight. intros E. assert (hist q !! ndone q = Some e) as He.
  { rewrite <- (Nat.add_0_r (ndone q)), <- lookup_drop, E. done. }
  split; [done |]. rewrite (drop_S _ _ _ He) in E. injection E as E. split; [done |].
  rewrite (take_S_r _ _ _ He), entry_bytes_app. pose proof (entry_bytes_app (take (ndone q) (hist q)) (drop (ndone q) (hist q))) as H.
  rewrite take_drop in H. rewrite H. cbn [bytes foldr]. lia.
Qed.

Section refines.
Context (s : SOCK) (q : SYNCQ) (fr bk us : list Z) (R : refines s q fr bk us).

Lemma flight_count : (length (flight q) <= 40)%nat.
Proof using R.
  pose proof (in_use_all (flight q)) as H. pose proof (rf_nfree _ _ _ _ _ R) as H1. pose proof (rf_nback _ _ _ _ _ R) as H2.
  unfold NUM_FREE, NUM_BACK in *. lia.
Qed.

Lemma flight_bytes : 0 <= bytes (flight q) <= 40 * 2 ^ 20.
Proof using R.
  pose proof flight_count as H. pose proof (bytes_range (flight q)) as B. unfold flight in *.
  pose proof (rf_lens _ _ _ _ _ R) as L. specialize (B (Forall_drop _ _ _ L)). lia.
Qed.

Lemma node_range x : In x (fr ++ bk ++ us) -> 8 <= x < 48.
Proof using R. intros H. apply all_nodes_in. eapply Permutation_in; [apply (no_perm _ _ _ _ (rf_nodes _ _ _ _ _ R)) | done]. Qed.

Lemma nodes_nodup : List.NoDup (fr ++ bk ++ us).
Proof using R. eapply Permutation_NoDup; [symmetry; apply (no_perm _ _ _ _ (rf_nodes _ _ _ _ _ R)) | apply all_nodes_nodup]. Qed.

Lemma empty_run l xs : lists3 fr bk us !! l = Some xs ->
  sync_empty l s = Some (match xs with [] => true | _ => false end, s).
Proof using R.
  intros Hl. unfold sync_empty. st_run. by rewrite (lists_empty _ _ (no_lists _ _ _ _ (rf_nodes _ _ _ _ _ R)) l xs Hl).
Qed.

End refines.

(** A node that is in no list. *)
Lemma node_unlinked fr bk us x : 8 <= x < 48 -> ~ In x (fr ++ bk ++ us) -> unlinked (lists3 fr bk us) x.
Proof.
  intros Hx Hn l xs Hl. rewrite !in_app_iff in Hn. unfold sync_free, sync_back, sync_used in *.
  apply lists3_lookup in Hl as [[-> ->] | [[-> ->] | [-> ->]]]; (intros [Hy | Hy]; [unfold sync_free, sync_back, sync_used in *; lia | tauto]).
Qed.

Lemma owner_other s x v l xs : ~ In x xs -> Forall (owner_is s l) xs ->
  Forall (fun y => exists w, <[x := v]> (sync_mem s) !! y = Some w /\ m_owner w = l) xs.
Proof.
  intros Hx H. rewrite Forall_forall in *. intros y Hy. destruct (H y Hy) as (w & Ew & Hw). exists w.
  by rewrite lookup_insert_ne by (intros ->; contradiction).
Qed.

Lemma on_sync_run f s h : f (sync_links s) = Some h -> on_sync f s = Some (tt, {| s with sync_links := h |}).
Proof. intros E. unfold on_sync. st_run. by rewrite E. Qed.

(** The state with other links and another size. *)
Definition relinked (s : SOCK) (h : LINKS) (n : Z) : SOCK := {| s with sync_links := h; sendsz := n |}.

Lemma links_keep (s : SOCK) (h : LINKS) fr bk us x : nodes_ok s fr bk us -> dom h = dom (sync_links s) ->
  1 <= x <= 3 \/ 8 <= x < 48 -> is_Some (h !! x).
Proof. intros N Hd Hx. eapply dom_mem; [exact Hd | by apply (no_links _ _ _ _ N)]. Qed.

(** The first message in flight is done: its node goes back to its owner. *)
Lemma complete_run s q fr bk x us e l : refines s q fr bk (x :: us) -> flight q = e :: l ->
  exists h fr' bk', let s' := relinked s h (sendsz s - e_len e) in
    (forall A (k : SM A), (on_sync (fun h => list_delete h x);;
      on_sync (fun h => list_insert_before h (if e_back e then sync_back else sync_free) x);; k)
      (relinked s (sync_links s) (sendsz s - e_len e)) = k s') /\
    refines s' {| q with ndone := S (ndone q) |} fr' bk' us.
Proof.
  intros R Ef. pose proof (rf_nodes _ _ _ _ _ R) as N. pose proof (no_lists _ _ _ _ N) as L.
  destruct (flight_cons _ _ _ Ef) as (He & Ed & _).
  pose proof (nodes_nodup _ _ _ _ _ R) as ND. pose proof (rf_used _ _ _ _ _ R) as U. rewrite Ef in U. inversion_clear U as [|? ? ? ? Hx U'].
  assert (8 <= x < 48) as Hxr by (apply (node_range _ _ _ _ _ R); rewrite !in_app_iff; right; right; by left).
  destruct (lists_delete _ _ L sync_used [] x us) as (h1 & E1 & Hd1 & L1); [apply lists3_lookup; by right; right |].
  cbn [app] in L1. rewrite lists3_used in L1.
  assert (~ In x (fr ++ bk ++ us)) as Hn.
  { rewrite app_assoc in ND. apply NoDup_remove_2 in ND. by rewrite <- app_assoc in ND. }
  set (o := if e_back e then sync_back else sync_free). set (xs := if e_back e then bk else fr).
  destruct (lists_add_tail _ _ L1 o xs x) as (h2 & E2 & Hd2 & L2).
  { apply lists3_lookup. unfold o, xs. destruct (e_back e); auto. }
  { eapply links_keep; [exact N | done | by right]. }
  { by apply node_unlinked. }
  exists h2, (if e_back e then fr else fr ++ [x]), (if e_back e then bk ++ [x] else bk). intros s'. split.
  { intros A k. erewrite st_bind_run by (apply on_sync_run; exact E1).
    erewrite st_bind_run by (apply on_sync_run; exact E2). done. }
  assert (Permutation ((if e_back e then fr else fr ++ [x]) ++ (if e_back e then bk ++ [x] else bk) ++ us) (fr ++ bk ++ x :: us)) as P.
  { destruct (e_back e); rewrite <- !app_assoc; cbn [app]; [done |]. apply Permutation_app_head. by rewrite Permutation_middle. }
  assert (Forall (owner_is s sync_free) (if e_back e then fr else fr ++ [x]) /\ Forall (owner_is s sync_back) (if e_back e then bk ++ [x] else bk)) as [Of Ob].
  { unfold holds_entry in Hx. pose proof (rf_free _ _ _ _ _ R). pose proof (rf_back _ _ _ _ _ R).
    destruct (e_back e); (split; [try done | try done]); apply Forall_app; (split; [done |]); apply Forall_singleton; eexists; (split; [exact Hx | done]). }
  assert (flight {| q with ndone := S (ndone q) |} = l) as Ef' by exact Ed.
  split; try rewrite Ef'; try done; try apply R.
  - split.
    + cbn. unfold o, xs in L2. destruct (e_back e); [by rewrite lists3_back in L2 | by rewrite lists3_free in L2].
    + intros y Hy. cbn. eapply links_keep; [exact N | congruence | done].
    + rewrite P. apply (no_perm _ _ _ _ N).
  - pose proof (rf_nfree _ _ _ _ _ R) as H. rewrite Ef, in_use_cons in H. destruct (e_back e); rewrite ?length_app; cbn [length]; repeat case_bool_decide; done || lia.
  - pose proof (rf_nback _ _ _ _ _ R) as H. rewrite Ef, in_use_cons in H. destruct (e_back e); rewrite ?length_app; cbn [length]; repeat case_bool_decide; done || lia.
  - cbn. rewrite (rf_size _ _ _ _ _ R), Ef. cbn [bytes foldr]. unfold bytes. lia.
  - cbn. apply lookup_lt_Some in He. lia.
Qed.

Lemma sync_run s q fr bk us u : refines s q fr bk us -> 0 <= u < 2 ^ 30 ->
  exists s' fr' bk' us', sock_sync (Some u) s = Some (fst (spec_sync u q), s') /\ refines s' (snd (spec_sync u q)) fr' bk' us'.
Proof.
  intros R Hu. pose proof (rf_nodes _ _ _ _ _ R) as N. pose proof (flight_bytes _ _ _ _ _ R) as HB.
  unfold sock_sync. st_run. rewrite (rf_stat _ _ _ _ _ R), (rf_type _ _ _ _ _ R). cbn [negb bool_decide decide_rel].
  rewrite !bool_decide_eq_true_2 by done. cbn [negb].
  st_call (empty_run _ _ _ _ _ R sync_used us ltac:(apply lists3_lookup; by right; right)).
  unfold spec_sync. pose proof (rf_used _ _ _ _ _ R) as U. destruct (flight q) as [|e l] eqn:Ef.
  { inversion U. subst. exists s, fr, bk, []. by st_run. }
  destruct us as [|x us]; [inversion U |]. inversion_clear U as [|? ? ? ? Hx U'].
  destruct (flight_cons _ _ _ Ef) as (He & _ & Hby). rewrite Ef in Hby.
  destruct (no_lists _ _ _ _ N) as [LR _]. destruct (LR sync_used (x :: us)) as [Hc _]; [apply lists3_lookup; by right; right |].
  rewrite (chain_next _ _ _ _ Hc). cbn [hd]. st_run. unfold sync_entry. st_run. unfold holds_entry in Hx. rewrite Hx. st_run.
  rewrite (rf_size _ _ _ _ _ R), Ef. 
  rewrite (int_some (bytes (e :: l) - u)) by lia. st_run. cbn [m_len m_owner m_sync].
  replace (bytes (take (S (ndone q)) (hist q)) <=? bytes (hist q) - u) with (e_len e <=? bytes (e :: l) - u)
    by (rewrite Hby; destruct (Z.leb_spec (e_len e) (bytes (e :: l) - u)), (Z.leb_spec (bytes (hist q) - bytes (e :: l) + e_len e) (bytes (hist q) - u)); lia).
  destruct (Z.leb_spec (e_len e) (bytes (e :: l) - u)) as [Hl | Hl].
  - pose proof (Forall_lookup_1 _ _ _ _ (rf_lens _ _ _ _ _ R) He) as HL. cbn beta in HL. rewrite int_some by lia. st_run.
    destruct (complete_run _ _ _ _ _ _ _ _ R Ef) as (h & fr' & bk' & Hk & R').
    eexists _, fr', bk', us. split; [| exact R'].
    replace (bytes (e :: l)) with (sendsz s) by (by rewrite <- Ef, (rf_size _ _ _ _ _ R)). apply Hk.
  - eexists s, fr, bk, (x :: us). by st_run.
Qed.

Lemma send_loop_run sends : forall buf len wrl s, exists o,
  send_loop sends buf len wrl s = Some (sent sends len wrl, {| s with out := o |}).
Proof.
  induction sends as [|r sends IH]; intros buf len wrl s; cbn [send_loop sent];
    destruct (Z.leb_spec (len - wrl) 0); try (exists (out s); by destruct s).
  destruct (Z.ltb_spec r 0); [exists (out s); by destruct s |]. st_run.
  destruct (IH buf len (wrl + r) {| s with out := out s ++ take (Z.to_nat r) (drop (Z.to_nat wrl) buf) |}) as [o E].
  exists o. by rewrite E.
Qed.

(** Where the next message finds its entry. *)
Lemma room_run s q fr bk us cb : refines s q fr bk us ->
  match room cb (flight q) with
  | Some true => cb = 0 /\ exists x r, bk = x :: r
  | Some false => (cb = 0 -> bk = []) /\ exists x r, fr = x :: r
  | None => fr = [] /\ (cb = 0 -> bk = [])
  end.
Proof.
  intros R. pose proof (rf_nfree _ _ _ _ _ R) as H1. pose proof (rf_nback _ _ _ _ _ R) as H2. unfold room.
  destruct (Z.eqb_spec cb 0) as [Hc | Hc]; cbn [andb].
  - destruct (Nat.ltb_spec (in_use true (flight q)) NUM_BACK).
    + split; [done |]. destruct bk as [|x r]; [cbn in H2; lia | eauto].
    + destruct bk; [| cbn in H2; lia]. destruct (Nat.ltb_spec (in_use false (flight q)) NUM_FREE).
      * split; [done |]. destruct fr as [|x r]; [cbn in H1; lia | eauto].
      * destruct fr; [done | cbn in H1; lia].
  - destruct (Nat.ltb_spec (in_use false (flight q)) NUM_FREE).
    + split; [done |]. destruct fr as [|x r]; [cbn in H1; lia | eauto].
    + destruct fr; [done | cbn in H1; lia].
Qed.

Definition moved (s : SOCK) (h : LINKS) (o : list Z) : SOCK := {| s with sync_links := h; out := o |}.

Lemma push_run s q fr bk us h o x (b : bool) fr' bk' ln cb now :
  refines s q fr bk us -> 0 <= ln <= 2 ^ 20 ->
  (if b then bk = x :: bk' /\ fr = fr' else fr = x :: fr' /\ bk = bk') ->
  dom h = dom (sync_links s) -> lists_ok h (lists3 fr' bk' us) ->
  exists s', (sync_push x ln cb;; st_mod (fun s => {| s with sendtime := now |})) (moved s h o) = Some (tt, s') /\
    refines s' {| hist := hist q ++ [{| e_len := ln; e_cb := cb; e_back := b |}]; ndone := ndone q; last := now |} fr' bk' (us ++ [x]).
Proof.
  intros R Hln Hb Hd L. pose proof (rf_nodes _ _ _ _ _ R) as N. pose proof (flight_bytes _ _ _ _ _ R) as HB.
  assert (Permutation (fr ++ bk ++ us) (x :: fr' ++ bk' ++ us)) as P.
  { destruct b, Hb as [-> ->]; cbn [app]; [symmetry; apply Permutation_middle | done]. }
  assert (8 <= x < 48) as Hx.
  { apply (node_range _ _ _ _ _ R). eapply Permutation_in; [symmetry; exact P | by left]. }
  assert (List.NoDup (x :: fr' ++ bk' ++ us)) as ND by (eapply Permutation_NoDup; [exact P | apply (nodes_nodup _ _ _ _ _ R)]).
  apply NoDup_cons_iff in ND as [Hn _]. pose proof Hn as Hn'. rewrite !in_app_iff in Hn'.
  assert (owner_is s (if b then sync_back else sync_free) x) as (v & Ev & Hv).
  { pose proof (rf_free _ _ _ _ _ R) as F. pose proof (rf_back _ _ _ _ _ R) as B. destruct b, Hb as [-> ->]; [by inversion_clear B | by inversion_clear F]. }
  destruct (lists_add_tail _ _ L sync_used us x) as (h2 & E2 & Hd2 & L2).
  { apply lists3_lookup. by right; right. } { eapply links_keep; [exact N | done | by right]. } { by apply node_unlinked. }
  rewrite lists3_used in L2.
  unfold sync_push. st_run. cbn [sendsz moved]. rewrite (rf_size _ _ _ _ _ R), (int_some (bytes (flight q) + ln)) by lia. st_run.
  unfold sync_entry. st_run. cbn [sync_mem moved]. rewrite Ev. st_run. unfold set_entry. st_run.
  erewrite st_bind_run by (apply on_sync_run; exact E2). eexists. split; [reflexivity |].
  assert (flight {| hist := hist q ++ [{| e_len := ln; e_cb := cb; e_back := b |}]; ndone := ndone q; last := now |} =
    flight q ++ [{| e_len := ln; e_cb := cb; e_back := b |}]) as Ef.
  { unfold flight. cbn [hist ndone]. apply drop_app_le. apply (rf_done _ _ _ _ _ R). }
  assert (Forall (owner_is s sync_free) fr' /\ Forall (owner_is s sync_back) bk') as [Ff Fb].
  { pose proof (rf_free _ _ _ _ _ R) as F. pose proof (rf_back _ _ _ _ _ R) as B. destruct b, Hb as [-> ->]; (split; [| done]) || idtac; try done.
    - by inversion_clear B. - by inversion_clear F. }
  split; rewrite ?Ef; [apply (rf_stat _ _ _ _ _ R) | apply (rf_type _ _ _ _ _ R) | .. | reflexivity].
  - split; [exact L2 | |].
    + intros y Hy. cbn. eapply links_keep; [exact N | | exact Hy]. cbn in Hd2. congruence.
    + rewrite !app_assoc, <- Permutation_cons_append, <- app_assoc, <- P. apply (no_perm _ _ _ _ N).
  - apply owner_other; [tauto | done].
  - apply owner_other; [tauto | done].
  - apply Forall2_app.
    + pose proof (rf_used _ _ _ _ _ R) as U. eapply Forall2_impl_in; [exact U |]. intros y e Hy _ He. unfold holds_entry. cbn.
      rewrite lookup_insert_ne by (intros ->; tauto). exact He.
    + constructor; [| done]. unfold holds_entry. cbn. rewrite lookup_insert_eq, Hv. done.
  - pose proof (rf_nfree _ _ _ _ _ R) as H. rewrite in_use_app. destruct b, Hb as [-> ->]; cbn [length] in H; rewrite in_use_cons; repeat case_bool_decide; cbn; done || lia.
  - pose proof (rf_nback _ _ _ _ _ R) as H. rewrite in_use_app. destruct b, Hb as [-> ->]; cbn [length] in H; rewrite in_use_cons; repeat case_bool_decide; cbn; done || lia.
  - cbn. rewrite entry_bytes_app. cbn. lia.
  - cbn. apply Forall_app. split; [apply (rf_lens _ _ _ _ _ R) |]. by constructor.
  - cbn. rewrite length_app. pose proof (rf_done _ _ _ _ _ R). lia.
Qed.

Lemma refines_out s q fr bk us o : refines s q fr bk us -> refines {| s with out := o |} q fr bk us.
Proof. intros [? ? [? ? ?] ? ? ? ? ? ? ? ? ?]. by split. Qed.

Lemma full_run s q fr bk us cb : refines s q fr bk us ->
  sync_full cb s = Some (match room cb (flight q) with None => true | _ => false end, s).
Proof.
  intros R. unfold sync_full. st_run. rewrite bool_decide_eq_true_2 by apply (rf_type _ _ _ _ _ R). pose proof (room_run _ _ _ _ _ cb R) as Hr.
  st_call (empty_run _ _ _ _ _ R sync_free fr ltac:(apply lists3_lookup; by left)).
  destruct (room cb (flight q)) as [[]|].
  - destruct Hr as [-> (x & r & ->)]. destruct fr; [| done]. cbn [negb Z.eqb].
    by st_call (empty_run _ _ _ _ _ R sync_back (x :: r) ltac:(apply lists3_lookup; by right; left)).
  - destruct Hr as [_ (x & r & ->)]. done.
  - destruct Hr as [-> Hc]. destruct (Z.eqb_spec cb 0) as [-> | Nc]; cbn [negb]; [| done]. rewrite (Hc eq_refl) in R.
    by st_call (empty_run _ _ _ _ _ R sync_back [] ltac:(apply lists3_lookup; by right; left)).
Qed.

Lemma sync_first_run s h m l xs o : sync_links s = h -> lists_ok h m -> m !! l = Some xs ->
  exists h', sync_first l (moved s h o) = Some (hd_error xs, moved s h' o) /\ dom h' = dom h /\ lists_ok h' (<[l := tl xs]> m).
Proof.
  intros Eh L Hl. destruct (lists_get_first _ _ L l xs Hl) as (h' & E & Hd & L'). exists h'. split; [| done].
  unfold sync_first. st_run. cbn [sync_links moved]. by rewrite E.
Qed.

(** The node for the next message. *)
Lemma take_run s q fr bk us o cb b : refines s q fr bk us -> room cb (flight q) = Some b ->
  exists h x fr' bk', sync_take cb (moved s (sync_links s) o) = Some (Some x, moved s h o) /\
    (if b then bk = x :: bk' /\ fr = fr' else fr = x :: fr' /\ bk = bk') /\
    dom h = dom (sync_links s) /\ lists_ok h (lists3 fr' bk' us).
Proof.
  intros R Hroom. pose proof (room_run _ _ _ _ _ cb R) as Hr. rewrite Hroom in Hr. pose proof (no_lists _ _ _ _ (rf_nodes _ _ _ _ _ R)) as L.
  unfold sync_take. destruct b.
  - destruct Hr as [-> (x & bk' & ->)]. cbn [negb Z.eqb].
    destruct (sync_first_run s _ _ sync_back (x :: bk') o eq_refl L) as (h & E & Hd & L'); [apply lists3_lookup; by right; left |].
    exists h, x, fr, bk'. st_call E. cbn [tl] in L'. rewrite lists3_back in L'. done.
  - destruct Hr as [Hc (x & fr' & ->)]. destruct (Z.eqb_spec cb 0) as [-> | Nc]; cbn [negb].
    + rewrite (Hc eq_refl) in *.
      destruct (sync_first_run s _ _ sync_back [] o eq_refl L) as (h & E & Hd & L'); [apply lists3_lookup; by right; left |].
      cbn [tl] in L'. rewrite lists3_back in L'. st_call E. cbn [hd_error].
      destruct (lists_get_first _ _ L' sync_free (x :: fr')) as (h2 & E2 & Hd2 & L2); [apply lists3_lookup; by left |].
      exists h2, x, fr', []. split; [unfold sync_first; st_run; cbn [sync_links moved]; by rewrite E2 |].
      cbn [tl] in L2. rewrite lists3_free in L2. split; [done |]. split; [congruence | done].
    + destruct (sync_first_run s _ _ sync_free (x :: fr') o eq_refl L) as (h & E & Hd & L'); [apply lists3_lookup; by left |].
      exists h, x, fr', bk. st_run. rewrite E. cbn [tl] in L'. rewrite lists3_free in L'. done.
Qed.

Lemma sock_send_run s q fr bk us sends now buf ln cb : refines s q fr bk us -> 0 <= ln <= 2 ^ 20 ->
  exists s' fr' bk' us', sock_send sends now buf ln cb s = Some (fst (spec_send sends now ln cb q), s') /\
    refines s' (snd (spec_send sends now ln cb q)) fr' bk' us'.
Proof.
  intros R Hln. unfold sock_send, spec_send. st_run. rewrite bool_decide_eq_true_2 by apply (rf_stat _ _ _ _ _ R). cbn [negb].
  st_call (full_run _ _ _ _ _ cb R). destruct (room cb (flight q)) as [b|] eqn:Hroom.
  2: { exists s, fr, bk, us. by rewrite (rf_last _ _ _ _ _ R). }
  destruct (send_loop_run sends buf ln 0 s) as [o E]. st_call E. destruct (sent sends ln 0) as [wrl|] eqn:Es.
  2: { exists {| s with out := o |}, fr, bk, us. cbn [bool_decide decide_rel]. rewrite bool_decide_eq_false_2 by done.
       split; [done | by apply refines_out]. }
  destruct (Z.eqb_spec wrl ln) as [-> | N]; cbn [negb].
  2: { exists {| s with out := o |}, fr, bk, us. rewrite bool_decide_eq_false_2 by congruence. split; [done | by apply refines_out]. }
  rewrite !bool_decide_eq_true_2 by (done || apply (rf_type _ _ _ _ _ R)). cbn [fst snd st_when].
  destruct (take_run s q fr bk us o cb b R Hroom) as (h & x & fr' & bk' & Et & Hb & Hd & L).
  destruct (push_run s q fr bk us h o x b fr' bk' ln cb now R Hln Hb Hd L) as (s' & Ep & R').
  exists s', fr', bk', (us ++ [x]). split; [| exact R']. change {| s with out := o |} with (moved s (sync_links s) o).
  st_run. st_call Et.
  apply st_bind_inv in Ep as ([] & s1 & E1 & [= <-]). by st_call E1.
Qed.

Lemma sock_step_run s q fr bk us ev : refines s q fr bk us -> ev_ok ev ->
  exists s' fr' bk' us', sock_step ev s = Some (fst (spec_step ev q), s') /\ refines s' (snd (spec_step ev q)) fr' bk' us'.
Proof.
  intros R Hev. destruct ev as [sends now buf ln cb | u]; cbn [sock_step spec_step ev_ok] in *.
  - destruct (sock_send_run s q fr bk us sends now buf ln cb R Hev) as (s' & fr' & bk' & us' & E & R').
    destruct (spec_send sends now ln cb q) as [r q']. exists s', fr', bk', us'. by st_call E.
  - destruct (sync_run s q fr bk us u R Hev) as (s' & fr' & bk' & us' & E & R'). by exists s', fr', bk', us'.
Qed.

Lemma run_run evs : forall s q fr bk us, refines s q fr bk us -> Forall ev_ok evs ->
  exists s' fr' bk' us', sock_run evs s = Some (fst (spec_run evs q), s') /\ refines s' (snd (spec_run evs q)) fr' bk' us'.
Proof.
  induction evs as [|ev evs IH]; intros s q fr bk us R H; cbn [sock_run spec_run].
  { by exists s, fr, bk, us. }
  inversion_clear H as [|? ? He Hes]. destruct (sock_step_run _ _ _ _ _ ev R He) as (s1 & fr1 & bk1 & us1 & E1 & R1).
  destruct (spec_step ev q) as [r q1]. cbn [fst snd] in *.
  destruct (IH _ _ _ _ _ R1 Hes) as (s2 & fr2 & bk2 & us2 & E2 & R2). destruct (spec_run evs q1) as [l q2].
  exists s2, fr2, bk2, us2. st_call E1. st_call E2. done.
Qed.

(** ** Opening *)

(** The memory of the entries is there. *)
Definition sync_mem_ok (s : SOCK) : Prop :=
  (forall x, 1 <= x <= 3 \/ 8 <= x < 48 -> is_Some (sync_links s !! x)) /\
  (forall x, 8 <= x < 48 -> is_Some (sync_mem s !! x)).

(** Everything but the lists is the same. *)
Definition same_but_sync (s s' : SOCK) : Prop :=
  stat s' = stat s /\ type s' = type s /\ sendsz s' = sendsz s /\ sendtime s' = sendtime s.

Lemma cleanup_nodes_run l n : forall i s m xs, sync_mem_ok s -> lists_ok (sync_links s) m -> m !! l = Some xs ->
  0 <= i -> i + Z.of_nat n <= 40 -> (forall j, i <= j < i + Z.of_nat n -> unlinked m (sync_node j)) ->
  exists s', cleanup_nodes n i l s = Some (tt, s') /\ same_but_sync s s' /\ sync_mem_ok s' /\
    lists_ok (sync_links s') (<[l := xs ++ (sync_node <$> seqZ i (Z.of_nat n))]> m) /\
    (forall j, i <= j < i + Z.of_nat n -> owner_is s' l (sync_node j)) /\
    (forall j, ~ (i <= j < i + Z.of_nat n) -> sync_mem s' !! sync_node j = sync_mem s !! sync_node j).
Proof.
  induction n as [|n IH]; intros i s m xs M L Hl Hi Hn U; unfold cleanup_nodes; cbn [st_for]; fold cleanup_nodes.
  { exists s. split; [done |]. split; [done |]. split; [done |]. cbn. rewrite app_nil_r, insert_id by done.
    split; [done |]. split; [intros; lia | done]. }
  assert (8 <= sync_node i < 48) as Hx by (unfold sync_node; lia). destruct (proj2 M _ Hx) as [v Ev].
  destruct (lists_add_tail _ _ L l xs (sync_node i)) as (h & E & Hd & L1); [done | apply M; by right | apply U; lia |].
  set (s1 := {| s with sync_mem := <[sync_node i := {| v with m_owner := l |}]> (sync_mem s); sync_links := h |}).
  assert (sync_mem_ok s1) as M1.
  { split; intros x Hxx; cbn.
    - eapply dom_mem; [exact Hd | by apply M].
    - destruct (decide (x = sync_node i)) as [-> | N]; [rewrite lookup_insert_eq; by eexists | rewrite lookup_insert_ne by done; by apply M]. }
  destruct (IH (i + 1) s1 (<[l := xs ++ [sync_node i]]> m) (xs ++ [sync_node i]) M1 L1) as (s2 & E2 & (S1 & S2 & S3 & S4) & M2 & L2 & O2 & K2);
    [by rewrite lookup_insert_eq | lia | lia | |].
  { intros j Hj k ys [[<- <-] | [_ Hk]]%lookup_insert_Some.
    - intros Hin. apply (U j ltac:(lia) l xs Hl). rewrite app_comm_cons, in_app_iff in Hin. destruct Hin as [Hin | [Hin | []]]; [done |].
      unfold sync_node in Hin. lia.
    - by apply (U j ltac:(lia)). }
  exists s2. split; [| split; [done | split; [done |]]].
  - st_run. unfold sync_entry. st_run. rewrite Ev. st_run. unfold set_entry. st_run.
    erewrite st_bind_run by (apply on_sync_run; exact E). exact E2.
  - rewrite insert_insert_eq, <- app_assoc in L2. split; [| split].
    + rewrite seqZ_cons by lia. rewrite fmap_cons. replace (Z.pred (Z.of_nat (S n))) with (Z.of_nat n) by lia.
      replace (Z.succ i) with (i + 1) by lia. exact L2.
    + intros j Hj. destruct (decide (j = i)) as [-> | N]; [| apply O2; lia]. eexists. rewrite K2 by lia. cbn. by rewrite lookup_insert_eq.
    + intros j Hj. rewrite K2 by lia. cbn. rewrite lookup_insert_ne; [done |]. unfold sync_node. lia.
Qed.

Lemma init_sync_run s m l : lists_ok (sync_links s) m -> sync_mem_ok s -> 1 <= l <= 3 -> m !! l = None ->
  (forall k ys, m !! k = Some ys -> ys = []) ->
  exists h, on_sync (fun h => list_init h l) s = Some (tt, {| s with sync_links := h |}) /\
    sync_mem_ok {| s with sync_links := h |} /\ lists_ok h (<[l := []]> m) /\
    (forall k ys, <[l := []]> m !! k = Some ys -> ys = []).
Proof.
  intros L [M1 M2] Hl Hn He. destruct (lists_init _ m L l) as (h & E & Hd & L').
  { apply M1. by left. }
  { right. intros k ys Hk Hin. rewrite (He k ys Hk) in Hin. destruct Hin as [<- | []]. congruence. }
  exists h. split; [by apply on_sync_run |]. split; [split; [intros x Hx; cbn; eapply dom_mem; [exact Hd | by apply M1] | exact M2] |].
  split; [done |]. intros k ys [[<- <-] | [_ Hk]]%lookup_insert_Some; [done | by eapply He].
Qed.

Definition free_nodes : list Z := sync_node <$> seqZ 4 36.
Definition back_nodes : list Z := sync_node <$> seqZ 0 4.

Lemma owner_nodes s l i n : (forall j, i <= j < i + n -> owner_is s l (sync_node j)) -> Forall (owner_is s l) (sync_node <$> seqZ i n).
Proof.
  intros H. apply Forall_forall. intros x Hx. apply list_elem_of_In, list_elem_of_fmap in Hx as (j & -> & Hj).
  apply elem_of_seqZ in Hj. by apply H.
Qed.

Lemma cleanup_run s u p : sync_mem_ok s -> type s = SOCK_TYPE_SYNCTCP ->
  exists s', sock_cleanup u p s = Some (tt, s') /\ stat s' = stat s /\ type s' = SOCK_TYPE_SYNCTCP /\ sendsz s' = 0 /\ sync_mem_ok s' /\
    nodes_ok s' free_nodes back_nodes [] /\ Forall (owner_is s' sync_free) free_nodes /\ Forall (owner_is s' sync_back) back_nodes.
Proof.
  intros M Ht. unfold sock_cleanup. st_run. cbn [type]. rewrite bool_decide_eq_true_2 by done. cbn [st_when]. st_run. cbv zeta.
  set (s0 := {| type := _ |}). assert (sync_mem_ok s0) as M0 by exact M.
  destruct (init_sync_run s0 ∅ sync_free (lists_ok_empty _) M0) as (h1 & E1 & M1 & L1 & K1); [done | done | done |].
  rewrite (st_bind_run _ _ _ _ _ E1). set (s1 := {| s0 with sync_links := h1 |}) in *.
  destruct (init_sync_run s1 _ sync_back L1 M1) as (h2 & E2 & M2 & L2 & K2); [done | by rewrite lookup_insert_ne | exact K1 |].
  rewrite (st_bind_run _ _ _ _ _ E2). set (s2 := {| s1 with sync_links := h2 |}) in *.
  destruct (init_sync_run s2 _ sync_used L2 M2) as (h3 & E3 & M3 & L3 & _); [done | by rewrite !lookup_insert_ne | exact K2 |].
  rewrite (st_bind_run _ _ _ _ _ E3). set (s3 := {| s2 with sync_links := h3 |}) in *.
  assert (<[sync_used := []]> (<[sync_back := []]> (<[sync_free := []]> ∅)) = lists3 [] [] []) as Em.
  { apply map_eq. intros k. unfold lists3. rewrite !lookup_insert, lookup_singleton, lookup_empty. by repeat case_decide; subst. }
  rewrite Em in L3. change (SOCK_MAX_SYNC / 10) with 4. change (Z.to_nat (SOCK_MAX_SYNC - 4)) with 36%nat. change (Z.to_nat 4) with 4%nat.
  destruct (cleanup_nodes_run sync_back 4 0 s3 _ [] M3 L3) as (s4 & E4 & (A1 & A2 & A3 & A4) & M4 & L4 & O4 & _);
    [apply lists3_lookup; by right; left | lia | lia | intros j Hj; apply node_unlinked; [unfold sync_node; lia | intros []] |].
  rewrite (st_bind_run _ _ _ _ _ E4). cbn [app] in L4. rewrite lists3_back in L4. change (Z.of_nat 4) with 4 in *.
  destruct (cleanup_nodes_run sync_free 36 4 s4 _ [] M4 L4) as (s5 & E5 & (B1 & B2 & B3 & B4) & M5 & L5 & O5 & K5);
    [apply lists3_lookup; by left | lia | lia | |].
  { intros j Hj. apply node_unlinked; [unfold sync_node; lia |]. cbn [app]. rewrite app_nil_r. intros Hin.
    apply list_elem_of_In, list_elem_of_fmap in Hin as (y & Ey & Hy). apply elem_of_seqZ in Hy. unfold sync_node in Ey. lia. }
  cbn [app] in L5. rewrite lists3_free in L5. change (Z.of_nat 36) with 36 in *.
  exists s5. split; [exact E5 |]. split; [by rewrite B1, A1 |]. split; [by rewrite B2, A2 |]. split; [by rewrite B3, A3 |]. split; [done |].
  split; [split; [exact L5 | apply M5 |] | split; [apply owner_nodes; exact O5 | apply owner_nodes]].
  - unfold free_nodes, back_nodes, all_nodes. rewrite app_nil_r, Permutation_app_comm.
    change (seqZ 0 SOCK_MAX_SYNC) with (seqZ 0 (4 + 36)). rewrite seqZ_app by lia. by rewrite fmap_app.
  - intros j Hj. destruct (O4 j Hj) as (v & Ev & Hv). exists v. by rewrite K5 by lia.
Qed.

(** A connection that came up: nothing is in flight. *)
Lemma opened_run s u p fd now : sync_mem_ok s -> type s = SOCK_TYPE_SYNCTCP -> stat s = SOCK_STAT_CLOSED ->
  exists s', (sock_open 0 u p;; sock_finish fd SOCK_STAT_OPENED now) s = Some (tt, s') /\
    refines s' {| hist := []; ndone := 0; last := 0 |} free_nodes back_nodes [].
Proof.
  intros M Ht Hs. destruct (cleanup_run s u p M Ht) as (s1 & E1 & A1 & A2 & A3 & M1 & N1 & F1 & B1).
  unfold sock_open. st_run. rewrite Hs. st_run. st_call E1. unfold sock_finish, set_stat. st_run.
  rewrite ?decide_False by done. st_run. cbn.
  eexists. split; [reflexivity |]. destruct N1 as [N1 N2 N3]. split; try done.
Qed.

(** C25: A synchronised socket refines a queue of messages with byte positions: for
    every sequence of [sock_send] and [sock_sync] on a new connection, all calls
    are defined and return what the specification says.  A message is accepted
    exactly while one of the 36 entries is free, or one of the 4 reserved ones for a
    message without a callback; the callbacks are called in the order of the
    messages, each once, and only when the peer has acknowledged the last byte of
    the message. *)
Theorem sock_refines_sync_queue s u p fd now evs :
  sync_mem_ok s -> type s = SOCK_TYPE_SYNCTCP -> stat s = SOCK_STAT_CLOSED -> Forall ev_ok evs ->
  exists s', (sock_open 0 u p;; sock_finish fd SOCK_STAT_OPENED now;; sock_run evs) s =
    Some (fst (spec_run evs {| hist := []; ndone := 0; last := 0 |}), s').
Proof.
  intros M Ht Hs He. destruct (opened_run s u p fd now M Ht Hs) as (s1 & E1 & R1).
  destruct (run_run evs _ _ _ _ _ R1 He) as (s2 & fr & bk & us & E2 & _). exists s2.
  apply st_bind_inv in E1 as (r & s0 & E0 & E1). st_call E0. st_call E1. exact E2.
Qed.

Definition sock0 : SOCK := {|
  type := SOCK_TYPE_SYNCTCP; stat := SOCK_STAT_CLOSED; chcktime := 0; linktime := 0; sendtime := 0; connect_failtimes := 0;
  sockfd := -1; url := []; port := 0; sendsz := 0; tid := false;
  sync_links := gset_to_gmap {| prev := 0; next := 0 |} (list_to_set (seqZ 1 47));
  sync_mem := gset_to_gmap {| m_len := 0; m_sync := 0; m_owner := 0 |} (list_to_set (seqZ 1 47)); out := [] |}.

Lemma sock0_mem_ok : sync_mem_ok sock0.
Proof.
  split; intros x Hx; eexists; apply lookup_gset_to_gmap_Some; (split; [apply elem_of_list_to_set, elem_of_seqZ; lia | reflexivity]).
Qed.

(** Two messages; the first is acknowledged with its last byte, the second is not. *)
Lemma sock_refines_sync_queue_witness : exists s',
  (sock_open 0 [] 80;; sock_finish 5 SOCK_STAT_OPENED 1;;
   sock_run [EvSend [3] 2 [1; 2; 3] 3 7; EvSend [1; 0; 1] 3 [4; 5] 2 8; EvSync 3; EvSync 2; EvSync 1]) sock0 =
  Some ([(3, 0); (2, 0); (0, 0); (0, 7); (0, 0)], s').
Proof.
  destruct (sock_refines_sync_queue sock0 [] 80 5 1 [EvSend [3] 2 [1; 2; 3] 3 7; EvSend [1; 0; 1] 3 [4; 5] 2 8; EvSync 3; EvSync 2; EvSync 1])
    as [s' E].
  - exact sock0_mem_ok.
  - reflexivity.
  - reflexivity.
  - repeat constructor; vm_compute; congruence.
  - exists s'. exact E.
Defined.
