(* ===== verification/GbProt.v ===== *)
(** * GB/T 32960 protocol

    The thread of src/app/interface/gb32960/gb32960_prot.c: the packets, the
    receiver, login and logout, and the reports, on top of the queues of [GbQueue]
    and the synchronised socket of [Sock].  One iteration of the loop of [gb_main]
    is [gb_iteration]; the results of the system calls and the times are its
    environment.  [None] is undefined behaviour. *)

From stdpp Require Import gmap.
From S2P Require Import Prelude Clist Cstd GbData GbQueue Sock.

Definition PROT_LOGIN : Z := 0x01.
Definition PROT_LOGOUT : Z := 0x04.
Definition PROT_CALTIME : Z := 0x08.
Definition PROT_QUREY : Z := 0x80.
Definition PROT_SETUP : Z := 0x81.
Definition PROT_CONTRL : Z := 0x82.
Definition GB_SOCKET_RSVD : Z := 1024.

(** ** State *)

(** The receiver, part of [gb_stat_t]. *)
Record RX := { rcvbuf : list Z; rcvlen : Z; rcvstep : Z; datalen : Z }.

Record gb_stat_t := {
  online : bool; wait : Z; retry : Z; waittime : Z; rx : RX;
  login : bool; suspend : bool; caltime : Z; can : bool; network : Z; errtrig : bool
}.

(** The static variables with the modules below.  [conn_time] is the static [time]
    of [gb_do_checksock], [saved] the values of the parameter REGSEQ that were
    stored. *)
Record PROT := {
  gq : GB; sk : SOCK; st : gb_stat_t;
  gb_vin : list Z; addr_url : list Z; addr_port : Z; gb_timeout : Z; gb_regintv : Z;
  gb_regdate : Z; gb_regseq : Z; gb_iccid : list Z; gb_battcode : list Z; gb_allow_sleep : bool;
  conn_time : Z; saved : list Z
}.

Abbreviation PM := (ST PROT).

(** The points where the clock is read or data is sent. *)
Inductive SITE := AtReset | AtCheck | AtOpen | AtWait | AtLogin | AtReport | AtLogout.

(** What one iteration gets from outside: results of system calls, the clock at the
    beginning ([e_now]) and at the end ([e_then]) of a function, the calendar. *)
Record ENV := {
  e_now : SITE -> Z; e_then : SITE -> Z; e_sends : SITE -> list Z;
  e_sockerr : option Z; e_outq : option Z; e_created : Z;
  e_recv : option (list Z); e_again : bool; e_stack : list Z;     (* old content of the buffer *)
  e_sndbuf : option Z; e_bufq : option Z;
  e_abstime : RTCTIME; e_iccid : list Z; e_cfg : Z -> Z
}.

Definition on_gq {A} (m : GM A) : PM A :=
  s ← st_get; '(a, q) ← st_lift (m (gq s)); st_mod (fun s => {| s with gq := q |});; mret a.
Definition on_sk {A} (m : SM A) : PM A :=
  s ← st_get; '(a, k) ← st_lift (m (sk s)); st_mod (fun s => {| s with sk := k |});; mret a.
Definition mod_st (f : gb_stat_t -> gb_stat_t) : PM unit := st_mod (fun s => {| s with st := f (st s) |}).

Definition GB_SERVR_TIMEOUT (s : PROT) : Z := 1000 * gb_timeout s.
Definition GB_LOGIN_INTV (s : PROT) : Z := 1000 * gb_regintv s.

(** ** Packets *)

Definition rx_reset (r : RX) : RX := {| r with rcvstep := -1; rcvlen := 0; datalen := 0 |}.

Definition gb_reset (now : Z) : PM unit :=
  on_sk (sock_close now);;
  mod_st (fun g => {| g with wait := 0; online := false; retry := 0; waittime := 0; rx := rx_reset (rx g) |}).

Definition gb_checksum (data : list Z) : Z := foldl Z.lxor 0 data.

Definition gb_pack_head (type dir : Z) (vin : list Z) : option (list Z) :=
  v ← mem_read vin 0 17; Some ([35; 35; u8 type; u8 dir] ++ v ++ [0x01]).

(** The checksum of all but the two start bytes is appended. *)
Definition gb_sealed (buf : list Z) : list Z := buf ++ [gb_checksum (drop 2 buf)].

Definition gb_pack_report (vin : list Z) (rpt : gb_pack_t) : option (list Z) :=
  h ← gb_pack_head (ptype rpt) 0xfe vin;
  d ← mem_read (pdata rpt) 0 (plen rpt);
  Some (gb_sealed (h ++ be16 (plen rpt) ++ d)).

Definition time_bytes (t : RTCTIME) : list Z :=
  [u8 (year t - 2000); u8 (mon t); u8 (mday t); u8 (hour t); u8 (min t); u8 (sec t)].

(** [strlen] *)
Fixpoint c_strlen (l : list Z) : option Z :=
  match l with [] => None | c :: l => if c =? 0 then Some 0 else n ← c_strlen l; Some (n + 1) end.

(** The characters up to the first zero. *)
Fixpoint c_text (l : list Z) : list Z :=
  match l with [] => [] | c :: l => if c =? 0 then [] else c :: c_text l end.

Definition save_reginf : PM unit :=
  st_mod (fun s => {| s with saved := saved s ++ [u32 (Z.shiftl (gb_regdate s) 16 + gb_regseq s)] |}).

Definition gb_pack_login (e : ENV) : PM (list Z) :=
  let time := e_abstime e in
  s ← st_get;
  st_when (negb (gb_regdate s =? mon time * 100 + mday time))
    (st_mod (fun s => {| s with gb_regdate := u16 (mon time * 100 + mday time); gb_regseq := 1 |});; save_reginf);;
  s ← st_get;
  h ← st_lift (gb_pack_head PROT_LOGIN 0xfe (gb_vin s));
  ic ← st_lift (mem_write (gb_iccid s) 0 (e_iccid e));
  st_mod (fun s => {| s with gb_iccid := ic |});;
  ic ← st_lift (mem_read ic 0 20);
  tmp ← st_lift (c_strlen (gb_battcode s));
  code ← st_lift (mem_read (gb_battcode s) 0 tmp);
  let body := time_bytes time ++ be16 (gb_regseq s) ++ ic ++ [1; u8 tmp] ++ code in
  mret (gb_sealed (h ++ be16 (len body) ++ body)).

Definition gb_pack_logout (e : ENV) : PM (list Z) :=
  s ← st_get;
  let tmp := if gb_regseq s =? 1 then 65531 else gb_regseq s - 1 in
  h ← st_lift (gb_pack_head PROT_LOGOUT 0xfe (gb_vin s));
  mret (gb_sealed (h ++ [0; 8] ++ time_bytes (e_abstime e) ++ be16 tmp)).

(** ** Receiving *)

(** A byte [c] of the stream; [mark] tells that it begins a header.  [Some true] if
    the packet is complete. *)
Definition makeup_byte (mark : bool) (c : Z) (r : RX) : option (bool * RX) :=
  let r := if mark then {| r with rcvlen := 0; datalen := 0; rcvstep := 0 |} else r in
  buf ← mem_set (rcvbuf r) (rcvlen r) c;
  let r := {| r with rcvbuf := buf; rcvlen := rcvlen r + 1 |} in
  if rcvstep r =? 0 then Some (false, if rcvlen r =? 22 then {| r with rcvstep := 1 |} else r)
  else if rcvstep r =? 1 then
    let r := {| r with datalen := datalen r * 256 + c |} in
    Some (false, if rcvlen r =? 24 then {| r with rcvstep := 2 |} else r)
  else if rcvstep r =? 2 then Some (false, if rcvlen r =? 24 + datalen r then {| r with rcvstep := 3 |} else r)
  else if rcvstep r =? 3 then Some (true, {| r with rcvstep := -1 |})
  else Some (false, {| r with rcvlen := 0; datalen := 0 |}).

(** [input + off] with [n] bytes; the result, [*uselen] and the receiver. *)
Fixpoint gb_makeup_pack (input : list Z) (off : Z) (n : nat) (rlen : Z) (r : RX) : option (Z * Z * RX) :=
  match n with
  | O => Some (-1, rlen, r)
  | S n =>
      c ← mem_get input (off + rlen);
      mark ← (if c =? 35 then d ← mem_get input (off + rlen + 1); Some (d =? 35) else Some false);
      '(full, r) ← makeup_byte mark c r;
      if (full : bool) then Some (0, rlen + 1, r) else gb_makeup_pack input off n (rlen + 1) r
  end.

(** The packet in the receiver.  The handlers of queries, setups and controls do
    nothing. *)
Definition gb_handle_packet (e : ENV) (type ack : Z) : PM Z :=
  s ← st_get;
  if type =? PROT_LOGIN then
    if negb (wait (st s) =? PROT_LOGIN) then mret 0
    else
      mod_st (fun g => {| g with wait := 0 |});;
      if negb (ack =? 0x01) then mret 0
      else
        mod_st (fun g => {| g with online := true |});;
        (if login (st s) then on_gq gb_data_flush_sending;; on_gq gb_data_flush_realtm
         else
           on_gq gb_data_clear_report;; on_gq gb_data_clear_error;;
           mod_st (fun g => {| g with login := true |}));;
        st_mod (fun s => {| s with gb_regseq := let n := u16 (gb_regseq s + 1) in if 65531 <? n then 1 else n |});;
        save_reginf;;
        mret 0
  else if type =? PROT_LOGOUT then
    if negb (wait (st s) =? PROT_LOGOUT) then mret 0
    else if negb (ack =? 0x01) then mret 0
    else
      gb_reset (e_now e AtReset);;
      mod_st (fun g => {| g with login := false |});;
      st_mod (fun s => {| s with gb_allow_sleep := true |});;
      mret (-1)
  else if type =? PROT_CALTIME then
    if negb (wait (st s) =? PROT_CALTIME) then mret 0
    else if negb (ack =? 0x01) then mret 0
    else mod_st (fun g => {| g with wait := 0; caltime := 0 |});; mret 0
  else mret 0.

Fixpoint receive_loop (fuel : nat) (e : ENV) (input : list Z) (off rlen : Z) : PM Z :=
  match fuel with
  | O => st_lift None
  | S fuel =>
      if rlen <=? 0 then mret 0
      else
        s ← st_get;
        '(res, uselen, r) ← st_lift (gb_makeup_pack input off (Z.to_nat rlen) 0 (rx (st s)));
        mod_st (fun g => {| g with rx := r |});;
        if negb (res =? 0) then mret 0
        else
          last ← st_lift (mem_get (rcvbuf r) (rcvlen r - 1));
          body ← st_lift (mem_read (rcvbuf r) 2 (rcvlen r - 3));
          ret ← (if negb (last =? gb_checksum body) then mret 0
                 else
                   type ← st_lift (mem_get (rcvbuf r) 2); ack ← st_lift (mem_get (rcvbuf r) 3);
                   gb_handle_packet e type ack : PM Z);
          if ret =? 0 then receive_loop fuel e input (off + uselen) (rlen - uselen) else mret ret
  end.

Definition gb_do_receive (e : ENV) : PM Z :=
  '(rlen, data) ← on_sk (sock_recv (e_recv e) (e_again e));
  if rlen <? 0 then gb_reset (e_now e AtReset);; mret (-1)
  else
    input ← st_lift (mem_write (e_stack e) 0 data);
    receive_loop (S (Z.to_nat rlen)) e input 0 rlen.

(** ** The connection *)

Definition gb_do_checksock (e : ENV) : PM Z :=
  s ← st_get;
  u ← st_lift (mem_get (addr_url s) 0);
  if (network (st s) =? 0) || (addr_port s =? 0) || (u =? 0) || gb_allow_sleep s then mret (-1)
  else
    stat ← on_sk sock_status;
    match stat with
    | SOCK_STAT_CLOSED =>
        none ← (if suspend (st s) then mret true else on_gq gb_data_noreport : PM bool);
        st_when (negb none && ((conn_time s =? 0) || (GB_SERVR_TIMEOUT s <? u64 (e_now e AtCheck - conn_time s))))
          (on_sk (sock_open (e_created e) (c_text (addr_url s)) (addr_port s));;
           st_mod (fun s => {| s with conn_time := e_then e AtCheck |}));;
        mret (-1)
    | SOCK_STAT_OPENED =>
        err ← on_sk (sock_error (e_sockerr e));
        bad ← (if negb (err =? 0) then mret true
               else
                 '(r, cb) ← on_sk (sock_sync (e_outq e));
                 st_when (negb (cb =? 0)) (on_gq gb_data_ack_pack);;      (* the only callback that is used *)
                 mret (negb (r =? 0)) : PM bool);
        if (bad : bool) then gb_reset (e_now e AtReset);; mret (-1) else mret 0
    | _ => mret (-1)
    end.

(** Send without a callback; what follows depends on the result. *)
Definition gb_send (e : ENV) (at_ : SITE) (buf : list Z) (sync : Z) : PM Z :=
  on_sk (sock_send (e_sends e at_) (e_now e at_) buf (len buf) sync).

Definition gb_do_wait (e : ENV) : PM Z :=
  s ← st_get;
  if wait (st s) =? 0 then mret 0
  else
    st_when (GB_SERVR_TIMEOUT s <? u64 (e_now e AtWait - waittime (st s)))
      (if wait (st s) =? PROT_LOGIN then mod_st (fun g => {| g with wait := 0 |});; gb_reset (e_now e AtReset)
       else
         n ← st_lift (int (retry (st s) + 1));
         mod_st (fun g => {| g with retry := n |});;
         if 3 <? n then
           st_when (wait (st s) =? PROT_LOGOUT)
             (mod_st (fun g => {| g with login := false |});; st_mod (fun s => {| s with gb_allow_sleep := true |}));;
           gb_reset (e_now e AtReset)
         else st_when (wait (st s) =? PROT_LOGOUT)
           (buf ← gb_pack_logout e;
            res ← gb_send e AtWait buf 0;
            if res <? 0 then gb_reset (e_now e AtReset)
            else st_when (negb (res =? 0)) (mod_st (fun g => {| g with waittime := e_then e AtWait |}))));;
    mret (-1).

Definition gb_do_login (e : ENV) : PM Z :=
  s ← st_get;
  if online (st s) then mret 0
  else
    st_when ((waittime (st s) =? 0) || (GB_LOGIN_INTV s <? u64 (e_now e AtLogin - waittime (st s))))
      (buf ← gb_pack_login e;
       res ← gb_send e AtLogin buf 0;
       if res <? 0 then gb_reset (e_now e AtReset)
       else st_when (negb (res =? 0)) (mod_st (fun g => {| g with wait := PROT_LOGIN; waittime := e_then e AtLogin |})));;
    mret (-1).

Definition gb_do_suspend (e : ENV) : PM Z :=
  s ← st_get;
  if suspend (st s) then
    n ← on_gq gb_data_nosending;
    if (n : bool) then gb_reset (e_now e AtReset);; mret (-1) else mret 0
  else mret 0.

Definition gb_do_logout (e : ENV) : PM Z :=
  s ← st_get;
  if can (st s) then mret 0
  else
    n ← on_gq gb_data_nosending;
    if (n : bool) then
      buf ← gb_pack_logout e;
      res ← gb_send e AtLogout buf 0;
      (if res <? 0 then gb_reset (e_now e AtReset)
       else st_when (negb (res =? 0)) (mod_st (fun g => {| g with wait := PROT_LOGOUT; waittime := e_then e AtLogout |})));;
      mret (-1)
    else mret 0.

(** [gb_data_ack_pack] as a callback. *)
Definition ACK_PACK : Z := 1.

(** [sizeof(buf) + GB_SOCKET_RSVD <= sock_bufsz(...)] is a comparison of unsigned
    numbers, so a failing [sock_bufsz] counts as room enough. *)
Definition gb_do_report (e : ENV) : PM Z :=
  rpt ← on_gq gb_data_get_pack;
  match rpt with
  | None => mret 0
  | Some p =>
      sz ← on_sk (sock_bufsz (e_sndbuf e) (e_bufq e));
      if 1280 + GB_SOCKET_RSVD <=? u32 sz then
        s ← st_get;
        v ← st_lift (packs (gq s) !! p);
        buf ← st_lift (gb_pack_report (gb_vin s) v);
        res ← gb_send e AtReport buf ACK_PACK;
        if res <? 0 then on_gq (gb_data_put_back p);; gb_reset (e_now e AtReset);; mret (-1)
        else if res =? 0 then on_gq (gb_data_put_back p);; mret 0
        else on_gq (gb_data_put_send p);; mret 0
      else mret 0                                       (* the pack is lost *)
  end.

(** ** Messages *)

Inductive gb_cfg_t :=
| GB_CFG_ADDR (url : list Z) (port : Z) | GB_CFG_VIN (vin : list Z) | GB_CFG_DATINTV (datintv : Z)
| GB_CFG_REGINTV (regintv : Z) | GB_CFG_TIMEOUT (timeout : Z) | GB_CFG_OTHER.

(** The parameters that are stored; [e_cfg] is the result of [cfg_set_para]. *)
Definition CFG_ITEM_GB32960_URL : Z := 33.
Definition CFG_ITEM_GB32960_PORT : Z := 34.
Definition CFG_ITEM_GB32960_VIN : Z := 32.
Definition CFG_ITEM_GB32960_REGINTV : Z := 36.
Definition CFG_ITEM_GB32960_TIMEOUT : Z := 37.
Definition CFG_ITEM_GB32960_INTERVAL : Z := 35.

Definition gb_do_config (e : ENV) (cfg : gb_cfg_t) : PM Z :=
  match cfg with
  | GB_CFG_ADDR url port =>
      if negb (e_cfg e CFG_ITEM_GB32960_URL =? 0) || negb (e_cfg e CFG_ITEM_GB32960_PORT =? 0) then mret (-1)
      else st_mod (fun s => {| s with addr_url := url; addr_port := port |});; gb_reset (e_now e AtReset);; mret 0
  | GB_CFG_VIN vin =>
      if negb (e_cfg e CFG_ITEM_GB32960_VIN =? 0) then mret (-1)
      else
        s ← st_get; v ← st_lift (mem_write (gb_vin s) 0 (vin ++ [0]));        (* strcpy *)
        st_mod (fun s => {| s with gb_vin := v |});; gb_reset (e_now e AtReset);; mret 0
  | GB_CFG_REGINTV t =>
      if negb (e_cfg e CFG_ITEM_GB32960_REGINTV =? 0) then mret (-1) else st_mod (fun s => {| s with gb_regintv := t |});; mret 0
  | GB_CFG_TIMEOUT t =>
      if negb (e_cfg e CFG_ITEM_GB32960_TIMEOUT =? 0) then mret (-1) else st_mod (fun s => {| s with gb_timeout := t |});; mret 0
  | GB_CFG_DATINTV t =>
      if negb (e_cfg e CFG_ITEM_GB32960_INTERVAL =? 0) then mret (-1)
      else on_gq (st_mod (fun q => {| q with gb_datintv := t |}));; mret 0     (* gb_data_set_intv *)
  | GB_CFG_OTHER => mret 0
  end.

Inductive GB_MSG :=
| GB_MSG_NETWORK (network : Z) | PM_MSG_EMERGENCY | PM_MSG_RUNNING | PM_MSG_OFF | GB_MSG_CANON | GB_MSG_CANOFF
| GB_MSG_SUSPEND | GB_MSG_RESUME | GB_MSG_STATUS | GB_MSG_ERRON | GB_MSG_ERROFF | GB_MSG_CONFIG (cfg : gb_cfg_t) | GB_NO_MSG.

Definition gb_message (e : ENV) (msg : GB_MSG) : PM unit :=
  match msg with
  | GB_MSG_NETWORK n =>
      s ← st_get;
      st_when (negb (network (st s) =? n)) (gb_reset (e_now e AtReset);; mod_st (fun g => {| g with network := n |}))
  | PM_MSG_EMERGENCY => on_gq (gb_data_emergence true)
  | PM_MSG_RUNNING | PM_MSG_OFF => on_gq (gb_data_emergence false)
  | GB_MSG_CANON => mod_st (fun g => {| g with can := true |});; st_mod (fun s => {| s with gb_allow_sleep := false |})
  | GB_MSG_CANOFF => mod_st (fun g => {| g with can := false |});; st_mod (fun s => {| s with gb_allow_sleep := negb (online (st s)) |})
  | GB_MSG_SUSPEND => mod_st (fun g => {| g with suspend := true |});; on_gq (gb_data_set_pendflag true)
  | GB_MSG_RESUME => mod_st (fun g => {| g with suspend := false |});; on_gq (gb_data_set_pendflag false)
  | GB_MSG_ERRON => mod_st (fun g => {| g with errtrig := true |})
  | GB_MSG_ERROFF => mod_st (fun g => {| g with errtrig := false |})
  | GB_MSG_CONFIG cfg => gb_do_config e cfg;; mret tt
  | GB_MSG_STATUS | GB_NO_MSG => mret tt
  end.

(** [a || b]: the next function runs if the last one gave 0. *)
Definition or_else (a b : PM Z) : PM Z := r ← a; if negb (r =? 0) then mret 1 else b.

(** One round of [gb_main]. *)
Definition gb_iteration (e : ENV) (msg : GB_MSG) : PM unit :=
  gb_message e msg;;
  or_else (gb_do_checksock e) (or_else (gb_do_receive e) (or_else (gb_do_wait e) (or_else (gb_do_login e)
    (or_else (gb_do_suspend e) (or_else (gb_do_report e) (gb_do_logout e))))));;
  mret tt.
