(* ===== verification/GbRecv.v ===== *)
(** * Theorems about the receiver of the GB/T 32960 protocol

    The stream of packets that a server sends, however it is cut into reads, is
    received as exactly these packets; what the receiver does with a packet whose
    announced length does not fit its buffer. *)

From stdpp Require Import gmap.
From S2P Require Import Prelude Clist Cstd GbData GbQueue GbSteps Sock GbProt.

(** ** Packets *)

(** A packet: [pk_head] are the 20 bytes after the start bytes. *)
Record PACKET := { pk_head : list Z; pk_data : list Z }.

Definition pk_body (p : PACKET) : list Z := pk_head p ++ be16 (len (pk_data p)) ++ pk_data p.
Definition pk_bytes (p : PACKET) : list Z := gb_sealed ([35; 35] ++ pk_body p).

(** No start bytes inside of [l]. *)
Fixpoint no_mark (l : list Z) : bool :=
  match l with
  | a :: ((b :: _) as r) => negb ((a =? 35) && (b =? 35)) && no_mark r
  | _ => true
  end.

(** A packet that the receiver can follow. *)
Record packet_ok (p : PACKET) : Prop := {
  pk_head_len : len (pk_head p) = 20;
  pk_data_len : 1 <= len (pk_data p) <= 999;
  pk_clean : no_mark (35 :: pk_body p ++ [gb_checksum (pk_body p)]) = true;
  pk_seal : gb_checksum (pk_body p) <> 35
}.

(** ** Bytes *)

(** The stream of the bytes; the look ahead ends with the list. *)
Definition peek (l : list Z) : bool := match l with d :: _ => d =? 35 | [] => false end.

Fixpoint rx_bytes (l : list Z) (r : RX) : option (list (list Z) * RX) :=
  match l with
  | [] => Some ([], r)
  | c :: l =>
      '(full, r) ← makeup_byte ((c =? 35) && peek l) c r;
      if (full : bool) then
        f ← mem_read (rcvbuf r) 0 (rcvlen r); '(fs, r) ← rx_bytes l r; Some (f :: fs, r)
      else rx_bytes l r
  end.

(** The length field in the bytes [pre] of a packet, and the step that the receiver
    is in after them. *)
Definition length_field (pre : list Z) : Z :=
  match drop 22 pre with [] => 0 | [a] => a | a :: b :: _ => a * 256 + b end.
Definition step_after (pre : list Z) : Z :=
  if len pre <? 22 then 0 else if len pre <? 24 then 1
  else if (len pre =? 24) || (length_field pre <=? 0) || (len pre <? 24 + length_field pre) then 2 else 3.

Record mid (pre : list Z) (r : RX) : Prop := {
  mid_size : len (rcvbuf r) = 1024;
  mid_stored : block_at (rcvbuf r) 0 pre;
  mid_len : rcvlen r = len pre;
  mid_datalen : datalen r = length_field pre;
  mid_step : rcvstep r = step_after pre
}.

(** The length of a packet is known to be enough for its header. *)
Definition rx_wf (r : RX) : Prop :=
  (rcvstep r = 1 -> 22 <= rcvlen r) /\ (rcvstep r = 2 -> 24 <= rcvlen r) /\ (rcvstep r = 3 -> 25 <= rcvlen r).

(** The receiver in any state, also in the middle of a packet. *)
Definition rx_ready (r : RX) : Prop := len (rcvbuf r) = 1024 /\ rx_wf r.

Lemma drop_snoc_le {A} n (l : list A) x : (n <= length l)%nat -> drop n (l ++ [x]) = drop n l ++ [x].
Proof. intros. rewrite drop_app. replace (n - length l)%nat with 0%nat by lia. done. Qed.

Lemma length_field_snoc pre c :
  length_field (pre ++ [c]) = (if step_after pre =? 1 then length_field pre * 256 + c else length_field pre).
Proof.
  unfold length_field, step_after, len.
  destruct (decide (length pre < 22)%nat) as [H|H].
  { rewrite !drop_ge by (rewrite ?length_app; cbn; lia). repeat (case_bool; cbn; try lia). }
  rewrite drop_snoc_le by lia.
  pose proof (length_drop pre 22) as L.
  destruct (drop 22 pre) as [|a [|b l]]; cbn [length] in L; cbn [app]; repeat (case_bool; cbn in *; try lia).
Qed.

Lemma step_after_snoc pre c :
  step_after (pre ++ [c]) =
    (if step_after pre =? 0 then if len pre + 1 =? 22 then 1 else 0
     else if step_after pre =? 1 then if len pre + 1 =? 24 then 2 else 1
     else if step_after pre =? 2 then if len pre + 1 =? 24 + length_field pre then 3 else 2
     else 3).
Proof.
  unfold step_after at 1. rewrite length_field_snoc, len_app. change (len [c]) with 1.
  unfold step_after. repeat (case_bool; cbn in *; try lia).
Qed.

(** One more byte of a packet. *)
Lemma makeup_byte_mid pre c r :
  mid pre r -> step_after pre <> 3 -> len pre < 1024 ->
  exists r', makeup_byte false c r = Some (false, r') /\ mid (pre ++ [c]) r'.
Proof.
  intros [Hs Hb Hl Hd Hp] H3 Hn. unfold makeup_byte. pose proof (len_nonneg pre).
  destruct (mem_set_exists (rcvbuf r) (rcvlen r) c) as (buf & Hset & Hu & Hg); [lia |].
  rewrite Hset. cbn.
  assert (block_at buf 0 (pre ++ [c])) as Hblk.
  { apply block_at_app. split.
    - eapply block_at_unchanged; [done | | done]. lia.
    - by rewrite block_at_single, <- Hl. }
  assert (forall r', rcvbuf r' = buf -> rcvlen r' = rcvlen r + 1 ->
    datalen r' = length_field (pre ++ [c]) -> rcvstep r' = step_after (pre ++ [c]) ->
    mid (pre ++ [c]) r') as Hmid.
  { intros r' E1 E2 E3 E4. constructor; rewrite ?E1, ?E2; [| done | | done | done].
    - by rewrite (mem_set_len _ _ _ _ Hset).
    - rewrite len_app. change (len [c]) with 1. lia. }
  rewrite Hp, Hl, Hd.
  assert (step_after pre = 0 \/ step_after pre = 1 \/ step_after pre = 2) as Hc.
  { revert H3. unfold step_after. repeat (case_bool; cbn); lia. }
  destruct Hc as [Hc|[Hc|Hc]]; rewrite Hc; cbn; eexists; (split; [reflexivity |]);
    apply Hmid; destruct (_ =? _) eqn:E; cbn; try done; try lia;
    rewrite ?length_field_snoc, ?step_after_snoc, Hc, ?E, ?Hd; cbn; done.
Qed.

Lemma makeup_byte_wf mark c r b r' :
  rx_wf r -> makeup_byte mark c r = Some (b, r') -> rx_wf r' /\ (b = true -> 26 <= rcvlen r' <= len (rcvbuf r')).
Proof.
  unfold rx_wf, makeup_byte. intros W.
  assert (forall b i v b', @mem_set Z b i v = Some b' -> i < len b') as Hset.
  { intros b0 i v b' H. pose proof (mem_set_len _ _ _ _ H). apply mem_set_get, mem_get_Some in H. lia. }
  destruct mark; cbn [rcvbuf rcvlen]; destruct (mem_set _ _ _) as [buf|] eqn:E; try done;
    apply Hset in E; cbn - [len]; repeat case_bool; cbn - [len]; intros [= <- <-]; cbn - [len]; lia.
Qed.

(** The first byte of a packet. *)
Lemma makeup_byte_start r :
  len (rcvbuf r) = 1024 -> exists r', makeup_byte true 35 r = Some (false, r') /\ mid [35] r'.
Proof.
  intros Hs. unfold makeup_byte. cbn [rcvbuf rcvlen rcvstep datalen].
  destruct (mem_set_exists (rcvbuf r) 0 35) as (buf & Hset & _ & Hg); [lia |].
  rewrite Hset. cbn. change (0 + 1 =? 22) with false. cbv iota.
  eexists. split; [reflexivity |]. constructor; cbn [rcvbuf rcvlen datalen rcvstep]; try done.
  - by rewrite (mem_set_len _ _ _ _ Hset).
  - by apply block_at_single.
Qed.

(** The checksum. *)
Lemma makeup_byte_end pre c r :
  mid pre r -> step_after pre = 3 -> len pre < 1024 ->
  exists r', makeup_byte false c r = Some (true, r') /\ rx_ready r' /\
    mem_read (rcvbuf r') 0 (rcvlen r') = Some (pre ++ [c]).
Proof.
  intros [Hs Hb Hl Hd Hp] H3 Hn. unfold makeup_byte. pose proof (len_nonneg pre).
  destruct (mem_set_exists (rcvbuf r) (rcvlen r) c) as (buf & Hset & Hu & Hg); [lia |].
  rewrite Hset. cbn. rewrite Hp, H3. cbn. eexists. split; [reflexivity |]. split.
  - split; cbn [rcvbuf rcvstep]; [| by unfold rx_wf]. by rewrite (mem_set_len _ _ _ _ Hset).
  - cbn. assert (block_at buf 0 (pre ++ [c])) as Hblk.
    { apply block_at_app. split; [| by rewrite block_at_single, <- Hl].
      eapply block_at_unchanged; [done | | done]. lia. }
    unfold block_at in Hblk. rewrite len_app in Hblk. change (len [c]) with 1 in Hblk. by rewrite Hl.
Qed.

Lemma makeup_byte_overflow pre c r : mid pre r -> 1024 <= len pre -> makeup_byte false c r = None.
Proof.
  intros [Hs Hb Hl Hd Hp] Hn. unfold makeup_byte. cbn.
  destruct (mem_set (rcvbuf r) (rcvlen r) c) eqn:H; [| done].
  exfalso. revert H. unfold mem_set. rewrite Hl, Hs. repeat (case_bool; cbn; try lia); done.
Qed.

Lemma no_mark_cons c l : no_mark (c :: l) = negb ((c =? 35) && peek l) && no_mark l.
Proof. destruct l; cbn; [by rewrite andb_false_r | done]. Qed.

Lemma peek_app l d k : peek (l ++ d :: k) = peek (l ++ [d]).
Proof. by destruct l. Qed.

(** The bytes of a packet after the first one, up to a byte [d]. *)
Lemma rx_bytes_mid l : forall pre d k r,
  mid pre r -> no_mark (l ++ [d]) = true -> len pre + len l <= 1024 ->
  (forall l1 l2, l = l1 ++ l2 -> l2 <> [] -> step_after (pre ++ l1) <> 3) ->
  exists r', rx_bytes (l ++ d :: k) r = rx_bytes (d :: k) r' /\ mid (pre ++ l) r'.
Proof.
  induction l as [|c l IH]; intros pre d k r Hm Hn Hl H3.
  { exists r. by rewrite app_nil_r. }
  cbn [app] in Hn. rewrite no_mark_cons in Hn. apply andb_true_iff in Hn as [Hc Hn].
  rewrite len_cons in Hl. pose proof (len_nonneg l).
  destruct (makeup_byte_mid pre c r) as (r1 & E1 & Hm1); [done | | lia |].
  { specialize (H3 [] (c :: l) eq_refl). rewrite app_nil_r in H3. by apply H3. }
  destruct (IH (pre ++ [c]) d k r1) as (r' & E & Hm'); [done | done | | |].
  - rewrite len_app. change (len [c]) with 1. lia.
  - intros l1 l2 -> Hne. rewrite <- app_assoc. by apply (H3 (c :: l1) l2).
  - exists r'. rewrite <- app_assoc in Hm'. split; [| done].
    change ((c :: l) ++ d :: k) with (c :: (l ++ d :: k)). cbn [rx_bytes].
    rewrite peek_app. apply negb_true_iff in Hc. rewrite Hc, E1. exact E.
Qed.

(** ** Packets are received *)

Lemma be16_value n : 0 <= n < 65536 -> exists a b, be16 n = [a; b] /\ a * 256 + b = n.
Proof.
  intros. unfold be16. do 2 eexists. split; [reflexivity |]. unfold u8.
  rewrite Z.shiftr_div_pow2 by lia. change (2 ^ 8) with 256.
  pose proof (Z.div_mod n 256 ltac:(lia)). rewrite (Z.mod_small (n / 256)); [lia |].
  split; [apply Z.div_pos; lia | apply Z.div_lt_upper_bound; lia].
Qed.

(** The bytes that begin with a header. *)
Definition headed (h : list Z) (n : Z) (d : list Z) : list Z := [35; 35] ++ h ++ be16 n ++ d.

Lemma headed_len h n d : len h = 20 -> len (headed h n d) = 24 + len d.
Proof. intros. unfold headed. rewrite !len_app, H. change (len [35; 35]) with 2.
  change (len (be16 n)) with 2. lia. Qed.

Lemma step_after_headed h n d l1 l2 :
  len h = 20 -> 0 <= n < 65536 -> headed h n d = l1 ++ l2 ->
  step_after l1 = 3 <-> 1 <= n /\ 24 + n <= len l1 /\ 24 < len l1.
Proof.
  intros Hh Hn E. destruct (be16_value n Hn) as (a & b & Hb & Hab).
  destruct (decide (24 <= len l1)) as [Hl|Hl]; cycle 1.
  { unfold step_after. repeat (case_bool; cbn; try lia). }
  assert (length_field l1 = n) as Hf.
  { unfold length_field.
    assert (drop 22 (headed h n d) = a :: b :: d) as Hd.
    { unfold headed. rewrite Hb, (app_assoc _ h), drop_app_length'; [done |].
      rewrite length_app. cbn. unfold len in Hh. lia. }
    rewrite E, drop_app in Hd. unfold len in Hl.
    replace (22 - length l1)%nat with 0%nat in Hd by lia. rewrite drop_0 in Hd.
    pose proof (length_drop l1 22) as L.
    destruct (drop 22 l1) as [|a' [|b' l]]; cbn [length] in L; [lia.. |].
    injection Hd as -> -> _. done. }
  unfold step_after. rewrite Hf. repeat (case_bool; cbn; try lia).
Qed.

Lemma pk_bytes_headed p :
  pk_bytes p = headed (pk_head p) (len (pk_data p)) (pk_data p) ++ [gb_checksum (pk_body p)].
Proof. reflexivity. Qed.

Lemma rx_bytes_packet p k r :
  packet_ok p -> rx_ready r -> exists r', rx_ready r' /\
    rx_bytes (pk_bytes p ++ k) r = ('(fs, r) ← rx_bytes k r'; Some (pk_bytes p :: fs, r)).
Proof.
  intros [Hh Hd Hc Hs] [Hb _]. destruct (makeup_byte_start r Hb) as (r1 & E1 & Hm1).
  set (cs := gb_checksum (pk_body p)) in *.
  destruct (rx_bytes_mid (35 :: pk_body p) [35] cs k r1) as (r2 & E2 & Hm2); [done | done | | |].
  - unfold pk_body. rewrite !len_cons, !len_app, len_nil, Hh.
    change (len (be16 _)) with 2. lia.
  - intros l1 l2 El Hne H3.
    assert (headed (pk_head p) (len (pk_data p)) (pk_data p) = ([35] ++ l1) ++ l2) as Eh
      by (rewrite <- app_assoc, <- El; done).
    pose proof (f_equal len Eh) as L. rewrite headed_len, len_app in L by done.
    eapply step_after_headed in H3; [| done | | exact Eh]; [| lia].
    destruct l2; [done |]. rewrite len_cons in L. pose proof (len_nonneg l2). lia.
  - change ([35] ++ 35 :: pk_body p) with (headed (pk_head p) (len (pk_data p)) (pk_data p)) in Hm2.
    destruct (makeup_byte_end _ cs r2 Hm2) as (r3 & E3 & Hi & Hf).
    { apply (step_after_headed (pk_head p) (len (pk_data p)) (pk_data p) _ []); rewrite ?app_nil_r; try done; [lia |].
      rewrite headed_len by done. lia. }
    { rewrite headed_len by done. lia. }
    exists r3. split; [done |].
    change (pk_bytes p ++ k) with (35 :: 35 :: (pk_body p ++ [cs]) ++ k).
    rewrite <- app_assoc. cbn [app].
    assert (rx_bytes (35 :: 35 :: pk_body p ++ cs :: k) r = rx_bytes ((35 :: pk_body p) ++ cs :: k) r1) as ->.
    { cbn [rx_bytes peek app]. change ((35 =? 35) && (35 =? 35)) with true. by rewrite E1. }
    rewrite E2. cbn [rx_bytes]. rewrite (proj2 (Z.eqb_neq cs 35)) by done. cbn [andb].
    rewrite E3. cbn. rewrite Hf. done.
Qed.

Lemma rx_bytes_packets ps : forall r,
  Forall packet_ok ps -> rx_ready r ->
  exists r', rx_ready r' /\ rx_bytes (concat (map pk_bytes ps)) r = Some (map pk_bytes ps, r').
Proof.
  induction ps as [|p ps IH]; intros r Hp Hi; cbn [map concat].
  { by exists r. }
  inversion_clear Hp as [|? ? Hp1 Hp2].
  destruct (rx_bytes_packet p (concat (map pk_bytes ps)) r Hp1 Hi) as (r1 & Hi1 & E1).
  destruct (IH r1 Hp2 Hi1) as (r' & Hi' & E). exists r'. split; [done |].
  rewrite E1, E. done.
Qed.

(** ** Reads are streams of bytes *)

Definition ends_clean (l : list Z) : Prop := List.last l 0 <> 35.

Lemma ends_clean_cons c l : ends_clean (c :: l) -> ends_clean l.
Proof. unfold ends_clean. destruct l; cbn; [lia | done]. Qed.

(** The look ahead past the end does not matter. *)
Lemma ends_clean_peek c l k : ends_clean (c :: l) -> (c =? 35) && peek (l ++ k) = (c =? 35) && peek l.
Proof.
  destruct l as [|d l]; [| done]. unfold ends_clean. cbn. intros.
  by rewrite (proj2 (Z.eqb_neq c 35)).
Qed.

Lemma rx_bytes_app l k : forall r, ends_clean l ->
  rx_bytes (l ++ k) r = ('(fs, r) ← rx_bytes l r; '(gs, r) ← rx_bytes k r; Some (fs ++ gs, r)).
Proof.
  induction l as [|c l IH]; intros r Hc; cbn [app rx_bytes].
  { cbn. by destruct (rx_bytes k r) as [[]|]. }
  rewrite ends_clean_peek by done. apply ends_clean_cons in Hc.
  destruct (makeup_byte _ c r) as [[full r1]|]; cbn; [| done].
  destruct full; [| by apply IH].
  destruct (mem_read _ _ _); cbn; [| done]. rewrite IH by done.
  destruct (rx_bytes l r1) as [[fs r2]|]; cbn; [| done]. by destruct (rx_bytes k r2) as [[]|].
Qed.

Lemma makeup_pack_bytes l : forall input off rlen r,
  rx_wf r -> 0 <= off + rlen -> block_at input (off + rlen) l -> ends_clean l ->
  match gb_makeup_pack input off (length l) rlen r with
  | Some (res, n, r') => exists l1 l2, l = l1 ++ l2 /\ n = rlen + len l1 /\ rx_wf r' /\
      ((res = 0 /\ l1 <> [] /\ 4 <= rcvlen r' <= len (rcvbuf r') /\
          rx_bytes l r = (f ← mem_read (rcvbuf r') 0 (rcvlen r'); '(fs, r) ← rx_bytes l2 r'; Some (f :: fs, r)))
       \/ (res = -1 /\ rx_bytes l r = Some ([], r')))
  | None => rx_bytes l r = None
  end.
Proof.
  induction l as [|c l IH]; intros input off rlen r W Ho Hb Hc; cbn [length gb_makeup_pack rx_bytes].
  { exists [], []. split; [done |]. rewrite len_nil. split; [lia |]. split; [done | by right]. }
  apply block_at_cons in Hb as [Hg Hb]. rewrite Hg. cbn [mbind option_bind].
  assert ((if c =? 35 then d ← mem_get input (off + rlen + 1); Some (d =? 35) else Some false)
          = Some ((c =? 35) && peek l)) as ->.
  { destruct (Z.eqb_spec c 35) as [->|]; [| done]. destruct l as [|d l]; [by destruct Hc |].
    apply block_at_cons in Hb as [Hg' _]. by rewrite Hg'. }
  cbn [mbind option_bind]. destruct (makeup_byte _ c r) as [[full r1]|] eqn:Eb; cbn; [| done].
  apply makeup_byte_wf in Eb as [W1 Hlen]; [| done]. destruct full.
  - exists [c], l. split; [done |]. rewrite len_cons, len_nil. split; [lia |]. split; [done |]. left.
    specialize (Hlen eq_refl). split; [done |]. split; [done |]. split; [lia | done].
  - assert (off + rlen + 1 = off + (rlen + 1)) as Eo by lia. rewrite Eo in Hb.
    specialize (IH input off (rlen + 1) r1 W1 ltac:(lia) Hb (ends_clean_cons _ _ Hc)).
    destruct (gb_makeup_pack _ _ _ _ _) as [[[res n] r']|]; [| done].
    destruct IH as (l1 & l2 & -> & -> & W' & H). exists (c :: l1), l2.
    split; [done |]. split; [rewrite len_cons; lia |]. split; [done |].
    destruct H as [(? & ? & ? & ?)|?]; [left | by right]. done.
Qed.

(** ** The handling of packets *)

(** What [receive_loop] does with a packet. *)
Definition handle_frame (e : ENV) (f : list Z) : PM Z :=
  last ← st_lift (mem_get f (len f - 1));
  body ← st_lift (mem_read f 2 (len f - 3));
  if negb (last =? gb_checksum body) then mret 0
  else type ← st_lift (mem_get f 2); ack ← st_lift (mem_get f 3); gb_handle_packet e type ack.

Fixpoint handle_frames (e : ENV) (fs : list (list Z)) : PM Z :=
  match fs with
  | [] => mret 0
  | f :: fs => r ← handle_frame e f; if r =? 0 then handle_frames e fs else mret r
  end.

Definition with_rx (r : RX) (s : PROT) : PROT := let g := st s in {| s with st := {| g with rx := r |} |}.

(** The connection is open and no logout is awaited. *)
Definition calm (s : PROT) : Prop := wait (st s) <> PROT_LOGOUT /\ stat (sk s) = SOCK_STAT_OPENED.

(** [m] does not look at the receiver and does not change it; the result has [Q]. *)
Definition blind {A} (Q : A -> Prop) (m : PM A) : Prop :=
  forall r s, calm s ->
  match m s with
  | Some (a, s') => m (with_rx r s) = Some (a, with_rx r s') /\ calm s' /\ Q a
  | None => m (with_rx r s) = None
  end.

Lemma blind_ret {A} (Q : A -> Prop) a : Q a -> blind Q (mret a : PM A).
Proof. intros HQ r s Hs. done. Qed.

Lemma blind_bind {A B} (P : A -> Prop) (Q : B -> Prop) (m : PM A) (k : A -> PM B) :
  blind P m -> (forall a, P a -> blind Q (k a)) -> blind Q (m ≫= k).
Proof.
  intros Hm Hk r s Hs. specialize (Hm r s Hs). unfold mbind, st_bind.
  destruct (m s) as [[a s1]|]; [| by rewrite Hm].
  destruct Hm as (-> & Hs1 & Ha). by apply Hk.
Qed.

Lemma blind_get {A} (Q : A -> Prop) (k : PROT -> PM A) :
  (forall s, calm s -> blind Q (k s)) -> (forall r s, k (with_rx r s) = k s) -> blind Q (st_get ≫= k).
Proof.
  intros Hk E r s Hs. specialize (Hk s Hs r s Hs). st_run. by rewrite E.
Qed.

Lemma blind_mod (f : PROT -> PROT) :
  (forall r s, f (with_rx r s) = with_rx r (f s)) -> (forall s, calm s -> calm (f s)) ->
  blind (fun _ => True) (st_mod f).
Proof. intros E Hc r s Hs. unfold st_mod. rewrite E. auto. Qed.

Lemma blind_lift {A} (o : option A) : blind (fun a => o = Some a) (st_lift o : PM A).
Proof. intros r s Hs. by destruct o. Qed.

Lemma blind_on_gq {A} (m : GM A) : blind (fun _ => True) (on_gq m).
Proof.
  apply blind_get; [| done]. intros s _. eapply blind_bind; [apply blind_lift |]. intros [a q] _.
  eapply blind_bind; [by apply blind_mod |]. intros _ _. by apply blind_ret.
Qed.

Ltac blind_mod_tac := apply blind_mod; [done | by intros ? [? ?]].

Ltac blind_step :=
  match goal with
  | |- blind _ (mret _) => by apply blind_ret
  | |- blind _ (st_get ≫= _) => apply blind_get; [intros ? ? | by intros]
  | |- blind _ (if ?b then _ else _) =>
      lazymatch b with context [PROT_LOGOUT] => fail | _ => destruct b end
  | |- blind _ (on_gq _ ≫= _) => eapply blind_bind; [apply blind_on_gq |]; intros ? _
  | |- blind _ (mod_st _ ≫= _) => eapply blind_bind; [blind_mod_tac |]; intros ? _
  | |- blind _ (st_mod _ ≫= _) => eapply blind_bind; [blind_mod_tac |]; intros ? _
  | |- blind _ (save_reginf ≫= _) => eapply blind_bind; [blind_mod_tac |]; intros ? _
  | |- blind _ (st_lift _ ≫= _) => eapply blind_bind; [apply blind_lift |]; intros ? _
  end.

Lemma handle_packet_blind e t a : blind (fun n => n = 0) (gb_handle_packet e t a).
Proof.
  unfold gb_handle_packet. repeat blind_step.
  - eapply (blind_bind (fun _ => True)).
    + repeat blind_step; [apply blind_on_gq | blind_mod_tac].
    + intros _ _. unfold save_reginf. repeat blind_step.
  - match goal with H : calm ?s |- _ => rewrite (proj2 (Z.eqb_neq (wait (st s)) PROT_LOGOUT) (proj1 H)) end.
    cbn [negb]. destruct (t =? PROT_LOGOUT); repeat blind_step.
Qed.

(** Nor does it depend on the environment. *)
Lemma handle_packet_env e e' t a s : calm s -> gb_handle_packet e t a s = gb_handle_packet e' t a s.
Proof.
  intros [Hs _]. unfold gb_handle_packet. st_run. by rewrite (proj2 (Z.eqb_neq _ _) Hs).
Qed.

(** ** The loop *)

Lemma block_at_get (b l : list Z) i : block_at b 0 l -> 0 <= i < len l -> mem_get b i = mem_get l i.
Proof.
  rewrite block_at_iff. intros (_ & _ & Hk) Hi. rewrite !mem_get_lookup by lia.
  rewrite <- (Hk (Z.to_nat i)) by lia. done.
Qed.

Lemma block_at_read (b l : list Z) o n :
  block_at b 0 l -> 0 <= o -> 0 <= n -> o + n <= len l -> mem_read b o n = mem_read l o n.
Proof.
  intros Hb Ho Hn Hl.
  pose proof (block_at_take_eq _ _ Hb) as E.
  apply block_at_iff in Hb as (_ & Hb & _).
  rewrite !mem_read_ok by lia. rewrite <- E at 1. f_equal.
  rewrite skipn_firstn_comm, take_take. f_equal. lia.
Qed.

Lemma handle_frame_blind e f : blind (fun n => n = 0) (handle_frame e f).
Proof. unfold handle_frame. repeat blind_step. apply handle_packet_blind. Qed.

Lemma handle_frames_blind e fs : blind (fun n => n = 0) (handle_frames e fs).
Proof.
  induction fs as [|f fs IH]; cbn [handle_frames]; [by apply blind_ret |].
  eapply blind_bind; [apply handle_frame_blind |]. by intros ? ->.
Qed.

(** The packet in the receiver is the frame [f]. *)
Lemma handle_frame_in e f buf n (k : Z -> PM Z) s :
  mem_read buf 0 n = Some f -> 4 <= n ->
  (last ← st_lift (mem_get buf (n - 1));
   body ← st_lift (mem_read buf 2 (n - 3));
   ret ← (if negb (last =? gb_checksum body) then mret 0
          else
            type ← st_lift (mem_get buf 2); ack ← st_lift (mem_get buf 3);
            gb_handle_packet e type ack : PM Z);
   k ret) s = (handle_frame e f ≫= k) s.
Proof.
  intros Hr Hn. pose proof (mem_read_len _ _ _ _ Hr). subst n. change (block_at buf 0 f) in Hr.
  rewrite !(block_at_get _ _ _ Hr), (block_at_read _ _ _ _ Hr) by lia. unfold handle_frame.
  destruct (mem_get_is_Some f (len f - 1)) as [x ->]; [lia |].
  rewrite mem_read_ok by lia. st_run. destruct (negb _); [done |].
  destruct (mem_get_is_Some f 2) as [y ->]; [lia |]. by destruct (mem_get_is_Some f 3) as [z ->]; [lia |].
Qed.

Lemma handle_frames_cons e f fs s :
  handle_frames e (f :: fs) s =
    match handle_frame e f s with
    | Some (n, s') => if n =? 0 then handle_frames e fs s' else Some (n, s')
    | None => None
    end.
Proof.
  cbn [handle_frames]. unfold mbind, st_bind. destruct (handle_frame e f s) as [[n s']|]; [| done].
  by destruct (n =? 0).
Qed.

Lemma with_rx_id s : with_rx (rx (st s)) s = s.
Proof. by destruct s as [? ? []]. Qed.

Lemma ends_clean_r l k : ends_clean (l ++ k) -> ends_clean k.
Proof. induction l as [|c l IH]; [done |]. intros H. by apply IH, (ends_clean_cons c). Qed.

(** What [m] gives from [s], with the receiver [r]. *)
Definition left_in (r : option (list (list Z) * RX)) (m : list (list Z) -> PM Z) (s : PROT) : option (Z * PROT) :=
  match r with
  | Some (fs, r) => match m fs s with Some (n, s') => Some (n, with_rx r s') | None => None end
  | None => None
  end.

Lemma loop_frames e : forall fuel l input off s,
  (length l < fuel)%nat -> 0 <= off -> block_at input off l -> ends_clean l -> calm s -> rx_wf (rx (st s)) ->
  receive_loop fuel e input off (len l) s = left_in (rx_bytes l (rx (st s))) (handle_frames e) s.
Proof.
  induction fuel as [|fuel IH]; intros l input off s Hf Ho Hb Hc Hs W; [lia |].
  cbn [receive_loop]. destruct (Z.leb_spec (len l) 0) as [H0|H0].
  { apply len_le_0 in H0 as ->. cbn. by rewrite with_rx_id. }
  st_run. replace (Z.to_nat (len l)) with (length l) by (unfold len; lia).
  pose proof (makeup_pack_bytes l input off 0 (rx (st s)) W ltac:(lia)) as M. rewrite Z.add_0_r in M.
  specialize (M Hb Hc). destruct (gb_makeup_pack _ _ _ _ _) as [[[res n] r]|]; [| by rewrite M].
  destruct M as (l1 & l2 & -> & -> & W' & [(-> & Hne & H4 & M)|(-> & M)]); st_run; rewrite M; [| done].
  change (negb (0 =? 0)) with false. cbv iota.
  destruct (mem_read (rcvbuf r) 0 (rcvlen r)) as [f|] eqn:Hr; [| rewrite mem_read_ok in Hr by lia; done].
  unfold mod_st at 1. st_run. rewrite (handle_frame_in e f) by (done || lia).
  change ({| gq := gq s; st := _ |}) with (with_rx r s).
  pose proof (handle_frame_blind e f r s Hs) as B. unfold mbind at 1, st_bind at 1. cbn [mbind option_bind].
  destruct (handle_frame e f s) as [[n s1]|] eqn:Ef; cycle 1.
  { rewrite B. destruct (rx_bytes l2 r) as [[fs r2]|]; [| done]. cbn [mbind option_bind left_in].
    by rewrite handle_frames_cons, Ef. }
  destruct B as (-> & Hs1 & ->). cbn [Z.eqb].
  pose proof (ends_clean_r _ _ Hc) as Hc2. apply block_at_app in Hb as [_ Hb2].
  replace (len (l1 ++ l2) - (0 + len l1)) with (len l2) by (rewrite len_app; lia).
  pose proof (len_nonneg l1). destruct l1 as [|c l1]; [done |].
  rewrite IH; [| rewrite length_app in Hf; cbn in Hf; lia | lia | done | done | done | done].
  cbn [with_rx st rx]. destruct (rx_bytes l2 r) as [[fs r2]|]; [| done]. cbn [mbind option_bind left_in].
  rewrite handle_frames_cons, Ef. cbn [Z.eqb].
  pose proof (handle_frames_blind e fs r s1 Hs1) as B.
  destruct (handle_frames e fs s1) as [[n s2]|]; [| by rewrite B].
  by destruct B as (-> & Hs2 & ->).
Qed.

(** ** Reads *)

(** [recv] gives the bytes [d], which do not end with a start byte. *)
Record read_ok (e : ENV) (d : list Z) : Prop := {
  read_bytes : e_recv e = Some d;
  read_some : d <> [];
  read_size : len d <= 1024;
  read_clean : ends_clean d;
  read_buffer : len (e_stack e) = 1024
}.

(** The function once per read. *)
Fixpoint receive_all (es : list ENV) : PM Z :=
  match es with
  | [] => mret 0
  | e :: es => r ← gb_do_receive e; if r =? 0 then receive_all es else mret r
  end.

Lemma do_receive_frames e d s :
  read_ok e d -> calm s -> rx_wf (rx (st s)) ->
  gb_do_receive e s = left_in (rx_bytes d (rx (st s))) (handle_frames e) s.
Proof.
  intros [Hr Hne Hl Hc Hb] Hs W. unfold gb_do_receive.
  assert (on_sk (sock_recv (e_recv e) (e_again e)) s = Some ((len d, d), s)) as E.
  { unfold on_sk, sock_recv. destruct Hs as [_ Ho]. st_run. rewrite Ho. cbn. rewrite Hr.
    destruct d; [done |]. by destruct s. }
  st_call E. pose proof (len_nonneg d). destruct (Z.ltb_spec (len d) 0); [lia |].
  destruct (mem_write (e_stack e) 0 d) as [input|] eqn:Hw; [| rewrite mem_write_ok in Hw by lia; done].
  st_run. apply loop_frames; try done; [unfold len; lia |]. by eapply mem_write_block_at.
Qed.

Lemma rx_bytes_wf l : forall r fs r', rx_wf r -> rx_bytes l r = Some (fs, r') -> rx_wf r'.
Proof.
  induction l as [|c l IH]; intros r fs r' W; cbn [rx_bytes]; [congruence |].
  destruct (makeup_byte _ c r) as [[full r1]|] eqn:Eb; [| done]. cbn [mbind option_bind].
  apply makeup_byte_wf in Eb as [W1 _]; [| done]. destruct full; [| by apply IH].
  destruct (mem_read _ _ _); [| done]. cbn [mbind option_bind].
  destruct (rx_bytes l r1) as [[gs r2]|] eqn:E; [| done]. intros [= _ <-]. by eapply IH.
Qed.

Lemma handle_frame_env e e' f s : calm s -> handle_frame e f s = handle_frame e' f s.
Proof.
  intros Hs. unfold handle_frame.
  destruct (mem_get f (len f - 1)) as [x|]; [| done]. destruct (mem_read f 2 _) as [b|]; [| done]. st_run.
  destruct (negb _); [done |]. destruct (mem_get f 2) as [y|]; [| done]. destruct (mem_get f 3) as [z|]; [| done].
  st_run. by apply handle_packet_env.
Qed.

Lemma handle_frames_env e e' fs : forall s, calm s -> handle_frames e fs s = handle_frames e' fs s.
Proof.
  induction fs as [|f fs IH]; intros s Hs; [done |]. rewrite !handle_frames_cons, (handle_frame_env e e') by done.
  pose proof (handle_frame_blind e' f (rx (st s)) s Hs) as B.
  destruct (handle_frame e' f s) as [[n s1]|]; [| done]. destruct B as (_ & Hs1 & ->). by apply IH.
Qed.

Lemma handle_frames_app e fs gs : forall s,
  handle_frames e (fs ++ gs) s =
    match handle_frames e fs s with
    | Some (n, s') => if n =? 0 then handle_frames e gs s' else Some (n, s')
    | None => None
    end.
Proof.
  induction fs as [|f fs IH]; intros s; [done |]. cbn [app]. rewrite !handle_frames_cons.
  destruct (handle_frame e f s) as [[n s1]|]; [| done]. destruct (n =? 0) eqn:E; [apply IH | by rewrite E].
Qed.

(** The cutting into reads does not matter. *)
Lemma receive_all_frames e0 es ds : forall s,
  Forall2 read_ok es ds -> calm s -> rx_wf (rx (st s)) ->
  receive_all es s = left_in (rx_bytes (concat ds) (rx (st s))) (handle_frames e0) s.
Proof.
  induction es as [|e es IH] in ds |- *; intros s H Hs W; inversion_clear H as [|? d ? ds' Hr Hrs].
  { cbn. by rewrite with_rx_id. }
  cbn [receive_all concat]. unfold mbind at 1, st_bind at 1.
  rewrite (do_receive_frames e d), rx_bytes_app by (done || apply Hr).
  destruct (rx_bytes d (rx (st s))) as [[fs r]|] eqn:E; [| done]. apply rx_bytes_wf in E as W'; [| done].
  cbn [mbind option_bind left_in]. rewrite (handle_frames_env e e0) by done.
  pose proof (handle_frames_blind e0 fs r s Hs) as B.
  destruct (handle_frames e0 fs s) as [[n s1]|] eqn:Ef; cycle 1.
  { destruct (rx_bytes (concat ds') r) as [[gs r2]|]; [| done]. cbn. by rewrite handle_frames_app, Ef. }
  destruct B as (_ & Hs1 & ->). cbn [Z.eqb].
  rewrite (IH ds') by done. cbn [with_rx st rx].
  destruct (rx_bytes (concat ds') r) as [[gs r2]|]; [| done]. cbn [mbind option_bind left_in].
  rewrite handle_frames_app, Ef. cbn [Z.eqb].
  pose proof (handle_frames_blind e0 gs r s1 Hs1) as B.
  destruct (handle_frames e0 gs s1) as [[n s2]|]; [| by rewrite B].
  by destruct B as (-> & Hs2 & ->).
Qed.

(** ** Theorems *)

Definition pk_type (p : PACKET) : Z := nth 0 (pk_head p) 0.
Definition pk_ack (p : PACKET) : Z := nth 1 (pk_head p) 0.

Fixpoint handle_packets (e : ENV) (ps : list PACKET) : PM Z :=
  match ps with
  | [] => mret 0
  | p :: ps => r ← gb_handle_packet e (pk_type p) (pk_ack p); if r =? 0 then handle_packets e ps else mret r
  end.

Lemma handle_frame_packet e p s :
  packet_ok p -> handle_frame e (pk_bytes p) s = gb_handle_packet e (pk_type p) (pk_ack p) s.
Proof.
  intros [Hh _ _ _]. unfold pk_type, pk_ack. set (cs := gb_checksum (pk_body p)).
  assert (exists t a h, pk_head p = t :: a :: h) as (t & a & h & Eh).
  { destruct (pk_head p) as [|t [|a h]]; [done | done | by exists t, a, h]. }
  change (pk_bytes p) with ((35 :: 35 :: pk_body p) ++ [cs]). unfold handle_frame.
  assert (len ((35 :: 35 :: pk_body p) ++ [cs]) = 2 + len (pk_body p) + 1) as ->
    by (rewrite len_app, !len_cons, len_nil; lia).
  pose proof (len_nonneg (pk_body p)).
  assert (mem_get ((35 :: 35 :: pk_body p) ++ [cs]) (2 + len (pk_body p) + 1 - 1) = Some cs) as ->.
  { replace (2 + len (pk_body p) + 1 - 1) with (len (35 :: 35 :: pk_body p) + 0) by (rewrite !len_cons; lia).
    by rewrite mem_get_app_r. }
  assert (mem_read ((35 :: 35 :: pk_body p) ++ [cs]) 2 (2 + len (pk_body p) + 1 - 3) = Some (pk_body p)) as ->.
  { rewrite mem_read_ok by (rewrite ?len_app, ?len_cons, ?len_nil; lia). f_equal.
    change (drop (Z.to_nat 2) ((35 :: 35 :: pk_body p) ++ [cs])) with (pk_body p ++ [cs]).
    apply take_app_length'. unfold len. lia. }
  st_run. fold cs. rewrite Z.eqb_refl. cbn [negb]. unfold pk_body. rewrite Eh. reflexivity.
Qed.

Lemma handle_frames_packets e ps : forall s,
  Forall packet_ok ps -> handle_frames e (map pk_bytes ps) s = handle_packets e ps s.
Proof.
  induction ps as [|p ps IH]; intros s H; [done |]. inversion_clear H as [|? ? Hp Hps].
  cbn [map handle_packets]. rewrite handle_frames_cons, handle_frame_packet by done.
  unfold mbind at 1, st_bind at 1. destruct (gb_handle_packet _ _ _ s) as [[n s1]|]; [| done].
  destruct (n =? 0); [by apply IH | done].
Qed.

(** C26: A stream of packets, however the connection cuts it into reads (the reads do
    not end with a start byte), is received as exactly these packets: the calls of
    [gb_do_receive] behave as handling every packet once and in order, whatever was on
    the stack, and leave the receiver ready for the next packet. The packets have 1 to
    999 bytes of data, no two start bytes in a row after those at the beginning, and a
    checksum that is no start byte; the connection is open and no acknowledgement of a
    logout is awaited; the receiver may be in the middle of a lost packet. *)
Theorem gb_receive_stream e0 ps es ds s :
  Forall packet_ok ps -> Forall2 read_ok es ds -> concat ds = concat (map pk_bytes ps) ->
  calm s -> rx_ready (rx (st s)) ->
  exists r, rx_ready r /\
    receive_all es s =
      match handle_packets e0 ps s with Some (n, s') => Some (n, with_rx r s') | None => None end.
Proof.
  intros Hp Hr E Hs Hi. destruct (rx_bytes_packets ps (rx (st s)) Hp Hi) as (r & Hir & Eb).
  exists r. split; [done |]. rewrite (receive_all_frames e0 es ds), E, Eb; [| done | done |].
  - cbn [left_in]. by rewrite handle_frames_packets.
  - apply Hi.
Qed.

Lemma no_mark_r l k : no_mark (l ++ k) = true -> no_mark k = true.
Proof.
  induction l as [|c l IH]; [done |]. cbn [app]. rewrite no_mark_cons. intros H.
  apply andb_true_iff in H as [_ H]. auto.
Qed.

Lemma no_mark_l l d k : no_mark (l ++ d :: k) = true -> no_mark (l ++ [d]) = true.
Proof.
  induction l as [|c l IH]; [done |]. cbn [app]. rewrite !no_mark_cons, peek_app. intros H.
  apply andb_true_iff in H as [-> H]. auto.
Qed.

Lemma rx_bytes_overflow h n d r :
  len h = 20 -> (n = 0 \/ 1000 <= n < 65536) -> 1000 < len d ->
  no_mark (35 :: h ++ be16 n ++ d) = true -> len (rcvbuf r) = 1024 -> rx_bytes (headed h n d) r = None.
Proof.
  intros Hh Hn Hd Hm Hb. set (rest := 35 :: h ++ be16 n ++ d) in *.
  assert (len rest = 23 + len d) as Hl.
  { unfold rest. rewrite len_cons, !len_app, Hh. change (len (be16 n)) with 2. lia. }
  pose proof (take_drop 1023 rest) as E. pose proof (length_drop rest 1023) as L.
  pose proof (length_take rest 1023) as L1.
  destruct (drop 1023 rest) as [|c k]; [cbn [length] in L; unfold len in *; lia |].
  set (pre := take 1023 rest) in *. destruct (makeup_byte_start r Hb) as (r1 & E1 & Hm1).
  assert (rx_bytes (headed h n d) r = rx_bytes (pre ++ c :: k) r1) as ->.
  { rewrite E. change (headed h n d) with (35 :: rest). cbn [rx_bytes].
    change ((35 =? 35) && peek rest) with true. by rewrite E1. }
  rewrite <- E in Hm. assert (len pre = 1023) as Lp by (unfold len in *; lia).
  destruct (rx_bytes_mid pre [35] c k r1) as (r2 & -> & Hm2); [done | by eapply no_mark_l | | |].
  - change (len [35]) with 1. lia.
  - intros l1 l2 El Hne H3.
    assert (headed h n d = ([35] ++ l1) ++ (l2 ++ c :: k)) as Eh.
    { change (headed h n d) with ([35] ++ rest). by rewrite <- E, El, <- !app_assoc. }
    apply (step_after_headed h n d _ (l2 ++ c :: k) Hh ltac:(lia) Eh) in H3.
    apply (f_equal len) in El. rewrite len_app in El. destruct l2; [done |].
    rewrite len_cons in El. rewrite len_app in H3. change (len [35]) with 1 in H3. pose proof (len_nonneg l2). lia.
  - apply no_mark_r in Hm. rewrite no_mark_cons in Hm. apply andb_true_iff in Hm as [Hc _].
    apply negb_true_iff in Hc. cbn [rx_bytes]. rewrite Hc.
    rewrite (makeup_byte_overflow _ c r2 Hm2); [done |]. rewrite len_app. change (len [35]) with 1. lia.
Qed.

(** A header that announces no data or 1000 bytes and more, followed by more than
    1000 bytes without start bytes, is written past the end of [rcvbuf], however it
    is cut into reads. *)
Theorem gb_receive_overflow h n d es ds s :
  len h = 20 -> (n = 0 \/ 1000 <= n < 65536) -> 1000 < len d ->
  no_mark (35 :: h ++ be16 n ++ d) = true ->
  Forall2 read_ok es ds -> concat ds = headed h n d -> calm s -> rx_ready (rx (st s)) ->
  receive_all es s = None.
Proof.
  intros Hh Hn Hd Hm Hr E Hs [Hb Hi].
  destruct es as [|e0 es]; [by inversion Hr; subst |].
  rewrite (receive_all_frames e0 (e0 :: es) ds), E, rx_bytes_overflow; [done | done.. | |].
  - done.
  - done.
Qed.

(** ** Witnesses *)

Definition rx0 : RX := {| rcvbuf := zeros 1024; rcvlen := 30; rcvstep := 2; datalen := 100 |}.
Definition stat0 (w : Z) : gb_stat_t := {|
  online := false; wait := w; retry := 0; waittime := 0; rx := rx0; login := false; suspend := false; caltime := 1;
  can := true; network := 1; errtrig := false |}.
Definition prot0 (w : Z) : PROT := {|
  gq := gb0; sk := {| sock0 with stat := SOCK_STAT_OPENED |}; st := stat0 w;
  gb_vin := replicate 17 65; addr_url := [97; 0]; addr_port := 80; gb_timeout := 10; gb_regintv := 30;
  gb_regdate := 0; gb_regseq := 1; gb_iccid := replicate 21 0; gb_battcode := [66; 0]; gb_allow_sleep := false;
  conn_time := 0; saved := [] |}.

(** A read of [d] into a buffer with start bytes in it. *)
Definition env_read (d : list Z) : ENV := {|
  e_now _ := 5; e_then _ := 6; e_sends _ := []; e_sockerr := Some 0; e_outq := Some 0; e_created := 0;
  e_recv := Some d; e_again := false; e_stack := replicate 1024 35; e_sndbuf := Some 0; e_bufq := Some 0;
  e_abstime := {| year := 2019; mon := 1; mday := 2; hour := 3; min := 4; sec := 5 |}; GbProt.e_iccid := []; e_cfg _ := 0 |}.

Definition ack_packet (type ack : Z) (d : list Z) : PACKET :=
  {| pk_head := [type; ack] ++ replicate 17 65 ++ [1]; pk_data := d |}.

Lemma prot0_calm w : w <> PROT_LOGOUT -> calm (prot0 w).
Proof. intros. by split. Qed.

Lemma prot0_ready w : rx_ready (rx (st (prot0 w))).
Proof. split; [done |]. unfold rx_wf. cbn. lia. Qed.

(** Two packets in three reads. *)
Definition demo_packets : list PACKET := [ack_packet PROT_CALTIME 1 [1; 2; 3; 4; 5; 6]; ack_packet PROT_QUREY 0xfe [35; 7; 35]].
Definition demo_stream : list Z := concat (map pk_bytes demo_packets).
Definition demo_reads : list (list Z) :=
  [take 20 demo_stream; take 20 (drop 20 demo_stream); drop 40 demo_stream].

Lemma gb_receive_stream_witness :
  exists r s', receive_all (map env_read demo_reads) (prot0 PROT_CALTIME) = Some (0, with_rx r s') /\ wait (st s') = 0.
Proof.
  destruct (gb_receive_stream (env_read []) demo_packets (map env_read demo_reads) demo_reads (prot0 PROT_CALTIME)) as (r & _ & E).
  - repeat constructor; vm_compute; congruence.
  - repeat constructor; vm_compute; congruence.
  - reflexivity.
  - by apply prot0_calm.
  - apply prot0_ready.
  - eexists r, _. split; [exact E | reflexivity].
Defined.

(** No data is announced; the bytes come in two reads. *)
Definition demo_flood : list Z := headed ([PROT_QUREY; 0xfe] ++ replicate 17 65 ++ [1]) 0 (zeros 1100).

Lemma gb_receive_overflow_witness :
  receive_all (map env_read [take 1000 demo_flood; drop 1000 demo_flood]) (prot0 0) = None.
Proof.
  apply (gb_receive_overflow ([PROT_QUREY; 0xfe] ++ replicate 17 65 ++ [1]) 0 (zeros 1100) _ [take 1000 demo_flood; drop 1000 demo_flood]).
  - reflexivity.
  - by left.
  - reflexivity.
  - vm_compute. reflexivity.
  - repeat constructor; vm_compute; congruence.
  - reflexivity.
  - by apply prot0_calm.
  - apply prot0_ready.
Defined.
