(* ===== verification/GbLink.v ===== *)
(** * The protocol thread and the peer

    The loop of the protocol thread ([GbProt]), the CAN thread that makes reports
    ([GbSteps]) and the thread that makes connections ([Sock]) as one transition
    system, and its invariant: while online the packs that wait for an acknowledgement
    are the callbacks that the socket holds.  A round of the protocol thread is one
    step here; [GbSteps] has the interleavings at the locks within a round. *)

From stdpp Require Import gmap.
From S2P Require Import Prelude Clist Cstd GbData GbQueue GbSteps Sock GbProt GbRecv.

(** ** The system *)

Record SYS := { y_prot : PROT; y_inf : gb_info_t; y_flush : option bool }.

Inductive SYS_EVENT :=
| Round (e : ENV) (msg : GB_MSG)                        (* of the loop of [gb_main] *)
| Can (a : ACTION)                                      (* of the CAN thread *)
| Finished (fd : Z) (st : sock_stat_t) (now : Z).       (* the end of a connection attempt *)

Definition threads (y : SYS) (h : option Z) (lost : list Z) : THREADS :=
  {| c_gb := gq (y_prot y); c_inf := y_inf y; c_hand := h; c_lost := lost; c_flush := y_flush y |}.

Definition can_action (a : ACTION) : bool :=
  match a with
  | SaveRealtm _ _ | SaveError _ _ | FlushStart | FlushOne | FlushAppend | FlushRealtm | Loaded _ => true
  | _ => false
  end.

Definition sys_exec (ev : SYS_EVENT) (y : SYS) : option SYS :=
  match ev with
  | Round e msg => '(_, p) ← gb_iteration e msg (y_prot y); Some {| y with y_prot := p |}
  | Can a =>
      c ← exec a (threads y None []);
      let p := y_prot y in
      Some {| y_prot := {| p with gq := c_gb c |}; y_inf := c_inf c; y_flush := c_flush c |}
  | Finished fd st now => '(_, p) ← on_sk (sock_finish fd st now) (y_prot y); Some {| y with y_prot := p |}
  end.

(** When the event may happen: the counter of the bytes that the peer has not
    acknowledged is a small number, the threads keep their order, an attempt ends
    when one is in progress. *)
Definition sys_enabled (sigcnt : Z) (ev : SYS_EVENT) (y : SYS) : Prop :=
  match ev with
  | Round e msg =>
      forall u, e_outq e = Some u -> 0 <= u < 2 ^ 30
  | Can a => can_action a = true /\ enabled sigcnt a (threads y None [])
  | Finished _ st _ => stat (sk (y_prot y)) = SOCK_STAT_INPROG /\ (st = SOCK_STAT_OPENED \/ st = SOCK_STAT_CLOSED)
  end.

(** The queues are cleared while the socket holds callbacks (a database is loaded), or
    perhaps (by a first login in this round) during an error flush.  Nothing in the
    code excludes it. *)
Definition sys_collides (ev : SYS_EVENT) (y : SYS) : bool :=
  match ev with
  | Round _ _ => bool_decide (is_Some (y_flush y)) && negb (login (st (y_prot y)))
  | Can (Loaded _) => bool_decide (stat (sk (y_prot y)) = SOCK_STAT_OPENED)
  | _ => false
  end.

(** The start of the threads: a database was loaded, and the socket is created. *)
Record sys_start (sigcnt : Z) (y : SYS) : Prop := {
  ss_info : gb_info_ok sigcnt (y_inf y);
  ss_queues : exists g, mem_ok g /\ group_at 0 (saver g) /\ dbc_finished (y_inf y) g = Some (tt, gq (y_prot y));
  ss_flush : y_flush y = None;
  ss_sock : sync_mem_ok (sk (y_prot y)) /\ type (sk (y_prot y)) = SOCK_TYPE_SYNCTCP /\ stat (sk (y_prot y)) = SOCK_STAT_CLOSED;
  ss_stat : online (st (y_prot y)) = false /\ wait (st (y_prot y)) = 0;
  ss_battcode : len (gb_battcode (y_prot y)) = 64
}.

(** [hit] tells whether an event collided. *)
Inductive sys_reach (sigcnt : Z) : bool -> SYS -> Prop :=
| sys_begin y : sys_start sigcnt y -> sys_reach sigcnt false y
| sys_step hit y ev y' : sys_reach sigcnt hit y -> sys_enabled sigcnt ev y -> sys_exec ev y = Some y' ->
    sys_reach sigcnt (hit || sys_collides ev y) y'.

Lemma sys_quiet sigcnt y ev y' : sys_reach sigcnt false y -> sys_enabled sigcnt ev y -> sys_collides ev y = false ->
  sys_exec ev y = Some y' -> sys_reach sigcnt false y'.
Proof. intros H En Hc Ex. rewrite <- Hc. by apply (sys_step sigcnt false y). Qed.

(** ** The invariant *)

Definition is_ack (e : ENTRY) : Prop := e_cb e = ACK_PACK.
#[export] Instance is_ack_dec e : Decision (is_ack e).
Proof. apply _. Defined.

(** The callbacks that the socket holds. *)
Definition acks (q : SYNCQ) : nat := length (filter is_ack (flight q)).

Definition new_queue : SYNCQ := {| hist := []; ndone := 0; last := 0 |}.

(** Only reports have a callback, and they do not use the reserved entries. *)
Definition entry_ok (e : ENTRY) : Prop := e_cb e = 0 \/ (is_ack e /\ e_back e = false).

(** The socket in each of its states. *)
Record sock_ok (k : SOCK) (sq : SYNCQ) : Prop := {
  so_type : type k = SOCK_TYPE_SYNCTCP;
  so_mem : sync_mem_ok k;
  so_stat : match stat k with
            | SOCK_STAT_OPENED => exists fr bk us, refines k sq fr bk us
            | SOCK_STAT_INPROG =>
                exists fr bk us, refines {| k with stat := SOCK_STAT_OPENED; sendtime := 0 |} new_queue fr bk us
            | SOCK_STAT_CLOSED => True
            | SOCK_STAT_UNUSED => False
            end;
  so_acks : Forall entry_ok (hist sq)
}.

(** *** The socket *)

Lemma refines_ext k k' sq fr bk us :
  stat k' = stat k -> type k' = type k -> sync_links k' = sync_links k -> sync_mem k' = sync_mem k ->
  sendsz k' = sendsz k -> sendtime k' = sendtime k -> refines k sq fr bk us -> refines k' sq fr bk us.
Proof.
  intros E1 E2 E3 E4 E5 E6 [R1 R2 [N1 N2 N3] R4 R5 R6 R7 R8 R9 R10 R11 R12].
  split; try congruence; unfold owner_is, holds_entry in *; rewrite ?E3, ?E4; try done.
  split; rewrite ?E3; done.
Qed.

Lemma refines_mem k sq fr bk us : refines k sq fr bk us -> sync_mem_ok k.
Proof.
  intros [R1 R2 [N1 N2 N3] R4 R5 R6 _ _ _ _ _ _]. split; [done |]. intros x Hx.
  apply all_nodes_in in Hx. eapply Permutation_in in Hx; [| symmetry; exact N3].
  rewrite !in_app_iff in Hx. destruct Hx as [Hx | [Hx | Hx]].
  - rewrite Forall_forall in R4. destruct (R4 x Hx) as (v & -> & _). by eexists.
  - rewrite Forall_forall in R5. destruct (R5 x Hx) as (v & -> & _). by eexists.
  - apply list_elem_of_In, list_elem_of_lookup in Hx as [i Hi].
    destruct (Forall2_lookup_l _ _ _ _ _ R6 Hi) as (e & _ & He). by eexists.
Qed.

Lemma acks_cons e l : length (filter is_ack (e :: l)) = ((if decide (is_ack e) then 1 else 0) + length (filter is_ack l))%nat.
Proof. rewrite list.filter_cons. by case_decide. Qed.

(** The entries with the callback are not the reserved ones. *)
Lemma acks_free l : Forall entry_ok l -> (length (filter is_ack l) <= in_use false l)%nat.
Proof.
  induction 1 as [|e l He _ IH]; [done |]. rewrite acks_cons, in_use_cons. case_decide as Ha; [| case_bool_decide; lia].
  destruct He as [He | [_ He]]; [unfold is_ack in Ha; rewrite He in Ha; done |].
  rewrite bool_decide_eq_true_2 by done. lia.
Qed.

Lemma acks_bound k sq fr bk us :
  refines k sq fr bk us -> Forall entry_ok (hist sq) -> (acks sq <= 36)%nat.
Proof.
  intros R H. pose proof (rf_nfree _ _ _ _ _ R) as N. unfold acks. pose proof (acks_free (flight sq)) as A.
  unfold NUM_FREE in N. etrans; [apply A; by apply Forall_drop | lia].
Qed.

Lemma sock_open_refines k sq : sock_ok k sq -> stat k = SOCK_STAT_OPENED -> exists fr bk us, refines k sq fr bk us.
Proof. intros [_ _ H _] E. by rewrite E in H. Qed.

(** Sending: the message is in flight, or nothing happened. *)
Lemma sock_send_ok k sq sends now buf cb r k' :
  sock_ok k sq -> 0 < len buf <= 2 ^ 20 -> cb = 0 \/ cb = ACK_PACK ->
  sock_send sends now buf (len buf) cb k = Some (r, k') ->
  stat k' = stat k /\ exists sq', sock_ok k' sq' /\
    ((r <= 0 /\ acks sq' = acks sq) \/
     (0 < r /\ stat k = SOCK_STAT_OPENED /\ acks sq' = (acks sq + if decide (cb = ACK_PACK) then 1 else 0)%nat)).
Proof.
  intros K Hl Hcb E. pose proof K as [Kt Km Ks Ka]. destruct (decide (stat k = SOCK_STAT_OPENED)) as [Ho | Hn]; cycle 1.
  { revert E. unfold sock_send. st_run. rewrite bool_decide_eq_false_2 by done. intros [= <- <-].
    split; [done |]. exists sq. split; [done |]. left. split; [lia | done]. }
  destruct (sock_open_refines _ _ K Ho) as (fr & bk & us & R).
  destruct (sock_send_run k sq fr bk us sends now buf (len buf) cb R ltac:(lia)) as (k2 & fr' & bk' & us' & E2 & R').
  rewrite E in E2. injection E2 as -> ->.
  assert (stat k2 = SOCK_STAT_OPENED) as Ho2 by apply (rf_stat _ _ _ _ _ R').
  split; [congruence |]. exists (snd (spec_send sends now (len buf) cb sq)).
  assert (forall sq', refines k2 sq' fr' bk' us' -> Forall entry_ok (hist sq') -> sock_ok k2 sq') as Hok.
  { intros sq' R2 A2. split; [apply R2 | by eapply refines_mem | rewrite Ho2; by do 3 eexists | done]. }
  unfold spec_send in *. destruct (room cb (flight sq)) as [b|] eqn:Er; cycle 1.
  { cbn [fst snd] in *. split; [by apply Hok |]. left. split; [case_bool; lia | done]. }
  case_bool_decide; cbn [fst snd] in *; [| split; [by apply Hok | left; split; [lia | done]]].
  split.
  - apply Hok; [done |]. cbn [hist]. apply Forall_app. split; [done |]. constructor; [| done].
    destruct Hcb as [-> | ->]; [by left | right]. split; [done |]. cbn [e_back]. unfold room in Er.
    change (ACK_PACK =? 0) with false in Er. cbn [andb] in Er.
    destruct (in_use false (flight sq) <? NUM_FREE)%nat; congruence.
  - right. split; [lia |]. split; [done |]. unfold acks, flight. cbn [hist ndone].
    rewrite drop_app_le by apply (rf_done _ _ _ _ _ R). rewrite list.filter_app, length_app, acks_cons.
    unfold is_ack. cbn [e_cb]. change (length (filter is_ack [])) with 0%nat.
    repeat case_decide; done || lia.
Qed.

(** At most one callback, when its message is acknowledged. *)
Lemma sock_sync_ok k sq u r cb k' :
  sock_ok k sq -> (forall u', u = Some u' -> 0 <= u' < 2 ^ 30) -> sock_sync u k = Some ((r, cb), k') ->
  stat k' = stat k /\ exists sq', sock_ok k' sq' /\
    (stat k = SOCK_STAT_OPENED -> acks sq = (acks sq' + if decide (cb = 0%Z) then 0 else 1)%nat) /\
    (stat k <> SOCK_STAT_OPENED -> cb = 0).
Proof.
  intros K Hu E. pose proof K as [Kt Km Ks Ka].
  assert ((r, cb, k') = (r, 0, k) -> stat k' = stat k /\ exists sq', sock_ok k' sq' /\
    (stat k = SOCK_STAT_OPENED -> acks sq = (acks sq' + if decide (cb = 0%Z) then 0 else 1)%nat) /\
    (stat k <> SOCK_STAT_OPENED -> cb = 0)) as Hsame.
  { intros [= -> ->]. split; [done |]. exists sq. split; [done |]. split; [rewrite decide_True by done; lia | done]. }
  destruct (decide (stat k = SOCK_STAT_OPENED)) as [Ho | Hn]; cycle 1.
  { revert E. unfold sock_sync. st_run. rewrite bool_decide_eq_false_2 by done. intros [= <- <- <-]. by apply Hsame. }
  destruct u as [u|]; cycle 1.
  { revert E. unfold sock_sync. st_run. rewrite !bool_decide_eq_true_2 by done.
    intros [= <- <- <-]. by apply Hsame. }
  destruct (sock_open_refines _ _ K Ho) as (fr & bk & us & R).
  destruct (sync_run k sq fr bk us u R (Hu u eq_refl)) as (k2 & fr' & bk' & us' & E2 & R').
  rewrite E in E2. injection E2 as E2 ->.
  assert (stat k2 = SOCK_STAT_OPENED) as Ho2 by apply (rf_stat _ _ _ _ _ R').
  split; [congruence |]. exists (snd (spec_sync u sq)).
  assert (forall sq', refines k2 sq' fr' bk' us' -> Forall entry_ok (hist sq') -> sock_ok k2 sq') as Hok.
  { intros sq' R2 A2. split; [apply R2 | by eapply refines_mem | rewrite Ho2; by do 3 eexists | done]. }
  unfold spec_sync in *. destruct (flight sq) as [|e l] eqn:Ef.
  { injection E2 as -> ->. cbn [snd] in *. split; [by apply Hok |]. split; [intros _; rewrite decide_True by done; lia | done]. }
  destruct (_ <=? _); injection E2 as -> ->; cbn [snd] in *.
  - split; [by apply Hok |]. split; [| done]. intros _. unfold acks. rewrite Ef, acks_cons.
    destruct (flight_cons _ _ _ Ef) as (He & Hd & _). unfold flight. cbn [hist ndone]. rewrite Hd.
    assert (entry_ok e) as Hok'. { eapply Forall_lookup_1; [exact Ka | exact He]. }
    destruct Hok' as [H0 | [H1 _]].
    + rewrite (decide_True _ _ H0). rewrite decide_False; [lia |]. unfold is_ack. by rewrite H0.
    + rewrite (decide_True _ _ H1), decide_False; [lia |]. unfold is_ack in H1. by rewrite H1.
  - split; [by apply Hok |]. split; [intros _; rewrite decide_True by done; lia | done].
Qed.

Lemma sock_close_ok k sq now r k' :
  sock_ok k sq -> sock_close now k = Some (r, k') -> sock_ok k' sq /\ stat k' <> SOCK_STAT_OPENED.
Proof.
  intros [Kt Km Ks Ka]. unfold sock_close. st_run. destruct (decide (stat k = SOCK_STAT_OPENED)) as [Ho | Hn].
  - rewrite bool_decide_eq_true_2 by done. st_run. intros [= <- <-]. by split.
  - rewrite bool_decide_eq_false_2 by done. st_run. intros [= <- <-]. by split.
Qed.

Lemma sock_open_ok k sq created u p r k' :
  sock_ok k sq -> stat k = SOCK_STAT_CLOSED -> sock_open created u p k = Some (r, k') ->
  sock_ok k' sq /\ stat k' <> SOCK_STAT_OPENED.
Proof.
  intros [Kt Km Ks Ka] Hc. unfold sock_open. st_run. rewrite Hc.
  destruct (cleanup_run k u p Km Kt) as (k1 & E1 & A1 & A2 & A3 & M1 & N1 & F1 & B1). st_call E1. destruct (created <? 0); [unfold set_stat; st_run; intros [= <- <-]; by split |].
  st_run. intros [= <- <-]. split; [| done]. split; [done | exact M1 | | done]. cbn [stat].
  exists free_nodes, back_nodes, []. destruct N1 as [N1 N2 N3]. by split.
Qed.

Lemma sock_finish_ok k sq fd st now r k' :
  sock_ok k sq -> stat k = SOCK_STAT_INPROG -> st = SOCK_STAT_OPENED \/ st = SOCK_STAT_CLOSED ->
  sock_finish fd st now k = Some (r, k') -> sock_ok k' new_queue /\ stat k' = st.
Proof.
  intros [Kt Km Ks Ka] Hp Hst. rewrite Hp in Ks. destruct Ks as (fr & bk & us & R).
  unfold sock_finish, set_stat. st_run. destruct Hst as [-> | ->].
  - rewrite bool_decide_eq_true_2 by done. st_run. rewrite ?decide_False by done. st_run. intros [= <- <-]. split; [| done].
    split; [done | exact Km | | done]. cbn [stat]. exists fr, bk, us. by eapply refines_ext; [.. | exact R].
  - rewrite bool_decide_eq_false_2 by done. st_run. rewrite ?decide_True by done. destruct (int _) as [n|]; [| done].
    st_run. intros [= <- <-]. split; [| done]. by split.
Qed.

(** These only look at the socket. *)
Lemma sock_look {A} (m : SM A) k a k' : steps_by eq m -> m k = Some (a, k') -> k' = k.
Proof. intros H E. symmetry. by eapply H. Qed.

Lemma sock_error_looks err : steps_by eq (sock_error err).
Proof. unfold sock_error. steps_tac. Qed.
Lemma sock_bufsz_looks b u : steps_by eq (sock_bufsz b u).
Proof. unfold sock_bufsz. steps_tac. Qed.
Lemma sock_recv_looks r a : steps_by eq (sock_recv r a).
Proof. unfold sock_recv. steps_tac. Qed.
Lemma sock_status_looks : steps_by eq sock_status.
Proof. unfold sock_status. steps_tac. Qed.

(** *** The state of the protocol thread *)

(** [on], [w], [stt]: online, what is awaited, the state of the socket; [n] packs
    wait for an acknowledgement, the socket holds [a] callbacks. *)
Definition link (on : bool) (w : Z) (stt : sock_stat_t) (n a : nat) : Prop :=
  (n <= 36)%nat /\ (on = true -> stt = SOCK_STAT_OPENED /\ a = n) /\
  (on = false -> stt = SOCK_STAT_OPENED -> a = 0%nat) /\ (w = PROT_LOGIN -> on = false /\ stt = SOCK_STAT_OPENED).

(** Computations from [P] to [Q]. *)
Definition tri {A} (P : PROT -> Prop) (m : PM A) (Q : A -> PROT -> Prop) : Prop :=
  forall p a p', P p -> m p = Some (a, p') -> Q a p'.

Lemma tri_bind {A B} P (R : A -> PROT -> Prop) (Q : B -> PROT -> Prop) (m : PM A) (k : A -> PM B) :
  tri P m R -> (forall a, tri (R a) (k a) Q) -> tri P (m ≫= k) Q.
Proof. intros Hm Hk p b p' HP (a & s & E1 & E2)%st_bind_inv. eapply Hk; [by eapply Hm | exact E2]. Qed.

Lemma tri_ret {A} (P : PROT -> Prop) (a : A) : tri P (mret a) (fun _ => P).
Proof. by intros p b p' HP [= <- <-]. Qed.

Lemma tri_get {A} P (k : PROT -> PM A) Q : (forall p0, tri (fun p => P p /\ p = p0) (k p0) Q) -> tri P (st_get ≫= k) Q.
Proof. intros H p a p' HP E. by eapply (H p). Qed.

Lemma tri_read {A} P (k : PROT -> PM A) Q : (forall p0, P p0 -> tri P (k p0) Q) -> tri P (st_get ≫= k) Q.
Proof. intros H p a p' HP E. by eapply (H p). Qed.

Lemma tri_weaken {A} (P P' : PROT -> Prop) (m : PM A) (Q Q' : A -> PROT -> Prop) :
  tri P' m Q' -> (forall p, P p -> P' p) -> (forall a p, Q' a p -> Q a p) -> tri P m Q.
Proof. intros H HP HQ p a p' Hp E. eapply HQ, H; eauto. Qed.

Lemma tri_lift {A B} P (o : option A) (k : A -> PM B) Q : (forall a, o = Some a -> tri P (k a) Q) -> tri P (st_lift o ≫= k) Q.
Proof. intros H p b p' HP E. destruct o as [a|]; [| done]. by eapply (H a). Qed.

Lemma tri_when (P : PROT -> Prop) b (m : PM unit) : tri P m (fun _ => P) -> tri P (st_when b m) (fun _ => P).
Proof. destruct b; [done |]. intros _. apply tri_ret. Qed.

Section link.
Context (sigcnt : Z) (inf : gb_info_t) (fl : option bool).

Definition thr (g : GB) (h : option Z) (lost : list Z) : THREADS :=
  {| c_gb := g; c_inf := inf; c_hand := h; c_lost := lost; c_flush := fl |}.

(** The parts, with the pack [h] in the hands of the thread. *)
Record core (h : option Z) (p : PROT) (q : QUEUES) (lost : list Z) (sq : SYNCQ) : Prop := {
  co_inv : inv sigcnt (thr (gq p) h lost) q;
  co_sock : sock_ok (sk p) sq;
  co_batt : len (gb_battcode p) = 64
}.

Definition linked (p : PROT) : Prop :=
  exists q lost sq, core None p q lost sq /\
    link (online (st p)) (wait (st p)) (stat (sk p)) (length (q_trans q)) (acks sq).

(** All that [linked] is about. *)
Definition view (p : PROT) := (gq p, sk p, online (st p), gb_battcode p).

Lemma core_view h p p' q lost sq : view p' = view p -> core h p q lost sq -> core h p' q lost sq.
Proof. unfold view. intros [= E1 E2 E3 E4] [H1 H2 H3]. by split; rewrite ?E1, ?E2, ?E4. Qed.

Lemma linked_view p p' : view p' = view p -> (wait (st p') = PROT_LOGIN -> wait (st p) = PROT_LOGIN) -> linked p -> linked p'.
Proof.
  intros Hv Hw (q & lost & sq & C & L1 & L2 & L3 & L4). exists q, lost, sq. split; [by eapply core_view |].
  unfold view in Hv. injection Hv as _ Es Eo _. unfold link. rewrite Eo, Es.
  do 3 (split; [done |]). intros H. by apply L4, Hw.
Qed.

Abbreviation keeps m := (tri linked m (fun _ => linked)).

Lemma keeps_bind {A B} (m : PM A) (k : A -> PM B) : keeps m -> (forall a, keeps (k a)) -> keeps (m ≫= k).
Proof. intros. by eapply tri_bind. Qed.

Lemma keeps_get {A} (k : PROT -> PM A) : (forall p, keeps (k p)) -> keeps (st_get ≫= k).
Proof. intros H. apply tri_get. intros p0. eapply tri_weaken; [apply H | by intros p [] | done]. Qed.

Lemma keeps_mod f : (forall p, view (f p) = view p) -> (forall p, wait (st (f p)) = PROT_LOGIN -> wait (st p) = PROT_LOGIN) ->
  keeps (st_mod f).
Proof. intros Hv Hw p a p' HP [= <- <-]. eapply linked_view; [apply Hv | apply Hw | done]. Qed.

Lemma on_sk_inv {A} (m : SM A) p a p' : on_sk m p = Some (a, p') -> exists k, m (sk p) = Some (a, k) /\ p' = {| p with sk := k |}.
Proof.
  unfold on_sk. st_run. destruct (m (sk p)) as [[b k]|]; [| done]. st_run. intros [= <- <-]. by exists k.
Qed.

Lemma on_gq_inv {A} (m : GM A) p a p' : on_gq m p = Some (a, p') -> exists g, m (gq p) = Some (a, g) /\ p' = {| p with gq := g |}.
Proof.
  unfold on_gq. st_run. destruct (m (gq p)) as [[b g]|]; [| done]. st_run. intros [= <- <-]. by exists g.
Qed.

Lemma keeps_look {A} (m : SM A) : steps_by eq m -> keeps (on_sk m).
Proof.
  intros H p a p' HP (k & E & ->)%on_sk_inv. apply (sock_look m) in E as ->; [| done].
  by eapply linked_view; [| | exact HP].
Qed.

(** A step of the queues. *)
Lemma gq_exec a h p q lost sq g h' lost' :
  core h p q lost sq -> enabled sigcnt a (thr (gq p) h lost) -> collides a (thr (gq p) h lost) = false ->
  exec a (thr (gq p) h lost) = Some (thr g h' lost') ->
  exists q', core h' {| p with gq := g |} q' lost' sq /\ trans_moved a q q'.
Proof.
  intros [I K B] En Hc Ex. destruct (exec_inv sigcnt _ q I a En Hc) as [(c' & q' & E & I' & M) | [E _]]; rewrite Ex in E; [| done].
  injection E as <-. exists q'. by split.
Qed.

(** **** Queues *)

Lemma inv_same g g' h lost q : links g' = links g -> packs g' = packs g -> gb_errlst_head g' = gb_errlst_head g ->
  saver g' = saver g -> inv sigcnt (thr g h lost) q -> inv sigcnt (thr g' h lost) q.
Proof.
  intros E1 E2 E3 E4 [[R C O] Gi Hg Hr Hf]. split; cbn in *; try done; [| by rewrite E4].
  split; [| done | by rewrite E2]. eapply rep_same; [exact R | done | done |]. rewrite E2. apply (rep_packs _ _ R).
Qed.

(** Only other fields of the queues change. *)
Lemma keeps_gq_same {A} (m : GM A) :
  (forall g a g', m g = Some (a, g') -> links g' = links g /\ packs g' = packs g /\ gb_errlst_head g' = gb_errlst_head g /\ saver g' = saver g) ->
  keeps (on_gq m).
Proof.
  intros Hm p a p' (q & lost & sq & [I K B] & L) (g & E & ->)%on_gq_inv. apply Hm in E as (E1 & E2 & E3 & E4).
  exists q, lost, sq. split; [| exact L]. split; [by eapply inv_same | done | done].
Qed.

Lemma keeps_emergence b : keeps (on_gq (gb_data_emergence b)).
Proof. apply keeps_gq_same. by intros g a g' [= <- <-]. Qed.
Lemma keeps_pendflag b : keeps (on_gq (gb_data_set_pendflag b)).
Proof. apply keeps_gq_same. by intros g a g' [= <- <-]. Qed.
Lemma keeps_intv t : keeps (on_gq (st_mod (fun q => {| q with gb_datintv := t |}))).
Proof. apply keeps_gq_same. by intros g a g' [= <- <-]. Qed.

Lemma gq_looks {A} (m : GM A) : steps_by eq m -> keeps (on_gq m).
Proof. intros H. apply keeps_gq_same. intros g a g' E. by rewrite <- (H _ _ _ E). Qed.

Lemma keeps_nosending : keeps (on_gq gb_data_nosending).
Proof. apply gq_looks. unfold gb_data_nosending, is_empty. steps_tac. Qed.
Lemma keeps_noreport : keeps (on_gq gb_data_noreport).
Proof. apply gq_looks. unfold gb_data_noreport, is_empty. steps_tac. Qed.

(** **** Connection *)

Lemma keeps_reset now : keeps (gb_reset now).
Proof.
  intros p a p' (q & lost & sq & [I K B] & L1 & L2 & L3 & L4). unfold gb_reset.
  intros (r & s & (k & E & ->)%on_sk_inv & [= <- <-])%st_bind_inv.
  destruct (sock_close_ok _ _ _ _ _ K E) as [K' Hn]. exists q, lost, sq. split; [by split |].
  by split; [| split; [| split]].
Qed.

(** Sending something else than a report. *)
Lemma keeps_send e at_ buf : 0 < len buf <= 2 ^ 20 -> keeps (gb_send e at_ buf 0).
Proof.
  intros Hl p a p' (q & lost & sq & [I K B] & L1 & L2 & L3 & L4). unfold gb_send. intros (k & E & ->)%on_sk_inv.
  destruct (sock_send_ok _ _ _ _ _ _ _ _ K Hl ltac:(by left) E) as (Es & sq' & K' & H).
  exists q, lost, sq'. split; [by split |]. cbn [sk st].
  assert (acks sq' = acks sq) as ->.
  { destruct H as [[_ ->] | (_ & _ & ->)]; [done |]. rewrite decide_False by done. lia. }
  rewrite Es. by split; [| split; [| split]].
Qed.

Lemma keeps_open created u pt : forall p a p', linked p -> stat (sk p) = SOCK_STAT_CLOSED ->
  on_sk (sock_open created u pt) p = Some (a, p') -> linked p'.
Proof.
  intros p a p' (q & lost & sq & [I K B] & L1 & L2 & L3 & L4) Hc (k & E & ->)%on_sk_inv.
  destruct (sock_open_ok _ _ _ _ _ _ _ K Hc E) as [K' Hn]. exists q, lost, sq. split; [by split |]. cbn [sk st].
  split; [done |]. split; [intros Ho; destruct (L2 Ho); congruence |]. split; [done |].
  intros Hw. destruct (L4 Hw). congruence.
Qed.

(** **** Packets *)

Definition sendable (buf : list Z) : Prop := 0 < len buf <= 2 ^ 20.

Lemma sealed_len buf : len (gb_sealed buf) = len buf + 1.
Proof. unfold gb_sealed. by rewrite len_app. Qed.

Lemma pack_head_len t d v h : gb_pack_head t d v = Some h -> len h = 22.
Proof.
  unfold gb_pack_head. destruct (mem_read v 0 17) as [w|] eqn:E; [| done]. intros [= <-].
  apply mem_read_len in E. cbn [app]. rewrite !len_cons, len_app, E. reflexivity.
Qed.

Lemma mem_read_le {A} (b : list A) off n s : mem_read b off n = Some s -> n <= len b.
Proof.
  intros E. pose proof (mem_read_len _ _ _ _ E). unfold mem_read in E. repeat (case_bool; cbn in E; try done). lia.
Qed.

(** What these leave as it is. *)
Lemma keeps_pack_logout e : tri linked (gb_pack_logout e) (fun buf p => linked p /\ sendable buf).
Proof.
  intros p buf p' HP. unfold gb_pack_logout. st_run.
  destruct (gb_pack_head _ _ _) as [h|] eqn:Eh; [| done]. intros [= <- <-]. split; [done |].
  apply pack_head_len in Eh. unfold sendable. rewrite sealed_len, !len_app, Eh. by vm_compute.
Qed.

(** The view is [v], the state [s]. *)
Definition still v (s : gb_stat_t) (p : PROT) : Prop := view p = v /\ st p = s.

Lemma still_mod v s f : (forall p, view (f p) = view p /\ st (f p) = st p) -> tri (still v s) (st_mod f) (fun _ => still v s).
Proof. intros H p a p' [H1 H2] [= <- <-]. destruct (H p). split; congruence. Qed.

Lemma pack_login_still e v s :
  len (snd v) = 64 -> tri (still v s) (gb_pack_login e) (fun buf p => still v s p /\ sendable buf).
Proof.
  intros B. unfold gb_pack_login. cbv zeta. apply tri_read. intros p0 _.
  eapply tri_bind; [apply tri_when; eapply tri_bind; [by apply still_mod | intros ?; by apply still_mod] |].
  intros ?. apply tri_read. intros p1 [Hv _]. apply tri_lift. intros h Eh. apply tri_lift. intros ic Ei.
  eapply tri_bind; [by apply still_mod |].
  intros ?. apply tri_lift. intros ic2 Ei2. apply tri_lift. intros n En. apply tri_lift. intros code Ec.
  intros p buf p' HP [= <- <-]. split; [done |].
  apply pack_head_len in Eh. pose proof (mem_read_le _ _ _ _ Ec) as Hn. apply mem_read_len in Ec, Ei2.
  rewrite <- Hv in B. cbn [view snd] in B. rewrite B in Hn.
  unfold sendable. rewrite sealed_len, len_app, Eh. rewrite !len_cons, len_app, !len_cons, Ei2, Ec.
  pose proof (len_nonneg code). lia.
Qed.

(** **** The functions of the loop *)

Definition ready (p : PROT) : Prop := linked p /\ (fl = None \/ login (st p) = true).

(** The flag of the login is left alone. *)
Abbreviation no_login m := (steps_by (same (fun p => login (st p))) m).

Lemma ready_keeps {A} (m : PM A) : keeps m -> no_login m -> tri ready m (fun _ => ready).
Proof. intros Hk Hl p a p' [H1 H2] E. split; [by eapply Hk |]. rewrite (Hl _ _ _ E). done. Qed.

Lemma no_login_gq {A} (m : GM A) : no_login (on_gq m).
Proof. by intros p a p' (g & _ & ->)%on_gq_inv. Qed.
Lemma no_login_sk {A} (m : SM A) : no_login (on_sk m).
Proof. by intros p a p' (g & _ & ->)%on_sk_inv. Qed.

(** A callback comes with a pack that waits for it. *)
Lemma keeps_sync e : (forall u, e_outq e = Some u -> 0 <= u < 2 ^ 30) ->
  keeps ('(r, cb) ← on_sk (sock_sync (e_outq e));
         st_when (negb (cb =? 0)) (on_gq gb_data_ack_pack);; mret (negb (r =? 0))).
Proof.
  intros Hu p a p' (q & lost & sq & [I K B] & L1 & L2 & L3 & L4).
  intros ([r cb] & s & (k & E & ->)%on_sk_inv & ([] & s2 & E2 & [= _ <-])%st_bind_inv)%st_bind_inv.
  destruct (sock_sync_ok _ _ _ _ _ _ K Hu E) as (Es & sq' & K' & Ha & Hn).
  destruct (Z.eqb_spec cb 0) as [-> | Hcb]; cbn [negb st_when] in E2.
  - injection E2 as <-. exists q, lost, sq'. split; [by split |]. cbn [sk st]. rewrite Es.
    rewrite decide_True, Nat.add_0_r in Ha by done. split; [done |]. split; [| split; [| done]].
    + intros Ho. destruct (L2 Ho) as [H1 H2]. by rewrite <- (Ha H1).
    + intros Ho H1. rewrite <- (Ha H1). auto.
  - apply on_gq_inv in E2 as (g & E2 & ->). cbn [gq] in E2.
    assert (stat (sk p) = SOCK_STAT_OPENED) as Ho by (destruct (decide (stat (sk p) = SOCK_STAT_OPENED)); [done | by destruct Hcb; auto]).
    specialize (Ha Ho). rewrite decide_False in Ha by done.
    destruct (gq_exec AckPack None p q lost sq g None lost) as (q' & [I' _ _] & M); [by split | done | done | |].
    { cbn [exec thr c_gb]. by rewrite E2. }
    cbn in M. exists q', lost, sq'. split; [by split |]. cbn [sk st]. rewrite Es, M.
    destruct (online (st p)) eqn:On; [| specialize (L3 eq_refl Ho); lia].
    destruct (L2 eq_refl) as [_ H2]. destruct (q_trans q) as [|x tr]; cbn [length tl] in *; [lia |].
    split; [lia |]. split; [intros _; split; [done | lia] |]. split; [done |]. intros Hw. by destruct (L4 Hw).
Qed.

Lemma tri_status {A} P (k : sock_stat_t -> PM A) Q :
  (forall stt, tri (fun p => P p /\ stat (sk p) = stt) (k stt) Q) -> tri P (on_sk sock_status ≫= k) Q.
Proof.
  intros H p a p' HP (stt & s & E & E2)%st_bind_inv.
  assert (on_sk sock_status p = Some (stat (sk p), p)) as E' by by destruct p.
  rewrite E' in E. injection E as <- <-. by eapply (H (stat (sk p)) p).
Qed.

Lemma tri_pre {A} (P P' : PROT -> Prop) (m : PM A) Q : tri P' m Q -> (forall p, P p -> P' p) -> tri P m Q.
Proof. intros H HP. by eapply tri_weaken. Qed.

Lemma keeps_if (b : bool) {A} (m n : PM A) : keeps m -> keeps n -> keeps (if b then m else n).
Proof. by destruct b. Qed.

Lemma keeps_connect e (b : bool) u pt c :
  tri (fun p => linked p /\ stat (sk p) = SOCK_STAT_CLOSED)
    (st_when b (on_sk (sock_open (e_created e) u pt);; st_mod (fun s => {| s with conn_time := c |})))
    (fun _ => linked).
Proof.
  intros p a p' [HP Hs]. destruct b; cbn [st_when]; [| by intros [= _ <-]].
  intros (x & s & E & [= _ <-])%st_bind_inv.
  eapply linked_view; [| | eapply keeps_open; [exact HP | exact Hs | exact E]]; done.
Qed.

Lemma keeps_checksock e : (forall u, e_outq e = Some u -> 0 <= u < 2 ^ 30) -> keeps (gb_do_checksock e).
Proof.
  intros Hu. unfold gb_do_checksock. apply keeps_get. intros p0. apply tri_lift. intros u _.
  destruct (_ || gb_allow_sleep p0); [apply tri_ret |]. apply tri_status. intros [].
  - eapply tri_pre; [apply tri_ret | by intros p []].
  - eapply tri_bind with (R := fun _ p => linked p /\ stat (sk p) = SOCK_STAT_CLOSED); cycle 1.
    { intros none. eapply tri_bind; [apply keeps_connect | intros ?; apply tri_ret]. }
    destruct (suspend (st p0)); [apply tri_ret |].
    intros p none p' [HP Hs] E. split; [by eapply keeps_noreport |].
    by apply on_gq_inv in E as (g & _ & ->).
  - eapply tri_pre; [| by intros p []]. apply keeps_bind; [apply keeps_look, sock_error_looks |]. intros err.
    apply keeps_bind; [apply keeps_if; [apply tri_ret | by apply keeps_sync] |]. intros bad.
    apply keeps_if; [apply keeps_bind; [apply keeps_reset | intros _; apply tri_ret] | apply tri_ret].
  - eapply tri_pre; [apply tri_ret | by intros p []].
Qed.

(** **** Messages *)

Lemma keeps_st f : (forall g, online (f g) = online g) -> (forall g, wait (f g) = PROT_LOGIN -> wait g = PROT_LOGIN) ->
  keeps (mod_st f).
Proof. intros Ho Hw. apply keeps_mod; intros p; [unfold view; cbn; by rewrite Ho | apply Hw]. Qed.

Lemma keeps_config e cfg : keeps (gb_do_config e cfg).
Proof.
  unfold gb_do_config. destruct cfg; try apply tri_ret; (apply keeps_if; [apply tri_ret |]).
  - apply keeps_bind; [by apply keeps_mod | intros _]. apply keeps_bind; [apply keeps_reset | intros _; apply tri_ret].
  - apply keeps_get. intros p0. apply tri_lift. intros v _. apply keeps_bind; [by apply keeps_mod | intros _].
    apply keeps_bind; [apply keeps_reset | intros _; apply tri_ret].
  - apply keeps_bind; [apply keeps_intv | intros _; apply tri_ret].
  - apply keeps_bind; [by apply keeps_mod | intros _; apply tri_ret].
  - apply keeps_bind; [by apply keeps_mod | intros _; apply tri_ret].
Qed.

Lemma keeps_message e msg : keeps (gb_message e msg).
Proof.
  unfold gb_message. destruct msg; try apply keeps_emergence; try apply tri_ret; try by apply keeps_st.
  - apply keeps_get. intros p0. apply tri_when. apply keeps_bind; [apply keeps_reset | intros _; by apply keeps_st].
  - apply keeps_bind; [by apply keeps_st | intros _; by apply keeps_mod].
  - apply keeps_bind; [by apply keeps_st | intros _; by apply keeps_mod].
  - apply keeps_bind; [by apply keeps_st | intros _; apply keeps_pendflag].
  - apply keeps_bind; [by apply keeps_st | intros _; apply keeps_pendflag].
  - apply keeps_bind; [apply keeps_config | intros _; apply tri_ret].
Qed.

(** **** Receiving *)

Definition go_online (b : bool) : PM unit :=
  mod_st (fun g => {| g with online := true |});;
  (if b then on_gq gb_data_flush_sending;; on_gq gb_data_flush_realtm
   else
     on_gq gb_data_clear_report;; on_gq gb_data_clear_error;;
     mod_st (fun g => {| g with login := true |})).

(** Queue steps one after the other, from [gq p]. *)
Lemma trans_empty p p' q lost sq :
  core None p q lost sq -> q_trans q = [] -> acks sq = 0%nat -> stat (sk p) = SOCK_STAT_OPENED ->
  view p' = (gq p, sk p, true, gb_battcode p) -> wait (st p') <> PROT_LOGIN -> linked p'.
Proof.
  intros [I K B] Ht Ha Hs [= E1 E2 E3 E4] Hw. exists q, lost, sq. split; [split; by rewrite ?E1, ?E2, ?E4 |].
  rewrite E3, E2, Ht, Ha. split; [cbn; lia |]. by split; [| split].
Qed.

(** The login: no callback is in flight, and no pack waits for one. *)
Lemma go_online_ready b :
  tri (fun p => linked p /\ online (st p) = false /\ stat (sk p) = SOCK_STAT_OPENED /\ wait (st p) <> PROT_LOGIN /\
                b = login (st p) /\ (fl = None \/ b = true))
    (go_online b) (fun _ => ready).
Proof.
  intros p [] p' ((q & lost & sq & [I K B] & L1 & L2 & L3 & L4) & Hon & Hs & Hw & Hb & Hfl) (r & p1 & E0 & E)%st_bind_inv.
  specialize (L3 Hon Hs). unfold mod_st in E0.
  assert (core None p1 q lost sq /\ view p1 = (gq p, sk p, true, gb_battcode p) /\ wait (st p1) = wait (st p) /\ login (st p1) = b)
    as (C1 & Ev1 & Ew1 & El1).
  { cbv beta in E0. injection E0 as _ <-. split; [by split | by repeat split]. }
  rewrite <- Ew1 in Hw. injection Ev1 as Eg1 Es1 Eo1 Eb1. clear E0 I K B Hb Ew1. rewrite <- Es1 in Hs. destruct b.
  - apply st_bind_inv in E as (r2 & p2 & (g2 & E2 & ->)%on_gq_inv & (g3 & E3 & ->)%on_gq_inv). cbn [gq] in E3.
    destruct (gq_exec FlushSending None p1 q lost sq g2 None lost C1) as (q2 & C2 & M2); [done | done | cbn [exec thr c_gb]; by rewrite E2 |].
    destruct (gq_exec FlushRealtm None _ q2 lost sq g3 None lost C2) as (q3 & C3 & M3); [done | done | cbn [exec thr c_gb gq]; by rewrite E3 |].
    cbn in M2, M3. split; [| right; done]. eapply trans_empty; [exact C3 | congruence | done | done | | done]. unfold view. cbn. by rewrite Eo1.
  - destruct Hfl as [Hfl | ?]; [| done].
    apply st_bind_inv in E as (r2 & p2 & (g2 & E2 & ->)%on_gq_inv & (r3 & p3 & (g3 & E3 & ->)%on_gq_inv & E4)%st_bind_inv).
    cbn [gq] in E3. unfold mod_st in E4.
    destruct (gq_exec FirstLogin None p1 q lost sq g3 None [] C1) as (q3 & C3 & M3); [done | by apply bool_decide_eq_false, eq_None_not_Some | |].
    { cbn [exec thr c_gb]. unfold mbind at 2, st_bind. rewrite E2. by rewrite E3. }
    cbn in M3. injection E4 as <-. split; [| right; done].
    eapply trans_empty; [exact C3 | done | done | done | | done]. unfold view. cbn. by rewrite Eo1.
Qed.

Lemma ready_mod f : (forall p, view (f p) = view p) -> (forall p, wait (st (f p)) = PROT_LOGIN -> wait (st p) = PROT_LOGIN) ->
  (forall p, login (st (f p)) = login (st p)) -> tri ready (st_mod f) (fun _ => ready).
Proof. intros Hv Hw Hl. apply ready_keeps; [by apply keeps_mod |]. intros p a p' [= <- <-]. apply Hl. Qed.

Lemma ready_st f : (forall g, online (f g) = online g) -> (forall g, wait (f g) = PROT_LOGIN -> wait g = PROT_LOGIN) ->
  (forall g, login (f g) = login g) -> tri ready (mod_st f) (fun _ => ready).
Proof. intros Ho Hw Hl. apply ready_mod; intros p; [unfold view; cbn; by rewrite Ho | apply Hw | apply Hl]. Qed.

Definition handled (r : Z) (p : PROT) : Prop := linked p /\ (r = 0 -> ready p).

Lemma handled_ret r : tri ready (mret r) handled.
Proof. intros p x p' H [= <- <-]. by destruct H. Qed.

Lemma handled_after {A} (m : PM A) (k : A -> PM Z) :
  tri ready m (fun _ => ready) -> (forall a, tri ready (k a) handled) -> tri ready (m ≫= k) handled.
Proof. intros. by eapply tri_bind. Qed.

Lemma login_packet e a : tri ready (gb_handle_packet e PROT_LOGIN a) handled.
Proof.
  unfold gb_handle_packet. rewrite Z.eqb_refl. intros p r p' HP. st_run.
  destruct (Z.eqb_spec (wait (st p)) PROT_LOGIN) as [Hw | Hw]; cbn [negb]; [| by apply (handled_ret 0)].
  intros (r1 & p1 & E1 & E)%st_bind_inv. destruct (negb (a =? 1)).
  { eapply handled_ret; [| exact E]. eapply ready_st; [.. | exact HP | exact E1]; done. }
  apply st_bind_inv in E as (r2 & p2 & E2 & E). apply st_bind_inv in E as (r3 & p3 & E3 & E).
  assert (go_online (login (st p)) p1 = Some (r3, p3)) as Eg by (unfold go_online, mbind, st_bind; rewrite E2; exact E3).
  assert (ready p3) as R3.
  { destruct HP as [(q & lost & sq & C & L1 & L2 & L3 & L4) Hfl]. destruct (L4 Hw) as [Hon Hs].
    eapply go_online_ready; [| exact Eg]. injection E1 as _ <-. cbn [st sk online wait login].
    split; [| by repeat split]. eapply (linked_view p); [done | done |]. exists q, lost, sq. by split. }
  revert E. apply (fun H => H p3 r p' R3). clear.
  apply handled_after; [by apply ready_mod | intros _]. unfold save_reginf.
  apply handled_after; [by apply ready_mod | intros _]. apply handled_ret.
Qed.

Lemma keeps_handled {A} (m : PM A) : keeps m -> forall r, r <> 0 -> tri ready (m;; mret r) handled.
Proof.
  intros Hm r Hr p x p' [HP _] (a & s & E & [= <- <-])%st_bind_inv. split; [by eapply Hm | done].
Qed.

Lemma handled_if (b : bool) (m n : PM Z) : tri ready m handled -> tri ready n handled -> tri ready (if b then m else n) handled.
Proof. by destruct b. Qed.

Lemma handled_get (k : PROT -> PM Z) : (forall p, tri ready (k p) handled) -> tri ready (st_get ≫= k) handled.
Proof. intros H. apply tri_read. intros p0 _. apply H. Qed.

Lemma packet_ready e type a : tri ready (gb_handle_packet e type a) handled.
Proof.
  destruct (Z.eqb_spec type PROT_LOGIN) as [-> | N]; [apply login_packet |].
  unfold gb_handle_packet. rewrite (proj2 (Z.eqb_neq _ _) N). apply handled_get. intros p0.
  apply handled_if; [apply handled_if; [apply handled_ret |]; apply handled_if; [apply handled_ret |] |].
  - eapply tri_weaken with (P' := ready) (Q' := handled); [| done | done].
    assert (keeps (gb_reset (e_now e AtReset);; mod_st (fun g => {| g with login := false |});;
      st_mod (fun s => {| s with gb_allow_sleep := true |}))) as Hk.
    { apply keeps_bind; [apply keeps_reset | intros _]. apply keeps_bind; [by apply keeps_st | intros _; by apply keeps_mod]. }
    intros p x p' HP E. eapply (keeps_handled _ Hk (-1)); [done | exact HP |].
    rewrite !run_assoc. rewrite <- E. unfold mbind, st_bind. destruct (gb_reset _ p) as [[? ?]|]; [| done]. reflexivity.
  - apply handled_if; [| apply handled_ret]. apply handled_if; [apply handled_ret |]. apply handled_if; [apply handled_ret |].
    apply handled_after; [by apply ready_st | intros _; apply handled_ret].
Qed.

Lemma ready_done {A} (a : A) : tri ready (mret a) (fun _ => linked).
Proof. by intros p x p' [H _] [= _ <-]. Qed.

Lemma loop_linked e : forall fuel input off rlen, tri ready (receive_loop fuel e input off rlen) (fun _ => linked).
Proof.
  induction fuel as [|fuel IH]; intros input off rlen; cbn [receive_loop]; [by intros p r p' H |].
  destruct (rlen <=? 0); [apply ready_done |].
  apply tri_read. intros p0 _. apply tri_lift. intros [[res n] r] _.
  eapply tri_bind; [by apply ready_st | intros ?].
  destruct (negb (res =? 0)); [apply ready_done |].
  apply tri_lift. intros last _. apply tri_lift. intros body _.
  eapply (tri_bind _ handled).
  - apply handled_if; [apply handled_ret |]. 
    intros p x p' HP (ty & s & E1 & E)%st_bind_inv. unfold st_lift in E1. destruct (mem_get _ 2) as [v|]; [| done].
    injection E1 as <- <-. apply st_bind_inv in E as (ak & s2 & E2 & E). unfold st_lift in E2.
    destruct (mem_get _ 3) as [w|]; [| done]. injection E2 as <- <-. by eapply packet_ready.
  - intros ret. destruct (Z.eqb_spec ret 0) as [-> | N].
    + eapply tri_pre; [apply IH |]. intros p [_ H]. auto.
    + intros p x p' [H _] [= _ <-]. exact H.
Qed.

Lemma receive_linked e : tri ready (gb_do_receive e) (fun _ => linked).
Proof.
  unfold gb_do_receive. eapply tri_bind.
  { apply ready_keeps; [apply keeps_look, sock_recv_looks | apply no_login_sk]. }
  intros [rlen d]. destruct (rlen <? 0).
  - eapply tri_pre; [| by intros p []]. apply keeps_bind; [apply keeps_reset | intros _; apply tri_ret].
  - apply tri_lift. intros input _. apply loop_linked.
Qed.

(** **** Waiting, login, logout *)

Lemma keeps_fail {A} now (r : A) : keeps (gb_reset now;; mret r).
Proof. apply keeps_bind; [apply keeps_reset | intros _; apply tri_ret]. Qed.

(** A packet is made and sent, and what follows depends on the result. *)
Lemma keeps_packed {A} e at_ (k : Z -> PM A) : (forall res, keeps (k res)) ->
  keeps (buf ← gb_pack_logout e; res ← gb_send e at_ buf 0; k res).
Proof.
  intros Hk. eapply tri_bind; [apply keeps_pack_logout |]. intros buf p r p' [HP Hb].
  revert p r p' HP. change (keeps (res ← gb_send e at_ buf 0; k res)).
  apply keeps_bind; [by apply keeps_send | exact Hk].
Qed.

Lemma keeps_wait e : keeps (gb_do_wait e).
Proof.
  unfold gb_do_wait. apply keeps_get. intros p0. apply keeps_if; [apply tri_ret |].
  apply keeps_bind; [apply tri_when | intros _; apply tri_ret]. apply keeps_if.
  - apply keeps_bind; [by apply keeps_st | intros _; apply keeps_reset].
  - apply tri_lift. intros n _. apply keeps_bind; [by apply keeps_st | intros _]. apply keeps_if.
    + apply keeps_bind; [apply tri_when, keeps_bind; [by apply keeps_st | intros _; by apply keeps_mod] | intros _; apply keeps_reset].
    + apply tri_when, keeps_packed. intros res. apply keeps_if; [apply keeps_reset | by apply tri_when, keeps_st].
Qed.

Lemma keeps_logout e : keeps (gb_do_logout e).
Proof.
  unfold gb_do_logout. apply keeps_get. intros p0. apply keeps_if; [apply tri_ret |].
  apply keeps_bind; [apply keeps_nosending | intros n]. apply keeps_if; [| apply tri_ret].
  apply keeps_packed. intros res.
  apply keeps_bind; [apply keeps_if; [apply keeps_reset | by apply tri_when, keeps_st] | intros _; apply tri_ret].
Qed.

Definition onl (p : PROT) : Prop := online (st p) = true.

(** The login is sent while offline. *)
Lemma login_linked e : tri linked (gb_do_login e) (fun r p => linked p /\ (r = 0 -> onl p)).
Proof.
  unfold gb_do_login. intros p r p' HP. st_run. destruct (online (st p)) eqn:On; [by intros [= <- <-] |].
  intros ([] & p1 & E & [= <- <-])%st_bind_inv. split; [| done]. destruct (_ || _); cbn [st_when] in E; [| by injection E as <-].
  apply st_bind_inv in E as (buf & p2 & E1 & (res & p3 & E2 & E3)%st_bind_inv).
  pose proof HP as (q & lost & sq & [_ _ B] & _).
  destruct (pack_login_still e (view p) (st p) B p buf p2) as [[Hv Hs] Hb]; [done | done |].
  assert (linked p2) as H2 by (eapply (linked_view p); [done | by rewrite Hs | done]).
  assert (online (st p2) = false) as On2 by by rewrite Hs.
  assert (linked p3 /\ online (st p3) = false /\ (0 < res -> stat (sk p3) = SOCK_STAT_OPENED)) as (H3 & On3 & Ho).
  { split; [by eapply keeps_send |]. destruct H2 as (q2 & lost2 & sq2 & [_ K2 _] & _).
    unfold gb_send in E2. apply on_sk_inv in E2 as (k & E2 & ->). split; [done |]. intros Hr.
    destruct (sock_send_ok _ _ _ _ _ _ _ _ K2 Hb ltac:(by left) E2) as (Es & sq3 & _ & H). cbn [sk]. rewrite Es.
    destruct H as [[? _] | (_ & ? & _)]; [lia | done]. }
  revert E3. destruct (Z.ltb_spec res 0) as [N | N]; [by apply keeps_reset |].
  destruct (Z.eqb_spec res 0) as [-> | Hr]; cbn [negb st_when]; [by intros [= <-] |].
  specialize (Ho ltac:(lia)). destruct H3 as (q3 & lost3 & sq3 & C & L1 & L2 & L3 & L4). intros [= <-].
  exists q3, lost3, sq3. split; [by eapply core_view; [| exact C] |]. cbn [st sk online wait].
  split; [done |]. split; [done |]. split; [done |]. done.
Qed.

Lemma suspend_linked e : tri (fun p => linked p /\ onl p) (gb_do_suspend e) (fun r p => linked p /\ (r = 0 -> onl p)).
Proof.
  unfold gb_do_suspend. intros p r p' [HP On]. st_run. destruct (suspend (st p)); [| by intros [= <- <-]].
  intros (n & p1 & E1 & E2)%st_bind_inv. assert (linked p1) as H1 by by eapply keeps_nosending.
  apply on_gq_inv in E1 as (g & _ & ->). destruct n; [| by injection E2 as <- <-].
  apply st_bind_inv in E2 as (x & p2 & E2 & [= <- <-]). split; [by eapply keeps_reset | done].
Qed.

(** **** Reports *)

Lemma get_pack_core p q lost sq x g :
  core None p q lost sq -> gb_data_get_pack (gq p) = Some (x, g) ->
  exists q', core x {| p with gq := g |} q' lost sq /\ q_trans q' = q_trans q.
Proof. intros C E. by apply (gq_exec GetPack None p q lost sq g x lost C); [| done | cbn [exec thr c_gb]; rewrite E]. Qed.

Lemma report_sendable x p q lost sq v buf :
  core (Some x) p q lost sq -> packs (gq p) !! x = Some v -> gb_pack_report (gb_vin p) v = Some buf -> sendable buf.
Proof.
  intros [[G _ _ _ _] _ _] Ev Eb. destruct (hand_free _ _ _ _ (go_bufs _ _ _ _ G)) as [Hx _].
  destruct (rep_packs _ _ (go_rep _ _ _ _ G) x ltac:(by left)) as (w & Ew & Hw). cbn [c_gb thr] in Ew.
  rewrite Ev in Ew. injection Ew as <-. unfold gb_pack_report in Eb.
  destruct (gb_pack_head _ _ _) as [h|] eqn:Eh; [| done]. cbn [mbind option_bind] in Eb.
  destruct (mem_read (pdata v) 0 (plen v)) as [d|] eqn:Ed; [| done]. injection Eb as <-.
  apply pack_head_len in Eh. pose proof (mem_read_le _ _ _ _ Ed) as Hn. apply mem_read_len in Ed.
  unfold sendable. rewrite sealed_len, len_app, Eh. cbn [app be16]. rewrite !len_cons, Ed. pose proof (len_nonneg d). lia.
Qed.

(** Online, with a pack in hand. *)
Definition holding (x : Z) (p : PROT) : Prop :=
  onl p /\ exists q lost sq, core (Some x) p q lost sq /\
    link true (wait (st p)) (stat (sk p)) (length (q_trans q)) (acks sq).

Lemma back_linked x : tri (holding x) (on_gq (gb_data_put_back x)) (fun _ => linked).
Proof.
  intros p r p' (On & q & lost & sq & C & L) (g & E & ->)%on_gq_inv.
  destruct (gq_exec PutBack (Some x) p q lost sq g None lost C) as (q' & C' & M); [by eexists | done | |].
  { cbn [exec thr c_hand c_gb mbind option_bind]. by rewrite E. }
  cbn in M. exists q', lost, sq. split; [done |]. cbn [st sk]. rewrite M. unfold onl in On. by rewrite On.
Qed.

Lemma lost_linked x : forall p, holding x p -> linked p.
Proof.
  intros p (On & q & lost & sq & C & L). destruct (gq_exec LosePack (Some x) p q lost sq (gq p) None (x :: lost) C) as (q' & C' & M);
    [by eexists | done | done |].
  cbn in M. exists q', (x :: lost), sq. split; [by eapply core_view; [| exact C'] |]. rewrite M. unfold onl in On. by rewrite On.
Qed.

(** The pack was given to the socket with its callback. *)
Lemma sent_linked x p p1 e buf res p2 r :
  holding x p -> sendable buf -> gb_send e AtReport buf ACK_PACK p = Some (res, p1) ->
  (res <= 0 -> holding x p1) /\ (0 < res -> on_gq (gb_data_put_send x) p1 = Some (r, p2) -> linked p2).
Proof.
  intros (On & q & lost & sq & [I K B] & L1 & L2 & L3 & L4) Hb E. unfold gb_send in E. apply on_sk_inv in E as (k & E & ->).
  destruct (sock_send_ok _ _ _ _ _ _ _ _ K Hb ltac:(by right) E) as (Es & sq' & K' & H). destruct (L2 eq_refl) as [Ho Ha].
  assert (core (Some x) {| p with sk := k |} q lost sq') as C' by by split.
  split; intros Hr; destruct H as [[? Hq] | (? & _ & Hq)]; try lia.
  - split; [done |]. exists q, lost, sq'. split; [done |]. cbn [st sk]. rewrite Es, Hq. done.
  - rewrite decide_True in Hq by done. intros (g & E2 & ->)%on_gq_inv.
    destruct (gq_exec PutSend (Some x) _ q lost sq' g None lost C') as (q' & C2 & [y M]); [by eexists | done | |].
    { cbn [exec thr c_hand c_gb mbind option_bind]. by rewrite E2. }
    exists q', lost, sq'. split; [done |]. cbn [st sk]. unfold onl in On. rewrite On, Es, M, length_app. cbn [length].
    destruct (sock_open_refines _ _ K' ltac:(congruence)) as (fr & bk & us & R).
    pose proof (acks_bound _ _ _ _ _ R (so_acks _ _ K')) as Hm.
    split; [lia |]. split; [intros _; split; [done | lia] |]. split; [done |]. intros Hw. by destruct (L4 Hw).
Qed.

Lemma report_linked e : tri (fun p => linked p /\ onl p) (gb_do_report e) (fun _ => linked).
Proof.
  unfold gb_do_report. intros p r p' [(q & lost & sq & C & L) On] (rpt & p1 & (g & E1 & ->)%on_gq_inv & E)%st_bind_inv.
  unfold onl in On. rewrite On in L. destruct (get_pack_core p q lost sq rpt g C E1) as (q1 & C1 & M1). destruct rpt as [x|]; cycle 1.
  { injection E as _ <-. exists q1, lost, sq. split; [done |]. cbn [st sk]. rewrite On, M1. exact L. }
  assert (holding x {| p with gq := g |}) as H1.
  { split; [done |]. exists q1, lost, sq. split; [done |]. cbn [st sk]. by rewrite M1. }
  clear C L On E1 C1 M1. set (p1 := {| p with gq := g |}) in *. clearbody p1.
  apply st_bind_inv in E as (sz & p2 & (k & E2 & ->)%on_sk_inv & E). apply (sock_look _ _ _ _ (sock_bufsz_looks _ _)) in E2 as ->.
  replace {| p1 with sk := sk p1 |} with p1 in E by by destruct p1.
  destruct (_ <=? _); [| injection E as _ <-; by eapply lost_linked].
  revert E. st_run. destruct (packs (gq p1) !! x) as [v|] eqn:Ev; [| done]. st_run.
  destruct (gb_pack_report (gb_vin p1) v) as [buf|] eqn:Eb; [| done]. st_run.
  assert (sendable buf) as Hb by (destruct H1 as (_ & q2 & l2 & s2 & C2 & _); by eapply report_sendable).
  intros (res & p3 & E3 & E)%st_bind_inv. destruct (sent_linked x p1 p3 e buf res) with (p2 := p') (r := tt) as [Hle Hgt]; [done | done | done |].
  revert E. destruct (Z.ltb_spec res 0) as [N | N].
  - intros ([] & p4 & E4 & (? & p5 & E5 & [= _ <-])%st_bind_inv)%st_bind_inv.
    eapply keeps_reset; [| exact E5]. eapply back_linked; [| exact E4]. apply Hle. lia.
  - destruct (Z.eqb_spec res 0) as [-> | Hr]; intros ([] & p4 & E4 & [= _ <-])%st_bind_inv.
    + eapply back_linked; [| exact E4]. apply Hle. lia.
    + apply Hgt; [lia | exact E4].
Qed.

(** **** A round *)

Lemma tri_or_else P R (a b : PM Z) :
  tri P a (fun r p => linked p /\ (r = 0 -> R p)) -> tri R b (fun _ => linked) -> tri P (or_else a b) (fun _ => linked).
Proof.
  intros Ha Hb p x p' HP (r & p1 & E1 & E2)%st_bind_inv. destruct (Ha _ _ _ HP E1) as [H1 H2].
  destruct (Z.eqb_spec r 0) as [-> | N]; cbn [negb] in E2; [| by injection E2 as _ <-].
  eapply Hb; [by apply H2 | exact E2].
Qed.

Lemma keeps_or_else (a b : PM Z) : keeps a -> keeps b -> keeps (or_else a b).
Proof. intros Ha Hb. eapply tri_or_else; [| exact Hb]. intros p r p' HP E. split; [| intros _]; by eapply Ha. Qed.

#[local] Hint Extern 0 (no_login (on_gq _)) => apply no_login_gq : steps.
#[local] Hint Extern 0 (no_login (on_sk _)) => apply no_login_sk : steps.
#[local] Hint Extern 0 (no_login (st_mod _)) => (apply steps_mod; by intros) : steps.
#[local] Hint Extern 0 (no_login (mod_st _)) => (apply steps_mod; by intros) : steps.

Lemma no_login_message e msg : no_login (gb_message e msg).
Proof. unfold gb_message, gb_do_config, gb_reset. steps_tac. Qed.

Lemma no_login_checksock e : no_login (gb_do_checksock e).
Proof. unfold gb_do_checksock, gb_reset. steps_tac. Qed.

Lemma iteration_linked e msg : (forall u, e_outq e = Some u -> 0 <= u < 2 ^ 30) ->
  tri ready (gb_iteration e msg) (fun _ => linked).
Proof.
  intros Hu. unfold gb_iteration. eapply tri_bind; [apply ready_keeps; [apply keeps_message | apply no_login_message] |].
  intros ?. eapply (tri_bind _ (fun _ => linked)); [| intros ?; apply tri_ret].
  apply (tri_or_else ready ready).
  { eapply tri_weaken; [apply ready_keeps; [by apply keeps_checksock | apply no_login_checksock] | done |].
    intros r p H. split; [apply H | done]. }
  assert (forall (b : PM Z), keeps b -> tri ready (or_else (gb_do_receive e) b) (fun _ => linked)) as Hr.
  { intros b Hb. apply (tri_or_else ready linked); [| done]. eapply tri_weaken; [apply receive_linked | done | auto]. }
  apply Hr. apply keeps_or_else; [apply keeps_wait |].
  eapply (tri_or_else linked (fun p => linked p /\ onl p)).
  { eapply tri_weaken; [apply login_linked | done |]. intros r p [H1 H2]. auto. }
  eapply (tri_or_else _ (fun p => linked p /\ onl p)).
  { eapply tri_weaken; [apply suspend_linked | done |]. intros r p [H1 H2]. auto. }
  eapply (tri_or_else _ linked); [| apply keeps_logout].
  eapply tri_weaken; [apply report_linked | done | auto].
Qed.
End link.

(** ** The theorem *)

Lemma can_action_link sigcnt inf fl a p q lost sq c' :
  core sigcnt inf fl None p q lost sq -> link (online (st p)) (wait (st p)) (stat (sk p)) (length (q_trans q)) (acks sq) ->
  can_action a = true -> enabled sigcnt a (thr inf fl (gq p) None lost) ->
  match a with Loaded _ => stat (sk p) <> SOCK_STAT_OPENED | _ => True end ->
  exec a (thr inf fl (gq p) None lost) = Some c' ->
  exists q', inv sigcnt c' q' /\ link (online (st p)) (wait (st p)) (stat (sk p)) (length (q_trans q')) (acks sq).
Proof.
  intros [I _ _] (L1 & L2 & L3 & L4) Hc En Hl Ex.
  assert (collides a (thr inf fl (gq p) None lost) = false) as Hq by (destruct a; done).
  destruct (exec_inv sigcnt _ q I a En Hq) as [(c2 & q' & E & I' & M) | [E _]]; rewrite Ex in E; [| done].
  injection E as <-. exists q'. split; [done |].
  destruct a; cbn in Hc, M; try done; rewrite M; try (by split); cbn [length].
  split; [lia |]. split; [intros Ho; by destruct (L2 Ho) | by split].
Qed.

Lemma start_linked sigcnt y : sys_start sigcnt y -> linked sigcnt (y_inf y) (y_flush y) (y_prot y).
Proof.
  intros [Hi (g & Mg & Hg & E) Hf (M & Ht & Hs) (Hon & Hw) Hb].
  destruct (fresh_inv sigcnt g (y_inf y) None [] Mg Hi Hg eq_refl eq_refl) as (g' & E' & I).
  rewrite E in E'. injection E' as <-. rewrite <- Hf in I.
  exists (fresh (err_ring (GROUP_SIZE (y_inf y) * 30))), [], new_queue.
  split; [split; [exact I | split; [done | done | by rewrite Hs | done] | done] |].
  rewrite Hon, Hs, Hw. split; [cbn; lia |]. by split.
Qed.

Lemma finished_linked sigcnt inf fl fd stt now p r p' : linked sigcnt inf fl p ->
  stat (sk p) = SOCK_STAT_INPROG -> stt = SOCK_STAT_OPENED \/ stt = SOCK_STAT_CLOSED ->
  on_sk (sock_finish fd stt now) p = Some (r, p') -> linked sigcnt inf fl p'.
Proof.
  intros (q & lost & sq & [I K B] & L1 & L2 & L3 & L4) Hs Hst (k & E & ->)%on_sk_inv.
  destruct (sock_finish_ok _ _ _ _ _ _ _ K Hs Hst E) as [K' Hs']. exists q, lost, new_queue.
  split; [by split |]. cbn [st sk]. rewrite Hs'. split; [done |].
  split; [intros Ho; destruct (L2 Ho); congruence |]. split; [done |]. intros Hw. destruct (L4 Hw). congruence.
Qed.

(** What the protocol thread dropped before does not matter. *)
Lemma exec_lost a inf fl g lost c : can_action a = true -> exec a (thr inf fl g None []) = Some c ->
  exists lost', exec a (thr inf fl g None lost) =
    Some {| c_gb := c_gb c; c_inf := c_inf c; c_hand := None; c_lost := lost'; c_flush := c_flush c |}.
Proof.
  intros Hc. destruct a; try done; cbn [exec thr c_gb c_inf c_hand c_lost c_flush];
    match goal with |- context [mbind (M:=option) _ ?m] => destruct m as [[? ?]|] end; try done;
    cbn [mbind option_bind]; intros [= <-]; by eexists.
Qed.

Lemma sys_linked sigcnt y : sys_reach sigcnt false y -> linked sigcnt (y_inf y) (y_flush y) (y_prot y).
Proof.
  intros H. remember false as hit eqn:Hh. revert Hh.
  induction H as [y H | hit y ev y' _ IH En Ex]; intros Hh; [by apply start_linked |].
  apply orb_false_iff in Hh as [-> Hh]. specialize (IH eq_refl).
  destruct ev as [e msg | a | fd stt now]; cbn [sys_exec sys_enabled sys_collides] in *.
  - assert (y_flush y = None \/ login (st (y_prot y)) = true) as Hl.
    { apply andb_false_iff in Hh as [Hh%bool_decide_eq_false | Hh%negb_false_iff]; [left; by apply eq_None_not_Some | by right]. }
    destruct (gb_iteration e msg (y_prot y)) as [[[] p]|] eqn:E; [| done]. injection Ex as <-.
    eapply iteration_linked; [exact En | | exact E]. by split.
  - destruct En as [Hc En]. destruct (exec a (threads y None [])) as [c|] eqn:E; [| done]. injection Ex as <-.
    destruct IH as (q & lost & sq & C & L). destruct (exec_lost _ _ _ _ lost _ Hc E) as [lost' E'].
    destruct (can_action_link _ _ _ a _ _ _ _ {| c_gb := c_gb c; c_inf := c_inf c; c_hand := None; c_lost := lost'; c_flush := c_flush c |} C L Hc)
      as (q' & I' & L'); [by destruct a | destruct a; try done; by apply bool_decide_eq_false in Hh | done |].
    exists q', lost', sq. split; [| exact L']. destruct C as [_ K B]. by split.
  - destruct En as [Hs Hst]. destruct (on_sk _ (y_prot y)) as [[r p]|] eqn:E; [| done]. injection Ex as <-.
    by eapply finished_linked.
Qed.

(** C24: While online the packs that wait for an acknowledgement are the callbacks that
    the socket holds.  In every run of the rounds of the protocol thread, the steps of
    the CAN thread between them and the ends of connection attempts, in which no
    database is loaded on an open connection and no round before the first login
    meets an error flush: online means an open connection with exactly as many
    callbacks in flight as packs in [gb_trans_lst]; an open connection before the
    login holds no callback (packs of the last connection may still be in
    [gb_trans_lst] until the login sends them again); at most 36 packs wait. *)
Theorem gb_acks_match sigcnt y : sys_reach sigcnt false y ->
  exists q sq, rep (gq (y_prot y)) q /\ (length (q_trans q) <= 36)%nat /\
    (online (st (y_prot y)) = true -> stat (sk (y_prot y)) = SOCK_STAT_OPENED) /\
    (stat (sk (y_prot y)) = SOCK_STAT_OPENED ->
      (exists fr bk us, refines (sk (y_prot y)) sq fr bk us) /\ Forall entry_ok (hist sq) /\
      acks sq = if online (st (y_prot y)) then length (q_trans q) else 0%nat).
Proof.
  intros (q & lost & sq & [[[R _ _] _ _ _ _] K B] & L1 & L2 & L3 & L4)%sys_linked. exists q, sq.
  split; [exact R |]. split; [done |]. split; [intros Ho; by destruct (L2 Ho) |]. intros Hs.
  split; [by apply sock_open_refines |]. split; [apply (so_acks _ _ K) |].
  destruct (online _) eqn:Eo; [by destruct (L2 eq_refl) | auto].
Qed.

(** ** A run of the system *)

(** The environment of a round: [d] is received, every call of [send] takes a byte. *)
Definition env_demo (d : option (list Z)) : ENV := {|
  e_now _ := 50; e_then _ := 60; e_sends _ := replicate 1300 1; e_sockerr := Some 0; e_outq := Some 0; e_created := 0;
  e_recv := d; e_again := true; e_stack := zeros 1024; e_sndbuf := Some 10000; e_bufq := Some 0;
  e_abstime := {| year := 2019; mon := 1; mday := 2; hour := 3; min := 4; sec := 5 |}; GbProt.e_iccid := []; e_cfg _ := 0 |}.

Definition prot_start (g : GB) : PROT :=
  let p := prot0 0 in let s := stat0 0 in
  {| p with gq := g; sk := sock0; gb_battcode := 66 :: zeros 63; st := {| s with network := 0 |} |}.

Definition sys_begin0 (g : GB) : SYS := {| y_prot := prot_start g; y_inf := demo_info; y_flush := None |}.

(** A report, the network, the connection, the login and its acknowledgement, and a
    report that is sent. *)
Definition demo_events : list SYS_EVENT :=
  [Can (SaveRealtm demo_env 1); Round (env_demo None) (GB_MSG_NETWORK 1); Finished 5 SOCK_STAT_OPENED 40;
   Round (env_demo None) GB_NO_MSG; Round (env_demo (Some (pk_bytes (ack_packet PROT_LOGIN 1 [19; 1; 2; 3; 4; 5])))) GB_NO_MSG;
   Can (SaveRealtm demo_env 2); Round (env_demo None) GB_NO_MSG].

Definition demo_event (ev : SYS_EVENT) (y : SYS) : option SYS :=
  match ev with
  | Finished _ _ _ => if bool_decide (stat (sk (y_prot y)) = SOCK_STAT_INPROG) then sys_exec ev y else None
  | _ => sys_exec ev y
  end.

Fixpoint demo_system (evs : list SYS_EVENT) (y : SYS) : option SYS :=
  match evs with [] => Some y | ev :: evs => y ← demo_event ev y; demo_system evs y end.

Definition demo_online (r : option (unit * GB)) : bool :=
  match r with
  | Some (_, g) =>
      match demo_system demo_events (sys_begin0 g) with
      | Some y => online (st (y_prot y)) && (len (out (sk (y_prot y))) =? 205)
      | None => false
      end
  | None => false
  end.

Definition demo_allowed (ev : SYS_EVENT) : Prop :=
  match ev with
  | Round e _ => e_outq e = Some 0
  | Can (SaveRealtm env _) => env = demo_env
  | Can _ => False
  | Finished _ stt _ => stt = SOCK_STAT_OPENED
  end.

Lemma demo_events_allowed : Forall demo_allowed demo_events.
Proof. repeat (apply Forall_cons_2; [reflexivity |]). apply Forall_nil_2. Qed.

(** The events above leave the flush and the tables alone. *)
Lemma demo_exec_keeps ev y y' : demo_allowed ev -> sys_exec ev y = Some y' -> y_flush y' = y_flush y /\ y_inf y' = y_inf y.
Proof.
  destruct ev as [e msg | a | fd stt now]; cbn [demo_allowed sys_exec].
  - intros _. destruct (gb_iteration _ _ _) as [[? ?]|]; [by intros [= <-] | done].
  - destruct a; try done. intros ->. cbn [exec]. destruct (gb_data_save_realtm _ _ _ _) as [[? ?]|]; [by intros [= <-] | done].
  - intros _. destruct (on_sk _ _) as [[? ?]|]; [by intros [= <-] | done].
Qed.

Lemma demo_event_reach ev y y' :
  demo_allowed ev -> sys_reach 7 false y -> y_flush y = None -> y_inf y = demo_info -> demo_event ev y = Some y' ->
  sys_reach 7 false y' /\ y_flush y' = None /\ y_inf y' = demo_info.
Proof.
  intros Ha Hy Hf Hi E.
  assert (sys_enabled 7 ev y /\ sys_collides ev y = false /\ sys_exec ev y = Some y') as (En & Hc & Ex).
  { destruct ev as [e msg | a | fd stt now]; cbn [demo_event demo_allowed sys_enabled sys_collides] in *.
    - split; [| split; [rewrite Hf; reflexivity | exact E]]. rewrite Ha. clear. intros u [= <-]. lia.
    - destruct a; try (exfalso; exact Ha). subst env. split; [| split; [reflexivity | exact E]]. split; [reflexivity |].
      split; [exact Hf |]. cbn [threads c_inf]. rewrite Hi. apply demo_encodable.
    - case_bool_decide as Hb; [| discriminate E]. split; [| split; [reflexivity | exact E]]. split; [exact Hb | left; exact Ha]. }
  destruct (demo_exec_keeps _ _ _ Ha Ex) as [H1 H2]. split; [eapply sys_quiet; [exact Hy | exact En | exact Hc | exact Ex] |].
  split; [etrans; [exact H1 | exact Hf] | etrans; [exact H2 | exact Hi]].
Qed.

Lemma demo_system_reach evs : forall y y', Forall demo_allowed evs -> sys_reach 7 false y -> y_flush y = None -> y_inf y = demo_info ->
  demo_system evs y = Some y' -> sys_reach 7 false y'.
Proof.
  induction evs as [|ev evs IH]; intros y y' Hi Hy Hf Hn; cbn [demo_system]; [by intros [= <-] |].
  apply Forall_cons_1 in Hi as [Ha Hi].
  destruct (demo_event ev y) as [y1|] eqn:E; [| discriminate]. cbn [mbind option_bind].
  destruct (demo_event_reach ev y y1 Ha Hy Hf Hn E) as (H1 & H2 & H3). apply IH; assumption.
Qed.

Lemma demo_begin : exists g, dbc_finished demo_info gb0 = Some (tt, g) /\ sys_start 7 (sys_begin0 g).
Proof.
  destruct (dbc_finished_run 7 demo_info gb0 gb0_mem_ok demo_info_ok) as (g & E & _). exists g. split; [exact E |].
  constructor.
  - exact demo_info_ok.
  - exists gb0. split; [apply gb0_mem_ok |]. split; [split; reflexivity | exact E].
  - reflexivity.
  - split; [exact sock0_mem_ok | split; reflexivity].
  - split; reflexivity.
  - reflexivity.
Qed.

Lemma demo_online_true : demo_online (dbc_finished demo_info gb0) = true.
Proof. vm_compute. reflexivity. Qed.

Lemma demo_online_inv g : demo_online (Some (tt, g)) = true ->
  exists y, demo_system demo_events (sys_begin0 g) = Some y /\ online (st (y_prot y)) = true /\ len (out (sk (y_prot y))) = 205.
Proof.
  unfold demo_online. generalize (demo_system demo_events (sys_begin0 g)). intros [y|]; [| done].
  intros [H1 H2]%andb_true_iff. exists y. split; [reflexivity |]. split; [exact H1 |]. by apply Z.eqb_eq.
Qed.

(** Online, with a report under way. *)
Lemma gb_acks_match_witness : exists y q sq, sys_reach 7 false y /\ online (st (y_prot y)) = true /\ len (out (sk (y_prot y))) = 205 /\
  rep (gq (y_prot y)) q /\ acks sq = length (q_trans q).
Proof.
  pose proof demo_online_true as H. destruct demo_begin as (g & E & Hs). rewrite E in H.
  apply demo_online_inv in H as (y & Ey & Hon & Hout).
  assert (sys_reach 7 false y) as Hy by (eapply demo_system_reach; [exact demo_events_allowed | apply sys_begin; exact Hs | reflexivity | reflexivity | exact Ey]).
  destruct (gb_acks_match 7 y Hy) as (q & sq & R & _ & Ho & Hl). destruct (Hl (Ho Hon)) as (_ & _ & Ha). rewrite Hon in Ha.
  exists y, q, sq. split; [exact Hy |]. split; [exact Hon |]. split; [exact Hout |]. split; [exact R | exact Ha].
Defined.
